(* ===== verification/_CoqProject ===== *)
-Q . S2P
Prelude.v
Types.v
Float.v
Numeric.v
NumericFacts.v
Instruction.v
AST.v
Memory.v
MemoryFacts.v
FileMgr.v
FileMgrFacts.v
LEB128.v
Loader.v
LoaderFacts.v
LoaderRoundtrip.v
FileStream.v
FormChecker.v
FormCheckerFacts.v
Validator.v
ValidatorFacts.v
StackMgr.v
Runtime.v
Interpreter.v
EngineSpec.v
EngineRefine.v
EngineFuel.v
EngineFacts.v
Instantiate.v
StoreFacts.v
InstantiateFacts.v
VM.v
VMFacts.v
HostFunc.v
HostFuncFacts.v
HexStr.v
CString.v
Compiler.v
CompilerFacts.v
CompilerControl.v
Keccak.v
KeccakFacts.v
EEI.v
EEIGas.v
EEIFacts.v
Wasi.v
WasiFacts.v
TimeRecord.v
Onnc.v
OnncFacts.v
HostModules.v
Qitc.v
Evmc.v
EvmcFacts.v
Json.v
Proxy.v
ProxySnapshot.v
ProxyFacts.v
LegacyRuntime.v
LegacyWorker.v
LegacyExecutor.v
LegacyVM.v
LegacyFacts.v
LegacySim.v
LegacyControl.v
LegacyEEI.v
LegacyWasi.v
LegacyHostFacts.v
LegacyEEIFacts.v
LegacyWasiFacts.v
LegacyOnnc.v
LegacyWorld.v
Library.v
LibraryFacts.v
