(* ===== verification/Prelude.v ===== *)
(** * SSVM: a verification development

    SSVM is a WebAssembly virtual machine in C++.  A binary module is parsed into a syntax
    tree (loader, lib/loader and lib/ast), checked (validator, lib/validator), instantiated
    into a store (lib/interpreter/instantiate over include/runtime) and run by an
    interpreter that keeps a value stack, a label stack, a frame stack and a stack of
    instruction sequences (lib/interpreter/engine).  A facade with a stage
    Inited / Loaded / Validated / Instantiated drives the four parts (lib/expvm).  Host
    modules give programs access to the outside: the Ethereum Environment Interface over an
    EVMC host (lib/host/ethereum), WASI over system calls (lib/host/wasi), the tensor
    functions of the ONNC runtime (lib/host/onnc) and a storage interface that is still to be
    written (lib/host/ssvm_native).  A proxy runs requests that arrive as JSON files in such
    a VM (lib/proxy).  A compiler translates modules to LLVM and runs them in a library with
    host functions of its own (lib/compiler).  The repository also keeps the generation before: an executor with an engine, stacks and
    store of its own (lib/executor), a VM that loads, validates, instantiates and runs a
    module in one call (lib/vm), and its Ethereum, WASI and ONNC functions (lib/vm/hostfunc).

    ** How the code is modelled

    Code that may fail and change its object is a state monad [M S A] (this file): a run
    returns the state after it and a [res], which is a value, an [ErrCode] of errcode.h,
    undefined behaviour of C++ ([Undef], with its reason) or [NoFuel].  An error keeps
    what was written before it, as in the code.  A read outside a vector, a dereference of
    an [Expect] that holds an error, a shift by the width or more, a cast of a node to a
    class it does not have and an out-of-range conversion of a float are [Undef], and so is
    an exception nobody catches, with a reason of its own ([UB_throw]).  Machine
    integers are [Z] with [wrap] (unsigned) and [sgn] (signed) written where C++ wraps; a
    left shift of a signed operand is the two's complement one.  A [float] or [double] is
    its bit pattern, computed with through the Standard Library's IEEE 754
    ([spec_float]); the NaN an operation produces is the canonical one.  A value of the
    stack is the untagged union it is in C++: eight bytes and whether the upper four were
    written.  A [std::map] is an association list ordered by key.

    ** Files

    - Prelude: error codes, the monad and its laws, machine integers, byte lists, vectors.
    - Types: include/common/{types,value}.h, include/support/{variant,casting}.h.
    - Float, Numeric: the templates of include/interpreter/engine/*_numeric.ipp;
      NumericFacts compares them with reference operators on [Z].
    - Instruction, AST: include/common/ast; node makers and copies of
      lib/ast/instruction.cpp.
    - Memory: include/runtime/instance/memory.h; MemoryFacts relates the lazily allocated
      vector to a flat byte array through an equivalence the operations respect.
    - FileMgr: include/loader/filemgr.h and lib/loader/filemgr.cpp.  The class [FileMgr] is
      the virtual interface, [FileMgrVector] and [FileMgrFStream] (over a model of what it
      uses of std::ifstream) the implementations; FileMgrFacts states what the interface
      promises as the class [ByteSource]; FileMgrFacts and FileStream prove that the two
      implementations have it; LEB128 has the encoders.
    - Loader: every loadBinary of lib/ast and both Loader::parseModule; LoaderFacts proves
      facts for every [ByteSource], LoaderRoundtrip inverts a reference encoder.
    - FormChecker, Validator: lib/validator; FormCheckerFacts, ValidatorFacts.
    - StackMgr, Runtime: include/runtime (stacks, instances, store, import objects) and
      include/support/measure.h.
    - Interpreter: lib/interpreter/engine and Interpreter::invoke.  EngineSpec is a
      structured semantics without labels and scopes, EngineRefine the simulation,
      EngineFuel the termination argument, EngineFacts the agreement with the validator.
    - Instantiate: lib/interpreter/instantiate, registration of modules; StoreFacts,
      InstantiateFacts.
    - VM: lib/expvm and include/expvm; VMFacts.
    - HostFunc: the template of include/runtime/hostfunc.h, by the C++ types of the
      arguments; HostFuncFacts proves that every host function made with it meets the
      interfaces [host_values_only] of the refinement and, by its body, [host_metered] of
      the termination argument.
    - HexStr: include/support/hexstr.h.
    - EEI: lib/host/ethereum; EEIGas has the gas accounting, EEIFacts storage, static mode,
      copies and messages.
    - Keccak: thirdparty/keccak, the hash of callStatic; KeccakFacts.
    - Wasi: lib/host/wasi; WasiFacts.
    - TimeRecord: include/support/time.h.  Onnc: lib/host/onnc; OnncFacts has a reference for
      every function, made from the prototypes of thirdparty/onnc.
    - HostModules: the VM with both modules, and the theorems of all parts put together;
      the class [HostLaws] is what a host module promises to the VM.
    - Qitc: include/host/ssvm_native, and tools/ssvm-qitc with its module of timers and the
      VM with the ONNC module.
    - Evmc: tools/ssvm-evmc/evmccreate.cpp, the entry point that runs a message in a VM
      with the EEI module; EvmcFacts.
    - CString: numbers in text, as the C and C++ libraries convert them; Json: the values
      and accessors of thirdparty/rapidjson.  Proxy: lib/proxy, the programs ssvm-proxy and
      ssvm; ProxySnapshot has the round trip of snapshots, ProxyFacts the responses.
    - LegacyRuntime: include/vm/{configure,costtable,envmgr}.h and include/executor: stack,
      instances, store and host functions of the first generation (a module [L...] each).
    - LegacyWorker: lib/executor/worker.cpp and lib/executor/worker, the engine;
      LegacyExecutor: lib/executor/executor.cpp and lib/executor/instantiate, the state
      machine, instantiation, snapshot and restore; LegacyVM: lib/vm/vm.cpp.
    - LegacyFacts: the life cycle of the executor and the reuse of the VM.  LegacySim and
      LegacyControl: the interpreter state an engine state stands for ([abs]), and the
      agreement of the two engines, instruction by instruction, then for whole runs.
    - LegacyEEI, LegacyWasi: lib/vm/hostfunc/{ethereum,wasi}; LegacyHostFacts: what it means
      that host functions of the two generations agree, and the rules to show it, with which
      LegacyEEIFacts and LegacyWasiFacts compare the modules function by function; LegacyOnnc
      has lib/vm/hostfunc/onnc and the comparison.
    - LegacyWorld: the first generation VM with its host functions, and a contract run in it.
    - Compiler: the translation of functions and sections of lib/compiler/compiler.cpp, over
      the class [LLVM] of the operations of LLVM it calls.  CompilerFacts: the meaning of the
      instructions of LLVM (class [LLVMLaws]), a reference for straight-line integer code, and
      the simulations of the interpreter and of the compiled code with it; [Fold] is an
      instance of both classes.  CompilerControl: what holds with every builder.
    - Library: lib/compiler/library.cpp, the host functions of compiled code (modules
      [AotEEI], [AotWasi]), the driver of the compiler and the program ssvm-aot (module
      [Aot]); LibraryFacts.

    A record has the fields of its class, a definition the name of its function (with the
    overload's argument in the name where C++ overloads: [validateLimit], [loadLimit]).  A
    vector whose back is its top (the stacks, the instruction scopes) is a list with the
    top first.  Pointers into the store are addresses; the store's pools hold the
    instances by value with the number of those it owns and of those it resets, so one
    host object registered twice is two instances.  Host functions are a record of
    functions on the value stack, the memory, the measurement and a state [H] of the
    host; the body of a host function is a computation on the memory, the measurement, the
    state of its module and the result it assigns ([HostCtx]).  In VM the modules
    registered at creation are parameters, which HostModules fills in.  Parameters remain
    for what is outside: the contents of the files a path leads to, the EVMC host
    ([evmc_host_interface], a record of its callbacks on a state of its own), the functions of
    the ONNC runtime ([ONNCRuntime]), the clock and the output of ssvm-qitc ([Outside]) and
    the system calls ([OS]).  The Ethereum functions take their hash as an argument, of which
    [keccak256] of Keccak is an instance.  What a theorem needs of the host is a named
    hypothesis ([host_gas_law], [codeless], the class [StorageLaws]) that a concrete host
    satisfies.  For the proxy also the parser and writer of rapidjson, the file system and
    boost's printing of floats ([Machine]) and its hexadecimal functions ([HexLib], whose
    documented behaviour is the class [HexLaws]) are parameters, for the compiler LLVM
    ([LLVM], whose documented behaviour on straight-line code is [LLVMLaws]) and its engine.

    ** What is proved

    - Numbers: every integer operator, comparison and shift is the WebAssembly one, and
      the counting loops end and count; where they differ (clz of 0, rotation by the
      width, some float cases), that is proved.
    - Memory: up to 59577 pages, accesses refine a flat array of the pages and stores and
      loads round-trip at every width; growth is right below 2^32 pages and wraps above; a
      full memory of 65536 pages cannot be used.
    - Loading: LEB128 numbers round-trip; the vector reader refines a byte stream; parsing
      ends on every input; every encoded module loads back; loaded bodies copy exactly; a
      file and its bytes load as the same module, but a truncated file is undefined.
    - Validation: the checker is total and never leaves its stacks; an accepted module
      satisfies the module-level rules, stated on the module alone; what it does not check
      (results of a body, the condition of an if) is proved too.
    - Execution: the engine's flat loop refines the structured semantics; metered
      execution ends within a bound on iterations; validated numeric instructions find
      operands and results of their types; indirect calls enter functions of the
      named type only and fail otherwise; effective addresses wrap; a loop loses its result.
    - Instantiation and VM: an accepted import resolves to an instance of the declared
      type; data and element segments are written where they belong and nowhere else, and
      a slot that is not written calls function 0; in every reachable VM the stage says
      what has been checked and which module is active; a second instantiation fails, but
      after [cleanup] any valid code can be brought to its instantiation.
    - Host functions: the calling convention; every EEI function keeps the gas used within
      the limit, and all but the three calls give nothing back; against a host that keeps to
      evmc.h, calls conserve gas when their charges are covered, and mint it when not; storage, numbers, copies and
      messages arrive as they should; what static mode guards and what it does not.  WASI:
      arguments read back, fd_write gathers its buffers, iovecs are not checked.  ONNC: every
      function calls the runtime once, with the arguments its prototype asks for; offsets of
      offsets are not checked.  The native functions return what was never written.
    - The hash is the Keccak sponge, over the permutation with the step mappings, rotations,
      rotation offsets and round constants of the standard, in whatever pieces the input comes; the
      object can be used again.  The time recorder adds up the laps of each timer.
    - Together: in every state a client can bring a VM with these modules to, execution is
      the structured semantics, the gas used stays within the limit, and metered execution
      with WASI ends; the EVMC entry point never returns more gas than it got, and its
      status says what was run.  The ONNC and QITC modules keep what the VM asks of host
      modules; ssvm-qitc exits with 0 whatever its module does, within the gas.
    - The proxy: a request gets the response a relation on requests and responses gives
      it, written once, and only a success has results; there is such a response for every
      request whose run has no undefined step; the gas reported is at most what the request
      brings; a snapshot restored in a new instance brings globals and memories
      back, except globals of 32 bits and pages a memory grew; integers survive their text.
    - The first generation: as far as both engines are defined, its engine ends a call of a
      function with the status (but for how the end of the gas is reported), stack, store
      and counters of the interpreter, on code whose branches cross only labels of the arity
      of their target, which a function decides; a branch that crosses others can lose its
      value.  The executor accepts its calls in one order only; a run of the VM that
      succeeds, or whose module does not load or is not valid, leaves it fit for another, one
      that fails to instantiate its module does not.
      Its Ethereum, WASI and ONNC functions do what those of the new modules do, as long as
      no sum of gas wraps around; where one does, [useGas] gives gas back.
    - The compiler: a function of straight-line integer code is compiled to code that returns
      what the interpreter computes, where neither C++ nor LLVM leaves an operation
      undefined; every instruction keeps the open blocks, and segments are placed where they
      belong.  Results of blocks, else branches, branches out of the function, the start
      function and imported globals are lost.  The library grows its memory right below 65536
      pages, defines every symbol once and lays out the command line; its storageStore and
      revert do not do what they say, and the tool exits with 0 whatever the program does.

    ** Fuel and bounds

    [parseModule] takes one unit more than there are bytes: every iteration of a loader
    loop reads a byte (parseModule_terminates).  The counting loops take one unit per bit
    and one for the last test ([loop_fuel]); a LEB128 loop shifts at most ten times before
    the shift is undefined ([leb_fuel]); the unwinding of the form checker takes the height
    of its stack; the bulk [addData] of the hash takes one unit for each byte.  [execute] takes any fuel: WebAssembly need not end.  With a cost table
    without zeros, three iterations for each unit of cost left and two more are enough
    (metered_invoke_terminates); the refinement theorem gives the engine's fuel from a run
    of the structured semantics, whose own fuel bounds the depth of its recursion.  The
    engines of the two generations are compared at the same fuel, one unit for an iteration
    of either; the sizes the old one keeps in 32 bits must not wrap within that many steps,
    of which each adds at most three values, labels or frames.  The Ethereum functions are
    compared with a gas limit below 2^63, which is what a message can set.

    ** Not modelled

    I/O errors while a file is read; logging; what compiled code does beyond straight-line
    integer code, which is for LLVM to say, and the file the compiler prints its module to;
    the parser and the writer of rapidjson; include/experimental/expected.hpp, a vendored std::expected that the
    result type of the monad stands for.  The flag constants of the system calls are those of
    Linux on x86-64.  A VM is modelled as built without ONNC; Qitc and LegacyOnnc have the
    parts of the constructors that the option adds.

    ** Plan

    Next: the exports of an instantiated module as a whole; the soundness of the form
    checker's typing for the control instructions of the engine; laws of LLVM for branches
    and memory, and compiled control and memory accesses against them. *)
From stdpp Require Import base list numbers strings option.
From Stdlib Require Import ZArith Lia.
#[local] Open Scope Z_scope.

(** ** Error codes: include/common/errcode.h *)

Inductive ErrCode : Set :=
| Success
| Terminated
| InvalidPath
| ReadError
| EndOfFile
| InvalidGrammar
| ValidationFailed
| WrongExecutorFlow
| WrongWorkerFlow
| WrongVMWorkflow
| InstantiateFailed
| WrongInstanceAddress
| ImportNotMatch
| ExecutionFailed
| TypeNotMatch
| StackWrongEntry
| StackEmpty
| WrongLocalAddress
| InstructionTypeMismatch
| DivideByZero
| FloatPointException
| CastingError
| Unimplemented
| AccessForbidMemory
| SliceDataFailed
| Unreachable
| WrongInstructionCounter
| TableSizeExceeded
| MemorySizeExceeded
| FunctionInvalid
| CallFunctionError
| CostLimitExceeded
| Revert
| ModuleNameConflict.

#[export] Instance ErrCode_eq_dec : EqDecision ErrCode.
Proof. solve_decision. Defined.

(** ** Outcomes

    [Expect<T>] is a value or an [ErrCode].  C++ code can also have undefined
    behaviour; the model keeps it as an outcome of its own, with the kind of the
    violation, instead of inventing a result.  [NoFuel] is the outcome of a loop
    that was given too little fuel. *)

Inductive ub : Set :=
| UB_vector      (* back/pop_back/erase/operator[] outside a vector *)
| UB_shift       (* shift amount not below the width of the operand *)
| UB_cast        (* floating value not representable in the integer type *)
| UB_downcast    (* static_cast to a class the node does not have *)
| UB_deref       (* dereference of an Expect with an error, of null, or of an end iterator *)
| UB_indet       (* read of bytes that were never written *)
| UB_throw.      (* an exception nothing catches: the program ends *)

#[export] Instance ub_eq_dec : EqDecision ub.
Proof. solve_decision. Defined.

Inductive res (A : Type) : Type :=
| Ok (a : A)
| Err (e : ErrCode)
| Undef (u : ub)
| NoFuel.
Arguments Ok {A} a.
Arguments Err {A} e.
Arguments Undef {A} u.
Arguments NoFuel {A}.

#[export] Instance res_eq_dec {A} `{EqDecision A} : EqDecision (res A).
Proof. solve_decision. Defined.

(** A computation on a state [S]: the state survives an error, as the C++ objects do. *)
Definition M (S A : Type) : Type := S -> res A * S.

Section Monad.
Context {S : Type}.

Definition ret {A} (a : A) : M S A := fun s => (Ok a, s).
Definition throw {A} (e : ErrCode) : M S A := fun s => (Err e, s).
Definition undef {A} (u : ub) : M S A := fun s => (Undef u, s).
Definition nofuel {A} : M S A := fun s => (NoFuel, s).
Definition get : M S S := fun s => (Ok s, s).
Definition gets {A} (f : S -> A) : M S A := fun s => (Ok (f s), s).
Definition put (s : S) : M S unit := fun _ => (Ok tt, s).
Definition modify (f : S -> S) : M S unit := fun s => (Ok tt, f s).
Definition lift {A} (r : res A) : M S A := fun s => (r, s).

Definition bind {A B} (m : M S A) (k : A -> M S B) : M S B := fun s =>
  match m s with
  | (Ok a, s') => k a s'
  | (Err e, s') => (Err e, s')
  | (Undef u, s') => (Undef u, s')
  | (NoFuel, s') => (NoFuel, s')
  end.

(** [if (auto Res = m) ... else ...]: the error becomes a value. *)
Definition try {A} (m : M S A) : M S (A + ErrCode) := fun s =>
  match m s with
  | (Ok a, s') => (Ok (inl a), s')
  | (Err e, s') => (Ok (inr e), s')
  | (Undef u, s') => (Undef u, s')
  | (NoFuel, s') => (NoFuel, s')
  end.

(** [*Res] on an [Expect]: undefined when it holds an error. *)
Definition deref {A} (m : M S A) : M S A := fun s =>
  match m s with
  | (Err _, s') => (Undef UB_deref, s')
  | r => r
  end.

Definition mapM_ {A} (f : A -> M S unit) : list A -> M S unit :=
  fix go (l : list A) : M S unit :=
    match l with
    | [] => ret tt
    | x :: l' => bind (f x) (fun _ => go l')
    end.

End Monad.

(** Running a computation on one field of a larger state. *)
Definition zoom {S T A} (getter : S -> T) (setter : T -> S -> S) (m : M T A) : M S A :=
  fun s => let '(r, t) := m (getter s) in (r, setter t s).

Declare Scope ssvm_scope.
Delimit Scope ssvm_scope with ssvm.
Notation "'let*' x ':=' m 'in' k" := (bind m (fun x => k))
  (at level 10, x pattern, m at level 200, k at level 200) : ssvm_scope.
Notation "m ;;; k" := (bind m (fun _ => k)) (at level 100, right associativity) : ssvm_scope.
Open Scope ssvm_scope.

(** The same sequencing on outcomes without a state. *)
Definition rbind {A B} (r : res A) (k : A -> res B) : res B :=
  match r with Ok a => k a | Err e => Err e | Undef u => Undef u | NoFuel => NoFuel end.
Notation "'let?' x ':=' r 'in' k" := (rbind r (fun x => k))
  (at level 10, x pattern, r at level 200, k at level 200) : ssvm_scope.

(** ** Machine integers

    A [w]-bit unsigned integer is a [Z] in [0, 2^w); arithmetic wraps with [wrap].
    [sgn] reads the same bits as a two's complement number. *)

Definition wrap (w x : Z) : Z := x mod 2 ^ w.
Definition sgn (w x : Z) : Z :=
  let y := wrap w x in if y <? 2 ^ (w - 1) then y else y - 2 ^ w.

Definition in_u (w x : Z) : Prop := 0 <= x < 2 ^ w.
Definition in_s (w x : Z) : Prop := - 2 ^ (w - 1) <= x < 2 ^ (w - 1).

#[export] Instance in_u_dec w x : Decision (in_u w x).
Proof. unfold in_u. apply _. Defined.
#[export] Instance in_s_dec w x : Decision (in_s w x).
Proof. unfold in_s. apply _. Defined.

(** [memcpy] between an object and a byte array, little endian. *)
Fixpoint le_split (n : nat) (x : Z) : list Z :=
  match n with
  | O => []
  | Datatypes.S n' => x mod 256 :: le_split n' (x / 256)
  end.

Fixpoint le_combine (bs : list Z) : Z :=
  match bs with
  | [] => 0
  | b :: bs' => b + 256 * le_combine bs'
  end.

Definition is_byte (b : Z) : Prop := 0 <= b < 256.
#[export] Instance is_byte_dec b : Decision (is_byte b).
Proof. unfold is_byte. apply _. Defined.

(** ** Vectors

    [std::vector] indexed by machine integers. *)

Definition sizeZ {A} (l : list A) : Z := Z.of_nat (length l).
Definition atZ {A} (l : list A) (i : Z) : option A :=
  if 0 <=? i then l !! Z.to_nat i else None.
Definition setZ {A} (i : Z) (x : A) (l : list A) : list A := <[Z.to_nat i := x]> l.

(** [v.resize(n)] with value-initialised new elements. *)
Definition resizeZ {A} (d : A) (n : Z) (l : list A) : list A :=
  take (Z.to_nat n) l ++ replicate (Z.to_nat n - length l) d.

(** [l[off .. off+len)], and [l] with [bs] copied to [off]. *)
Definition slice {A} (off len : Z) (l : list A) : list A :=
  take (Z.to_nat len) (drop (Z.to_nat off) l).
Definition splice {A} (off : Z) (bs l : list A) : list A :=
  take (Z.to_nat off) l ++ bs ++ drop (Z.to_nat off + length bs) l.

(** [v.erase(v.begin() + i, v.end() - k)]: undefined unless [i <= size - k]. *)
Definition erase_range {A} (i k : Z) (l : list A) : res (list A) :=
  if (0 <=? i) && (0 <=? k) && (i <=? sizeZ l - k)
  then Ok (take (Z.to_nat i) l ++ drop (length l - Z.to_nat k) l)
  else Undef UB_vector.

(** ** Lemmas and automation *)

Create HintDb ssvm.
Create Rewrite HintDb ssvm_rw.

Section MonadFacts.
Context {S : Type}.

Lemma bind_Ok_inv {A B} (m : M S A) (k : A -> M S B) s b s' :
  bind m k s = (Ok b, s') -> exists a s1, m s = (Ok a, s1) /\ k a s1 = (Ok b, s').
Proof. unfold bind. destruct (m s) as [[a|e|u|] s1]; intros; simplify_eq; eauto. Qed.

Lemma bind_Ok {A B} (m : M S A) (k : A -> M S B) s a s1 :
  m s = (Ok a, s1) -> bind m k s = k a s1.
Proof. unfold bind. by intros ->. Qed.

Lemma bind_get {A} (k : S -> M S A) (s : S) : bind get k s = k s s.
Proof. done. Qed.
Lemma bind_put {A} (t : S) (k : unit -> M S A) (s : S) : bind (put t) k s = k tt t.
Proof. done. Qed.
Lemma bind_eq {A B} (m : M S A) (k : A -> M S B) (s : S) : bind m k s =
  match m s with
  | (Ok a, t) => k a t
  | (Err e, t) => (Err e, t)
  | (Undef u, t) => (Undef u, t)
  | (NoFuel, t) => (NoFuel, t)
  end.
Proof. done. Qed.

Lemma bind_assoc {A B C} (m : M S A) (f : A -> M S B) (g : B -> M S C) s :
  bind (bind m f) g s = bind m (fun a => bind (f a) g) s.
Proof. unfold bind. by destruct (m s) as [[]]. Qed.

Lemma bind_ext {A B} (m : M S A) (k k' : A -> M S B) s :
  (forall a t, k a t = k' a t) -> bind m k s = bind m k' s.
Proof. intros Hk. unfold bind. by destruct (m s) as [[]]. Qed.

Lemma bind_ret_r {A} (m : M S A) s : bind m ret s = m s.
Proof. unfold bind, ret. by destruct (m s) as [[]]. Qed.

Lemma mapM_app {A} (f : A -> M S unit) l1 l2 s :
  mapM_ f (l1 ++ l2) s = bind (mapM_ f l1) (fun _ => mapM_ f l2) s.
Proof.
  revert s; induction l1 as [|x l1 IH]; intros s; cbn; [done|].
  unfold bind in *. destruct (f x s) as [[[]| | |] s']; [apply IH|done..].
Qed.

(** An invariant every step keeps is kept by the loop, whatever the outcome. *)
Lemma mapM_inv {A} (P : S -> Prop) (f : A -> M S unit) l s :
  P s -> (forall x s, x ∈ l -> P s -> P (f x s).2) -> P (mapM_ f l s).2.
Proof.
  revert s; induction l as [|x l IH]; intros s Hs Hf; cbn; [done|].
  unfold bind. destruct (f x s) as [r s'] eqn:E.
  assert (P s') by (change s' with (r, s').2; rewrite <- E; apply Hf; [left|done]).
  destruct r as [[]| | |]; [|done..].
  apply IH; [done|]. intros; apply Hf; [by right|done].
Qed.

End MonadFacts.

(** [H : bind m k s = (Ok b, s')] into its two halves. *)
Ltac inv_bind H :=
  let a := fresh "a" in let s1 := fresh "s" in
  let H1 := fresh "H" in
  apply bind_Ok_inv in H as (a & s1 & H1 & H).

Ltac inv_binds :=
  repeat match goal with
  | H : bind _ _ _ = (Ok _, _) |- _ => inv_bind H
  | H : ret _ _ = (Ok _, _) |- _ => unfold ret in H; simplify_eq
  | H : throw _ _ = (Ok _, _) |- _ => discriminate H
  | H : undef _ _ = (Ok _, _) |- _ => discriminate H
  end.

(** Boolean comparisons of the code into propositions. *)
Ltac bool_to_prop :=
  repeat match goal with
  | H : (_ && _)%bool = true |- _ => apply andb_true_iff in H as [? ?]
  | H : (_ || _)%bool = false |- _ => apply orb_false_iff in H as [? ?]
  | H : negb _ = true |- _ => apply negb_true_iff in H
  | H : negb _ = false |- _ => apply negb_false_iff in H
  | H : (_ <=? _) = true |- _ => apply Z.leb_le in H
  | H : (_ <=? _) = false |- _ => apply Z.leb_gt in H
  | H : (_ <? _) = true |- _ => apply Z.ltb_lt in H
  | H : (_ <? _) = false |- _ => apply Z.ltb_ge in H
  | H : (_ =? _) = true |- _ => apply Z.eqb_eq in H
  | H : (_ =? _) = false |- _ => apply Z.eqb_neq in H
  | H : (_ >? _) = true |- _ => apply Z.gtb_lt in H
  | H : (_ >? _) = false |- _ => rewrite Z.gtb_ltb in H; apply Z.ltb_ge in H
  end.

Section IntFacts.

Lemma wrap_range w x : 0 <= w -> in_u w (wrap w x).
Proof. intros. apply Z.mod_pos_bound, Z.pow_pos_nonneg; lia. Qed.

Lemma wrap_small w x : in_u w x -> wrap w x = x.
Proof. apply Z.mod_small. Qed.

Lemma sgn_range w x : 0 < w -> in_s w (sgn w x).
Proof.
  intros Hw. unfold sgn, in_s. pose proof (wrap_range w x ltac:(lia)) as [? ?].
  assert (2 ^ w = 2 * 2 ^ (w - 1)) by (rewrite <- Z.pow_succ_r; [f_equal|]; lia).
  destruct (Z.ltb_spec (wrap w x) (2 ^ (w - 1))); lia.
Qed.

Lemma sgn_small w x : 0 < w -> in_s w x -> sgn w x = x.
Proof.
  unfold in_s, sgn, wrap. intros Hw Hx.
  assert (2 ^ w = 2 * 2 ^ (w - 1)) by (rewrite <- Z.pow_succ_r; [f_equal|]; lia).
  destruct (decide (0 <= x)).
  - rewrite Z.mod_small by lia. destruct (Z.ltb_spec x (2 ^ (w - 1))); lia.
  - replace (x mod 2 ^ w) with (x + 2 ^ w)
      by (rewrite <- (Z.mod_small (x + 2 ^ w) (2 ^ w)) by lia;
          rewrite <- Z.add_mod_idemp_r, Z.mod_same, Z.add_0_r by lia; done).
    destruct (Z.ltb_spec (x + 2 ^ w) (2 ^ (w - 1))); lia.
Qed.

Lemma sgn_wrap w x : 0 <= w -> sgn w (wrap w x) = sgn w x.
Proof.
  intros. unfold sgn, wrap. rewrite Z.mod_mod; [done|].
  apply Z.pow_nonzero; lia.
Qed.

Lemma wrap_sgn w x : 0 <= w -> wrap w (sgn w x) = wrap w x.
Proof.
  intros. unfold sgn, wrap.
  destruct (_ <? _); [apply Z.mod_mod, Z.pow_nonzero; lia|].
  rewrite Zminus_mod, Z.mod_same, Z.sub_0_r, !Z.mod_mod
    by (apply Z.pow_nonzero; lia). done.
Qed.

Lemma wrap_wrap w w' x : 0 <= w <= w' -> wrap w (wrap w' x) = wrap w x.
Proof.
  intros. unfold wrap. apply Z.mod_mod_divide.
  exists (2 ^ (w' - w)). rewrite <- Z.pow_add_r by lia. f_equal. lia.
Qed.

Lemma lor_disjoint x y k :
  0 <= k -> x mod 2 ^ k = 0 -> 0 <= y < 2 ^ k -> Z.lor x y = x + y.
Proof.
  intros Hk Hx Hy.
  assert (Z.land x y = 0) as Hl.
  { apply Z.bits_inj'. intros n Hn. rewrite Z.land_spec, Z.bits_0.
    destruct (decide (n < k)).
    - rewrite <- (Z.mod_pow2_bits_low x k n) by lia. by rewrite Hx, Z.bits_0.
    - rewrite <- (Z.mod_small y (2 ^ k)) by lia.
      rewrite Z.mod_pow2_bits_high by lia. apply andb_false_r. }
  rewrite <- Z.lxor_lor, <- Z.add_nocarry_lxor by done. done.
Qed.

Lemma lor_shiftl_add x y k :
  0 <= k -> 0 <= x < 2 ^ k -> Z.lor x (Z.shiftl y k) = x + y * 2 ^ k.
Proof.
  intros. rewrite Z.shiftl_mul_pow2, Z.lor_comm by lia. rewrite (lor_disjoint _ _ k); [lia|lia| |lia].
  apply Z.mod_mul. lia.
Qed.

Lemma lor_in_u w x y : 0 <= w -> in_u w x -> in_u w y -> in_u w (Z.lor x y).
Proof.
  unfold in_u. intros Hw Hx Hy.
  assert (0 <= Z.lor x y) by (apply Z.lor_nonneg; lia). split; [done|].
  rewrite <- (Z.mod_small x (2 ^ w)), <- (Z.mod_small y (2 ^ w)), <- !Z.land_ones by lia.
  rewrite <- Z.land_lor_distr_l, Z.land_ones by lia. apply Z.mod_pos_bound. lia.
Qed.

Lemma bitop_range f w x y :
  (f = Z.land \/ f = Z.lor \/ f = Z.lxor) -> 0 <= w -> in_u w x -> in_u w y -> in_u w (f x y).
Proof.
  intros Hf Hw Hx Hy.
  cut (f x y = wrap w (f x y)); [intros ->; by apply wrap_range|].
  rewrite <- (wrap_small w x), <- (wrap_small w y) by done. unfold wrap.
  apply Z.bits_inj'. intros k Hk.
  destruct Hf as [-> |[-> | ->]]; rewrite ?Z.land_spec, ?Z.lor_spec, ?Z.lxor_spec,
    !Z.testbit_mod_pow2, ?Z.land_spec, ?Z.lor_spec, ?Z.lxor_spec, !Z.testbit_mod_pow2 by done;
    destruct (k <? w), (Z.testbit x k), (Z.testbit y k); done.
Qed.

Lemma wrap_shiftl_mod N a k : 0 <= k <= N -> wrap N (a * 2 ^ k) mod 2 ^ k = 0.
Proof.
  intros. unfold wrap.
  replace (2 ^ N) with (2 ^ (N - k) * 2 ^ k) by (rewrite <- Z.pow_add_r; [f_equal|..]; lia).
  rewrite Z.mul_mod_distr_r by (apply Z.pow_nonzero; lia).
  apply Z.mod_mul, Z.pow_nonzero; lia.
Qed.

Lemma div_pow_lt N a k : 0 <= k <= N -> in_u N a -> 0 <= a / 2 ^ (N - k) < 2 ^ k.
Proof.
  unfold in_u. intros. split; [apply Z.div_pos; [lia|apply Z.pow_pos_nonneg; lia]|].
  apply Z.div_lt_upper_bound; [apply Z.pow_pos_nonneg; lia|].
  rewrite <- Z.pow_add_r by lia. replace (N - k + k) with N by lia. lia.
Qed.

(** The two parts of a rotated number do not overlap. *)
Lemma rot_range w x y k :
  0 <= k <= w -> in_u w y -> in_u w (wrap w (x * 2 ^ k) + y / 2 ^ (w - k)).
Proof.
  intros Hk Hy. pose proof (div_pow_lt w y k Hk Hy) as Hd.
  pose proof (wrap_range w (x * 2 ^ k) ltac:(lia)) as Hw.
  pose proof (wrap_shiftl_mod w x k Hk) as Hm. unfold in_u in *.
  assert (0 < 2 ^ k) as Hp by (apply Z.pow_pos_nonneg; lia).
  assert (2 ^ w mod 2 ^ k = 0) as Hwk.
  { replace (2 ^ w) with (2 ^ (w - k) * 2 ^ k) by (rewrite <- Z.pow_add_r; [f_equal|..]; lia).
    apply Z.mod_mul. lia. }
  apply Z.div_exact in Hm; [|lia]. apply Z.div_exact in Hwk; [|lia].
  assert (wrap w (x * 2 ^ k) / 2 ^ k + 1 <= 2 ^ w / 2 ^ k) by nia. nia.
Qed.

(** A pair with a known first part. *)
Lemma pair_fst {A B} (p : A * B) a : p.1 = a -> p = (a, p.2).
Proof. destruct p. cbn. by intros ->. Qed.

(** A property of every byte is checked on the 256 of them. *)
Lemma byte_forall (P : Z -> bool) b :
  forallb P (Z.of_nat <$> seq 0 256) = true -> is_byte b -> P b = true.
Proof.
  intros H [? ?]. apply (proj1 (forallb_forall _ _) H). apply list_elem_of_In.
  apply list_elem_of_fmap. exists (Z.to_nat b). rewrite Z2Nat.id by lia.
  split; [done|]. apply elem_of_seq. lia.
Qed.

Lemma length_le_split n x : length (le_split n x) = n.
Proof. revert x; induction n; intros; cbn; auto. Qed.

Lemma le_split_bytes n x : Forall is_byte (le_split n x).
Proof.
  revert x; induction n; intros; cbn; constructor; [|done].
  unfold is_byte. apply Z.mod_pos_bound. lia.
Qed.

Lemma le_combine_split n x : le_combine (le_split n x) = x mod 2 ^ (8 * Z.of_nat n).
Proof.
  revert x; induction n as [|n IH]; intros x; cbn [le_split le_combine].
  - by rewrite Z.mod_1_r.
  - rewrite IH. replace (8 * Z.of_nat (Datatypes.S n)) with (8 + 8 * Z.of_nat n) by lia.
    rewrite Z.pow_add_r by lia. change (2 ^ 8) with 256.
    rewrite Z.rem_mul_r; lia.
Qed.

Lemma le_combine_range bs : Forall is_byte bs -> 0 <= le_combine bs < 2 ^ (8 * sizeZ bs).
Proof.
  unfold sizeZ. induction 1 as [|b bs Hb _ IH]; cbn [le_combine length]; [done|].
  unfold is_byte in Hb.
  replace (8 * Z.of_nat (Datatypes.S (length bs))) with (8 + 8 * Z.of_nat (length bs)) by lia.
  rewrite Z.pow_add_r by lia. change (2 ^ 8) with 256. lia.
Qed.

Lemma le_split_combine bs : Forall is_byte bs -> le_split (length bs) (le_combine bs) = bs.
Proof.
  induction 1 as [|b bs Hb _ IH]; cbn [le_split le_combine length]; [done|].
  unfold is_byte in Hb. f_equal.
  - rewrite Z.mul_comm, Z_mod_plus_full. by apply Z.mod_small.
  - rewrite Z.mul_comm, Z.div_add by lia. rewrite Z.div_small by lia. apply IH.
Qed.

Lemma le_split_mod n x : le_split n (x mod 2 ^ (8 * Z.of_nat n)) = le_split n x.
Proof.
  rewrite <- (le_combine_split n x).
  pose proof (le_split_combine (le_split n x) (le_split_bytes n x)) as H.
  by rewrite length_le_split in H.
Qed.

End IntFacts.

Section VectorFacts.
Context {A : Type}.
Implicit Types l bs : list A.

Lemma sizeZ_app (l1 l2 : list A) : sizeZ (l1 ++ l2) = sizeZ l1 + sizeZ l2.
Proof. unfold sizeZ. rewrite length_app. lia. Qed.
Lemma sizeZ_cons (x : A) l : sizeZ (x :: l) = sizeZ l + 1.
Proof. unfold sizeZ. cbn [length]. lia. Qed.
Lemma sizeZ_nonneg (l : list A) : 0 <= sizeZ l.
Proof. unfold sizeZ. lia. Qed.

Lemma length_resizeZ d n l : 0 <= n -> sizeZ (resizeZ d n l) = n.
Proof.
  unfold sizeZ, resizeZ. intros. rewrite length_app, length_take, length_replicate. lia.
Qed.

Lemma lookup_resizeZ d n l (i : nat) :
  sizeZ l <= n -> Z.of_nat i < n -> resizeZ d n l !! i = Some (default d (l !! i)).
Proof.
  unfold sizeZ, resizeZ. intros Hl Hi. rewrite take_ge by lia.
  destruct (decide (i < length l)%nat) as [Hlt|Hge].
  - rewrite lookup_app_l by lia.
    destruct (lookup_lt_is_Some_2 _ _ Hlt) as [x ->]. done.
  - rewrite lookup_app_r by lia. rewrite (lookup_ge_None_2 l) by lia.
    cbn. apply lookup_replicate_2. lia.
Qed.

Lemma length_slice off len l :
  0 <= off -> 0 <= len -> off + len <= sizeZ l -> sizeZ (slice off len l) = len.
Proof. unfold sizeZ, slice. intros. rewrite length_take, length_drop. lia. Qed.

Lemma slice_all l : slice 0 (sizeZ l) l = l.
Proof. unfold slice, sizeZ. by rewrite Nat2Z.id, drop_0, firstn_all. Qed.

Lemma lookup_slice off len l (i : nat) :
  0 <= off -> Z.of_nat i < len -> slice off len l !! i = l !! (Z.to_nat off + i)%nat.
Proof.
  intros. unfold slice. rewrite lookup_take_lt by lia. by rewrite lookup_drop.
Qed.

Lemma length_splice off bs l :
  0 <= off -> off + sizeZ bs <= sizeZ l -> length (splice off bs l) = length l.
Proof.
  unfold sizeZ, splice. intros. rewrite !length_app, length_take, length_drop. lia.
Qed.

Lemma lookup_splice_in off bs l (i : nat) :
  0 <= off -> off + sizeZ bs <= sizeZ l ->
  off <= Z.of_nat i < off + sizeZ bs ->
  splice off bs l !! i = bs !! (i - Z.to_nat off)%nat.
Proof.
  unfold sizeZ, splice. intros.
  rewrite lookup_app_r by (rewrite length_take; lia).
  rewrite length_take, lookup_app_l by lia. f_equal. lia.
Qed.

Lemma lookup_splice_out off bs l (i : nat) :
  0 <= off -> off + sizeZ bs <= sizeZ l ->
  Z.of_nat i < off \/ off + sizeZ bs <= Z.of_nat i ->
  splice off bs l !! i = l !! i.
Proof.
  unfold sizeZ, splice. intros ? ? [Hi|Hi].
  - rewrite lookup_app_l by (rewrite length_take; lia). apply lookup_take_lt. lia.
  - rewrite lookup_app_r by (rewrite length_take; lia).
    rewrite lookup_app_r by (rewrite length_take; lia).
    rewrite length_take, lookup_drop. f_equal. lia.
Qed.

Lemma slice_splice off bs l :
  0 <= off -> off + sizeZ bs <= sizeZ l -> slice off (sizeZ bs) (splice off bs l) = bs.
Proof.
  unfold slice, splice, sizeZ. intros.
  rewrite drop_app_length' by (rewrite length_take; lia).
  by rewrite take_app_length' by lia.
Qed.

Lemma atZ_Some l i x : atZ l i = Some x -> 0 <= i < sizeZ l.
Proof.
  unfold atZ, sizeZ. destruct (Z.leb_spec 0 i); [|done].
  intros ?%lookup_lt_Some. lia.
Qed.

Lemma atZ_is_Some l i : 0 <= i < sizeZ l -> is_Some (atZ l i).
Proof.
  unfold atZ, sizeZ. intros [Hi ?]. rewrite (proj2 (Z.leb_le 0 i) Hi).
  apply lookup_lt_is_Some. lia.
Qed.

Lemma Forall_splice (P : A -> Prop) off bs l :
  Forall P bs -> Forall P l -> Forall P (splice off bs l).
Proof.
  intros. unfold splice. rewrite !Forall_app. eauto using Forall_take, Forall_drop.
Qed.

Lemma Forall_resizeZ (P : A -> Prop) d n l : P d -> Forall P l -> Forall P (resizeZ d n l).
Proof.
  intros. unfold resizeZ. rewrite Forall_app.
  split; [by apply Forall_take|by apply Forall_replicate].
Qed.

Lemma Forall_slice (P : A -> Prop) off len l : Forall P l -> Forall P (slice off len l).
Proof. intros. unfold slice. by apply Forall_take, Forall_drop. Qed.

End VectorFacts.

#[export] Hint Resolve wrap_range sgn_range le_split_bytes Forall_splice Forall_resizeZ
  Forall_slice : ssvm.
#[export] Hint Rewrite length_le_split @bind_ret_r : ssvm_rw.
