(* ===== verification/Types.v ===== *)
(** * Types and values: include/common/types.h, include/common/value.h,
    include/support/variant.h, include/support/casting.h,
    include/runtime/instance/type.h *)
From stdpp Require Import base list numbers option.
From Stdlib Require Import ZArith Lia.
From S2P Require Import Prelude.
#[local] Open Scope Z_scope.

(** ** Enumerations of types.h, with their byte values *)

Inductive ValType : Set := VT_None | VT_I32 | VT_I64 | VT_F32 | VT_F64.
Inductive ElemType : Set := ET_Func | ET_FuncRef.
Inductive ValMut : Set := Mut_Const | Mut_Var.
Inductive ExternalType : Set := Ext_Function | Ext_Table | Ext_Memory | Ext_Global.

#[export] Instance ValType_eq_dec : EqDecision ValType.
Proof. solve_decision. Defined.
#[export] Instance ElemType_eq_dec : EqDecision ElemType.
Proof. solve_decision. Defined.
#[export] Instance ValMut_eq_dec : EqDecision ValMut.
Proof. solve_decision. Defined.
#[export] Instance ExternalType_eq_dec : EqDecision ExternalType.
Proof. solve_decision. Defined.

(** [static_cast<ValType>(Byte)]: [None] for a byte that is no enumerator, which every
    use of the cast sends to the default case of a switch. *)
Definition ValType_of_byte (b : Z) : option ValType :=
  if b =? 0x40 then Some VT_None
  else if b =? 0x7F then Some VT_I32
  else if b =? 0x7E then Some VT_I64
  else if b =? 0x7D then Some VT_F32
  else if b =? 0x7C then Some VT_F64
  else None.

Definition byte_of_ValType (t : ValType) : Z :=
  match t with
  | VT_None => 0x40 | VT_I32 => 0x7F | VT_I64 => 0x7E | VT_F32 => 0x7D | VT_F64 => 0x7C
  end.

Definition ElemType_of_byte (b : Z) : option ElemType :=
  if b =? 0x60 then Some ET_Func else if b =? 0x70 then Some ET_FuncRef else None.

Definition ValMut_of_byte (b : Z) : option ValMut :=
  if b =? 0 then Some Mut_Const else if b =? 1 then Some Mut_Var else None.

Definition ExternalType_of_byte (b : Z) : option ExternalType :=
  if b =? 0 then Some Ext_Function else if b =? 1 then Some Ext_Table
  else if b =? 2 then Some Ext_Memory else if b =? 3 then Some Ext_Global else None.

Lemma ValType_of_to_byte t : ValType_of_byte (byte_of_ValType t) = Some t.
Proof. by destruct t. Qed.

(** Function types of module instances: runtime/instance/type.h. *)
Record FType : Type := mkFType { Params : list ValType; Returns : list ValType }.

#[export] Instance FType_eq_dec : EqDecision FType.
Proof. solve_decision. Defined.

(** ** The C++ types the templates are instantiated with *)

Inductive CType : Set := U32 | S32 | U64 | S64 | FLT | DBL.

#[export] Instance CType_eq_dec : EqDecision CType.
Proof. solve_decision. Defined.

Definition sizeof (T : CType) : Z :=
  match T with U32 | S32 | FLT => 4 | U64 | S64 | DBL => 8 end.
Definition bits (T : CType) : Z := sizeof T * 8.

(** [std::is_signed_v]; it is true of the floating types. *)
Definition is_signed (T : CType) : bool :=
  match T with S32 | S64 | FLT | DBL => true | U32 | U64 => false end.
Definition is_floating (T : CType) : bool :=
  match T with FLT | DBL => true | _ => false end.

(** ** ValVariant

    [Support::Variant<uint32_t, uint64_t, float, double>] has no tag: it is eight bytes
    of storage that [std::get] reads as whatever type it is asked for.  Building it from
    a four-byte value leaves the upper four bytes unwritten.  The model keeps the storage
    as a 64-bit number and whether the upper half was written; reading eight bytes of
    which four were never written is [UB_indet].  A float is its bit pattern. *)
Record ValVariant : Type := mkVal { storage : Z; wide : bool }.

#[export] Instance ValVariant_eq_dec : EqDecision ValVariant.
Proof. solve_decision. Defined.

(** A C++ value of type [T], as stored in its [sizeof T] bytes. *)
Definition to_bits (T : CType) (x : Z) : Z := wrap (bits T) x.
Definition of_bits (T : CType) (x : Z) : Z :=
  match T with
  | S32 => sgn 32 x
  | S64 => sgn 64 x
  | _ => wrap (bits T) x
  end.

(** [Val = static_cast<T>(x)]: a new variant. *)
Definition mkVariant (T : CType) (x : Z) : ValVariant :=
  mkVal (to_bits T x) (8 <=? sizeof T).

(** [retrieveValue<T>(Val)] as an rvalue. *)
Definition retrieveValue (T : CType) (v : ValVariant) : res Z :=
  if (sizeof T =? 8) && negb (wide v) then Undef UB_indet
  else Ok (of_bits T (storage v)).

(** [retrieveValue<T>(Val) = x]: the other bytes of the storage stay. *)
Definition assignValue (T : CType) (x : Z) (v : ValVariant) : ValVariant :=
  if sizeof T =? 8 then mkVal (to_bits T x) true
  else mkVal (storage v - wrap 32 (storage v) + to_bits T x) (wide v).

(** [ValueFromType]: the zero value locals start from; [None] falls to the i32 case. *)
Definition ValueFromType (t : ValType) : ValVariant :=
  match t with
  | VT_None | VT_I32 => mkVariant U32 0
  | VT_I64 => mkVariant U64 0
  | VT_F32 => mkVariant FLT 0
  | VT_F64 => mkVariant DBL 0
  end.

(** [ValTypeFromType<T>()]. *)
Definition ValTypeFromType (T : CType) : ValType :=
  match T with
  | U32 | S32 => VT_I32 | U64 | S64 => VT_I64 | FLT => VT_F32 | DBL => VT_F64
  end.

(** [Support::TypeToWasmTypeT]: the alternative of the variant a C++ type is read from. *)
Definition TypeToWasmType (T : CType) : CType :=
  match T with S32 => U32 | S64 => U64 | _ => T end.

(** ** Well-formed values *)

Definition val_ok (v : ValVariant) : Prop := in_u 64 (storage v).

(** A value that can be read at type [t]. *)
Definition has_type (t : ValType) (v : ValVariant) : Prop :=
  match t with
  | VT_I64 | VT_F64 => wide v = true
  | _ => True
  end.

Lemma bits_pos T : 0 < bits T.
Proof. by destruct T. Qed.

Lemma of_to_bits T x :
  (is_signed T = false \/ is_floating T = true -> in_u (bits T) x) ->
  (is_signed T = true /\ is_floating T = false -> in_s (bits T) x) ->
  of_bits T (to_bits T x) = x.
Proof.
  intros Hu Hs. unfold to_bits.
  destruct T; cbn in *;
    try (rewrite sgn_wrap by done; apply sgn_small; [done|auto]);
    rewrite (wrap_small _ x) by auto; apply wrap_small; auto.
Qed.

Lemma to_bits_range T x : in_u (bits T) (to_bits T x).
Proof. apply wrap_range. pose proof (bits_pos T). lia. Qed.

Lemma assignValue_ok T x v : val_ok v -> val_ok (assignValue T x v).
Proof.
  unfold val_ok, assignValue, in_u. intros Hv.
  pose proof (to_bits_range T x) as Hx. unfold in_u in Hx.
  assert (wrap 32 (storage v) = storage v mod 2 ^ 32) as Hw by done.
  unfold bits in Hx. destruct T; cbn -[Z.pow wrap] in *; try lia;
    rewrite Hw;
    pose proof (Z.div_mod (storage v) (2 ^ 32) ltac:(done));
    assert (storage v / 2 ^ 32 < 2 ^ 32) by (apply Z.div_lt_upper_bound; lia);
    assert (0 <= storage v / 2 ^ 32) by (apply Z.div_pos; lia); lia.
Qed.

Lemma mkVariant_ok T x : val_ok (mkVariant T x).
Proof.
  unfold val_ok, mkVariant. pose proof (to_bits_range T x).
  unfold in_u, bits in *. destruct T; cbn -[Z.pow] in *; lia.
Qed.

Lemma retrieve_mkVariant T x :
  retrieveValue T (mkVariant T x) = Ok (of_bits T (to_bits T x)).
Proof. by destruct T. Qed.

Lemma retrieve_assign T x v :
  retrieveValue T (assignValue T x v) = Ok (of_bits T (to_bits T x)).
Proof.
  assert (forall y, (storage v - wrap 32 (storage v) + y) mod 2 ^ 32 = y mod 2 ^ 32) as Hm.
  { intros y. unfold wrap.
    rewrite <- Z.add_mod_idemp_l, Zminus_mod_idemp_r, Z.sub_diag by done. done. }
  destruct T; unfold retrieveValue, assignValue; cbn -[Z.pow wrap sgn to_bits];
    try done; unfold sgn, wrap in *; by rewrite Hm.
Qed.

Lemma retrieve_typed T v :
  has_type (ValTypeFromType T) v -> retrieveValue T v = Ok (of_bits T (storage v)).
Proof. unfold retrieveValue, has_type. destruct T; cbn; by try intros ->. Qed.

#[export] Hint Resolve mkVariant_ok assignValue_ok to_bits_range : ssvm.
