(* ===== verification/Float.v ===== *)
(** * Floating point: what the numeric instructions use of [float], [double] and <cmath>

    A [float] or [double] is its IEEE 754 bit pattern; arithmetic decodes it to the
    [spec_float] of the Standard Library, computes there (round to nearest, ties to even)
    and encodes the result.  C++ leaves the sign and payload of a NaN an operation
    produces unspecified; the model takes the positive quiet NaN with no payload. *)
From stdpp Require Import base list numbers option.
From Stdlib Require Import ZArith Lia.
From Stdlib Require Import Floats.SpecFloat.
From S2P Require Import Prelude Types.
#[local] Open Scope Z_scope.

Section Format.
Context (T : CType).

(** Widths of the fraction and exponent fields, and the parameters of [spec_float]. *)
Definition frac_w : Z := match T with FLT => 23 | _ => 52 end.
Definition exp_w : Z := match T with FLT => 8 | _ => 11 end.
Definition prec : Z := frac_w + 1.
Definition emax : Z := 2 ^ (exp_w - 1).
Definition emin : Z := 3 - emax - prec.
Definition sign_bit : Z := 2 ^ (frac_w + exp_w).

Definition signbit (b : Z) : bool := Z.testbit b (frac_w + exp_w).
Definition exp_field (b : Z) : Z := (b / 2 ^ frac_w) mod 2 ^ exp_w.
Definition frac_field (b : Z) : Z := b mod 2 ^ frac_w.

Definition fdecode (b : Z) : spec_float :=
  let s := signbit b in
  let e := exp_field b in
  let m := frac_field b in
  if e =? 2 ^ exp_w - 1 then (if m =? 0 then S754_infinity s else S754_nan)
  else if e =? 0 then
    match m with Zpos p => S754_finite s p emin | _ => S754_zero s end
  else
    match m + 2 ^ frac_w with
    | Zpos p => S754_finite s p (e + emin - 1)
    | _ => S754_zero s
    end.

Definition fsign (s : bool) : Z := if s then sign_bit else 0.
Definition qnan : Z := (2 ^ exp_w - 1) * 2 ^ frac_w + 2 ^ (frac_w - 1).

Definition fencode (x : spec_float) : Z :=
  match x with
  | S754_zero s => fsign s
  | S754_infinity s => fsign s + (2 ^ exp_w - 1) * 2 ^ frac_w
  | S754_nan => qnan
  | S754_finite s m e =>
      if Zpos m <? 2 ^ frac_w then fsign s + Zpos m
      else fsign s + (e - emin + 1) * 2 ^ frac_w + (Zpos m - 2 ^ frac_w)
  end.

Definition f_isnan (b : Z) : bool := match fdecode b with S754_nan => true | _ => false end.
Definition f_isinf (b : Z) : bool :=
  match fdecode b with S754_infinity _ => true | _ => false end.

(** Comparison and arithmetic operators. *)
Definition f_eqb (a b : Z) : bool := SFeqb (fdecode a) (fdecode b).
Definition f_ltb (a b : Z) : bool := SFltb (fdecode a) (fdecode b).
Definition f_leb (a b : Z) : bool := SFleb (fdecode a) (fdecode b).
Definition f_add (a b : Z) : Z := fencode (SFadd prec emax (fdecode a) (fdecode b)).
Definition f_sub (a b : Z) : Z := fencode (SFsub prec emax (fdecode a) (fdecode b)).
Definition f_mul (a b : Z) : Z := fencode (SFmul prec emax (fdecode a) (fdecode b)).
Definition f_div (a b : Z) : Z := fencode (SFdiv prec emax (fdecode a) (fdecode b)).
Definition f_sqrt (a : Z) : Z := fencode (SFsqrt prec emax (fdecode a)).

(** [std::fabs], unary minus and [std::copysign] act on the sign bit, NaN included. *)
Definition f_abs (b : Z) : Z := if signbit b then b - sign_bit else b.
Definition f_neg (b : Z) : Z := if signbit b then b - sign_bit else b + sign_bit.
Definition f_copysign (a b : Z) : Z := if eqb (signbit a) (signbit b) then a else f_neg a.

(** [std::min(a, b)] is [(b < a) ? b : a]; [std::max(a, b)] is [(a < b) ? b : a]. *)
Definition f_stdmin (a b : Z) : Z := if f_ltb b a then b else a.
Definition f_stdmax (a b : Z) : Z := if f_ltb a b then b else a.

(** [std::ceil], [std::floor], [std::trunc], [std::nearbyint]. *)
Inductive rounding : Set := Rceil | Rfloor | Rtrunc | Rnearest.

Definition round_mag (r : rounding) (s : bool) (q rem d : Z) : Z :=
  match r with
  | Rtrunc => q
  | Rfloor => if s && negb (rem =? 0) then q + 1 else q
  | Rceil => if negb s && negb (rem =? 0) then q + 1 else q
  | Rnearest =>
      match 2 * rem ?= d with
      | Gt => q + 1
      | Eq => if Z.odd q then q + 1 else q
      | Lt => q
      end
  end.

Definition sf_of_Z (s : bool) (z : Z) : spec_float :=
  binary_normalize prec emax (if s then - z else z) 0 s.

Definition f_round (r : rounding) (b : Z) : Z :=
  match fdecode b with
  | S754_finite s m e =>
      if 0 <=? e then b
      else
        let d := 2 ^ (- e) in
        let mag := round_mag r s (Zpos m / d) (Zpos m mod d) d in
        fencode (if mag =? 0 then S754_zero s else sf_of_Z s mag)
  | S754_nan => qnan
  | _ => b
  end.

(** The integer a finite value truncates to. *)
Definition f_truncZ (b : Z) : option Z :=
  match fdecode b with
  | S754_zero _ => Some 0
  | S754_finite s m e =>
      let mag := if 0 <=? e then Zpos m * 2 ^ e else Zpos m / 2 ^ (- e) in
      Some (if s then - mag else mag)
  | _ => None
  end.

(** Conversion of an integer. *)
Definition f_of_Z (z : Z) : Z := fencode (sf_of_Z (z <? 0) (Z.abs z)).

(** [std::numeric_limits<T>::min()]: the smallest positive normal number. *)
Definition f_limits_min : Z := 2 ^ frac_w.

End Format.

(** Conversion between the two formats. *)
Definition f_cvt (T T' : CType) (b : Z) : Z :=
  match fdecode T b with
  | S754_finite s m e =>
      fencode T' (binary_normalize (prec T') (emax T') (if s then Zneg m else Zpos m) e s)
  | x => fencode T' x
  end.

(** ** Checks on known bit patterns *)

Example f32_one_plus_two : f_add FLT 0x3F800000 0x40000000 = 0x40400000.
Proof. vm_compute. reflexivity. Qed.
Example f64_tenth_sum : f_add DBL 0x3FB999999999999A 0x3FC999999999999A = 0x3FD3333333333334.
Proof. vm_compute. reflexivity. Qed.
Example f32_ceil_half : f_round FLT Rceil 0xBF000000 = 0x80000000.
Proof. vm_compute. reflexivity. Qed.
Example f32_nearest_5_2 : f_round FLT Rnearest 0x40200000 = 0x40000000.
Proof. vm_compute. reflexivity. Qed.
Example f32_of_int_max : f_of_Z FLT 2147483647 = 0x4F000000.
Proof. vm_compute. reflexivity. Qed.
Example f64_to_f32_tenth : f_cvt DBL FLT 0x3FB999999999999A = 0x3DCCCCCD.
Proof. vm_compute. reflexivity. Qed.
Example f32_sqrt_two : f_sqrt FLT 0x40000000 = 0x3FB504F3.
Proof. vm_compute. reflexivity. Qed.
