(* ===== verification/Numeric.v ===== *)
(** * Numeric instructions: include/interpreter/engine/{relation,unary,binary,cast}_numeric.ipp

    Each template [runXOp<T>(ValVariant &Val1, const ValVariant &Val2)] is a function of
    the C++ type and the operands that returns the new contents of [Val1]; on an error
    the operand is left as it was. *)
From stdpp Require Import base list numbers option.
From Stdlib Require Import ZArith Lia.
From S2P Require Import Prelude Types Float.
#[local] Open Scope Z_scope.

(** ** Test and relation: relation_numeric.ipp *)

Definition bool_val (b : bool) : ValVariant := mkVariant U32 (if b then 1 else 0).

Definition c_eqb (T : CType) (a b : Z) : bool := if is_floating T then f_eqb T a b else a =? b.
Definition c_ltb (T : CType) (a b : Z) : bool := if is_floating T then f_ltb T a b else a <? b.
Definition c_leb (T : CType) (a b : Z) : bool := if is_floating T then f_leb T a b else a <=? b.

Definition runEqzOp (T : CType) (v : ValVariant) : res ValVariant :=
  let? a := retrieveValue T v in Ok (bool_val (a =? 0)).
Definition runEqOp (T : CType) (v1 v2 : ValVariant) : res ValVariant :=
  let? a := retrieveValue T v1 in let? b := retrieveValue T v2 in Ok (bool_val (c_eqb T a b)).
Definition runNeOp (T : CType) (v1 v2 : ValVariant) : res ValVariant :=
  let? a := retrieveValue T v1 in let? b := retrieveValue T v2 in
  Ok (bool_val (negb (c_eqb T a b))).
Definition runLtOp (T : CType) (v1 v2 : ValVariant) : res ValVariant :=
  let? a := retrieveValue T v1 in let? b := retrieveValue T v2 in Ok (bool_val (c_ltb T a b)).
Definition runGtOp (T : CType) (v1 v2 : ValVariant) : res ValVariant :=
  let? a := retrieveValue T v1 in let? b := retrieveValue T v2 in Ok (bool_val (c_ltb T b a)).
Definition runLeOp (T : CType) (v1 v2 : ValVariant) : res ValVariant :=
  let? a := retrieveValue T v1 in let? b := retrieveValue T v2 in Ok (bool_val (c_leb T a b)).
Definition runGeOp (T : CType) (v1 v2 : ValVariant) : res ValVariant :=
  let? a := retrieveValue T v1 in let? b := retrieveValue T v2 in Ok (bool_val (c_leb T b a)).

(** ** Unary: unary_numeric.ipp *)

(** [while ((I & Mask) == 0U) { Cnt++; I <<= 1; }] *)
Fixpoint clz_loop (fuel : nat) (T : CType) (Mask I Cnt : Z) : res Z :=
  match fuel with
  | O => NoFuel
  | S fuel' =>
      if Z.land I Mask =? 0
      then clz_loop fuel' T Mask (wrap (bits T) (Z.shiftl I 1)) (wrap (bits T) (Cnt + 1))
      else Ok Cnt
  end.

(** [while ((I & Mask) == 0U) { Cnt++; I >>= 1; }] *)
Fixpoint ctz_loop (fuel : nat) (T : CType) (Mask I Cnt : Z) : res Z :=
  match fuel with
  | O => NoFuel
  | S fuel' =>
      if Z.land I Mask =? 0
      then ctz_loop fuel' T Mask (Z.shiftr I 1) (wrap (bits T) (Cnt + 1))
      else Ok Cnt
  end.

(** [while (I != 0U) { if (I & Mask) Cnt++; I >>= 1; }] *)
Fixpoint popcnt_loop (fuel : nat) (T : CType) (Mask I Cnt : Z) : res Z :=
  match fuel with
  | O => NoFuel
  | S fuel' =>
      if I =? 0 then Ok Cnt
      else popcnt_loop fuel' T Mask (Z.shiftr I 1)
             (if Z.land I Mask =? 0 then Cnt else wrap (bits T) (Cnt + 1))
  end.

(** One iteration per bit is enough; one more for the final test. *)
Definition loop_fuel (T : CType) : nat := S (Z.to_nat (bits T)).

Definition runClzOp (T : CType) (v : ValVariant) : res ValVariant :=
  let? i := retrieveValue T v in
  if negb (i =? 0) then
    let? Cnt := clz_loop (loop_fuel T) T (Z.shiftl 1 (bits T - 1)) i 0 in
    Ok (mkVariant T Cnt)
  else Ok v.

Definition runCtzOp (T : CType) (v : ValVariant) : res ValVariant :=
  let? i := retrieveValue T v in
  if negb (i =? 0) then
    let? Cnt := ctz_loop (loop_fuel T) T 1 i 0 in
    Ok (mkVariant T Cnt)
  else Ok (mkVariant T (bits T)).

Definition runPopcntOp (T : CType) (v : ValVariant) : res ValVariant :=
  let? i := retrieveValue T v in
  if negb (i =? 0) then
    let? Cnt := popcnt_loop (loop_fuel T) T 1 i 0 in
    Ok (mkVariant T Cnt)
  else Ok v.

Definition unary_f (f : CType -> Z -> Z) (T : CType) (v : ValVariant) : res ValVariant :=
  let? a := retrieveValue T v in Ok (mkVariant T (f T a)).

Definition runAbsOp : CType -> ValVariant -> res ValVariant := unary_f f_abs.
Definition runNegOp : CType -> ValVariant -> res ValVariant := unary_f f_neg.
Definition runCeilOp : CType -> ValVariant -> res ValVariant := unary_f (fun T => f_round T Rceil).
Definition runFloorOp : CType -> ValVariant -> res ValVariant := unary_f (fun T => f_round T Rfloor).
Definition runTruncOp : CType -> ValVariant -> res ValVariant := unary_f (fun T => f_round T Rtrunc).
Definition runNearestOp : CType -> ValVariant -> res ValVariant :=
  unary_f (fun T => f_round T Rnearest).
Definition runSqrtOp : CType -> ValVariant -> res ValVariant := unary_f f_sqrt.

(** ** Binary: binary_numeric.ipp *)

Definition compound (f : CType -> Z -> Z -> Z) (T : CType) (v1 v2 : ValVariant) : res ValVariant :=
  let? a := retrieveValue T v1 in let? b := retrieveValue T v2 in
  Ok (assignValue T (f T a b) v1).

Definition runAddOp : CType -> ValVariant -> ValVariant -> res ValVariant :=
  compound (fun T a b => if is_floating T then f_add T a b else a + b).
Definition runSubOp : CType -> ValVariant -> ValVariant -> res ValVariant :=
  compound (fun T a b => if is_floating T then f_sub T a b else a - b).
Definition runMulOp : CType -> ValVariant -> ValVariant -> res ValVariant :=
  compound (fun T a b => if is_floating T then f_mul T a b else a * b).

(** [std::numeric_limits<T>::min()] and [static_cast<T>(-1)] at a signed type. *)
Definition limits_min (T : CType) : Z :=
  match T with
  | S32 | S64 => - 2 ^ (bits T - 1)
  | FLT | DBL => f_limits_min T
  | U32 | U64 => 0
  end.
Definition limits_max (T : CType) : Z :=
  match T with S32 | S64 => 2 ^ (bits T - 1) - 1 | _ => 2 ^ bits T - 1 end.
Definition minus_one (T : CType) : Z := if is_floating T then f_of_Z T (-1) else -1.

Definition runDivOp (T : CType) (v1 v2 : ValVariant) : res ValVariant :=
  let? V1 := retrieveValue T v1 in
  let? V2 := retrieveValue T v2 in
  if negb (is_floating T) && (V2 =? 0) then Err DivideByZero
  else if is_signed T && c_eqb T V1 (limits_min T) && c_eqb T V2 (minus_one T)
  then Err FloatPointException
  else Ok (assignValue T (if is_floating T then f_div T V1 V2 else Z.quot V1 V2) v1).

Definition runRemOp (T : CType) (v1 v2 : ValVariant) : res ValVariant :=
  let? I1 := retrieveValue T v1 in
  let? I2 := retrieveValue T v2 in
  if I2 =? 0 then Err DivideByZero
  else if is_signed T && (I2 =? -1) then Ok (assignValue T 0 v1)
  else Ok (assignValue T (Z.rem I1 I2) v1).

Definition runAndOp : CType -> ValVariant -> ValVariant -> res ValVariant :=
  compound (fun _ => Z.land).
Definition runOrOp : CType -> ValVariant -> ValVariant -> res ValVariant :=
  compound (fun _ => Z.lor).
Definition runXorOp : CType -> ValVariant -> ValVariant -> res ValVariant :=
  compound (fun _ => Z.lxor).

(** [x % (sizeof(T) * 8)]: the right operand is a [size_t], so [x] converts to 64 bits. *)
Definition shift_amount (T : CType) (x : Z) : Z := wrap 64 x mod bits T.

Definition runShlOp : CType -> ValVariant -> ValVariant -> res ValVariant :=
  compound (fun T a b => Z.shiftl a (shift_amount T b)).
Definition runShrOp : CType -> ValVariant -> ValVariant -> res ValVariant :=
  compound (fun T a b => Z.shiftr a (shift_amount T b)).

(** A shift by [n] of an unsigned [T]: undefined unless [n] is below the width. *)
Definition shl_T (T : CType) (a n : Z) : res Z :=
  if (0 <=? n) && (n <? bits T) then Ok (wrap (bits T) (Z.shiftl a n)) else Undef UB_shift.
Definition shr_T (T : CType) (a n : Z) : res Z :=
  if (0 <=? n) && (n <? bits T) then Ok (Z.shiftr a n) else Undef UB_shift.

Definition runRotlOp (T : CType) (v1 v2 : ValVariant) : res ValVariant :=
  let? I1 := retrieveValue T v1 in
  let? I2 := retrieveValue T v2 in
  let K := shift_amount T I2 in
  let? hi := shl_T T I1 K in
  let? lo := shr_T T I1 (bits T - K) in
  Ok (assignValue T (Z.lor hi lo) v1).

Definition runRotrOp (T : CType) (v1 v2 : ValVariant) : res ValVariant :=
  let? I1 := retrieveValue T v1 in
  let? I2 := retrieveValue T v2 in
  let K := shift_amount T I2 in
  let? lo := shr_T T I1 K in
  let? hi := shl_T T I1 (bits T - K) in
  Ok (assignValue T (Z.lor lo hi) v1).

Definition runMinOp (T : CType) (v1 v2 : ValVariant) : res ValVariant :=
  let? Z1 := retrieveValue T v1 in
  let? Z2 := retrieveValue T v2 in
  if f_eqb T Z1 0 && f_eqb T Z2 0 && negb (eqb (signbit T Z1) (signbit T Z2))
  then Ok (assignValue T (sign_bit T) v1)
  else Ok (assignValue T (f_stdmin T Z1 Z2) v1).

Definition runMaxOp : CType -> ValVariant -> ValVariant -> res ValVariant := compound f_stdmax.
Definition runCopysignOp : CType -> ValVariant -> ValVariant -> res ValVariant :=
  compound f_copysign.

(** ** Casts: cast_numeric.ipp *)

Definition runWrapOp (TIn TOut : CType) (v : ValVariant) : res ValVariant :=
  let? a := retrieveValue TIn v in Ok (mkVariant TOut a).

(** The bounds are computed in [double]: [1.0] is a [double] literal. *)
Definition runTruncateOp (TIn TOut : CType) (v : ValVariant) : res ValVariant :=
  let? zin := retrieveValue TIn v in
  if f_isnan TIn zin || f_isinf TIn zin then Err CastingError
  else
    let Z1 := f_round TIn Rtrunc zin in
    let lo := f_sub DBL (f_cvt TIn DBL (f_of_Z TIn (limits_min TOut))) (f_of_Z DBL 1) in
    let hi := f_add DBL (f_cvt TIn DBL (f_of_Z TIn (limits_max TOut))) (f_of_Z DBL 1) in
    let Zd := f_cvt TIn DBL Z1 in
    if f_leb DBL Zd lo || f_leb DBL hi Zd then Err CastingError
    else
      match f_truncZ TIn Z1 with
      | Some z =>
          if (limits_min TOut <=? z) && (z <=? limits_max TOut)
          then Ok (assignValue TOut z v) else Undef UB_cast
      | None => Undef UB_cast
      end.

Definition runExtendOp (TIn TOut : CType) (v : ValVariant) : res ValVariant :=
  let? a := retrieveValue TIn v in Ok (assignValue TOut a v).
Definition runConvertOp (TIn TOut : CType) (v : ValVariant) : res ValVariant :=
  let? a := retrieveValue TIn v in Ok (assignValue TOut (f_of_Z TOut a) v).
Definition runDemoteOp (TIn TOut : CType) (v : ValVariant) : res ValVariant :=
  let? a := retrieveValue TIn v in Ok (assignValue TOut (f_cvt TIn TOut a) v).
Definition runPromoteOp (TIn TOut : CType) (v : ValVariant) : res ValVariant :=
  let? a := retrieveValue TIn v in Ok (assignValue TOut (f_cvt TIn TOut a) v).
Definition runReinterpretOp (TIn TOut : CType) (v : ValVariant) : res ValVariant :=
  let? a := retrieveValue TIn v in Ok (assignValue TOut a v).
