(* ===== verification/NumericFacts.v ===== *)
(** * The numeric instructions against the WebAssembly definitions

    Reference definitions of the integer operators (numerics chapter of the WebAssembly
    core specification) and the proofs that the templates of Numeric.v compute them, with
    the points where they do not. *)
From stdpp Require Import base list numbers option.
From Stdlib Require Import ZArith Lia Zpow_facts.
From S2P Require Import Prelude Types Float Numeric.
#[local] Open Scope Z_scope.

(** ** Reference operators on [N]-bit integers; [None] is a trap *)

Inductive iop : Set :=
| IAdd | ISub | IMul | IDivU | IDivS | IRemU | IRemS
| IAnd | IOr | IXor | IShl | IShrU | IShrS | IRotl | IRotr.

Definition spec_ibinop (N : Z) (op : iop) (a b : Z) : option Z :=
  let k := b mod N in
  match op with
  | IAdd => Some (wrap N (a + b))
  | ISub => Some (wrap N (a - b))
  | IMul => Some (wrap N (a * b))
  | IDivU => if b =? 0 then None else Some (a / b)
  | IDivS =>
      if b =? 0 then None
      else let q := Z.quot (sgn N a) (sgn N b) in
           if q =? 2 ^ (N - 1) then None else Some (wrap N q)
  | IRemU => if b =? 0 then None else Some (a mod b)
  | IRemS => if b =? 0 then None else Some (wrap N (Z.rem (sgn N a) (sgn N b)))
  | IAnd => Some (Z.land a b)
  | IOr => Some (Z.lor a b)
  | IXor => Some (Z.lxor a b)
  | IShl => Some (wrap N (a * 2 ^ k))
  | IShrU => Some (a / 2 ^ k)
  | IShrS => Some (wrap N (sgn N a / 2 ^ k))
  | IRotl => Some (wrap N (a * 2 ^ k) + a / 2 ^ (N - k))
  | IRotr => Some (a / 2 ^ k + wrap N (a * 2 ^ (N - k)))
  end.

(** The width as a C++ type. *)
Definition utype (w64 : bool) : CType := if w64 then U64 else U32.
Definition stype (w64 : bool) : CType := if w64 then S64 else S32.
Definition width (w64 : bool) : Z := if w64 then 64 else 32.

(** The instantiation the dispatcher uses for each operator. *)
Definition code_ibinop (w64 : bool) (op : iop) : ValVariant -> ValVariant -> res ValVariant :=
  match op with
  | IAdd => runAddOp (utype w64)
  | ISub => runSubOp (utype w64)
  | IMul => runMulOp (utype w64)
  | IDivU => runDivOp (utype w64)
  | IDivS => runDivOp (stype w64)
  | IRemU => runRemOp (utype w64)
  | IRemS => runRemOp (stype w64)
  | IAnd => runAndOp (utype w64)
  | IOr => runOrOp (utype w64)
  | IXor => runXorOp (utype w64)
  | IShl => runShlOp (utype w64)
  | IShrU => runShrOp (utype w64)
  | IShrS => runShrOp (stype w64)
  | IRotl => runRotlOp (utype w64)
  | IRotr => runRotrOp (utype w64)
  end.

(** Reference comparisons, and the instantiation the dispatcher uses for each. *)
Inductive irelop : Set :=
| IEq | INe | ILtU | ILtS | IGtU | IGtS | ILeU | ILeS | IGeU | IGeS.

Definition spec_irelop (N : Z) (r : irelop) (a b : Z) : bool :=
  match r with
  | IEq => bool_decide (a = b)
  | INe => bool_decide (a <> b)
  | ILtU => bool_decide (a < b)
  | ILtS => bool_decide (sgn N a < sgn N b)
  | IGtU => bool_decide (a > b)
  | IGtS => bool_decide (sgn N a > sgn N b)
  | ILeU => bool_decide (a <= b)
  | ILeS => bool_decide (sgn N a <= sgn N b)
  | IGeU => bool_decide (a >= b)
  | IGeS => bool_decide (sgn N a >= sgn N b)
  end.

Definition code_irelop (w64 : bool) (r : irelop) : ValVariant -> ValVariant -> res ValVariant :=
  match r with
  | IEq => runEqOp (utype w64)
  | INe => runNeOp (utype w64)
  | ILtU => runLtOp (utype w64)
  | ILtS => runLtOp (stype w64)
  | IGtU => runGtOp (utype w64)
  | IGtS => runGtOp (stype w64)
  | ILeU => runLeOp (utype w64)
  | ILeS => runLeOp (stype w64)
  | IGeU => runGeOp (utype w64)
  | IGeS => runGeOp (stype w64)
  end.

(** The integer a value holds at a width. *)
Definition uval (w64 : bool) (v : ValVariant) : Z := wrap (width w64) (storage v).
Definition wide_enough (w64 : bool) (v : ValVariant) : bool := implb w64 (wide v).

Lemma quot_min_iff N a b :
  1 < N -> in_s N a -> in_s N b -> b <> 0 ->
  Z.quot a b = 2 ^ (N - 1) <-> a = - 2 ^ (N - 1) /\ b = -1.
Proof.
  unfold in_s. intros HN Ha Hb Hb0.
  assert (0 < 2 ^ (N - 1)) as Hp by (apply Z.pow_pos_nonneg; lia).
  split.
  - intros Hq. pose proof (Z.quot_rem a b Hb0) as Hqr.
    pose proof (Z.rem_bound_abs a b Hb0).
    pose proof (Z.rem_sign_nz a b Hb0) as Hs.
    rewrite Hq in Hqr.
    assert (Z.rem a b = 0 \/ Z.rem a b <> 0) as [Hr|Hr] by lia.
    + rewrite Hr in Hqr. nia.
    + specialize (Hs Hr). nia.
  - intros [-> ->]. change (-1) with (- (1)). rewrite Z.quot_opp_opp by lia. apply Z.quot_1_r.
Qed.

Section IBinop.
Context (w64 : bool).

Lemma width_pos : 1 < width w64.
Proof. by destruct w64. Qed.

Lemma uval_range v : in_u (width w64) (uval w64 v).
Proof. apply wrap_range. pose proof width_pos. lia. Qed.

Lemma retrieve_u v :
  wide_enough w64 v = true -> retrieveValue (utype w64) v = Ok (uval w64 v).
Proof. unfold wide_enough, retrieveValue. destruct w64, (wide v) eqn:E; cbn; by rewrite ?E. Qed.

Lemma retrieve_s v :
  wide_enough w64 v = true -> retrieveValue (stype w64) v = Ok (sgn (width w64) (uval w64 v)).
Proof.
  unfold wide_enough, retrieveValue, uval.
  destruct w64, (wide v) eqn:E; cbn -[sgn wrap]; rewrite ?E; intros; try done;
    by rewrite sgn_wrap by done.
Qed.

Lemma assign_wrap x v :
  assignValue (utype w64) (wrap (width w64) x) v = assignValue (utype w64) x v.
Proof.
  unfold assignValue, to_bits. destruct w64; cbn -[wrap]; f_equal; unfold wrap;
    rewrite Z.mod_mod by done; done.
Qed.

Lemma assign_s x v : assignValue (stype w64) x v = assignValue (utype w64) x v.
Proof. by destruct w64. Qed.

Lemma bits_u : bits (utype w64) = width w64.
Proof. by destruct w64. Qed.
Lemma bits_s : bits (stype w64) = width w64.
Proof. by destruct w64. Qed.

Lemma shift_amount_width T x : bits T = width w64 -> shift_amount T x = x mod width w64.
Proof.
  intros HT. unfold shift_amount, wrap. rewrite HT.
  destruct w64; cbn [width]; symmetry; [change (2 ^ 64) with (64 * 2 ^ 58)|
    change (2 ^ 64) with (32 * 2 ^ 59)]; rewrite Z.rem_mul_r by done;
    rewrite Z.mul_comm, Z_mod_plus_full, Z.mod_mod by done; done.
Qed.

Lemma wrap_mod_width x : wrap (width w64) x mod width w64 = x mod width w64.
Proof.
  unfold wrap. destruct w64; cbn [width]; [change (2 ^ 64) with (64 * 2 ^ 58)|
    change (2 ^ 32) with (32 * 2 ^ 27)]; rewrite Z.rem_mul_r by done;
    rewrite Z.mul_comm, Z_mod_plus_full, Z.mod_mod by done; done.
Qed.

Lemma sgn_mod_width x : sgn (width w64) x mod width w64 = x mod width w64.
Proof.
  rewrite <- (wrap_mod_width (sgn _ _)), wrap_sgn, wrap_mod_width by (by destruct w64). done.
Qed.

Lemma sgn_eq_0 x : in_u (width w64) x -> (sgn (width w64) x =? 0) = (x =? 0).
Proof.
  intros Hx. unfold sgn. rewrite wrap_small by done. unfold in_u in Hx.
  destruct (Z.ltb_spec x (2 ^ (width w64 - 1))); [done|].
  assert (0 < 2 ^ (width w64 - 1)) by (destruct w64; done).
  destruct (Z.eqb_spec (x - 2 ^ width w64) 0), (Z.eqb_spec x 0); lia.
Qed.

End IBinop.

(** The rotation amount of an operand. *)
Definition rot_amount (w64 : bool) (v : ValVariant) : Z := uval w64 v mod width w64.
Definition is_rot (op : iop) : bool := match op with IRotl | IRotr => true | _ => false end.

(** The trap the code raises. *)
Definition trap_code (w64 : bool) (v2 : ValVariant) : ErrCode :=
  if uval w64 v2 =? 0 then DivideByZero else FloatPointException.

Section IBinopCorrect.
Context (w64 : bool) (v1 v2 : ValVariant).
Context (Ht1 : wide_enough w64 v1 = true) (Ht2 : wide_enough w64 v2 = true).

#[local] Abbreviation N := (width w64).
#[local] Abbreviation a := (uval w64 v1).
#[local] Abbreviation b := (uval w64 v2).
#[local] Abbreviation expected r :=
  (match r with
   | Some x => Ok (assignValue (utype w64) x v1)
   | None => Err (trap_code w64 v2)
   end).

Lemma is_floating_u : is_floating (utype w64) = false.
Proof. by destruct w64. Qed.
Lemma is_floating_s : is_floating (stype w64) = false.
Proof. by destruct w64. Qed.

Lemma compound_u f :
  compound f (utype w64) v1 v2 = Ok (assignValue (utype w64) (f (utype w64) a b) v1).
Proof. unfold compound. by rewrite !retrieve_u. Qed.

Lemma div_s_correct : runDivOp (stype w64) v1 v2 = expected (spec_ibinop N IDivS a b).
Proof.
  unfold runDivOp, spec_ibinop, trap_code, c_eqb, minus_one.
  rewrite !retrieve_s by done. cbn [rbind]. rewrite is_floating_s. cbn [negb andb].
  rewrite sgn_eq_0 by apply uval_range.
  destruct (Z.eqb_spec b 0) as [|Hb]; [done|].
  replace (is_signed (stype w64)) with true by (by destruct w64). cbn [andb].
  replace (limits_min (stype w64)) with (- 2 ^ (N - 1)) by (by destruct w64).
  pose proof (sgn_eq_0 w64 b (uval_range _ _)) as Hs.
  rewrite (proj2 (Z.eqb_neq b 0) Hb) in Hs. apply Z.eqb_neq in Hs.
  assert (0 < N) as HN by (pose proof (width_pos w64); lia).
  pose proof (quot_min_iff N (sgn N a) (sgn N b) (width_pos _)
    (sgn_range _ _ HN) (sgn_range _ _ HN) Hs) as Hq.
  rewrite assign_s.
  destruct (Z.eqb_spec (Z.quot (sgn N a) (sgn N b)) (2 ^ (N - 1))) as [E|E].
  - apply Hq in E as [-> ->]. by rewrite !Z.eqb_refl.
  - destruct (Z.eqb_spec (sgn N a) (- 2 ^ (N - 1))), (Z.eqb_spec (sgn N b) (-1));
      cbn [andb]; rewrite ?assign_wrap; try done. exfalso. tauto.
Qed.

Lemma rem_s_correct : runRemOp (stype w64) v1 v2 = expected (spec_ibinop N IRemS a b).
Proof.
  unfold runRemOp, spec_ibinop, trap_code. rewrite !retrieve_s by done. cbn [rbind].
  rewrite sgn_eq_0 by apply uval_range.
  destruct (Z.eqb_spec b 0) as [|Hb]; [done|].
  replace (is_signed (stype w64)) with true by (by destruct w64). cbn [andb].
  rewrite !assign_s, assign_wrap.
  destruct (Z.eqb_spec (sgn N b) (-1)) as [->|]; [|done].
  change (-1) with (- (1)). by rewrite Z.rem_opp_r, Z.rem_1_r by lia.
Qed.

Lemma divrem_u_correct op :
  (op = IDivU \/ op = IRemU) ->
  code_ibinop w64 op v1 v2 = expected (spec_ibinop N op a b).
Proof.
  pose proof (uval_range w64 v1) as Ha. pose proof (uval_range w64 v2) as Hb.
  unfold in_u in *.
  intros [-> | ->]; unfold code_ibinop, spec_ibinop, runDivOp, runRemOp, trap_code;
    rewrite !retrieve_u by done; cbn [rbind]; rewrite ?is_floating_u; cbn [negb andb];
    replace (is_signed (utype w64)) with false by (by destruct w64); cbn [andb];
    (destruct (Z.eqb_spec b 0); [done|]).
  - by rewrite Z.quot_div_nonneg by lia.
  - by rewrite Z.rem_mod_nonneg by lia.
Qed.

Lemma shift_correct op :
  (op = IShl \/ op = IShrU \/ op = IShrS) ->
  code_ibinop w64 op v1 v2 = expected (spec_ibinop N op a b).
Proof.
  assert (0 <= b mod N) by (apply Z.mod_pos_bound; pose proof (width_pos w64); lia).
  intros [-> |[-> | ->]]; unfold code_ibinop, spec_ibinop, runShlOp, runShrOp.
  - rewrite compound_u, (shift_amount_width w64), Z.shiftl_mul_pow2, assign_wrap
      by (try apply bits_u; lia). done.
  - rewrite compound_u, (shift_amount_width w64), Z.shiftr_div_pow2
      by (try apply bits_u; lia). done.
  - unfold compound. rewrite !retrieve_s by done. cbn [rbind].
    rewrite (shift_amount_width w64), sgn_mod_width, Z.shiftr_div_pow2, assign_s, assign_wrap
      by (try apply bits_s; lia). done.
Qed.

Lemma rot_correct op :
  is_rot op = true -> rot_amount w64 v2 <> 0 ->
  code_ibinop w64 op v1 v2 = expected (spec_ibinop N op a b).
Proof.
  unfold rot_amount. intros Hop Hk.
  pose proof (width_pos w64) as HN. pose proof (uval_range w64 v1) as Ha.
  assert (0 <= b mod N < N) as Hr by (apply Z.mod_pos_bound; lia).
  assert (forall n, 0 < n < N -> shl_T (utype w64) a n = Ok (wrap N (a * 2 ^ n))
    /\ shr_T (utype w64) a n = Ok (a / 2 ^ n)) as Hsh.
  { intros n Hn. unfold shl_T, shr_T. rewrite bits_u.
    rewrite (proj2 (Z.leb_le 0 n)), (proj2 (Z.ltb_lt n N)) by lia. cbn.
    by rewrite Z.shiftl_mul_pow2, Z.shiftr_div_pow2 by lia. }
  destruct (Hsh (b mod N)) as [H1 H2]; [lia|].
  destruct (Hsh (N - b mod N)) as [H3 H4]; [lia|].
  destruct op; try done;
    unfold code_ibinop, spec_ibinop, runRotlOp, runRotrOp; rewrite !retrieve_u by done;
    cbn [rbind]; rewrite (shift_amount_width w64), ?bits_u by apply bits_u.
  - rewrite H1, H4. cbn [rbind].
    rewrite (lor_disjoint _ _ (b mod N));
      [done|lia|apply wrap_shiftl_mod; lia|apply div_pow_lt; [lia|done]].
  - rewrite H2, H3. cbn [rbind]. rewrite Z.lor_comm, Z.add_comm.
    rewrite (lor_disjoint _ _ (N - b mod N));
      [done|lia|apply wrap_shiftl_mod; lia|].
    pose proof (div_pow_lt N a (N - b mod N) ltac:(lia) Ha) as Hd.
    by replace (N - (N - b mod N)) with (b mod N) in Hd by lia.
Qed.

(** Every integer operator at once. *)
Lemma ibinop_correct op :
  (is_rot op = true -> rot_amount w64 v2 <> 0) ->
  code_ibinop w64 op v1 v2 = expected (spec_ibinop N op a b).
Proof.
  intros Hk.
  destruct op; try (by apply rot_correct; auto); try (by apply shift_correct; auto);
    try (by apply divrem_u_correct; auto); try apply div_s_correct; try apply rem_s_correct;
    unfold code_ibinop, spec_ibinop, runAddOp, runSubOp, runMulOp, runAndOp, runOrOp, runXorOp;
    rewrite compound_u, ?is_floating_u, ?assign_wrap; done.
Qed.

(** Every integer comparison at once. *)
Lemma irelop_correct r :
  code_irelop w64 r v1 v2 = Ok (bool_val (spec_irelop N r a b)).
Proof.
  destruct r; cbn [code_irelop spec_irelop];
    unfold runEqOp, runNeOp, runLtOp, runGtOp, runLeOp, runGeOp, c_eqb, c_ltb, c_leb;
    rewrite ?retrieve_u, ?retrieve_s by done; cbn [rbind];
    rewrite ?is_floating_u, ?is_floating_s; do 2 f_equal; symmetry;
    rewrite <- ?negb_bool_decide_not; case_bool_decide;
    rewrite ?negb_true_iff, ?negb_false_iff, ?Z.eqb_eq, ?Z.eqb_neq, ?Z.ltb_lt, ?Z.ltb_ge, ?Z.leb_le, ?Z.leb_gt;
    symmetry;
    rewrite ?negb_true_iff, ?negb_false_iff, ?Z.eqb_eq, ?Z.eqb_neq, ?Z.ltb_lt, ?Z.ltb_ge, ?Z.leb_le, ?Z.leb_gt;
    lia.
Qed.

End IBinopCorrect.

(** ** Counting loops *)

(** The number of set bits below [n]. *)
Fixpoint bit_count (n : nat) (i : Z) : Z :=
  match n with
  | O => 0
  | S n' => Z.b2z (Z.testbit i (Z.of_nat n')) + bit_count n' i
  end.

Lemma bit_count_step n i :
  bit_count (S n) i = Z.b2z (Z.odd i) + bit_count n (Z.shiftr i 1).
Proof.
  induction n as [|n IH]; [cbn; by rewrite Z.bit0_odd|].
  cbn [bit_count] in *. rewrite Z.shiftr_spec by lia.
  replace (Z.of_nat n + 1) with (Z.of_nat (S n)) by lia. lia.
Qed.

Lemma bit_count_0 n : bit_count n 0 = 0.
Proof. induction n; cbn; [done|]. by rewrite Z.bits_0. Qed.

Lemma bit_count_bound n i : 0 <= bit_count n i <= Z.of_nat n.
Proof. induction n; cbn [bit_count]; [done|]. destruct (Z.testbit _ _); cbn; lia. Qed.

Lemma land_one_eqb i : (Z.land i 1 =? 0) = negb (Z.odd i).
Proof.
  change 1 with (Z.ones 1). rewrite Z.land_ones by done. change (2 ^ 1) with 2.
  rewrite Zmod_odd. by destruct (Z.odd i).
Qed.

Lemma land_pow2_eqb i k : 0 <= k -> (Z.land i (2 ^ k) =? 0) = negb (Z.testbit i k).
Proof.
  intros Hk. destruct (Z.testbit i k) eqn:E; cbn.
  - apply Z.eqb_neq. intros H0. apply (f_equal (fun x => Z.testbit x k)) in H0.
    by rewrite Z.land_spec, Z.pow2_bits_true, E, Z.bits_0 in H0.
  - apply Z.eqb_eq, Z.bits_inj'. intros n Hn. rewrite Z.land_spec, Z.bits_0.
    destruct (decide (n = k)) as [->|]; [by rewrite E|].
    by rewrite Z.pow2_bits_false, andb_false_r by lia.
Qed.

Section Counting.
Context (T : CType) (HT : T = U32 \/ T = U64).

Lemma clz_loop_correct fuel i c :
  0 < i < 2 ^ bits T -> 0 <= c -> c + (bits T - 1 - Z.log2 i) < 2 ^ bits T ->
  bits T - Z.log2 i <= Z.of_nat fuel ->
  clz_loop fuel T (2 ^ (bits T - 1)) i c = Ok (c + (bits T - 1 - Z.log2 i)).
Proof.
  pose proof (bits_pos T) as Hb.
  revert i c; induction fuel as [|fuel IH]; intros i c Hi Hc Hlt Hf.
  - assert (Z.log2 i < bits T) by (apply Z.log2_lt_pow2; lia). lia.
  - cbn [clz_loop]. rewrite land_pow2_eqb by lia.
    assert (Z.log2 i < bits T) as Hl by (apply Z.log2_lt_pow2; lia).
    destruct (decide (Z.log2 i = bits T - 1)) as [E|E].
    + rewrite <- E, Z.bit_log2 by lia. cbn. f_equal. lia.
    + rewrite Z.bits_above_log2 by lia. cbn [negb].
      assert (i < 2 ^ (bits T - 1)) by (apply Z.log2_lt_pow2; lia).
      assert (2 ^ bits T = 2 * 2 ^ (bits T - 1)) as H2
        by (rewrite <- Z.pow_succ_r by lia; f_equal; lia).
      assert (Z.shiftl i 1 = 2 * i) as Hsh by (rewrite Z.shiftl_mul_pow2; lia).
      assert (Z.log2 (2 * i) = Z.log2 i + 1) as Hlog by (rewrite Z.log2_double; lia).
      rewrite Hsh, !wrap_small by (unfold in_u; lia).
      rewrite IH by (rewrite ?Hlog; lia). rewrite Hlog. f_equal. lia.
Qed.

Lemma ctz_loop_correct fuel i c :
  0 < i < 2 ^ Z.of_nat fuel -> 0 <= c -> c + Z.of_nat fuel < 2 ^ bits T ->
  exists k, ctz_loop fuel T 1 i c = Ok (c + k) /\ 0 <= k /\ i mod 2 ^ k = 0 /\ Z.testbit i k = true.
Proof.
  revert i c; induction fuel as [|fuel IH]; intros i c Hi Hc Hlt; [cbn in Hi; lia|].
  cbn [ctz_loop]. rewrite land_one_eqb.
  destruct (Z.odd i) eqn:Ho; cbn [negb].
  - exists 0. rewrite Z.add_0_r, Z.mod_1_r, Z.bit0_odd. auto with lia.
  - rewrite Nat2Z.inj_succ, Z.pow_succ_r in Hi by lia.
    assert (Z.shiftr i 1 = i / 2) as Hsh by (rewrite Z.shiftr_div_pow2 by lia; done).
    assert (i = 2 * (i / 2)) as Hi2.
    { rewrite (Z.div_mod i 2) at 1 by lia. rewrite Zmod_odd, Ho. lia. }
    rewrite wrap_small by (unfold in_u; lia).
    destruct (IH (Z.shiftr i 1) (c + 1)) as (k & Hk & Hk0 & Hm & Hbit); [lia..|].
    exists (k + 1). rewrite Hk. split_and!; [f_equal; lia|lia| |].
    + rewrite Hi2 at 1. rewrite Z.pow_add_r, Z.mul_comm by lia. change (2 ^ 1) with 2.
      rewrite Z.mul_mod_distr_r by (try apply Z.pow_nonzero; lia).
      rewrite <- Hsh, Hm. done.
    + rewrite Z.shiftr_spec in Hbit by done. done.
Qed.

Lemma popcnt_loop_S fuel m i c :
  popcnt_loop (S fuel) T m i c =
  if i =? 0 then Ok c
  else popcnt_loop fuel T m (Z.shiftr i 1)
         (if Z.land i m =? 0 then c else wrap (bits T) (c + 1)).
Proof. done. Qed.

Lemma popcnt_loop_correct fuel i c :
  0 <= i < 2 ^ Z.of_nat fuel -> 0 <= c -> c + Z.of_nat fuel < 2 ^ bits T ->
  popcnt_loop (S fuel) T 1 i c = Ok (c + bit_count fuel i).
Proof.
  revert i c; induction fuel as [|fuel IH]; intros i c Hi Hc Hlt.
  - cbn in *. assert (i = 0) as -> by lia. cbn. f_equal. lia.
  - rewrite popcnt_loop_S. destruct (Z.eqb_spec i 0) as [->|].
    { rewrite bit_count_0. f_equal. lia. }
    rewrite land_one_eqb, bit_count_step.
    rewrite Nat2Z.inj_succ, Z.pow_succ_r in Hi by lia.
    assert (0 <= Z.shiftr i 1 < 2 ^ Z.of_nat fuel).
    { rewrite Z.shiftr_div_pow2 by lia. change (2 ^ 1) with 2.
      split; [apply Z.div_pos; lia|apply Z.div_lt_upper_bound; lia]. }
    destruct (Z.odd i); cbn [negb]; rewrite ?(wrap_small _ (c + 1)) by (unfold in_u; lia);
      rewrite IH by lia; f_equal; cbn; lia.
Qed.

End Counting.

Section CountOps.
Context (w64 : bool) (v : ValVariant) (Ht : wide_enough w64 v = true).
#[local] Abbreviation i := (uval w64 v).
#[local] Abbreviation T := (utype w64).

Lemma loop_fuel_u : loop_fuel T = S (Z.to_nat (width w64)).
Proof. unfold loop_fuel. by rewrite bits_u. Qed.

Lemma clz_correct :
  runClzOp T v = if i =? 0 then Ok v else Ok (mkVariant T (width w64 - 1 - Z.log2 i)).
Proof.
  pose proof (uval_range w64 v) as Hr. pose proof (width_pos w64). unfold in_u in Hr.
  unfold runClzOp. rewrite retrieve_u by done. cbn [rbind].
  destruct (Z.eqb_spec i 0) as [|Hi]; [done|]. cbn [negb].
  pose proof (Z.log2_nonneg i).
  assert (width w64 < 2 ^ width w64) by (apply Z.pow_gt_lin_r; lia).
  rewrite Z.shiftl_mul_pow2, Z.mul_1_l, loop_fuel_u, clz_loop_correct
    by (rewrite ?bits_u; lia).
  cbn [rbind]. by rewrite bits_u, Z.add_0_l.
Qed.

Lemma ctz_correct :
  exists k, runCtzOp T v = Ok (mkVariant T k) /\ 0 <= k <= width w64 /\ i mod 2 ^ k = 0 /\
    (Z.testbit i k = true \/ (i = 0 /\ k = width w64)).
Proof.
  pose proof (uval_range w64 v) as Hr. pose proof (width_pos w64). unfold in_u in Hr.
  unfold runCtzOp. rewrite retrieve_u by done. cbn [rbind].
  destruct (Z.eqb_spec i 0) as [E|Hi]; cbn [negb].
  { exists (width w64). rewrite bits_u, E. split_and!; [done|lia..| |auto].
    apply Z.mod_0_l, Z.pow_nonzero; lia. }
  assert (width w64 + 1 < 2 ^ width w64) by (by destruct w64).
  assert (2 ^ Z.of_nat (loop_fuel T) = 2 * 2 ^ width w64) as Hf.
  { rewrite loop_fuel_u, Nat2Z.inj_succ, Z2Nat.id by lia. by rewrite Z.pow_succ_r by lia. }
  destruct (ctz_loop_correct T (loop_fuel T) i 0) as (k & Hk & Hk0 & Hm & Hb);
    [lia..|rewrite loop_fuel_u, bits_u; lia|].
  rewrite Hk. cbn [rbind]. exists k. split_and!; [by rewrite Z.add_0_l|done| |done|by left].
  destruct (decide (k <= width w64)); [done|]. exfalso.
  assert (Z.log2 i < width w64) by (apply Z.log2_lt_pow2; lia).
  rewrite Z.bits_above_log2 in Hb by lia. done.
Qed.

Lemma popcnt_correct :
  exists v', runPopcntOp T v = Ok v' /\
    retrieveValue T v' = Ok (bit_count (Z.to_nat (width w64)) i).
Proof.
  pose proof (uval_range w64 v) as Hr. pose proof (width_pos w64). unfold in_u in Hr.
  assert (width w64 < 2 ^ width w64) by (apply Z.pow_gt_lin_r; lia).
  unfold runPopcntOp. rewrite retrieve_u by done. cbn [rbind].
  destruct (Z.eqb_spec i 0) as [E|Hi]; cbn [negb].
  { exists v. split; [done|]. rewrite retrieve_u by done. by rewrite E, bit_count_0. }
  rewrite loop_fuel_u, popcnt_loop_correct; [|rewrite ?Z2Nat.id, ?bits_u by lia; lia..].
  cbn [rbind]. eexists. split; [done|].
  pose proof (bit_count_bound (Z.to_nat (width w64)) i).
  rewrite retrieve_mkVariant, of_to_bits, Z.add_0_l; [done|..]; rewrite ?bits_u.
  - unfold in_u. lia.
  - destruct w64; cbn; by intros [? ?].
Qed.

End CountOps.

(** ** Properties *)

(** [C8] Every integer binary instruction computes the WebAssembly operator at its width.
    Arithmetic, bitwise and shift instructions, for all operands wide enough to be read at
    the width, and rotations by an amount that is not a multiple of the width: the template
    the dispatcher instantiates writes the specified result into the low bytes of the first
    operand, or returns DivideByZero / FloatPointException exactly where the operator is
    undefined.  Each of the ten comparisons, signed and unsigned, yields the i32 1 when the
    relation holds between the operands read at its signedness, and the i32 0 otherwise. *)
Theorem integer_binary_ops_correct (w64 : bool) (v1 v2 : ValVariant) :
  wide_enough w64 v1 = true -> wide_enough w64 v2 = true ->
  (forall op, (is_rot op = true -> rot_amount w64 v2 <> 0) ->
     code_ibinop w64 op v1 v2 =
     match spec_ibinop (width w64) op (uval w64 v1) (uval w64 v2) with
     | Some x => Ok (assignValue (utype w64) x v1)
     | None => Err (trap_code w64 v2)
     end) /\
  (forall r, code_irelop w64 r v1 v2 =
     Ok (mkVariant U32 (if spec_irelop (width w64) r (uval w64 v1) (uval w64 v2) then 1 else 0))).
Proof.
  intros H1 H2. split; intros; [by apply ibinop_correct|].
  rewrite irelop_correct by done. by destruct (spec_irelop _ _ _ _).
Qed.

Lemma integer_binary_ops_correct_witness :
  code_ibinop false IRotl (mkVariant U32 0x80000001) (mkVariant U32 33) =
    Ok (assignValue U32 3 (mkVariant U32 0x80000001)) /\
  code_irelop false ILtS (mkVariant U32 0x80000001) (mkVariant U32 33) = Ok (mkVariant U32 1).
Proof.
  destruct (integer_binary_ops_correct false (mkVariant U32 0x80000001) (mkVariant U32 33)
    eq_refl eq_refl) as [Hop Hrel].
  split; [|exact (Hrel ILtS)].
  rewrite (Hop IRotl); [reflexivity|intros _; vm_compute; discriminate].
Defined.

(** The three counting instructions terminate within one iteration per bit (plus the
    final test) and count what they should on a non-zero operand: clz the zeros above the
    highest set bit, ctz the exponent of the largest power of two that divides the operand,
    popcnt the number of set bits; ctz and popcnt are also right on zero. *)
Theorem counting_ops_correct (w64 : bool) (v : ValVariant) :
  wide_enough w64 v = true ->
  (uval w64 v <> 0 ->
     runClzOp (utype w64) v = Ok (mkVariant (utype w64) (width w64 - 1 - Z.log2 (uval w64 v)))) /\
  (exists k, runCtzOp (utype w64) v = Ok (mkVariant (utype w64) k) /\ 0 <= k <= width w64 /\
     uval w64 v mod 2 ^ k = 0 /\
     (Z.testbit (uval w64 v) k = true \/ (uval w64 v = 0 /\ k = width w64))) /\
  (exists v', runPopcntOp (utype w64) v = Ok v' /\
     retrieveValue (utype w64) v' = Ok (bit_count (Z.to_nat (width w64)) (uval w64 v))).
Proof.
  intros Ht. split_and!; [|by apply ctz_correct|by apply popcnt_correct].
  intros Hi. rewrite clz_correct by done. by rewrite (proj2 (Z.eqb_neq _ _) Hi).
Qed.

Lemma counting_ops_correct_witness :
  runClzOp U64 (mkVariant U64 0xFF00) = Ok (mkVariant U64 48).
Proof.
  apply (proj1 (counting_ops_correct true (mkVariant U64 0xFF00) eq_refl)).
  vm_compute. discriminate.
Defined.

(** clz leaves a zero operand as it is: on 0 the instruction yields 0, where the count
    of leading zeros of an N-bit zero is N (the value ctz does return). *)
Theorem clz_of_zero (w64 : bool) (v : ValVariant) :
  wide_enough w64 v = true -> uval w64 v = 0 ->
  runClzOp (utype w64) v = Ok v /\ runCtzOp (utype w64) v = Ok (mkVariant (utype w64) (width w64)).
Proof.
  intros Ht Hz. split.
  - rewrite clz_correct by done. by rewrite Hz.
  - unfold runCtzOp. rewrite retrieve_u by done. cbn [rbind]. by rewrite Hz, bits_u.
Qed.

Lemma clz_of_zero_witness :
  runClzOp U32 (mkVariant U32 0) = Ok (mkVariant U32 0) /\
  runCtzOp U32 (mkVariant U32 0) = Ok (mkVariant U32 32).
Proof. apply (clz_of_zero false (mkVariant U32 0)); reflexivity. Defined.

(** Rotating by a multiple of the width shifts by the full width of the operand,
    which C++ leaves undefined: both rotations reach it for every such operand. *)
Theorem rotate_by_zero_undefined (w64 : bool) (op : iop) (v1 v2 : ValVariant) :
  wide_enough w64 v1 = true -> wide_enough w64 v2 = true ->
  is_rot op = true -> rot_amount w64 v2 = 0 ->
  code_ibinop w64 op v1 v2 = Undef UB_shift.
Proof.
  unfold rot_amount. intros H1 H2 Hop Hk. pose proof (width_pos w64) as HN.
  destruct op; try done; cbn [code_ibinop]; unfold runRotlOp, runRotrOp;
    rewrite !retrieve_u by done; cbn [rbind];
    rewrite (shift_amount_width w64), Hk by apply bits_u; unfold shl_T, shr_T;
    rewrite bits_u, Z.sub_0_r, Z.ltb_irrefl, andb_false_r;
    rewrite (proj2 (Z.ltb_lt 0 (width w64))) by lia; done.
Qed.

Lemma rotate_by_zero_undefined_witness :
  code_ibinop false IRotr (mkVariant U32 7) (mkVariant U32 64) = Undef UB_shift.
Proof.
  apply (rotate_by_zero_undefined false IRotr (mkVariant U32 7) (mkVariant U32 64)); reflexivity.
Defined.

(** Where the floating-point templates leave the WebAssembly definitions: a division
    of the smallest normal number by -1 returns FloatPointException; min returns its first
    operand when the second is a NaN; max of -0 and +0 returns -0; i64.trunc_f64_s rejects
    -2^63, which an int64 holds; i32.trunc_f32_s lets 2^31 through to a conversion C++
    leaves undefined. *)
Theorem float_ops_deviations :
  runDivOp FLT (mkVariant FLT 0x00800000) (mkVariant FLT 0xBF800000) = Err FloatPointException /\
  runMinOp FLT (mkVariant FLT 0x3F800000) (mkVariant FLT 0x7FC00000) = Ok (mkVariant FLT 0x3F800000) /\
  runMaxOp FLT (mkVariant FLT 0x80000000) (mkVariant FLT 0) = Ok (mkVariant FLT 0x80000000) /\
  runTruncateOp DBL S64 (mkVariant DBL 0xC3E0000000000000) = Err CastingError /\
  runTruncateOp FLT S32 (mkVariant FLT 0x4F000000) = Undef UB_cast.
Proof. vm_compute. auto. Qed.
