(* ===== verification/Instruction.v ===== *)
(** * Instruction nodes: include/common/ast/instruction.h, lib/ast/instruction.cpp

    The opcode enumeration with its byte values, the node classes, the dispatch from an
    opcode to its class, and the two node makers (fresh node, deep copy). *)
From stdpp Require Import base list numbers option.
From Stdlib Require Import ZArith Lia.
From S2P Require Import Prelude Types.
#[local] Open Scope Z_scope.

(** ** Opcodes *)

(** [AST::Instruction::OpCode].  Enumerators without a type prefix get [Op_]. *)
Inductive OpCode : Set :=
| Op_Unreachable | Op_Nop | Op_Block | Op_Loop | Op_If | Op_Else | Op_End | Op_Br | Op_Br_if
| Op_Br_table | Op_Return | Op_Call | Op_Call_indirect | Op_Drop | Op_Select | Local__get
| Local__set | Local__tee | Global__get | Global__set | I32__load | I64__load | F32__load
| F64__load | I32__load8_s | I32__load8_u | I32__load16_s | I32__load16_u | I64__load8_s
| I64__load8_u | I64__load16_s | I64__load16_u | I64__load32_s | I64__load32_u | I32__store
| I64__store | F32__store | F64__store | I32__store8 | I32__store16 | I64__store8 | I64__store16
| I64__store32 | Memory__size | Memory__grow | I32__const | I64__const | F32__const | F64__const
| I32__eqz | I32__eq | I32__ne | I32__lt_s | I32__lt_u | I32__gt_s | I32__gt_u | I32__le_s
| I32__le_u | I32__ge_s | I32__ge_u | I64__eqz | I64__eq | I64__ne | I64__lt_s | I64__lt_u
| I64__gt_s | I64__gt_u | I64__le_s | I64__le_u | I64__ge_s | I64__ge_u | F32__eq | F32__ne
| F32__lt | F32__gt | F32__le | F32__ge | F64__eq | F64__ne | F64__lt | F64__gt | F64__le
| F64__ge | I32__clz | I32__ctz | I32__popcnt | I32__add | I32__sub | I32__mul | I32__div_s
| I32__div_u | I32__rem_s | I32__rem_u | I32__and | I32__or | I32__xor | I32__shl | I32__shr_s
| I32__shr_u | I32__rotl | I32__rotr | I64__clz | I64__ctz | I64__popcnt | I64__add | I64__sub
| I64__mul | I64__div_s | I64__div_u | I64__rem_s | I64__rem_u | I64__and | I64__or | I64__xor
| I64__shl | I64__shr_s | I64__shr_u | I64__rotl | I64__rotr | F32__abs | F32__neg | F32__ceil
| F32__floor | F32__trunc | F32__nearest | F32__sqrt | F32__add | F32__sub | F32__mul | F32__div
| F32__min | F32__max | F32__copysign | F64__abs | F64__neg | F64__ceil | F64__floor | F64__trunc
| F64__nearest | F64__sqrt | F64__add | F64__sub | F64__mul | F64__div | F64__min | F64__max
| F64__copysign | I32__wrap_i64 | I32__trunc_f32_s | I32__trunc_f32_u | I32__trunc_f64_s
| I32__trunc_f64_u | I64__extend_i32_s | I64__extend_i32_u | I64__trunc_f32_s | I64__trunc_f32_u
| I64__trunc_f64_s | I64__trunc_f64_u | F32__convert_i32_s | F32__convert_i32_u
| F32__convert_i64_s | F32__convert_i64_u | F32__demote_f64 | F64__convert_i32_s
| F64__convert_i32_u | F64__convert_i64_s | F64__convert_i64_u | F64__promote_f32
| I32__reinterpret_f32 | I64__reinterpret_f64 | F32__reinterpret_i32 | F64__reinterpret_i64.

(** The byte of an enumerator. *)
Definition byte_of_OpCode (op : OpCode) : Z :=
  match op with
  | Op_Unreachable => 0x00 | Op_Nop => 0x01 | Op_Block => 0x02 | Op_Loop => 0x03 | Op_If => 0x04
  | Op_Else => 0x05 | Op_End => 0x0B | Op_Br => 0x0C | Op_Br_if => 0x0D | Op_Br_table => 0x0E
  | Op_Return => 0x0F | Op_Call => 0x10 | Op_Call_indirect => 0x11 | Op_Drop => 0x1A
  | Op_Select => 0x1B | Local__get => 0x20 | Local__set => 0x21 | Local__tee => 0x22
  | Global__get => 0x23 | Global__set => 0x24 | I32__load => 0x28 | I64__load => 0x29
  | F32__load => 0x2A | F64__load => 0x2B | I32__load8_s => 0x2C | I32__load8_u => 0x2D
  | I32__load16_s => 0x2E | I32__load16_u => 0x2F | I64__load8_s => 0x30 | I64__load8_u => 0x31
  | I64__load16_s => 0x32 | I64__load16_u => 0x33 | I64__load32_s => 0x34 | I64__load32_u => 0x35
  | I32__store => 0x36 | I64__store => 0x37 | F32__store => 0x38 | F64__store => 0x39
  | I32__store8 => 0x3A | I32__store16 => 0x3B | I64__store8 => 0x3C | I64__store16 => 0x3D
  | I64__store32 => 0x3E | Memory__size => 0x3F | Memory__grow => 0x40 | I32__const => 0x41
  | I64__const => 0x42 | F32__const => 0x43 | F64__const => 0x44 | I32__eqz => 0x45
  | I32__eq => 0x46 | I32__ne => 0x47 | I32__lt_s => 0x48 | I32__lt_u => 0x49 | I32__gt_s => 0x4A
  | I32__gt_u => 0x4B | I32__le_s => 0x4C | I32__le_u => 0x4D | I32__ge_s => 0x4E
  | I32__ge_u => 0x4F | I64__eqz => 0x50 | I64__eq => 0x51 | I64__ne => 0x52 | I64__lt_s => 0x53
  | I64__lt_u => 0x54 | I64__gt_s => 0x55 | I64__gt_u => 0x56 | I64__le_s => 0x57
  | I64__le_u => 0x58 | I64__ge_s => 0x59 | I64__ge_u => 0x5A | F32__eq => 0x5B | F32__ne => 0x5C
  | F32__lt => 0x5D | F32__gt => 0x5E | F32__le => 0x5F | F32__ge => 0x60 | F64__eq => 0x61
  | F64__ne => 0x62 | F64__lt => 0x63 | F64__gt => 0x64 | F64__le => 0x65 | F64__ge => 0x66
  | I32__clz => 0x67 | I32__ctz => 0x68 | I32__popcnt => 0x69 | I32__add => 0x6A
  | I32__sub => 0x6B | I32__mul => 0x6C | I32__div_s => 0x6D | I32__div_u => 0x6E
  | I32__rem_s => 0x6F | I32__rem_u => 0x70 | I32__and => 0x71 | I32__or => 0x72
  | I32__xor => 0x73 | I32__shl => 0x74 | I32__shr_s => 0x75 | I32__shr_u => 0x76
  | I32__rotl => 0x77 | I32__rotr => 0x78 | I64__clz => 0x79 | I64__ctz => 0x7A
  | I64__popcnt => 0x7B | I64__add => 0x7C | I64__sub => 0x7D | I64__mul => 0x7E
  | I64__div_s => 0x7F | I64__div_u => 0x80 | I64__rem_s => 0x81 | I64__rem_u => 0x82
  | I64__and => 0x83 | I64__or => 0x84 | I64__xor => 0x85 | I64__shl => 0x86 | I64__shr_s => 0x87
  | I64__shr_u => 0x88 | I64__rotl => 0x89 | I64__rotr => 0x8A | F32__abs => 0x8B
  | F32__neg => 0x8C | F32__ceil => 0x8D | F32__floor => 0x8E | F32__trunc => 0x8F
  | F32__nearest => 0x90 | F32__sqrt => 0x91 | F32__add => 0x92 | F32__sub => 0x93
  | F32__mul => 0x94 | F32__div => 0x95 | F32__min => 0x96 | F32__max => 0x97
  | F32__copysign => 0x98 | F64__abs => 0x99 | F64__neg => 0x9A | F64__ceil => 0x9B
  | F64__floor => 0x9C | F64__trunc => 0x9D | F64__nearest => 0x9E | F64__sqrt => 0x9F
  | F64__add => 0xA0 | F64__sub => 0xA1 | F64__mul => 0xA2 | F64__div => 0xA3 | F64__min => 0xA4
  | F64__max => 0xA5 | F64__copysign => 0xA6 | I32__wrap_i64 => 0xA7 | I32__trunc_f32_s => 0xA8
  | I32__trunc_f32_u => 0xA9 | I32__trunc_f64_s => 0xAA | I32__trunc_f64_u => 0xAB
  | I64__extend_i32_s => 0xAC | I64__extend_i32_u => 0xAD | I64__trunc_f32_s => 0xAE
  | I64__trunc_f32_u => 0xAF | I64__trunc_f64_s => 0xB0 | I64__trunc_f64_u => 0xB1
  | F32__convert_i32_s => 0xB2 | F32__convert_i32_u => 0xB3 | F32__convert_i64_s => 0xB4
  | F32__convert_i64_u => 0xB5 | F32__demote_f64 => 0xB6 | F64__convert_i32_s => 0xB7
  | F64__convert_i32_u => 0xB8 | F64__convert_i64_s => 0xB9 | F64__convert_i64_u => 0xBA
  | F64__promote_f32 => 0xBB | I32__reinterpret_f32 => 0xBC | I64__reinterpret_f64 => 0xBD
  | F32__reinterpret_i32 => 0xBE | F64__reinterpret_i64 => 0xBF
  end.

(** Every enumerator, in the order of the header. *)
Definition all_OpCodes : list OpCode :=
  [Op_Unreachable; Op_Nop; Op_Block; Op_Loop; Op_If; Op_Else; Op_End; Op_Br; Op_Br_if; Op_Br_table
   ; Op_Return; Op_Call; Op_Call_indirect; Op_Drop; Op_Select; Local__get; Local__set; Local__tee
   ; Global__get; Global__set; I32__load; I64__load; F32__load; F64__load; I32__load8_s
   ; I32__load8_u; I32__load16_s; I32__load16_u; I64__load8_s; I64__load8_u; I64__load16_s
   ; I64__load16_u; I64__load32_s; I64__load32_u; I32__store; I64__store; F32__store; F64__store
   ; I32__store8; I32__store16; I64__store8; I64__store16; I64__store32; Memory__size
   ; Memory__grow; I32__const; I64__const; F32__const; F64__const; I32__eqz; I32__eq; I32__ne
   ; I32__lt_s; I32__lt_u; I32__gt_s; I32__gt_u; I32__le_s; I32__le_u; I32__ge_s; I32__ge_u
   ; I64__eqz; I64__eq; I64__ne; I64__lt_s; I64__lt_u; I64__gt_s; I64__gt_u; I64__le_s; I64__le_u
   ; I64__ge_s; I64__ge_u; F32__eq; F32__ne; F32__lt; F32__gt; F32__le; F32__ge; F64__eq; F64__ne
   ; F64__lt; F64__gt; F64__le; F64__ge; I32__clz; I32__ctz; I32__popcnt; I32__add; I32__sub
   ; I32__mul; I32__div_s; I32__div_u; I32__rem_s; I32__rem_u; I32__and; I32__or; I32__xor
   ; I32__shl; I32__shr_s; I32__shr_u; I32__rotl; I32__rotr; I64__clz; I64__ctz; I64__popcnt
   ; I64__add; I64__sub; I64__mul; I64__div_s; I64__div_u; I64__rem_s; I64__rem_u; I64__and
   ; I64__or; I64__xor; I64__shl; I64__shr_s; I64__shr_u; I64__rotl; I64__rotr; F32__abs; F32__neg
   ; F32__ceil; F32__floor; F32__trunc; F32__nearest; F32__sqrt; F32__add; F32__sub; F32__mul
   ; F32__div; F32__min; F32__max; F32__copysign; F64__abs; F64__neg; F64__ceil; F64__floor
   ; F64__trunc; F64__nearest; F64__sqrt; F64__add; F64__sub; F64__mul; F64__div; F64__min
   ; F64__max; F64__copysign; I32__wrap_i64; I32__trunc_f32_s; I32__trunc_f32_u; I32__trunc_f64_s
   ; I32__trunc_f64_u; I64__extend_i32_s; I64__extend_i32_u; I64__trunc_f32_s; I64__trunc_f32_u
   ; I64__trunc_f64_s; I64__trunc_f64_u; F32__convert_i32_s; F32__convert_i32_u
   ; F32__convert_i64_s; F32__convert_i64_u; F32__demote_f64; F64__convert_i32_s
   ; F64__convert_i32_u; F64__convert_i64_s; F64__convert_i64_u; F64__promote_f32
   ; I32__reinterpret_f32; I64__reinterpret_f64; F32__reinterpret_i32; F64__reinterpret_i64].

(** [static_cast<OpCode>(Byte)]; [None] is a value without an enumerator. *)
Definition OpCode_of_byte (b : Z) : option OpCode :=
  list_find (fun op => byte_of_OpCode op = b) all_OpCodes ≫= (fun p => Some p.2).

#[export] Instance OpCode_eq_dec : EqDecision OpCode.
Proof.
  refine (fun a b => cast_if (decide (byte_of_OpCode a = byte_of_OpCode b))).
  - assert (forall op, OpCode_of_byte (byte_of_OpCode op) = Some op) as H by (by intros []).
    pose proof (H a) as Ha. pose proof (H b) as Hb. congruence.
  - congruence.
Defined.

(** ** Node classes and dispatch *)

(** The tag [dispatchInstruction] calls its visitor with; [None] is [tag<void>]. *)
Inductive InstrClass : Set :=
| Cls_ControlInstruction | Cls_BlockControlInstruction | Cls_IfElseControlInstruction
| Cls_BrControlInstruction | Cls_BrTableControlInstruction | Cls_CallControlInstruction
| Cls_ParametricInstruction | Cls_VariableInstruction | Cls_MemoryInstruction
| Cls_ConstInstruction | Cls_UnaryNumericInstruction | Cls_BinaryNumericInstruction.

#[export] Instance InstrClass_eq_dec : EqDecision InstrClass.
Proof. solve_decision. Defined.

Definition dispatchInstruction (Code : OpCode) : option InstrClass :=
  match Code with
  | Op_Unreachable | Op_Nop | Op_Return
      => Some Cls_ControlInstruction
  | Op_Block | Op_Loop
      => Some Cls_BlockControlInstruction
  | Op_If
      => Some Cls_IfElseControlInstruction
  | Op_Br | Op_Br_if
      => Some Cls_BrControlInstruction
  | Op_Br_table
      => Some Cls_BrTableControlInstruction
  | Op_Call | Op_Call_indirect
      => Some Cls_CallControlInstruction
  | Op_Drop | Op_Select
      => Some Cls_ParametricInstruction
  | Local__get | Local__set | Local__tee | Global__get | Global__set
      => Some Cls_VariableInstruction
  | I32__load | I64__load | F32__load | F64__load | I32__load8_s | I32__load8_u | I32__load16_s
  | I32__load16_u | I64__load8_s | I64__load8_u | I64__load16_s | I64__load16_u | I64__load32_s
  | I64__load32_u | I32__store | I64__store | F32__store | F64__store | I32__store8 | I32__store16
  | I64__store8 | I64__store16 | I64__store32 | Memory__size | Memory__grow
      => Some Cls_MemoryInstruction
  | I32__const | I64__const | F32__const | F64__const
      => Some Cls_ConstInstruction
  | I32__eqz | I32__clz | I32__ctz | I32__popcnt | I64__eqz | I64__clz | I64__ctz | I64__popcnt
  | F32__abs | F32__neg | F32__ceil | F32__floor | F32__trunc | F32__nearest | F32__sqrt
  | F64__abs | F64__neg | F64__ceil | F64__floor | F64__trunc | F64__nearest | F64__sqrt
  | I32__wrap_i64 | I32__trunc_f32_s | I32__trunc_f32_u | I32__trunc_f64_s | I32__trunc_f64_u
  | I64__extend_i32_s | I64__extend_i32_u | I64__trunc_f32_s | I64__trunc_f32_u | I64__trunc_f64_s
  | I64__trunc_f64_u | F32__convert_i32_s | F32__convert_i32_u | F32__convert_i64_s
  | F32__convert_i64_u | F32__demote_f64 | F64__convert_i32_s | F64__convert_i32_u
  | F64__convert_i64_s | F64__convert_i64_u | F64__promote_f32 | I32__reinterpret_f32
  | I64__reinterpret_f64 | F32__reinterpret_i32 | F64__reinterpret_i64
      => Some Cls_UnaryNumericInstruction
  | I32__eq | I32__ne | I32__lt_s | I32__lt_u | I32__gt_s | I32__gt_u | I32__le_s | I32__le_u
  | I32__ge_s | I32__ge_u | I64__eq | I64__ne | I64__lt_s | I64__lt_u | I64__gt_s | I64__gt_u
  | I64__le_s | I64__le_u | I64__ge_s | I64__ge_u | F32__eq | F32__ne | F32__lt | F32__gt
  | F32__le | F32__ge | F64__eq | F64__ne | F64__lt | F64__gt | F64__le | F64__ge | I32__add
  | I32__sub | I32__mul | I32__div_s | I32__div_u | I32__rem_s | I32__rem_u | I32__and | I32__or
  | I32__xor | I32__shl | I32__shr_s | I32__shr_u | I32__rotl | I32__rotr | I64__add | I64__sub
  | I64__mul | I64__div_s | I64__div_u | I64__rem_s | I64__rem_u | I64__and | I64__or | I64__xor
  | I64__shl | I64__shr_s | I64__shr_u | I64__rotl | I64__rotr | F32__add | F32__sub | F32__mul
  | F32__div | F32__min | F32__max | F32__copysign | F64__add | F64__sub | F64__mul | F64__div
  | F64__min | F64__max | F64__copysign
      => Some Cls_BinaryNumericInstruction
  | _ => None
  end.

(** A node: the class, its opcode and the data members of the class. *)
Inductive Instr : Type :=
| ControlInstruction (Code : OpCode)
| BlockControlInstruction (Code : OpCode) (BlockType : ValType) (Body : list Instr)
| IfElseControlInstruction (Code : OpCode) (BlockType : ValType)
    (IfStatement ElseStatement : list Instr)
| BrControlInstruction (Code : OpCode) (LabelIdx : Z)
| BrTableControlInstruction (Code : OpCode) (LabelTable : list Z) (LabelIdx : Z)
| CallControlInstruction (Code : OpCode) (FuncIdx : Z)
| ParametricInstruction (Code : OpCode)
| VariableInstruction (Code : OpCode) (VarIdx : Z)
| MemoryInstruction (Code : OpCode) (Align Offset : Z)
| ConstInstruction (Code : OpCode) (Num : ValVariant)
| UnaryNumericInstruction (Code : OpCode)
| BinaryNumericInstruction (Code : OpCode).

Definition getOpCode (i : Instr) : OpCode :=
  match i with
  | ControlInstruction c | BlockControlInstruction c _ _ | IfElseControlInstruction c _ _ _
  | BrControlInstruction c _ | BrTableControlInstruction c _ _ | CallControlInstruction c _
  | ParametricInstruction c | VariableInstruction c _ | MemoryInstruction c _ _
  | ConstInstruction c _ | UnaryNumericInstruction c | BinaryNumericInstruction c => c
  end.

(** The dynamic class of a node. *)
Definition node_class (i : Instr) : InstrClass :=
  match i with
  | ControlInstruction _ => Cls_ControlInstruction
  | BlockControlInstruction _ _ _ => Cls_BlockControlInstruction
  | IfElseControlInstruction _ _ _ _ => Cls_IfElseControlInstruction
  | BrControlInstruction _ _ => Cls_BrControlInstruction
  | BrTableControlInstruction _ _ _ => Cls_BrTableControlInstruction
  | CallControlInstruction _ _ => Cls_CallControlInstruction
  | ParametricInstruction _ => Cls_ParametricInstruction
  | VariableInstruction _ _ => Cls_VariableInstruction
  | MemoryInstruction _ _ _ => Cls_MemoryInstruction
  | ConstInstruction _ _ => Cls_ConstInstruction
  | UnaryNumericInstruction _ => Cls_UnaryNumericInstruction
  | BinaryNumericInstruction _ => Cls_BinaryNumericInstruction
  end.

(** The value the default constructor of a [ValVariant] member has. *)
Definition default_val : ValVariant := mkVariant U32 0.

(** [makeInstructionNode(Code)]: a node of the class of the opcode with default members.
    A block type has no initialiser; [loadBinary] sets it before anything reads it. *)
Definition makeInstructionNode (Code : OpCode) : res Instr :=
  match dispatchInstruction Code with
  | None => Err InvalidGrammar
  | Some c =>
      Ok match c with
      | Cls_ControlInstruction => ControlInstruction Code
      | Cls_BlockControlInstruction => BlockControlInstruction Code VT_None []
      | Cls_IfElseControlInstruction => IfElseControlInstruction Code VT_None [] []
      | Cls_BrControlInstruction => BrControlInstruction Code 0
      | Cls_BrTableControlInstruction => BrTableControlInstruction Code [] 0
      | Cls_CallControlInstruction => CallControlInstruction Code 0
      | Cls_ParametricInstruction => ParametricInstruction Code
      | Cls_VariableInstruction => VariableInstruction Code 0
      | Cls_MemoryInstruction => MemoryInstruction Code 0 0
      | Cls_ConstInstruction => ConstInstruction Code default_val
      | Cls_UnaryNumericInstruction => UnaryNumericInstruction Code
      | Cls_BinaryNumericInstruction => BinaryNumericInstruction Code
      end
  end.

(** [makeInstructionNode(Instr)]: the copy constructors.  A block copies its body node by
    node and drops the nodes that cannot be copied.  The [static_cast] to the class the
    opcode selects is undefined when the node has another class. *)
Fixpoint copyInstruction (i : Instr) : res Instr :=
  let copies := fix copies (l : list Instr) : res (list Instr) :=
    match l with
    | [] => Ok []
    | x :: l' =>
        match copyInstruction x with
        | Ok y => let? ys := copies l' in Ok (y :: ys)
        | Err _ => copies l'
        | Undef u => Undef u
        | NoFuel => NoFuel
        end
    end in
  match dispatchInstruction (getOpCode i) with
  | None => Err InvalidGrammar
  | Some c =>
      if decide (c = node_class i) then
        match i with
        | BlockControlInstruction Code bt body =>
            let? b := copies body in Ok (BlockControlInstruction Code bt b)
        | IfElseControlInstruction Code bt ifs els =>
            let? b1 := copies ifs in
            let? b2 := copies els in
            Ok (IfElseControlInstruction Code bt b1 b2)
        | _ => Ok i
        end
      else Undef UB_downcast
  end.

(** The loop over a function body, as the constructor of FunctionInstance runs it. *)
Fixpoint copyInstrs (l : list Instr) : res (list Instr) :=
  match l with
  | [] => Ok []
  | x :: l' =>
      match copyInstruction x with
      | Ok y => let? ys := copyInstrs l' in Ok (y :: ys)
      | Err _ => copyInstrs l'
      | Undef u => Undef u
      | NoFuel => NoFuel
      end
  end.

(** ** Induction on nodes, through the nested lists *)

Section InstrInd.
Context (P : Instr -> Prop).
Context (Hblock : forall c bt body, Forall P body -> P (BlockControlInstruction c bt body)).
Context (Hif : forall c bt ifs els, Forall P ifs -> Forall P els ->
  P (IfElseControlInstruction c bt ifs els)).
Context (Hleaf : forall i,
  (forall c bt body, i <> BlockControlInstruction c bt body) ->
  (forall c bt ifs els, i <> IfElseControlInstruction c bt ifs els) -> P i).

Fixpoint Instr_nested_ind (i : Instr) : P i :=
  let all := fix all (l : list Instr) : Forall P l :=
    match l with
    | [] => Forall_nil_2 P
    | x :: l' => Forall_cons_2 P x l' (Instr_nested_ind x) (all l')
    end in
  match i return P i with
  | BlockControlInstruction c bt body => Hblock c bt body (all body)
  | IfElseControlInstruction c bt ifs els => Hif c bt ifs els (all ifs) (all els)
  | ControlInstruction c => Hleaf (ControlInstruction c) ltac:(done) ltac:(done)
  | BrControlInstruction c n => Hleaf (BrControlInstruction c n) ltac:(done) ltac:(done)
  | BrTableControlInstruction c t n =>
      Hleaf (BrTableControlInstruction c t n) ltac:(done) ltac:(done)
  | CallControlInstruction c n => Hleaf (CallControlInstruction c n) ltac:(done) ltac:(done)
  | ParametricInstruction c => Hleaf (ParametricInstruction c) ltac:(done) ltac:(done)
  | VariableInstruction c n => Hleaf (VariableInstruction c n) ltac:(done) ltac:(done)
  | MemoryInstruction c a o => Hleaf (MemoryInstruction c a o) ltac:(done) ltac:(done)
  | ConstInstruction c v => Hleaf (ConstInstruction c v) ltac:(done) ltac:(done)
  | UnaryNumericInstruction c => Hleaf (UnaryNumericInstruction c) ltac:(done) ltac:(done)
  | BinaryNumericInstruction c => Hleaf (BinaryNumericInstruction c) ltac:(done) ltac:(done)
  end.
End InstrInd.

(** A node whose class is the one its opcode selects, all the way down: what the loader
    builds. *)
Fixpoint well_classed (i : Instr) : bool :=
  bool_decide (dispatchInstruction (getOpCode i) = Some (node_class i)) &&
  match i with
  | BlockControlInstruction _ _ body => forallb well_classed body
  | IfElseControlInstruction _ _ ifs els => forallb well_classed ifs && forallb well_classed els
  | _ => true
  end.

Lemma OpCode_of_byte_of op : OpCode_of_byte (byte_of_OpCode op) = Some op.
Proof. by destruct op. Qed.

Lemma OpCode_byte_range op : is_byte (byte_of_OpCode op).
Proof. unfold is_byte. by destruct op. Qed.

Lemma OpCode_of_byte_Some b op : OpCode_of_byte b = Some op -> byte_of_OpCode op = b.
Proof.
  unfold OpCode_of_byte. destruct (list_find _ _) as [[n op']|] eqn:E; [|done].
  intros [= <-]. by apply list_find_Some in E as (? & ? & _).
Qed.

Lemma well_classed_dispatch i :
  well_classed i = true -> dispatchInstruction (getOpCode i) = Some (node_class i).
Proof.
  intros H. destruct i; cbn [well_classed] in H; apply andb_true_iff in H as [H _];
    by apply bool_decide_eq_true in H.
Qed.

Lemma copyInstrs_id l :
  Forall (fun i => copyInstruction i = Ok i) l -> copyInstrs l = Ok l.
Proof. induction 1 as [|x l Hx _ IH]; cbn; [done|]. by rewrite Hx, IH. Qed.

Lemma well_classed_all l (P : Instr -> Prop) :
  Forall (fun i => well_classed i = true -> P i) l -> forallb well_classed l = true -> Forall P l.
Proof.
  induction 1 as [|x l Hx _ IH]; cbn; [constructor|].
  intros [? ?]%andb_true_iff. constructor; auto.
Qed.

Lemma copyInstruction_id i : well_classed i = true -> copyInstruction i = Ok i.
Proof.
  induction i as [c bt body IH|c bt ifs els IH1 IH2|i Hb Hi] using Instr_nested_ind; intros Hw;
    pose proof (well_classed_dispatch _ Hw) as Hd; cbn [getOpCode node_class] in Hd.
  - cbn [well_classed] in Hw. apply andb_true_iff in Hw as [_ Hw].
    cbn [copyInstruction getOpCode node_class]. rewrite Hd. case_decide; [|done].
    fold copyInstrs. by rewrite copyInstrs_id by (by eapply well_classed_all).
  - cbn [well_classed] in Hw. apply andb_true_iff in Hw as [_ [Hw1 Hw2]%andb_true_iff].
    cbn [copyInstruction getOpCode node_class]. rewrite Hd. case_decide; [|done].
    fold copyInstrs. rewrite copyInstrs_id by (by eapply well_classed_all). cbn [rbind].
    by rewrite copyInstrs_id by (by eapply well_classed_all).
  - destruct i; try (by exfalso; eapply Hb); try (by exfalso; eapply Hi);
      cbn [copyInstruction getOpCode node_class] in *; rewrite Hd; by case_decide.
Qed.

(** Copying the body of a function into its instance changes nothing: for nodes whose
    class is the one their opcode selects (all the loader makes), the recursive copy
    constructors return an equal tree, drop no node and never cast to a wrong class. *)
Theorem function_body_copy_exact (body : list Instr) :
  forallb well_classed body = true -> copyInstrs body = Ok body.
Proof.
  intros H. apply copyInstrs_id. eapply well_classed_all; [|exact H].
  apply Forall_true. exact copyInstruction_id.
Qed.

Definition copy_example : list Instr :=
  [BlockControlInstruction Op_Block VT_I32
     [ConstInstruction I32__const (mkVariant U32 1);
      IfElseControlInstruction Op_If VT_None [BrControlInstruction Op_Br 1] []]].

Lemma function_body_copy_exact_witness : copyInstrs copy_example = Ok copy_example.
Proof. apply (function_body_copy_exact copy_example). reflexivity. Defined.
