(* ===== verification/AST.v ===== *)
(** * Module syntax: include/common/ast/{type,segment,description,section,module}.h

    One record per node class.  A section holds its content; a module holds each section
    behind a pointer, here an [option]. *)
From stdpp Require Import base list numbers option strings.
From Stdlib Require Import ZArith Lia.
From S2P Require Import Prelude Types Instruction.
#[local] Open Scope Z_scope.

(** ** type.h *)

Inductive LimitType : Set := HasMin | HasMinMax.

(** [Max] has no initialiser when the binary gives only a minimum; nothing uses it then,
    and the model keeps 0. *)
Record Limit : Type := mkLimit { LimType : LimitType; Min : Z; Max : Z }.
Definition hasMax (l : Limit) : bool :=
  match LimType l with HasMinMax => true | HasMin => false end.

Record FunctionType : Type := mkFunctionType
  { ParamTypes : list ValType; ReturnTypes : list ValType }.
Record MemoryType : Type := mkMemoryType { Memory : Limit }.
Record TableType : Type := mkTableType { TabElemType : ElemType; Table : Limit }.
Record GlobalType : Type := mkGlobalType { GlobValType : ValType; GlobMut : ValMut }.

(** ** segment.h *)

Record GlobalSegment : Type := mkGlobalSegment { Global : GlobalType; GlobExpr : list Instr }.
Record ElementSegment : Type := mkElementSegment
  { TableIdx : Z; ElemExpr : list Instr; FuncIdxes : list Z }.
(** The loader does not check the type byte of a local: [None] is a byte without an
    enumerator. *)
Record CodeSegment : Type := mkCodeSegment
  { SegSize : Z; CodeLocals : list (Z * option ValType); CodeExpr : list Instr }.
Record DataSegment : Type := mkDataSegment
  { MemoryIdx : Z; DataExpr : list Instr; DataBytes : list Z }.

(** ** description.h *)

(** [ExtContentType]: the variant an import description holds. *)
Inductive ExtContent : Type :=
| Content_Function (TypeIdx : Z)
| Content_Table (t : TableType)
| Content_Memory (m : MemoryType)
| Content_Global (g : GlobalType).

(** A name is its bytes. *)
Record ImportDesc : Type := mkImportDesc
  { ModName : list Z; ImpExtName : list Z; ImpExtType : ExternalType; ImpContent : ExtContent }.
Record ExportDesc : Type := mkExportDesc
  { ExpExtName : list Z; ExpExtType : ExternalType; ExtIdx : Z }.

(** [getExternalContent<T>()]: TypeNotMatch when the variant holds another alternative. *)
Definition getContentFunction (d : ImportDesc) : res Z :=
  match ImpContent d with Content_Function i => Ok i | _ => Err TypeNotMatch end.
Definition getContentTable (d : ImportDesc) : res TableType :=
  match ImpContent d with Content_Table t => Ok t | _ => Err TypeNotMatch end.
Definition getContentMemory (d : ImportDesc) : res MemoryType :=
  match ImpContent d with Content_Memory m => Ok m | _ => Err TypeNotMatch end.
Definition getContentGlobal (d : ImportDesc) : res GlobalType :=
  match ImpContent d with Content_Global g => Ok g | _ => Err TypeNotMatch end.

(** ** section.h and module.h *)

Record AModule : Type := mkModule {
  Magic : list Z;
  Version : list Z;
  CustomSec : option (list Z);
  TypeSec : option (list FunctionType);
  ImportSec : option (list ImportDesc);
  FunctionSec : option (list Z);
  TableSec : option (list TableType);
  MemorySec : option (list MemoryType);
  GlobalSec : option (list GlobalSegment);
  ExportSec : option (list ExportDesc);
  StartSec : option Z;
  ElementSec : option (list ElementSegment);
  CodeSec : option (list CodeSegment);
  DataSec : option (list DataSegment)
}.

Definition empty_module : AModule :=
  mkModule [] [] None None None None None None None None None None None None.

(** Setters: a section that is read replaces the pointer the module holds. *)
Definition set_header (magic version : list Z) (m : AModule) : AModule :=
  mkModule magic version (CustomSec m) (TypeSec m) (ImportSec m) (FunctionSec m) (TableSec m)
    (MemorySec m) (GlobalSec m) (ExportSec m) (StartSec m) (ElementSec m) (CodeSec m) (DataSec m).
Definition set_CustomSec (c : list Z) (m : AModule) : AModule :=
  mkModule (Magic m) (Version m) (Some c) (TypeSec m) (ImportSec m) (FunctionSec m) (TableSec
    m) (MemorySec m) (GlobalSec m) (ExportSec m) (StartSec m) (ElementSec m) (CodeSec m)
    (DataSec m).
Definition set_TypeSec (c : list FunctionType) (m : AModule) : AModule :=
  mkModule (Magic m) (Version m) (CustomSec m) (Some c) (ImportSec m) (FunctionSec m)
    (TableSec m) (MemorySec m) (GlobalSec m) (ExportSec m) (StartSec m) (ElementSec m) (CodeSec
    m) (DataSec m).
Definition set_ImportSec (c : list ImportDesc) (m : AModule) : AModule :=
  mkModule (Magic m) (Version m) (CustomSec m) (TypeSec m) (Some c) (FunctionSec m) (TableSec
    m) (MemorySec m) (GlobalSec m) (ExportSec m) (StartSec m) (ElementSec m) (CodeSec m)
    (DataSec m).
Definition set_FunctionSec (c : list Z) (m : AModule) : AModule :=
  mkModule (Magic m) (Version m) (CustomSec m) (TypeSec m) (ImportSec m) (Some c) (TableSec m)
    (MemorySec m) (GlobalSec m) (ExportSec m) (StartSec m) (ElementSec m) (CodeSec m) (DataSec
    m).
Definition set_TableSec (c : list TableType) (m : AModule) : AModule :=
  mkModule (Magic m) (Version m) (CustomSec m) (TypeSec m) (ImportSec m) (FunctionSec m) (Some
    c) (MemorySec m) (GlobalSec m) (ExportSec m) (StartSec m) (ElementSec m) (CodeSec m)
    (DataSec m).
Definition set_MemorySec (c : list MemoryType) (m : AModule) : AModule :=
  mkModule (Magic m) (Version m) (CustomSec m) (TypeSec m) (ImportSec m) (FunctionSec m)
    (TableSec m) (Some c) (GlobalSec m) (ExportSec m) (StartSec m) (ElementSec m) (CodeSec m)
    (DataSec m).
Definition set_GlobalSec (c : list GlobalSegment) (m : AModule) : AModule :=
  mkModule (Magic m) (Version m) (CustomSec m) (TypeSec m) (ImportSec m) (FunctionSec m)
    (TableSec m) (MemorySec m) (Some c) (ExportSec m) (StartSec m) (ElementSec m) (CodeSec m)
    (DataSec m).
Definition set_ExportSec (c : list ExportDesc) (m : AModule) : AModule :=
  mkModule (Magic m) (Version m) (CustomSec m) (TypeSec m) (ImportSec m) (FunctionSec m)
    (TableSec m) (MemorySec m) (GlobalSec m) (Some c) (StartSec m) (ElementSec m) (CodeSec m)
    (DataSec m).
Definition set_StartSec (c : Z) (m : AModule) : AModule :=
  mkModule (Magic m) (Version m) (CustomSec m) (TypeSec m) (ImportSec m) (FunctionSec m)
    (TableSec m) (MemorySec m) (GlobalSec m) (ExportSec m) (Some c) (ElementSec m) (CodeSec m)
    (DataSec m).
Definition set_ElementSec (c : list ElementSegment) (m : AModule) : AModule :=
  mkModule (Magic m) (Version m) (CustomSec m) (TypeSec m) (ImportSec m) (FunctionSec m)
    (TableSec m) (MemorySec m) (GlobalSec m) (ExportSec m) (StartSec m) (Some c) (CodeSec m)
    (DataSec m).
Definition set_CodeSec (c : list CodeSegment) (m : AModule) : AModule :=
  mkModule (Magic m) (Version m) (CustomSec m) (TypeSec m) (ImportSec m) (FunctionSec m)
    (TableSec m) (MemorySec m) (GlobalSec m) (ExportSec m) (StartSec m) (ElementSec m) (Some c)
    (DataSec m).
Definition set_DataSec (c : list DataSegment) (m : AModule) : AModule :=
  mkModule (Magic m) (Version m) (CustomSec m) (TypeSec m) (ImportSec m) (FunctionSec m)
    (TableSec m) (MemorySec m) (GlobalSec m) (ExportSec m) (StartSec m) (ElementSec m) (CodeSec
    m) (Some c).
