(* ===== verification/Memory.v ===== *)
(** * Memory instances: include/runtime/instance/memory.h

    A memory has a page count and a data vector that is allocated lazily, on the first
    access to an offset, and never holds more than the pages allow.  The abstract memory is
    the function from addresses to bytes that is 0 where nothing is allocated. *)
From stdpp Require Import base list numbers option.
From Stdlib Require Import ZArith Lia.
From S2P Require Import Prelude Types Float AST.
#[local] Open Scope Z_scope.

Record MemoryInstance : Type := mkMemory {
  HasMaxPage : bool; MinPage : Z; MaxPage : Z; CurrPage : Z; Data : list Z }.

Definition set_Data (d : list Z) (m : MemoryInstance) : MemoryInstance :=
  mkMemory (HasMaxPage m) (MinPage m) (MaxPage m) (CurrPage m) d.
Definition set_CurrPage (p : Z) (m : MemoryInstance) : MemoryInstance :=
  mkMemory (HasMaxPage m) (MinPage m) (MaxPage m) p (Data m).

(** The constructor. *)
Definition newMemory (Lim : Limit) : MemoryInstance :=
  mkMemory (hasMax Lim) (Min Lim) (Max Lim) (Min Lim) [].

Definition getDataPageSize (m : MemoryInstance) : Z := CurrPage m.

(** [Count + CurrPage] is a 32-bit sum. *)
Definition growPage (Count : Z) : M MemoryInstance unit := fun m =>
  let sum := wrap 32 (Count + CurrPage m) in
  if (HasMaxPage m && (sum >? MaxPage m)) || (sum >? 65536)
  then (Err MemorySizeExceeded, m)
  else (Ok tt, set_CurrPage (wrap 32 (CurrPage m + Count)) m).

(** The double nearest to a positive integer, ties to even. *)
Definition dbl_round (p : Z) : Z :=
  let e := Z.log2 p - 52 in
  if e <=? 0 then p
  else
    let q := p / 2 ^ e in
    let r := p mod 2 ^ e in
    let q' := match 2 * r ?= 2 ^ e with
              | Gt => q + 1 | Lt => q | Eq => if Z.odd q then q + 1 else q
              end in
    q' * 2 ^ e.

(** [TargetSize *= 1.1]: the literal 1.1 is 4953959590107546 / 2^52; the product is rounded
    to a double and truncated back to an integer. *)
Definition scale_1_1 (t : Z) : Z := dbl_round (t * 4953959590107546) / 2 ^ 52.

(** The allocation policy of [checkDataSize]. *)
Definition target_size (need : Z) : Z :=
  let t := need / 8 + 1 in
  if t <? 32 * 65536 then wrap 32 (t * 2) else scale_1_1 t.

Definition checkDataSize (Offset Length : Z) : M MemoryInstance bool := fun m =>
  let AccessLen := Offset + Length in
  if AccessLen >? CurrPage m * 65536 then (Ok false, m)
  else
    let need := wrap 32 (Offset + Length) in
    if sizeZ (Data m) <? need then
      let t := target_size need in
      let limit := wrap 32 (CurrPage m * 65536) in
      let size := if wrap 32 (t * 8) >? limit then limit else wrap 32 (t * 8) in
      (Ok true, set_Data (resizeZ 0 size (Data m)) m)
    else (Ok true, m).

(** Reading and writing [Data.begin() + off .. + len): undefined past the vector. *)
Definition read_range (off len : Z) (d : list Z) : res (list Z) :=
  if off + len <=? sizeZ d then Ok (slice off len d) else Undef UB_vector.
Definition write_range (off : Z) (bs d : list Z) : res (list Z) :=
  if off + sizeZ bs <=? sizeZ d then Ok (splice off bs d) else Undef UB_vector.

(** [if (!checkDataSize(Offset, Length)) return Unexpect(ErrCode::MemorySizeExceeded);] *)
Definition requireDataSize (Offset Length : Z) : M MemoryInstance unit :=
  let* b := checkDataSize Offset Length in
  if (b : bool) then ret tt else throw MemorySizeExceeded.

Definition getBytes (Offset Length : Z) : M MemoryInstance (list Z) :=
  requireDataSize Offset Length ;;;
  if 0 <? Length then
    let* m := get in lift (read_range Offset Length (Data m))
  else ret [].

Definition setBytes (Slice : list Z) (Offset Start Length : Z) : M MemoryInstance unit :=
  requireDataSize Offset Length ;;;
  if ((0 <? sizeZ Slice) && (sizeZ Slice <=? Start)) ||
     (sizeZ Slice <? wrap 32 (Start + Length))
  then throw AccessForbidMemory
  else if 0 <? Length then
    let* m := get in
    let* bs := lift (read_range Start Length Slice) in
    let* d := lift (write_range Offset bs (Data m)) in
    put (set_Data d m)
  else ret tt.

(** [Arr[I] = Data[Offset + Length - I - 1]] reads the range backwards. *)
Definition getArray (Offset Length : Z) (IsReverse : bool) : M MemoryInstance (list Z) :=
  requireDataSize Offset Length ;;;
  if 0 <? Length then
    let* m := get in
    let* bs := lift (read_range Offset Length (Data m)) in
    ret (if IsReverse then reverse bs else bs)
  else ret [].

(** [Arr] holds the first [Length] bytes the pointer refers to. *)
Definition setArray (Arr : list Z) (Offset Length : Z) (IsReverse : bool)
    : M MemoryInstance unit :=
  requireDataSize Offset Length ;;;
  if 0 <? Length then
    let* m := get in
    let* bs := lift (read_range 0 Length Arr) in
    let* d := lift (write_range Offset (if IsReverse then reverse bs else bs) (Data m)) in
    put (set_Data d m)
  else ret tt.

(** [getPointer], [getPointerOrNull]: the offset the pointer refers to, or null. *)
Definition getPointer (Offset : Z) (m : MemoryInstance) : option Z :=
  if sizeZ (Data m) <=? Offset then None else Some Offset.
Definition getPointerOrNull (Offset : Z) (m : MemoryInstance) : option Z :=
  if (sizeZ (Data m) <=? Offset) || (Offset =? 0) then None else Some Offset.

(** [for (I = Length; I < 8; I++) LoadVal |= 0xFFULL << (I * 8)] *)
Definition sign_fill (Length LoadVal : Z) : Z :=
  fold_left (fun acc I => Z.lor acc (Z.shiftl 0xFF (I * 8)))
    (seqZ Length (8 - Length)) LoadVal.

(** [loadValue<T>(Value, Offset, Length)]: the value assigned to [Value], if any. *)
Definition loadValue (T : CType) (Offset Length : Z) : M MemoryInstance (option Z) :=
  if sizeof T <? Length then throw AccessForbidMemory
  else
    requireDataSize Offset Length ;;;
    if 0 <? Length then
      let* m := get in
      if is_floating T then
        let* bs := lift (read_range Offset (sizeof T) (Data m)) in
        ret (Some (le_combine bs))
      else
        let* bs := lift (read_range Offset Length (Data m)) in
        let LoadVal := le_combine bs in
        let LoadVal' :=
          if is_signed T && negb (Z.shiftr LoadVal (Length * 8 - 1) =? 0)
          then sign_fill Length LoadVal else LoadVal in
        ret (Some (of_bits T LoadVal'))
    else ret None.

(** [storeValue<T>(Value, Offset, Length)]: the low [Length] bytes of the value. *)
Definition storeValue (T : CType) (Value Offset Length : Z) : M MemoryInstance unit :=
  if sizeof T <? Length then throw AccessForbidMemory
  else
    requireDataSize Offset Length ;;;
    if 0 <? Length then
      let* m := get in
      let* d := lift (write_range Offset (le_split (Z.to_nat Length) (to_bits T Value)) (Data m)) in
      put (set_Data d m)
    else ret tt.

Example scale_agrees_with_double :
  forallb (fun t => match f_truncZ DBL (f_mul DBL (f_of_Z DBL t) 0x3FF199999999999A) with
                    | Some z => z =? scale_1_1 t | None => false end)
    [2097152; 2097153; 4999999; 10000000; 123456789; 536870911; 536870913; 3000000000] = true.
Proof. vm_compute. reflexivity. Qed.
