(* ===== verification/MemoryFacts.v ===== *)
(** * Memory instances refine a flat, zero-initialised byte array

    [mem_byte] is the abstract content of a memory; two memories are equivalent when they
    have the same pages and the same bytes, however much of the vector is allocated.  Every
    access is characterised by its effect on the abstract content, and the operations
    respect the equivalence, so lazy allocation cannot be observed.  The proofs hold for
    memories of at most [page_limit] pages: above it the 32-bit size computations of
    [checkDataSize] overflow. *)
From stdpp Require Import base list numbers option.
From Stdlib Require Import ZArith Lia.
From S2P Require Import Prelude Types Float AST Memory.
#[local] Open Scope Z_scope.

(** ** The abstract memory *)

Definition mem_byte (m : MemoryInstance) (i : Z) : Z :=
  if 0 <=? i then default 0 (Data m !! Z.to_nat i) else 0.
Definition mem_bytes (m : MemoryInstance) (off len : Z) : list Z :=
  mem_byte m <$> seqZ off len.

(** 1.1 * (59577 * 65536 + 8) is below 2^32. *)
Definition page_limit : Z := 59577.

Definition mem_ok (m : MemoryInstance) : Prop :=
  0 <= CurrPage m <= page_limit /\ Forall is_byte (Data m) /\
  sizeZ (Data m) <= CurrPage m * 65536.

Definition in_range (m : MemoryInstance) (off len : Z) : Prop :=
  0 <= off < 2 ^ 32 /\ 0 <= len < 2 ^ 32 /\ off + len <= CurrPage m * 65536.

(** Same limits, same bytes. *)
#[export] Instance mem_equiv : Equiv MemoryInstance := fun m m' =>
  HasMaxPage m = HasMaxPage m' /\ MinPage m = MinPage m' /\ MaxPage m = MaxPage m' /\
  CurrPage m = CurrPage m' /\ forall i, mem_byte m i = mem_byte m' i.

#[export] Instance mem_equiv_equivalence : Equivalence (≡@{MemoryInstance}).
Proof.
  split.
  - done.
  - intros x y (? & ? & ? & ? & ?). repeat split; auto.
  - intros x y z (? & ? & ? & ? & ?) (? & ? & ? & ? & ?).
    repeat split; intros; etransitivity; eauto.
Qed.

#[export] Instance mem_byte_proper : Proper ((≡) ==> (=) ==> (=)) mem_byte.
Proof. intros m m' (_ & _ & _ & _ & H) i _ <-. apply H. Qed.

#[export] Instance mem_bytes_proper : Proper ((≡) ==> (=) ==> (=) ==> (=)) mem_bytes.
Proof.
  intros m m' H off _ <- len _ <-. unfold mem_bytes.
  apply list_fmap_ext. intros. by rewrite H.
Qed.

Lemma mem_bytes_equiv m m' off len : m ≡ m' -> mem_bytes m off len = mem_bytes m' off len.
Proof. intros H. by rewrite H. Qed.

#[export] Instance in_range_proper : Proper ((≡) ==> (=) ==> (=) ==> iff) in_range.
Proof. intros m m' (_ & _ & _ & H & _) off _ <- len _ <-. unfold in_range. by rewrite H. Qed.

(** ** The allocation policy *)

Lemma dbl_round_error p : 0 < p -> Z.abs (dbl_round p - p) * 2 ^ 53 <= p.
Proof.
  intros Hp. unfold dbl_round. destruct (Z.leb_spec (Z.log2 p - 52) 0) as [|He].
  { rewrite Z.sub_diag. cbn. lia. }
  remember (Z.log2 p - 52) as e eqn:Ee.
  assert (2 ^ 52 * 2 ^ e <= p) as Hlog.
  { rewrite <- Z.pow_add_r by lia. replace (52 + e) with (Z.log2 p) by lia.
    by apply Z.log2_spec. }
  assert (0 < 2 ^ e) as Hpe by (apply Z.pow_pos_nonneg; lia).
  pose proof (Z.div_mod p (2 ^ e) ltac:(lia)) as Hdm.
  pose proof (Z.mod_pos_bound p (2 ^ e) Hpe) as Hr.
  change (2 ^ 53) with (2 * 2 ^ 52).
  destruct (Z.compare_spec (2 * (p mod 2 ^ e)) (2 ^ e)) as [E|E|E];
    [destruct (Z.odd (p / 2 ^ e))|..]; nia.
Qed.

Lemma scale_1_1_bounds t :
  2 ^ 21 <= t <= 2 ^ 32 -> t <= scale_1_1 t /\ 10 * scale_1_1 t <= 11 * t + 1.
Proof.
  intros Ht. unfold scale_1_1.
  pose proof (dbl_round_error (t * 4953959590107546) ltac:(lia)) as He.
  set (d := dbl_round _) in *.
  pose proof (Z.div_mod d (2 ^ 52) ltac:(lia)) as Hd.
  pose proof (Z.mod_pos_bound d (2 ^ 52) ltac:(lia)) as Hr.
  set (q := d / 2 ^ 52) in *. set (r := d mod 2 ^ 52) in *.
  change (2 ^ 53) with 9007199254740992 in He. change (2 ^ 52) with 4503599627370496 in Hd, Hr.
  change (2 ^ 21) with 2097152 in Ht. change (2 ^ 32) with 4294967296 in Ht. lia.
Qed.

Lemma target_size_bounds need :
  0 <= need <= page_limit * 65536 ->
  need < target_size need * 8 < 2 ^ 32.
Proof.
  unfold page_limit. intros Hn. unfold target_size.
  pose proof (Z.div_mod need 8 ltac:(lia)). pose proof (Z.mod_pos_bound need 8 ltac:(lia)).
  destruct (Z.ltb_spec (need / 8 + 1) (32 * 65536)).
  - rewrite wrap_small by (unfold in_u; change (2 ^ 32) with 4294967296; lia).
    change (2 ^ 32) with 4294967296. lia.
  - pose proof (scale_1_1_bounds (need / 8 + 1)) as [? ?];
      change (2 ^ 21) with 2097152; change (2 ^ 32) with 4294967296; lia.
Qed.

Lemma mem_byte_resize m n :
  sizeZ (Data m) <= n -> forall i, mem_byte (set_Data (resizeZ 0 n (Data m)) m) i = mem_byte m i.
Proof.
  intros Hn i. unfold mem_byte. destruct (Z.leb_spec 0 i); [|done]. cbn [Data set_Data].
  destruct (decide (i < n)).
  - by rewrite lookup_resizeZ by lia.
  - rewrite !lookup_ge_None_2; [done|unfold sizeZ in *; lia|].
    pose proof (length_resizeZ 0 n (Data m)). unfold sizeZ in *. lia.
Qed.

(** Growing the vector changes nothing abstract; the access is then inside the vector. *)
Lemma requireDataSize_ok m off len :
  mem_ok m -> in_range m off len ->
  exists m', requireDataSize off len m = (Ok tt, m') /\ m' ≡ m /\ mem_ok m' /\
    off + len <= sizeZ (Data m').
Proof.
  intros (Hp & Hb & Hs) (Ho & Hl & Hr). unfold page_limit in Hp.
  unfold requireDataSize, bind, checkDataSize.
  destruct (Z.gtb_spec (off + len) (CurrPage m * 65536)); [lia|].
  assert (wrap 32 (off + len) = off + len) as ->
    by (apply wrap_small; unfold in_u; change (2 ^ 32) with 4294967296; lia).
  assert (wrap 32 (CurrPage m * 65536) = CurrPage m * 65536) as ->
    by (apply wrap_small; unfold in_u; change (2 ^ 32) with 4294967296; lia).
  destruct (Z.ltb_spec (sizeZ (Data m)) (off + len)).
  - pose proof (target_size_bounds (off + len)) as Ht. unfold page_limit in Ht.
    specialize (Ht ltac:(lia)).
    rewrite (wrap_small 32 (target_size _ * 8)) by (unfold in_u; lia).
    set (sz := if _ >? _ then _ else _).
    assert (off + len <= sz <= CurrPage m * 65536) as Hsz
      by (unfold sz; destruct (Z.gtb_spec (target_size (off + len) * 8) (CurrPage m * 65536)); lia).
    exists (set_Data (resizeZ 0 sz (Data m)) m). split; [done|].
    pose proof (length_resizeZ 0 sz (Data m) ltac:(lia)).
    split; [|split].
    + repeat split. apply mem_byte_resize. lia.
    + split; [done|]. split; [by apply Forall_resizeZ|cbn; lia].
    + cbn. lia.
  - exists m. split; [done|]. split; [done|]. split; [done|lia].
Qed.

Lemma requireDataSize_fail m off len :
  CurrPage m * 65536 < off + len -> requireDataSize off len m = (Err MemorySizeExceeded, m).
Proof.
  intros. unfold requireDataSize, bind, checkDataSize.
  destruct (Z.gtb_spec (off + len) (CurrPage m * 65536)); [done|lia].
Qed.

(** ** Reading and writing ranges *)

Lemma read_range_mem m off len :
  0 <= off -> 0 <= len -> off + len <= sizeZ (Data m) ->
  read_range off len (Data m) = Ok (mem_bytes m off len).
Proof.
  intros Ho Hl Hs. unfold read_range. rewrite (proj2 (Z.leb_le _ _) Hs). f_equal.
  apply list_eq. intros i. unfold mem_bytes. rewrite list_lookup_fmap.
  destruct (decide (Z.of_nat i < len)) as [Hi|Hi].
  - rewrite lookup_slice, lookup_seqZ_lt by lia. cbn. unfold mem_byte.
    rewrite (proj2 (Z.leb_le 0 _)) by lia.
    replace (Z.to_nat (off + Z.of_nat i)) with (Z.to_nat off + i)%nat by lia.
    destruct (lookup_lt_is_Some_2 (Data m) (Z.to_nat off + i)) as [x ->];
      [unfold sizeZ in *; lia|done].
  - rewrite lookup_seqZ_ge by lia. apply lookup_ge_None_2.
    pose proof (length_slice off len (Data m)). unfold sizeZ in *. lia.
Qed.

Lemma length_mem_bytes m off len : 0 <= len -> sizeZ (mem_bytes m off len) = len.
Proof. intros. unfold sizeZ, mem_bytes. rewrite length_fmap, length_seqZ. lia. Qed.

Lemma mem_byte_is_byte m i : mem_ok m -> is_byte (mem_byte m i).
Proof.
  intros (_ & Hb & _). unfold mem_byte, is_byte. destruct (0 <=? i); [|lia].
  destruct (Data m !! Z.to_nat i) eqn:E; cbn; [|lia].
  rewrite Forall_lookup in Hb. by apply Hb in E.
Qed.

Lemma mem_bytes_are_bytes m off len : mem_ok m -> Forall is_byte (mem_bytes m off len).
Proof.
  intros. unfold mem_bytes. apply Forall_fmap, Forall_true. intros. by apply mem_byte_is_byte.
Qed.

(** The abstract memory with [bs] written at [off]. *)
Definition mem_written (m : MemoryInstance) (off : Z) (bs : list Z) (i : Z) : Z :=
  if (off <=? i) && (i <? off + sizeZ bs) then default 0 (bs !! Z.to_nat (i - off))
  else mem_byte m i.

Lemma write_range_mem m off bs :
  mem_ok m -> Forall is_byte bs -> 0 <= off -> off + sizeZ bs <= sizeZ (Data m) ->
  exists d, write_range off bs (Data m) = Ok d /\ mem_ok (set_Data d m) /\
    forall i, mem_byte (set_Data d m) i = mem_written m off bs i.
Proof.
  intros (Hp & Hb & Hs) Hbs Ho Hl. unfold write_range. rewrite (proj2 (Z.leb_le _ _) Hl).
  eexists. split; [done|]. split.
  - split; [done|]. split; [by apply Forall_splice|]. cbn [Data set_Data].
    unfold sizeZ in *. by rewrite length_splice by (unfold sizeZ; lia).
  - intros i. unfold mem_written, mem_byte. cbn [Data set_Data].
    destruct (Z.leb_spec 0 i), (Z.leb_spec off i), (Z.ltb_spec i (off + sizeZ bs));
      cbn [andb]; try lia; try done.
    + rewrite lookup_splice_in by lia. f_equal. f_equal. lia.
    + by rewrite lookup_splice_out by lia.
    + by rewrite lookup_splice_out by lia.
    + by rewrite lookup_splice_out by lia.
Qed.

#[export] Hint Resolve mem_bytes_are_bytes mem_byte_is_byte : ssvm.

(** ** Sign extension of a loaded value *)

Lemma lor_add_high x b k : 0 <= k -> 0 <= x < 2 ^ k -> 0 <= b -> Z.lor x (Z.shiftl b k) = x + b * 2 ^ k.
Proof.
  intros Hk Hx Hb. rewrite Z.shiftl_mul_pow2 by done.
  assert (Z.land x (b * 2 ^ k) = 0) as Hl.
  { apply Z.bits_inj'. intros n Hn. rewrite Z.land_spec, Z.bits_0.
    destruct (decide (n < k)).
    - rewrite Z.mul_pow2_bits_low by lia. apply andb_false_r.
    - rewrite <- (Z.mod_small x (2 ^ k)) by lia.
      by rewrite Z.mod_pow2_bits_high by lia. }
  by rewrite <- Z.lxor_lor, <- Z.add_nocarry_lxor by done.
Qed.

Lemma sign_fill_value (n : nat) L x :
  0 <= L -> 0 <= x < 2 ^ (8 * L) ->
  fold_left (fun acc I => Z.lor acc (Z.shiftl 0xFF (I * 8))) (seqZ L (Z.of_nat n)) x =
  x + (2 ^ (8 * (L + Z.of_nat n)) - 2 ^ (8 * L)).
Proof.
  revert L x; induction n as [|n IH]; intros L x HL Hx.
  - rewrite seqZ_nil by lia. cbn. rewrite Z.add_0_r. lia.
  - rewrite Nat2Z.inj_succ, seqZ_cons by lia. cbn [fold_left].
    rewrite Z.pred_succ, (Z.mul_comm L 8), lor_add_high by lia.
    assert (2 ^ (8 * Z.succ L) = 256 * 2 ^ (8 * L)) as HS.
    { replace (8 * Z.succ L) with (8 + 8 * L) by lia. rewrite Z.pow_add_r by lia. done. }
    rewrite IH by lia. rewrite HS. replace (Z.succ L + Z.of_nat n) with (L + Z.succ (Z.of_nat n)) by lia.
    lia.
Qed.

Lemma sgn_unique w y z : 0 < w -> in_s w z -> y mod 2 ^ w = z mod 2 ^ w -> sgn w y = z.
Proof.
  intros Hw Hz Hm. rewrite <- (sgn_small w z) by done.
  rewrite <- (sgn_wrap w y), <- (sgn_wrap w z) by lia. unfold wrap. by rewrite Hm.
Qed.

(** What a load of [len] bytes with little-endian value [x] yields at type [T]. *)
Definition load_spec (T : CType) (len x : Z) : Z :=
  if is_signed T && negb (is_floating T) then sgn (8 * len) x else x.

Lemma bits_le_64 T : bits T <= 64.
Proof. by destruct T. Qed.

Lemma load_extend T len x :
  is_floating T = false -> 0 < len <= sizeof T -> 0 <= x < 2 ^ (8 * len) ->
  of_bits T (if is_signed T && negb (Z.shiftr x (len * 8 - 1) =? 0)
             then sign_fill len x else x) = load_spec T len x.
Proof.
  intros HT Hl Hx. unfold load_spec. rewrite HT.
  assert (2 ^ (8 * len) <= 2 ^ bits T) as Hle
    by (apply Z.pow_le_mono_r; unfold bits; lia).
  destruct (is_signed T) eqn:Hs; cbn [andb negb].
  2:{ destruct T; try done; cbn -[Z.pow wrap] in *; apply wrap_small; unfold in_u; lia. }
  rewrite Z.shiftr_div_pow2 by lia. rewrite (Z.mul_comm len 8).
  assert (2 ^ (8 * len) = 2 * 2 ^ (8 * len - 1)) as H2
    by (rewrite <- Z.pow_succ_r by lia; f_equal; lia).
  assert (0 < 2 ^ (8 * len - 1)) by (apply Z.pow_pos_nonneg; lia).
  assert (2 ^ (bits T - 1) >= 2 ^ (8 * len - 1)) as Hge
    by (apply Z.le_ge, Z.pow_le_mono_r; unfold bits; lia).
  assert (of_bits T = sgn (bits T)) as HofT by (by destruct T).
  assert (sgn (8 * len) x = if x <? 2 ^ (8 * len - 1) then x else x - 2 ^ (8 * len)) as ->.
  { unfold sgn. by rewrite wrap_small by (unfold in_u; lia). }
  rewrite HofT. pose proof (bits_pos T).
  destruct (Z.ltb_spec x (2 ^ (8 * len - 1))) as [Hlt|Hge'].
  - rewrite Z.div_small by lia. cbn [negb]. apply sgn_small; unfold in_s; lia.
  - assert (x / 2 ^ (8 * len - 1) <> 0) as Hd.
    { assert (1 <= x / 2 ^ (8 * len - 1)) by (apply Z.div_le_lower_bound; lia). lia. }
    rewrite (proj2 (Z.eqb_neq _ _) Hd). cbn [negb].
    apply sgn_unique; [lia|unfold in_s; lia|].
    assert (sizeof T <= 8) by (by destruct T).
    unfold sign_fill. replace (8 - len) with (Z.of_nat (Z.to_nat (8 - len))) by lia.
    rewrite sign_fill_value by lia. rewrite Z2Nat.id by lia.
    replace (len + (8 - len)) with 8 by lia. change (8 * 8) with 64.
    replace (2 ^ 64) with (2 ^ (64 - bits T) * 2 ^ bits T)
      by (rewrite <- Z.pow_add_r by (pose proof (bits_le_64 T); lia); f_equal; lia).
    replace (x + (2 ^ (64 - bits T) * 2 ^ bits T - 2 ^ (8 * len)))
      with (x - 2 ^ (8 * len) + 2 ^ (64 - bits T) * 2 ^ bits T) by lia.
    by rewrite Z_mod_plus_full.
Qed.

(** ** The operations against the abstract memory *)

Section Operations.
Context (m : MemoryInstance) (Hm : mem_ok m).

Lemma getBytes_ok off len :
  in_range m off len ->
  exists m', getBytes off len m = (Ok (mem_bytes m off len), m') /\ m' ≡ m /\ mem_ok m'.
Proof using Hm.
  intros Hr. destruct (requireDataSize_ok m off len Hm Hr) as (m' & E & He & Hok & Hs).
  destruct Hr as (Ho & Hl & _).
  exists m'. unfold getBytes. rewrite (bind_Ok _ _ _ _ _ E).
  destruct (Z.ltb_spec 0 len).
  - unfold bind, get, lift. rewrite read_range_mem by lia. by rewrite (mem_bytes_equiv _ _ off len He).
  - assert (len = 0) as -> by lia. split; [|done]. unfold mem_bytes. by rewrite seqZ_nil.
Qed.

Lemma write_ok off bs m1 :
  m1 ≡ m -> mem_ok m1 -> Forall is_byte bs -> 0 <= off -> off + sizeZ bs <= sizeZ (Data m1) ->
  exists m', (let* d := lift (write_range off bs (Data m1)) in put (set_Data d m1)) m1 = (Ok tt, m') /\
    mem_ok m' /\ CurrPage m' = CurrPage m /\ forall i, mem_byte m' i = mem_written m off bs i.
Proof using Type.
  intros He Hok Hbs Ho Hl.
  destruct (write_range_mem m1 off bs Hok Hbs Ho Hl) as (d & E & Hok' & Hb).
  exists (set_Data d m1). unfold bind, lift. rewrite E. split; [done|]. split; [done|].
  destruct He as (_ & _ & _ & Hp & Hbyte). split; [done|].
  intros i. rewrite Hb. unfold mem_written. by rewrite Hbyte.
Qed.

(** Writing [len] bytes of a slice from [start]: rejected, without an abstract change,
    where the slice does not hold them. *)
Lemma setBytes_slice_ok bs off start len :
  Forall is_byte bs -> in_range m off len -> 0 <= start -> start + len < 2 ^ 32 ->
  start + len <= sizeZ bs -> (start < sizeZ bs \/ bs = []) ->
  exists m', setBytes bs off start len m = (Ok tt, m') /\ mem_ok m' /\ CurrPage m' = CurrPage m /\
    forall i, mem_byte m' i = mem_written m off (slice start len bs) i.
Proof using Hm.
  intros Hbs Hr Hst Hsum Hfit Hne.
  destruct (requireDataSize_ok m off len Hm Hr) as (m1 & E & He & Hok & Hs).
  destruct Hr as (Ho & Hl & _).
  unfold setBytes. rewrite (bind_Ok _ _ _ _ _ E), wrap_small by (unfold in_u; lia).
  rewrite (proj2 (Z.ltb_ge _ _) Hfit), orb_false_r.
  assert ((0 <? sizeZ bs) && (sizeZ bs <=? start) = false) as ->.
  { destruct Hne as [Hne| ->]; [|done].
    rewrite (proj2 (Z.leb_gt _ _) Hne). apply andb_false_r. }
  pose proof (length_slice start len bs ltac:(lia) ltac:(lia) ltac:(lia)) as Hsl.
  destruct (Z.ltb_spec 0 len).
  - destruct (write_ok off (slice start len bs) m1 He Hok) as (m' & Hw & Hres);
      [by apply Forall_slice|lia|lia|].
    exists m'. split; [|done].
    unfold bind at 1. unfold get. unfold bind at 1. unfold lift at 1.
    unfold read_range. rewrite (proj2 (Z.leb_le _ _) Hfit). exact Hw.
  - exists m1. split; [done|]. split; [done|].
    destruct He as (_ & _ & _ & Hp & Hbyte). split; [done|].
    intros i. rewrite Hbyte. unfold mem_written. rewrite Hsl.
    destruct (Z.leb_spec off i), (Z.ltb_spec i (off + len)); try lia; done.
Qed.

Lemma setBytes_slice_short bs off start len :
  in_range m off len -> 0 <= start -> start + len < 2 ^ 32 ->
  sizeZ bs < start + len \/ 0 < sizeZ bs <= start ->
  exists m', setBytes bs off start len m = (Err AccessForbidMemory, m') /\ m' ≡ m /\ mem_ok m'.
Proof using Hm.
  intros Hr Hst Hsum Hbad.
  destruct (requireDataSize_ok m off len Hm Hr) as (m1 & E & He & Hok & Hs).
  destruct Hr as (Ho & Hl & _).
  exists m1. split; [|done]. unfold setBytes. rewrite (bind_Ok _ _ _ _ _ E), wrap_small by (unfold in_u; lia).
  destruct (Z.ltb_spec (sizeZ bs) (start + len)), (Z.ltb_spec 0 (sizeZ bs)), (Z.leb_spec (sizeZ bs) start);
    try done; lia.
Qed.

Lemma setBytes_ok bs off :
  Forall is_byte bs -> in_range m off (sizeZ bs) ->
  exists m', setBytes bs off 0 (sizeZ bs) m = (Ok tt, m') /\
    mem_ok m' /\ CurrPage m' = CurrPage m /\ forall i, mem_byte m' i = mem_written m off bs i.
Proof using Hm.
  intros Hbs Hr. pose proof Hr as (_ & Hl & _).
  destruct (setBytes_slice_ok bs off 0 (sizeZ bs)) as (m' & E & Hok & Hp & Hb);
    [done|done|lia|lia|lia|destruct bs; [by right|left; unfold sizeZ; cbn; lia]|].
  rewrite slice_all in Hb. by exists m'.
Qed.

Lemma getArray_ok off len rev :
  in_range m off len ->
  exists m', getArray off len rev m =
      (Ok (if (rev : bool) then reverse (mem_bytes m off len) else mem_bytes m off len), m') /\
    m' ≡ m /\ mem_ok m'.
Proof using Hm.
  intros Hr. destruct (requireDataSize_ok m off len Hm Hr) as (m' & E & He & Hok & Hs).
  destruct Hr as (Ho & Hl & _).
  exists m'. unfold getArray. rewrite (bind_Ok _ _ _ _ _ E).
  destruct (Z.ltb_spec 0 len).
  - unfold bind, get, lift. rewrite read_range_mem by lia. by rewrite (mem_bytes_equiv _ _ off len He).
  - assert (len = 0) as -> by lia. split; [|done]. unfold mem_bytes. rewrite seqZ_nil by lia.
    by destruct rev.
Qed.

Lemma setArray_prefix_ok bs off len rev :
  Forall is_byte bs -> in_range m off len -> len <= sizeZ bs ->
  exists m', setArray bs off len rev m = (Ok tt, m') /\ mem_ok m' /\ CurrPage m' = CurrPage m /\
    forall i, mem_byte m' i =
      mem_written m off (if (rev : bool) then reverse (slice 0 len bs) else slice 0 len bs) i.
Proof using Hm.
  intros Hbs Hr Hfit. destruct (requireDataSize_ok m off len Hm Hr) as (m1 & E & He & Hok & Hs).
  destruct Hr as (Ho & Hl & _).
  unfold setArray. rewrite (bind_Ok _ _ _ _ _ E).
  pose proof (length_slice 0 len bs ltac:(lia) ltac:(lia) ltac:(lia)) as Hsl.
  set (ws := if rev then reverse (slice 0 len bs) else slice 0 len bs).
  assert (sizeZ ws = len) as Hlen
    by (unfold ws; destruct rev; unfold sizeZ in *; by rewrite ?length_reverse).
  destruct (Z.ltb_spec 0 len).
  - destruct (write_ok off ws m1 He Hok) as (m' & Hw & Hres);
      [unfold ws; destruct rev; [apply Forall_reverse|]; by apply Forall_slice|lia|lia|].
    exists m'. split; [|done].
    unfold bind at 1. unfold get. unfold bind at 1. unfold lift at 1.
    unfold read_range. rewrite (proj2 (Z.leb_le _ _)) by lia. exact Hw.
  - exists m1. split; [done|]. split; [done|].
    destruct He as (_ & _ & _ & Hp & Hbyte). split; [done|].
    intros i. rewrite Hbyte. unfold mem_written. rewrite Hlen.
    destruct (Z.leb_spec off i), (Z.ltb_spec i (off + len)); try lia; done.
Qed.

Lemma setArray_ok bs off rev :
  Forall is_byte bs -> in_range m off (sizeZ bs) -> 0 < sizeZ bs ->
  exists m', setArray bs off (sizeZ bs) rev m = (Ok tt, m') /\
    mem_ok m' /\ CurrPage m' = CurrPage m /\
    forall i, mem_byte m' i = mem_written m off (if (rev : bool) then reverse bs else bs) i.
Proof using Hm.
  intros Hbs Hr _. destruct (setArray_prefix_ok bs off (sizeZ bs) rev Hbs Hr) as (m' & E); [lia|].
  rewrite slice_all in E. by exists m'.
Qed.

Lemma loadValue_ok T off len :
  in_range m off len -> 0 < len <= sizeof T -> (is_floating T = true -> len = sizeof T) ->
  exists m', loadValue T off len m =
      (Ok (Some (load_spec T len (le_combine (mem_bytes m off len)))), m') /\ m' ≡ m /\ mem_ok m'.
Proof using Hm.
  intros Hr Hlen Hf. unfold loadValue. destruct (Z.ltb_spec (sizeof T) len); [lia|].
  destruct (requireDataSize_ok m off len Hm Hr) as (m' & E & He & Hok & Hs).
  destruct Hr as (Ho & Hl & _).
  exists m'. rewrite (bind_Ok _ _ _ _ _ E). destruct (Z.ltb_spec 0 len); [|lia].
  unfold bind at 1. unfold get.
  pose proof (le_combine_range (mem_bytes m' off len)) as Hc.
  rewrite length_mem_bytes in Hc by lia. specialize (Hc (mem_bytes_are_bytes _ _ _ Hok)).
  rewrite (mem_bytes_equiv _ _ off len He) in Hc.
  destruct (is_floating T) eqn:HT.
  - unfold bind, lift. rewrite <- (Hf eq_refl), read_range_mem by lia.
    rewrite (mem_bytes_equiv _ _ off len He).
    unfold load_spec. rewrite HT, andb_false_r. done.
  - unfold bind, lift. rewrite read_range_mem by lia.
    rewrite (mem_bytes_equiv _ _ off len He).
    by rewrite load_extend by (done || lia).
Qed.

Lemma storeValue_ok T v off len :
  in_range m off len -> 0 < len <= sizeof T ->
  exists m', storeValue T v off len m = (Ok tt, m') /\ mem_ok m' /\ CurrPage m' = CurrPage m /\
    forall i, mem_byte m' i = mem_written m off (le_split (Z.to_nat len) (to_bits T v)) i.
Proof using Hm.
  intros Hr Hlen. unfold storeValue. destruct (Z.ltb_spec (sizeof T) len); [lia|].
  destruct (requireDataSize_ok m off len Hm Hr) as (m1 & E & He & Hok & Hs).
  destruct Hr as (Ho & Hl & _).
  rewrite (bind_Ok _ _ _ _ _ E). destruct (Z.ltb_spec 0 len); [|lia].
  apply (write_ok off _ m1 He Hok); [apply le_split_bytes|lia|].
  unfold sizeZ at 1. rewrite length_le_split. lia.
Qed.

End Operations.

Lemma mem_bytes_written m m' off bs :
  (forall i, mem_byte m' i = mem_written m off bs i) -> mem_bytes m' off (sizeZ bs) = bs.
Proof.
  intros Hw. unfold mem_bytes. apply list_eq. intros i. rewrite list_lookup_fmap.
  destruct (decide (i < length bs)%nat) as [Hi|Hi].
  - rewrite lookup_seqZ_lt by (unfold sizeZ; lia). cbn. rewrite Hw. unfold mem_written, sizeZ.
    destruct (Z.leb_spec off (off + Z.of_nat i)), (Z.ltb_spec (off + Z.of_nat i) (off + Z.of_nat (length bs)));
      try lia. cbn. replace (Z.to_nat (off + Z.of_nat i - off)) with i by lia.
    by destruct (lookup_lt_is_Some_2 _ _ Hi) as [x ->].
  - rewrite lookup_seqZ_ge by (unfold sizeZ; lia). symmetry. apply lookup_ge_None_2. lia.
Qed.

Lemma mem_bytes_frame m m' off bs off' len :
  (forall i, mem_byte m' i = mem_written m off bs i) ->
  off' + len <= off \/ off + sizeZ bs <= off' -> mem_bytes m' off' len = mem_bytes m off' len.
Proof.
  intros Hw Hd. unfold mem_bytes. apply list_fmap_ext. intros k x Hk.
  apply lookup_seqZ in Hk as [-> Hlt]. rewrite Hw. unfold mem_written.
  destruct (Z.leb_spec off (off' + Z.of_nat k)), (Z.ltb_spec (off' + Z.of_nat k) (off + sizeZ bs)); try lia; done.
Qed.

(** ** Properties *)

(** [C3] A memory instance of at most 59577 pages refines the flat zero-initialised byte
    array of its pages, for offsets and lengths of 32 bits.  On a range inside the pages:
    getBytes returns exactly the abstract bytes and getArray the same bytes, reversed when
    asked, and neither changes the memory abstractly; setBytes writes exactly the bytes of
    the slice from Start on, setArray exactly the first Length bytes of the array, reversed
    when asked, and every other byte is kept; where the slice does not hold the bytes asked
    for (Start + Length below 2^32), setBytes returns AccessForbidMemory and changes nothing
    abstract; all of them keep the invariant (data vector within the pages, elements bytes)
    and the pages.  A range that ends past the pages makes each of them, and loadValue and
    storeValue at a width their type has, return MemorySizeExceeded with the instance
    untouched. *)
Theorem memory_refines_byte_array (m : MemoryInstance) (off len : Z) :
  mem_ok m -> 0 <= off < 2 ^ 32 -> 0 <= len < 2 ^ 32 ->
  (off + len <= CurrPage m * 65536 ->
     (exists m', getBytes off len m = (Ok (mem_bytes m off len), m') /\ m' ≡ m /\ mem_ok m') /\
     (forall rev, exists m', getArray off len rev m =
          (Ok (if (rev : bool) then reverse (mem_bytes m off len) else mem_bytes m off len), m') /\
        m' ≡ m /\ mem_ok m') /\
     (forall bs start, Forall is_byte bs -> 0 <= start -> start + len < 2 ^ 32 ->
        start + len <= sizeZ bs -> (start < sizeZ bs \/ bs = []) ->
        exists m', setBytes bs off start len m = (Ok tt, m') /\ mem_ok m' /\
          CurrPage m' = CurrPage m /\
          forall i, mem_byte m' i = mem_written m off (slice start len bs) i) /\
     (forall bs start, 0 <= start -> start + len < 2 ^ 32 ->
        (sizeZ bs < start + len \/ 0 < sizeZ bs <= start) ->
        exists m', setBytes bs off start len m = (Err AccessForbidMemory, m') /\ m' ≡ m /\ mem_ok m') /\
     (forall bs rev, Forall is_byte bs -> len <= sizeZ bs ->
        exists m', setArray bs off len rev m = (Ok tt, m') /\ mem_ok m' /\
          CurrPage m' = CurrPage m /\
          forall i, mem_byte m' i =
            mem_written m off (if (rev : bool) then reverse (slice 0 len bs) else slice 0 len bs) i)) /\
  (CurrPage m * 65536 < off + len ->
     getBytes off len m = (Err MemorySizeExceeded, m) /\
     (forall rev, getArray off len rev m = (Err MemorySizeExceeded, m)) /\
     (forall bs start, setBytes bs off start len m = (Err MemorySizeExceeded, m)) /\
     (forall bs rev, setArray bs off len rev m = (Err MemorySizeExceeded, m)) /\
     (forall T, len <= sizeof T -> loadValue T off len m = (Err MemorySizeExceeded, m)) /\
     (forall T v, len <= sizeof T -> storeValue T v off len m = (Err MemorySizeExceeded, m))).
Proof.
  intros Hm Ho Hl. split; intros Hr.
  - assert (in_range m off len) by (unfold in_range; lia). split_and!; intros.
    + by apply getBytes_ok.
    + by apply getArray_ok.
    + by apply setBytes_slice_ok.
    + by apply setBytes_slice_short.
    + by apply setArray_prefix_ok.
  - unfold getBytes, getArray, setBytes, setArray, loadValue, storeValue.
    split_and!; intros; rewrite ?(proj2 (Z.ltb_ge _ _)) by done;
      unfold bind; by rewrite requireDataSize_fail.
Qed.

Definition example_memory : MemoryInstance := mkMemory false 1 0 1 [].

Lemma example_memory_ok : mem_ok example_memory.
Proof.
  split; [unfold page_limit; cbn; lia|].
  split; [apply Forall_nil_2|unfold sizeZ; cbn; lia].
Qed.

Lemma memory_refines_byte_array_witness :
  (exists m', setBytes [1; 2; 3; 4; 5; 6; 7; 8] 65530 2 6 example_memory = (Ok tt, m') /\
     mem_ok m' /\ CurrPage m' = 1 /\
     forall i, mem_byte m' i = mem_written example_memory 65530 [3; 4; 5; 6; 7; 8] i) /\
  getBytes 65531 6 example_memory = (Err MemorySizeExceeded, example_memory).
Proof.
  pose proof example_memory_ok as Hok.
  assert (Forall is_byte [1; 2; 3; 4; 5; 6; 7; 8]) as Hb
    by (repeat constructor; unfold is_byte; lia).
  split.
  - destruct (memory_refines_byte_array example_memory 65530 6 Hok) as [Hin _]; [lia|lia|].
    destruct Hin as (_ & _ & Hset & _); [cbn [CurrPage example_memory]; lia|].
    apply (Hset [1; 2; 3; 4; 5; 6; 7; 8] 2 Hb); [lia..|unfold sizeZ; cbn [length]; lia|].
    left. unfold sizeZ. cbn [length]. lia.
  - destruct (memory_refines_byte_array example_memory 65531 6 Hok) as [_ Hout]; [lia|lia|].
    apply Hout. cbn [CurrPage example_memory]. lia.
Defined.

(** [C25] Store and load round-trip at every width, in a memory of at most 59577 pages (above
    it the 32-bit sizes of checkDataSize overflow) and for a range inside its pages: after
    storing the low [len] bytes of a value, [len] at least 1 and at most the width of the
    types, loading [len] bytes from the same offset yields the value truncated to [len]
    bytes, sign-extended when the loaded type is a signed integer and zero-extended
    otherwise; a load of any range inside the pages the store did not touch sees the old
    bytes.  Both hold for a load of a floating type at its full width only. *)
Theorem memory_store_load (m : MemoryInstance) (T T' : CType) (v off len : Z) :
  mem_ok m -> in_range m off len -> 0 < len <= sizeof T -> len <= sizeof T' ->
  (is_floating T' = true -> len = sizeof T') ->
  exists m1, storeValue T v off len m = (Ok tt, m1) /\ mem_ok m1 /\
    (exists m2, loadValue T' off len m1 = (Ok (Some (load_spec T' len (v mod 2 ^ (8 * len)))), m2)) /\
    (forall off' len' T'', in_range m off' len' -> 0 < len' <= sizeof T'' ->
       (is_floating T'' = true -> len' = sizeof T'') ->
       off' + len' <= off \/ off + len <= off' ->
       exists m2, loadValue T'' off' len' m1 =
         (Ok (Some (load_spec T'' len' (le_combine (mem_bytes m off' len')))), m2)).
Proof.
  intros Hm Hr Hlen Hlen' Hf.
  destruct (storeValue_ok m Hm T v off len Hr Hlen) as (m1 & E & Hok & Hp & Hb).
  exists m1. split; [done|]. split; [done|].
  set (bs := le_split (Z.to_nat len) (to_bits T v)) in *.
  assert (sizeZ bs = len) as Hbs by (unfold sizeZ, bs; rewrite length_le_split; lia).
  split.
  - assert (in_range m1 off len) as Hr1 by (unfold in_range in *; rewrite Hp; done).
    destruct (loadValue_ok m1 Hok T' off len Hr1 ltac:(lia) Hf) as (m2 & E2 & _).
    exists m2. rewrite E2. rewrite <- Hbs at 2. rewrite (mem_bytes_written m m1 off bs Hb).
    unfold bs. rewrite le_combine_split, Z2Nat.id by lia.
    do 4 f_equal. apply wrap_wrap. unfold bits. lia.
  - intros off' len' T'' Hr' Hl' Hf' Hd.
    assert (in_range m1 off' len') as Hr1 by (unfold in_range in *; rewrite Hp; done).
    destruct (loadValue_ok m1 Hok T'' off' len' Hr1 Hl' Hf') as (m2 & E2 & _).
    exists m2. rewrite E2. rewrite (mem_bytes_frame m m1 off bs) by (rewrite ?Hbs; done). done.
Qed.

Lemma memory_store_load_witness :
  exists m1, storeValue U32 0x1FE 10 1 example_memory = (Ok tt, m1) /\
    exists m2, loadValue S64 10 1 m1 = (Ok (Some (-2)), m2).
Proof.
  destruct (memory_store_load example_memory U32 S64 0x1FE 10 1) as (m1 & H1 & _ & [m2 H2] & _).
  - exact example_memory_ok.
  - unfold in_range. cbn. lia.
  - cbn. lia.
  - cbn. lia.
  - discriminate.
  - exists m1. split; [exact H1|]. exists m2. exact H2.
Defined.

(** memory.grow on a memory of at most 65536 pages, for a count whose sum with the
    current size fits 32 bits: it succeeds exactly when the sum stays within the declared
    maximum and 65536, adds the pages, keeps every byte (the new ones are 0), and fails
    without a change otherwise. *)
Theorem growPage_correct (m : MemoryInstance) (n : Z) :
  0 <= CurrPage m <= 65536 -> 0 <= n -> n + CurrPage m < 2 ^ 32 ->
  growPage n m =
  if (HasMaxPage m && (MaxPage m <? n + CurrPage m)) || (65536 <? n + CurrPage m)
  then (Err MemorySizeExceeded, m)
  else (Ok tt, set_CurrPage (CurrPage m + n) m).
Proof.
  intros Hp Hn Hs. unfold growPage. rewrite !wrap_small by (unfold in_u; lia).
  by rewrite !Z.gtb_ltb.
Qed.

Lemma growPage_correct_witness :
  growPage 2 example_memory = (Ok tt, set_CurrPage 3 example_memory).
Proof. rewrite (growPage_correct example_memory 2); [reflexivity|cbn; lia..]. Defined.

(** The page sum wraps around 2^32: growing a non-empty memory without a maximum by
    2^32 - k, for 0 < k <= the current size (memory.grow(-1) is k = 1), reports success and
    removes k pages instead of failing. *)
Theorem growPage_wraps (m : MemoryInstance) (k : Z) :
  HasMaxPage m = false -> 0 < k <= CurrPage m -> CurrPage m <= 65536 ->
  growPage (2 ^ 32 - k) m = (Ok tt, set_CurrPage (CurrPage m - k) m).
Proof.
  intros Hmax Hk Hp. unfold growPage. rewrite Hmax. cbn [andb orb].
  assert (forall x, x = CurrPage m - k + 1 * 2 ^ 32 -> wrap 32 x = CurrPage m - k) as Hw.
  { intros x ->. unfold wrap. rewrite Z_mod_plus_full. apply Z.mod_small.
    change (2 ^ 32) with 4294967296. lia. }
  rewrite !Hw by lia. destruct (Z.gtb_spec (CurrPage m - k) 65536); [lia|done].
Qed.

Lemma growPage_wraps_witness :
  growPage 0xFFFFFFFF example_memory = (Ok tt, set_CurrPage 0 example_memory).
Proof. apply (growPage_wraps example_memory 1); [reflexivity|cbn; lia..]. Defined.

Lemma read_range_nil off len : 0 < off + len -> read_range off len [] = Undef UB_vector.
Proof. intros. unfold read_range. rewrite (proj2 (Z.leb_gt _ _)); [done|]. unfold sizeZ. cbn. lia. Qed.

(** A memory of 65536 pages, the largest the validator admits, cannot be used: the
    32-bit product of pages and page size is 0, so the first non-empty access inside the
    pages shrinks the vector to nothing and then reads past it. *)
Theorem full_memory_access_undefined (m : MemoryInstance) (off len : Z) :
  CurrPage m = 65536 -> Data m = [] ->
  0 <= off < 2 ^ 32 -> 0 < len < 2 ^ 32 -> off + len <= 2 ^ 32 ->
  (getBytes off len m).1 = Undef UB_vector.
Proof.
  intros Hp Hd Ho Hl Hr. unfold getBytes, requireDataSize, checkDataSize, bind.
  rewrite Hp, Hd. destruct (Z.gtb_spec (off + len) (65536 * 65536)); [lia|].
  change (wrap 32 (65536 * 65536)) with 0.
  destruct (_ <? _) eqn:E; cbn -[read_range target_size wrap];
    rewrite (proj2 (Z.ltb_lt 0 len)) by lia; unfold get, lift.
  - assert ((if wrap 32 (target_size (wrap 32 (off + len)) * 8) >? 0 then 0
             else wrap 32 (target_size (wrap 32 (off + len)) * 8)) = 0) as ->.
    { destruct (Z.gtb_spec (wrap 32 (target_size (wrap 32 (off + len)) * 8)) 0); [done|].
      pose proof (wrap_range 32 (target_size (wrap 32 (off + len)) * 8)). unfold in_u in *. lia. }
    cbn -[read_range]. by rewrite read_range_nil by lia.
  - rewrite Hd. by rewrite read_range_nil by lia.
Qed.

Lemma full_memory_access_undefined_witness :
  (getBytes 16 4 (newMemory (mkLimit HasMin 65536 0))).1 = Undef UB_vector.
Proof.
  apply (full_memory_access_undefined (newMemory (mkLimit HasMin 65536 0)) 16 4);
    [reflexivity|reflexivity|lia..].
Defined.
