(* ===== verification/FileMgr.v ===== *)
(** * File managers: include/loader/filemgr.h, lib/loader/filemgr.cpp

    The interface [FileMgr] as a class, its implementations [FileMgrVector] and
    [FileMgrFStream], and the abstract byte stream they are compared with: the same operations on the list of
    bytes that are left. *)
From stdpp Require Import base list numbers option.
From Stdlib Require Import ZArith Lia.
From S2P Require Import Prelude.
#[local] Open Scope Z_scope.

(** ** The interface *)

(** The virtual functions of [FileMgr] that read.  Bytes and names are lists of bytes,
    floats their bit patterns. *)
Class FileMgr (F : Type) := {
  readByte : M F Z;
  readBytes : Z -> M F (list Z);
  readU32 : M F Z;
  readU64 : M F Z;
  readS32 : M F Z;
  readS64 : M F Z;
  readF32 : M F Z;
  readF64 : M F Z;
  readName : M F (list Z)
}.

(** ** FileMgrVector *)

Record FileMgrVector : Type := mkFVMgr { Code : list Z; Pos : Z; Status : ErrCode }.

Definition newFileMgrVector : FileMgrVector := mkFVMgr [] 0 InvalidPath.

Definition set_Pos (p : Z) (s : FileMgrVector) : FileMgrVector := mkFVMgr (Code s) p (Status s).

Module FV.

Definition setPath (_ : list Z) : M FileMgrVector unit := throw InvalidPath.

Definition setCode (CodeData : list Z) : M FileMgrVector unit := fun _ =>
  if sizeZ CodeData =? 0
  then (Err EndOfFile, mkFVMgr CodeData 0 EndOfFile)
  else (Ok tt, mkFVMgr CodeData 0 Success).

Definition getRemainSize (s : FileMgrVector) : Z := wrap 32 (sizeZ (Code s) - Pos s).

Definition clearBuffer : M FileMgrVector unit := put (mkFVMgr [] 0 EndOfFile).

(** [Status = ErrCode::EndOfFile; return Unexpect(Status);] *)
Definition end_of_file {A} : M FileMgrVector A := fun s =>
  (Err EndOfFile, mkFVMgr (Code s) (Pos s) EndOfFile).
(** The same after [Pos = Code.size();]. *)
Definition end_of_code {A} : M FileMgrVector A := fun s =>
  (Err EndOfFile, mkFVMgr (Code s) (wrap 32 (sizeZ (Code s))) EndOfFile).

(** [Code[Pos++]] *)
Definition next_code : M FileMgrVector Z := fun s =>
  match atZ (Code s) (Pos s) with
  | Some b => (Ok b, set_Pos (wrap 32 (Pos s + 1)) s)
  | None => (Undef UB_vector, s)
  end.

(** [std::copy_n(Code.begin() + Pos, n, ...); Pos += n;] *)
Definition copy_code (n : Z) : M FileMgrVector (list Z) := fun s =>
  if Pos s + n <=? sizeZ (Code s)
  then (Ok (slice (Pos s) n (Code s)), set_Pos (wrap 32 (Pos s + n)) s)
  else (Undef UB_vector, s).

Definition readByte : M FileMgrVector Z :=
  let* s := get in
  if sizeZ (Code s) <=? Pos s then end_of_file else next_code.

(** [Pos + SizeToRead] is computed in [size_t]. *)
Definition readBytes (SizeToRead : Z) : M FileMgrVector (list Z) :=
  if 0 <? SizeToRead then
    let* s := get in
    if wrap 64 (Pos s + SizeToRead) >? sizeZ (Code s) then end_of_code
    else copy_code SizeToRead
  else ret [].

(** The loop the four integer readers share.  [w] is the width of the shifted operand;
    the result is the accumulated bits, the final offset and the last byte. *)
Fixpoint leb_loop (w : Z) (fuel : nat) (Result Offset Byte : Z) : M FileMgrVector (Z * Z * Z) :=
  match fuel with
  | O => nofuel
  | S fuel' =>
      if Z.land Byte 0x80 =? 0 then ret (Result, Offset, Byte)
      else
        let* s := get in
        if sizeZ (Code s) <=? Pos s then end_of_file
        else
          let* b := next_code in
          if w <=? Offset then undef UB_shift
          else leb_loop w fuel'
            (Z.lor Result (wrap w (Z.shiftl (Z.land b 0x7F) Offset))) (Offset + 7) b
  end.

(** A 64-bit operand takes ten shifts; the eleventh is undefined. *)
Definition leb_fuel : nat := 12.

Definition readU32 : M FileMgrVector Z :=
  let* (Result, _, _) := leb_loop 32 leb_fuel 0 0 0x80 in ret Result.

Definition readU64 : M FileMgrVector Z :=
  let* (Result, _, _) := leb_loop 64 leb_fuel 0 0 0x80 in ret Result.

Definition readS32 : M FileMgrVector Z :=
  let* (Result, Offset, Byte) := leb_loop 32 leb_fuel 0 0 0x80 in
  if negb (Z.land Byte 0x40 =? 0) && (Offset <? 32)
  then ret (sgn 32 (Z.lor Result (wrap 32 (Z.shiftl 0xFFFFFFFF Offset))))
  else ret (sgn 32 Result).

Definition readS64 : M FileMgrVector Z :=
  let* (Result, Offset, Byte) := leb_loop 64 leb_fuel 0 0 0x80 in
  if negb (Z.land Byte 0x40 =? 0) && (Offset <? 64)
  then ret (sgn 64 (Z.lor Result (wrap 64 (Z.shiftl 0xFFFFFFFFFFFFFFFF Offset))))
  else ret (sgn 64 Result).

(** [for (int i = 0; i < n; i++) Val.U |= (Code[Pos++] & 0xFF) << (i * 8);] *)
Fixpoint float_loop (w : Z) (n : nat) (i U : Z) : M FileMgrVector Z :=
  match n with
  | O => ret U
  | S n' =>
      let* b := next_code in
      float_loop w n' (i + 1) (Z.lor U (wrap w (Z.shiftl (Z.land b 0xFF) (i * 8))))
  end.

Definition readF32 : M FileMgrVector Z :=
  let* s := get in
  if wrap 32 (Pos s + 4) >? sizeZ (Code s) then end_of_code else float_loop 32 4 0 0.

Definition readF64 : M FileMgrVector Z :=
  let* s := get in
  if wrap 32 (Pos s + 8) >? sizeZ (Code s) then end_of_code else float_loop 64 8 0 0.

(** [Pos + *Size] is computed in [uint32_t]. *)
Definition readName : M FileMgrVector (list Z) :=
  let* Size := readU32 in
  if 0 <? Size then
    let* s := get in
    if wrap 32 (Pos s + Size) >? sizeZ (Code s) then end_of_code
    else copy_code Size
  else ret [].

End FV.

#[export] Instance FileMgrVector_FileMgr : FileMgr FileMgrVector := {
  readByte := FV.readByte; readBytes := FV.readBytes; readU32 := FV.readU32;
  readU64 := FV.readU64; readS32 := FV.readS32; readS64 := FV.readS64;
  readF32 := FV.readF32; readF64 := FV.readF64; readName := FV.readName }.

(** ** FileMgrFStream *)

(** What the code uses of [std::ifstream]: whether a file is open, the bytes its buffer has
    left, and two state bits.  Reads never fail half way: [badbit] is not modelled. *)
Record IFStream : Type := mkIFS { is_open : bool; inbuf : list Z; eofbit : bool; failbit : bool }.

(** [fail()] and [eof()] of a stream that is not [bad()]. *)
Definition ifs_fail (f : IFStream) : bool := failbit f.
Definition ifs_eof (f : IFStream) : bool := eofbit f.

(** [get(c)]: the new value of [c], which is left alone when nothing can be read. *)
Definition ifs_get (c : Z) : M IFStream Z := fun f =>
  if eofbit f || failbit f then (Ok c, mkIFS (is_open f) (inbuf f) (eofbit f) true)
  else match inbuf f with
  | b :: l => (Ok b, mkIFS (is_open f) l false false)
  | [] => (Ok c, mkIFS (is_open f) [] true true)
  end.

(** [std::istreambuf_iterator<char> Iter(Fin); std::copy_n(Iter, n, ...); Iter++;] for [n > 0]:
    [copy_n] reads [n] characters and steps over all but the last.  The iterator works on the
    buffer, so no state bit is set; dereferencing it at the end is undefined. *)
Definition ifs_copy_n (n : Z) : M IFStream (list Z) := fun f =>
  if n <=? sizeZ (inbuf f)
  then (Ok (take (Z.to_nat n) (inbuf f)),
        mkIFS (is_open f) (drop (Z.to_nat n) (inbuf f)) (eofbit f) (failbit f))
  else (Undef UB_deref, f).

(** [close()] keeps the state bits; [open] clears them when it succeeds. *)
Definition ifs_close (f : IFStream) : IFStream := mkIFS false [] (eofbit f) (failbit f).
Definition ifs_open (contents : option (list Z)) (f : IFStream) : IFStream :=
  match contents with
  | Some l => mkIFS true l false false
  | None => mkIFS (is_open f) (inbuf f) (eofbit f) true
  end.

Record FileMgrFStream : Type := mkFSMgr { Fin : IFStream; FSStatus : ErrCode }.

Definition newFileMgrFStream : FileMgrFStream := mkFSMgr (mkIFS false [] false false) InvalidPath.

Module FS.

Definition set_Fin (f : IFStream) (s : FileMgrFStream) : FileMgrFStream := mkFSMgr f (FSStatus s).
Definition onFin {A} (m : M IFStream A) : M FileMgrFStream A := zoom Fin set_Fin m.

(** [fs] gives the contents of the files that can be opened. *)
Definition setPath (fs : list Z -> option (list Z)) (FilePath : list Z) : M FileMgrFStream unit :=
  fun s =>
    let s1 := if is_open (Fin s) then mkFSMgr (ifs_close (Fin s)) InvalidPath else s in
    let f := ifs_open (fs FilePath) (Fin s1) in
    let Status := if negb (ifs_fail f) then Success else FSStatus s1 in
    (if bool_decide (Status <> Success) then Err Status else Ok tt, mkFSMgr f Status).

Definition setCode (_ : list Z) : M FileMgrFStream unit := throw InvalidPath.

(** [if (Status != ErrCode::Success) return Unexpect(Status);] *)
Definition checkStatus : M FileMgrFStream unit :=
  let* s := get in if bool_decide (FSStatus s <> Success) then throw (FSStatus s) else ret tt.

(** [if (Fin.fail()) { Status = Fin.eof() ? EndOfFile : ReadError; return Unexpect(Status); }] *)
Definition checkFail : M FileMgrFStream unit := fun s =>
  if ifs_fail (Fin s) then
    let Status := if ifs_eof (Fin s) then EndOfFile else ReadError in
    (Err Status, mkFSMgr (Fin s) Status)
  else (Ok tt, s).

Definition readByte : M FileMgrFStream Z :=
  checkStatus ;;;
  let* Buf := onFin (ifs_get 0) in
  checkFail ;;; ret Buf.

Definition readBytes (SizeToRead : Z) : M FileMgrFStream (list Z) :=
  checkStatus ;;;
  let* Buf := if 0 <? SizeToRead then onFin (ifs_copy_n SizeToRead) else ret [] in
  checkFail ;;; ret Buf.

(** [while (!Fin.fail() && Byte & 0x80) { Fin.get(Byte); Result |= ...; Offset += 7; }]: the
    shift is done before the failure is seen. *)
Fixpoint leb_loop_fs (w : Z) (fuel : nat) (Result Offset Byte : Z)
    : M FileMgrFStream (Z * Z * Z) :=
  match fuel with
  | O => nofuel
  | S fuel' =>
      let* s := get in
      if negb (ifs_fail (Fin s)) && negb (Z.land Byte 0x80 =? 0) then
        let* b := onFin (ifs_get Byte) in
        if w <=? Offset then undef UB_shift
        else leb_loop_fs w fuel'
          (Z.lor Result (wrap w (Z.shiftl (Z.land b 0x7F) Offset))) (Offset + 7) b
      else ret (Result, Offset, Byte)
  end.

Definition readU32 : M FileMgrFStream Z :=
  checkStatus ;;;
  let* (Result, _, _) := leb_loop_fs 32 12 0 0 0x80 in
  checkFail ;;; ret Result.

Definition readU64 : M FileMgrFStream Z :=
  checkStatus ;;;
  let* (Result, _, _) := leb_loop_fs 64 12 0 0 0x80 in
  checkFail ;;; ret Result.

Definition readS32 : M FileMgrFStream Z :=
  checkStatus ;;;
  let* (Result, Offset, Byte) := leb_loop_fs 32 12 0 0 0x80 in
  checkFail ;;;
  if negb (Z.land Byte 0x40 =? 0) && (Offset <? 32)
  then ret (sgn 32 (Z.lor Result (wrap 32 (Z.shiftl 0xFFFFFFFF Offset))))
  else ret (sgn 32 Result).

Definition readS64 : M FileMgrFStream Z :=
  checkStatus ;;;
  let* (Result, Offset, Byte) := leb_loop_fs 64 12 0 0 0x80 in
  checkFail ;;;
  if negb (Z.land Byte 0x40 =? 0) && (Offset <? 64)
  then ret (sgn 64 (Z.lor Result (wrap 64 (Z.shiftl 0xFFFFFFFFFFFFFFFF Offset))))
  else ret (sgn 64 Result).

(** [for (int i = 0; i < n; i++) { Fin.get(Byte); if (Fin.fail()) ...; Val.U |= ...; }] *)
Fixpoint float_loop_fs (w : Z) (n : nat) (i U Byte : Z) : M FileMgrFStream Z :=
  match n with
  | O => ret U
  | S n' =>
      let* b := onFin (ifs_get Byte) in
      checkFail ;;;
      float_loop_fs w n' (i + 1) (Z.lor U (wrap w (Z.shiftl (Z.land b 0xFF) (i * 8)))) b
  end.

Definition readF32 : M FileMgrFStream Z := checkStatus ;;; float_loop_fs 32 4 0 0 0x00.
Definition readF64 : M FileMgrFStream Z := checkStatus ;;; float_loop_fs 64 8 0 0 0x00.

Definition readName : M FileMgrFStream (list Z) :=
  let* Size := readU32 in
  let* Str := if 0 <? Size then onFin (ifs_copy_n Size) else ret [] in
  checkFail ;;; ret Str.

End FS.

#[export] Instance FileMgrFStream_FileMgr : FileMgr FileMgrFStream := {
  readByte := FS.readByte; readBytes := FS.readBytes; readU32 := FS.readU32;
  readU64 := FS.readU64; readS32 := FS.readS32; readS64 := FS.readS64;
  readF32 := FS.readF32; readF64 := FS.readF64; readName := FS.readName }.

(** ** The abstract byte stream *)

Module Stream.

Definition next : M (list Z) Z := fun l =>
  match l with [] => (Err EndOfFile, []) | b :: l' => (Ok b, l') end.

Definition take_n (n : Z) : M (list Z) (list Z) := fun l =>
  if n <=? sizeZ l then (Ok (take (Z.to_nat n) l), drop (Z.to_nat n) l)
  else (Err EndOfFile, []).

(** LEB128: the bits, the number of bits read, the last byte. *)
Fixpoint leb (w : Z) (fuel : nat) (Result Offset : Z) : M (list Z) (Z * Z * Z) :=
  match fuel with
  | O => nofuel
  | S fuel' =>
      let* b := next in
      if w <=? Offset then undef UB_shift
      else
        let Result' := Z.lor Result (wrap w (Z.shiftl (b mod 128) Offset)) in
        if b <? 128 then ret (Result', Offset + 7, b)
        else leb w fuel' Result' (Offset + 7)
  end.

Definition leb_u (w : Z) : M (list Z) Z :=
  let* (r, _, _) := leb w 11 0 0 in ret r.
Definition leb_s (w : Z) : M (list Z) Z :=
  let* (r, o, b) := leb w 11 0 0 in
  if negb (Z.land b 0x40 =? 0) && (o <? w)
  then ret (sgn w (Z.lor r (wrap w (Z.shiftl (2 ^ w - 1) o))))
  else ret (sgn w r).

Definition le_num (n : Z) : M (list Z) Z := let* bs := take_n n in ret (le_combine bs).
Definition name : M (list Z) (list Z) := let* n := leb_u 32 in take_n n.

End Stream.

#[export] Instance Stream_FileMgr : FileMgr (list Z) := {
  readByte := Stream.next; readBytes := Stream.take_n; readU32 := Stream.leb_u 32;
  readU64 := Stream.leb_u 64; readS32 := Stream.leb_s 32; readS64 := Stream.leb_s 64;
  readF32 := Stream.le_num 4; readF64 := Stream.le_num 8; readName := Stream.name }.
