(* ===== verification/FileMgrFacts.v ===== *)
(** * File managers: refinement of the byte stream, LEB128 round trips

    [ByteSource] is what the loader may rely on: a file manager whose reads behave like
    those of the list of remaining bytes.  [FileMgrVector] is an instance. *)
From stdpp Require Import base list numbers option.
From Stdlib Require Import ZArith Lia.
From S2P Require Import Prelude FileMgr.
#[local] Open Scope Z_scope.

(** ** Refinement *)

(** From a related state, the implementation has the outcome of the specification and
    ends in a related state. *)
Definition refines_exact {F A} (ok : F -> Prop) (rest : F -> list Z)
    (m : M F A) (sp : M (list Z) A) : Prop :=
  forall s, ok s ->
    (m s).1 = (sp (rest s)).1 /\ ok (m s).2 /\ rest (m s).2 = (sp (rest s)).2.

(** What a client needs.  After a success the states are related; after an error nothing is
    said of the state, since a manager may refuse every later read.  Running out of bytes may
    also be undefined. *)
Definition refines {F A} (ok : F -> Prop) (rest : F -> list Z)
    (m : M F A) (sp : M (list Z) A) : Prop :=
  forall s, ok s ->
    ((m s).1 = (sp (rest s)).1 /\
     forall a, (m s).1 = Ok a -> ok (m s).2 /\ rest (m s).2 = (sp (rest s)).2) \/
    ((sp (rest s)).1 = Err EndOfFile /\ exists u, (m s).1 = Undef u).

(** The same without the states, for a computation that ends the use of the manager. *)
Definition agrees {F A} (ok : F -> Prop) (rest : F -> list Z)
    (m : M F A) (sp : M (list Z) A) : Prop :=
  forall s, ok s ->
    (m s).1 = (sp (rest s)).1 \/
    ((sp (rest s)).1 = Err EndOfFile /\ exists u, (m s).1 = Undef u).

Class ByteSource (F : Type) `{FileMgr F} := {
  src_ok : F -> Prop;
  src_rest : F -> list Z;
  src_bytes : forall s, src_ok s -> Forall is_byte (src_rest s);
  src_readByte : refines src_ok src_rest readByte readByte;
  src_readByte_end : forall s, src_ok s -> src_rest s = [] -> (readByte s).1 = Err EndOfFile;
  src_readBytes : forall n, n < 2 ^ 32 -> refines src_ok src_rest (readBytes n) (readBytes n);
  src_readU32 : refines src_ok src_rest readU32 readU32;
  src_readU64 : refines src_ok src_rest readU64 readU64;
  src_readS32 : refines src_ok src_rest readS32 readS32;
  src_readS64 : refines src_ok src_rest readS64 readS64;
  src_readF32 : refines src_ok src_rest readF32 readF32;
  src_readF64 : refines src_ok src_rest readF64 readF64;
  src_readName : refines src_ok src_rest readName readName
}.

Section Refines.
Context {F : Type} (ok : F -> Prop) (rest : F -> list Z).

Lemma refines_of_exact {A} (m : M F A) sp : refines_exact ok rest m sp -> refines ok rest m sp.
Proof. intros H s Hs. left. by destruct (H s Hs) as (? & ? & ?). Qed.

Lemma refines_ret {A} (a : A) : refines ok rest (ret a) (ret a).
Proof. intros s Hs. by left. Qed.
Lemma refines_throw {A} e : refines ok rest (throw (A := A) e) (throw e).
Proof. intros s Hs. by left. Qed.
Lemma refines_undef {A} u : refines ok rest (undef (A := A) u) (undef u).
Proof. intros s Hs. by left. Qed.
Lemma refines_nofuel {A} : refines ok rest (nofuel (A := A)) nofuel.
Proof. intros s Hs. by left. Qed.
Lemma refines_lift {A} (r : res A) : refines ok rest (lift r) (lift r).
Proof. intros s Hs. by left. Qed.

Lemma exact_ret {A} (a : A) : refines_exact ok rest (ret a) (ret a).
Proof. done. Qed.
Lemma exact_undef {A} u : refines_exact ok rest (undef (A := A) u) (undef u).
Proof. done. Qed.

Lemma exact_bind {A B} (m : M F A) sp (k : A -> M F B) k' :
  refines_exact ok rest m sp ->
  (forall a, (exists l l', sp l = (Ok a, l')) -> refines_exact ok rest (k a) (k' a)) ->
  refines_exact ok rest (bind m k) (bind sp k').
Proof.
  intros Hm Hk s Hs. destruct (Hm s Hs) as (E1 & Hok & E2). unfold bind.
  destruct (m s) as [r s1], (sp (rest s)) as [r' l1] eqn:E. cbn in *. subst.
  destruct r'; [|done..]. apply Hk; eauto.
Qed.

Lemma refines_bind {A B} (m : M F A) sp (k : A -> M F B) k' :
  refines ok rest m sp ->
  (forall a, (exists l l', sp l = (Ok a, l')) -> refines ok rest (k a) (k' a)) ->
  refines ok rest (bind m k) (bind sp k').
Proof.
  intros Hm Hk s Hs. unfold bind.
  destruct (Hm s Hs) as [[E1 E2]|[E1 [u E2]]];
    destruct (m s) as [r s1], (sp (rest s)) as [r' l1] eqn:E; cbn in *; subst.
  - destruct r' as [a| | |]; [|by left..]. destruct (E2 a eq_refl) as [Hok <-]. apply Hk; eauto.
  - right. eauto.
Qed.

Lemma agrees_of_refines {A} (m : M F A) sp : refines ok rest m sp -> agrees ok rest m sp.
Proof. intros H s Hs. destruct (H s Hs) as [[? _]|?]; auto. Qed.

Lemma agrees_bind {A B} (m : M F A) sp (k : A -> M F B) k' :
  refines ok rest m sp ->
  (forall a, (exists l l', sp l = (Ok a, l')) -> agrees ok rest (k a) (k' a)) ->
  agrees ok rest (bind m k) (bind sp k').
Proof.
  intros Hm Hk s Hs. unfold bind.
  destruct (Hm s Hs) as [[E1 E2]|[E1 [u E2]]];
    destruct (m s) as [r s1], (sp (rest s)) as [r' l1] eqn:E; cbn in *; subst.
  - destruct r' as [a| | |]; [|by left..]. destruct (E2 a eq_refl) as [Hok <-]. apply Hk; eauto.
  - right. eauto.
Qed.

End Refines.

Create HintDb refine.
#[export] Hint Constants Opaque : refine.
#[export] Hint Resolve refines_of_exact refines_ret refines_throw refines_undef refines_nofuel
  refines_lift exact_ret exact_undef src_readByte src_readU32 src_readU64 src_readS32
  src_readS64 src_readF32 src_readF64 src_readName : refine.

(** ** FileMgrVector is a byte source *)

(** [Pos] stays within the code, which is small enough for [Pos + 8] to fit 32 bits. *)
Definition fv_ok (s : FileMgrVector) : Prop :=
  0 <= Pos s <= sizeZ (Code s) /\ sizeZ (Code s) < 2 ^ 32 - 8 /\ Forall is_byte (Code s).
Definition fv_rest (s : FileMgrVector) : list Z := drop (Z.to_nat (Pos s)) (Code s).

#[local] Abbreviation exact := (refines_exact fv_ok fv_rest).

Lemma sizeZ_fv_rest s : fv_ok s -> sizeZ (fv_rest s) = sizeZ (Code s) - Pos s.
Proof. intros (? & _). unfold fv_rest, sizeZ in *. rewrite length_drop. lia. Qed.

Lemma fv_rest_bytes s : fv_ok s -> Forall is_byte (fv_rest s).
Proof. intros (_ & _ & ?). by apply Forall_drop. Qed.

Lemma fv_end s : fv_ok s -> sizeZ (Code s) <= Pos s -> fv_rest s = [].
Proof. intros Hs Hp. apply nil_length_inv. pose proof (sizeZ_fv_rest s Hs). unfold sizeZ in *. lia. Qed.

Lemma end_of_code_ok s :
  fv_ok s -> fv_ok (@FV.end_of_code unit s).2 /\ fv_rest (@FV.end_of_code unit s).2 = [].
Proof.
  intros (? & ? & ?). unfold FV.end_of_code, fv_ok, fv_rest. cbn -[wrap sizeZ Z.pow].
  rewrite wrap_small by (unfold in_u; lia). repeat split; try done; try lia.
  apply drop_ge. unfold sizeZ in *. lia.
Qed.

(** Advancing [Pos] by [n] drops [n] bytes. *)
Lemma fv_advance s n : fv_ok s -> 0 <= n -> Pos s + n <= sizeZ (Code s) ->
  fv_ok (set_Pos (wrap 32 (Pos s + n)) s) /\
  fv_rest (set_Pos (wrap 32 (Pos s + n)) s) = drop (Z.to_nat n) (fv_rest s).
Proof.
  intros (? & ? & ?) Hn Hp. rewrite wrap_small by (unfold in_u; lia).
  unfold fv_ok, fv_rest. cbn. repeat split; try done; try lia.
  rewrite drop_drop. f_equal. lia.
Qed.

Lemma next_code_ok s b l :
  fv_ok s -> fv_rest s = b :: l ->
  exists s', FV.next_code s = (Ok b, s') /\ fv_ok s' /\ fv_rest s' = l /\ is_byte b.
Proof.
  intros Hs Hr. pose proof (sizeZ_fv_rest s Hs) as Hl. rewrite Hr in Hl.
  assert (0 < sizeZ (b :: l)) by (unfold sizeZ; cbn; lia).
  pose proof (fv_rest_bytes s Hs) as Hb. rewrite Hr in Hb. inversion_clear Hb.
  destruct (fv_advance s 1 Hs ltac:(lia) ltac:(lia)) as [Hok Hd].
  eexists. split; [|split; [exact Hok|split; [rewrite Hd, Hr; done|done]]].
  unfold FV.next_code, atZ. destruct Hs as [[Hp _] _]. rewrite (proj2 (Z.leb_le 0 _) Hp).
  unfold fv_rest in Hr.
  assert (Code s !! (Z.to_nat (Pos s) + 0)%nat = Some b) as E by (by rewrite <- lookup_drop, Hr).
  rewrite Nat.add_0_r in E. by rewrite E.
Qed.

(** The guard [Pos >= Code.size()] against the shape of the remaining bytes. *)
Lemma fv_guard s : fv_ok s ->
  if sizeZ (Code s) <=? Pos s then fv_rest s = [] else exists b l, fv_rest s = b :: l.
Proof.
  intros Hs. destruct (Z.leb_spec (sizeZ (Code s)) (Pos s)); [by apply fv_end|].
  pose proof (sizeZ_fv_rest s Hs) as Hl. destruct (fv_rest s); [change (0 = sizeZ (Code s) - Pos s) in Hl; lia|eauto].
Qed.

Lemma fv_readByte : exact FV.readByte Stream.next.
Proof.
  intros s Hs. unfold FV.readByte, bind, get. pose proof (fv_guard s Hs) as Hg.
  destruct (_ <=? _); [by rewrite Hg|]. destruct Hg as (b & l & Hr).
  destruct (next_code_ok s b l Hs Hr) as (s' & -> & ? & ? & _). by rewrite Hr.
Qed.

Lemma fv_copy s n : fv_ok s -> 0 <= n ->
  if Pos s + n <=? sizeZ (Code s)
  then (FV.copy_code n s).1 = (Stream.take_n n (fv_rest s)).1 /\
       fv_ok (FV.copy_code n s).2 /\
       fv_rest (FV.copy_code n s).2 = (Stream.take_n n (fv_rest s)).2
  else Stream.take_n n (fv_rest s) = (Err EndOfFile, []).
Proof.
  intros Hs Hn. unfold FV.copy_code, Stream.take_n. rewrite sizeZ_fv_rest by done.
  destruct (Z.leb_spec (Pos s + n) (sizeZ (Code s))).
  - rewrite (proj2 (Z.leb_le n _)) by lia. cbn -[wrap].
    split; [done|]. by apply fv_advance.
  - by rewrite (proj2 (Z.leb_gt n _)) by lia.
Qed.

Lemma take_n_nonpos n l : n <= 0 -> Stream.take_n n l = (Ok [], l).
Proof.
  intros. unfold Stream.take_n, sizeZ. rewrite (proj2 (Z.leb_le _ _)) by lia.
  by replace (Z.to_nat n) with 0%nat by lia.
Qed.

Lemma fv_readBytes n : n < 2 ^ 32 -> exact (FV.readBytes n) (Stream.take_n n).
Proof.
  intros Hn s Hs. unfold FV.readBytes. destruct (Z.ltb_spec 0 n);
    [|by rewrite take_n_nonpos].
  unfold bind, get. rewrite wrap_small by (destruct Hs as (? & ? & _); unfold in_u; lia).
  pose proof (fv_copy s n Hs ltac:(lia)) as Hc. rewrite Z.gtb_ltb, Z.ltb_antisym.
  destruct (_ <=? _); cbn [negb]; [done|]. rewrite Hc.
  destruct (end_of_code_ok s Hs). done.
Qed.

(** *** The LEB128 loop *)

Lemma byte_land_0x80 b : is_byte b -> (Z.land b 0x80 =? 0) = (b <? 128).
Proof.
  intros Hb. apply eqb_prop.
  apply (byte_forall (fun b => Bool.eqb (Z.land b 0x80 =? 0) (b <? 128))); [by vm_compute|done].
Qed.

Lemma land_0x7F b : Z.land b 0x7F = b mod 128.
Proof. apply (Z.land_ones b 7). done. Qed.

Lemma fv_leb_loop w n R O B :
  w + 7 <= O + 7 * Z.of_nat n -> O < w + 7 -> is_byte B -> 128 <= B ->
  exact (FV.leb_loop w (S n) R O B) (Stream.leb w n R O).
Proof.
  revert R O B. induction n as [|n IH]; intros R O B Hn HO HB HB' s Hs; [lia|].
  cbn [Stream.leb]. unfold FV.leb_loop at 1 2 3. fold FV.leb_loop.
  rewrite byte_land_0x80, (proj2 (Z.ltb_ge _ _)) by done.
  unfold bind, get. pose proof (fv_guard s Hs) as Hg.
  destruct (_ <=? Pos s); [by rewrite Hg|]. destruct Hg as (b & l & Hr).
  destruct (next_code_ok s b l Hs Hr) as (s' & -> & Hs' & <- & Hb). rewrite Hr. cbn [Stream.next].
  destruct (Z.leb_spec w O); [done|]. rewrite land_0x7F.
  destruct (Z.ltb_spec b 128).
  - cbn [FV.leb_loop]. rewrite byte_land_0x80, (proj2 (Z.ltb_lt _ _)) by done. done.
  - apply IH; [lia|lia|done|done|done].
Qed.

Lemma fv_leb w : 0 <= w <= 64 ->
  exact (FV.leb_loop w FV.leb_fuel 0 0 0x80) (Stream.leb w 11 0 0).
Proof. intros. apply fv_leb_loop; try lia. done. Qed.

Lemma fv_leb_u w : 0 <= w <= 64 ->
  exact (let* (r, _, _) := FV.leb_loop w FV.leb_fuel 0 0 0x80 in ret r) (Stream.leb_u w).
Proof. intros. apply exact_bind; [by apply fv_leb|]. by intros [[? ?] ?] _. Qed.

Lemma fv_readS32 : exact FV.readS32 (Stream.leb_s 32).
Proof.
  apply exact_bind; [by apply fv_leb|]. intros [[? ?] ?] _. by destruct (_ && _).
Qed.

Lemma fv_readS64 : exact FV.readS64 (Stream.leb_s 64).
Proof.
  apply exact_bind; [by apply fv_leb|]. intros [[? ?] ?] _. by destruct (_ && _).
Qed.

(** *** Floats: the byte loop is a little-endian read *)

Lemma land_0xFF b : is_byte b -> Z.land b 0xFF = b.
Proof. intros. change 0xFF with (Z.ones 8). rewrite Z.land_ones by done. by apply Z.mod_small. Qed.

(** One more byte of a little-endian number. *)
Lemma le_acc w i U b :
  is_byte b -> 0 <= i -> 8 * (i + 1) <= w -> 0 <= U < 2 ^ (8 * i) ->
  Z.lor U (wrap w (Z.shiftl (Z.land b 0xFF) (i * 8))) = U + b * 2 ^ (8 * i) /\
  2 ^ (8 * (i + 1)) = 256 * 2 ^ (8 * i) /\ 0 <= U + b * 2 ^ (8 * i) < 2 ^ (8 * (i + 1)).
Proof.
  intros Hb Hi Hw HU. rewrite land_0xFF, (Z.mul_comm i 8) by done. unfold is_byte in Hb.
  assert (2 ^ (8 * (i + 1)) = 256 * 2 ^ (8 * i)) as H2.
  { rewrite Z.mul_add_distr_l, Z.pow_add_r by lia. lia. }
  assert (2 ^ (8 * (i + 1)) <= 2 ^ w) by (apply Z.pow_le_mono_r; lia).
  rewrite wrap_small by (unfold in_u; rewrite Z.shiftl_mul_pow2; nia).
  rewrite lor_shiftl_add by lia. split; [done|]. split; [done|]. nia.
Qed.

Lemma float_loop_ok w n i U s :
  fv_ok s -> 0 <= i -> 8 * (i + Z.of_nat n) <= w -> 0 <= U < 2 ^ (8 * i) ->
  Z.of_nat n <= sizeZ (fv_rest s) ->
  exists s', FV.float_loop w n i U s = (Ok (U + 2 ^ (8 * i) * le_combine (take n (fv_rest s))), s')
    /\ fv_ok s' /\ fv_rest s' = drop n (fv_rest s).
Proof.
  revert i U s. induction n as [|n IH]; intros i U s Hs Hi Hw HU Hl; cbn [FV.float_loop].
  { exists s. cbn. rewrite Z.mul_0_r, Z.add_0_r. done. }
  destruct (fv_rest s) as [|b l] eqn:Hr; [unfold sizeZ in Hl; cbn in Hl; lia|].
  destruct (next_code_ok s b l Hs Hr) as (s1 & E1 & Hs1 & Hr1 & Hb). unfold bind. rewrite E1.
  destruct (le_acc w i U b) as (-> & H2 & HU'); [done|lia..|].
  destruct (IH (i + 1) (U + b * 2 ^ (8 * i)) s1) as (s' & -> & Hs' & Hr');
    [done|lia|lia|done|rewrite Hr1; unfold sizeZ in *; cbn in Hl; lia|].
  exists s'. rewrite Hr1 in *. split; [|done]. cbn [take le_combine]. do 2 f_equal. rewrite H2. lia.
Qed.

Lemma fv_float w n :
  0 <= n <= 8 -> 8 * n <= w ->
  exact (let* s := get in if wrap 32 (Pos s + n) >? sizeZ (Code s) then FV.end_of_code
         else FV.float_loop w (Z.to_nat n) 0 0) (Stream.le_num n).
Proof.
  intros Hn Hw s Hs. unfold bind at 1 2 3, get. unfold Stream.le_num.
  pose proof (sizeZ_fv_rest s Hs) as Hl.
  rewrite wrap_small by (destruct Hs as (? & ? & _); unfold in_u; lia).
  unfold Stream.take_n, bind. rewrite Hl. destruct (Z.gtb_spec (Pos s + n) (sizeZ (Code s))).
  - rewrite (proj2 (Z.leb_gt n _)) by lia. destruct (end_of_code_ok s Hs). done.
  - rewrite (proj2 (Z.leb_le n _)) by lia.
    destruct (float_loop_ok w (Z.to_nat n) 0 0 s) as (s' & -> & ? & ?); [done|lia..|].
    cbn [fst snd ret]. rewrite Z.mul_0_r, Z.pow_0_r, Z.mul_1_l. done.
Qed.

(** *** Names *)

Lemma fv_name s : fv_ok s ->
  ((FV.readName s).1 = (Stream.name (fv_rest s)).1 /\ fv_ok (FV.readName s).2 /\
   fv_rest (FV.readName s).2 = (Stream.name (fv_rest s)).2) \/
  ((Stream.name (fv_rest s)).1 = Err EndOfFile /\ (FV.readName s).1 = Undef UB_vector).
Proof.
  intros Hs0. unfold FV.readName, Stream.name, bind.
  assert (exact FV.readU32 (Stream.leb_u 32)) as Hu by (by apply (fv_leb_u 32)).
  destruct (Hu s Hs0) as (E1 & Hs & E2).
  destruct (FV.readU32 s) as [r s1], (Stream.leb_u 32 (fv_rest s)) as [r' l1]. cbn [fst snd] in *.
  subst r' l1. destruct r as [n| | |]; [|by left..]. clear s Hs0. rename s1 into s.
  destruct (Z.ltb_spec 0 n); [|rewrite take_n_nonpos by lia; by left].
  unfold get. pose proof (fv_copy s n Hs ltac:(lia)) as Hc.
  destruct (_ <=? _) eqn:E.
  - left. destruct Hs as (? & ? & _). bool_to_prop.
    rewrite wrap_small by (unfold in_u; lia). rewrite Z.gtb_ltb, (proj2 (Z.ltb_ge _ _)) by lia. done.
  - rewrite Hc. destruct (_ >? _).
    + left. destruct (end_of_code_ok s Hs). done.
    + right. unfold FV.copy_code. by rewrite E.
Qed.

Lemma fv_name_refines : refines fv_ok fv_rest FV.readName Stream.name.
Proof.
  intros s Hs. destruct (fv_name s Hs) as [(? & ? & ?)|[? ?]]; [left; eauto|right; eauto].
Qed.

Lemma fv_readByte_end s : fv_ok s -> fv_rest s = [] -> (FV.readByte s).1 = Err EndOfFile.
Proof. intros Hs E. destruct (fv_readByte s Hs) as (-> & _). by rewrite E. Qed.

#[export] Instance FileMgrVector_ByteSource : ByteSource FileMgrVector := {
  src_ok := fv_ok;
  src_rest := fv_rest;
  src_bytes := fv_rest_bytes;
  src_readByte := refines_of_exact _ _ _ _ fv_readByte;
  src_readByte_end := fv_readByte_end;
  src_readBytes n Hn := refines_of_exact _ _ _ _ (fv_readBytes n Hn);
  src_readU32 := refines_of_exact _ _ _ _ (fv_leb_u 32 ltac:(lia));
  src_readU64 := refines_of_exact _ _ _ _ (fv_leb_u 64 ltac:(lia));
  src_readS32 := refines_of_exact _ _ _ _ fv_readS32;
  src_readS64 := refines_of_exact _ _ _ _ fv_readS64;
  src_readF32 := refines_of_exact _ _ _ _ (fv_float 32 4 ltac:(lia) ltac:(lia));
  src_readF64 := refines_of_exact _ _ _ _ (fv_float 64 8 ltac:(lia) ltac:(lia));
  src_readName := fv_name_refines
}.
