(* ===== verification/LEB128.v ===== *)
(** * LEB128: the reference encoder and the round trips through the file managers *)
From stdpp Require Import base list numbers option.
From Stdlib Require Import ZArith Lia.
From S2P Require Import Prelude FileMgr FileMgrFacts.
#[local] Open Scope Z_scope.

(** ** Reference encoders (the WebAssembly binary format) *)

Fixpoint encode_u (n : nat) (x : Z) : list Z :=
  match n with
  | O => []
  | S n' =>
      if x / 128 =? 0 then [x mod 128] else (x mod 128 + 128) :: encode_u n' (x / 128)
  end.

Fixpoint encode_s (n : nat) (x : Z) : list Z :=
  match n with
  | O => []
  | S n' =>
      if ((x / 128 =? 0) && (x mod 128 <? 64)) || ((x / 128 =? -1) && (64 <=? x mod 128))
      then [x mod 128] else (x mod 128 + 128) :: encode_s n' (x / 128)
  end.

Definition encode_u32 (x : Z) : list Z := encode_u 5 x.
Definition encode_u64 (x : Z) : list Z := encode_u 10 x.
Definition encode_s32 (x : Z) : list Z := encode_s 5 x.
Definition encode_s64 (x : Z) : list Z := encode_s 10 x.

(** ** One byte of the loop *)

(** Accumulating the low seven bits of [y] at [O] below [w]. *)
Lemma leb_acc w R O y :
  0 <= O <= w -> 0 <= R < 2 ^ O ->
  Z.lor R (wrap w (Z.shiftl (y mod 128) O)) = R + 2 ^ O * (y mod 2 ^ (Z.min 7 (w - O))).
Proof.
  intros HO HR. rewrite Z.shiftl_mul_pow2 by lia. unfold wrap.
  assert (((y mod 128) * 2 ^ O) mod 2 ^ w = (y mod 2 ^ Z.min 7 (w - O)) * 2 ^ O) as ->.
  { replace (2 ^ w) with (2 ^ (w - O) * 2 ^ O) by (rewrite <- Z.pow_add_r; [f_equal|..]; lia).
    rewrite Zmult_mod_distr_r. f_equal. change 128 with (2 ^ 7).
    destruct (Z.min_spec 7 (w - O)) as [[? ->]|[? ->]].
    - apply Z.mod_small. pose proof (Z.mod_pos_bound y (2 ^ 7) ltac:(done)).
      assert (2 ^ 7 <= 2 ^ (w - O)) by (apply Z.pow_le_mono_r; lia). lia.
    - change (wrap (w - O) (wrap 7 y) = wrap (w - O) y). apply wrap_wrap. lia. }
  rewrite <- Z.shiftl_mul_pow2, lor_shiftl_add by lia. lia.
Qed.

(** Splitting off the low group of a number known modulo a power. *)
Lemma mod_pow2_split y k : 0 <= k ->
  y mod 2 ^ (7 + k) = y mod 128 + 128 * ((y / 128) mod 2 ^ k).
Proof.
  intros. rewrite Z.pow_add_r by lia. change (2 ^ 7) with 128. by rewrite Z.rem_mul_r by lia.
Qed.

Lemma mod128_byte y : (y mod 128 <? 128) = true /\ (y mod 128 + 128 <? 128) = false /\
  (y mod 128 + 128) mod 128 = y mod 128 /\ is_byte (y mod 128) /\ is_byte (y mod 128 + 128).
Proof.
  pose proof (Z.mod_pos_bound y 128 ltac:(done)). unfold is_byte.
  repeat split; try lia.
  rewrite <- Z.add_mod_idemp_r, Z.mod_same, Z.add_0_r by lia. by rewrite Z.mod_mod.
Qed.

Lemma leb_cons w fuel R O b l : Stream.leb w (S fuel) R O (b :: l) =
  if w <=? O then (Undef UB_shift, l)
  else if b <? 128 then (Ok (Z.lor R (wrap w (Z.shiftl (b mod 128) O)), O + 7, b), l)
  else Stream.leb w fuel (Z.lor R (wrap w (Z.shiftl (b mod 128) O))) (O + 7) l.
Proof. cbn -[Z.ltb Z.leb]. destruct (w <=? O); [done|]. by destruct (b <? 128). Qed.

Lemma encode_u_S n x : encode_u (S n) x =
  if x / 128 =? 0 then [x mod 128] else (x mod 128 + 128) :: encode_u n (x / 128).
Proof. done. Qed.

(** ** Unsigned *)

Lemma leb_encode_u w n fuel R O y l :
  (n <= fuel)%nat -> 0 <= O < w -> 0 <= R < 2 ^ O ->
  0 <= y < 2 ^ (w - O) -> y < 2 ^ (7 * Z.of_nat (S n)) ->
  exists o b, Stream.leb w (S fuel) R O (encode_u (S n) y ++ l) = (Ok (R + 2 ^ O * y, o, b), l).
Proof.
  revert fuel R O y. induction n as [|n IH]; intros fuel R O y Hn HO HR Hy Hy';
    destruct (mod128_byte y) as (Hlo & Hhi & Hm & _);
    assert (y mod 2 ^ (Z.min 7 (w - O)) = y mod 128 /\ y mod 128 = y \/ 128 <= y) as Hs.
  1,3: destruct (Z.ltb_spec y 128); [left|lia]; rewrite (Z.mod_small y 128) by lia;
    split; [apply Z.mod_small|done]; destruct (Z.min_spec 7 (w - O)) as [[? ->]|[? ->]]; lia.
  all: rewrite encode_u_S; destruct (Z.eqb_spec (y / 128) 0) as [E|E];
    cbn [app]; rewrite leb_cons; rewrite (proj2 (Z.leb_gt w O)) by lia.
  1,3: rewrite Hlo, Z.mod_mod, leb_acc by lia; apply Z.div_small_iff in E; [|lia];
    destruct Hs as [[-> ->]|]; [by do 2 eexists|lia].
  - exfalso. apply E. apply Z.div_small. change (2 ^ (7 * Z.of_nat 1)) with 128 in Hy'. lia.
  - rewrite Hhi, Hm. assert (1 <= y / 128) by (pose proof (Z.div_pos y 128); lia).
    pose proof (Z.div_mod y 128 ltac:(done)). pose proof (Z.mod_pos_bound y 128 ltac:(done)).
    assert (7 < w - O) by (apply (Z.pow_lt_mono_r_iff 2); [lia..|change (2 ^ 7) with 128; lia]).
    rewrite leb_acc by lia. rewrite Z.min_l by lia. change (2 ^ 7) with 128.
    assert (2 ^ (O + 7) = 128 * 2 ^ O) as E7 by (rewrite Z.pow_add_r by lia; lia).
    destruct fuel as [|fuel]; [lia|].
    destruct (IH fuel (R + 2 ^ O * (y mod 128)) (O + 7) (y / 128)) as (o & b & ->);
      [lia|lia|nia| | |].
    + split; [lia|]. apply Z.div_lt_upper_bound; [lia|].
      replace (w - O) with (7 + (w - (O + 7))) in Hy by lia. rewrite Z.pow_add_r in Hy by lia. lia.
    + apply Z.div_lt_upper_bound; [lia|].
      replace (7 * Z.of_nat (S (S n))) with (7 + 7 * Z.of_nat (S n)) in Hy' by lia.
      rewrite Z.pow_add_r in Hy' by lia. lia.
    + exists o, b. rewrite E7. do 4 f_equal. lia.
Qed.

Lemma leb_u_encode w n x l :
  (n <= 10)%nat -> 0 <= x < 2 ^ w -> w <= 7 * Z.of_nat (S n) -> 0 < w ->
  Stream.leb_u w (encode_u (S n) x ++ l) = (Ok x, l).
Proof.
  intros Hn Hx Hw Hw0. unfold Stream.leb_u, bind.
  assert (2 ^ w <= 2 ^ (7 * Z.of_nat (S n))) by (apply Z.pow_le_mono_r; lia).
  destruct (leb_encode_u w n 10 0 0 x l) as (o & b & ->); [done|lia|done|rewrite Z.sub_0_r; lia|lia|].
  cbn -[Z.pow Z.mul]. by rewrite Z.pow_0_r, Z.mul_1_l.
Qed.

(** ** Signed *)

Lemma encode_s_S n x : encode_s (S n) x =
  if ((x / 128 =? 0) && (x mod 128 <? 64)) || ((x / 128 =? -1) && (64 <=? x mod 128))
  then [x mod 128] else (x mod 128 + 128) :: encode_s n (x / 128).
Proof. done. Qed.

Lemma encode_s_stop x :
  ((x / 128 =? 0) && (x mod 128 <? 64)) || ((x / 128 =? -1) && (64 <=? x mod 128)) =
  bool_decide (in_s 7 x).
Proof.
  pose proof (Z.div_mod x 128 ltac:(done)). pose proof (Z.mod_pos_bound x 128 ltac:(done)).
  unfold in_s. change (2 ^ (7 - 1)) with 64. case_bool_decide; lia.
Qed.

Lemma in_s_div k y : 0 < k -> in_s (7 + k) y <-> in_s k (y / 128).
Proof.
  intros Hk. unfold in_s. replace (7 + k - 1) with (7 + (k - 1)) by lia.
  rewrite Z.pow_add_r by lia. change (2 ^ 7) with 128.
  pose proof (Z.div_mod y 128 ltac:(done)). pose proof (Z.mod_pos_bound y 128 ltac:(done)). lia.
Qed.

Lemma in_s_mono k k' y : 0 < k <= k' -> in_s k y -> in_s k' y.
Proof.
  intros. unfold in_s in *. assert (2 ^ (k - 1) <= 2 ^ (k' - 1)) by (apply Z.pow_le_mono_r; lia). lia.
Qed.

Lemma land_0x40 y : in_s 7 y -> (Z.land (y mod 128) 0x40 =? 0) = (0 <=? y).
Proof.
  intros Hy. unfold in_s in Hy. change (2 ^ (7 - 1)) with 64 in Hy.
  assert ((Z.land (y mod 128) 0x40 =? 0) = (y mod 128 mod 128 <? 64)) as ->.
  { apply eqb_prop. apply (byte_forall
      (fun b => Bool.eqb (Z.land b 0x40 =? 0) (b mod 128 <? 64))); [by vm_compute|].
    apply mod128_byte. }
  rewrite Z.mod_mod by done.
  pose proof (Z.div_mod y 128 ltac:(done)). pose proof (Z.mod_pos_bound y 128 ltac:(done)). lia.
Qed.

Lemma leb_encode_s w n fuel R O y l :
  (n <= fuel)%nat -> 0 <= O < w -> 0 <= R < 2 ^ O ->
  in_s (w - O) y -> in_s (7 * Z.of_nat (S n)) y ->
  exists o b, Stream.leb w (S fuel) R O (encode_s (S n) y ++ l) =
      (Ok (R + 2 ^ O * (y mod 2 ^ (Z.min o w - O)), o, b), l) /\
    O < o /\ in_s (o - O) y /\ (Z.land b 0x40 =? 0) = (0 <=? y).
Proof.
  revert fuel R O y. induction n as [|n IH]; intros fuel R O y Hn HO HR Hy Hy';
    destruct (mod128_byte y) as (Hlo & Hhi & Hm & _);
    rewrite encode_s_S, encode_s_stop; case_bool_decide as E; cbn [app]; rewrite leb_cons;
    rewrite (proj2 (Z.leb_gt w O)) by lia.
  1,3: rewrite Hlo, Z.mod_mod, leb_acc by lia; exists (O + 7), (y mod 128);
    replace (Z.min (O + 7) w - O) with (Z.min 7 (w - O)) by lia;
    replace (O + 7 - O) with 7 by lia; rewrite land_0x40 by done; (split; [done|split; [lia|done]]).
  - done.
  - assert (7 < w - O) by (apply Z.lt_nge; intros ?; apply E, (in_s_mono (w - O)); [lia|done]).
    rewrite Hhi, Hm, leb_acc by lia. rewrite Z.min_l by lia. change (2 ^ 7) with 128.
    assert (2 ^ (O + 7) = 128 * 2 ^ O) as E7 by (rewrite Z.pow_add_r by lia; lia).
    pose proof (Z.mod_pos_bound y 128 ltac:(done)). destruct fuel as [|fuel]; [lia|].
    destruct (IH fuel (R + 2 ^ O * (y mod 128)) (O + 7) (y / 128)) as (o & b & -> & Ho & Hs & Hb);
      [lia|lia|nia|apply in_s_div; [lia|]; by replace (7 + (w - (O + 7))) with (w - O) by lia
      |apply in_s_div; [lia|]; by replace (7 + 7 * Z.of_nat (S n)) with (7 * Z.of_nat (S (S n))) by lia|].
    exists o, b. replace (Z.min o w - O) with (7 + (Z.min o w - (O + 7))) by lia.
    rewrite mod_pow2_split, E7 by lia. split; [do 4 f_equal; lia|]. split; [lia|]. split.
    + replace (o - O) with (7 + (o - (O + 7))) by lia. apply in_s_div; [lia|done].
    + rewrite Hb. pose proof (Z.div_mod y 128 ltac:(done)). lia.
Qed.

Lemma wrap_ones_shiftl w o : 0 <= o < w -> wrap w (Z.shiftl (2 ^ w - 1) o) = 2 ^ w - 2 ^ o.
Proof.
  intros. rewrite Z.shiftl_mul_pow2 by lia. unfold wrap.
  replace ((2 ^ w - 1) * 2 ^ o) with (2 ^ w - 2 ^ o + (2 ^ o - 1) * 2 ^ w) by lia.
  rewrite Z_mod_plus_full. apply Z.mod_small.
  assert (2 ^ o <= 2 ^ w) by (apply Z.pow_le_mono_r; lia). lia.
Qed.

Lemma in_s_mod k y : 0 < k -> in_s k y -> y mod 2 ^ k = if 0 <=? y then y else y + 2 ^ k.
Proof.
  intros Hk Hy. unfold in_s in Hy.
  assert (2 ^ k = 2 * 2 ^ (k - 1)) by (rewrite <- Z.pow_succ_r; [f_equal|]; lia).
  destruct (Z.leb_spec 0 y); [apply Z.mod_small; lia|].
  rewrite <- (Z_mod_plus_full y 1), Z.mul_1_l. apply Z.mod_small. lia.
Qed.

(** Sign extension of the collected bits. *)
Lemma leb_sign_extend w o x :
  0 < w -> 0 < o -> in_s w x -> in_s o x ->
  (if negb (0 <=? x) && (o <? w)
   then sgn w (Z.lor (x mod 2 ^ Z.min o w) (wrap w (Z.shiftl (2 ^ w - 1) o)))
   else sgn w (x mod 2 ^ Z.min o w)) = x.
Proof.
  intros Hw Ho Hx Hx'. destruct (Z.ltb_spec o w).
  - rewrite Z.min_l by lia. rewrite (in_s_mod o) by done. destruct (Z.leb_spec 0 x); cbn [negb andb].
    + by apply sgn_small.
    + rewrite wrap_ones_shiftl, Z.lor_comm by lia. unfold in_s in Hx'.
      assert (2 ^ o = 2 * 2 ^ (o - 1)) by (rewrite <- Z.pow_succ_r; [f_equal|]; lia).
      rewrite (lor_disjoint _ _ o); [|lia| |lia].
      * replace (2 ^ w - 2 ^ o + (x + 2 ^ o)) with (x + 1 * 2 ^ w) by lia.
        rewrite <- sgn_wrap by lia. unfold wrap. rewrite Z_mod_plus_full.
        change (sgn w (wrap w x) = x). rewrite sgn_wrap by lia. by apply sgn_small.
      * replace (2 ^ w - 2 ^ o) with ((2 ^ (w - o) - 1) * 2 ^ o); [apply Z.mod_mul; lia|].
        rewrite Z.mul_sub_distr_r, <- Z.pow_add_r by lia. rewrite Z.mul_1_l. do 2 f_equal. lia.
  - rewrite andb_false_r, Z.min_r by lia. change (sgn w (wrap w x) = x).
    rewrite sgn_wrap by lia. by apply sgn_small.
Qed.

Lemma leb_s_encode w n x l :
  (n <= 10)%nat -> in_s w x -> w <= 7 * Z.of_nat (S n) -> 0 < w ->
  Stream.leb_s w (encode_s (S n) x ++ l) = (Ok x, l).
Proof.
  intros Hn Hx Hw Hw0. unfold Stream.leb_s, bind.
  destruct (leb_encode_s w n 10 0 0 x l) as (o & b & -> & Ho & Hs & Hb);
    [done|lia|done|by rewrite Z.sub_0_r|by apply (in_s_mono w)|].
  rewrite Z.sub_0_r in *. change (2 ^ 0) with 1. rewrite Z.mul_1_l, Z.add_0_l, Hb.
  pose proof (leb_sign_extend w o x Hw0 Ho Hx Hs) as E.
  destruct (_ && _); unfold ret; by rewrite E.
Qed.

(** ** Properties *)

Lemma exact_Ok {A} (m : M FileMgrVector A) sp s a l :
  refines_exact fv_ok fv_rest m sp -> fv_ok s -> sp (fv_rest s) = (Ok a, l) ->
  exists s', m s = (Ok a, s') /\ fv_ok s' /\ fv_rest s' = l.
Proof.
  intros Hm Hs E. destruct (Hm s Hs) as (E1 & Hok & E2). rewrite E in *.
  destruct (m s) as [r s']. cbn in *. subst. eauto.
Qed.

(** [C4] Every integer the vector file manager reads back is the one the WebAssembly
    encoder wrote: after the unsigned (signed) LEB128 encoding of any 32- or 64-bit
    number, [readU32], [readU64], [readS32] and [readS64] return the number and leave
    exactly the bytes that follow it. *)
Theorem leb128_roundtrip (s : FileMgrVector) (x : Z) (l : list Z) : fv_ok s ->
  (in_u 32 x -> fv_rest s = encode_u32 x ++ l ->
     exists s', FV.readU32 s = (Ok x, s') /\ fv_ok s' /\ fv_rest s' = l) /\
  (in_u 64 x -> fv_rest s = encode_u64 x ++ l ->
     exists s', FV.readU64 s = (Ok x, s') /\ fv_ok s' /\ fv_rest s' = l) /\
  (in_s 32 x -> fv_rest s = encode_s32 x ++ l ->
     exists s', FV.readS32 s = (Ok x, s') /\ fv_ok s' /\ fv_rest s' = l) /\
  (in_s 64 x -> fv_rest s = encode_s64 x ++ l ->
     exists s', FV.readS64 s = (Ok x, s') /\ fv_ok s' /\ fv_rest s' = l).
Proof.
  intros Hs. repeat split; intros Hx Hr.
  - eapply exact_Ok; [by apply fv_leb_u|done|]. rewrite Hr. by apply leb_u_encode; [lia|..].
  - eapply exact_Ok; [by apply fv_leb_u|done|]. rewrite Hr. by apply leb_u_encode; [lia|..].
  - eapply exact_Ok; [apply fv_readS32|done|]. rewrite Hr. by apply leb_s_encode; [lia|..].
  - eapply exact_Ok; [apply fv_readS64|done|]. rewrite Hr. by apply leb_s_encode; [lia|..].
Qed.

Definition leb_example : FileMgrVector := mkFVMgr [0; 0x80; 0x7F; 5] 1 Success.

Lemma leb_example_ok : fv_ok leb_example.
Proof.
  unfold fv_ok, sizeZ. cbn. split; [lia|]. split; [lia|].
  repeat constructor; lia.
Qed.

Lemma leb128_roundtrip_witness :
  exists s', FV.readS32 leb_example = (Ok (-128), s') /\ fv_ok s' /\ fv_rest s' = [5].
Proof.
  apply (leb128_roundtrip leb_example (-128) [5] leb_example_ok); [unfold in_s; lia|reflexivity].
Defined.

(** Reading continuation bytes only moves the offset. *)
Lemma leb_continue w bs fuel R O l :
  Forall (fun b => 128 <= b) bs -> O + 7 * sizeZ bs < w + 7 ->
  exists R', Stream.leb w (length bs + fuel) R O (bs ++ l) =
    Stream.leb w fuel R' (O + 7 * sizeZ bs) l.
Proof.
  intros Hb. revert R O. induction Hb as [|b bs Hb _ IH]; intros R O HO.
  { exists R. cbn. by rewrite Z.add_0_r. }
  unfold sizeZ in *. cbn [length] in HO. cbn [length app plus]. rewrite leb_cons.
  rewrite (proj2 (Z.leb_gt w O)), (proj2 (Z.ltb_ge b 128)) by lia.
  destruct (IH (Z.lor R (wrap w (Z.shiftl (b mod 128) O))) (O + 7)) as (R' & ->); [lia|].
  exists R'. f_equal. lia.
Qed.

Lemma leb_u32_split bs l :
  Forall (fun b => 128 <= b) bs -> sizeZ bs <= 5 ->
  exists R', Stream.leb 32 11 0 0 (bs ++ l) =
    Stream.leb 32 (11 - length bs) R' (7 * sizeZ bs) l.
Proof.
  intros Hb Hl. destruct (leb_continue 32 bs (11 - length bs) 0 0 l Hb) as (R' & E); [lia|].
  exists R'. rewrite Z.add_0_l in E. rewrite <- E. f_equal. unfold sizeZ in Hl. lia.
Qed.

(** What [readU32] does with bytes that are no encoding: a run of at most five
    continuation bytes at the end of the code is EndOfFile and consumes it, and after five
    continuation bytes a sixth byte is shifted by 35, which is undefined; no length check
    rejects it. *)
Theorem readU32_malformed (s : FileMgrVector) (bs l : list Z) (b : Z) :
  fv_ok s -> Forall (fun c => 128 <= c) bs ->
  (sizeZ bs <= 5 -> fv_rest s = bs ->
     exists s', FV.readU32 s = (Err EndOfFile, s') /\ fv_rest s' = []) /\
  (sizeZ bs = 5 -> fv_rest s = bs ++ b :: l -> (FV.readU32 s).1 = Undef UB_shift).
Proof.
  intros Hs Hb. destruct (fv_leb_u 32 ltac:(lia) s Hs) as (E1 & Hok & E2).
  fold FV.readU32 in E1, E2.
  split; intros Hl Hr; rewrite Hr in E1, E2; unfold Stream.leb_u, bind in E1, E2.
  - destruct (leb_u32_split bs [] Hb Hl) as (R' & E). rewrite app_nil_r in E. rewrite E in *.
    destruct (11 - length bs)%nat eqn:En; [unfold sizeZ in Hl; lia|]. cbn in E1, E2.
    destruct (FV.readU32 s) as [r s']. cbn in *. subst. eauto.
  - destruct (leb_u32_split bs (b :: l) Hb ltac:(lia)) as (R' & E). rewrite E in *.
    assert (length bs = 5)%nat as Hn by (unfold sizeZ in Hl; lia). rewrite Hn, Hl in *.
    exact E1.
Qed.

Lemma readU32_malformed_witness :
  (FV.readU32 (mkFVMgr [0x80; 0x80; 0x80; 0x80; 0x80; 0x00] 0 Success)).1 = Undef UB_shift.
Proof.
  eapply (readU32_malformed (mkFVMgr [0x80; 0x80; 0x80; 0x80; 0x80; 0x00] 0 Success)
    [0x80; 0x80; 0x80; 0x80; 0x80] [] 0); [|repeat constructor; lia|reflexivity|reflexivity].
  unfold fv_ok, sizeZ. cbn. split; [lia|]. split; [lia|]. repeat constructor; lia.
Defined.

Lemma leb_loop_Code w fuel R O B s : Code (FV.leb_loop w fuel R O B s).2 = Code s.
Proof.
  revert R O B s. induction fuel as [|fuel IH]; intros R O B s; cbn [FV.leb_loop]; [done|].
  destruct (_ =? 0); [done|]. unfold bind, get. destruct (_ <=? Pos s); [done|].
  destruct (FV.next_code s) as [r s1] eqn:E.
  assert (Code s1 = Code s) as <- by (unfold FV.next_code in E; destruct (atZ _ _); by simplify_eq).
  destruct r; [|done..]. destruct (_ <=? _); [done|]. apply IH.
Qed.

Lemma readU32_Code s : Code (FV.readU32 s).2 = Code s.
Proof.
  unfold FV.readU32, bind. pose proof (leb_loop_Code 32 FV.leb_fuel 0 0 0x80 s).
  by destruct (FV.leb_loop _ _ _ _ _ s) as [[[[? ?] ?]| | |] ?].
Qed.

(** The length check of [readName] is computed in 32 bits: a name whose declared
    length, added to the position, passes 2^32 is accepted and copied from past the end
    of the code, instead of being reported as EndOfFile. *)
Theorem readName_length_overflow (s : FileMgrVector) (n : Z) (l : list Z) :
  fv_ok s -> in_u 32 n -> fv_rest s = encode_u32 n ++ l ->
  2 ^ 32 <= sizeZ (Code s) - sizeZ l + n ->
  (FV.readName s).1 = Undef UB_vector.
Proof.
  intros Hs Hn Hr Hw. unfold FV.readName.
  destruct (exact_Ok _ _ s n l (fv_leb_u 32 ltac:(lia)) Hs) as (s' & E & Hs' & Hr').
  { rewrite Hr. by apply leb_u_encode; [lia|..]. }
  fold FV.readU32 in E. pose proof (readU32_Code s) as Hc. rewrite E in Hc. cbn in Hc.
  rewrite (bind_Ok _ _ _ _ _ E). pose proof (sizeZ_fv_rest s' Hs') as Hl.
  rewrite Hr', Hc in Hl. destruct Hs' as (Hp & Hsz & _). rewrite Hc in Hp, Hsz. unfold in_u in Hn.
  rewrite (proj2 (Z.ltb_lt 0 n)) by lia. unfold bind, get, FV.copy_code. rewrite Hc.
  assert (wrap 32 (Pos s' + n) = Pos s' + n - 2 ^ 32) as ->.
  { unfold wrap. rewrite <- (Z_mod_plus_full _ (-1)). apply Z.mod_small. lia. }
  rewrite Z.gtb_ltb. rewrite (proj2 (Z.ltb_ge (sizeZ (Code s)) (Pos s' + n - 2 ^ 32))) by lia.
  rewrite Hc. rewrite (proj2 (Z.leb_gt (Pos s' + n) (sizeZ (Code s)))) by lia. done.
Qed.

Lemma readName_length_overflow_witness :
  (FV.readName (mkFVMgr [0xFF; 0xFF; 0xFF; 0xFF; 0x0F; 0x41] 0 Success)).1 = Undef UB_vector.
Proof.
  apply (readName_length_overflow (mkFVMgr [0xFF; 0xFF; 0xFF; 0xFF; 0x0F; 0x41] 0 Success)
    0xFFFFFFFF [0x41]); [|unfold in_u; lia|reflexivity|unfold sizeZ; cbn; lia].
  unfold fv_ok, sizeZ. cbn. split; [lia|]. split; [lia|]. repeat constructor; lia.
Defined.

(** [C26] The vector file manager refines the byte stream: from a position within the code,
    every read but [readName] has exactly the outcome of the same read on the remaining
    bytes (errors and undefined shifts included), leaves exactly what that read leaves and
    keeps the position within the code; [readName] does too unless the bytes run out. *)
Theorem file_manager_refines_stream (s : FileMgrVector) : fv_ok s ->
  let agrees {A} (m : M FileMgrVector A) (sp : M (list Z) A) : Prop :=
    (m s).1 = (sp (fv_rest s)).1 /\ fv_ok (m s).2 /\ fv_rest (m s).2 = (sp (fv_rest s)).2 in
  agrees FV.readByte Stream.next /\
  (forall n, n < 2 ^ 32 -> agrees (FV.readBytes n) (Stream.take_n n)) /\
  agrees FV.readU32 (Stream.leb_u 32) /\ agrees FV.readU64 (Stream.leb_u 64) /\
  agrees FV.readS32 (Stream.leb_s 32) /\ agrees FV.readS64 (Stream.leb_s 64) /\
  agrees FV.readF32 (Stream.le_num 4) /\ agrees FV.readF64 (Stream.le_num 8) /\
  (agrees FV.readName Stream.name \/ (Stream.name (fv_rest s)).1 = Err EndOfFile).
Proof.
  intros Hs agrees. split; [by apply fv_readByte|]. split; [intros n Hn; by apply fv_readBytes|].
  split; [by apply (fv_leb_u 32)|]. split; [by apply (fv_leb_u 64)|].
  split; [by apply fv_readS32|]. split; [by apply fv_readS64|].
  split; [by apply (fv_float 32 4)|]. split; [by apply (fv_float 64 8)|].
  destruct (fv_name s Hs) as [H|[H _]]; [left; exact H|right; exact H].
Qed.

Lemma file_manager_refines_stream_witness :
  (FV.readByte leb_example).1 = Ok 0x80 /\ fv_rest (FV.readByte leb_example).2 = [0x7F; 5].
Proof.
  destruct (file_manager_refines_stream leb_example leb_example_ok) as ((E1 & _ & E2) & _).
  split; [exact E1|exact E2].
Defined.
