(* ===== verification/Loader.v ===== *)
(** * The loader: lib/ast/*.cpp, lib/loader/loader.cpp

    One definition per [loadBinary].  They are written against the [FileMgr] class, as the
    code is written against the abstract file manager.  A loop that reads until an end
    marker, and a loop over a count that comes from the input, take fuel; every iteration
    reads at least one byte, so more fuel than bytes is enough (see LoaderFacts). *)
From stdpp Require Import base list numbers option strings.
From Stdlib Require Import ZArith Lia.
From S2P Require Import Prelude Types Instruction AST FileMgr.
#[local] Open Scope Z_scope.

Section Loader.
Context {F : Type} `{FileMgr F}.

(** [for (uint32_t i = 0; i < VecCnt; ++i)] over one item per iteration. *)
Fixpoint load_n {A} (fuel : nat) (VecCnt : Z) (item : M F A) : M F (list A) :=
  if VecCnt <=? 0 then ret []
  else match fuel with
  | O => nofuel
  | S fuel' =>
      let* x := item in
      let* xs := load_n fuel' (VecCnt - 1) item in
      ret (x :: xs)
  end.

(** [Section::loadToVector], and the same loop where it is written out. *)
Definition loadToVector {A} (fuel : nat) (item : M F A) : M F (list A) :=
  let* VecCnt := readU32 in load_n fuel VecCnt item.

(** ** type.cpp *)

Definition loadLimit : M F Limit :=
  let* Type_ := readByte in
  if negb (Type_ =? 0x00) && negb (Type_ =? 0x01) then throw InvalidGrammar
  else
    let* Min_ := readU32 in
    if Type_ =? 0x01 then
      let* Max_ := readU32 in ret (mkLimit HasMinMax Min_ Max_)
    else ret (mkLimit HasMin Min_ 0).

(** The switch that admits the four value types. *)
Definition checkValType (b : Z) : res ValType :=
  match ValType_of_byte b with
  | Some VT_I32 => Ok VT_I32
  | Some VT_I64 => Ok VT_I64
  | Some VT_F32 => Ok VT_F32
  | Some VT_F64 => Ok VT_F64
  | _ => Err InvalidGrammar
  end.

Definition loadValType : M F ValType := let* b := readByte in lift (checkValType b).

Definition loadFunctionType (fuel : nat) : M F FunctionType :=
  let* b := readByte in
  if negb (bool_decide (ElemType_of_byte b = Some ET_Func)) then throw InvalidGrammar
  else
    let* Params_ := loadToVector fuel loadValType in
    let* Returns_ := loadToVector fuel loadValType in
    ret (mkFunctionType Params_ Returns_).

Definition loadMemoryType : M F MemoryType := let* lim := loadLimit in ret (mkMemoryType lim).

Definition loadTableType : M F TableType :=
  let* b := readByte in
  match ElemType_of_byte b with
  | Some ET_FuncRef => let* lim := loadLimit in ret (mkTableType ET_FuncRef lim)
  | _ => throw InvalidGrammar
  end.

(** Both bytes are read before either is checked. *)
Definition loadGlobalType : M F GlobalType :=
  let* t := readByte in
  let* m := readByte in
  let* vt := lift (checkValType t) in
  match ValMut_of_byte m with
  | Some mu => ret (mkGlobalType vt mu)
  | None => throw InvalidGrammar
  end.

(** ** instruction.cpp and expression.cpp *)

(** The switch on a block type, which admits [None] too. *)
Definition loadBlockType : M F ValType :=
  let* b := readByte in
  match ValType_of_byte b with
  | Some t => ret t
  | None => throw InvalidGrammar
  end.

(** [makeInstructionNode(Code)] for the byte of an opcode. *)
Definition makeNode (b : Z) : res Instr :=
  match OpCode_of_byte b with
  | Some c => makeInstructionNode c
  | None => Err InvalidGrammar
  end.

Definition loadMemoryInstruction (Code : OpCode) : M F Instr :=
  let memarg :=
    let* Align_ := readU32 in
    let* Offset_ := readU32 in
    ret (MemoryInstruction Code Align_ Offset_) in
  if bool_decide (Code = Memory__grow) || bool_decide (Code = Memory__size) then
    let* b := readByte in
    if b =? 0x00 then ret (MemoryInstruction Code 0 0) else memarg
  else memarg.

Definition loadConstInstruction (Code : OpCode) : M F Instr :=
  match Code with
  | I32__const => let* n := readS32 in ret (ConstInstruction Code (mkVariant U32 n))
  | I64__const => let* n := readS64 in ret (ConstInstruction Code (mkVariant U64 n))
  | F32__const => let* n := readF32 in ret (ConstInstruction Code (mkVariant FLT n))
  | F64__const => let* n := readF64 in ret (ConstInstruction Code (mkVariant DBL n))
  | _ => throw InvalidGrammar
  end.

Definition loadCallInstruction (Code : OpCode) : M F Instr :=
  let* FuncIdx_ := readU32 in
  if bool_decide (Code = Op_Call_indirect) then
    let* b := readByte in
    if negb (b =? 0x00) then throw InvalidGrammar else ret (CallControlInstruction Code FuncIdx_)
  else ret (CallControlInstruction Code FuncIdx_).

(** [loadInstrs]: the loop of [Expression::loadBinary] and of the body of a block, until
    the End byte.  [loadIfElse]: the loop of an if, which Else bytes switch to the else
    part.  [loadInstr]: the virtual [loadBinary] of a node. *)
Fixpoint loadInstrs (fuel : nat) : M F (list Instr) :=
  match fuel with
  | O => nofuel
  | S fuel' =>
      let* b := readByte in
      if b =? byte_of_OpCode Op_End then ret []
      else
        let* node := lift (makeNode b) in
        let* i := loadInstr fuel' node in
        let* l := loadInstrs fuel' in
        ret (i :: l)
  end
with loadIfElse (fuel : nat) (IsElseStatement : bool) : M F (list Instr * list Instr) :=
  match fuel with
  | O => nofuel
  | S fuel' =>
      let* b := readByte in
      if b =? byte_of_OpCode Op_End then ret ([], [])
      else if b =? byte_of_OpCode Op_Else then loadIfElse fuel' true
      else
        let* node := lift (makeNode b) in
        let* i := loadInstr fuel' node in
        let* ie := loadIfElse fuel' IsElseStatement in
        ret (if IsElseStatement then (ie.1, i :: ie.2) else (i :: ie.1, ie.2))
  end
with loadInstr (fuel : nat) (node : Instr) : M F Instr :=
  match fuel with
  | O => nofuel
  | S fuel' =>
      match node with
      | BlockControlInstruction Code _ _ =>
          let* bt := loadBlockType in
          let* body := loadInstrs fuel' in
          ret (BlockControlInstruction Code bt body)
      | IfElseControlInstruction Code _ _ _ =>
          let* bt := loadBlockType in
          let* ie := loadIfElse fuel' false in
          ret (IfElseControlInstruction Code bt ie.1 ie.2)
      | BrControlInstruction Code _ =>
          let* LabelIdx_ := readU32 in ret (BrControlInstruction Code LabelIdx_)
      | BrTableControlInstruction Code _ _ =>
          let* LabelTable_ := loadToVector fuel' readU32 in
          let* LabelIdx_ := readU32 in
          ret (BrTableControlInstruction Code LabelTable_ LabelIdx_)
      | CallControlInstruction Code _ => loadCallInstruction Code
      | VariableInstruction Code _ =>
          let* VarIdx_ := readU32 in ret (VariableInstruction Code VarIdx_)
      | MemoryInstruction Code _ _ => loadMemoryInstruction Code
      | ConstInstruction Code _ => loadConstInstruction Code
      | ControlInstruction _ | ParametricInstruction _ | UnaryNumericInstruction _
      | BinaryNumericInstruction _ => ret node
      end
  end.

(** ** segment.cpp *)

Definition loadGlobalSegment (fuel : nat) : M F GlobalSegment :=
  let* g := loadGlobalType in
  let* e := loadInstrs fuel in
  ret (mkGlobalSegment g e).

Definition loadElementSegment (fuel : nat) : M F ElementSegment :=
  let* TableIdx_ := readU32 in
  let* e := loadInstrs fuel in
  let* FuncIdxes_ := loadToVector fuel readU32 in
  ret (mkElementSegment TableIdx_ e FuncIdxes_).

(** The type byte of a local is cast without a check. *)
Definition loadLocal : M F (Z * option ValType) :=
  let* LocalCnt := readU32 in
  let* b := readByte in
  ret (LocalCnt, ValType_of_byte b).

Definition loadCodeSegment (fuel : nat) : M F CodeSegment :=
  let* SegSize_ := readU32 in
  let* Locals_ := loadToVector fuel loadLocal in
  let* e := loadInstrs fuel in
  ret (mkCodeSegment SegSize_ Locals_ e).

Definition loadDataSegment (fuel : nat) : M F DataSegment :=
  let* MemoryIdx_ := readU32 in
  let* e := loadInstrs fuel in
  let* VecCnt := readU32 in
  let* Data_ := readBytes VecCnt in
  ret (mkDataSegment MemoryIdx_ e Data_).

(** ** description.cpp *)

Definition loadImportDesc : M F ImportDesc :=
  let* ModName_ := readName in
  let* ExtName_ := readName in
  let* b := readByte in
  match ExternalType_of_byte b with
  | Some Ext_Function =>
      let* i := readU32 in
      ret (mkImportDesc ModName_ ExtName_ Ext_Function (Content_Function i))
  | Some Ext_Table =>
      let* t := loadTableType in
      ret (mkImportDesc ModName_ ExtName_ Ext_Table (Content_Table t))
  | Some Ext_Memory =>
      let* m := loadMemoryType in
      ret (mkImportDesc ModName_ ExtName_ Ext_Memory (Content_Memory m))
  | Some Ext_Global =>
      let* g := loadGlobalType in
      ret (mkImportDesc ModName_ ExtName_ Ext_Global (Content_Global g))
  | None => throw InvalidGrammar
  end.

Definition loadExportDesc : M F ExportDesc :=
  let* ExtName_ := readName in
  let* b := readByte in
  match ExternalType_of_byte b with
  | Some t => let* ExtIdx_ := readU32 in ret (mkExportDesc ExtName_ t ExtIdx_)
  | None => throw InvalidGrammar
  end.

(** ** section.cpp and module.cpp *)

(** [Section::loadBinary]: the size, then the content. *)
Definition loadSection {A} (loadContent : Z -> M F A) : M F A :=
  let* ContentSize := readU32 in loadContent ContentSize.

(** One iteration of the section loop: a new section replaces an earlier one of its kind. *)
Definition loadOneSection (fuel : nat) (NewSectionId : Z) (m : AModule) : M F AModule :=
  let vec {A} (item : M F A) : M F (list A) := loadSection (fun _ => loadToVector fuel item) in
  match NewSectionId with
  | 0x00 => let* c := loadSection readBytes in ret (set_CustomSec c m)
  | 0x01 => let* c := vec (loadFunctionType fuel) in ret (set_TypeSec c m)
  | 0x02 => let* c := vec loadImportDesc in ret (set_ImportSec c m)
  | 0x03 => let* c := vec readU32 in ret (set_FunctionSec c m)
  | 0x04 => let* c := vec loadTableType in ret (set_TableSec c m)
  | 0x05 => let* c := vec loadMemoryType in ret (set_MemorySec c m)
  | 0x06 => let* c := vec (loadGlobalSegment fuel) in ret (set_GlobalSec c m)
  | 0x07 => let* c := vec loadExportDesc in ret (set_ExportSec c m)
  | 0x08 => let* c := loadSection (fun _ => readU32) in ret (set_StartSec c m)
  | 0x09 => let* c := vec (loadElementSegment fuel) in ret (set_ElementSec c m)
  | 0x0A => let* c := vec (loadCodeSegment fuel) in ret (set_CodeSec c m)
  | 0x0B => let* c := vec (loadDataSegment fuel) in ret (set_DataSec c m)
  | _ => throw InvalidGrammar
  end.

(** The section loop: the end of the file where a section id is expected ends it. *)
Fixpoint loadSections (fuel : nat) (m : AModule) : M F AModule :=
  match fuel with
  | O => nofuel
  | S fuel' =>
      let* Res := try readByte in
      match Res with
      | inl id => let* m' := loadOneSection fuel' id m in loadSections fuel' m'
      | inr e => if bool_decide (e = EndOfFile) then ret m else throw e
      end
  end.

Definition loadModule (fuel : nat) : M F AModule :=
  let* Magic_ := readBytes 4 in
  let* Version_ := readBytes 4 in
  loadSections fuel (set_header Magic_ Version_ empty_module).

End Loader.

(** ** loader.cpp *)

(** [Loader::parseModule(const std::vector<uint8_t> &)]. *)
Definition parseModule (fuel : nat) (Code : list Z) : M FileMgrVector AModule :=
  FV.setCode Code ;;; loadModule fuel.

(** [Loader::parseModule(const std::string &)], with the contents of the files. *)
Definition parseModulePath (fs : list Z -> option (list Z)) (fuel : nat) (FilePath : list Z)
    : M FileMgrFStream AModule :=
  FS.setPath fs FilePath ;;; loadModule fuel.

(** The class [Loader]: both file managers are kept between the calls. *)
Record Loader : Type := mkLoader { FSMgr : FileMgrFStream; FVMgr : FileMgrVector }.

Definition newLoader : Loader := mkLoader newFileMgrFStream newFileMgrVector.
Definition onFSMgr {A} (m : M FileMgrFStream A) : M Loader A :=
  zoom FSMgr (fun x l => mkLoader x (FVMgr l)) m.
Definition onFVMgr {A} (m : M FileMgrVector A) : M Loader A :=
  zoom FVMgr (fun x l => mkLoader (FSMgr l) x) m.
