(* ===== verification/LoaderFacts.v ===== *)
(** * The loader: refinement, termination, well-formed output *)
From stdpp Require Import base list numbers option strings.
From Stdlib Require Import ZArith Lia.
From S2P Require Import Prelude Types Instruction AST FileMgr FileMgrFacts Loader.
#[local] Open Scope Z_scope.

(** ** Refinement: the loader over a byte source is the loader over the byte stream *)

Lemma leb_range w fuel R O l r o b l' :
  0 <= w -> in_u w R -> Stream.leb w fuel R O l = (Ok (r, o, b), l') -> in_u w r.
Proof.
  intros Hw. revert R O l. induction fuel as [|fuel IH]; intros R O l HR E; [done|].
  cbn [Stream.leb] in E. inv_binds. destruct (_ <=? _); [done|].
  set (R' := Z.lor R _) in E.
  assert (in_u w R') by (apply lor_in_u; [done..|by apply wrap_range]).
  destruct (_ <? 128); [unfold ret in E; by simplify_eq|]. by eapply IH.
Qed.

Lemma leb_u_range w a : 0 <= w -> (exists l l', Stream.leb_u w l = (Ok a, l')) -> in_u w a.
Proof.
  intros Hw (l & l' & E). unfold Stream.leb_u in E. inv_bind E. destruct a0 as [[r o] b].
  unfold ret in E. simplify_eq. eapply leb_range; [done| |done].
  unfold in_u. pose proof (Z.pow_pos_nonneg 2 w). lia.
Qed.

Section LoaderRefines.
Context {F : Type} `{ByteSource F}.

#[local] Abbreviation ref := (refines src_ok src_rest).

Lemma ref_readBytes n :
  (exists l l', readU32 (F := list Z) l = (Ok n, l')) -> ref (readBytes n) (readBytes n).
Proof.
  intros Hn. apply src_readBytes.
  apply leb_u_range in Hn; [|done]. unfold in_u in Hn. lia.
Qed.
#[local] Hint Resolve ref_readBytes : refine.

(** Walk down a computation: sequencing, the reads, and the tests of the code. *)
Ltac ref_step :=
  match goal with
  | |- refines _ _ (bind _ _) (bind _ _) => apply refines_bind; [|intros ? ?]
  | |- refines _ _ (let _ := _ in _) _ => cbv zeta
  | |- refines _ _ (if ?b then _ else _) (if ?b then _ else _) => destruct b
  | |- refines _ _ (match ?x with _ => _ end) (match ?x with _ => _ end) => destruct x
  | |- refines _ _ (let (_, _) := ?x in _) _ => destruct x
  end.
Ltac ref_solve := repeat ref_step; eauto 3 with refine.

Lemma ref_load_n {A} fuel n (item : M F A) item' :
  ref item item' -> ref (load_n fuel n item) (load_n fuel n item').
Proof.
  intros Hi. revert n. induction fuel as [|fuel IH]; intros n; cbn [load_n]; ref_solve.
Qed.

Lemma ref_loadToVector {A} fuel (item : M F A) item' :
  ref item item' -> ref (loadToVector fuel item) (loadToVector fuel item').
Proof. intros Hi. unfold loadToVector. ref_solve. by apply ref_load_n. Qed.
#[local] Hint Resolve ref_load_n ref_loadToVector : refine.

Lemma ref_loadLimit : ref loadLimit loadLimit.
Proof. unfold loadLimit. ref_solve. Qed.
Lemma ref_loadValType : ref loadValType loadValType.
Proof. unfold loadValType. ref_solve. Qed.
#[local] Hint Resolve ref_loadLimit ref_loadValType : refine.
Lemma ref_loadFunctionType fuel : ref (loadFunctionType fuel) (loadFunctionType fuel).
Proof. unfold loadFunctionType. ref_solve. Qed.
Lemma ref_loadMemoryType : ref loadMemoryType loadMemoryType.
Proof. unfold loadMemoryType. ref_solve. Qed.
Lemma ref_loadTableType : ref loadTableType loadTableType.
Proof. unfold loadTableType. ref_solve. Qed.
Lemma ref_loadGlobalType : ref loadGlobalType loadGlobalType.
Proof. unfold loadGlobalType. ref_solve. Qed.
Lemma ref_loadBlockType : ref loadBlockType loadBlockType.
Proof. unfold loadBlockType. ref_solve. Qed.
#[local] Hint Resolve ref_loadFunctionType ref_loadMemoryType ref_loadTableType
  ref_loadGlobalType ref_loadBlockType : refine.

Lemma ref_loadInstrs fuel :
  ref (loadInstrs fuel) (loadInstrs fuel) /\
  (forall e, ref (loadIfElse fuel e) (loadIfElse fuel e)) /\
  (forall i, ref (loadInstr fuel i) (loadInstr fuel i)).
Proof.
  induction fuel as [|fuel (IH1 & IH2 & IH3)];
    [split; [|split]; intros; eauto with refine|].
  split; [|split; [intros e|intros [] ]]; cbn [loadInstrs loadIfElse loadInstr];
    unfold loadCallInstruction, loadMemoryInstruction, loadConstInstruction; ref_solve.
Qed.

Lemma ref_loadExpr fuel : ref (loadInstrs fuel) (loadInstrs fuel).
Proof. apply ref_loadInstrs. Qed.
#[local] Hint Resolve ref_loadExpr : refine.

Lemma ref_loadImportDesc : ref loadImportDesc loadImportDesc.
Proof. unfold loadImportDesc. ref_solve. Qed.
Lemma ref_loadExportDesc : ref loadExportDesc loadExportDesc.
Proof. unfold loadExportDesc. ref_solve. Qed.
Lemma ref_loadGlobalSegment fuel : ref (loadGlobalSegment fuel) (loadGlobalSegment fuel).
Proof. unfold loadGlobalSegment. ref_solve. Qed.
Lemma ref_loadElementSegment fuel : ref (loadElementSegment fuel) (loadElementSegment fuel).
Proof. unfold loadElementSegment. ref_solve. Qed.
Lemma ref_loadLocal : ref loadLocal loadLocal.
Proof. unfold loadLocal. ref_solve. Qed.
#[local] Hint Resolve ref_loadLocal : refine.
Lemma ref_loadCodeSegment fuel : ref (loadCodeSegment fuel) (loadCodeSegment fuel).
Proof. unfold loadCodeSegment. ref_solve. Qed.
Lemma ref_loadDataSegment fuel : ref (loadDataSegment fuel) (loadDataSegment fuel).
Proof. unfold loadDataSegment. ref_solve. Qed.
#[local] Hint Resolve ref_loadImportDesc ref_loadExportDesc ref_loadGlobalSegment
  ref_loadElementSegment ref_loadCodeSegment ref_loadDataSegment : refine.

Lemma ref_loadOneSection fuel id m : ref (loadOneSection fuel id m) (loadOneSection fuel id m).
Proof.
  unfold loadOneSection, loadSection.
  destruct id as [|p|p]; [|do 4 (try destruct p as [p|p|])|]; ref_solve.
Qed.
#[local] Hint Resolve ref_loadOneSection : refine.

(** The end of the bytes where a section id is expected is seen by any manager. *)
Lemma agrees_try_readByte {A} (k : Z + ErrCode -> M F A) k' :
  (forall b, agrees src_ok src_rest (k (inl b)) (k' (inl b))) ->
  (forall s l, (k (inr EndOfFile) s).1 = (k' (inr EndOfFile) l).1) ->
  agrees src_ok src_rest (bind (try readByte) k) (bind (try readByte) k').
Proof.
  intros Hk He s Hs. unfold bind, try. pose proof (src_readByte s Hs) as Hr.
  destruct (src_rest s) as [|b l] eqn:El.
  - pose proof (src_readByte_end s Hs El) as Ee. destruct (readByte s) as [r s'] in *. cbn in Ee.
    subst r. left. apply He.
  - destruct Hr as [[E1 E2]|[E1 _]]; [|done]. destruct (readByte s) as [r s']. cbn in E1, E2. subst r.
    destruct (E2 b eq_refl) as [Hok <-]. by apply Hk.
Qed.

Lemma ref_loadSections fuel m :
  agrees src_ok src_rest (loadSections fuel m) (loadSections fuel m).
Proof.
  revert m. induction fuel as [|fuel IH]; intros m; cbn [loadSections]; [by intros s ?; left|].
  apply agrees_try_readByte; [|done]. intros b.
  apply agrees_bind; [apply ref_loadOneSection|intros m' _; apply IH].
Qed.

Lemma ref_loadModule fuel : agrees src_ok src_rest (loadModule fuel) (loadModule fuel).
Proof.
  unfold loadModule. repeat (apply agrees_bind; [apply src_readBytes; lia|intros ? ?]).
  apply ref_loadSections.
Qed.
End LoaderRefines.

(** ** Termination: more fuel than bytes is enough *)

(** On fewer than [fuel] bytes [m] does not run out of fuel, never gives bytes back, and
    consumes at least [d] of them when it succeeds. *)
Definition bounded {A} (fuel d : nat) (m : M (list Z) A) : Prop :=
  forall l, (length l < fuel)%nat ->
    (m l).1 <> NoFuel /\ (length (m l).2 <= length l)%nat /\
    (forall a, (m l).1 = Ok a -> (length (m l).2 + d <= length l)%nat).

Create HintDb bd.
#[export] Hint Constants Opaque : bd.
#[export] Hint Extern 1 (_ <= _)%nat => lia : bd.

Lemma bounded_bind {A B} d1 fuel d (m : M (list Z) A) (k : A -> M (list Z) B) :
  bounded fuel d1 m -> (forall a, bounded (fuel - d1) (d - d1) (k a)) ->
  bounded fuel d (bind m k).
Proof.
  intros Hm Hk l Hl. unfold bind. destruct (Hm l Hl) as (H1 & H2 & H3).
  destruct (m l) as [[a|e|u|] l1]; cbn in *; try done.
  specialize (H3 a eq_refl). destruct (Hk a l1 ltac:(lia)) as (K1 & K2 & K3).
  split; [done|]. split; [lia|]. intros b Hb. specialize (K3 b Hb). lia.
Qed.

Lemma bounded_try {A} fuel d (m : M (list Z) A) : bounded fuel d m -> bounded fuel 0 (try m).
Proof.
  intros Hm l Hl. unfold try. destruct (Hm l Hl) as (H1 & H2 & H3).
  destruct (m l) as [[a|e|u|] l1]; cbn in *; try done; (split; [done|]; split; [done|]; lia).
Qed.

Lemma bounded_ret {A} fuel d (a : A) : (d <= 0)%nat -> bounded fuel d (ret a).
Proof. intros Hd l Hl. cbn. split; [done|]. split; [done|]. lia. Qed.
Lemma bounded_throw {A} fuel d e : bounded fuel d (throw (A := A) e).
Proof. by intros l Hl. Qed.
Lemma bounded_lift {A} fuel d (r : res A) : r <> NoFuel -> (d <= 0)%nat -> bounded fuel d (lift r).
Proof. intros Hr Hd l Hl. cbn. split; [done|]. split; [done|]. lia. Qed.

Lemma bounded_leb w n R O fuel :
  w + 7 <= O + 7 * Z.of_nat n -> O < w + 7 -> bounded fuel 1 (Stream.leb w n R O).
Proof.
  revert R O fuel. induction n as [|n IH]; intros R O fuel Hn HO l Hl; [lia|].
  destruct l as [|b l]; cbn -[Z.leb Z.ltb]; [done|].
  destruct (Z.leb_spec w O); cbn -[Z.leb Z.ltb]; [split; [done|]; split; [lia|done]|].
  destruct (_ <? _); cbn; [split; [done|]; split; lia|]. cbn in Hl.
  destruct (IH (Z.lor R (wrap w (Z.shiftl (b mod 128) O))) (O + 7) fuel ltac:(lia) ltac:(lia) l
    ltac:(lia)) as (K1 & K2 & K3).
  split; [done|]. split; [lia|]. intros a Ha. specialize (K3 a Ha). lia.
Qed.

Lemma bounded_readByte fuel d : (d <= 1)%nat -> bounded fuel d (readByte (F := list Z)).
Proof. intros Hd [|b l] Hl; cbn in *; (split; [done|]; split; [lia|]; intros; [done||lia]). Qed.

Lemma bounded_leb_u w fuel d :
  w = 32 \/ w = 64 -> (d <= 1)%nat -> bounded fuel d (Stream.leb_u w).
Proof.
  intros Hw Hd. apply (bounded_bind 1); [apply bounded_leb; lia|].
  intros [[? ?] ?]. apply bounded_ret. lia.
Qed.

Lemma bounded_leb_s w fuel d :
  w = 32 \/ w = 64 -> (d <= 1)%nat -> bounded fuel d (Stream.leb_s w).
Proof.
  intros Hw Hd. apply (bounded_bind 1); [apply bounded_leb; lia|].
  intros [[? ?] ?]. destruct (_ && _); apply bounded_ret; lia.
Qed.

Lemma bounded_take_n n fuel d : Z.of_nat d <= Z.max 0 n -> bounded fuel d (Stream.take_n n).
Proof.
  intros Hd l Hl. unfold Stream.take_n, sizeZ. destruct (Z.leb_spec n (Z.of_nat (length l))); cbn.
  - rewrite length_drop. split; [done|]. split; [lia|]. intros a Ha. lia.
  - split; [done|]. split; [lia|done].
Qed.

Lemma bounded_readU32 fuel d : (d <= 1)%nat -> bounded fuel d (readU32 (F := list Z)).
Proof. apply bounded_leb_u. auto. Qed.
Lemma bounded_readS32 fuel d : (d <= 1)%nat -> bounded fuel d (readS32 (F := list Z)).
Proof. apply bounded_leb_s. auto. Qed.
Lemma bounded_readS64 fuel d : (d <= 1)%nat -> bounded fuel d (readS64 (F := list Z)).
Proof. apply bounded_leb_s. auto. Qed.
Lemma bounded_readF32 fuel d : (d <= 1)%nat -> bounded fuel d (readF32 (F := list Z)).
Proof.
  intros Hd. apply (bounded_bind 1); [apply bounded_take_n; lia|]. intros. apply bounded_ret. lia.
Qed.
Lemma bounded_readF64 fuel d : (d <= 1)%nat -> bounded fuel d (readF64 (F := list Z)).
Proof.
  intros Hd. apply (bounded_bind 1); [apply bounded_take_n; lia|]. intros. apply bounded_ret. lia.
Qed.
Lemma bounded_readBytes n fuel d : (d <= 0)%nat -> bounded fuel d (readBytes (F := list Z) n).
Proof. intros. apply bounded_take_n. lia. Qed.
Lemma bounded_readName fuel d : (d <= 1)%nat -> bounded fuel d (readName (F := list Z)).
Proof.
  intros Hd. apply (bounded_bind 1); [apply bounded_leb_u; [auto|lia]|].
  intros. apply bounded_take_n. lia.
Qed.

#[export] Hint Resolve bounded_ret bounded_throw bounded_readByte bounded_readU32
  bounded_readS32 bounded_readS64 bounded_readF32 bounded_readF64 bounded_readBytes
  bounded_readName : bd.

Ltac bd_step :=
  match goal with
  | |- bounded _ _ (bind _ _) =>
      first [ apply (bounded_bind 1); [solve [eauto 3 with bd]|intros ?]
            | apply (bounded_bind 0); [|intros ?] ]
  | |- bounded _ _ (let _ := _ in _) => cbv zeta
  | |- bounded _ _ (if ?b then _ else _) => destruct b
  | |- bounded _ _ (match ?x with _ => _ end) => destruct x
  end.
Ltac bd_solve := repeat bd_step; eauto 3 with bd.

Lemma checkValType_fuel b : checkValType b <> NoFuel.
Proof. unfold checkValType. by destruct (ValType_of_byte b) as [[]|]. Qed.
Lemma makeNode_fuel b : makeNode b <> NoFuel.
Proof.
  unfold makeNode, makeInstructionNode. destruct (OpCode_of_byte b) as [c|]; [|done].
  by destruct (dispatchInstruction c).
Qed.
#[export] Hint Resolve bounded_lift checkValType_fuel makeNode_fuel : bd.

Lemma bounded_load_n {A} fuel n (item : M (list Z) A) fuel' :
  (forall f, (f <= fuel)%nat -> bounded f 1 item) -> (fuel' <= fuel)%nat ->
  bounded fuel' 0 (load_n fuel n item).
Proof.
  revert n fuel'. induction fuel as [|fuel IH]; intros n fuel' Hi Hf; cbn [load_n].
  { intros l Hl. lia. }
  destruct (_ <=? _); [eauto with bd|].
  apply (bounded_bind 1); [apply Hi; lia|intros x].
  apply (bounded_bind 0); [apply IH; [|lia]; intros; apply Hi; lia|eauto with bd].
Qed.

Lemma bounded_loadToVector {A} fuel fuel' d (item : M (list Z) A) :
  (forall f, (f <= fuel)%nat -> bounded f 1 item) -> (fuel' <= S fuel)%nat -> (d <= 1)%nat ->
  bounded fuel' d (loadToVector fuel item).
Proof.
  intros. apply (bounded_bind 1); [eauto with bd|intros n].
  replace (d - 1)%nat with 0%nat by lia. apply bounded_load_n; [done|lia].
Qed.
#[export] Hint Resolve bounded_loadToVector : bd.

Lemma bounded_loadLimit fuel d : (d <= 1)%nat -> bounded fuel d loadLimit.
Proof. intros. unfold loadLimit. bd_solve. Qed.
Lemma bounded_loadValType fuel d : (d <= 1)%nat -> bounded fuel d loadValType.
Proof. intros. unfold loadValType. bd_solve. Qed.
Lemma bounded_loadGlobalType fuel d : (d <= 1)%nat -> bounded fuel d loadGlobalType.
Proof. intros. unfold loadGlobalType. bd_solve. Qed.
Lemma bounded_loadTableType fuel d : (d <= 1)%nat -> bounded fuel d loadTableType.
Proof. intros. unfold loadTableType, loadLimit. bd_solve. Qed.
Lemma bounded_loadMemoryType fuel d : (d <= 1)%nat -> bounded fuel d loadMemoryType.
Proof.
  intros. unfold loadMemoryType. apply (bounded_bind 1); [by apply bounded_loadLimit|]. bd_solve.
Qed.
Lemma bounded_loadBlockType fuel d : (d <= 1)%nat -> bounded fuel d loadBlockType.
Proof. intros. unfold loadBlockType. bd_solve. Qed.
#[export] Hint Resolve bounded_loadLimit bounded_loadValType bounded_loadGlobalType
  bounded_loadTableType bounded_loadMemoryType bounded_loadBlockType : bd.
Lemma bounded_loadFunctionType fuel fuel' d :
  (fuel' <= fuel)%nat -> (d <= 1)%nat -> bounded fuel' d (loadFunctionType fuel).
Proof. intros. unfold loadFunctionType. bd_solve. Qed.

Lemma bounded_loadInstrs fuel :
  (forall fuel' d, (fuel' <= fuel)%nat -> (d <= 1)%nat -> bounded fuel' d (loadInstrs fuel)) /\
  (forall fuel' d e, (fuel' <= fuel)%nat -> (d <= 1)%nat -> bounded fuel' d (loadIfElse fuel e)) /\
  (forall fuel' d i, (fuel' <= fuel)%nat -> (d <= 0)%nat -> bounded fuel' d (loadInstr fuel i)).
Proof.
  induction fuel as [|fuel (IH1 & IH2 & IH3)].
  { split; [|split]; intros; intros l ?; lia. }
  split; [|split; [intros fuel' d e|intros fuel' d []]]; intros;
    cbn [loadInstrs loadIfElse loadInstr];
    unfold loadCallInstruction, loadMemoryInstruction, loadConstInstruction; bd_solve.
Qed.

Lemma bounded_loadExpr fuel fuel' d :
  (fuel' <= fuel)%nat -> (d <= 1)%nat -> bounded fuel' d (loadInstrs fuel).
Proof. apply bounded_loadInstrs. Qed.
#[export] Hint Resolve bounded_loadExpr bounded_loadFunctionType : bd.

Lemma bounded_loadLocal fuel d : (d <= 1)%nat -> bounded fuel d loadLocal.
Proof. intros. unfold loadLocal. bd_solve. Qed.
Lemma bounded_loadImportDesc fuel d : (d <= 1)%nat -> bounded fuel d loadImportDesc.
Proof. intros. unfold loadImportDesc. bd_solve. Qed.
Lemma bounded_loadExportDesc fuel d : (d <= 1)%nat -> bounded fuel d loadExportDesc.
Proof. intros. unfold loadExportDesc. bd_solve. Qed.
#[export] Hint Resolve bounded_loadLocal bounded_loadImportDesc bounded_loadExportDesc : bd.

Section Segments.
Context (fuel fuel' d : nat) (Hf : (fuel' <= fuel)%nat) (Hd : (d <= 1)%nat).
Lemma bounded_loadGlobalSegment : bounded fuel' d (loadGlobalSegment fuel).
Proof using Hf Hd. unfold loadGlobalSegment. bd_solve. Qed.
Lemma bounded_loadElementSegment : bounded fuel' d (loadElementSegment fuel).
Proof using Hf Hd. unfold loadElementSegment. bd_solve. Qed.
Lemma bounded_loadCodeSegment : bounded fuel' d (loadCodeSegment fuel).
Proof using Hf Hd. unfold loadCodeSegment. bd_solve. Qed.
Lemma bounded_loadDataSegment : bounded fuel' d (loadDataSegment fuel).
Proof using Hf Hd. unfold loadDataSegment. bd_solve. Qed.
End Segments.
#[export] Hint Resolve bounded_loadGlobalSegment bounded_loadElementSegment
  bounded_loadCodeSegment bounded_loadDataSegment : bd.

Lemma bounded_loadOneSection fuel fuel' id m :
  (fuel' <= fuel)%nat -> bounded fuel' 0 (loadOneSection fuel id m).
Proof.
  intros Hf. unfold loadOneSection, loadSection.
  destruct id as [|p|p]; [|do 4 (try destruct p as [p|p|])|]; bd_solve.
Qed.

Lemma bounded_loadSections fuel fuel' m :
  (fuel' <= fuel)%nat -> bounded fuel' 0 (loadSections fuel m).
Proof.
  revert fuel' m. induction fuel as [|fuel IH]; intros fuel' m Hf; [intros l ?; lia|].
  cbn [loadSections]. unfold bind at 1, try. intros l Hl.
  destruct l as [|id l]; cbn -[loadOneSection loadSections]; [done|]. cbn in Hl.
  assert (bounded fuel 0 (let* m' := loadOneSection fuel id m in loadSections fuel m')) as Hb.
  { apply (bounded_bind 0); [by apply bounded_loadOneSection|]. intros. apply IH. lia. }
  destruct (Hb l ltac:(lia)) as (H1 & H2 & H3). split; [done|]. split; [lia|].
  intros a Ha. specialize (H3 a Ha). lia.
Qed.

Lemma bounded_loadModule fuel : bounded fuel 0 (loadModule fuel).
Proof.
  do 2 (apply (bounded_bind 0); [eauto with bd|intros ?]). apply bounded_loadSections. lia.
Qed.

Lemma setCode_ok (Code : list Z) s :
  Code <> [] -> Forall is_byte Code -> sizeZ Code < 2 ^ 32 - 8 ->
  FV.setCode Code s = (Ok tt, mkFVMgr Code 0 Success) /\
  fv_ok (mkFVMgr Code 0 Success) /\ fv_rest (mkFVMgr Code 0 Success) = Code.
Proof.
  intros Hne Hb Hl. unfold FV.setCode. destruct (Z.eqb_spec (sizeZ Code) 0) as [E|_].
  { destruct Hne. apply nil_length_inv. unfold sizeZ in E. lia. }
  split; [done|]. split; [|done]. split; [cbn; unfold sizeZ; lia|done].
Qed.

Lemma fv_loadModule fuel : agrees fv_ok fv_rest (loadModule fuel) (loadModule fuel).
Proof. exact (ref_loadModule (F := FileMgrVector) fuel). Qed.

(** [C32] Parsing terminates on every byte string shorter than 2^32 - 8: with one unit of
    fuel more than there are bytes, no loop of the loader runs out of fuel, whatever the
    counts and nesting the bytes claim; from any earlier state of the file manager. *)
Theorem parseModule_terminates (Code : list Z) (s : FileMgrVector) :
  Forall is_byte Code -> sizeZ Code < 2 ^ 32 - 8 ->
  (parseModule (S (length Code)) Code s).1 <> NoFuel.
Proof.
  intros Hb Hl. unfold parseModule, bind. destruct (decide (Code = [])) as [->|Hne]; [done|].
  destruct (setCode_ok Code s Hne Hb Hl) as (-> & Hok & Hr).
  destruct (bounded_loadModule (S (length Code)) Code) as (Hn & _); [lia|].
  destruct (fv_loadModule (S (length Code)) _ Hok) as [E|[_ [u E]]];
    [rewrite E, Hr; exact Hn|by rewrite E].
Qed.

Definition empty_wasm : list Z := [0; 0x61; 0x73; 0x6D; 1; 0; 0; 0].

Lemma empty_wasm_bytes : Forall is_byte empty_wasm.
Proof. repeat constructor; unfold is_byte; lia. Qed.

Lemma parseModule_terminates_witness :
  (parseModule 9 empty_wasm newFileMgrVector).1 <> NoFuel.
Proof.
  apply (parseModule_terminates empty_wasm newFileMgrVector); [exact empty_wasm_bytes|].
  unfold sizeZ. cbn. lia.
Defined.

(** ** What the loader produces *)

Definition post {F A} (P : A -> Prop) (m : M F A) : Prop :=
  forall s a s', m s = (Ok a, s') -> P a.

Section Post.
Context {F : Type} `{FileMgr F}.

Lemma post_bind {A B} (Q : A -> Prop) (P : B -> Prop) (m : M F A) k :
  post Q m -> (forall a, Q a -> post P (k a)) -> post P (bind m k).
Proof. intros Hm Hk s b s' E. inv_bind E. eapply Hk; eauto. Qed.

Lemma post_any {A} (m : M F A) : post (fun _ => True) m.
Proof. done. Qed.
Lemma post_ret {A} (P : A -> Prop) a : P a -> post (F := F) P (ret a).
Proof. intros HP s b s' E. by inversion E; subst. Qed.
Lemma post_throw {A} (P : A -> Prop) e : post (F := F) P (throw e).
Proof. done. Qed.
Lemma post_nofuel {A} (P : A -> Prop) : post (F := F) P nofuel.
Proof. done. Qed.

Lemma post_load_n {A} (P : A -> Prop) fuel n (item : M F A) :
  post P item -> post (Forall P) (load_n fuel n item).
Proof.
  intros Hi. revert n. induction fuel as [|fuel IH]; intros n; cbn [load_n];
    destruct (_ <=? _); try (by apply post_ret; constructor); [done|].
  eapply post_bind; [exact Hi|intros x Hx]. eapply post_bind; [apply IH|intros xs Hxs].
  by apply post_ret; constructor.
Qed.

Lemma post_loadToVector {A} (P : A -> Prop) fuel (item : M F A) :
  post P item -> post (Forall P) (loadToVector fuel item).
Proof. intros Hi. eapply post_bind; [apply post_any|]. intros. by apply post_load_n. Qed.

Lemma post_makeNode b :
  post (F := F) (fun i => dispatchInstruction (getOpCode i) = Some (node_class i)) (lift (makeNode b)).
Proof.
  intros s i s' E. unfold lift, makeNode, makeInstructionNode in E.
  destruct (OpCode_of_byte b) as [c|]; [|done].
  destruct (dispatchInstruction c) as [cl|] eqn:Hd; [|done]. by destruct cl; simplify_eq.
Qed.

Lemma post_leaf {A} (m : M F A) (k : A -> Instr) c cl :
  (forall a, getOpCode (k a) = c /\ node_class (k a) = cl /\
     well_classed (k a) = bool_decide (dispatchInstruction c = Some cl)) ->
  dispatchInstruction c = Some cl ->
  post (fun i => well_classed i = true) (let* a := m in ret (k a)).
Proof.
  intros Hk Hd. eapply post_bind; [apply post_any|]. intros a _. apply post_ret.
  destruct (Hk a) as (_ & _ & ->). by apply bool_decide_eq_true.
Qed.

Lemma post_loadInstrs fuel :
  post (F := F) (fun l => forallb well_classed l = true) (loadInstrs fuel) /\
  (forall e, post (F := F) (fun ie => forallb well_classed ie.1 = true /\
     forallb well_classed ie.2 = true) (loadIfElse fuel e)) /\
  (forall i, dispatchInstruction (getOpCode i) = Some (node_class i) ->
     post (F := F) (fun i' => well_classed i' = true) (loadInstr fuel i)).
Proof.
  induction fuel as [|fuel (IH1 & IH2 & IH3)]; [split; [|split]; done|].
  split; [|split; [intros e|intros i Hi]].
  - cbn [loadInstrs]. eapply post_bind; [apply post_any|intros b _].
    destruct (_ =? _); [by apply post_ret|].
    eapply post_bind; [apply post_makeNode|intros node Hnode].
    eapply post_bind; [by apply IH3|intros i Hi]. eapply post_bind; [exact IH1|intros l Hl].
    apply post_ret. cbn. by rewrite Hi.
  - cbn [loadIfElse]. eapply post_bind; [apply post_any|intros b _].
    destruct (_ =? _); [by apply post_ret|]. destruct (_ =? _); [apply IH2|].
    eapply post_bind; [apply post_makeNode|intros node Hnode].
    eapply post_bind; [by apply IH3|intros i Hi]. eapply post_bind; [apply IH2|intros ie [H1 H2]].
    apply post_ret. destruct e; cbn; by rewrite Hi.
  - assert (forall b : bool, b = true -> (bool_decide (dispatchInstruction (getOpCode i) =
      Some (node_class i)) && b) = true) as Hb by (intros ? ->; by rewrite bool_decide_true).
    destruct i; cbn [loadInstr getOpCode node_class] in *;
      unfold loadCallInstruction, loadMemoryInstruction, loadConstInstruction;
      repeat match goal with
      | |- post _ (bind _ _) =>
          first [ eapply post_bind; [exact IH1|intros ? ?]
                | eapply post_bind; [exact (IH2 false)|intros ? [? ?]]
                | eapply post_bind; [apply post_any|intros ? _] ]
      | |- post _ (if ?b then _ else _) => destruct b
      | |- post _ (match ?c with _ => _ end) => destruct c
      | |- post _ (throw _) => apply post_throw
      | |- post _ (ret _) => apply post_ret; cbn [well_classed getOpCode node_class]; apply Hb
      | |- _ && _ = true => apply andb_true_iff; split
      end; done.
Qed.
End Post.

(** Every expression of a module is made of nodes of the class of their opcode. *)
Definition expr_classed (l : list Instr) : Prop := forallb well_classed l = true.
Definition opt_all {A} (P : A -> Prop) (o : option (list A)) : Prop :=
  match o with Some l => Forall P l | None => True end.
Definition module_classed (m : AModule) : Prop :=
  opt_all (fun g => expr_classed (GlobExpr g)) (GlobalSec m) /\
  opt_all (fun e => expr_classed (ElemExpr e)) (ElementSec m) /\
  opt_all (fun c => expr_classed (CodeExpr c)) (CodeSec m) /\
  opt_all (fun d => expr_classed (DataExpr d)) (DataSec m).

Section PostModule.
Context {F : Type} `{FileMgr F}.

Lemma post_expr fuel : post (F := F) expr_classed (loadInstrs fuel).
Proof. apply post_loadInstrs. Qed.

Ltac post_solve :=
  repeat match goal with
  | |- post _ (bind (@loadInstrs _ _ _) _) => eapply post_bind; [apply post_expr|intros ? ?]
  | |- post _ (bind _ _) => eapply post_bind; [apply post_any|intros ? _]
  | |- post _ (ret _) => apply post_ret; cbn
  end; done.

Lemma post_loadOneSection fuel id m :
  module_classed m -> post (F := F) module_classed (loadOneSection fuel id m).
Proof.
  intros (H1 & H2 & H3 & H4). unfold loadOneSection, loadSection.
  assert (post (F := F) (fun g => expr_classed (GlobExpr g)) (loadGlobalSegment fuel))
    by (unfold loadGlobalSegment; post_solve).
  assert (post (F := F) (fun e => expr_classed (ElemExpr e)) (loadElementSegment fuel))
    by (unfold loadElementSegment; post_solve).
  assert (post (F := F) (fun c => expr_classed (CodeExpr c)) (loadCodeSegment fuel))
    by (unfold loadCodeSegment; post_solve).
  assert (post (F := F) (fun d => expr_classed (DataExpr d)) (loadDataSegment fuel))
    by (unfold loadDataSegment; post_solve).
  destruct id as [|p|p]; [|do 4 (try destruct p as [p|p|])|]; cbv zeta; try apply post_throw;
    (eapply post_bind;
      [eapply post_bind; [apply post_any|intros ? _];
       first [by apply post_loadToVector|apply post_any]
      |intros c Hc; apply post_ret; by repeat split]).
Qed.

Lemma post_loadSections fuel m :
  module_classed m -> post (F := F) module_classed (loadSections fuel m).
Proof.
  revert m. induction fuel as [|fuel IH]; intros m Hm; cbn [loadSections]; [done|].
  eapply post_bind; [apply post_any|intros [id|e] _].
  - eapply post_bind; [by apply post_loadOneSection|done].
  - destruct (bool_decide _); [by apply post_ret|done].
Qed.

Lemma post_loadModule fuel : post (F := F) module_classed (loadModule fuel).
Proof.
  do 2 (eapply post_bind; [apply post_any|intros ? _]). by apply post_loadSections.
Qed.
End PostModule.

(** The nodes the loader builds have the class of their opcode, in every expression of
    a module that loads, so copying a function body of the module into a function instance
    reproduces it: no cast of the copy constructors is to a wrong class and no instruction
    is lost. *)
Theorem loaded_module_bodies_copy (fuel : nat) (Code : list Z) (s s' : FileMgrVector)
    (m : AModule) :
  parseModule fuel Code s = (Ok m, s') ->
  module_classed m /\
  opt_all (fun c => copyInstrs (CodeExpr c) = Ok (CodeExpr c)) (CodeSec m).
Proof.
  intros E. unfold parseModule in E. inv_bind E.
  pose proof (post_loadModule fuel _ _ _ E) as Hm. split; [done|].
  destruct Hm as (_ & _ & Hc & _). destruct (CodeSec m) as [l|]; [|done]. cbn in *.
  eapply Forall_impl; [exact Hc|]. intros c Hw. apply copyInstrs_id.
  eapply well_classed_all; [|exact Hw]. apply Forall_true. exact copyInstruction_id.
Qed.

(** (module (func (result i32) i32.const 42)) *)
Definition const_wasm : list Z := empty_wasm ++
  [1; 5; 1; 0x60; 0; 1; 0x7F] ++ [3; 2; 1; 0] ++ [0x0A; 6; 1; 4; 0; 0x41; 42; 0x0B].

Definition const_module : AModule :=
  set_CodeSec [mkCodeSegment 4 [] [ConstInstruction I32__const (mkVariant U32 42)]]
    (set_FunctionSec [0] (set_TypeSec [mkFunctionType [] [VT_I32]]
      (set_header [0; 0x61; 0x73; 0x6D] [1; 0; 0; 0] empty_module))).

Lemma loaded_module_bodies_copy_witness :
  (parseModule 40 const_wasm newFileMgrVector).1 = Ok const_module /\ module_classed const_module.
Proof.
  assert (parseModule 40 const_wasm newFileMgrVector =
    (Ok const_module, mkFVMgr const_wasm 27 EndOfFile)) as E by (vm_compute; reflexivity).
  split; [by rewrite E|].
  exact (proj1 (loaded_module_bodies_copy 40 const_wasm newFileMgrVector _ const_module E)).
Defined.
