(* ===== verification/LoaderRoundtrip.v ===== *)
(** * The loader: every module of the binary format loads back

    A reference encoder for the nodes of AST.v, the conformance of a module (what the
    binary format can express), and the proof that the loader inverts the encoder. *)
From stdpp Require Import base list numbers option strings.
From Stdlib Require Import ZArith Lia.
From S2P Require Import Prelude Types Instruction AST FileMgr FileMgrFacts LEB128 Loader.
From S2P Require Import LoaderFacts.
#[local] Open Scope Z_scope.

(** ** The encoder *)

Definition encode_vec {A} (f : A -> list Z) (l : list A) : list Z :=
  encode_u32 (sizeZ l) ++ flat_map f l.
Definition encode_name (n : list Z) : list Z := encode_u32 (sizeZ n) ++ n.
Definition encode_valtype (t : ValType) : list Z := [byte_of_ValType t].

Definition encode_const (c : OpCode) (v : ValVariant) : list Z :=
  match c with
  | I32__const => encode_s32 (sgn 32 (storage v))
  | I64__const => encode_s64 (sgn 64 (storage v))
  | F32__const => le_split 4 (storage v)
  | _ => le_split 8 (storage v)
  end.

Fixpoint encode_instr (i : Instr) : list Z :=
  byte_of_OpCode (getOpCode i) ::
  match i with
  | BlockControlInstruction _ bt body =>
      byte_of_ValType bt :: flat_map encode_instr body ++ [0x0B]
  | IfElseControlInstruction _ bt ifs els =>
      byte_of_ValType bt :: flat_map encode_instr ifs ++
        0x05 :: flat_map encode_instr els ++ [0x0B]
  | BrControlInstruction _ n | VariableInstruction _ n => encode_u32 n
  | BrTableControlInstruction _ t n => encode_vec encode_u32 t ++ encode_u32 n
  | CallControlInstruction c n =>
      encode_u32 n ++ if bool_decide (c = Op_Call_indirect) then [0x00] else []
  | MemoryInstruction c a o =>
      if bool_decide (c = Memory__grow) || bool_decide (c = Memory__size) then [0x00]
      else encode_u32 a ++ encode_u32 o
  | ConstInstruction c v => encode_const c v
  | _ => []
  end.

Definition encode_expr (l : list Instr) : list Z := flat_map encode_instr l ++ [0x0B].

Definition encode_limit (l : Limit) : list Z :=
  match LimType l with
  | HasMin => 0x00 :: encode_u32 (Min l)
  | HasMinMax => 0x01 :: encode_u32 (Min l) ++ encode_u32 (Max l)
  end.
Definition encode_functype (t : FunctionType) : list Z :=
  0x60 :: encode_vec encode_valtype (ParamTypes t) ++ encode_vec encode_valtype (ReturnTypes t).
Definition encode_memory (m : MemoryType) : list Z := encode_limit (Memory m).
Definition encode_table (t : TableType) : list Z := 0x70 :: encode_limit (Table t).
Definition encode_globaltype (g : GlobalType) : list Z :=
  [byte_of_ValType (GlobValType g); match GlobMut g with Mut_Const => 0x00 | Mut_Var => 0x01 end].
Definition encode_global (g : GlobalSegment) : list Z :=
  encode_globaltype (Global g) ++ encode_expr (GlobExpr g).
Definition encode_elem (e : ElementSegment) : list Z :=
  encode_u32 (TableIdx e) ++ encode_expr (ElemExpr e) ++ encode_vec encode_u32 (FuncIdxes e).
Definition encode_local (p : Z * option ValType) : list Z :=
  encode_u32 p.1 ++ [match p.2 with Some t => byte_of_ValType t | None => 0 end].
Definition encode_code (c : CodeSegment) : list Z :=
  encode_u32 (SegSize c) ++ encode_vec encode_local (CodeLocals c) ++ encode_expr (CodeExpr c).
Definition encode_data (d : DataSegment) : list Z :=
  encode_u32 (MemoryIdx d) ++ encode_expr (DataExpr d) ++ encode_name (DataBytes d).
Definition byte_of_ExternalType (t : ExternalType) : Z :=
  match t with Ext_Function => 0 | Ext_Table => 1 | Ext_Memory => 2 | Ext_Global => 3 end.
Definition encode_content (c : ExtContent) : list Z :=
  match c with
  | Content_Function i => encode_u32 i
  | Content_Table t => encode_table t
  | Content_Memory m => encode_memory m
  | Content_Global g => encode_globaltype g
  end.
Definition encode_import (d : ImportDesc) : list Z :=
  encode_name (ModName d) ++ encode_name (ImpExtName d) ++
  byte_of_ExternalType (ImpExtType d) :: encode_content (ImpContent d).
Definition encode_export (d : ExportDesc) : list Z :=
  encode_name (ExpExtName d) ++ byte_of_ExternalType (ExpExtType d) :: encode_u32 (ExtIdx d).

(** A section: its id, its size and its content; nothing when it is absent. *)
Definition encode_section {A} (id : Z) (f : A -> list Z) (o : option A) : list Z :=
  match o with Some x => id :: encode_u32 (sizeZ (f x)) ++ f x | None => [] end.

Definition encode_sections (m : AModule) : list Z :=
  encode_section 0x00 (fun c => c) (CustomSec m) ++
  encode_section 0x01 (encode_vec encode_functype) (TypeSec m) ++
  encode_section 0x02 (encode_vec encode_import) (ImportSec m) ++
  encode_section 0x03 (encode_vec encode_u32) (FunctionSec m) ++
  encode_section 0x04 (encode_vec encode_table) (TableSec m) ++
  encode_section 0x05 (encode_vec encode_memory) (MemorySec m) ++
  encode_section 0x06 (encode_vec encode_global) (GlobalSec m) ++
  encode_section 0x07 (encode_vec encode_export) (ExportSec m) ++
  encode_section 0x08 encode_u32 (StartSec m) ++
  encode_section 0x09 (encode_vec encode_elem) (ElementSec m) ++
  encode_section 0x0A (encode_vec encode_code) (CodeSec m) ++
  encode_section 0x0B (encode_vec encode_data) (DataSec m).

Definition encode_module (m : AModule) : list Z := Magic m ++ Version m ++ encode_sections m.

(** ** Conformance: what the format can express *)

Definition u32 (x : Z) : bool := bool_decide (in_u 32 x).
Definition vec_ok {A} (p : A -> bool) (l : list A) : bool := u32 (sizeZ l) && forallb p l.
Definition numeric (t : ValType) : bool := negb (bool_decide (t = VT_None)).

Definition const_ok (c : OpCode) (v : ValVariant) : bool :=
  match c with
  | I32__const | F32__const => bool_decide (in_u 32 (storage v)) && negb (wide v)
  | _ => bool_decide (in_u 64 (storage v)) && wide v
  end.

Fixpoint instr_ok (i : Instr) : bool :=
  bool_decide (dispatchInstruction (getOpCode i) = Some (node_class i)) &&
  match i with
  | BlockControlInstruction _ _ body => forallb instr_ok body
  | IfElseControlInstruction _ _ ifs els => forallb instr_ok ifs && forallb instr_ok els
  | BrControlInstruction _ n | VariableInstruction _ n | CallControlInstruction _ n => u32 n
  | BrTableControlInstruction _ t n => vec_ok u32 t && u32 n
  | MemoryInstruction c a o =>
      if bool_decide (c = Memory__grow) || bool_decide (c = Memory__size)
      then (a =? 0) && (o =? 0) else u32 a && u32 o
  | ConstInstruction c v => const_ok c v
  | _ => true
  end.

Definition limit_ok (l : Limit) : bool :=
  u32 (Min l) && if hasMax l then u32 (Max l) else Max l =? 0.
Definition functype_ok (t : FunctionType) : bool :=
  vec_ok numeric (ParamTypes t) && vec_ok numeric (ReturnTypes t).
Definition memory_ok (m : MemoryType) : bool := limit_ok (Memory m).
Definition table_ok (t : TableType) : bool :=
  bool_decide (TabElemType t = ET_FuncRef) && limit_ok (Table t).
Definition globaltype_ok (g : GlobalType) : bool := numeric (GlobValType g).
Definition global_ok (g : GlobalSegment) : bool :=
  globaltype_ok (Global g) && forallb instr_ok (GlobExpr g).
Definition elem_ok (e : ElementSegment) : bool :=
  u32 (TableIdx e) && forallb instr_ok (ElemExpr e) && vec_ok u32 (FuncIdxes e).
Definition local_ok (p : Z * option ValType) : bool := u32 p.1.
Definition code_ok (c : CodeSegment) : bool :=
  u32 (SegSize c) && vec_ok local_ok (CodeLocals c) && forallb instr_ok (CodeExpr c).
Definition name_ok (n : list Z) : bool := u32 (sizeZ n).
Definition data_ok (d : DataSegment) : bool :=
  u32 (MemoryIdx d) && forallb instr_ok (DataExpr d) && name_ok (DataBytes d).
Definition import_ok (d : ImportDesc) : bool :=
  name_ok (ModName d) && name_ok (ImpExtName d) &&
  match ImpExtType d, ImpContent d with
  | Ext_Function, Content_Function i => u32 i
  | Ext_Table, Content_Table t => table_ok t
  | Ext_Memory, Content_Memory m => memory_ok m
  | Ext_Global, Content_Global g => globaltype_ok g
  | _, _ => false
  end.
Definition export_ok (d : ExportDesc) : bool := name_ok (ExpExtName d) && u32 (ExtIdx d).

Definition opt_ok {A} (p : A -> bool) (o : option A) : bool :=
  match o with Some x => p x | None => true end.

Definition module_ok (m : AModule) : bool :=
  (sizeZ (Magic m) =? 4) && (sizeZ (Version m) =? 4) &&
  opt_ok name_ok (CustomSec m) && opt_ok (vec_ok functype_ok) (TypeSec m) &&
  opt_ok (vec_ok import_ok) (ImportSec m) && opt_ok (vec_ok u32) (FunctionSec m) &&
  opt_ok (vec_ok table_ok) (TableSec m) && opt_ok (vec_ok memory_ok) (MemorySec m) &&
  opt_ok (vec_ok global_ok) (GlobalSec m) && opt_ok (vec_ok export_ok) (ExportSec m) &&
  opt_ok u32 (StartSec m) && opt_ok (vec_ok elem_ok) (ElementSec m) &&
  opt_ok (vec_ok code_ok) (CodeSec m) && opt_ok (vec_ok data_ok) (DataSec m).

(** ** Parsing combinators *)

(** [m] reads exactly [bs] and returns [a], whatever follows. *)
Definition parses {A} (m : M (list Z) A) (bs : list Z) (a : A) : Prop :=
  forall l, m (bs ++ l) = (Ok a, l).

Lemma parses_bind {A B} (m : M (list Z) A) (k : A -> M (list Z) B) b1 b2 a b :
  parses m b1 a -> parses (k a) b2 b -> parses (bind m k) (b1 ++ b2) b.
Proof. intros Hm Hk l. rewrite <- app_assoc. unfold bind. by rewrite Hm, Hk. Qed.

Lemma parses_bind_ret {A B} (m : M (list Z) A) (k : A -> M (list Z) B) b1 a b :
  parses m b1 a -> parses (k a) [] b -> parses (bind m k) b1 b.
Proof. intros Hm Hk. rewrite <- (app_nil_r b1). by eapply parses_bind. Qed.

Lemma parses_ret {A} (a : A) : parses (ret a) [] a.
Proof. done. Qed.
Lemma parses_lift {A} (r : res A) a : r = Ok a -> parses (lift r) [] a.
Proof. intros -> l. done. Qed.

Lemma parses_byte b : parses (readByte (F := list Z)) [b] b.
Proof. done. Qed.

Lemma parses_cons {B} (k : Z -> M (list Z) B) x b2 b :
  parses (k x) b2 b -> parses (bind readByte k) (x :: b2) b.
Proof. intros Hk. by apply (parses_bind _ _ [x] b2 x). Qed.

Lemma parses_u32 x : u32 x = true -> parses (readU32 (F := list Z)) (encode_u32 x) x.
Proof. intros Hx%bool_decide_eq_true l. by apply leb_u_encode; [lia|..]. Qed.

Lemma parses_bytes bs : parses (readBytes (F := list Z) (sizeZ bs)) bs bs.
Proof.
  intros l. cbn. unfold Stream.take_n, sizeZ. rewrite length_app.
  rewrite (proj2 (Z.leb_le _ _)), Nat2Z.id by lia. by rewrite take_app_length, drop_app_length.
Qed.

Lemma parses_name n : name_ok n = true -> parses (readName (F := list Z)) (encode_name n) n.
Proof. intros Hn. eapply parses_bind; [by apply parses_u32|apply parses_bytes]. Qed.

Lemma encode_u32_length x : (1 <= length (encode_u32 x))%nat.
Proof. unfold encode_u32. rewrite encode_u_S. destruct (_ =? _); cbn; lia. Qed.

Lemma parses_load_n {A} (f : A -> list Z) (p : A -> bool) item fuel (xs : list A) :
  (forall x, p x = true -> (1 <= length (f x))%nat) ->
  (forall x, p x = true -> (length (f x) <= length (flat_map f xs))%nat -> parses item (f x) x) ->
  forallb p xs = true -> (length (flat_map f xs) <= fuel)%nat ->
  parses (load_n fuel (sizeZ xs) item) (flat_map f xs) xs.
Proof.
  intros Hlen. revert fuel. induction xs as [|x xs IH]; intros fuel Hi Hp Hf.
  { by destruct fuel. }
  cbn in Hp, Hf. apply andb_true_iff in Hp as [Hx Hxs]. rewrite length_app in Hf.
  pose proof (Hlen x Hx). destruct fuel as [|fuel]; [lia|]. cbn [load_n flat_map].
  replace (sizeZ (x :: xs) <=? 0) with false
    by (symmetry; apply Z.leb_gt; unfold sizeZ; cbn [length]; lia).
  replace (sizeZ (x :: xs) - 1) with (sizeZ xs) by (unfold sizeZ; cbn [length]; lia).
  eapply parses_bind; [apply Hi; [done|]; cbn; rewrite length_app; lia|].
  eapply parses_bind_ret; [|apply parses_ret]. apply IH; [|done|lia].
  intros y Hy Hl. apply Hi; [done|]. cbn. rewrite length_app. lia.
Qed.

(** A vector loads when each item loads with the fuel the vector leaves. *)
Lemma parses_vec {A} (f : A -> list Z) (p : A -> bool) item fuel (xs : list A) :
  (forall x, p x = true -> (1 <= length (f x))%nat) ->
  (forall x, p x = true -> (length (f x) < fuel)%nat -> parses item (f x) x) ->
  vec_ok p xs = true -> (length (encode_vec f xs) <= fuel)%nat ->
  parses (loadToVector fuel item) (encode_vec f xs) xs.
Proof.
  intros Hlen Hi [Hn Hp]%andb_true_iff Hf. unfold encode_vec in *. rewrite length_app in Hf.
  pose proof (encode_u32_length (sizeZ xs)).
  eapply parses_bind; [by apply parses_u32|].
  apply (parses_load_n f p); [done| |done|lia]. intros x Hx Hl. apply Hi; [done|lia].
Qed.

(** ** Instructions *)

Lemma numeric_load t : numeric t = true -> parses loadValType (encode_valtype t) t.
Proof. intros Ht. apply parses_cons, parses_lift. by destruct t. Qed.

Lemma loadInstrs_S {F} `{FileMgr F} fuel : loadInstrs (S fuel) =
  let* b := readByte in
  if b =? byte_of_OpCode Op_End then ret []
  else
    let* node := lift (makeNode b) in
    let* i := loadInstr fuel node in
    let* l := loadInstrs fuel in
    ret (i :: l).
Proof. done. Qed.

Lemma loadIfElse_S {F} `{FileMgr F} fuel e : loadIfElse (S fuel) e =
  let* b := readByte in
  if b =? byte_of_OpCode Op_End then ret ([], [])
  else if b =? byte_of_OpCode Op_Else then loadIfElse fuel true
  else
    let* node := lift (makeNode b) in
    let* i := loadInstr fuel node in
    let* ie := loadIfElse fuel e in
    ret (if e then (ie.1, i :: ie.2) else (i :: ie.1, ie.2)).
Proof. done. Qed.

(** The node [makeInstructionNode] makes for the opcode of [i]. *)
Lemma makeNode_instr i : instr_ok i = true -> exists node,
  makeNode (byte_of_OpCode (getOpCode i)) = Ok node /\ getOpCode node = getOpCode i /\
  node_class node = node_class i /\
  (byte_of_OpCode (getOpCode i) =? byte_of_OpCode Op_End) = false /\
  (byte_of_OpCode (getOpCode i) =? byte_of_OpCode Op_Else) = false.
Proof.
  intros Hi. assert (dispatchInstruction (getOpCode i) = Some (node_class i)) as Hd.
  { by destruct i; cbn [instr_ok] in Hi; apply andb_true_iff in Hi as [Hi _];
      apply bool_decide_eq_true in Hi. }
  unfold makeNode, makeInstructionNode. rewrite OpCode_of_byte_of, Hd.
  eexists. split; [done|]. revert Hd. generalize (getOpCode i) (node_class i). intros c cl Hd.
  split; [by destruct cl|]. split; [by destruct cl|]. by destruct c.
Qed.

(** The operands of [i], read by the node of its opcode. *)
Definition operands (i : Instr) : list Z := tl (encode_instr i).
Definition reads_back (i : Instr) : Prop := instr_ok i = true ->
  forall fuel node, getOpCode node = getOpCode i -> node_class node = node_class i ->
    (length (operands i) < fuel)%nat -> parses (loadInstr fuel node) (operands i) i.

Lemma encode_instr_cons i : encode_instr i = byte_of_OpCode (getOpCode i) :: operands i.
Proof. by destruct i. Qed.

(** An instruction in a sequence: its opcode byte was read, its node is made and loaded. *)
Lemma parses_node {B} fuel i bs (k : Instr -> M (list Z) B) b :
  reads_back i -> instr_ok i = true -> (length (operands i) < fuel)%nat -> parses (k i) bs b ->
  parses (let* node := lift (makeNode (byte_of_OpCode (getOpCode i))) in
          let* i' := loadInstr fuel node in k i') (operands i ++ bs) b.
Proof.
  intros Hr Hi Hf Hk. destruct (makeNode_instr i Hi) as (node & -> & Hc & Hcl & _).
  eapply (parses_bind _ _ []); [by apply parses_lift|].
  eapply parses_bind; [by apply Hr|done].
Qed.

Lemma encode_instrs_cons i l bs :
  flat_map encode_instr (i :: l) ++ bs =
  byte_of_OpCode (getOpCode i) :: operands i ++ (flat_map encode_instr l ++ bs).
Proof. cbn [flat_map]. rewrite encode_instr_cons. cbn [app]. by rewrite <- app_assoc. Qed.

(** One instruction of a loop body: split the hypotheses and the bytes, read the node. *)
Ltac parse_instr S_lemma :=
  lazymatch goal with
  | Hok : forallb instr_ok (?i :: ?l) = true, Hf : le (length (app (flat_map _ (?i :: ?l)) _)) ?fuel
    |- _ =>
      let Hoi := fresh "Hoi" in let Hol := fresh "Hol" in
      let Hend := fresh "Hend" in let Helse := fresh "Helse" in
      apply andb_true_iff in Hok as [Hoi Hol];
      destruct (makeNode_instr i Hoi) as (_ & _ & _ & _ & Hend & Helse);
      rewrite encode_instrs_cons in Hf |- *; cbn [length] in Hf; rewrite !length_app in Hf;
      cbn [length] in Hf;
      destruct fuel as [|fuel]; [lia|]; rewrite S_lemma; apply parses_cons;
      rewrite Hend, ?Helse; apply parses_node; [done..|lia|]
  end.

Lemma parses_body fuel l :
  Forall reads_back l -> forallb instr_ok l = true ->
  (length (encode_expr l) <= fuel)%nat -> parses (loadInstrs fuel) (encode_expr l) l.
Proof.
  intros Hr. revert fuel. unfold encode_expr.
  induction Hr as [|i l Hi _ IH]; intros fuel Hok Hf.
  - destruct fuel; [cbn in Hf; lia|]. rewrite loadInstrs_S. by apply parses_cons.
  - parse_instr @loadInstrs_S.
    eapply parses_bind_ret; [apply IH; [done|rewrite !length_app in *; cbn [length]; lia]|apply parses_ret].
Qed.

Lemma parses_else fuel l :
  Forall reads_back l -> forallb instr_ok l = true ->
  (length (encode_expr l) <= fuel)%nat ->
  parses (loadIfElse fuel true) (encode_expr l) ([], l).
Proof.
  intros Hr. revert fuel. unfold encode_expr.
  induction Hr as [|i l Hi _ IH]; intros fuel Hok Hf.
  - destruct fuel; [cbn in Hf; lia|]. rewrite loadIfElse_S. by apply parses_cons.
  - parse_instr @loadIfElse_S.
    eapply parses_bind_ret; [apply IH; [done|rewrite !length_app in *; cbn [length]; lia]|done].
Qed.

Definition encode_ifelse (ifs els : list Instr) : list Z :=
  flat_map encode_instr ifs ++ 0x05 :: encode_expr els.

Lemma parses_ifelse fuel ifs els :
  Forall reads_back ifs -> Forall reads_back els ->
  forallb instr_ok ifs = true -> forallb instr_ok els = true ->
  (length (encode_ifelse ifs els) <= fuel)%nat ->
  parses (loadIfElse fuel false) (encode_ifelse ifs els) (ifs, els).
Proof.
  intros Hr Hr' Hok Hok'. revert fuel Hok. unfold encode_ifelse.
  induction Hr as [|i l Hi _ IH]; intros fuel Hok Hf.
  - cbn [flat_map app] in *. cbn [length] in Hf. destruct fuel as [|fuel]; [lia|].
    rewrite loadIfElse_S. apply parses_cons. apply parses_else; [done|done|lia].
  - parse_instr @loadIfElse_S.
    eapply parses_bind_ret; [apply IH; [done|rewrite !length_app in *; cbn [length]; lia]|done].
Qed.

(** Constants: the value is rebuilt from its LEB128 or little-endian bytes. *)
Lemma mkVariant_narrow T v : sizeof T = 4 -> in_u 32 (storage v) -> wide v = false ->
  mkVariant T (storage v) = v.
Proof.
  intros HT Hs Hw. unfold mkVariant, to_bits, bits. rewrite HT, wrap_small by done.
  destruct v. cbn in *. by subst.
Qed.
Lemma mkVariant_wide T v : sizeof T = 8 -> in_u 64 (storage v) -> wide v = true ->
  mkVariant T (storage v) = v.
Proof.
  intros HT Hs Hw. unfold mkVariant, to_bits, bits. rewrite HT, wrap_small by done.
  destruct v. cbn in *. by subst.
Qed.
Lemma mkVariant_sgn T w x : bits T = w -> 0 <= w -> mkVariant T (sgn w x) = mkVariant T x.
Proof. intros <- Hw. unfold mkVariant, to_bits. by rewrite wrap_sgn. Qed.

Lemma parses_le n x : in_u (8 * Z.of_nat n) x ->
  parses (Stream.le_num (Z.of_nat n)) (le_split n x) x.
Proof.
  intros Hx. eapply parses_bind_ret.
  - pose proof (parses_bytes (le_split n x)) as Hp. unfold sizeZ in Hp.
    rewrite length_le_split in Hp. exact Hp.
  - intros l. unfold ret. rewrite le_combine_split. by rewrite Z.mod_small.
Qed.

Lemma parses_const c v : dispatchInstruction c = Some Cls_ConstInstruction -> const_ok c v = true ->
  parses (loadConstInstruction c) (encode_const c v) (ConstInstruction c v).
Proof.
  intros Hc Hv. destruct c; try discriminate Hc; cbn [const_ok] in Hv;
    apply andb_true_iff in Hv as [Hs%bool_decide_eq_true Hw]; cbn [loadConstInstruction encode_const].
  - apply negb_true_iff in Hw. eapply parses_bind_ret.
    + intros l. apply leb_s_encode; [lia|by apply sgn_range|lia|lia].
    + intros l. rewrite mkVariant_sgn by done. by rewrite mkVariant_narrow.
  - eapply parses_bind_ret.
    + intros l. apply leb_s_encode; [lia|by apply sgn_range|lia|lia].
    + intros l. rewrite mkVariant_sgn by done. by rewrite mkVariant_wide.
  - apply negb_true_iff in Hw. eapply parses_bind_ret; [by apply (parses_le 4)|].
    intros l. by rewrite mkVariant_narrow.
  - eapply parses_bind_ret; [by apply (parses_le 8)|]. intros l. by rewrite mkVariant_wide.
Qed.

Ltac split_ok :=
  repeat match goal with
  | H : (_ && _)%bool = true |- _ => apply andb_true_iff in H as [? ?]
  | H : bool_decide _ = true |- _ => apply bool_decide_eq_true in H
  end.

Lemma parses_labels fuel t : vec_ok u32 t = true -> (length (encode_vec encode_u32 t) <= fuel)%nat ->
  parses (loadToVector fuel readU32) (encode_vec encode_u32 t) t.
Proof.
  intros. apply (parses_vec encode_u32 u32); [|by intros; apply parses_u32|done|done].
  intros. apply encode_u32_length.
Qed.

Lemma parses_memory_instr c a o : instr_ok (MemoryInstruction c a o) = true ->
  parses (loadMemoryInstruction c) (operands (MemoryInstruction c a o)) (MemoryInstruction c a o).
Proof.
  intros Hi. cbn [instr_ok] in Hi. unfold operands, loadMemoryInstruction. cbn [encode_instr tl].
  destruct (_ || _); split_ok.
  - bool_to_prop. subst. by apply parses_cons.
  - eapply parses_bind; [by apply parses_u32|].
    eapply parses_bind_ret; [by apply parses_u32|done].
Qed.

Lemma parses_call_instr c n : u32 n = true ->
  parses (loadCallInstruction c) (operands (CallControlInstruction c n)) (CallControlInstruction c n).
Proof.
  intros Hn. unfold operands, loadCallInstruction. cbn [encode_instr tl].
  eapply parses_bind; [by apply parses_u32|]. destruct (bool_decide _); [by apply parses_cons|done].
Qed.

Lemma loadBlockType_parses {B} bt (k : ValType -> M (list Z) B) bs b :
  parses (k bt) bs b -> parses (bind loadBlockType k) (byte_of_ValType bt :: bs) b.
Proof.
  intros Hk. change (byte_of_ValType bt :: bs) with ([byte_of_ValType bt] ++ bs).
  eapply parses_bind; [|exact Hk]. apply parses_cons. by rewrite ValType_of_to_byte.
Qed.

Lemma reads_back_all i : reads_back i.
Proof.
  induction i as [c bt body IH|c bt ifs els IH1 IH2|i Hb Hi] using Instr_nested_ind;
    intros Hok fuel node Hc Hcl Hf; destruct fuel as [|fuel]; try lia.
  - destruct node; try discriminate Hcl. cbn in Hc. subst. cbn [instr_ok] in Hok. split_ok.
    change (operands _) with (byte_of_ValType bt :: encode_expr body) in *. cbn [length] in Hf.
    apply loadBlockType_parses. eapply parses_bind_ret; [apply parses_body; [done..|lia]|done].
  - destruct node; try discriminate Hcl. cbn in Hc. subst. cbn [instr_ok] in Hok. split_ok.
    change (operands _) with (byte_of_ValType bt :: encode_ifelse ifs els) in *. cbn [length] in Hf.
    apply loadBlockType_parses. eapply parses_bind_ret; [apply parses_ifelse; [done..|lia]|done].
  - destruct i; try (by exfalso; eapply Hb); try (by exfalso; eapply Hi);
      destruct node; try discriminate Hcl; cbn in Hc; subst; try (by apply parses_ret);
      try (by apply parses_memory_instr); pose proof Hok as Hok'; cbn [instr_ok] in Hok; split_ok;
      try (by apply parses_call_instr); try (by apply parses_const);
      try (by eapply parses_bind_ret; [apply parses_u32|]).
    unfold operands in *. cbn [encode_instr tl] in *. rewrite length_app in Hf.
    eapply parses_bind; [apply parses_labels; [done|lia]|].
    by eapply parses_bind_ret; [apply parses_u32|].
Qed.

Lemma parses_expr fuel l : forallb instr_ok l = true -> (length (encode_expr l) <= fuel)%nat ->
  parses (loadInstrs fuel) (encode_expr l) l.
Proof. intros. apply parses_body; [|done..]. apply Forall_true. apply reads_back_all. Qed.

(** ** Types, segments, descriptions *)

Lemma parses_limit l : limit_ok l = true -> parses loadLimit (encode_limit l) l.
Proof.
  destruct l as [[] mn mx]; unfold limit_ok, encode_limit; cbn; intros Hl; split_ok.
  - apply parses_cons. cbn. eapply parses_bind_ret; [by apply parses_u32|].
    bool_to_prop. by subst.
  - apply parses_cons. cbn. eapply parses_bind; [by apply parses_u32|].
    by eapply parses_bind_ret; [apply parses_u32|].
Qed.

Lemma parses_valtypes fuel l : vec_ok numeric l = true ->
  (length (encode_vec encode_valtype l) <= fuel)%nat ->
  parses (loadToVector fuel loadValType) (encode_vec encode_valtype l) l.
Proof.
  intros. apply (parses_vec encode_valtype numeric); [cbn; lia| |done..].
  intros. by apply numeric_load.
Qed.

Lemma parses_functype fuel t : functype_ok t = true -> (length (encode_functype t) <= fuel)%nat ->
  parses (loadFunctionType fuel) (encode_functype t) t.
Proof.
  destruct t as [ps rs]. unfold functype_ok, encode_functype. cbn [ParamTypes ReturnTypes length].
  rewrite length_app. intros Hl Hf; split_ok. apply parses_cons. cbn -[loadToVector].
  eapply parses_bind; [apply parses_valtypes; [done|lia]|].
  by eapply parses_bind_ret; [apply parses_valtypes; [done|lia]|].
Qed.

Lemma parses_memory m : memory_ok m = true -> parses loadMemoryType (encode_memory m) m.
Proof. destruct m. intros. by eapply parses_bind_ret; [apply parses_limit|]. Qed.

Lemma parses_table t : table_ok t = true -> parses loadTableType (encode_table t) t.
Proof.
  destruct t as [e l]. unfold table_ok. cbn. intros; split_ok. subst. apply parses_cons. cbn.
  by eapply parses_bind_ret; [apply parses_limit|].
Qed.

Lemma parses_globaltype g : globaltype_ok g = true ->
  parses loadGlobalType (encode_globaltype g) g.
Proof.
  destruct g as [t mu]. unfold globaltype_ok. cbn. intros Ht.
  apply parses_cons. apply parses_cons. eapply (parses_bind _ _ [] []).
  - apply parses_lift. by destruct t.
  - by destruct t, mu.
Qed.

Lemma parses_global fuel g : global_ok g = true -> (length (encode_global g) <= fuel)%nat ->
  parses (loadGlobalSegment fuel) (encode_global g) g.
Proof.
  destruct g as [t e]. unfold global_ok, encode_global. cbn [Global GlobExpr]. rewrite length_app.
  intros; split_ok. eapply parses_bind; [by apply parses_globaltype|].
  by eapply parses_bind_ret; [apply parses_expr; [done|lia]|].
Qed.

Lemma parses_elem fuel e : elem_ok e = true -> (length (encode_elem e) <= fuel)%nat ->
  parses (loadElementSegment fuel) (encode_elem e) e.
Proof.
  destruct e as [i e fs]. unfold elem_ok, encode_elem. cbn [TableIdx ElemExpr FuncIdxes].
  rewrite !length_app. intros; split_ok. eapply parses_bind; [by apply parses_u32|].
  eapply parses_bind; [apply parses_expr; [done|lia]|].
  by eapply parses_bind_ret; [apply parses_labels; [done|lia]|].
Qed.

Lemma parses_local p : local_ok p = true -> parses loadLocal (encode_local p) p.
Proof.
  destruct p as [n t]. unfold local_ok, encode_local. cbn. intros.
  eapply parses_bind; [by apply parses_u32|]. apply parses_cons. by destruct t as [[]|].
Qed.

Lemma parses_code fuel c : code_ok c = true -> (length (encode_code c) <= fuel)%nat ->
  parses (loadCodeSegment fuel) (encode_code c) c.
Proof.
  destruct c as [n ls e]. unfold code_ok, encode_code. cbn [SegSize CodeLocals CodeExpr].
  rewrite !length_app. intros; split_ok. eapply parses_bind; [by apply parses_u32|].
  eapply parses_bind.
  - apply (parses_vec encode_local local_ok); [| |done|lia]; intros; [|by apply parses_local].
    unfold encode_local. rewrite length_app. cbn. lia.
  - by eapply parses_bind_ret; [apply parses_expr; [done|lia]|].
Qed.

Lemma parses_data fuel d : data_ok d = true -> (length (encode_data d) <= fuel)%nat ->
  parses (loadDataSegment fuel) (encode_data d) d.
Proof.
  destruct d as [i e bs]. unfold data_ok, encode_data, encode_name. cbn [MemoryIdx DataExpr DataBytes].
  rewrite !length_app. intros; split_ok. eapply parses_bind; [by apply parses_u32|].
  eapply parses_bind; [apply parses_expr; [done|lia]|].
  eapply parses_bind; [by apply parses_u32|]. by eapply parses_bind_ret; [apply parses_bytes|].
Qed.

Lemma parses_import d : import_ok d = true -> parses loadImportDesc (encode_import d) d.
Proof.
  destruct d as [mn en t c]. unfold import_ok, encode_import. cbn [ModName ImpExtName ImpExtType ImpContent].
  intros; split_ok. do 2 (eapply parses_bind; [by apply parses_name|]). apply parses_cons.
  destruct t, c; try done; cbn -[loadTableType loadMemoryType loadGlobalType];
    eapply parses_bind_ret; first [by apply parses_u32|by apply parses_table
      |by apply parses_memory|by apply parses_globaltype|done].
Qed.

Lemma parses_export d : export_ok d = true -> parses loadExportDesc (encode_export d) d.
Proof.
  destruct d as [n t i]. unfold export_ok, encode_export. cbn [ExpExtName ExpExtType ExtIdx].
  intros; split_ok. eapply parses_bind; [by apply parses_name|]. apply parses_cons.
  destruct t; cbn; by eapply parses_bind_ret; [apply parses_u32|].
Qed.

(** ** Sections and modules *)

(** The section loop reads [bs] to its end and takes the module [m0] to [m]. *)
Definition loads_sections (m0 : AModule) (bs : list Z) (m : AModule) : Prop :=
  forall fuel, sizeZ bs < 2 ^ 32 -> (length bs < fuel)%nat -> loadSections fuel m0 bs = (Ok m, []).

Lemma loads_sections_nil m : loads_sections m [] m.
Proof. intros fuel _ Hf. destruct fuel; [cbn in Hf; lia|done]. Qed.

Lemma loads_sections_cons {A} id (f : A -> list Z) (o : option A) rest m0 m1 m :
  (forall x fuel, o = Some x -> u32 (sizeZ (f x)) = true -> (length (f x) <= fuel)%nat ->
     parses (loadOneSection fuel id m0) (encode_u32 (sizeZ (f x)) ++ f x) m1) ->
  (o = None -> m0 = m1) ->
  loads_sections m1 rest m ->
  loads_sections m0 (encode_section id f o ++ rest) m.
Proof.
  intros Hsome Hnone Hrest. destruct o as [x|]; [|by rewrite Hnone].
  intros fuel Hs Hf. unfold encode_section in *. cbn [app] in *.
  unfold sizeZ in Hs. cbn [length] in Hs, Hf. rewrite !length_app in *.
  destruct fuel as [|fuel]; [lia|]. cbn [loadSections]. unfold bind at 1, try. cbn [readByte Stream_FileMgr Stream.next].
  assert (u32 (sizeZ (f x)) = true) as Hx
    by (apply bool_decide_eq_true; unfold in_u, sizeZ; lia).
  unfold bind. rewrite (Hsome x fuel eq_refl Hx ltac:(lia)). apply Hrest; unfold sizeZ; lia.
Qed.

Lemma encode_lengths :
  (forall t, (1 <= length (encode_functype t))%nat) /\ (forall d, (1 <= length (encode_import d))%nat) /\
  (forall n, (1 <= length (encode_u32 n))%nat) /\ (forall t, (1 <= length (encode_table t))%nat) /\
  (forall m, (1 <= length (encode_memory m))%nat) /\ (forall g, (1 <= length (encode_global g))%nat) /\
  (forall d, (1 <= length (encode_export d))%nat) /\ (forall e, (1 <= length (encode_elem e))%nat) /\
  (forall c, (1 <= length (encode_code c))%nat) /\ (forall d, (1 <= length (encode_data d))%nat).
Proof.
  pose proof encode_u32_length as Hu.
  repeat split; intros; try apply Hu;
    unfold encode_functype, encode_import, encode_table, encode_memory, encode_limit, encode_global,
      encode_export, encode_elem, encode_code, encode_data, encode_name;
    try destruct (LimType _); rewrite ?length_app; cbn [length];
    rewrite ?length_app; cbn [length encode_globaltype];
    match goal with
    | |- context [encode_u32 ?x] => pose proof (Hu x); lia
    | _ => lia
    end.
Qed.

Ltac section_step m1 :=
  apply (loads_sections_cons _ _ _ _ _ m1);
  [ intros x fuel -> Hs Hf; cbn [opt_ok] in *; cbn beta in *;
    unfold loadOneSection; cbv beta iota zeta;
    first
    [ eapply parses_bind_ret; [eapply parses_bind; [by apply parses_u32|apply parses_bytes]|done]
    | eapply parses_bind_ret; [eapply parses_bind; [by apply parses_u32|by apply parses_u32]|done]
    | eapply parses_bind_ret; [|done]; eapply parses_bind; [by apply parses_u32|];
      eapply parses_vec; [| |eassumption|done];
      [intros; apply encode_lengths|
       intros y Hy Hly; apply Nat.lt_le_incl in Hly;
       first [by apply parses_functype|by apply parses_import|by apply parses_u32
             |by apply parses_table|by apply parses_memory|by apply parses_global
             |by apply parses_export|by apply parses_elem|by apply parses_code
             |by apply parses_data]] ]
  | by intros -> | ].

Lemma loads_sections_module m : module_ok m = true ->
  loads_sections (set_header (Magic m) (Version m) empty_module) (encode_sections m) m.
Proof.
  destruct m as [mg vr o0 o1 o2 o3 o4 o5 o6 o7 o8 o9 oa ob].
  unfold module_ok, encode_sections. cbn -[encode_section]. intros Hok. split_ok.
  rewrite <- (app_nil_r (encode_section 11 _ ob)).
  section_step (mkModule mg vr o0 None None None None None None None None None None None).
  section_step (mkModule mg vr o0 o1 None None None None None None None None None None).
  section_step (mkModule mg vr o0 o1 o2 None None None None None None None None None).
  section_step (mkModule mg vr o0 o1 o2 o3 None None None None None None None None).
  section_step (mkModule mg vr o0 o1 o2 o3 o4 None None None None None None None).
  section_step (mkModule mg vr o0 o1 o2 o3 o4 o5 None None None None None None).
  section_step (mkModule mg vr o0 o1 o2 o3 o4 o5 o6 None None None None None).
  section_step (mkModule mg vr o0 o1 o2 o3 o4 o5 o6 o7 None None None None).
  section_step (mkModule mg vr o0 o1 o2 o3 o4 o5 o6 o7 o8 None None None).
  section_step (mkModule mg vr o0 o1 o2 o3 o4 o5 o6 o7 o8 o9 None None).
  section_step (mkModule mg vr o0 o1 o2 o3 o4 o5 o6 o7 o8 o9 oa None).
  section_step (mkModule mg vr o0 o1 o2 o3 o4 o5 o6 o7 o8 o9 oa ob).
  apply loads_sections_nil.
Qed.

Lemma loadModule_encode m fuel : module_ok m = true ->
  sizeZ (encode_module m) < 2 ^ 32 -> (length (encode_module m) < fuel)%nat ->
  loadModule fuel (encode_module m) = (Ok m, []).
Proof.
  intros Hok Hs Hf. unfold encode_module, sizeZ in *. rewrite !length_app in *.
  pose proof (loads_sections_module m Hok fuel) as Hl.
  unfold module_ok in Hok. split_ok. bool_to_prop. unfold loadModule, bind.
  pose proof (parses_bytes (Magic m) (Version m ++ encode_sections m)) as E1.
  pose proof (parses_bytes (Version m) (encode_sections m)) as E2.
  replace (sizeZ (Magic m)) with 4 in E1 by done. replace (sizeZ (Version m)) with 4 in E2 by done.
  rewrite E1, E2. apply Hl; unfold sizeZ; lia.
Qed.

(** [C2] Loading inverts encoding: every module of conformant nodes (any sections, types,
    segments and nested instructions whose fields fit the format), encoded as a byte string
    shorter than 2^32 - 8, is what [parseModule] returns for the bytes, from any earlier
    state of the file manager and with one unit of fuel more than there are bytes. *)
Theorem parseModule_roundtrip (m : AModule) (s : FileMgrVector) :
  module_ok m = true -> Forall is_byte (encode_module m) ->
  sizeZ (encode_module m) < 2 ^ 32 - 8 ->
  (parseModule (S (length (encode_module m))) (encode_module m) s).1 = Ok m.
Proof.
  intros Hok Hb Hs. unfold parseModule, bind.
  assert (encode_module m <> []) as Hne.
  { intros E. unfold module_ok in Hok. split_ok. bool_to_prop.
    unfold encode_module, sizeZ in *. apply app_eq_nil in E as [E _].
    match goal with H : Z.of_nat (length (Magic m)) = 4 |- _ => rewrite E in H; discriminate H end. }
  destruct (setCode_ok _ s Hne Hb Hs) as (-> & Hfv & Hr).
  destruct (fv_loadModule (S (length (encode_module m))) _ Hfv) as [E|[E _]]; rewrite Hr in E;
    rewrite (loadModule_encode m) in E by (done || lia); [exact E|done].
Qed.

Definition roundtrip_module : AModule :=
  set_CodeSec [mkCodeSegment 9 [(2, Some VT_I64)]
      [BlockControlInstruction Op_Block VT_I32
         [ConstInstruction I32__const (mkVariant U32 (-5));
          IfElseControlInstruction Op_If VT_None [BrControlInstruction Op_Br 1] []];
       MemoryInstruction I32__load 2 300]]
    (set_ExportSec [mkExportDesc [0x66] Ext_Function 0]
      (set_FunctionSec [0] (set_TypeSec [mkFunctionType [VT_F32] [VT_I32]]
        (set_header [0; 0x61; 0x73; 0x6D] [1; 0; 0; 0] empty_module)))).

Lemma parseModule_roundtrip_witness :
  (parseModule (S (length (encode_module roundtrip_module))) (encode_module roundtrip_module)
     newFileMgrVector).1 = Ok roundtrip_module.
Proof.
  apply (parseModule_roundtrip roundtrip_module newFileMgrVector).
  - vm_compute. reflexivity.
  - apply (bool_decide_unpack (Forall is_byte (encode_module roundtrip_module))).
    vm_compute. exact I.
  - vm_compute. reflexivity.
Defined.
