(* ===== verification/FileStream.v ===== *)
(** * The file-stream reader is a byte source, and loads what the vector reader loads *)
From stdpp Require Import base list numbers option.
From Stdlib Require Import ZArith Lia.
From S2P Require Import Prelude Types Instruction AST FileMgr FileMgrFacts Loader LoaderFacts.
#[local] Open Scope Z_scope.

(** ** Refinement of the byte stream *)

(** A stream with the bytes [l] left and no error so far. *)
Definition fsm (l : list Z) : FileMgrFStream := mkFSMgr (mkIFS true l false false) Success.

Definition fs_ok (s : FileMgrFStream) : Prop :=
  s = fsm (inbuf (Fin s)) /\ Forall is_byte (inbuf (Fin s)).
Definition fs_rest (s : FileMgrFStream) : list Z := inbuf (Fin s).

(** [refines] on the states [fsm l]. *)
Definition fs_sim {A} (m : M FileMgrFStream A) (sp : M (list Z) A) : Prop :=
  forall l, Forall is_byte l ->
    match sp l with
    | (Ok a, l') => m (fsm l) = (Ok a, fsm l') /\ Forall is_byte l'
    | (Err e, _) => (m (fsm l)).1 = Err e \/ e = EndOfFile /\ exists u, (m (fsm l)).1 = Undef u
    | (Undef u, _) => (m (fsm l)).1 = Undef u
    | (NoFuel, _) => (m (fsm l)).1 = NoFuel
    end.

Lemma fs_sim_refines {A} (m : M FileMgrFStream A) sp :
  fs_sim m sp -> refines fs_ok fs_rest m sp.
Proof.
  intros Hm s [E Hb]. specialize (Hm _ Hb). rewrite <- E in Hm. unfold fs_rest.
  destruct (sp (inbuf (Fin s))) as [r l']. destruct r as [a|e|u|].
  - destruct Hm as [-> Hl]. left. split; [done|]. intros ? _. by repeat split.
  - destruct Hm as [->|[-> Hu]]; [left|right]; done.
  - left. by rewrite Hm.
  - left. by rewrite Hm.
Qed.

Lemma fs_sim_bind {A B} (m : M FileMgrFStream A) sp (k : A -> M FileMgrFStream B) k' :
  fs_sim m sp -> (forall a, fs_sim (k a) (k' a)) -> fs_sim (bind m k) (bind sp k').
Proof.
  intros Hm Hk l Hl. specialize (Hm l Hl). unfold bind. destruct (sp l) as [r l'].
  destruct r as [a|e|u|].
  - destruct Hm as [-> Hl']. by apply Hk.
  - destruct (m (fsm l)) as [r1 s1]. destruct Hm as [E|[-> [u E]]]; cbn in E; subst r1; eauto.
  - destruct (m (fsm l)) as [r1 s1]. cbn in Hm. by subst r1.
  - destruct (m (fsm l)) as [r1 s1]. cbn in Hm. by subst r1.
Qed.

Lemma fs_sim_ret {A} (a : A) : fs_sim (ret a) (ret a).
Proof. by intros l Hl. Qed.

Lemma fs_readByte : fs_sim FS.readByte Stream.next.
Proof. intros [|b l] Hl; cbn; [by left|]. by inversion Hl. Qed.

(** The copy through a buffer iterator; it is also right for a count of 0. *)
Lemma fs_copy n :
  fs_sim (let* Str := if 0 <? n then FS.onFin (ifs_copy_n n) else ret [] in
          FS.checkFail ;;; ret Str) (Stream.take_n n).
Proof.
  intros l Hl. destruct (Z.ltb_spec 0 n); [|by rewrite take_n_nonpos].
  unfold Stream.take_n, bind, FS.onFin, zoom, ifs_copy_n. cbn [Fin fsm inbuf].
  destruct (n <=? sizeZ l); [|right; eauto]. split; [done|]. by apply Forall_drop.
Qed.

Lemma fs_readBytes n : fs_sim (FS.readBytes n) (Stream.take_n n).
Proof. exact (fs_copy n). Qed.

(** *** LEB128 *)

(** Where the specification runs out of bytes the loop ends with the failure recorded, or
    shifts too far first. *)
Lemma fs_leb_loop w n R O B l :
  w <= O + 7 * (Z.of_nat n - 1) -> (1 <= n)%nat -> is_byte B -> 128 <= B -> Forall is_byte l ->
  match Stream.leb w n R O l with
  | (Ok r, l') => FS.leb_loop_fs w (S n) R O B (fsm l) = (Ok r, fsm l') /\ Forall is_byte l'
  | (Err e, _) => e = EndOfFile /\
      ((exists r, FS.leb_loop_fs w (S n) R O B (fsm l) =
         (Ok r, mkFSMgr (mkIFS true [] true true) Success)) \/
       (FS.leb_loop_fs w (S n) R O B (fsm l)).1 = Undef UB_shift)
  | (Undef u, _) => (FS.leb_loop_fs w (S n) R O B (fsm l)).1 = Undef u
  | (NoFuel, _) => False
  end.
Proof.
  revert R O B l. induction n as [|n IH]; intros R O B l Hn H1 HB HB' Hl; [lia|].
  assert (FS.leb_loop_fs w (S (S n)) R O B (fsm l) =
    (let* b := FS.onFin (ifs_get B) in
     if w <=? O then undef UB_shift
     else FS.leb_loop_fs w (S n) (Z.lor R (wrap w (Z.shiftl (Z.land b 0x7F) O))) (O + 7) b) (fsm l))
    as ->.
  { cbn [FS.leb_loop_fs]. unfold bind at 1, get. cbn [ifs_fail fsm Fin failbit negb andb].
    rewrite byte_land_0x80, (proj2 (Z.ltb_ge B 128)) by done. done. }
  cbn [Stream.leb]. unfold bind. destruct l as [|b l]; cbn [Stream.next].
  - split; [done|]. cbn -[FS.leb_loop_fs wrap Z.land]. destruct (w <=? O); [by right|left].
    cbn [FS.leb_loop_fs]. unfold bind, get. cbn [ifs_fail Fin failbit negb andb]. eexists. reflexivity.
  - apply Forall_cons_1 in Hl as [Hb Hl]. unfold FS.onFin, zoom. cbn [ifs_get eofbit failbit orb inbuf Fin fsm].
    change (FS.set_Fin (mkIFS (is_open (Fin (fsm (b :: l)))) l false false) (fsm (b :: l))) with (fsm l).
    destruct (Z.leb_spec w O); [done|]. rewrite land_0x7F. destruct (Z.ltb_spec b 128).
    + cbn [FS.leb_loop_fs]. unfold bind, get. cbn [ifs_fail Fin failbit negb andb fsm].
      rewrite byte_land_0x80, (proj2 (Z.ltb_lt b 128)) by done. done.
    + apply IH; [lia|lia|done|done|done].
Qed.

Lemma fs_leb w : w <= 64 ->
  fs_sim (let* r := FS.leb_loop_fs w 12 0 0 0x80 in FS.checkFail ;;; ret r) (Stream.leb w 11 0 0).
Proof.
  intros Hw l Hl. pose proof (fs_leb_loop w 11 0 0 0x80 l ltac:(lia) ltac:(lia)) as Hs.
  specialize (Hs ltac:(done) ltac:(done) Hl). unfold bind.
  destruct (Stream.leb w 11 0 0 l) as [r l']. destruct r as [a|e|u|].
  - by destruct Hs as [-> ?].
  - destruct Hs as [-> [[r ->]|E]]; [by left|right].
    destruct (FS.leb_loop_fs _ _ _ _ _ _) as [? ?]. cbn in E. subst. eauto.
  - destruct (FS.leb_loop_fs _ _ _ _ _ _) as [? ?]. cbn in Hs. by subst.
  - done.
Qed.

(** The four readers: the check of the failure comes between the loop and the result. *)
Lemma fs_leb_then {A} w (k : Z -> Z -> Z -> M FileMgrFStream A) k' :
  w <= 64 -> (forall r o b, fs_sim (k r o b) (k' r o b)) ->
  fs_sim (FS.checkStatus ;;;
          let* (r, o, b) := FS.leb_loop_fs w 12 0 0 0x80 in FS.checkFail ;;; k r o b)
         (let* (r, o, b) := Stream.leb w 11 0 0 in k' r o b).
Proof.
  intros Hw Hk l Hl.
  pose proof (fs_sim_bind _ _ (fun '(r, o, b) => k r o b) (fun '(r, o, b) => k' r o b) (fs_leb w Hw)) as Hs.
  specialize (Hs ltac:(intros [[? ?] ?]; apply Hk) l Hl). revert Hs. unfold bind.
  cbn [FS.checkStatus bind get FSStatus fsm]. rewrite bool_decide_eq_false_2 by auto. cbn [ret].
  destruct (FS.leb_loop_fs w 12 0 0 0x80 (fsm l)) as [[[[r o] b]| | |] s1]; try done.
  unfold FS.checkFail. by destruct (ifs_fail (Fin s1)).
Qed.

#[local] Opaque FS.leb_loop_fs Stream.leb.
Lemma fs_readU32 : fs_sim FS.readU32 (Stream.leb_u 32).
Proof. apply (fs_leb_then 32 (fun r _ _ => ret r) (fun r _ _ => ret r)); done. Qed.
Lemma fs_readU64 : fs_sim FS.readU64 (Stream.leb_u 64).
Proof. apply (fs_leb_then 64 (fun r _ _ => ret r) (fun r _ _ => ret r)); done. Qed.

(** The end of the signed readers. *)
Definition sign_result {F} (w r o b : Z) : M F Z :=
  if negb (Z.land b 0x40 =? 0) && (o <? w)
  then ret (sgn w (Z.lor r (wrap w (Z.shiftl (2 ^ w - 1) o)))) else ret (sgn w r).

Lemma fs_sign_result w r o b : fs_sim (sign_result w r o b) (sign_result w r o b).
Proof. unfold sign_result. by destruct (_ && _). Qed.

Lemma fs_readS32 : fs_sim FS.readS32 (Stream.leb_s 32).
Proof. apply (fs_leb_then 32 (sign_result 32) (sign_result 32)); [done|apply fs_sign_result]. Qed.
Lemma fs_readS64 : fs_sim FS.readS64 (Stream.leb_s 64).
Proof. apply (fs_leb_then 64 (sign_result 64) (sign_result 64)); [done|apply fs_sign_result]. Qed.

(** *** Floats and names *)

Lemma fs_float_loop w n i U B l :
  Forall is_byte l -> 0 <= i -> 8 * (i + Z.of_nat n) <= w -> 0 <= U < 2 ^ (8 * i) ->
  if Z.of_nat n <=? sizeZ l
  then FS.float_loop_fs w n i U B (fsm l) =
       (Ok (U + 2 ^ (8 * i) * le_combine (take n l)), fsm (drop n l))
  else (FS.float_loop_fs w n i U B (fsm l)).1 = Err EndOfFile.
Proof.
  revert i U B l. induction n as [|n IH]; intros i U B l Hl Hi Hw HU; cbn [FS.float_loop_fs].
  { rewrite (proj2 (Z.leb_le _ _)) by (unfold sizeZ; lia). cbn [take le_combine].
    by rewrite Z.mul_0_r, Z.add_0_r. }
  destruct l as [|b l]; [done|]. apply Forall_cons_1 in Hl as [Hb Hl].
  unfold bind, FS.onFin, zoom. cbn [ifs_get eofbit failbit orb inbuf Fin fsm].
  change (FS.set_Fin (mkIFS (is_open (Fin (fsm (b :: l)))) l false false) (fsm (b :: l))) with (fsm l).
  cbn [FS.checkFail ifs_fail Fin failbit fsm]. fold (fsm l).
  destruct (le_acc w i U b) as (-> & H2 & HU'); [done|lia..|].
  specialize (IH (i + 1) (U + b * 2 ^ (8 * i)) b l Hl ltac:(lia) ltac:(lia) HU').
  replace (Z.of_nat (S n) <=? sizeZ (b :: l)) with (Z.of_nat n <=? sizeZ l)
    by (unfold sizeZ; cbn [length]; destruct (Z.leb_spec (Z.of_nat n) (Z.of_nat (length l)));
        symmetry; [apply Z.leb_le|apply Z.leb_gt]; lia).
  destruct (Z.of_nat n <=? sizeZ l); [|exact IH]. etransitivity; [exact IH|].
  cbn [take drop le_combine]. do 2 f_equal. rewrite H2. lia.
Qed.

Lemma fs_float w n : 0 <= n -> 8 * n <= w ->
  fs_sim (FS.checkStatus ;;; FS.float_loop_fs w (Z.to_nat n) 0 0 0x00) (Stream.le_num n).
Proof.
  intros Hn Hw l Hl. pose proof (fs_float_loop w (Z.to_nat n) 0 0 0 l Hl) as Hs.
  specialize (Hs ltac:(lia) ltac:(lia) ltac:(done)). rewrite Z2Nat.id in Hs by done.
  unfold Stream.le_num, Stream.take_n, bind.
  cbn [FS.checkStatus bind get FSStatus fsm]. rewrite bool_decide_eq_false_2 by auto. cbn [ret].
  fold (fsm l). destruct (n <=? sizeZ l); [|by left]. rewrite Hs. split; [|by apply Forall_drop].
  by rewrite Z.mul_0_r, Z.pow_0_r, Z.mul_1_l.
Qed.

Lemma fs_readName : fs_sim FS.readName Stream.name.
Proof. apply fs_sim_bind; [apply fs_readU32|exact fs_copy]. Qed.

Lemma fs_readByte_end s : fs_ok s -> fs_rest s = [] -> (FS.readByte s).1 = Err EndOfFile.
Proof. intros [-> _] E. unfold fs_rest in E. cbn in *. by rewrite E. Qed.

#[export] Instance FileMgrFStream_ByteSource : ByteSource FileMgrFStream := {
  src_ok := fs_ok;
  src_rest := fs_rest;
  src_bytes s Hs := proj2 Hs;
  src_readByte := fs_sim_refines _ _ fs_readByte;
  src_readByte_end := fs_readByte_end;
  src_readBytes n _ := fs_sim_refines _ _ (fs_readBytes n);
  src_readU32 := fs_sim_refines _ _ fs_readU32;
  src_readU64 := fs_sim_refines _ _ fs_readU64;
  src_readS32 := fs_sim_refines _ _ fs_readS32;
  src_readS64 := fs_sim_refines _ _ fs_readS64;
  src_readF32 := fs_sim_refines _ _ (fs_float 32 4 ltac:(lia) ltac:(lia));
  src_readF64 := fs_sim_refines _ _ (fs_float 64 8 ltac:(lia) ltac:(lia));
  src_readName := fs_sim_refines _ _ fs_readName
}.

(** ** Loading from a path *)

Lemma setPath_run fs Path l s : fs Path = Some l -> FS.setPath fs Path s = (Ok tt, fsm l).
Proof. intros E. unfold FS.setPath, ifs_open. rewrite E. by destruct (is_open (Fin s)). Qed.

(** An outcome of bytes that end too early. *)
Definition cut_off {A} (r : res A) : Prop := r = Err EndOfFile \/ exists u, r = Undef u.

(** What a loader returns for the bytes [l], against the loader on the byte stream. *)
Definition loads_as {A} (r sp : res A) : Prop := r = sp \/ sp = Err EndOfFile /\ cut_off r.

Lemma path_loads fs fuel Path l s :
  fs Path = Some l -> Forall is_byte l ->
  loads_as (parseModulePath fs fuel Path s).1 (loadModule (F := list Z) fuel l).1.
Proof.
  intros E Hl. unfold parseModulePath, bind. rewrite (setPath_run _ _ _ _ E).
  destruct (ref_loadModule (F := FileMgrFStream) fuel (fsm l)) as [E'|[E' Hu]];
    [done|by left|right; split; [exact E'|by right]].
Qed.

Lemma code_loads fuel l t :
  Forall is_byte l -> sizeZ l < 2 ^ 32 - 8 ->
  loads_as (parseModule fuel l t).1 (loadModule (F := list Z) fuel l).1.
Proof.
  intros Hb Hl. unfold parseModule, bind. destruct (decide (l = [])) as [->|Hne].
  { right. split; [done|by left]. }
  destruct (setCode_ok l t Hne Hb Hl) as (-> & Hok & Hr).
  destruct (fv_loadModule fuel _ Hok) as [E|[E Hu]]; rewrite Hr in E; [left; done|].
  right. split; [done|by right].
Qed.

(** [C27] Loading from a path and loading from memory agree: for a file that holds the bytes
    (fewer than 2^32 - 8 of them), from any earlier states of the two file managers, both
    overloads of parseModule return the same module or the same error, unless the bytes end
    before the module does, where each reports EndOfFile or has undefined behaviour; so a
    module is loaded by the one exactly if it is loaded by the other. *)
Theorem path_and_code_loads_agree (fs : list Z -> option (list Z)) (fuel : nat)
    (Path Code : list Z) (s : FileMgrFStream) (t : FileMgrVector) :
  fs Path = Some Code -> Forall is_byte Code -> sizeZ Code < 2 ^ 32 - 8 ->
  ((parseModulePath fs fuel Path s).1 = (parseModule fuel Code t).1 \/
   cut_off (parseModulePath fs fuel Path s).1 /\ cut_off (parseModule fuel Code t).1) /\
  (forall m, (parseModulePath fs fuel Path s).1 = Ok m <-> (parseModule fuel Code t).1 = Ok m).
Proof.
  intros E Hb Hl. pose proof (path_loads fs fuel Path Code s E Hb) as Hp.
  pose proof (code_loads fuel Code t Hb Hl) as Hc.
  set (rp := (parseModulePath fs fuel Path s).1) in *. set (rc := (parseModule fuel Code t).1) in *.
  clearbody rp rc. unfold loads_as, cut_off in *.
  split; [|intros m]; destruct Hp as [Hp|[Hp [Hp'|[u Hp']]]], Hc as [Hc|[Hc [Hc'|[v Hc']]]]; subst;
    rewrite ?Hp in *; eauto 8; split; congruence.
Qed.

Lemma path_and_code_loads_agree_witness :
  (parseModulePath (fun _ => Some empty_wasm) 9 [0x61] newFileMgrFStream).1 =
    Ok (set_header [0; 0x61; 0x73; 0x6D] [1; 0; 0; 0] empty_module).
Proof.
  apply (path_and_code_loads_agree (fun _ => Some empty_wasm) 9 [0x61] empty_wasm
           newFileMgrFStream newFileMgrVector);
    [done|exact empty_wasm_bytes|by vm_compute|by vm_compute].
Defined.

(** A file that is cut off has undefined behaviour.  Reading a file of fewer than eight
    bytes copies past the end of the stream buffer, since readBytes only looks at the state of
    the stream, which the buffer iterator does not set; the vector reader reports EndOfFile. *)
Theorem truncated_file_undefined (fs : list Z -> option (list Z)) (fuel : nat)
    (Path Code : list Z) (s : FileMgrFStream) (t : FileMgrVector) :
  fs Path = Some Code -> sizeZ Code < 8 ->
  (parseModulePath fs fuel Path s).1 = Undef UB_deref /\
  (parseModule fuel Code t).1 = Err EndOfFile.
Proof.
  intros E Hl. unfold sizeZ in Hl. split.
  - unfold parseModulePath, bind. rewrite (setPath_run _ _ _ _ E).
    do 8 (destruct Code as [|? Code]; [reflexivity|]). cbn in Hl. lia.
  - do 8 (destruct Code as [|? Code]; [reflexivity|]). cbn in Hl. lia.
Qed.

Lemma truncated_file_undefined_witness :
  (parseModulePath (fun _ => Some [0; 0x61; 0x73; 0x6D; 1]) 9 [0x61] newFileMgrFStream).1 =
    Undef UB_deref.
Proof.
  apply (truncated_file_undefined (fun _ => Some [0; 0x61; 0x73; 0x6D; 1]) 9 [0x61]
           [0; 0x61; 0x73; 0x6D; 1] newFileMgrFStream newFileMgrVector); by vm_compute.
Defined.
