(* ===== verification/FormChecker.v ===== *)
(** * The form checker: include/validator/formchecker.h, lib/validator/formchecker.cpp *)
From stdpp Require Import base list numbers option.
From Stdlib Require Import ZArith Lia.
From S2P Require Import Prelude Types Instruction AST.
#[local] Open Scope Z_scope.

(** ** State *)

Inductive VType : Set := V_Unknown | V_I32 | V_I64 | V_F32 | V_F64.

#[export] Instance VType_eq_dec : EqDecision VType.
Proof. solve_decision. Defined.

Record CtrlFrame : Type := mkCtrl
  { LabelTypes : list VType; EndTypes : list VType; Height : Z; IsUnreachable : bool }.

#[export] Instance CtrlFrame_eq_dec : EqDecision CtrlFrame.
Proof. solve_decision. Defined.

(** The deques have their front at the head of the list. *)
Record FormChecker : Type := mkChecker {
  fcTypes : list (list VType * list VType);
  fcFuncs : list Z;
  fcTables : list ElemType;
  fcMems : list Z;
  fcGlobals : list (VType * ValMut);
  NumImportGlobals : Z;
  fcLocals : list VType;
  fcReturns : list VType;
  CtrlStack : list CtrlFrame;
  ValStack : list VType
}.

Definition newFormChecker : FormChecker := mkChecker [] [] [] [] [] 0 [] [] [] [].

Definition set_ctrl (cs : list CtrlFrame) (c : FormChecker) : FormChecker :=
  mkChecker (fcTypes c) (fcFuncs c) (fcTables c) (fcMems c) (fcGlobals c) (NumImportGlobals c)
    (fcLocals c) (fcReturns c) cs (ValStack c).
Definition set_vals (vs : list VType) (c : FormChecker) : FormChecker :=
  mkChecker (fcTypes c) (fcFuncs c) (fcTables c) (fcMems c) (fcGlobals c) (NumImportGlobals c)
    (fcLocals c) (fcReturns c) (CtrlStack c) vs.

#[local] Abbreviation MC := (M FormChecker).

(** ** Contexts *)

Definition ASTToVType (V : ValType) : VType :=
  match V with
  | VT_I32 => V_I32 | VT_I64 => V_I64 | VT_F32 => V_F32 | VT_F64 => V_F64 | VT_None => V_Unknown
  end.

Definition reset (CleanGlobal : bool) : MC unit := modify (fun c =>
  if CleanGlobal then newFormChecker
  else mkChecker (fcTypes c) (fcFuncs c) (fcTables c) (fcMems c) (fcGlobals c)
         (NumImportGlobals c) [] [] [] []).

Definition addType (Func : FunctionType) : MC unit := modify (fun c =>
  mkChecker
    (fcTypes c ++ [(ASTToVType <$> ParamTypes Func, ASTToVType <$> ReturnTypes Func)])
    (fcFuncs c) (fcTables c) (fcMems c) (fcGlobals c) (NumImportGlobals c)
    (fcLocals c) (fcReturns c) (CtrlStack c) (ValStack c)).

Definition addFunc (TypeIdx : Z) : MC unit := modify (fun c =>
  if sizeZ (fcTypes c) >? TypeIdx then
    mkChecker (fcTypes c) (fcFuncs c ++ [TypeIdx]) (fcTables c) (fcMems c) (fcGlobals c)
      (NumImportGlobals c) (fcLocals c) (fcReturns c) (CtrlStack c) (ValStack c)
  else c).

Definition addTable (Tab : TableType) : MC unit := modify (fun c =>
  mkChecker (fcTypes c) (fcFuncs c) (fcTables c ++ [TabElemType Tab]) (fcMems c) (fcGlobals c)
    (NumImportGlobals c) (fcLocals c) (fcReturns c) (CtrlStack c) (ValStack c)).

Definition addMemory (_ : MemoryType) : MC unit := modify (fun c =>
  mkChecker (fcTypes c) (fcFuncs c) (fcTables c) (fcMems c ++ [sizeZ (fcMems c)]) (fcGlobals c)
    (NumImportGlobals c) (fcLocals c) (fcReturns c) (CtrlStack c) (ValStack c)).

Definition addGlobal (Glob : GlobalType) (IsImport : bool) : MC unit := modify (fun c =>
  mkChecker (fcTypes c) (fcFuncs c) (fcTables c) (fcMems c)
    (fcGlobals c ++ [(ASTToVType (GlobValType Glob), GlobMut Glob)])
    (if IsImport then wrap 32 (NumImportGlobals c + 1) else NumImportGlobals c)
    (fcLocals c) (fcReturns c) (CtrlStack c) (ValStack c)).

(** [addLocal] called [n] times for one type. *)
Definition addLocals (n : Z) (V : VType) : MC unit := modify (fun c =>
  mkChecker (fcTypes c) (fcFuncs c) (fcTables c) (fcMems c) (fcGlobals c) (NumImportGlobals c)
    (fcLocals c ++ replicate (Z.to_nat n) V) (fcReturns c) (CtrlStack c) (ValStack c)).

Definition addReturns (l : list VType) : MC unit := modify (fun c =>
  mkChecker (fcTypes c) (fcFuncs c) (fcTables c) (fcMems c) (fcGlobals c) (NumImportGlobals c)
    (fcLocals c) (fcReturns c ++ l) (CtrlStack c) (ValStack c)).

(** ** Stack operations *)

Definition pushType (V : VType) : MC unit := modify (fun c => set_vals (V :: ValStack c) c).

Definition pushTypes (Input : list VType) : MC unit := mapM_ pushType Input.

(** [CtrlStack[0]] and [ValStack.front()] on an empty deque are undefined. *)
Definition popAny : MC VType := fun c =>
  match CtrlStack c with
  | [] => (Undef UB_vector, c)
  | f :: _ =>
      if sizeZ (ValStack c) =? Height f then
        if IsUnreachable f then (Ok V_Unknown, c) else (Err ValidationFailed, c)
      else match ValStack c with
      | [] => (Undef UB_vector, c)
      | V :: vs => (Ok V, set_vals vs c)
      end
  end.

Definition popType (E : VType) : MC VType :=
  let* Res := popAny in
  if bool_decide (Res = V_Unknown) then ret E
  else if bool_decide (E = V_Unknown) then ret Res
  else if bool_decide (Res <> E) then throw ValidationFailed
  else ret Res.

Definition popTypes (Input : list VType) : MC unit :=
  mapM_ (fun V => popType V ;;; ret tt) (rev Input).

Definition pushCtrl (Label Out : list VType) : MC unit := modify (fun c =>
  set_ctrl (mkCtrl Label Out (sizeZ (ValStack c)) false :: CtrlStack c) c).

Definition popCtrl : MC (list VType) :=
  let* c := get in
  match CtrlStack c with
  | [] => throw ValidationFailed
  | Head :: _ =>
      popTypes (EndTypes Head) ;;;
      let* c' := get in
      if negb (sizeZ (ValStack c') =? Height Head) then throw ValidationFailed
      else
        modify (fun c => set_ctrl (tl (CtrlStack c)) c) ;;;
        ret (EndTypes Head)
  end.

(** [while (ValStack.size() > CtrlStack[0].Height) popType();] *)
Fixpoint unwind (fuel : nat) : MC unit :=
  let* c := get in
  match CtrlStack c with
  | [] => undef UB_vector
  | f :: _ =>
      if sizeZ (ValStack c) >? Height f then
        match fuel with
        | O => nofuel
        | S fuel' => popAny ;;; unwind fuel'
        end
      else ret tt
  end.

(** Each iteration pops a value, so the size of the stack is enough fuel. *)
Definition unreachable : MC unit :=
  let* c := get in
  unwind (length (ValStack c)) ;;;
  let* c' := get in
  match CtrlStack c' with
  | [] => undef UB_vector
  | f :: fs => put (set_ctrl (mkCtrl (LabelTypes f) (EndTypes f) (Height f) true :: fs) c')
  end.

Definition StackTrans (Take Put : list VType) : MC unit :=
  popTypes Take ;;; pushTypes Put.

(** ** Instructions *)

Definition fail : MC unit := throw ValidationFailed.

Definition checkControl (Code : OpCode) : MC unit :=
  match Code with
  | Op_Unreachable => unreachable
  | Op_Nop => ret tt
  | Op_Return => let* c := get in popTypes (fcReturns c) ;;; unreachable
  | _ => fail
  end.

Definition checkBr (Code : OpCode) (N : Z) : MC unit :=
  let* c := get in
  match atZ (CtrlStack c) N with
  | None => fail
  | Some f =>
      match Code with
      | Op_Br => popTypes (LabelTypes f) ;;; unreachable
      | Op_Br_if =>
          popType V_I32 ;;; popTypes (LabelTypes f) ;;; pushTypes (LabelTypes f)
      | _ => fail
      end
  end.

Definition checkBrTable (Code : OpCode) (LabelTable : list Z) (LabelIdx : Z) : MC unit :=
  match Code with
  | Op_Br_table =>
      let* c := get in
      match atZ (CtrlStack c) LabelIdx with
      | None => fail
      | Some m =>
          mapM_ (fun N =>
            match atZ (CtrlStack c) N with
            | None => fail
            | Some n => if bool_decide (LabelTypes n <> LabelTypes m) then fail else ret tt
            end) LabelTable ;;;
          popType V_I32 ;;; popTypes (LabelTypes m) ;;; unreachable
      end
  | _ => fail
  end.

Definition checkCall (Code : OpCode) (N : Z) : MC unit :=
  let* c := get in
  match Code with
  | Op_Call =>
      match atZ (fcFuncs c) N with
      | None => fail
      | Some t =>
          match atZ (fcTypes c) t with
          | None => undef UB_vector
          | Some ft => StackTrans ft.1 ft.2
          end
      end
  | Op_Call_indirect =>
      match fcTables c with
      | [] => fail
      | t :: _ =>
          if bool_decide (t <> ET_FuncRef) then fail
          else match atZ (fcTypes c) N with
          | None => fail
          | Some ft => popType V_I32 ;;; StackTrans ft.1 ft.2
          end
      end
  | _ => fail
  end.

Definition checkParametric (Code : OpCode) : MC unit :=
  match Code with
  | Op_Drop => StackTrans [V_Unknown] []
  | Op_Select =>
      popType V_I32 ;;;
      let* T1 := popAny in
      let* T2 := popType T1 in
      pushType T2
  | _ => fail
  end.

Definition checkVariable (Code : OpCode) (VarIdx : Z) : MC unit :=
  let* c := get in
  match Code with
  | Local__get =>
      match atZ (fcLocals c) VarIdx with None => fail | Some T => pushType T end
  | Local__set =>
      match atZ (fcLocals c) VarIdx with None => fail | Some T => popType T ;;; ret tt end
  | Local__tee =>
      match atZ (fcLocals c) VarIdx with None => fail | Some T => popType T ;;; pushType T end
  | Global__get =>
      match atZ (fcGlobals c) VarIdx with None => fail | Some (T, _) => pushType T end
  | Global__set =>
      match atZ (fcGlobals c) VarIdx with
      | None => fail
      | Some (T, mu) => if bool_decide (mu <> Mut_Var) then fail else popType T ;;; ret tt
      end
  | _ => fail
  end.

(** The width [N] the fall-through switch computes; [None] for memory.size and
    memory.grow, which have no alignment to check. *)
Definition access_width (Code : OpCode) : option (option Z) :=
  match Code with
  | I64__load | F64__load | I64__store | F64__store => Some (Some 64)
  | I32__load | F32__load | I32__store | F32__store | I64__load32_s | I64__load32_u
  | I64__store32 => Some (Some 32)
  | I32__load16_s | I32__load16_u | I64__load16_s | I64__load16_u | I32__store16
  | I64__store16 => Some (Some 16)
  | I32__load8_s | I32__load8_u | I64__load8_s | I64__load8_u | I32__store8
  | I64__store8 => Some (Some 8)
  | Memory__size | Memory__grow => Some None
  | _ => None
  end.

Definition memory_type (Code : OpCode) : option (list VType * list VType) :=
  match Code with
  | I32__load | I32__load8_s | I32__load8_u | I32__load16_s | I32__load16_u =>
      Some ([V_I32], [V_I32])
  | I64__load | I64__load8_s | I64__load8_u | I64__load16_s | I64__load16_u | I64__load32_s
  | I64__load32_u => Some ([V_I32], [V_I64])
  | F32__load => Some ([V_I32], [V_F32])
  | F64__load => Some ([V_I32], [V_F64])
  | I32__store | I32__store8 | I32__store16 => Some ([V_I32; V_I32], [])
  | I64__store | I64__store8 | I64__store16 | I64__store32 => Some ([V_I32; V_I64], [])
  | F32__store => Some ([V_I32; V_F32], [])
  | F64__store => Some ([V_I32; V_F64], [])
  | Memory__size => Some ([], [V_I32])
  | Memory__grow => Some ([V_I32], [V_I32])
  | _ => None
  end.

(** [(1UL << Align) > (N >> 3UL)]; the shift is undefined from 64 on. *)
Definition check_align (Code : OpCode) (Align : Z) : MC unit :=
  match access_width Code with
  | None => fail
  | Some None => ret tt
  | Some (Some N) =>
      if 64 <=? Align then undef UB_shift
      else if Z.shiftl 1 Align >? Z.shiftr N 3 then fail else ret tt
  end.

(** [StackTrans] for the types a switch selects; failure for its default. *)
Definition trans_by (o : option (list VType * list VType)) : MC unit :=
  match o with Some (Take, Put) => StackTrans Take Put | None => fail end.

Definition checkMemory (Code : OpCode) (Align : Z) : MC unit :=
  let* c := get in
  if sizeZ (fcMems c) =? 0 then fail
  else check_align Code Align ;;; trans_by (memory_type Code).

Definition const_type (Code : OpCode) : option (list VType * list VType) :=
  match Code with
  | I32__const => Some ([], [V_I32])
  | I64__const => Some ([], [V_I64])
  | F32__const => Some ([], [V_F32])
  | F64__const => Some ([], [V_F64])
  | _ => None
  end.

Definition unary_type (Code : OpCode) : option (list VType * list VType) :=
  match Code with
  | I32__eqz | I32__clz | I32__ctz | I32__popcnt => Some ([V_I32], [V_I32])
  | I64__eqz => Some ([V_I64], [V_I32])
  | I64__clz | I64__ctz | I64__popcnt => Some ([V_I64], [V_I64])
  | F32__abs | F32__neg | F32__ceil | F32__floor | F32__trunc | F32__nearest | F32__sqrt =>
      Some ([V_F32], [V_F32])
  | F64__abs | F64__neg | F64__ceil | F64__floor | F64__trunc | F64__nearest | F64__sqrt =>
      Some ([V_F64], [V_F64])
  | I32__wrap_i64 => Some ([V_I64], [V_I32])
  | I32__trunc_f32_s | I32__trunc_f32_u | I32__reinterpret_f32 => Some ([V_F32], [V_I32])
  | I32__trunc_f64_s | I32__trunc_f64_u => Some ([V_F64], [V_I32])
  | I64__extend_i32_s | I64__extend_i32_u => Some ([V_I32], [V_I64])
  | I64__trunc_f32_s | I64__trunc_f32_u => Some ([V_F32], [V_I64])
  | I64__trunc_f64_s | I64__trunc_f64_u | I64__reinterpret_f64 => Some ([V_F64], [V_I64])
  | F32__convert_i32_s | F32__convert_i32_u | F32__reinterpret_i32 => Some ([V_I32], [V_F32])
  | F32__convert_i64_s | F32__convert_i64_u => Some ([V_I64], [V_F32])
  | F32__demote_f64 => Some ([V_F64], [V_F32])
  | F64__convert_i32_s | F64__convert_i32_u => Some ([V_I32], [V_F64])
  | F64__convert_i64_s | F64__convert_i64_u | F64__reinterpret_i64 => Some ([V_I64], [V_F64])
  | F64__promote_f32 => Some ([V_F32], [V_F64])
  | _ => None
  end.

Definition binary_type (Code : OpCode) : option (list VType * list VType) :=
  match Code with
  | I32__eq | I32__ne | I32__lt_s | I32__lt_u | I32__gt_s | I32__gt_u | I32__le_s | I32__le_u
  | I32__ge_s | I32__ge_u => Some ([V_I32; V_I32], [V_I32])
  | I64__eq | I64__ne | I64__lt_s | I64__lt_u | I64__gt_s | I64__gt_u | I64__le_s | I64__le_u
  | I64__ge_s | I64__ge_u => Some ([V_I64; V_I64], [V_I32])
  | F32__eq | F32__ne | F32__lt | F32__gt | F32__le | F32__ge => Some ([V_F32; V_F32], [V_I32])
  | F64__eq | F64__ne | F64__lt | F64__gt | F64__le | F64__ge => Some ([V_F64; V_F64], [V_I32])
  | I32__add | I32__sub | I32__mul | I32__div_s | I32__div_u | I32__rem_s | I32__rem_u | I32__and
  | I32__or | I32__xor | I32__shl | I32__shr_s | I32__shr_u | I32__rotl | I32__rotr =>
      Some ([V_I32; V_I32], [V_I32])
  | I64__add | I64__sub | I64__mul | I64__div_s | I64__div_u | I64__rem_s | I64__rem_u | I64__and
  | I64__or | I64__xor | I64__shl | I64__shr_s | I64__shr_u | I64__rotl | I64__rotr =>
      Some ([V_I64; V_I64], [V_I64])
  | F32__add | F32__sub | F32__mul | F32__div | F32__min | F32__max | F32__copysign =>
      Some ([V_F32; V_F32], [V_F32])
  | F64__add | F64__sub | F64__mul | F64__div | F64__min | F64__max | F64__copysign =>
      Some ([V_F64; V_F64], [V_F64])
  | _ => None
  end.

Definition block_results (t : ValType) : list VType :=
  if bool_decide (t <> VT_None) then [ASTToVType t] else [].

(** [if (auto Res = popCtrl()) pushTypes( *Res)]. *)
Definition popCtrl_push : MC unit := let* Res := popCtrl in pushTypes Res.

(** The dispatch of [checkInstrs] on one instruction, with the [checkInstr] overloads of
    the nested classes inline.  The result of [popType(VType::I32)] for the condition of
    an if is dropped. *)
Fixpoint checkInstr (i : Instr) : MC unit :=
  match dispatchInstruction (getOpCode i) with
  | None => fail
  | Some cl =>
      if bool_decide (cl <> node_class i) then undef UB_downcast
      else match i with
      | ControlInstruction Code => checkControl Code
      | BlockControlInstruction Code bt body =>
          let ResVec := block_results bt in
          match Code with
          | Op_Block =>
              pushCtrl ResVec ResVec ;;; mapM_ checkInstr body ;;; popCtrl_push
          | Op_Loop =>
              pushCtrl [] ResVec ;;; mapM_ checkInstr body ;;; popCtrl_push
          | _ => fail
          end
      | IfElseControlInstruction Code bt ifs els =>
          match Code with
          | Op_If =>
              let ResVec := block_results bt in
              try (popType V_I32) ;;;
              pushCtrl ResVec ResVec ;;;
              mapM_ checkInstr ifs ;;;
              (if sizeZ els >? 0 then
                 let* Results := popCtrl in
                 pushCtrl Results Results ;;;
                 mapM_ checkInstr els
               else ret tt) ;;;
              popCtrl_push
          | _ => fail
          end
      | BrControlInstruction Code n => checkBr Code n
      | BrTableControlInstruction Code t n => checkBrTable Code t n
      | CallControlInstruction Code n => checkCall Code n
      | ParametricInstruction Code => checkParametric Code
      | VariableInstruction Code n => checkVariable Code n
      | MemoryInstruction Code a _ => checkMemory Code a
      | ConstInstruction Code _ => trans_by (const_type Code)
      | UnaryNumericInstruction Code => trans_by (unary_type Code)
      | BinaryNumericInstruction Code => trans_by (binary_type Code)
      end
  end.

Definition checkInstrs (Instrs : list Instr) : MC unit := mapM_ checkInstr Instrs.

(** [FormChecker::validate], both overloads: the labels of the frame are empty. *)
Definition validateExpr (Instrs : list Instr) (RetVals : list VType) : MC unit :=
  addReturns RetVals ;;;
  let* c := get in
  pushCtrl [] (fcReturns c) ;;;
  checkInstrs Instrs.
