(* ===== verification/FormCheckerFacts.v ===== *)
(** * The form checker: its stacks stay well formed, and it never leaves them *)
From stdpp Require Import base list numbers option.
From Stdlib Require Import ZArith Lia.
From S2P Require Import Prelude Types Instruction AST FormChecker.
#[local] Open Scope Z_scope.

(** ** Invariant *)

(** The heights of the frames are within the value stack, innermost first. *)
Fixpoint heights_ok (n : Z) (cs : list CtrlFrame) : Prop :=
  match cs with
  | [] => True
  | f :: fs => 0 <= Height f <= n /\ heights_ok (Height f) fs
  end.

(** The type of every function exists. *)
Definition ctx_ok (c : FormChecker) : Prop :=
  Forall (fun t => 0 <= t < sizeZ (fcTypes c)) (fcFuncs c).

Definition fc_inv (c : FormChecker) : Prop :=
  ctx_ok c /\ CtrlStack c <> [] /\ heights_ok (sizeZ (ValStack c)) (CtrlStack c).

(** Only the two stacks differ. *)
Definition same_ctx (c c' : FormChecker) : Prop :=
  c' = set_ctrl (CtrlStack c') (set_vals (ValStack c') c).

(** A frame with the unreachable flag possibly raised. *)
Definition flagged (f : CtrlFrame) (b : bool) : CtrlFrame :=
  mkCtrl (LabelTypes f) (EndTypes f) (Height f) b.

(** What a successful check does to the state: the frames stay, but for the flag of the
    innermost one. *)
Definition check_rel (c c' : FormChecker) : Prop :=
  same_ctx c c' /\ fc_inv c' /\
  exists f fs b, CtrlStack c = f :: fs /\ CtrlStack c' = flagged f b :: fs.

(** No undefined behaviour, no missing fuel, [check_rel] on success, and the only error is
    ValidationFailed. *)
Definition safe_at {A} (m : M FormChecker A) (c : FormChecker) : Prop :=
  match m c with
  | (Ok _, c') => check_rel c c'
  | (Err e, _) => e = ValidationFailed
  | (Undef _, _) | (NoFuel, _) => False
  end.
Definition safe {A} (m : M FormChecker A) : Prop := forall c, fc_inv c -> safe_at m c.

Lemma check_rel_refl c : fc_inv c -> check_rel c c.
Proof.
  intros Hc. split; [by destruct c|]. split; [done|].
  destruct Hc as (_ & Hne & _). destruct (CtrlStack c) as [|f fs] eqn:E; [done|].
  exists f, fs, (IsUnreachable f). by destruct f.
Qed.

Lemma same_ctx_trans c1 c2 c3 : same_ctx c1 c2 -> same_ctx c2 c3 -> same_ctx c1 c3.
Proof. unfold same_ctx. intros H1 H2. rewrite H1 in H2. exact H2. Qed.

Lemma check_rel_trans c1 c2 c3 : check_rel c1 c2 -> check_rel c2 c3 -> check_rel c1 c3.
Proof.
  intros (H1 & _ & f & fs & b & E1 & E2) (H2 & Hi & g & gs & b' & E3 & E4).
  split; [by eapply same_ctx_trans|]. split; [done|].
  rewrite E2 in E3. simplify_eq. by exists f, gs, b'.
Qed.

Lemma check_rel_inv c c' : check_rel c c' -> fc_inv c'.
Proof. intros (_ & ? & _). done. Qed.

Lemma same_ctx_ok c c' : same_ctx c c' -> ctx_ok c -> ctx_ok c'.
Proof. unfold same_ctx. by intros ->. Qed.

(** ** Composition *)

Lemma safe_bind {A B} (m : M FormChecker A) (k : A -> M FormChecker B) :
  safe m -> (forall a, safe (k a)) -> safe (bind m k).
Proof.
  intros Hm Hk c Hc. specialize (Hm c Hc). unfold safe_at, bind in *.
  destruct (m c) as [[a|e|u|] c1]; try done.
  specialize (Hk a c1 (check_rel_inv _ _ Hm)). unfold safe_at in Hk.
  destruct (k a c1) as [[b|e|u|] c2]; try done. by eapply check_rel_trans.
Qed.

Lemma safe_get {A} (k : FormChecker -> M FormChecker A) :
  (forall c, fc_inv c -> safe_at (k c) c) -> safe (bind get k).
Proof. intros Hk c Hc. by apply Hk. Qed.

Lemma safe_ret {A} (a : A) : safe (ret a).
Proof. intros c Hc. by apply check_rel_refl. Qed.
Lemma safe_throw {A} : safe (throw (A := A) ValidationFailed).
Proof. done. Qed.

Lemma safe_fail : safe fail.
Proof. done. Qed.

Lemma safe_mapM {A} (f : A -> M FormChecker unit) l :
  (forall x, x ∈ l -> safe (f x)) -> safe (mapM_ f l).
Proof.
  induction l as [|x l IH]; intros Hf; cbn [mapM_]; [apply safe_ret|].
  apply safe_bind; [apply Hf; left|]. intros _. apply IH. intros y Hy. apply Hf. by right.
Qed.

Create HintDb fc.
#[export] Hint Resolve safe_bind safe_ret safe_throw safe_fail safe_mapM : fc.

(** ** Stack operations *)

(** Changing the value stack, above the innermost height, is harmless. *)
Lemma check_rel_vals c vs f fs :
  fc_inv c -> CtrlStack c = f :: fs -> Height f <= sizeZ vs -> check_rel c (set_vals vs c).
Proof.
  intros (Hx & Hne & Hh) E Hv. rewrite E in Hh. cbn in Hh.
  split; [done|]. split; [split; [done|]; cbn; rewrite E; cbn; split; [done|]; split; [lia|apply Hh]|].
  exists f, fs, (IsUnreachable f). cbn. by destruct f.
Qed.

Lemma safe_pushType V : safe (pushType V).
Proof.
  intros c Hc. pose proof Hc as (_ & Hne & Hh). destruct (CtrlStack c) as [|f fs] eqn:E; [done|].
  cbn in Hh. eapply check_rel_vals; [done..|]. rewrite sizeZ_cons. lia.
Qed.

(** [popType()] succeeds or fails without leaving the stack of the frame. *)
Lemma popAny_cases c : fc_inv c ->
  (exists V, popAny c = (Ok V, c)) \/ popAny c = (Err ValidationFailed, c) \/
  (exists V vs, popAny c = (Ok V, set_vals vs c) /\ ValStack c = V :: vs /\
     check_rel c (set_vals vs c)).
Proof.
  intros Hc. pose proof Hc as (_ & Hne & Hh). unfold popAny.
  destruct (CtrlStack c) as [|f fs] eqn:E; [done|]. cbn in Hh.
  destruct (Z.eqb_spec (sizeZ (ValStack c)) (Height f)) as [Heq|Hneq].
  - destruct (IsUnreachable f); eauto.
  - destruct (ValStack c) as [|V vs] eqn:Ev; [unfold sizeZ in *; cbn in *; lia|].
    right. right. exists V, vs. split; [done|]. split; [done|].
    eapply check_rel_vals; [done..|]. rewrite sizeZ_cons in *. lia.
Qed.

Lemma safe_popAny : safe popAny.
Proof.
  intros c Hc. unfold safe_at.
  destruct (popAny_cases c Hc) as [[V ->]|[->|(V & vs & -> & _ & Hr)]]; [|done|done].
  by apply check_rel_refl.
Qed.
#[export] Hint Resolve safe_pushType safe_popAny : fc.

Lemma safe_popType E : safe (popType E).
Proof. apply safe_bind; [apply safe_popAny|]. intros V. repeat case_bool_decide; auto with fc. Qed.

(** Dropping the error of [popType] keeps the state well formed. *)
Lemma safe_try_popType E : safe (try (popType E)).
Proof.
  intros c Hc. unfold safe_at, try, popType, bind.
  destruct (popAny_cases c Hc) as [[V ->]|[->|(V & vs & -> & _ & Hr)]];
    repeat case_bool_decide; cbn; try done; by apply check_rel_refl.
Qed.

Lemma safe_pushTypes l : safe (pushTypes l).
Proof. apply safe_mapM. intros. apply safe_pushType. Qed.
Lemma safe_popTypes l : safe (popTypes l).
Proof.
  apply safe_mapM. intros. apply safe_bind; [apply safe_popType|]. intros. apply safe_ret.
Qed.
#[export] Hint Resolve safe_popType safe_try_popType safe_pushTypes safe_popTypes : fc.

Lemma safe_StackTrans t p : safe (StackTrans t p).
Proof. apply safe_bind; auto with fc. Qed.
Lemma safe_trans_by o : safe (trans_by o).
Proof. destruct o as [[t p]|]; [apply safe_StackTrans|apply safe_throw]. Qed.
#[export] Hint Resolve safe_StackTrans safe_trans_by : fc.

(** The loop of [unreachable] stops at the height of the frame. *)
Lemma unwind_ok fuel c f fs :
  fc_inv c -> CtrlStack c = f :: fs -> sizeZ (ValStack c) <= Height f + Z.of_nat fuel ->
  exists vs, unwind fuel c = (Ok tt, set_vals vs c) /\ sizeZ vs = Height f /\
    check_rel c (set_vals vs c).
Proof.
  revert c. induction fuel as [|fuel IH]; intros c Hc E Hn;
    pose proof Hc as (_ & _ & Hh); rewrite E in Hh; cbn in Hh; cbn [unwind];
    unfold bind at 1, get; rewrite E; destruct (Z.gtb_spec (sizeZ (ValStack c)) (Height f)).
  1: lia.
  1,3: exists (ValStack c); split; [by destruct c|]; split; [lia|];
    eapply check_rel_vals; [done..|lia].
  unfold bind. destruct (popAny_cases c Hc) as [[V Ep]|[Ep|(V & vs & Ep & Ev & Hr)]].
  1,2: exfalso; unfold popAny in Ep; rewrite E in Ep;
    rewrite (proj2 (Z.eqb_neq _ _)) in Ep by lia; destruct (ValStack c) as [|V' vs'] eqn:Ev';
    [discriminate Ep|]; try discriminate Ep; injection Ep as <- Ec;
    apply (f_equal (length ∘ ValStack)) in Ec; cbn in Ec; rewrite Ev' in Ec; cbn in Ec; lia.
  rewrite Ep. destruct (IH (set_vals vs c) (check_rel_inv _ _ Hr) E) as (vs' & -> & Hs & Hr').
  { cbn. rewrite Ev, sizeZ_cons in Hn. lia. }
  exists vs'. split; [done|]. split; [done|]. by eapply check_rel_trans.
Qed.

Lemma safe_unreachable : safe unreachable.
Proof.
  intros c Hc. pose proof Hc as (Hx & Hne & Hh). destruct (CtrlStack c) as [|f fs] eqn:E; [done|].
  cbn in Hh. unfold safe_at, unreachable, bind at 1 2, get.
  destruct (unwind_ok (length (ValStack c)) c f fs Hc E) as (vs & -> & Hs & Hr);
    [unfold sizeZ; lia|].
  unfold bind. cbn [CtrlStack set_vals set_ctrl]. rewrite E. cbn.
  split; [done|]. split; [split; [done|]; cbn; split; [done|]; split; [lia|apply Hh]|].
  by exists f, fs, true.
Qed.
#[export] Hint Resolve safe_unreachable : fc.

(** ** Nested frames *)

Lemma popCtrl_ok c f fs : fc_inv c -> CtrlStack c = f :: fs ->
  match popCtrl c with
  | (Ok r, c') => r = EndTypes f /\ same_ctx c c' /\ CtrlStack c' = fs /\
      sizeZ (ValStack c') = Height f
  | (Err e, _) => e = ValidationFailed
  | _ => False
  end.
Proof.
  intros Hc E. unfold popCtrl, bind at 1, get. rewrite E.
  pose proof (safe_popTypes (EndTypes f) c Hc) as Hp. unfold safe_at in Hp. unfold bind at 1.
  destruct (popTypes (EndTypes f) c) as [[[]|e|u|] c1]; try done.
  destruct Hp as (Hx & _ & g & gs & b & E1 & E2). rewrite E in E1. simplify_eq.
  unfold bind, get, modify. destruct (Z.eqb_spec (sizeZ (ValStack c1)) (Height g)); [|done].
  cbn. rewrite E2. split; [done|]. split; [|done]. unfold same_ctx in *. rewrite Hx. done.
Qed.

(** A checked body between [pushCtrl] and [popCtrl] leaves the frames as they were. *)
Lemma framed (Label Out : list VType) (body : M FormChecker unit) c :
  safe body -> fc_inv c ->
  match bind (pushCtrl Label Out) (fun _ => bind body (fun _ => popCtrl)) c with
  | (Ok r, c') => r = Out /\ check_rel c c'
  | (Err e, _) => e = ValidationFailed
  | _ => False
  end.
Proof.
  intros Hb Hc. unfold bind, pushCtrl, modify. pose proof Hc as (Hx & Hne & Hh).
  set (f := mkCtrl Label Out (sizeZ (ValStack c)) false).
  set (c1 := set_ctrl (f :: CtrlStack c) c).
  assert (fc_inv c1) as Hc1.
  { split; [done|]. split; [done|]. cbn. split; [|done]. unfold sizeZ. lia. }
  specialize (Hb c1 Hc1). unfold safe_at in Hb. destruct (body c1) as [[[]|e|u|] c2]; try done.
  destruct Hb as (Hx2 & Hc2 & g & gs & b & E1 & E2). cbn in E1. simplify_eq.
  pose proof (popCtrl_ok c2 _ _ Hc2 E2) as Hp. destruct (popCtrl c2) as [[r|e|u|] c3]; try done.
  destruct Hp as (-> & Hx3 & E3 & Hs). split; [done|]. cbn in Hs.
  assert (same_ctx c c3) as Hx'.
  { unfold same_ctx in *. rewrite Hx2 in Hx3. rewrite Hx3. done. }
  split; [done|]. split.
  - split; [by eapply same_ctx_ok|]. rewrite E3. split; [done|]. by rewrite Hs.
  - destruct (CtrlStack c) as [|h hs] eqn:E; [done|]. rewrite E3.
    exists h, hs, (IsUnreachable h). by destruct h.
Qed.

Lemma safe_framed {A} Label Out (body : M FormChecker unit) (k : list VType -> M FormChecker A) :
  safe body -> safe (k Out) ->
  safe (pushCtrl Label Out ;;; body ;;; let* r := popCtrl in k r).
Proof.
  intros Hb Hk c Hc. pose proof (framed Label Out body c Hb Hc) as H.
  unfold safe_at, bind in *. destruct (pushCtrl Label Out c) as [[[]|e|u|] c1]; try done.
  destruct (body c1) as [[[]|e|u|] c2]; try done. destruct (popCtrl c2) as [[r|e|u|] c3]; try done.
  destruct H as [-> H]. specialize (Hk c3 (check_rel_inv _ _ H)). unfold safe_at in Hk.
  destruct (k Out c3) as [[b|e|u|] c4]; try done. by eapply check_rel_trans.
Qed.

Lemma safe_block Label Out (body : M FormChecker unit) :
  safe body -> safe (pushCtrl Label Out ;;; body ;;; popCtrl_push).
Proof. intros Hb. apply safe_framed; [done|]. apply safe_pushTypes. Qed.

Lemma safe_ext {A} (m m' : M FormChecker A) : (forall c, m c = m' c) -> safe m -> safe m'.
Proof. intros H Hm c Hc. unfold safe_at. rewrite <- H. by apply Hm. Qed.

(** An if without and with an else. *)
Lemma safe_ifelse Label Out (ifs els : M FormChecker unit) (has_else : bool) :
  safe ifs -> safe els ->
  safe (pushCtrl Label Out ;;; ifs ;;;
        (if has_else then let* r := popCtrl in pushCtrl r r ;;; els else ret tt) ;;;
        popCtrl_push).
Proof.
  intros Hi He. destruct has_else.
  - eapply (safe_ext (pushCtrl Label Out ;;; ifs ;;;
      let* r := popCtrl in (pushCtrl r r ;;; els ;;; popCtrl_push))).
    + intros c. unfold bind. repeat (case_match; simplify_eq; try done).
    + apply safe_framed; [done|]. by apply safe_block.
  - by apply safe_block.
Qed.

(** ** Instructions *)

(** Every alignment exponent is below 64. *)
Fixpoint aligned (i : Instr) : bool :=
  match i with
  | BlockControlInstruction _ _ body => forallb aligned body
  | IfElseControlInstruction _ _ ifs els => forallb aligned ifs && forallb aligned els
  | MemoryInstruction _ a _ => a <? 64
  | _ => true
  end.

Lemma safe_checkControl c : safe (checkControl c).
Proof.
  destruct c; cbn [checkControl]; auto with fc.
  apply safe_get. intros c Hc. apply safe_bind; auto with fc.
Qed.

Lemma safe_checkBr c n : safe (checkBr c n).
Proof.
  apply safe_get. intros st Hst. destruct (atZ _ _) as [f|]; [|by apply safe_throw].
  revert st Hst. change (safe (match c with
    | Op_Br => popTypes (LabelTypes f) ;;; unreachable
    | Op_Br_if => popType V_I32 ;;; popTypes (LabelTypes f) ;;; pushTypes (LabelTypes f)
    | _ => fail end)). destruct c; auto 10 with fc.
Qed.

Lemma safe_checkBrTable c t n : safe (checkBrTable c t n).
Proof.
  destruct c; cbn [checkBrTable]; try apply safe_throw.
  apply safe_get. intros st Hst. destruct (atZ _ n) as [m|]; [|by apply safe_throw].
  apply safe_bind; [| |done]; [|auto 10 with fc].
  apply safe_mapM. intros x _. destruct (atZ _ x); [|apply safe_throw].
  case_bool_decide; auto with fc.
Qed.

Lemma safe_checkCall c n : safe (checkCall c n).
Proof.
  apply safe_get. intros st Hst. destruct c; try (by apply safe_throw).
  - destruct (atZ (fcFuncs st) n) as [t|] eqn:E; [|by apply safe_throw].
    destruct Hst as (Hx & Hst). assert (0 <= t < sizeZ (fcTypes st)) as Ht.
    { unfold atZ in E. destruct (0 <=? n); [|done].
      exact (proj1 (Forall_lookup _ _) Hx _ _ E). }
    destruct (atZ_is_Some _ _ Ht) as [ft ->]. by apply safe_StackTrans.
  - destruct (fcTables st); [by apply safe_throw|]. case_bool_decide; [by apply safe_throw|].
    destruct (atZ (fcTypes st) n); [|by apply safe_throw]. apply safe_bind; auto with fc.
Qed.

Lemma safe_checkParametric c : safe (checkParametric c).
Proof. destruct c; cbn [checkParametric]; try apply safe_throw; auto 10 with fc. Qed.

Lemma safe_checkVariable c n : safe (checkVariable c n).
Proof.
  apply safe_get. intros st Hst. destruct c; try (by apply safe_throw);
    (destruct (atZ _ n) as [T|]; [|by apply safe_throw]); try destruct T as [T mu];
    try case_bool_decide; try (by apply safe_throw);
    first [by apply safe_pushType|apply safe_bind; auto with fc].
Qed.

Lemma safe_checkMemory c a : a < 64 -> safe (checkMemory c a).
Proof.
  intros Ha. apply safe_get. intros st Hst. destruct (_ =? 0); [by apply safe_throw|].
  apply safe_bind; [|auto with fc|done]. unfold check_align.
  destruct (access_width c) as [[N|]|]; auto with fc.
  rewrite (proj2 (Z.leb_gt 64 a)) by done. destruct (_ >? _); auto with fc.
Qed.

Lemma safe_body l : Forall (fun i => well_classed i = true -> aligned i = true -> safe (checkInstr i)) l ->
  forallb well_classed l = true -> forallb aligned l = true -> safe (mapM_ checkInstr l).
Proof.
  intros Hl Hw Ha. apply safe_mapM. intros i Hi. rewrite forallb_forall in Hw, Ha.
  apply list_elem_of_In in Hi as Hi'. rewrite Forall_forall in Hl. auto.
Qed.

Lemma safe_checkInstr i : well_classed i = true -> aligned i = true -> safe (checkInstr i).
Proof.
  induction i as [c bt body IH|c bt ifs els IH1 IH2|i Hb Hi] using Instr_nested_ind;
    intros Hw Ha; pose proof (well_classed_dispatch _ Hw) as Hd.
  - cbn [checkInstr]. rewrite Hd, bool_decide_false by (intros H; by apply H).
    cbn [well_classed aligned] in *. apply andb_true_iff in Hw as [_ Hw].
    pose proof (safe_body body IH Hw Ha) as Hbody.
    destruct c; try apply safe_throw; by apply safe_block.
  - cbn [checkInstr]. rewrite Hd, bool_decide_false by (intros H; by apply H).
    cbn [well_classed aligned] in *. apply andb_true_iff in Hw as [_ Hw].
    apply andb_true_iff in Hw as [Hw1 Hw2]. apply andb_true_iff in Ha as [Ha1 Ha2].
    pose proof (safe_body ifs IH1 Hw1 Ha1). pose proof (safe_body els IH2 Hw2 Ha2).
    destruct c; try apply safe_throw. apply safe_bind; [apply safe_try_popType|].
    intros _. by apply safe_ifelse.
  - destruct i; try (by exfalso; eapply Hb); try (by exfalso; eapply Hi);
      cbn [checkInstr]; rewrite Hd, bool_decide_false by (intros H; by apply H);
      auto using safe_checkControl, safe_checkBr, safe_checkBrTable, safe_checkCall,
        safe_checkParametric, safe_checkVariable, safe_trans_by.
    apply safe_checkMemory. cbn in Ha. lia.
Qed.

Lemma safe_checkInstrs l : forallb well_classed l = true -> forallb aligned l = true ->
  safe (checkInstrs l).
Proof.
  intros. apply safe_body; [|done..]. apply Forall_true. intros. by apply safe_checkInstr.
Qed.

(** ** The contexts are never touched *)

Definition ctx_eq (c c' : FormChecker) : Prop :=
  fcTypes c' = fcTypes c /\ fcFuncs c' = fcFuncs c /\ fcTables c' = fcTables c /\
  fcMems c' = fcMems c /\ fcGlobals c' = fcGlobals c /\
  NumImportGlobals c' = NumImportGlobals c.

#[export] Instance ctx_eq_equiv : Equivalence ctx_eq.
Proof.
  unfold ctx_eq. split; [done|intros ?? (?&?&?&?&?&?); done|].
  intros ??? (?&?&?&?&?&?) (?&?&?&?&?&?). repeat split; congruence.
Qed.

Definition keeps {A} (m : M FormChecker A) : Prop := forall c, ctx_eq c (m c).2.

Lemma ctx_keeps_bind {A B} (m : M FormChecker A) (k : A -> M FormChecker B) :
  keeps m -> (forall a, keeps (k a)) -> keeps (bind m k).
Proof.
  intros Hm Hk c. specialize (Hm c). unfold bind. destruct (m c) as [[a|e|u|] c1]; try done.
  transitivity c1; [done|]. apply Hk.
Qed.
Lemma ctx_keeps_try {A} (m : M FormChecker A) : keeps m -> keeps (try m).
Proof. intros Hm c. specialize (Hm c). unfold try. by destruct (m c) as [[]]. Qed.
Lemma ctx_keeps_pure {A} (m : M FormChecker A) : (forall c, (m c).2 = c) -> keeps m.
Proof. intros Hm c. by rewrite Hm. Qed.
Lemma ctx_keeps_ret {A} (a : A) : keeps (ret a).
Proof. by apply ctx_keeps_pure. Qed.
Lemma ctx_keeps_throw {A} e : keeps (throw (A := A) e).
Proof. by apply ctx_keeps_pure. Qed.
Lemma ctx_keeps_fail : keeps fail.
Proof. by apply ctx_keeps_pure. Qed.
Lemma ctx_keeps_undef {A} u : keeps (undef (A := A) u).
Proof. by apply ctx_keeps_pure. Qed.
Lemma ctx_keeps_nofuel {A} : keeps (nofuel (A := A)).
Proof. by apply ctx_keeps_pure. Qed.
Lemma ctx_keeps_get : keeps get.
Proof. by apply ctx_keeps_pure. Qed.
Lemma ctx_keeps_mapM {A} (f : A -> M FormChecker unit) l :
  (forall x, In x l -> keeps (f x)) -> keeps (mapM_ f l).
Proof.
  intros Hf c. apply (mapM_inv (ctx_eq c)); [done|]. intros x s Hx Hs.
  transitivity s; [done|]. by apply Hf, list_elem_of_In.
Qed.
Lemma ctx_keeps_pushType V : keeps (pushType V).
Proof. done. Qed.
Lemma ctx_keeps_popAny : keeps popAny.
Proof. intros c. unfold popAny. by repeat case_match. Qed.
Lemma ctx_keeps_pushCtrl l o : keeps (pushCtrl l o).
Proof. done. Qed.

Create HintDb keep.
#[export] Hint Resolve ctx_keeps_ret ctx_keeps_throw ctx_keeps_fail ctx_keeps_undef ctx_keeps_nofuel ctx_keeps_get
  ctx_keeps_pushType ctx_keeps_popAny ctx_keeps_pushCtrl : keep.

Ltac keep_step :=
  match goal with
  | |- keeps (bind _ _) => apply ctx_keeps_bind; [|intros ?]
  | |- keeps (try _) => apply ctx_keeps_try
  | |- keeps (mapM_ _ _) => apply ctx_keeps_mapM; intros ? ?
  | |- keeps (if ?b then _ else _) => destruct b
  | |- keeps (match ?x with _ => _ end) => destruct x
  | |- keeps (let _ := _ in _) => cbv zeta
  end.
Ltac keep_solve := repeat keep_step; auto with keep.

Lemma ctx_keeps_popType E : keeps (popType E).
Proof. unfold popType. keep_solve. Qed.
#[export] Hint Resolve ctx_keeps_popType : keep.
Lemma ctx_keeps_popTypes l : keeps (popTypes l).
Proof. unfold popTypes. keep_solve. Qed.
Lemma ctx_keeps_pushTypes l : keeps (pushTypes l).
Proof. unfold pushTypes. keep_solve. Qed.
#[export] Hint Resolve ctx_keeps_popTypes ctx_keeps_pushTypes : keep.
Lemma ctx_keeps_popCtrl : keeps popCtrl.
Proof. unfold popCtrl. keep_solve. Qed.
Lemma ctx_keeps_unwind fuel : keeps (unwind fuel).
Proof. induction fuel as [|fuel IH]; cbn [unwind]; keep_solve. Qed.
Lemma ctx_keeps_unreachable : keeps unreachable.
Proof.
  intros c. unfold unreachable, bind, get. pose proof (ctx_keeps_unwind (length (ValStack c)) c) as H.
  destruct (unwind _ c) as [[[]|e|u|] c1]; try done.
  transitivity c1; [done|]. by destruct (CtrlStack c1).
Qed.
#[export] Hint Resolve ctx_keeps_popCtrl ctx_keeps_unreachable : keep.
Lemma ctx_keeps_trans_by o : keeps (trans_by o).
Proof. unfold trans_by, StackTrans. keep_solve. Qed.
#[export] Hint Resolve ctx_keeps_trans_by : keep.

Lemma ctx_keeps_checkInstr i : keeps (checkInstr i).
Proof.
  induction i as [c bt body IH|c bt ifs els IH1 IH2|i Hb Hi] using Instr_nested_ind.
  - rewrite Forall_forall in IH. cbn [checkInstr]. unfold popCtrl_push.
    keep_solve; by apply IH.
  - rewrite Forall_forall in IH1, IH2. cbn [checkInstr]. unfold popCtrl_push.
    keep_solve; first [by apply IH1|by apply IH2].
  - destruct i; try (by exfalso; eapply Hb); try (by exfalso; eapply Hi); cbn [checkInstr];
      unfold checkControl, checkBr, checkBrTable, checkCall, checkParametric, checkVariable,
        checkMemory, check_align, StackTrans; keep_solve.
Qed.

Lemma ctx_keeps_checkInstrs l : keeps (checkInstrs l).
Proof. apply ctx_keeps_mapM. intros. apply ctx_keeps_checkInstr. Qed.

(** ** Properties *)

(** [C10] Checking a sequence of well-classed instructions (alignment exponents below 64)
    keeps the checker's stacks well formed: from a state whose frames lie within the value
    stack it ends in success or ValidationFailed, success keeps every enclosing frame and
    all contexts, may only raise the unreachable flag of the innermost frame, and never
    pops below its height; no deque is accessed outside its bounds. *)
Theorem form_checker_frames (l : list Instr) (c : FormChecker) :
  forallb well_classed l = true -> forallb aligned l = true -> fc_inv c ->
  match checkInstrs l c with
  | (Ok _, c') => fc_inv c' /\ ctx_eq c c' /\
      exists f fs b, CtrlStack c = f :: fs /\ CtrlStack c' = flagged f b :: fs /\
        Height f <= sizeZ (ValStack c')
  | (Err e, c') => e = ValidationFailed /\ ctx_eq c c'
  | _ => False
  end.
Proof.
  intros Hw Ha Hc. pose proof (safe_checkInstrs l Hw Ha c Hc) as H.
  pose proof (ctx_keeps_checkInstrs l c) as Hk. unfold safe_at in H.
  destruct (checkInstrs l c) as [[[]|e|u|] c']; try done.
  destruct H as (_ & Hi & f & fs & b & E1 & E2). split; [done|]. split; [done|].
  exists f, fs, b. split; [done|]. split; [done|].
  destruct Hi as (_ & _ & Hh). rewrite E2 in Hh. cbn in Hh. lia.
Qed.

Definition frame_example : FormChecker :=
  mkChecker [] [] [] [] [] 0 [V_I32] [] [mkCtrl [] [] 0 false] [].

Lemma frame_example_inv : fc_inv frame_example.
Proof. split; [constructor|]. split; [done|]. unfold sizeZ. cbn. lia. Qed.

Lemma form_checker_frames_witness :
  match checkInstrs [BlockControlInstruction Op_Block VT_I32 [VariableInstruction Local__get 0]]
          frame_example with
  | (Ok _, c') => fc_inv c' /\ ctx_eq frame_example c' /\
      exists f fs b, CtrlStack frame_example = f :: fs /\ CtrlStack c' = flagged f b :: fs /\
        Height f <= sizeZ (ValStack c')
  | (Err e, c') => e = ValidationFailed /\ ctx_eq frame_example c'
  | _ => False
  end.
Proof.
  apply (form_checker_frames
    [BlockControlInstruction Op_Block VT_I32 [VariableInstruction Local__get 0]] frame_example);
    [reflexivity|reflexivity|exact frame_example_inv].
Defined.

(** The condition of an if is not required: the error of the pop is dropped, so in a
    reachable frame whose stack is empty an if without a result and with empty arms is
    accepted and leaves the state as it was, although nothing can supply its condition. *)
Theorem if_condition_unchecked (c : FormChecker) (f : CtrlFrame) (fs : list CtrlFrame) :
  CtrlStack c = f :: fs -> IsUnreachable f = false -> sizeZ (ValStack c) = Height f ->
  checkInstr (IfElseControlInstruction Op_If VT_None [] []) c = (Ok tt, c).
Proof.
  intros E Hu Hs. destruct c as [ts fns tabs mems gs n ls rs cs vs]. cbn in E, Hs. subst cs.
  unfold checkInstr, try, popType, popAny, bind. cbn -[sizeZ Z.eqb].
  rewrite bool_decide_false by (intros H; by apply H). cbn -[sizeZ Z.eqb].
  rewrite Hs, Z.eqb_refl, Hu. cbn -[sizeZ Z.eqb].
  change (sizeZ [] >? 0) with false. change (block_results VT_None) with (@nil VType).
  unfold popCtrl_push, popCtrl, bind, get. cbn -[sizeZ Z.eqb]. by rewrite Z.eqb_refl.
Qed.

Lemma if_condition_unchecked_witness :
  checkInstr (IfElseControlInstruction Op_If VT_None [] []) frame_example = (Ok tt, frame_example).
Proof.
  apply (if_condition_unchecked frame_example (mkCtrl [] [] 0 false) []); reflexivity.
Defined.
