(* ===== verification/Validator.v ===== *)
(** * The validator: include/validator/validator.h, lib/validator/validator.cpp

    The only state of the validator is its form checker. *)
From stdpp Require Import base list numbers option.
From Stdlib Require Import ZArith Lia.
From S2P Require Import Prelude Types Instruction AST FormChecker.
#[local] Open Scope Z_scope.

Module Validator.

#[local] Abbreviation MC := (M FormChecker).

Definition LIMIT_TABLETYPE : Z := 2 ^ 32 - 1.
Definition LIMIT_MEMORYTYPE : Z := Z.shiftl 1 16.

(** [if (auto Res = ...; !Res) return Unexpect(ErrCode::ValidationFailed);] *)
Definition as_failed {A} (m : MC A) : MC A :=
  let* r := try m in
  match r with inl a => ret a | inr _ => throw ValidationFailed end.

(** [if (Mod.getXSection() != nullptr) validate( *Mod.getXSection())] *)
Definition on_section {A} (o : option A) (f : A -> MC unit) : MC unit :=
  match o with Some x => f x | None => ret tt end.

(** ** Types *)

Definition validateLimit (Lim : Limit) (K : Z) : MC unit :=
  let Cond1 := Min Lim <=? K in
  let Cond2 := if hasMax Lim then (Max Lim <=? K) && (Min Lim <=? Max Lim) else true in
  if negb Cond1 || negb Cond2 then throw ValidationFailed else ret tt.

Definition validateTable (Tab : TableType) : MC unit := validateLimit (Table Tab) LIMIT_TABLETYPE.
Definition validateMemory (Mem : MemoryType) : MC unit :=
  validateLimit (Memory Mem) LIMIT_MEMORYTYPE.

(** Never called by the validator. *)
Definition validateFunctionType (Func : FunctionType) : MC unit :=
  if sizeZ (ReturnTypes Func) >? 1 then throw ValidationFailed else ret tt.

(** ** Constant expressions *)

Definition check_const_instr (RestrictGlobal : bool) (i : Instr) : MC unit :=
  match getOpCode i with
  | Global__get =>
      if RestrictGlobal then
        match i with
        | VariableInstruction _ VarIdx =>
            let* c := get in
            if VarIdx >=? NumImportGlobals c then throw ValidationFailed else ret tt
        | _ => undef UB_downcast
        end
      else ret tt
  | I32__const | I64__const | F32__const | F64__const => ret tt
  | _ => throw ValidationFailed
  end.

Definition validateConstExpr (Instrs : list Instr) (Returns : list ValType)
    (RestrictGlobal : bool) : MC unit :=
  mapM_ (check_const_instr RestrictGlobal) Instrs ;;;
  reset false ;;;
  validateExpr Instrs (ASTToVType <$> Returns).

(** ** Segments *)

Definition validateGlobalSegment (GlobSeg : GlobalSegment) : MC unit :=
  validateConstExpr (GlobExpr GlobSeg) [GlobValType (Global GlobSeg)] false.

Definition validateElementSegment (ElemSeg : ElementSegment) : MC unit :=
  let* c := get in
  match atZ (fcTables c) (TableIdx ElemSeg) with
  | None => throw ValidationFailed
  | Some t =>
      if bool_decide (t <> ET_FuncRef) then throw ValidationFailed
      else
        mapM_ (fun Idx => if Idx >=? sizeZ (fcFuncs c) then throw ValidationFailed else ret tt)
          (FuncIdxes ElemSeg) ;;;
        validateConstExpr (ElemExpr ElemSeg) [VT_I32] false
  end.

(** A local type without an enumerator is [VType::Unknown], the default of the switch. *)
Definition local_vtype (t : option ValType) : VType := ASTToVType (default VT_None t).

Definition validateCodeSegment (CodeSeg : CodeSegment) (TypeIdx : Z) : MC unit :=
  reset false ;;;
  let* c := get in
  match atZ (fcTypes c) TypeIdx with
  | None => undef UB_vector
  | Some ft =>
      mapM_ (addLocals 1) ft.1 ;;;
      mapM_ (fun Val => addLocals Val.1 (local_vtype Val.2)) (CodeLocals CodeSeg) ;;;
      validateExpr (CodeExpr CodeSeg) ft.2
  end.

Definition validateDataSegment (DataSeg : DataSegment) : MC unit :=
  let* c := get in
  if MemoryIdx DataSeg >=? sizeZ (fcMems c) then throw ValidationFailed
  else validateConstExpr (DataExpr DataSeg) [VT_I32] false.

(** ** Descriptions *)

Definition validateImportDesc (ImpDesc : ImportDesc) : MC unit :=
  match ImpExtType ImpDesc with
  | Ext_Function =>
      let* TId := lift (getContentFunction ImpDesc) in
      let* c := get in
      if TId >=? sizeZ (fcTypes c) then throw ValidationFailed else addFunc TId
  | Ext_Table =>
      let* TabType := lift (getContentTable ImpDesc) in
      validateTable TabType ;;; addTable TabType
  | Ext_Memory =>
      let* MemType := lift (getContentMemory ImpDesc) in
      validateMemory MemType ;;; addMemory MemType
  | Ext_Global =>
      let* GlobType := lift (getContentGlobal ImpDesc) in
      addGlobal GlobType true
  end.

Definition validateExportDesc (ExpDesc : ExportDesc) : MC unit :=
  let* c := get in
  let bound :=
    match ExpExtType ExpDesc with
    | Ext_Function => sizeZ (fcFuncs c)
    | Ext_Table => sizeZ (fcTables c)
    | Ext_Memory => sizeZ (fcMems c)
    | Ext_Global => sizeZ (fcGlobals c)
    end in
  if ExtIdx ExpDesc >=? bound then throw ValidationFailed else ret tt.

(** ** Sections *)

Definition validateImportSection (l : list ImportDesc) : MC unit :=
  mapM_ (fun d => as_failed (validateImportDesc d)) l.

(** The two loops over the functions: the types first, then the bodies. *)
Definition validateFunctionSection (FuncVec : list Z) (CodeVec : list CodeSegment) : MC unit :=
  if negb (sizeZ FuncVec =? sizeZ CodeVec) then throw ValidationFailed
  else
    mapM_ (fun TId =>
      let* c := get in
      if TId >=? sizeZ (fcTypes c) then throw ValidationFailed else addFunc TId) FuncVec ;;;
    mapM_ (fun p => validateCodeSegment p.2 p.1) (zip FuncVec CodeVec).

Definition validateTableSection (l : list TableType) : MC unit :=
  mapM_ (fun t => as_failed (validateTable t) ;;; addTable t) l.
Definition validateMemorySection (l : list MemoryType) : MC unit :=
  mapM_ (fun m => as_failed (validateMemory m) ;;; addMemory m) l.
Definition validateGlobalSection (l : list GlobalSegment) : MC unit :=
  mapM_ (fun g => validateGlobalSegment g ;;; addGlobal (Global g) false) l.

(** The loop over the exports, with the set of names seen. *)
Fixpoint validateExports (ExportNames : list (list Z)) (l : list ExportDesc) : MC unit :=
  match l with
  | [] => ret tt
  | d :: l' =>
      let Name := ExpExtName d in
      if bool_decide (Name = []) || bool_decide (Name ∈ ExportNames) then throw ValidationFailed
      else validateExportDesc d ;;; validateExports (Name :: ExportNames) l'
  end.
Definition validateExportSection (l : list ExportDesc) : MC unit := validateExports [] l.

Definition validateStartSection (FId : Z) : MC unit :=
  let* c := get in
  match atZ (fcFuncs c) FId with
  | None => throw ValidationFailed
  | Some TId =>
      match atZ (fcTypes c) TId with
      | None => undef UB_vector
      | Some ft =>
          if negb (sizeZ ft.1 =? 0) || negb (sizeZ ft.2 =? 0) then throw ValidationFailed
          else ret tt
      end
  end.

Definition validateElementSection (l : list ElementSegment) : MC unit :=
  mapM_ validateElementSegment l.
Definition validateDataSection (l : list DataSegment) : MC unit := mapM_ validateDataSegment l.

(** ** Modules *)

Definition validate (Mod : AModule) : MC unit :=
  reset true ;;;
  on_section (TypeSec Mod) (mapM_ addType) ;;;
  on_section (ImportSec Mod) validateImportSection ;;;
  on_section (TableSec Mod) validateTableSection ;;;
  on_section (MemorySec Mod) validateMemorySection ;;;
  on_section (GlobalSec Mod) validateGlobalSection ;;;
  match FunctionSec Mod, CodeSec Mod with
  | Some f, Some c => validateFunctionSection f c
  | None, None => ret tt
  | _, _ => throw ValidationFailed
  end ;;;
  on_section (ElementSec Mod) validateElementSection ;;;
  on_section (DataSec Mod) validateDataSection ;;;
  on_section (StartSec Mod) validateStartSection ;;;
  on_section (ExportSec Mod) validateExportSection ;;;
  let* c := get in
  if (sizeZ (fcMems c) >? 1) || (sizeZ (fcTables c) >? 1) then throw ValidationFailed
  else ret tt.

End Validator.
