(* ===== verification/ValidatorFacts.v ===== *)
(** * The validator: safety, and what an accepted module satisfies *)
From stdpp Require Import base list numbers option.
From Stdlib Require Import ZArith Lia.
From S2P Require Import Prelude Types Instruction AST FormChecker FormCheckerFacts Validator.
#[local] Open Scope Z_scope.
Import Validator.

(** ** Expressions *)

Definition expr_fine (l : list Instr) : Prop :=
  forallb well_classed l = true /\ forallb aligned l = true.

(** Success keeps the contexts well formed; the only error is ValidationFailed. *)
Definition vsafe {A} (m : M FormChecker A) : Prop := forall c, ctx_ok c ->
  match m c with
  | (Ok _, c') => ctx_ok c'
  | (Err e, _) => e = ValidationFailed
  | _ => False
  end.

Lemma vsafe_bind {A B} (m : M FormChecker A) (k : A -> M FormChecker B) :
  vsafe m -> (forall a, vsafe (k a)) -> vsafe (bind m k).
Proof.
  intros Hm Hk c Hc. specialize (Hm c Hc). unfold bind.
  destruct (m c) as [[a|e|u|] c1]; try done. by apply Hk.
Qed.
Lemma vsafe_get {A} (k : FormChecker -> M FormChecker A) :
  (forall c, ctx_ok c -> match k c c with
     | (Ok _, c') => ctx_ok c' | (Err e, _) => e = ValidationFailed | _ => False end) ->
  vsafe (bind get k).
Proof. intros Hk c Hc. by apply Hk. Qed.
Lemma vsafe_ret {A} (a : A) : vsafe (ret a).
Proof. by intros c Hc. Qed.
Lemma vsafe_throw {A} : vsafe (throw (A := A) ValidationFailed).
Proof. by intros c Hc. Qed.
Lemma vsafe_mapM {A} (P : A -> Prop) (f : A -> M FormChecker unit) l :
  Forall P l -> (forall x, P x -> vsafe (f x)) -> vsafe (mapM_ f l).
Proof.
  intros Hl Hf. induction Hl as [|x l Hx _ IH]; cbn [mapM_]; [apply vsafe_ret|].
  apply vsafe_bind; [by apply Hf|done].
Qed.
(** A context change that keeps the types and functions. *)
Lemma vsafe_modify (f : FormChecker -> FormChecker) :
  (forall c, ctx_ok c -> ctx_ok (f c)) -> vsafe (modify f).
Proof. intros Hf c Hc. by apply Hf. Qed.
Lemma vsafe_as_failed {A} (m : M FormChecker A) :
  (forall c, ctx_ok c -> match m c with
     | (Ok _, c') => ctx_ok c' | (Err _, _) => True | _ => False end) -> vsafe (as_failed m).
Proof.
  intros Hm c Hc. specialize (Hm c Hc). unfold as_failed, bind, try.
  by destruct (m c) as [[]].
Qed.

Create HintDb vs.
#[export] Hint Resolve vsafe_ret vsafe_throw : vs.

Lemma vsafe_addType t : vsafe (addType t).
Proof.
  apply vsafe_modify. intros c Hc. unfold ctx_ok, sizeZ in *. cbn. rewrite length_app. cbn.
  eapply Forall_impl; [|exact Hc]. cbn. intros. lia.
Qed.
Lemma vsafe_addFunc n : 0 <= n -> vsafe (addFunc n).
Proof.
  intros Hn. apply vsafe_modify. intros c Hc. destruct (_ >? _) eqn:E; [|done]. bool_to_prop.
  unfold ctx_ok in *. cbn. apply Forall_app. split; [done|]. constructor; [lia|constructor].
Qed.
Lemma vsafe_reset b : vsafe (reset b).
Proof. apply vsafe_modify. intros c Hc. destruct b; [constructor|exact Hc]. Qed.

(** Validating an expression in a fresh frame. *)
Lemma vsafe_validateExpr l r c : expr_fine l -> ctx_ok c -> CtrlStack c = [] ->
  match validateExpr l r c with
  | (Ok _, c') => ctx_ok c' | (Err e, _) => e = ValidationFailed | _ => False end.
Proof.
  intros [Hw Ha] Hc E. unfold validateExpr, bind at 1, addReturns, modify, bind at 1, get.
  unfold bind, pushCtrl, modify.
  match goal with |- context [checkInstrs l ?x] => set (c1 := x) end.
  pose proof (safe_checkInstrs l Hw Ha c1) as H. unfold safe_at in H.
  assert (fc_inv c1) as Hc1.
  { split; [exact Hc|]. split; [done|]. cbn. rewrite E. unfold sizeZ. split; [lia|done]. }
  specialize (H Hc1). destruct (checkInstrs l c1) as [[[]|e|u|] c2]; try done. by destruct H as (_ & (? & _) & _).
Qed.

Lemma check_const_instr_pure i c :
  check_const_instr false i c = (Ok tt, c) \/
  check_const_instr false i c = (Err ValidationFailed, c).
Proof. unfold check_const_instr. destruct (getOpCode i); auto. Qed.

Lemma check_const_instrs_pure l c :
  mapM_ (check_const_instr false) l c = (Ok tt, c) \/
  mapM_ (check_const_instr false) l c = (Err ValidationFailed, c).
Proof.
  induction l as [|i l IH]; cbn [mapM_]; [by left|]. unfold bind.
  destruct (check_const_instr_pure i c) as [->| ->]; auto.
Qed.

Lemma vsafe_validateConstExpr l r : expr_fine l -> vsafe (validateConstExpr l r false).
Proof.
  intros Hl c Hc. unfold validateConstExpr. unfold bind at 1.
  destruct (check_const_instrs_pure l c) as [->| ->]; [|done].
  unfold bind, reset, modify. by apply vsafe_validateExpr.
Qed.

(** ** Modules the loader can produce *)

Definition import_fine (d : ImportDesc) : Prop :=
  match ImpContent d with Content_Function i => 0 <= i | _ => True end.

(** Well-classed expressions with alignments below 64, and type indices that are not
    negative. *)
Definition module_fine (m : AModule) : Prop :=
  from_option (Forall import_fine) True (ImportSec m) /\
  from_option (Forall (fun g => expr_fine (GlobExpr g))) True (GlobalSec m) /\
  from_option (Forall (fun t => 0 <= t)) True (FunctionSec m) /\
  from_option (Forall (fun s => expr_fine (CodeExpr s))) True (CodeSec m) /\
  from_option (Forall (fun e => expr_fine (ElemExpr e))) True (ElementSec m) /\
  from_option (Forall (fun d => expr_fine (DataExpr d))) True (DataSec m).

Lemma limit_pure Lim K c :
  validateLimit Lim K c = (Ok tt, c) \/ validateLimit Lim K c = (Err ValidationFailed, c).
Proof. unfold validateLimit. destruct (_ || _); auto. Qed.

Lemma vsafe_validateImportDesc d : import_fine d -> vsafe (as_failed (validateImportDesc d)).
Proof.
  intros Hd. apply vsafe_as_failed. intros c Hc. unfold validateImportDesc, getContentFunction,
    getContentTable, getContentMemory, getContentGlobal, import_fine in *.
  destruct (ImpExtType d), (ImpContent d) as [i|t|m|g]; cbn -[validateLimit addFunc]; try done.
  - destruct (_ >=? _); [done|]. by apply (vsafe_addFunc i Hd).
  - unfold validateTable, bind. by destruct (limit_pure (Table t) LIMIT_TABLETYPE c) as [->| ->].
  - unfold validateMemory, bind. by destruct (limit_pure (Memory m) LIMIT_MEMORYTYPE c) as [->| ->].
Qed.

Lemma vsafe_limit_then Lim K (f : FormChecker -> FormChecker) :
  (forall c, ctx_ok c -> ctx_ok (f c)) ->
  vsafe (as_failed (validateLimit Lim K) ;;; modify f).
Proof.
  intros Hf. apply vsafe_bind; [|intros _; by apply vsafe_modify].
  apply vsafe_as_failed. intros c Hc. by destruct (limit_pure Lim K c) as [->| ->].
Qed.

Lemma vsafe_validateElementSegment e :
  expr_fine (ElemExpr e) -> vsafe (validateElementSegment e).
Proof.
  intros He. apply vsafe_get. intros c Hc. destruct (atZ _ _); [|done].
  case_bool_decide; [done|]. apply vsafe_bind; [| |done].
  - apply (vsafe_mapM (fun _ => True)); [by apply Forall_true|]. intros. destruct (_ >=? _); auto with vs.
  - intros _. by apply vsafe_validateConstExpr.
Qed.

Lemma vsafe_validateDataSegment d : expr_fine (DataExpr d) -> vsafe (validateDataSegment d).
Proof.
  intros Hd. apply vsafe_get. intros c Hc. destruct (_ >=? _); [done|].
  by apply vsafe_validateConstExpr.
Qed.

(** Adding locals touches nothing but the locals. *)
Lemma addLocals_run {A} (f : A -> M FormChecker unit) l c :
  (forall x, exists n V, f x = addLocals n V) ->
  exists ls, mapM_ f l c = (Ok tt, mkChecker (fcTypes c) (fcFuncs c) (fcTables c) (fcMems c)
    (fcGlobals c) (NumImportGlobals c) ls (fcReturns c) (CtrlStack c) (ValStack c)).
Proof.
  intros Hf. revert c. induction l as [|x l IH]; intros c; cbn [mapM_].
  { exists (fcLocals c). by destruct c. }
  destruct (Hf x) as (n & V & ->). unfold bind, addLocals, modify.
  match goal with |- context [mapM_ f l ?y] => destruct (IH y) as (ls & ->) end. by exists ls.
Qed.

Lemma vsafe_validateCodeSegment s t c :
  expr_fine (CodeExpr s) -> ctx_ok c -> 0 <= t < sizeZ (fcTypes c) ->
  match validateCodeSegment s t c with
  | (Ok _, c') => ctx_ok c' /\ fcTypes c' = fcTypes c
  | (Err e, _) => e = ValidationFailed
  | _ => False
  end.
Proof.
  intros Hs Hc Ht. unfold validateCodeSegment. unfold bind at 1. cbn -[atZ mapM_ validateExpr].
  unfold bind at 1, get. cbn [fcTypes]. destruct (atZ_is_Some _ _ Ht) as [ft ->].
  unfold bind at 1.
  match goal with |- context [mapM_ (addLocals 1) ft.1 ?y] =>
    destruct (addLocals_run (addLocals 1) ft.1 y) as (l1 & ->); [by eauto|] end.
  unfold bind. match goal with |- context [mapM_ ?g (CodeLocals s) ?y] =>
    destruct (addLocals_run g (CodeLocals s) y) as (l2 & ->); [by eauto|] end.
  match goal with |- context [validateExpr _ _ ?y] => set (c1 := y) end.
  pose proof (vsafe_validateExpr (CodeExpr s) ft.2 c1 Hs Hc eq_refl) as H.
  destruct (validateExpr _ _ c1) as [r c2] eqn:E; destruct r; try done. split; [done|].
  unfold validateExpr, addReturns, pushCtrl, modify, get, bind in E.
  match type of E with checkInstrs ?l ?y = _ => pose proof (ctx_keeps_checkInstrs l y) as Hk end.
  rewrite E in Hk. by destruct Hk as (? & _).
Qed.

(** The first loop over the function section registers the types it checks. *)
Definition set_funcs (fs : list Z) (c : FormChecker) : FormChecker :=
  mkChecker (fcTypes c) fs (fcTables c) (fcMems c) (fcGlobals c) (NumImportGlobals c)
    (fcLocals c) (fcReturns c) (CtrlStack c) (ValStack c).

Definition register_func (TId : Z) : M FormChecker unit :=
  let* c := get in
  if TId >=? sizeZ (fcTypes c) then throw ValidationFailed else addFunc TId.

Lemma register_func_run t c :
  register_func t c = if t >=? sizeZ (fcTypes c) then (Err ValidationFailed, c)
                      else (Ok tt, set_funcs (fcFuncs c ++ [t]) c).
Proof.
  unfold register_func, bind, get. destruct (t >=? _) eqn:E; [done|].
  unfold addFunc, modify. rewrite Z.geb_leb in E. apply Z.leb_gt in E.
  by rewrite (proj2 (Z.gtb_lt _ _)) by lia.
Qed.

Lemma register_funcs_run l c :
  if forallb (fun t => t <? sizeZ (fcTypes c)) l
  then mapM_ register_func l c = (Ok tt, set_funcs (fcFuncs c ++ l) c)
  else (mapM_ register_func l c).1 = Err ValidationFailed.
Proof.
  revert c. induction l as [|t l IH]; intros c; cbn [mapM_ forallb].
  { rewrite app_nil_r. by destruct c. }
  unfold bind. rewrite register_func_run, Z.geb_leb, Z.ltb_antisym.
  destruct (_ <=? t); cbn [negb andb]; [done|].
  specialize (IH (set_funcs (fcFuncs c ++ [t]) c)). cbn [fcTypes set_funcs fcFuncs] in IH.
  destruct (forallb _ l); [|exact IH]. rewrite IH, <- app_assoc. done.
Qed.

Lemma vsafe_bodies ps c :
  Forall (fun p => expr_fine (CodeExpr p.2) /\ 0 <= p.1 < sizeZ (fcTypes c)) ps -> ctx_ok c ->
  match mapM_ (fun p => validateCodeSegment p.2 p.1) ps c with
  | (Ok _, c') => ctx_ok c' | (Err e, _) => e = ValidationFailed | _ => False end.
Proof.
  revert c. induction ps as [|p ps IH]; intros c Hp Hc; cbn [mapM_]; [done|].
  inversion_clear Hp as [|? ? [Hx Ht] Hps].
  pose proof (vsafe_validateCodeSegment p.2 p.1 c Hx Hc Ht) as H. unfold bind.
  destruct (validateCodeSegment p.2 p.1 c) as [[[]|e|u|] c1]; try done. destruct H as [Hc1 Et].
  apply IH; [by rewrite Et|done].
Qed.

Lemma vsafe_validateFunctionSection fs cs :
  Forall (fun t => 0 <= t) fs -> Forall (fun s => expr_fine (CodeExpr s)) cs ->
  vsafe (validateFunctionSection fs cs).
Proof.
  intros Hfs Hcs c Hc. unfold validateFunctionSection. destruct (negb _); [done|].
  fold register_func. unfold bind. pose proof (register_funcs_run fs c) as Hr.
  destruct (forallb _ fs) eqn:Ef.
  2: { by destruct (mapM_ _ fs c) as [[]]; cbn in Hr; simplify_eq. }
  rewrite Hr. rewrite forallb_forall in Ef.
  assert (Forall (fun t => 0 <= t < sizeZ (fcTypes c)) fs) as Hfs'.
  { rewrite Forall_forall in *. intros t Ht. specialize (Ef t Ht). specialize (Hfs t Ht). lia. }
  apply vsafe_bodies.
  - apply Forall_forall. intros [t s] Hp. rewrite Forall_forall in Hcs, Hfs'.
    split; [apply Hcs; by eapply in_combine_r|apply Hfs'; by eapply in_combine_l].
  - unfold ctx_ok in *. cbn. by apply Forall_app.
Qed.

Lemma vsafe_validateStart n : vsafe (validateStartSection n).
Proof.
  apply vsafe_get. intros c Hc. destruct (atZ (fcFuncs c) n) as [t|] eqn:E; [|done].
  assert (0 <= t < sizeZ (fcTypes c)) as Ht.
  { unfold atZ in E. destruct (0 <=? n); [|done]. exact (proj1 (Forall_lookup _ _) Hc _ _ E). }
  destruct (atZ_is_Some _ _ Ht) as [ft ->]. by destruct (_ || _).
Qed.

Lemma vsafe_validateExports names l : vsafe (validateExports names l).
Proof.
  revert names. induction l as [|d l IH]; intros names; cbn [validateExports]; [apply vsafe_ret|].
  destruct (_ || _); [apply vsafe_throw|]. apply vsafe_bind; [|done].
  apply vsafe_get. intros c Hc. cbv zeta. by destruct (ExtIdx d >=? _).
Qed.

Lemma vsafe_section {A} (P : A -> Prop) (o : option A) f :
  from_option P True o -> (forall x, P x -> vsafe (f x)) -> vsafe (on_section o f).
Proof. intros Ho Hf. destruct o; [by apply Hf|apply vsafe_ret]. Qed.

Lemma vsafe_validate m c : module_fine m ->
  match validate m c with
  | (Ok _, c') => ctx_ok c' | (Err e, _) => e = ValidationFailed | _ => False end.
Proof.
  intros (Hi & Hg & Hf & Hc & He & Hd).
  assert (vsafe (A := unit) (fun c => validate m c)) as H.
  2: { assert (validate m c = validate m newFormChecker) as -> by done. apply (H newFormChecker). constructor. }
  apply vsafe_bind; [apply vsafe_reset|intros _].
  apply vsafe_bind; [apply (vsafe_section (fun _ => True)); [by destruct (TypeSec m)|];
    intros; apply (vsafe_mapM (fun _ => True)); [by apply Forall_true|];
    intros; apply vsafe_addType|intros _].
  apply vsafe_bind; [eapply vsafe_section; [exact Hi|]; intros l Hl;
    eapply vsafe_mapM; [exact Hl|apply vsafe_validateImportDesc]|intros _].
  apply vsafe_bind; [apply (vsafe_section (fun _ => True)); [by destruct (TableSec m)|];
    intros; apply (vsafe_mapM (fun _ => True)); [by apply Forall_true|];
    intros; by apply vsafe_limit_then|intros _].
  apply vsafe_bind; [apply (vsafe_section (fun _ => True)); [by destruct (MemorySec m)|];
    intros; apply (vsafe_mapM (fun _ => True)); [by apply Forall_true|];
    intros; by apply vsafe_limit_then|intros _].
  apply vsafe_bind; [eapply vsafe_section; [exact Hg|]; intros l Hl;
    eapply vsafe_mapM; [exact Hl|]; intros g Hgf;
    apply vsafe_bind; [by apply vsafe_validateConstExpr|]; intros _;
    by apply vsafe_modify|intros _].
  apply vsafe_bind; [destruct (FunctionSec m), (CodeSec m); auto with vs;
    by apply vsafe_validateFunctionSection|intros _].
  apply vsafe_bind; [eapply vsafe_section; [exact He|]; intros l Hl;
    eapply vsafe_mapM; [exact Hl|apply vsafe_validateElementSegment]|intros _].
  apply vsafe_bind; [eapply vsafe_section; [exact Hd|]; intros l Hl;
    eapply vsafe_mapM; [exact Hl|apply vsafe_validateDataSegment]|intros _].
  apply vsafe_bind; [apply (vsafe_section (fun _ => True)); [by destruct (StartSec m)|];
    intros; apply vsafe_validateStart|intros _].
  apply vsafe_bind; [apply (vsafe_section (fun _ => True)); [by destruct (ExportSec m)|];
    intros; apply vsafe_validateExports|intros _].
  apply vsafe_get. intros c' Hc'. by destruct (_ || _).
Qed.

(** [C7] The validator is total and memory safe on everything the loader can build: for a
    module of well-classed expressions whose alignment exponents are below 64, from any
    earlier state of the checker, [validate] returns success or ValidationFailed; it never
    reads outside its stacks or contexts, casts a node to a wrong class, or loops. *)
Theorem validate_total_safe (m : AModule) (c : FormChecker) : module_fine m ->
  (validate m c).1 = Ok tt \/ (validate m c).1 = Err ValidationFailed.
Proof.
  intros Hm. pose proof (vsafe_validate m c Hm) as H.
  destruct (validate m c) as [[[]|e|u|] c']; cbn; [by left|right; by subst|done|done].
Qed.

(** (module (func (result i32) i32.const 42 return)) *)
Definition return_module : AModule :=
  set_CodeSec [mkCodeSegment 5 [] [ConstInstruction I32__const (mkVariant U32 42);
                                    ControlInstruction Op_Return]]
    (set_FunctionSec [0] (set_TypeSec [mkFunctionType [] [VT_I32]] empty_module)).

Lemma return_module_fine : module_fine return_module.
Proof. repeat (split || constructor || done). Qed.

Lemma validate_total_safe_witness :
  (validate return_module newFormChecker).1 = Ok tt \/
  (validate return_module newFormChecker).1 = Err ValidationFailed.
Proof. exact (validate_total_safe return_module newFormChecker return_module_fine). Defined.

(** A body is never required to leave the results of its function: an empty body
    validates for every declared type and locals, because the frame of the function is
    pushed with empty labels and never popped against its result types. *)
Theorem function_results_unchecked (c : FormChecker) (t : Z) (locals : list (Z * option ValType))
    (n : Z) :
  0 <= t < sizeZ (fcTypes c) -> (validateCodeSegment (mkCodeSegment n locals []) t c).1 = Ok tt.
Proof.
  intros Ht. unfold validateCodeSegment. unfold bind at 1. cbn -[atZ mapM_ validateExpr].
  unfold bind at 1, get. cbn [fcTypes]. destruct (atZ_is_Some _ _ Ht) as [ft ->]. unfold bind at 1.
  match goal with |- context [mapM_ (addLocals 1) ft.1 ?y] =>
    destruct (addLocals_run (addLocals 1) ft.1 y) as (l1 & ->); [by eauto|] end.
  unfold bind. match goal with |- context [mapM_ ?g locals ?y] =>
    destruct (addLocals_run g locals y) as (l2 & ->); [by eauto|] end.
  done.
Qed.

Definition i32_result_context : FormChecker :=
  mkChecker [([], [V_I32])] [] [] [] [] 0 [] [] [] [].

Lemma function_results_unchecked_witness :
  (validateCodeSegment (mkCodeSegment 2 [] []) 0 i32_result_context).1 = Ok tt.
Proof. apply (function_results_unchecked i32_result_context 0 [] 2). unfold sizeZ. cbn. lia. Defined.

(** ** What an accepted module satisfies *)

Definition fc_type (t : FunctionType) : list VType * list VType :=
  (ASTToVType <$> ParamTypes t, ASTToVType <$> ReturnTypes t).

Definition imp_func (d : ImportDesc) : option Z :=
  match ImpExtType d, ImpContent d with Ext_Function, Content_Function i => Some i | _, _ => None end.
Definition imp_table (d : ImportDesc) : option TableType :=
  match ImpExtType d, ImpContent d with Ext_Table, Content_Table t => Some t | _, _ => None end.
Definition imp_mem (d : ImportDesc) : option MemoryType :=
  match ImpExtType d, ImpContent d with Ext_Memory, Content_Memory t => Some t | _, _ => None end.
Definition imp_global (d : ImportDesc) : option GlobalType :=
  match ImpExtType d, ImpContent d with Ext_Global, Content_Global t => Some t | _, _ => None end.

(** The index spaces of a module: imports first. *)
Definition sec {A} (o : option (list A)) : list A := default [] o.
Definition mod_funcs (m : AModule) : list Z := omap imp_func (sec (ImportSec m)) ++ sec (FunctionSec m).
Definition mod_tables (m : AModule) : list TableType :=
  omap imp_table (sec (ImportSec m)) ++ sec (TableSec m).
Definition mod_mems (m : AModule) : list MemoryType :=
  omap imp_mem (sec (ImportSec m)) ++ sec (MemorySec m).
Definition mod_globals (m : AModule) : list GlobalType :=
  omap imp_global (sec (ImportSec m)) ++ (Global <$> sec (GlobalSec m)).

Definition limit_valid (K : Z) (l : Limit) : Prop :=
  Min l <= K /\ (hasMax l = true -> Max l <= K /\ Min l <= Max l).

Definition export_bound (m : AModule) (t : ExternalType) : Z :=
  match t with
  | Ext_Function => sizeZ (mod_funcs m) | Ext_Table => sizeZ (mod_tables m)
  | Ext_Memory => sizeZ (mod_mems m) | Ext_Global => sizeZ (mod_globals m)
  end.

(** The module-level conditions, with no reference to the checker. *)
Record module_valid (m : AModule) : Prop := {
  mv_imports : Forall (fun d => is_Some (imp_func d) \/ is_Some (imp_table d) \/
      is_Some (imp_mem d) \/ is_Some (imp_global d)) (sec (ImportSec m));
  mv_types : Forall (fun t => t < sizeZ (sec (TypeSec m))) (mod_funcs m);
  mv_tables : Forall (fun t => limit_valid (2 ^ 32 - 1) (Table t)) (mod_tables m);
  mv_mems : Forall (fun t => limit_valid 65536 (Memory t)) (mod_mems m);
  mv_one_table : sizeZ (mod_tables m) <= 1;
  mv_one_mem : sizeZ (mod_mems m) <= 1;
  mv_code : length (sec (FunctionSec m)) = length (sec (CodeSec m));
  mv_elems : Forall (fun e => 0 <= TableIdx e < sizeZ (mod_tables m) /\
      Forall (fun i => i < sizeZ (mod_funcs m)) (FuncIdxes e)) (sec (ElementSec m));
  mv_datas : Forall (fun d => MemoryIdx d < sizeZ (mod_mems m)) (sec (DataSec m));
  mv_start : forall f, StartSec m = Some f -> exists t ft,
      atZ (mod_funcs m) f = Some t /\ atZ (sec (TypeSec m)) t = Some ft /\
      ParamTypes ft = [] /\ ReturnTypes ft = [];
  mv_names : NoDup (ExpExtName <$> sec (ExportSec m));
  mv_exports : Forall (fun d => ExpExtName d <> [] /\ ExtIdx d < export_bound m (ExpExtType d))
      (sec (ExportSec m))
}.

(** The contexts of the checker, seen as index spaces. *)
Record ctx_view (c : FormChecker) (ts : list (list VType * list VType)) (fs : list Z)
    (tabs : list TableType) (mems : list MemoryType) (globs : list GlobalType) : Prop := {
  cv_types : fcTypes c = ts;
  cv_funcs : fcFuncs c = fs;
  cv_tables : fcTables c = TabElemType <$> tabs;
  cv_mems : sizeZ (fcMems c) = sizeZ mems;
  cv_globals : sizeZ (fcGlobals c) = sizeZ globs
}.

Lemma ctx_view_eq c c' ts fs tabs mems globs :
  ctx_eq c c' -> ctx_view c ts fs tabs mems globs -> ctx_view c' ts fs tabs mems globs.
Proof. intros (?&?&?&?&?&?) []. split; congruence. Qed.

(** A loop whose every success step is described by [R] ends related by the fold of [R]. *)
Lemma mapM_Ok_cons {A} (f : A -> M FormChecker unit) x l c c' :
  mapM_ f (x :: l) c = (Ok tt, c') ->
  exists c1, f x c = (Ok tt, c1) /\ mapM_ f l c1 = (Ok tt, c').
Proof. cbn [mapM_]. intros H. inv_bind H. destruct a. eauto. Qed.

Lemma addTypes_view l c c' ts fs tabs mems globs :
  mapM_ addType l c = (Ok tt, c') -> ctx_view c ts fs tabs mems globs ->
  ctx_view c' (ts ++ (fc_type <$> l)) fs tabs mems globs.
Proof.
  revert c ts. induction l as [|t l IH]; intros c ts H Hv.
  { cbn in H. inversion H; subst. by rewrite app_nil_r. }
  apply mapM_Ok_cons in H as (c1 & H1 & H). cbn in H1. inversion H1; subst. clear H1.
  cbn [fmap list_fmap]. rewrite cons_middle, app_assoc. eapply IH; [exact H|].
  destruct Hv as [<- ? ? ? ?]. by split.
Qed.

Lemma validateLimit_Ok Lim K c c' :
  validateLimit Lim K c = (Ok tt, c') -> c' = c /\ limit_valid K Lim.
Proof.
  unfold validateLimit. intros H. destruct (_ || _) eqn:E; [done|]. inversion H; subst.
  split; [done|]. bool_to_prop. split; [done|]. intros Hm. rewrite Hm in *. bool_to_prop. done.
Qed.

Lemma as_failed_Ok {A} (m : M FormChecker A) c a c' :
  as_failed m c = (Ok a, c') -> m c = (Ok a, c').
Proof. unfold as_failed, bind, try. destruct (m c) as [[]]; cbn; intros; by simplify_eq. Qed.

Lemma addFunc_view t c ts fs tabs mems globs :
  t < sizeZ ts -> ctx_view c ts fs tabs mems globs ->
  ctx_view (addFunc t c).2 ts (fs ++ [t]) tabs mems globs.
Proof.
  intros Ht [<- <- ? ? ?]. unfold addFunc, modify. rewrite (proj2 (Z.gtb_lt _ _)) by lia. by split.
Qed.
Lemma addTable_view t c ts fs tabs mems globs :
  ctx_view c ts fs tabs mems globs -> ctx_view (addTable t c).2 ts fs (tabs ++ [t]) mems globs.
Proof. intros [? ? E ? ?]. split; try done. cbn. by rewrite E, fmap_app. Qed.
Lemma addMemory_view t c ts fs tabs mems globs :
  ctx_view c ts fs tabs mems globs -> ctx_view (addMemory t c).2 ts fs tabs (mems ++ [t]) globs.
Proof. intros [? ? ? E ?]. split; try done. cbn. rewrite !sizeZ_app. unfold sizeZ in *. cbn. lia. Qed.
Lemma addGlobal_view t b c ts fs tabs mems globs :
  ctx_view c ts fs tabs mems globs -> ctx_view (addGlobal t b c).2 ts fs tabs mems (globs ++ [t]).
Proof. intros [? ? ? ? E]. split; try done. cbn. rewrite !sizeZ_app. unfold sizeZ in *. cbn. lia. Qed.

Ltac finish :=
  repeat match goal with |- _ /\ _ => split end; try (by constructor); try (by apply Forall_singleton); eauto 6.

(** One import. *)
Lemma import_view d c c' ts fs tabs mems globs :
  as_failed (validateImportDesc d) c = (Ok tt, c') -> ctx_view c ts fs tabs mems globs ->
  ctx_view c' ts (fs ++ option_list (imp_func d)) (tabs ++ option_list (imp_table d))
    (mems ++ option_list (imp_mem d)) (globs ++ option_list (imp_global d)) /\
  Forall (fun t => t < sizeZ ts) (option_list (imp_func d)) /\
  Forall (fun t => limit_valid (2 ^ 32 - 1) (Table t)) (option_list (imp_table d)) /\
  Forall (fun t => limit_valid 65536 (Memory t)) (option_list (imp_mem d)) /\
  (is_Some (imp_func d) \/ is_Some (imp_table d) \/ is_Some (imp_mem d) \/ is_Some (imp_global d)).
Proof.
  intros H%as_failed_Ok Hv. unfold validateImportDesc, getContentFunction, getContentTable,
    getContentMemory, getContentGlobal, imp_func, imp_table, imp_mem, imp_global in *.
  destruct (ImpExtType d), (ImpContent d) as [i|t|m|g]; try discriminate H;
    cbn [option_list]; rewrite ?app_nil_r; unfold bind at 1, lift in H.
  - unfold bind, get in H. destruct (i >=? _) eqn:E; [done|].
    rewrite Z.geb_leb in E. apply Z.leb_gt in E. destruct Hv as [Et ? ? ? ?]. rewrite Et in E.
    replace c' with (addFunc i c).2 by (by rewrite H).
    split; [apply addFunc_view; [done|by split]|]. finish.
  - unfold bind in H. destruct (validateTable t c) as [[[]|e|u|] c1] eqn:E; try done.
    apply validateLimit_Ok in E as [-> Hl]. inversion H; subst.
    split; [by apply (addTable_view t)|]. finish.
  - unfold bind in H. destruct (validateMemory m c) as [[[]|e|u|] c1] eqn:E; try done.
    apply validateLimit_Ok in E as [-> Hl]. inversion H; subst.
    split; [by apply (addMemory_view m)|]. finish.
  - inversion H; subst. split; [by apply (addGlobal_view g true)|]. finish.
Qed.

Lemma omap_cons_app {A B} (f : A -> option B) x l : omap f (x :: l) = option_list (f x) ++ omap f l.
Proof. cbn. by destruct (f x). Qed.

Lemma imports_view l c c' ts fs tabs mems globs :
  validateImportSection l c = (Ok tt, c') -> ctx_view c ts fs tabs mems globs ->
  ctx_view c' ts (fs ++ omap imp_func l) (tabs ++ omap imp_table l) (mems ++ omap imp_mem l)
    (globs ++ omap imp_global l) /\
  Forall (fun t => t < sizeZ ts) (omap imp_func l) /\
  Forall (fun t => limit_valid (2 ^ 32 - 1) (Table t)) (omap imp_table l) /\
  Forall (fun t => limit_valid 65536 (Memory t)) (omap imp_mem l) /\
  Forall (fun d => is_Some (imp_func d) \/ is_Some (imp_table d) \/ is_Some (imp_mem d) \/
    is_Some (imp_global d)) l.
Proof.
  unfold validateImportSection. revert c fs tabs mems globs.
  induction l as [|d l IH]; intros c fs tabs mems globs H Hv.
  { cbn in H. inversion H; subst. cbn. rewrite !app_nil_r. finish. }
  apply mapM_Ok_cons in H as (c1 & H1 & H).
  destruct (import_view d c c1 ts fs tabs mems globs H1 Hv) as (Hv1 & F1 & F2 & F3 & F4).
  destruct (IH c1 _ _ _ _ H Hv1) as (Hv2 & G1 & G2 & G3 & G4).
  rewrite !omap_cons_app, !(app_assoc _ (option_list _)), !Forall_app. finish.
Qed.

Lemma tables_view l c c' ts fs tabs mems globs :
  validateTableSection l c = (Ok tt, c') -> ctx_view c ts fs tabs mems globs ->
  ctx_view c' ts fs (tabs ++ l) mems globs /\
  Forall (fun t => limit_valid (2 ^ 32 - 1) (Table t)) l.
Proof.
  unfold validateTableSection. revert c tabs. induction l as [|t l IH]; intros c tabs H Hv.
  { cbn in H. inversion H; subst. rewrite app_nil_r. finish. }
  apply mapM_Ok_cons in H as (c1 & H1 & H). inv_bind H1. apply as_failed_Ok in H0.
  destruct a. apply validateLimit_Ok in H0 as [-> Hl]. inversion H1; subst; clear H1.
  destruct (IH _ (tabs ++ [t]) H) as [Hv' Hf]; [by apply (addTable_view t)|].
  rewrite (cons_middle t tabs l), app_assoc. split; [done|]. by constructor.
Qed.

Lemma memories_view l c c' ts fs tabs mems globs :
  validateMemorySection l c = (Ok tt, c') -> ctx_view c ts fs tabs mems globs ->
  ctx_view c' ts fs tabs (mems ++ l) globs /\
  Forall (fun t => limit_valid 65536 (Memory t)) l.
Proof.
  unfold validateMemorySection. revert c mems. induction l as [|t l IH]; intros c mems H Hv.
  { cbn in H. inversion H; subst. rewrite app_nil_r. finish. }
  apply mapM_Ok_cons in H as (c1 & H1 & H). inv_bind H1. apply as_failed_Ok in H0.
  destruct a. apply validateLimit_Ok in H0 as [-> Hl]. inversion H1; subst; clear H1.
  destruct (IH _ (mems ++ [t]) H) as [Hv' Hf]; [by apply (addMemory_view t)|].
  rewrite (cons_middle t mems l), app_assoc. split; [done|]. by constructor.
Qed.

(** Checking an expression keeps the contexts. *)
Lemma ctx_keeps_validateExpr l r : keeps (validateExpr l r).
Proof.
  unfold validateExpr. apply ctx_keeps_bind; [by intros c|intros _]. apply ctx_keeps_bind; [apply ctx_keeps_get|].
  intros c. apply ctx_keeps_bind; [apply ctx_keeps_pushCtrl|intros _]. apply ctx_keeps_checkInstrs.
Qed.
Lemma ctx_keeps_validateConstExpr l r : keeps (validateConstExpr l r false).
Proof.
  apply ctx_keeps_bind.
  - intros c. by destruct (check_const_instrs_pure l c) as [->| ->].
  - intros _. apply ctx_keeps_bind; [by intros c|]. intros _. apply ctx_keeps_validateExpr.
Qed.
Lemma ctx_keeps_validateCodeSegment s t : keeps (validateCodeSegment s t).
Proof.
  unfold validateCodeSegment. apply ctx_keeps_bind; [by intros c|intros _].
  apply ctx_keeps_bind; [apply ctx_keeps_get|intros c]. destruct (atZ _ _); [|apply ctx_keeps_undef].
  apply ctx_keeps_bind; [apply ctx_keeps_mapM; by intros|intros _].
  apply ctx_keeps_bind; [apply ctx_keeps_mapM; by intros|intros _]. apply ctx_keeps_validateExpr.
Qed.

Lemma globals_view l c c' ts fs tabs mems globs :
  validateGlobalSection l c = (Ok tt, c') -> ctx_view c ts fs tabs mems globs ->
  ctx_view c' ts fs tabs mems (globs ++ (Global <$> l)).
Proof.
  unfold validateGlobalSection. revert c globs. induction l as [|g l IH]; intros c globs H Hv.
  { cbn in H. inversion H; subst. by rewrite app_nil_r. }
  apply mapM_Ok_cons in H as (c1 & H1 & H). inv_bind H1.
  pose proof (ctx_keeps_validateConstExpr (GlobExpr g) [GlobValType (Global g)] c) as Hk.
  change (validateConstExpr _ _ _ c) with (validateGlobalSegment g c) in Hk. rewrite H0 in Hk.
  inversion H1; subst; clear H1. cbn [fmap list_fmap]. rewrite cons_middle, app_assoc.
  eapply IH; [exact H|]. apply (addGlobal_view (Global g) false). by eapply ctx_view_eq.
Qed.

Lemma functions_view fl cl c c' ts fs tabs mems globs :
  validateFunctionSection fl cl c = (Ok tt, c') -> ctx_view c ts fs tabs mems globs ->
  ctx_view c' ts (fs ++ fl) tabs mems globs /\ Forall (fun t => t < sizeZ ts) fl /\
  length fl = length cl.
Proof.
  unfold validateFunctionSection. intros H Hv. destruct (negb _) eqn:E; [done|]. bool_to_prop.
  fold register_func in H. inv_bind H. pose proof (register_funcs_run fl c) as Hr.
  destruct (forallb _ fl) eqn:Ef; [|by rewrite H0 in Hr]. rewrite H0 in Hr. inversion Hr; subst.
  assert (ctx_view (set_funcs (fcFuncs c ++ fl) c) ts (fs ++ fl) tabs mems globs) as Hv1.
  { destruct Hv as [? <- ? ? ?]. by split. }
  split; [|split].
  - eapply ctx_view_eq; [|exact Hv1].
    pose proof (ctx_keeps_mapM (fun p => validateCodeSegment p.2 p.1) (zip fl cl)
      (fun p _ => ctx_keeps_validateCodeSegment p.2 p.1) (set_funcs (fcFuncs c ++ fl) c)) as Hk.
    by rewrite H in Hk.
  - rewrite forallb_forall in Ef. apply Forall_forall. intros t Ht. specialize (Ef t Ht).
    destruct Hv as [<- ? ? ? ?]. lia.
  - unfold sizeZ in E. lia.
Qed.

Lemma check_idxes_run n idx (c c' : FormChecker) :
  mapM_ (fun Idx => if Idx >=? n then throw ValidationFailed else ret tt) idx c = (Ok tt, c') ->
  c' = c /\ Forall (fun i => i < n) idx.
Proof.
  revert c. induction idx as [|i idx IH]; intros c H;
    [cbn in H; inversion H; subst; split; [done|constructor]|].
  apply mapM_Ok_cons in H as (c1 & H1 & H). destruct (Z.geb_spec i n); [done|].
  inversion H1; subst. destruct (IH _ H) as [-> ?]. split; [done|]. constructor; [lia|done].
Qed.

Lemma elems_view l c c' ts fs tabs mems globs :
  validateElementSection l c = (Ok tt, c') -> ctx_view c ts fs tabs mems globs ->
  ctx_view c' ts fs tabs mems globs /\
  Forall (fun e => 0 <= TableIdx e < sizeZ tabs /\ Forall (fun i => i < sizeZ fs) (FuncIdxes e)) l.
Proof.
  unfold validateElementSection. revert c. induction l as [|e l IH]; intros c H Hv.
  { cbn in H. inversion H; subst. finish. }
  apply mapM_Ok_cons in H as (c1 & H1 & H). unfold validateElementSegment, bind at 1, get in H1.
  destruct (atZ (fcTables c) (TableIdx e)) eqn:Et; [|done]. case_bool_decide; [done|].
  inv_bind H1. apply atZ_Some in Et.
  destruct a. apply check_idxes_run in H2 as [-> Hf].
  pose proof (ctx_keeps_validateConstExpr (ElemExpr e) [VT_I32] c) as Hk. rewrite H1 in Hk.
  destruct (IH c1 H) as [Hv' Hl]; [by eapply ctx_view_eq|]. split; [done|]. constructor; [|done].
  destruct Hv as [? <- Ht ? ?]. split; [|done]. rewrite Ht in Et. unfold sizeZ in *.
  by rewrite length_fmap in Et.
Qed.

Lemma datas_view l c c' ts fs tabs mems globs :
  validateDataSection l c = (Ok tt, c') -> ctx_view c ts fs tabs mems globs ->
  ctx_view c' ts fs tabs mems globs /\ Forall (fun d => MemoryIdx d < sizeZ mems) l.
Proof.
  unfold validateDataSection. revert c. induction l as [|d l IH]; intros c H Hv.
  { cbn in H. inversion H; subst. finish. }
  apply mapM_Ok_cons in H as (c1 & H1 & H). unfold validateDataSegment, bind at 1, get in H1.
  destruct (Z.geb_spec (MemoryIdx d) (sizeZ (fcMems c))); [done|].
  pose proof (ctx_keeps_validateConstExpr (DataExpr d) [VT_I32] c) as Hk. rewrite H1 in Hk.
  destruct (IH c1 H) as [Hv' Hl]; [by eapply ctx_view_eq|]. split; [done|]. constructor; [|done].
  destruct Hv as [? ? ? <- ?]. lia.
Qed.

Lemma exports_view names l c c' ts fs tabs mems globs :
  validateExports names l c = (Ok tt, c') -> ctx_view c ts fs tabs mems globs ->
  c' = c /\ NoDup (ExpExtName <$> l) /\ (forall n, n ∈ names -> n ∉ ExpExtName <$> l) /\
  Forall (fun d => ExpExtName d <> [] /\ ExtIdx d < match ExpExtType d with
    | Ext_Function => sizeZ fs | Ext_Table => sizeZ tabs | Ext_Memory => sizeZ mems
    | Ext_Global => sizeZ globs end) l.
Proof.
  intros H Hv. revert names H. induction l as [|d l IH]; intros names H; cbn [validateExports] in H.
  { inversion H; subst. split; [done|]. split; [constructor|]. split; [|constructor].
    intros n _ Hn. cbn in Hn. by apply not_elem_of_nil in Hn. }
  destruct (_ || _) eqn:E; [done|]. apply orb_false_iff in E as [E1 E2].
  apply bool_decide_eq_false in E1, E2. inv_bind H. unfold validateExportDesc, bind, get in H0.
  cbv zeta in H0. destruct (ExtIdx d >=? _) eqn:Eb in H0; [done|]. inversion H0; subst; clear H0.
  rewrite Z.geb_leb in Eb. apply Z.leb_gt in Eb.
  destruct (IH _ H) as (-> & Hnd & Hnot & Hall). cbn [fmap list_fmap].
  split; [done|]. split; [constructor; [apply Hnot; left|done]|]. split.
  - intros n Hn Hin. apply elem_of_cons in Hin as [->|Hin]; [done|].
    apply (Hnot n); [by right|done].
  - constructor; [|done]. split; [done|]. destruct Hv as [? <- Ht <- <-].
    destruct (ExpExtType d); try done. unfold sizeZ in *. by rewrite Ht, length_fmap in Eb.
Qed.

Lemma start_view f c c' ts fs tabs mems globs :
  validateStartSection f c = (Ok tt, c') -> ctx_view c ts fs tabs mems globs ->
  c' = c /\ exists t ft, atZ fs f = Some t /\ atZ ts t = Some ft /\ ft.1 = [] /\ ft.2 = [].
Proof.
  intros H [<- <- _ _ _]. unfold validateStartSection, bind, get in H.
  destruct (atZ (fcFuncs c) f) as [t|]; [|done]. destruct (atZ (fcTypes c) t) as [ft|] eqn:E; [|done].
  destruct (_ || _) eqn:Eo; [done|]. inversion H; subst. split; [done|]. exists t, ft.
  bool_to_prop. unfold sizeZ in *. split; [done|]. split; [done|].
  split; apply nil_length_inv; lia.
Qed.

Lemma on_section_Ok {A} (o : option (list A)) (f : list A -> M FormChecker unit) c c' :
  (f [] = ret tt) -> on_section o f c = (Ok tt, c') -> f (sec o) c = (Ok tt, c').
Proof. intros Hf. destruct o; cbn; [done|]. by rewrite Hf. Qed.

Lemma function_section_Ok fo co c c' :
  match fo, co with
  | Some f, Some s => validateFunctionSection f s
  | None, None => ret tt
  | _, _ => throw ValidationFailed
  end c = (Ok tt, c') -> validateFunctionSection (sec fo) (sec co) c = (Ok tt, c').
Proof. by destruct fo, co. Qed.

Lemma fc_type_nil ts t ft : atZ (fc_type <$> ts) t = Some ft -> ft.1 = [] -> ft.2 = [] ->
  exists ft', atZ ts t = Some ft' /\ ParamTypes ft' = [] /\ ReturnTypes ft' = [].
Proof.
  unfold atZ. destruct (0 <=? t); [|done]. rewrite list_lookup_fmap.
  destruct (ts !! _) as [ft'|]; [|done]. cbn. intros [= <-] H1 H2. exists ft'.
  by apply fmap_nil_inv in H1, H2.
Qed.

Lemma start_section_view m c c' tabs mems globs :
  on_section (StartSec m) validateStartSection c = (Ok tt, c') ->
  ctx_view c ([] ++ (fc_type <$> sec (TypeSec m))) (([] ++ omap imp_func (sec (ImportSec m))) ++
    sec (FunctionSec m)) tabs mems globs ->
  c' = c /\ forall f, StartSec m = Some f -> exists t ft,
    atZ (mod_funcs m) f = Some t /\ atZ (sec (TypeSec m)) t = Some ft /\
    ParamTypes ft = [] /\ ReturnTypes ft = [].
Proof.
  intros H Hv. destruct (StartSec m) as [f|]; [|by inversion H; subst].
  destruct (start_view _ _ _ _ _ _ _ _ H Hv) as (-> & t & ft & E1 & E2 & E3 & E4).
  split; [done|]. intros f' [= <-]. exists t.
  destruct (fc_type_nil _ _ _ E2 E3 E4) as (ft' & ?). by exists ft'.
Qed.

(** [C6] A module the validator accepts satisfies the module-level conditions of the
    WebAssembly specification, stated on the module alone: every import has the content of
    its kind, every function type index exists, every limit is within its bound, there is
    at most one table and one memory, functions and bodies correspond, element and data
    segments refer to existing tables, functions and memories, the start function has type
    [] -> [], and export names are distinct and their indices exist. *)
Theorem accepted_module_valid (m : AModule) (c c' : FormChecker) :
  validate m c = (Ok tt, c') -> module_valid m.
Proof.
  intros H. unfold validate in H.
  apply bind_Ok_inv in H as ([] & c0 & E0 & H). inversion E0; subst; clear E0.
  apply bind_Ok_inv in H as ([] & c1 & E1 & H). apply on_section_Ok in E1; [|done].
  apply (addTypes_view _ _ _ [] [] [] [] []) in E1 as Hv; [|by split].
  apply bind_Ok_inv in H as ([] & c2 & E2 & H). apply on_section_Ok in E2; [|done].
  apply (imports_view _ _ _ _ _ _ _ _ E2) in Hv as (Hv & F1 & F2 & F3 & F4).
  apply bind_Ok_inv in H as ([] & c3 & E3 & H). apply on_section_Ok in E3; [|done].
  apply (tables_view _ _ _ _ _ _ _ _ E3) in Hv as (Hv & G2).
  apply bind_Ok_inv in H as ([] & c4 & E4 & H). apply on_section_Ok in E4; [|done].
  apply (memories_view _ _ _ _ _ _ _ _ E4) in Hv as (Hv & G3).
  apply bind_Ok_inv in H as ([] & c5 & E5 & H). apply on_section_Ok in E5; [|done].
  apply (globals_view _ _ _ _ _ _ _ _ E5) in Hv.
  apply bind_Ok_inv in H as ([] & c6 & E6 & H). apply function_section_Ok in E6.
  apply (functions_view _ _ _ _ _ _ _ _ _ E6) in Hv as (Hv & G1 & Hlen).
  apply bind_Ok_inv in H as ([] & c7 & E7 & H). apply on_section_Ok in E7; [|done].
  apply (elems_view _ _ _ _ _ _ _ _ E7) in Hv as (Hv & He).
  apply bind_Ok_inv in H as ([] & c8 & E8 & H). apply on_section_Ok in E8; [|done].
  apply (datas_view _ _ _ _ _ _ _ _ E8) in Hv as (Hv & Hd).
  apply bind_Ok_inv in H as ([] & c9 & E9 & H).
  destruct (start_section_view m _ _ _ _ _ E9 Hv) as [-> Hs]. clear E9.
  apply bind_Ok_inv in H as ([] & c10 & E10 & H). apply on_section_Ok in E10; [|done].
  destruct (exports_view _ _ _ _ _ _ _ _ _ E10 Hv) as (-> & Hnd & _ & Hx).
  unfold bind, get in H. destruct (_ || _) eqn:Eo in H; [done|]. bool_to_prop.
  destruct Hv as [_ _ Ht Hm _]. rewrite Hm in *. rewrite Ht in *. unfold sizeZ in *.
  rewrite length_fmap in *. cbn [app length] in *. rewrite ?length_fmap in *.
  split; unfold mod_funcs, mod_tables, mod_mems, mod_globals, sizeZ; try done;
    try (by apply Forall_app).
Qed.

Lemma accepted_module_valid_witness : module_valid return_module.
Proof.
  assert (exists c', validate return_module newFormChecker = (Ok tt, c')) as [c' E]
    by (eexists; vm_compute; reflexivity).
  exact (accepted_module_valid return_module newFormChecker c' E).
Defined.
