(* ===== verification/StackMgr.v ===== *)
(** * The stack manager: include/runtime/stackmgr.h

    Three vectors.  Their backs are at the heads of the lists: pushing is [cons]. *)
From stdpp Require Import base list numbers option.
From Stdlib Require Import ZArith Lia.
From S2P Require Import Prelude Types Instruction.
#[local] Open Scope Z_scope.

(** [Target] points to the loop instruction a branch continues with, or is null. *)
Record Label : Type := mkLabel { LStackSz : Z; LCoarity : Z; Target : option Instr }.
Record Frame : Type := mkFrame { ModAddr : Z; VStackSize : Z; LStackSize : Z; FCoarity : Z }.

Record StackManager : Type := mkStack
  { ValueStack : list ValVariant; LabelStack : list Label; FrameStack : list Frame }.

Definition newStackManager : StackManager := mkStack [] [] [].

Definition set_values (vs : list ValVariant) (s : StackManager) : StackManager :=
  mkStack vs (LabelStack s) (FrameStack s).

#[local] Abbreviation MS := (M StackManager).

(** [v.erase(v.begin() + i, v.end() - k)] on a vector whose back is the head: the first
    [i] and the last [k] elements stay. *)
Definition erase_mid {A} (i k : Z) (l : list A) : res (list A) :=
  if (0 <=? i) && (0 <=? k) && (i <=? sizeZ l - k)
  then Ok (take (Z.to_nat k) l ++ drop (Z.to_nat (sizeZ l - i)) l)
  else Undef UB_vector.

Module Stack.

Definition size : MS Z := gets (fun s => sizeZ (ValueStack s)).

Definition getTop : MS ValVariant := fun s =>
  match ValueStack s with v :: _ => (Ok v, s) | [] => (Undef UB_vector, s) end.

(** Assignment through the reference [getTop] returns. *)
Definition setTop (v : ValVariant) : MS unit := fun s =>
  match ValueStack s with _ :: vs => (Ok tt, set_values (v :: vs) s) | [] => (Undef UB_vector, s) end.

(** [ValueStack[N]] counts from the bottom. *)
Definition bottom_index (s : StackManager) (N : Z) : option nat :=
  if (0 <=? N) && (N <? sizeZ (ValueStack s))
  then Some (Z.to_nat (sizeZ (ValueStack s) - 1 - N)) else None.
Definition getBottomN (N : Z) : MS ValVariant := fun s =>
  match bottom_index s N ≫= (fun i => ValueStack s !! i) with
  | Some v => (Ok v, s) | None => (Undef UB_vector, s) end.
Definition setBottomN (N : Z) (v : ValVariant) : MS unit := fun s =>
  match bottom_index s N with
  | Some i => (Ok tt, set_values (<[i := v]> (ValueStack s)) s) | None => (Undef UB_vector, s) end.

Definition push (v : ValVariant) : MS unit := modify (fun s => set_values (v :: ValueStack s) s).

Definition pop : MS ValVariant := fun s =>
  match ValueStack s with v :: vs => (Ok v, set_values vs s) | [] => (Undef UB_vector, s) end.

Definition pushFrame (ModuleAddr Arity Coarity : Z) : MS unit := modify (fun s =>
  mkStack (ValueStack s) (LabelStack s)
    (mkFrame ModuleAddr (wrap 32 (sizeZ (ValueStack s) - Arity)) (wrap 32 (sizeZ (LabelStack s)))
       Coarity :: FrameStack s)).

Definition popFrame : MS Z := fun s =>
  match FrameStack s with
  | [] => (Undef UB_vector, s)
  | f :: fs =>
      let LabelPopped := wrap 32 (sizeZ (LabelStack s) - LStackSize f) in
      match erase_mid (LStackSize f) 0 (LabelStack s), erase_mid (VStackSize f) (FCoarity f) (ValueStack s) with
      | Ok ls, Ok vs => (Ok LabelPopped, mkStack vs ls fs)
      | _, _ => (Undef UB_vector, s)
      end
  end.

Definition pushLabel (Coarity : Z) (Instr : option Instr) : MS unit := modify (fun s =>
  mkStack (ValueStack s) (mkLabel (wrap 32 (sizeZ (ValueStack s))) Coarity Instr :: LabelStack s)
    (FrameStack s)).

(** [LabelStack[LabelStack.size() - Count - 1]] *)
Definition getLabelWithCount (Count : Z) : MS Label := fun s =>
  match atZ (LabelStack s) Count with Some l => (Ok l, s) | None => (Undef UB_vector, s) end.

Definition popLabel (Cnt : Z) : MS unit :=
  let* L := getLabelWithCount (Cnt - 1) in
  let* s := get in
  match erase_mid (LStackSz L) (LCoarity L) (ValueStack s) with
  | Ok vs => put (mkStack vs (drop (Z.to_nat Cnt) (LabelStack s)) (FrameStack s))
  | _ => undef UB_vector
  end.

Definition getModuleAddr : MS Z := fun s =>
  match FrameStack s with f :: _ => (Ok (ModAddr f), s) | [] => (Undef UB_vector, s) end.
Definition getOffset (Idx : Z) : MS Z := fun s =>
  match FrameStack s with
  | f :: _ => (Ok (wrap 32 (VStackSize f + Idx)), s) | [] => (Undef UB_vector, s) end.

Definition reset : MS unit := put newStackManager.

End Stack.
