(* ===== verification/Runtime.v ===== *)
(** * Runtime instances, the store and the measurement: include/runtime/instance/*.h,
    include/runtime/storemgr.h, include/runtime/hostfunc.h, include/runtime/importobj.h,
    include/support/measure.h *)
From stdpp Require Import base list numbers option.
From Stdlib Require Import ZArith Lia.
From S2P Require Import Prelude Types Instruction AST Memory StackMgr.
#[local] Open Scope Z_scope.

(** ** std::map<std::string, T>: an association list in the order of the keys *)

Fixpoint str_ltb (a b : list Z) : bool :=
  match a, b with
  | [], [] => false
  | [], _ :: _ => true
  | _ :: _, [] => false
  | x :: a', y :: b' => if x <? y then true else if y <? x then false else str_ltb a' b'
  end.

Definition smap (A : Type) : Type := list (list Z * A).

Fixpoint map_find {A} (k : list Z) (m : smap A) : option A :=
  match m with
  | [] => None
  | (k', v) :: m' => if bool_decide (k = k') then Some v else map_find k m'
  end.

(** [m[k] = v]. *)
Fixpoint map_set {A} (k : list Z) (v : A) (m : smap A) : smap A :=
  match m with
  | [] => [(k, v)]
  | (k', v') :: m' =>
      if bool_decide (k = k') then (k, v) :: m'
      else if str_ltb k k' then (k, v) :: (k', v') :: m'
      else (k', v') :: map_set k v m'
  end.

(** [m.emplace(k, v)]: nothing when the key is there. *)
Definition map_emplace {A} (k : list Z) (v : A) (m : smap A) : smap A :=
  match map_find k m with Some _ => m | None => map_set k v m end.

(** [v.back()]. *)
Definition back {A} (l : list A) : option A := atZ l (sizeZ l - 1).

(** ** Measurement *)

Record Measurement : Type := mkMeasure
  { CostTab : list Z; InstrCnt : Z; CostLimit : Z; CostSum : Z }.

Definition newMeasurement (Tab : list Z) (Lim : Z) : Measurement :=
  mkMeasure (if sizeZ Tab <? 256 then resizeZ 0 256 Tab else Tab) 0 Lim 0.

Definition setCostTable (NewTable : list Z) (m : Measurement) : Measurement :=
  mkMeasure (if sizeZ NewTable <? 256 then resizeZ 0 256 NewTable else NewTable)
    (InstrCnt m) (CostLimit m) (CostSum m).

Definition incInstrCnt (m : Measurement) : Measurement :=
  mkMeasure (CostTab m) (wrap 64 (InstrCnt m + 1)) (CostLimit m) (CostSum m).

Definition set_CostSum (s : Z) (m : Measurement) : Measurement :=
  mkMeasure (CostTab m) (InstrCnt m) (CostLimit m) s.

Definition addCost (Cost : Z) (m : Measurement) : bool * Measurement :=
  let CostSum' := wrap 64 (CostSum m + Cost) in
  if CostSum' >? CostLimit m then (false, set_CostSum (CostLimit m) m)
  else (true, set_CostSum CostSum' m).

Definition subCost (Cost : Z) (m : Measurement) : bool * Measurement :=
  if CostSum m >? Cost then (true, set_CostSum (CostSum m - Cost) m)
  else (false, set_CostSum 0 m).

(** [CostTab[Code]]: undefined past the table, which has at least 256 entries. *)
Definition addInstrCost (Code : OpCode) (m : Measurement) : res bool * Measurement :=
  match atZ (CostTab m) (byte_of_OpCode Code) with
  | Some c => let '(b, m') := addCost c m in (Ok b, m')
  | None => (Undef UB_vector, m)
  end.

Definition clearMeasure (m : Measurement) : Measurement :=
  mkMeasure (CostTab m) 0 (CostLimit m) (CostSum m).

(** ** Tables and globals *)

Record TableInstance : Type := mkTable
  { TabType : ElemType; HasMaxSize : bool; MinSize : Z; MaxSize : Z; FuncElem : list Z }.

Definition newTable (Elem : ElemType) (Lim : Limit) : TableInstance :=
  mkTable Elem (hasMax Lim) (Min Lim) (Max Lim) (replicate (Z.to_nat (Min Lim)) 0).

(** [Offset + Addrs.size()] is computed in [size_t]. *)
Definition setInitList (Offset : Z) (Addrs : list Z) : M TableInstance unit := fun t =>
  let fin := Offset + sizeZ Addrs in
  if HasMaxSize t && (fin >? MaxSize t) then (Err TableSizeExceeded, t)
  else
    let elem := if sizeZ (FuncElem t) <? fin then resizeZ 0 fin (FuncElem t) else FuncElem t in
    (Ok tt, mkTable (TabType t) (HasMaxSize t) (MinSize t) (MaxSize t) (splice Offset Addrs elem)).

Definition getElemAddr (Idx : Z) (t : TableInstance) : res Z :=
  match atZ (FuncElem t) Idx with Some a => Ok a | None => Err AccessForbidMemory end.

Record GlobalInstance : Type := mkGlobal { GType : ValType; GMut : ValMut; GValue : ValVariant }.

Definition newGlobal (ValueType : ValType) (Mutibility : ValMut) : GlobalInstance :=
  mkGlobal ValueType Mutibility (ValueFromType ValueType).

Definition set_GValue (v : ValVariant) (g : GlobalInstance) : GlobalInstance :=
  mkGlobal (GType g) (GMut g) v.

(** ** Functions *)

Section Runtime.
(** The state host functions share with the embedder. *)
Context {H : Type}.

(** [HostFunctionBase]: its type, its cost and the virtual [run].  [run] sees the stack,
    the memory of the caller, the measurement the host module may refer to, and the
    state of the host. *)
Record HostFunc : Type := mkHostFunc {
  hfType : FType;
  hfCost : Z;
  hfRun : StackManager -> MemoryInstance -> option Measurement -> H ->
    res ErrCode * (StackManager * MemoryInstance * option Measurement * H)
}.

Inductive FunctionInstance : Type :=
| NativeFunction (ModuleAddr : Z) (FuncType : FType) (Locals : list (Z * option ValType))
    (Instrs : list Instr)
| HostFunctionInst (f : HostFunc).

Definition isHostFunction (f : FunctionInstance) : bool :=
  match f with HostFunctionInst _ => true | NativeFunction _ _ _ _ => false end.
Definition getFuncTypeOf (f : FunctionInstance) : FType :=
  match f with NativeFunction _ t _ _ => t | HostFunctionInst h => hfType h end.

(** The constructor for native functions copies the body. *)
Definition newNativeFunction (ModAddr : Z) (Type_ : FType) (Locs : list (Z * option ValType))
    (Expr : list Instr) : res FunctionInstance :=
  let? Instrs := copyInstrs Expr in Ok (NativeFunction ModAddr Type_ Locs Instrs).

(** ** Modules *)

Record ModuleInstance : Type := mkModInst {
  miAddr : Z;
  miName : list Z;
  FuncTypes : list FType;
  FuncAddrs : list Z; TableAddrs : list Z; MemAddrs : list Z; GlobalAddrs : list Z;
  ExpFuncs : smap Z; ExpTables : smap Z; ExpMems : smap Z; ExpGlobals : smap Z;
  StartAddr : option Z
}.

Definition newModuleInstance (Name : list Z) : ModuleInstance :=
  mkModInst 0 Name [] [] [] [] [] [] [] [] [] None.

Definition set_miAddr (a : Z) (m : ModuleInstance) : ModuleInstance :=
  mkModInst a (miName m) (FuncTypes m) (FuncAddrs m) (TableAddrs m) (MemAddrs m) (GlobalAddrs m)
    (ExpFuncs m) (ExpTables m) (ExpMems m) (ExpGlobals m) (StartAddr m).
Definition addFuncType (t : FType) (m : ModuleInstance) : ModuleInstance :=
  mkModInst (miAddr m) (miName m) (FuncTypes m ++ [t]) (FuncAddrs m) (TableAddrs m) (MemAddrs m)
    (GlobalAddrs m) (ExpFuncs m) (ExpTables m) (ExpMems m) (ExpGlobals m) (StartAddr m).
Definition addFuncAddr (a : Z) (m : ModuleInstance) : ModuleInstance :=
  mkModInst (miAddr m) (miName m) (FuncTypes m) (FuncAddrs m ++ [a]) (TableAddrs m) (MemAddrs m)
    (GlobalAddrs m) (ExpFuncs m) (ExpTables m) (ExpMems m) (ExpGlobals m) (StartAddr m).
Definition addTableAddr (a : Z) (m : ModuleInstance) : ModuleInstance :=
  mkModInst (miAddr m) (miName m) (FuncTypes m) (FuncAddrs m) (TableAddrs m ++ [a]) (MemAddrs m)
    (GlobalAddrs m) (ExpFuncs m) (ExpTables m) (ExpMems m) (ExpGlobals m) (StartAddr m).
Definition addMemAddr (a : Z) (m : ModuleInstance) : ModuleInstance :=
  mkModInst (miAddr m) (miName m) (FuncTypes m) (FuncAddrs m) (TableAddrs m) (MemAddrs m ++ [a])
    (GlobalAddrs m) (ExpFuncs m) (ExpTables m) (ExpMems m) (ExpGlobals m) (StartAddr m).
Definition addGlobalAddr (a : Z) (m : ModuleInstance) : ModuleInstance :=
  mkModInst (miAddr m) (miName m) (FuncTypes m) (FuncAddrs m) (TableAddrs m) (MemAddrs m)
    (GlobalAddrs m ++ [a]) (ExpFuncs m) (ExpTables m) (ExpMems m) (ExpGlobals m) (StartAddr m).

(** [ExpFuncs[Name] = FuncAddrs[Idx]] and the like: undefined past the addresses. *)
Definition exportFuncion (Name : list Z) (Idx : Z) (m : ModuleInstance) : res ModuleInstance :=
  match atZ (FuncAddrs m) Idx with
  | Some a => Ok (mkModInst (miAddr m) (miName m) (FuncTypes m) (FuncAddrs m) (TableAddrs m)
      (MemAddrs m) (GlobalAddrs m) (map_set Name a (ExpFuncs m)) (ExpTables m) (ExpMems m)
      (ExpGlobals m) (StartAddr m))
  | None => Undef UB_vector
  end.
Definition exportTable (Name : list Z) (Idx : Z) (m : ModuleInstance) : res ModuleInstance :=
  match atZ (TableAddrs m) Idx with
  | Some a => Ok (mkModInst (miAddr m) (miName m) (FuncTypes m) (FuncAddrs m) (TableAddrs m)
      (MemAddrs m) (GlobalAddrs m) (ExpFuncs m) (map_set Name a (ExpTables m)) (ExpMems m)
      (ExpGlobals m) (StartAddr m))
  | None => Undef UB_vector
  end.
Definition exportMemory (Name : list Z) (Idx : Z) (m : ModuleInstance) : res ModuleInstance :=
  match atZ (MemAddrs m) Idx with
  | Some a => Ok (mkModInst (miAddr m) (miName m) (FuncTypes m) (FuncAddrs m) (TableAddrs m)
      (MemAddrs m) (GlobalAddrs m) (ExpFuncs m) (ExpTables m) (map_set Name a (ExpMems m))
      (ExpGlobals m) (StartAddr m))
  | None => Undef UB_vector
  end.
Definition exportGlobal (Name : list Z) (Idx : Z) (m : ModuleInstance) : res ModuleInstance :=
  match atZ (GlobalAddrs m) Idx with
  | Some a => Ok (mkModInst (miAddr m) (miName m) (FuncTypes m) (FuncAddrs m) (TableAddrs m)
      (MemAddrs m) (GlobalAddrs m) (ExpFuncs m) (ExpTables m) (ExpMems m)
      (map_set Name a (ExpGlobals m)) (StartAddr m))
  | None => Undef UB_vector
  end.
Definition setStartIdx (Idx : Z) (m : ModuleInstance) : res ModuleInstance :=
  match atZ (FuncAddrs m) Idx with
  | Some a => Ok (mkModInst (miAddr m) (miName m) (FuncTypes m) (FuncAddrs m) (TableAddrs m)
      (MemAddrs m) (GlobalAddrs m) (ExpFuncs m) (ExpTables m) (ExpMems m) (ExpGlobals m) (Some a))
  | None => Undef UB_vector
  end.

(** [getFuncType(Idx)], [getFuncAddr(Idx)] and the like. *)
Definition get_at {A} (l : list A) (Idx : Z) : res A :=
  match atZ l Idx with Some a => Ok a | None => Err WrongInstanceAddress end.

(** ** The store

    A pool holds the instances of one kind in the order of their addresses, how many of
    them the store owns, and how many belong to the instantiated module.  A host instance
    is registered once, so no two addresses of a store share an object. *)

Record pool (A : Type) : Type := mkPool { insts : list A; owned : Z; num : Z }.
Arguments mkPool {A} insts owned num.
Arguments insts {A} p.
Arguments owned {A} p.
Arguments num {A} p.

Record StoreManager : Type := mkStore {
  Mods : pool ModuleInstance;
  Funcs : pool FunctionInstance;
  Tabs : pool TableInstance;
  Mems : pool MemoryInstance;
  Globs : pool GlobalInstance
}.

Definition empty_pool {A} : pool A := mkPool [] 0 0.
Definition newStoreManager : StoreManager :=
  mkStore empty_pool empty_pool empty_pool empty_pool empty_pool.

(** [importInstance], [importHostInstance] and the [push] functions. *)
Definition pool_import {A} (x : A) (p : pool A) : Z * pool A :=
  (wrap 32 (sizeZ (insts p)), mkPool (insts p ++ [x]) (owned p + 1) (num p)).
Definition pool_import_host {A} (x : A) (p : pool A) : Z * pool A :=
  (wrap 32 (sizeZ (insts p)), mkPool (insts p ++ [x]) (owned p) (num p)).
Definition pool_push {A} (x : A) (p : pool A) : Z * pool A :=
  (wrap 32 (sizeZ (insts p)), mkPool (insts p ++ [x]) (owned p + 1) (wrap 32 (num p + 1))).

(** [while (Num > 0) { --Num; ImpInsts.pop_back(); Insts.pop_back(); }] *)
Definition pool_reset {A} (p : pool A) : res (pool A) :=
  if (num p <=? owned p) && (num p <=? sizeZ (insts p))
  then Ok (mkPool (take (Z.to_nat (sizeZ (insts p) - num p)) (insts p)) (owned p - num p) 0)
  else Undef UB_vector.

Definition set_Mods (p : pool ModuleInstance) (s : StoreManager) : StoreManager :=
  mkStore p (Funcs s) (Tabs s) (Mems s) (Globs s).
Definition set_Funcs (p : pool FunctionInstance) (s : StoreManager) : StoreManager :=
  mkStore (Mods s) p (Tabs s) (Mems s) (Globs s).
Definition set_Tabs (p : pool TableInstance) (s : StoreManager) : StoreManager :=
  mkStore (Mods s) (Funcs s) p (Mems s) (Globs s).
Definition set_Mems (p : pool MemoryInstance) (s : StoreManager) : StoreManager :=
  mkStore (Mods s) (Funcs s) (Tabs s) p (Globs s).
Definition set_Globs (p : pool GlobalInstance) (s : StoreManager) : StoreManager :=
  mkStore (Mods s) (Funcs s) (Tabs s) (Mems s) p.

(** [importModule] and [pushModule] set the address of the instance. *)
Definition importModule (Mod : ModuleInstance) (s : StoreManager) : Z * StoreManager :=
  let '(a, p) := pool_import (set_miAddr (wrap 32 (sizeZ (insts (Mods s)))) Mod) (Mods s) in
  (a, set_Mods p s).
Definition pushModule (Mod : ModuleInstance) (s : StoreManager) : Z * StoreManager :=
  let '(a, p) := pool_push (set_miAddr (wrap 32 (sizeZ (insts (Mods s)))) Mod) (Mods s) in
  (a, set_Mods p s).

Definition popModule (s : StoreManager) : res StoreManager :=
  if 0 <? num (Mods s) then
    match insts (Mods s) with
    | [] => Undef UB_vector
    | _ :: _ =>
        if owned (Mods s) <=? 0 then Undef UB_vector
        else Ok (set_Mods (mkPool (removelast (insts (Mods s))) (owned (Mods s) - 1)
                             (num (Mods s) - 1)) s)
    end
  else Ok s.

(** [getInstance]. *)
Definition getInstance {A} (Addr : Z) (p : pool A) : res A := get_at (insts p) Addr.

(** Writing through the pointer [getInstance] returns. *)
Definition pool_update {A} (Addr : Z) (x : A) (p : pool A) : pool A :=
  mkPool (setZ Addr x (insts p)) (owned p) (num p).

Definition getActiveModule (s : StoreManager) : res ModuleInstance :=
  if 0 <? num (Mods s) then
    match back (insts (Mods s)) with Some m => Ok m | None => Undef UB_vector end
  else Err WrongInstanceAddress.

Definition getFuncExports (s : StoreManager) : res (smap Z) :=
  if 0 <? num (Mods s) then
    match back (insts (Mods s)) with Some m => Ok (ExpFuncs m) | None => Undef UB_vector end
  else Ok [].

Definition getTableExports (s : StoreManager) : res (smap Z) :=
  if 0 <? num (Mods s) then
    match back (insts (Mods s)) with Some m => Ok (ExpTables m) | None => Undef UB_vector end
  else Ok [].

Definition getMemExports (s : StoreManager) : res (smap Z) :=
  if 0 <? num (Mods s) then
    match back (insts (Mods s)) with Some m => Ok (ExpMems m) | None => Undef UB_vector end
  else Ok [].

Definition getGlobalExports (s : StoreManager) : res (smap Z) :=
  if 0 <? num (Mods s) then
    match back (insts (Mods s)) with Some m => Ok (ExpGlobals m) | None => Undef UB_vector end
  else Ok [].

Definition findModule (Name : list Z) (s : StoreManager) : res ModuleInstance :=
  match list_find (fun m => miName m = Name) (insts (Mods s)) with
  | Some (_, m) => Ok m
  | None => Err WrongInstanceAddress
  end.

Definition resetStore (IsResetRegistered : bool) (s : StoreManager) : res StoreManager :=
  if IsResetRegistered then Ok newStoreManager
  else
    let? m := pool_reset (Mods s) in
    let? f := pool_reset (Funcs s) in
    let? t := pool_reset (Tabs s) in
    let? e := pool_reset (Mems s) in
    let? g := pool_reset (Globs s) in
    Ok (mkStore m f t e g).

(** ** Import objects *)

Record ImportObject : Type := mkImportObject {
  ioName : list Z;
  ioFuncs : smap FunctionInstance;
  ioTabs : smap TableInstance;
  ioMems : smap MemoryInstance;
  ioGlobs : smap GlobalInstance
}.

Definition newImportObject (Name : list Z) : ImportObject := mkImportObject Name [] [] [] [].
Definition addHostFunc (Name : list Z) (f : HostFunc) (o : ImportObject) : ImportObject :=
  mkImportObject (ioName o) (map_emplace Name (HostFunctionInst f) (ioFuncs o)) (ioTabs o)
    (ioMems o) (ioGlobs o).
Definition addHostTable (Name : list Z) (t : TableInstance) (o : ImportObject) : ImportObject :=
  mkImportObject (ioName o) (ioFuncs o) (map_emplace Name t (ioTabs o)) (ioMems o) (ioGlobs o).
Definition addHostMemory (Name : list Z) (m : MemoryInstance) (o : ImportObject) : ImportObject :=
  mkImportObject (ioName o) (ioFuncs o) (ioTabs o) (map_emplace Name m (ioMems o)) (ioGlobs o).
Definition addHostGlobal (Name : list Z) (g : GlobalInstance) (o : ImportObject) : ImportObject :=
  mkImportObject (ioName o) (ioFuncs o) (ioTabs o) (ioMems o) (map_emplace Name g (ioGlobs o)).

End Runtime.

Arguments HostFunc : clear implicits.
Arguments FunctionInstance : clear implicits.
Arguments StoreManager : clear implicits.
Arguments ImportObject : clear implicits.
Arguments mkPool {A} insts owned num.
Arguments insts {A} p.
Arguments owned {A} p.
Arguments num {A} p.
