(* ===== verification/Interpreter.v ===== *)
(** * The interpreter engine: include/interpreter/{interpreter.h,engine/*},
    lib/interpreter/engine/*.cpp, lib/interpreter/interpreter.cpp *)
From stdpp Require Import base list numbers option.
From Stdlib Require Import ZArith Lia.
From S2P Require Import Prelude Types Instruction AST Numeric Memory StackMgr Runtime.
#[local] Open Scope Z_scope.

(** ** The instruction provider: engine/provider.{h,cpp} *)

Inductive SeqType : Set := Seq_Expression | Seq_Block | Seq_FunctionCall.

#[export] Instance SeqType_eq_dec : EqDecision SeqType.
Proof. solve_decision. Defined.

(** A scope holds what is left between its iterators; the top of [Iters] is the head. *)
Record InstrScope : Type := mkScope { ScType : SeqType; Rest : list Instr }.

Inductive InstantiateMode : Set := Mode_Instantiate | Mode_ImportWasm.

Section Interpreter.
Context {H : Type}.

(** The members of [Interpreter], the store it is called with and the host's state. *)
Record Interpreter : Type := mkInterp {
  StackMgr : StackManager;
  Iters : list InstrScope;
  Measure : option Measurement;
  StoreMgr : StoreManager H;
  HostState : H;
  InsMode : InstantiateMode
}.

#[local] Abbreviation MI := (M Interpreter).

Definition set_StackMgr (x : StackManager) (s : Interpreter) : Interpreter :=
  mkInterp x (Iters s) (Measure s) (StoreMgr s) (HostState s) (InsMode s).
Definition set_Iters (x : list InstrScope) (s : Interpreter) : Interpreter :=
  mkInterp (StackMgr s) x (Measure s) (StoreMgr s) (HostState s) (InsMode s).
Definition set_Measure (x : option Measurement) (s : Interpreter) : Interpreter :=
  mkInterp (StackMgr s) (Iters s) x (StoreMgr s) (HostState s) (InsMode s).
Definition set_StoreMgr (x : StoreManager H) (s : Interpreter) : Interpreter :=
  mkInterp (StackMgr s) (Iters s) (Measure s) x (HostState s) (InsMode s).
Definition set_InsMode (x : InstantiateMode) (s : Interpreter) : Interpreter :=
  mkInterp (StackMgr s) (Iters s) (Measure s) (StoreMgr s) (HostState s) x.

Definition onStack {A} (m : M StackManager A) : MI A := zoom StackMgr set_StackMgr m.

(** [getNextInstr]: null when there is no scope or the top one is at its end. *)
Definition getNextInstr : MI (option Instr) := fun s =>
  match Iters s with
  | mkScope t (i :: l) :: r => (Ok (Some i), set_Iters (mkScope t l :: r) s)
  | _ => (Ok None, s)
  end.
Definition getTopScopeType : MI SeqType := gets (fun s =>
  match Iters s with sc :: _ => ScType sc | [] => Seq_Expression end).
Definition pushInstrs (t : SeqType) (Instrs : list Instr) : MI unit :=
  modify (fun s => set_Iters (mkScope t Instrs :: Iters s) s).
Definition popInstrs : MI unit := fun s =>
  match Iters s with
  | [] => (Err WrongInstructionCounter, s)
  | _ :: r => (Ok tt, set_Iters r s)
  end.
(** [for (I = 0; I < n; ++I) popInstrs();] with the results dropped. *)
Fixpoint popInstrs_n (n : nat) : MI unit :=
  match n with O => ret tt | S n' => try popInstrs ;;; popInstrs_n n' end.

(** ** Measurement through the pointer *)

(** [if (!Measure->addInstrCost(Code)) return CostLimitExceeded;]: null is undefined. *)
Definition chargeInstr (Code : OpCode) : MI unit := fun s =>
  match Measure s with
  | None => (Undef UB_deref, s)
  | Some m =>
      match addInstrCost Code m with
      | (Ok true, m') => (Ok tt, set_Measure (Some m') s)
      | (Ok false, m') => (Err CostLimitExceeded, set_Measure (Some m') s)
      | (Undef u, m') => (Undef u, set_Measure (Some m') s)
      | (_, m') => (Err CostLimitExceeded, set_Measure (Some m') s)
      end
  end.

(** [if (Measure) { Measure->incInstrCnt(); if (!addInstrCost(Code)) ... }] *)
Definition countInstr (Code : OpCode) : MI unit :=
  let* s := get in
  match Measure s with
  | None => ret tt
  | Some m => modify (set_Measure (Some (incInstrCnt m))) ;;; chargeInstr Code
  end.

(** ** Instances of the current module *)

(** [ *StoreMgr.getModule(StackMgr.getModuleAddr())]: an error is dereferenced. *)
Definition currentModule : MI ModuleInstance :=
  let* a := onStack Stack.getModuleAddr in
  let* s := get in
  deref (lift (getInstance a (Mods (StoreMgr s)))).

Definition getTabAddrByIdx (Idx : Z) : MI Z :=
  let* m := currentModule in deref (lift (get_at (TableAddrs m) Idx)).
Definition getTabInstByIdx (Idx : Z) : MI TableInstance :=
  let* a := getTabAddrByIdx Idx in
  let* s := get in deref (lift (getInstance a (Tabs (StoreMgr s)))).

(** The address and the instance: writes go back to the address. *)
Definition getMemInstByIdx (Idx : Z) : MI (Z * MemoryInstance) :=
  let* m := currentModule in
  let* a := deref (lift (get_at (MemAddrs m) Idx)) in
  let* s := get in
  let* mem := deref (lift (getInstance a (Mems (StoreMgr s)))) in
  ret (a, mem).
Definition getGlobInstByIdx (Idx : Z) : MI (Z * GlobalInstance) :=
  let* m := currentModule in
  let* a := deref (lift (get_at (GlobalAddrs m) Idx)) in
  let* s := get in
  let* g := deref (lift (getInstance a (Globs (StoreMgr s)))) in
  ret (a, g).

Definition putMem (a : Z) (m : MemoryInstance) : MI unit := modify (fun s =>
  set_StoreMgr (set_Mems (pool_update a m (Mems (StoreMgr s))) (StoreMgr s)) s).
Definition putGlob (a : Z) (g : GlobalInstance) : MI unit := modify (fun s =>
  set_StoreMgr (set_Globs (pool_update a g (Globs (StoreMgr s))) (StoreMgr s)) s).

(** Running a memory operation on the instance at [a]; its changes stay on an error. *)
Definition onMem {A} (a : Z) (mem : MemoryInstance) (op : M MemoryInstance A) : MI A :=
  let '(r, mem') := op mem in putMem a mem' ;;; lift r.

(** ** Blocks, functions, branches: engine.cpp *)

Definition enterBlock (Arity : Z) (Instr : option Instr) (Seq : list Instruction.Instr) : MI unit :=
  onStack (Stack.pushLabel Arity Instr) ;;; pushInstrs Seq_Block Seq.

Definition leaveBlock : MI unit := onStack (Stack.popLabel 1) ;;; popInstrs.

(** The locals of a function, each count of its type. *)
Definition push_locals (Locals : list (Z * option ValType)) : MI unit :=
  mapM_ (fun Def => onStack (modify (fun st =>
    set_values (replicate (Z.to_nat Def.1) (ValueFromType (default VT_None Def.2)) ++ ValueStack st)
      st))) Locals.

(** The host part: the memory of the caller is fetched before the cost is checked. *)
Definition callHost (h : HostFunc H) : MI unit :=
  let* am := getMemInstByIdx 0 in
  let* s := get in
  match Measure s with
  | None => ret tt
  | Some m =>
      let '(b, m') := addCost (hfCost h) m in
      modify (set_Measure (Some m')) ;;;
      if (b : bool) then ret tt else throw CostLimitExceeded
  end ;;;
  let* s := get in
  match hfRun h (StackMgr s) am.2 (Measure s) (HostState s) with
  | (r, (stk, mem, mea, hs)) =>
      put (mkInterp stk (Iters s) mea (StoreMgr s) hs (InsMode s)) ;;;
      putMem am.1 mem ;;;
      let* Status := lift r in
      if bool_decide (Status <> Success) then throw Status else ret tt
  end.

Definition enterFunction (Func : FunctionInstance H) : MI unit :=
  match Func with
  | HostFunctionInst h => callHost h
  | NativeFunction ModuleAddr FuncType Locals Instrs =>
      onStack (Stack.pushFrame ModuleAddr (sizeZ (Params FuncType)) (sizeZ (Returns FuncType))) ;;;
      push_locals Locals ;;;
      pushInstrs Seq_FunctionCall [] ;;;
      enterBlock (sizeZ (Returns FuncType)) None Instrs
  end.

Definition leaveFunction : MI unit :=
  let* LabelPoped := onStack Stack.popFrame in
  popInstrs_n (Z.to_nat LabelPoped) ;;;
  try popInstrs ;;; ret tt.

(** [Cnt + 1] is computed in 32 bits. *)
Definition branchToLabel (runLoop : Instr -> MI unit) (Cnt : Z) : MI unit :=
  let* L := onStack (Stack.getLabelWithCount Cnt) in
  onStack (Stack.popLabel (wrap 32 (Cnt + 1))) ;;;
  popInstrs_n (Z.to_nat (wrap 32 (Cnt + 1))) ;;;
  match Target L with
  | Some ContInstr => runLoop ContInstr
  | None => ret tt
  end.

(** ** Control: control.cpp *)

Definition block_arity (t : ValType) : Z := if bool_decide (t = VT_None) then 0 else 1.

Definition runBlockOp (bt : ValType) (Body : list Instr) : MI unit :=
  enterBlock (block_arity bt) None Body.

(** [runLoopOp(Instr)]: the label refers to the loop itself. *)
Definition runLoopOp (Instr : Instr) : MI unit :=
  match Instr with
  | BlockControlInstruction _ _ Body => enterBlock 0 (Some Instr) Body
  | _ => undef UB_downcast
  end.

Definition runIfElseOp (bt : ValType) (IfStatement ElseStatement : list Instr) : MI unit :=
  let* Cond := onStack Stack.pop in
  let Arity := block_arity bt in
  let* c := lift (retrieveValue U32 Cond) in
  if negb (c =? 0) then
    if sizeZ IfStatement =? 0 then ret tt
    else chargeInstr Op_Else ;;; enterBlock Arity None IfStatement
  else
    if sizeZ ElseStatement =? 0 then ret tt
    else chargeInstr Op_Else ;;; enterBlock Arity None ElseStatement.

Definition runBrOp (LabelIdx : Z) : MI unit := branchToLabel runLoopOp LabelIdx.

Definition runBrIfOp (LabelIdx : Z) : MI unit :=
  let* Cond := onStack Stack.pop in
  let* c := lift (retrieveValue U32 Cond) in
  if negb (c =? 0) then runBrOp LabelIdx else ret tt.

Definition runBrTableOp (LabelTable : list Z) (LabelIdx : Z) : MI unit :=
  let* v := onStack Stack.pop in
  let* Value := lift (retrieveValue U32 v) in
  match atZ LabelTable Value with
  | Some l => branchToLabel runLoopOp l
  | None => branchToLabel runLoopOp LabelIdx
  end.

Definition runReturnOp : MI unit := leaveFunction.

Definition runCallOp (FuncIdx : Z) : MI unit :=
  let* ModInst := currentModule in
  let* FuncAddr := deref (lift (get_at (FuncAddrs ModInst) FuncIdx)) in
  let* s := get in
  let* FuncInst := deref (lift (getInstance FuncAddr (Funcs (StoreMgr s)))) in
  enterFunction FuncInst.

Definition runCallIndirectOp (FuncIdx : Z) : MI unit :=
  let* TabInst := getTabInstByIdx 0 in
  let* ModInst := currentModule in
  let* TargetFuncType := deref (lift (get_at (FuncTypes ModInst) FuncIdx)) in
  let* Idx := onStack Stack.pop in
  let* i := lift (retrieveValue U32 Idx) in
  let* FuncAddr := lift (getElemAddr i TabInst) in
  let* s := get in
  let* FuncInst := deref (lift (getInstance FuncAddr (Funcs (StoreMgr s)))) in
  let FuncType := getFuncTypeOf FuncInst in
  if bool_decide (Params TargetFuncType <> Params FuncType) ||
     bool_decide (Returns TargetFuncType <> Returns FuncType)
  then throw TypeNotMatch
  else enterFunction FuncInst.

(** ** Variables: variable.cpp *)

Definition runLocalGetOp (Idx : Z) : MI unit := onStack (
  let* Offset := Stack.getOffset Idx in
  let* v := Stack.getBottomN Offset in
  Stack.push v).

Definition runLocalSetOp (Idx : Z) : MI unit := onStack (
  let* Offset := Stack.getOffset Idx in
  let* v := Stack.pop in
  Stack.setBottomN Offset v).

Definition runLocalTeeOp (Idx : Z) : MI unit := onStack (
  let* Val := Stack.getTop in
  let* Offset := Stack.getOffset Idx in
  Stack.setBottomN Offset Val).

Definition runGlobalGetOp (Idx : Z) : MI unit :=
  let* ag := getGlobInstByIdx Idx in onStack (Stack.push (GValue ag.2)).

Definition runGlobalSetOp (Idx : Z) : MI unit :=
  let* ag := getGlobInstByIdx Idx in
  let* v := onStack Stack.pop in
  putGlob ag.1 (set_GValue v ag.2).

(** ** Memory: memory.{cpp,ipp} *)

Definition runMemorySizeOp (mem : MemoryInstance) : MI unit :=
  onStack (Stack.push (mkVariant U32 (getDataPageSize mem))).

Definition runMemoryGrowOp (a : Z) (mem : MemoryInstance) : MI unit :=
  let* v := onStack Stack.getTop in
  let* N := lift (retrieveValue U32 v) in
  let CurrPageSize := getDataPageSize mem in
  let* r := try (onMem a mem (growPage N)) in
  onStack (Stack.setTop (assignValue U32 (match r with inl _ => CurrPageSize | inr _ => -1 end) v)).

(** The effective address wraps at 32 bits. *)
Definition runLoadOp (T : CType) (BitWidth : Z) (a : Z) (mem : MemoryInstance) (Offset : Z) : MI unit :=
  let* Val := onStack Stack.getTop in
  let* base := lift (retrieveValue U32 Val) in
  let EA := wrap 32 (base + Offset) in
  let* r := onMem a mem (loadValue T EA (BitWidth / 8)) in
  match r with
  | Some x => onStack (Stack.setTop (assignValue T x Val))
  | None => ret tt
  end.

Definition runStoreOp (T : CType) (BitWidth : Z) (a : Z) (mem : MemoryInstance) (Offset : Z) : MI unit :=
  let* C := onStack Stack.pop in
  let* i := onStack Stack.pop in
  let* base := lift (retrieveValue U32 i) in
  let EA := wrap 32 (base + Offset) in
  let* c := lift (retrieveValue T C) in
  onMem a mem (storeValue T c EA (BitWidth / 8)).

(** ** The execute overloads: engine.cpp *)

Definition executeControl (Code : OpCode) : MI unit :=
  match Code with
  | Op_Unreachable => throw Unreachable
  | Op_Nop => ret tt
  | Op_Return => runReturnOp
  | _ => throw ExecutionFailed
  end.

Definition executeParametric (Code : OpCode) : MI unit :=
  match Code with
  | Op_Drop => onStack Stack.pop ;;; ret tt
  | Op_Select => onStack (
      let* CondVal := Stack.pop in
      let* Val2 := Stack.pop in
      let* Val1 := Stack.pop in
      let* c := lift (retrieveValue U32 CondVal) in
      if c =? 0 then Stack.push Val2 else Stack.push Val1)
  | _ => throw ExecutionFailed
  end.

Definition executeVariable (Code : OpCode) (Index : Z) : MI unit :=
  match Code with
  | Local__get => runLocalGetOp Index
  | Local__set => runLocalSetOp Index
  | Local__tee => runLocalTeeOp Index
  | Global__get => runGlobalGetOp Index
  | Global__set => runGlobalSetOp Index
  | _ => throw ExecutionFailed
  end.

(** The type and the width each load and store is instantiated with. *)
Definition load_shape (Code : OpCode) : option (CType * Z) :=
  match Code with
  | I32__load => Some (U32, 32) | I64__load => Some (U64, 64)
  | F32__load => Some (FLT, 32) | F64__load => Some (DBL, 64)
  | I32__load8_s => Some (S32, 8) | I32__load8_u => Some (U32, 8)
  | I32__load16_s => Some (S32, 16) | I32__load16_u => Some (U32, 16)
  | I64__load8_s => Some (S64, 8) | I64__load8_u => Some (U64, 8)
  | I64__load16_s => Some (S64, 16) | I64__load16_u => Some (U64, 16)
  | I64__load32_s => Some (S64, 32) | I64__load32_u => Some (U64, 32)
  | _ => None
  end.
Definition store_shape (Code : OpCode) : option (CType * Z) :=
  match Code with
  | I32__store => Some (U32, 32) | I64__store => Some (U64, 64)
  | F32__store => Some (FLT, 32) | F64__store => Some (DBL, 64)
  | I32__store8 => Some (U32, 8) | I32__store16 => Some (U32, 16)
  | I64__store8 => Some (U64, 8) | I64__store16 => Some (U64, 16) | I64__store32 => Some (U64, 32)
  | _ => None
  end.

Definition executeMemory (Code : OpCode) (Offset : Z) : MI unit :=
  let* am := getMemInstByIdx 0 in
  match load_shape Code, store_shape Code with
  | Some (T, w), _ => runLoadOp T w am.1 am.2 Offset
  | None, Some (T, w) => runStoreOp T w am.1 am.2 Offset
  | None, None =>
      match Code with
      | Memory__grow => runMemoryGrowOp am.1 am.2
      | Memory__size => runMemorySizeOp am.2
      | _ => throw ExecutionFailed
      end
  end.

Definition executeConst (Num : ValVariant) : MI unit := onStack (Stack.push Num).

(** The operation of a unary opcode; [None] is the default of the switch. *)
Definition unary_op (Code : OpCode) : option (ValVariant -> res ValVariant) :=
  match Code with
  | I32__eqz => Some (runEqzOp U32) | I64__eqz => Some (runEqzOp U64)
  | I32__clz => Some (runClzOp U32) | I32__ctz => Some (runCtzOp U32)
  | I32__popcnt => Some (runPopcntOp U32)
  | I64__clz => Some (runClzOp U64) | I64__ctz => Some (runCtzOp U64)
  | I64__popcnt => Some (runPopcntOp U64)
  | F32__abs => Some (runAbsOp FLT) | F32__neg => Some (runNegOp FLT)
  | F32__ceil => Some (runCeilOp FLT) | F32__floor => Some (runFloorOp FLT)
  | F32__nearest => Some (runNearestOp FLT) | F32__sqrt => Some (runSqrtOp FLT)
  | F64__abs => Some (runAbsOp DBL) | F64__neg => Some (runNegOp DBL)
  | F64__ceil => Some (runCeilOp DBL) | F64__floor => Some (runFloorOp DBL)
  | F64__nearest => Some (runNearestOp DBL) | F64__sqrt => Some (runSqrtOp DBL)
  | I32__wrap_i64 => Some (runWrapOp U64 U32)
  | I32__trunc_f32_s => Some (runTruncateOp FLT S32) | I32__trunc_f32_u => Some (runTruncateOp FLT U32)
  | I32__trunc_f64_s => Some (runTruncateOp DBL S32) | I32__trunc_f64_u => Some (runTruncateOp DBL U32)
  | I64__extend_i32_s => Some (runExtendOp S32 U64) | I64__extend_i32_u => Some (runExtendOp U32 U64)
  | I64__trunc_f32_s => Some (runTruncateOp FLT S64) | I64__trunc_f32_u => Some (runTruncateOp FLT U64)
  | I64__trunc_f64_s => Some (runTruncateOp DBL S64) | I64__trunc_f64_u => Some (runTruncateOp DBL U64)
  | F32__convert_i32_s => Some (runConvertOp S32 FLT) | F32__convert_i32_u => Some (runConvertOp U32 FLT)
  | F32__convert_i64_s => Some (runConvertOp S64 FLT) | F32__convert_i64_u => Some (runConvertOp U64 FLT)
  | F32__demote_f64 => Some (runDemoteOp DBL FLT)
  | F64__convert_i32_s => Some (runConvertOp S32 DBL) | F64__convert_i32_u => Some (runConvertOp U32 DBL)
  | F64__convert_i64_s => Some (runConvertOp S64 DBL) | F64__convert_i64_u => Some (runConvertOp U64 DBL)
  | F64__promote_f32 => Some (runPromoteOp FLT DBL)
  | I32__reinterpret_f32 => Some (runReinterpretOp FLT U32)
  | I64__reinterpret_f64 => Some (runReinterpretOp DBL U64)
  | F32__reinterpret_i32 => Some (runReinterpretOp U32 FLT)
  | F64__reinterpret_i64 => Some (runReinterpretOp U64 DBL)
  | _ => None
  end.

(** The operand is modified in place: an error leaves it. *)
Definition executeUnary (Code : OpCode) : MI unit := onStack (
  let* Val := Stack.getTop in
  match unary_op Code with
  | Some f => let* v := lift (f Val) in Stack.setTop v
  | None => throw ExecutionFailed
  end).

Definition binary_op (Code : OpCode) : option (ValVariant -> ValVariant -> res ValVariant) :=
  match Code with
  | I32__eq => Some (runEqOp U32) | I32__ne => Some (runNeOp U32)
  | I32__lt_s => Some (runLtOp S32) | I32__lt_u => Some (runLtOp U32)
  | I32__gt_s => Some (runGtOp S32) | I32__gt_u => Some (runGtOp U32)
  | I32__le_s => Some (runLeOp S32) | I32__le_u => Some (runLeOp U32)
  | I32__ge_s => Some (runGeOp S32) | I32__ge_u => Some (runGeOp U32)
  | I64__eq => Some (runEqOp U64) | I64__ne => Some (runNeOp U64)
  | I64__lt_s => Some (runLtOp S64) | I64__lt_u => Some (runLtOp U64)
  | I64__gt_s => Some (runGtOp S64) | I64__gt_u => Some (runGtOp U64)
  | I64__le_s => Some (runLeOp S64) | I64__le_u => Some (runLeOp U64)
  | I64__ge_s => Some (runGeOp S64) | I64__ge_u => Some (runGeOp U64)
  | F32__eq => Some (runEqOp FLT) | F32__ne => Some (runNeOp FLT) | F32__lt => Some (runLtOp FLT)
  | F32__gt => Some (runGtOp FLT) | F32__le => Some (runLeOp FLT) | F32__ge => Some (runGeOp FLT)
  | F64__eq => Some (runEqOp DBL) | F64__ne => Some (runNeOp DBL) | F64__lt => Some (runLtOp DBL)
  | F64__gt => Some (runGtOp DBL) | F64__le => Some (runLeOp DBL) | F64__ge => Some (runGeOp DBL)
  | I32__add => Some (runAddOp U32) | I32__sub => Some (runSubOp U32) | I32__mul => Some (runMulOp U32)
  | I32__div_s => Some (runDivOp S32) | I32__div_u => Some (runDivOp U32)
  | I32__rem_s => Some (runRemOp S32) | I32__rem_u => Some (runRemOp U32)
  | I32__and => Some (runAndOp U32) | I32__or => Some (runOrOp U32) | I32__xor => Some (runXorOp U32)
  | I32__shl => Some (runShlOp U32) | I32__shr_s => Some (runShrOp S32) | I32__shr_u => Some (runShrOp U32)
  | I32__rotl => Some (runRotlOp U32) | I32__rotr => Some (runRotrOp U32)
  | I64__add => Some (runAddOp U64) | I64__sub => Some (runSubOp U64) | I64__mul => Some (runMulOp U64)
  | I64__div_s => Some (runDivOp S64) | I64__div_u => Some (runDivOp U64)
  | I64__rem_s => Some (runRemOp S64) | I64__rem_u => Some (runRemOp U64)
  | I64__and => Some (runAndOp U64) | I64__or => Some (runOrOp U64) | I64__xor => Some (runXorOp U64)
  | I64__shl => Some (runShlOp U64) | I64__shr_s => Some (runShrOp S64) | I64__shr_u => Some (runShrOp U64)
  | I64__rotl => Some (runRotlOp U64) | I64__rotr => Some (runRotrOp U64)
  | F32__add => Some (runAddOp FLT) | F32__sub => Some (runSubOp FLT) | F32__mul => Some (runMulOp FLT)
  | F32__div => Some (runDivOp FLT) | F32__min => Some (runMinOp FLT) | F32__max => Some (runMaxOp FLT)
  | F32__copysign => Some (runCopysignOp FLT)
  | F64__add => Some (runAddOp DBL) | F64__sub => Some (runSubOp DBL) | F64__mul => Some (runMulOp DBL)
  | F64__div => Some (runDivOp DBL) | F64__min => Some (runMinOp DBL) | F64__max => Some (runMaxOp DBL)
  | F64__copysign => Some (runCopysignOp DBL)
  | _ => None
  end.

Definition executeBinary (Code : OpCode) : MI unit := onStack (
  let* Val2 := Stack.pop in
  let* Val1 := Stack.getTop in
  match binary_op Code with
  | Some f => let* v := lift (f Val1 Val2) in Stack.setTop v
  | None => throw ExecutionFailed
  end).

(** The dispatch on one instruction. *)
Definition executeInstr (i : Instr) : MI unit :=
  match dispatchInstruction (getOpCode i) with
  | None => throw Unimplemented
  | Some cl =>
      if bool_decide (cl <> node_class i) then undef UB_downcast
      else match i with
      | ControlInstruction Code => executeControl Code
      | BlockControlInstruction Code bt body =>
          match Code with
          | Op_Block => runBlockOp bt body
          | Op_Loop => runLoopOp i
          | _ => throw ExecutionFailed
          end
      | IfElseControlInstruction Code bt ifs els =>
          match Code with Op_If => runIfElseOp bt ifs els | _ => throw ExecutionFailed end
      | BrControlInstruction Code n =>
          match Code with
          | Op_Br => runBrOp n | Op_Br_if => runBrIfOp n | _ => throw ExecutionFailed end
      | BrTableControlInstruction Code t n =>
          match Code with Op_Br_table => runBrTableOp t n | _ => throw ExecutionFailed end
      | CallControlInstruction Code n =>
          match Code with
          | Op_Call => runCallOp n | Op_Call_indirect => runCallIndirectOp n
          | _ => throw ExecutionFailed end
      | ParametricInstruction Code => executeParametric Code
      | VariableInstruction Code n => executeVariable Code n
      | MemoryInstruction Code _ o => executeMemory Code o
      | ConstInstruction _ v => executeConst v
      | UnaryNumericInstruction Code => executeUnary Code
      | BinaryNumericInstruction Code => executeBinary Code
      end
  end.

(** One iteration of the run loop. *)
Definition step : MI unit :=
  let* next := getNextInstr in
  match next with
  | None =>
      let* t := getTopScopeType in
      match t with
      | Seq_FunctionCall => leaveFunction
      | Seq_Block => leaveBlock
      | Seq_Expression => popInstrs
      end
  | Some Instr => countInstr (getOpCode Instr) ;;; executeInstr Instr
  end.

(** [while (InstrPdr.getScopeSize() > 0)] *)
Fixpoint execute (fuel : nat) : MI unit :=
  let* s := get in
  if sizeZ (Iters s) =? 0 then ret tt
  else match fuel with
  | O => nofuel
  | S fuel' => step ;;; execute fuel'
  end.

Definition runExpression (fuel : nat) (Instrs : list Instr) : MI unit :=
  pushInstrs Seq_Expression Instrs ;;; execute fuel.

(** Terminated counts as success. *)
Definition runFunction (fuel : nat) (Func : FunctionInstance H) : MI unit :=
  enterFunction Func ;;;
  let* Res := try (execute fuel) in
  match Res with
  | inl _ => ret tt
  | inr e => if bool_decide (e = Terminated) then ret tt else throw e
  end.

(** ** invoke: interpreter.cpp *)

Fixpoint pop_n (n : nat) : MI (list ValVariant) :=
  match n with
  | O => ret []
  | S n' => let* v := onStack Stack.pop in let* vs := pop_n n' in ret (v :: vs)
  end.

Definition invoke (fuel : nat) (Name : list Z) (Params_ : list ValVariant) : MI (list ValVariant) :=
  let* s := get in
  let* FuncExp := lift (getFuncExports (StoreMgr s)) in
  match map_find Name FuncExp with
  | None => throw CallFunctionError
  | Some a =>
      let* FuncInst := deref (lift (getInstance a (Funcs (StoreMgr s)))) in
      let FuncType := getFuncTypeOf FuncInst in
      if negb (sizeZ (Params FuncType) =? sizeZ Params_) then throw TypeNotMatch
      else
        modify (set_Iters []) ;;;
        onStack Stack.reset ;;;
        mapM_ (fun Val => onStack (Stack.push Val)) Params_ ;;;
        runFunction fuel FuncInst ;;;
        let* Returns_ := pop_n (length (Returns FuncType)) in
        ret (reverse Returns_)
  end.

End Interpreter.

Arguments Interpreter : clear implicits.
