(* ===== verification/EngineSpec.v ===== *)
(** * A structured reference semantics for the engine

    The engine of lib/interpreter/engine runs a flat loop over a stack of instruction
    scopes and a stack of labels.  The reference below has neither: a block is a recursive
    call that ends normally, with a branch to an enclosing label or with a return; a call is
    a recursive call that ends when its body does.  Instructions that do not transfer
    control, the measurement, the memory and the host functions are those of the engine.

    As in the engine, what a label keeps when control leaves through it is fixed by the
    instruction that made it: the result of a block or of an if, nothing for a loop. *)
From stdpp Require Import base list numbers option.
From Stdlib Require Import ZArith Lia.
From S2P Require Import Prelude Types Instruction AST Numeric Memory StackMgr Runtime.
From S2P Require Import Interpreter.
#[local] Open Scope Z_scope.

Inductive outcome : Set := Normal | Branch (n : Z) | Return.

Section Spec.
Context {H : Type}.
#[local] Abbreviation MI := (M (Interpreter H)).

(** Keep the [h] values below and the [a] values on top. *)
Definition unwind (h a : Z) : MI unit := onStack (fun k =>
  match erase_mid h a (ValueStack k) with
  | Ok vs => (Ok tt, set_values vs k)
  | _ => (Undef UB_vector, k)
  end).

(** The values a frame leaves. *)
Definition dropFrame : MI unit := onStack (fun k =>
  match FrameStack k with
  | [] => (Undef UB_vector, k)
  | f :: fs =>
      match erase_mid (VStackSize f) (FCoarity f) (ValueStack k) with
      | Ok vs => (Ok tt, mkStack vs (LabelStack k) fs)
      | _ => (Undef UB_vector, k)
      end
  end).

(** The heights and the numbers of labels the engine keeps are 32 bits wide; the reference
    is undefined where one of them does not fit.  [c] counts the labels in scope, over all
    frames. *)
Definition guarded {A} (c : Z) (f : Z -> MI A) : MI A :=
  let* h := gets (fun s => sizeZ (ValueStack (StackMgr s))) in
  if (h <? 2 ^ 32) && (c + 1 <? 2 ^ 32) then f h else undef UB_vector.

Section Open.
(** The recursive calls: a sequence, and the rounds of a loop. *)
Variable ev lp : Z -> Z -> list Instr -> MI outcome.

(** A block: [d] counts the labels of the current function. *)
Definition sblock (c d Arity : Z) (Body : list Instr) : MI outcome :=
  guarded c (fun h =>
    let* o := ev (c + 1) (d + 1) Body in
    match o with
    | Normal => unwind h Arity ;;; ret Normal
    | Branch n => if n =? 0 then unwind h Arity ;;; ret Normal else ret (Branch (n - 1))
    | Return => ret Return
    end).

Definition scall (c : Z) (Func : FunctionInstance H) : MI outcome :=
  match Func with
  | HostFunctionInst h => callHost h ;;; ret Normal
  | NativeFunction ModuleAddr FuncType Locals Instrs =>
      guarded c (fun _ =>
        onStack (Stack.pushFrame ModuleAddr (sizeZ (Params FuncType)) (sizeZ (Returns FuncType))) ;;;
        push_locals Locals ;;;
        let* o := sblock c 0 (sizeZ (Returns FuncType)) Instrs in
        match o with
        | Normal | Return => dropFrame ;;; ret Normal
        | Branch _ => undef UB_vector
        end)
  end.

(** A branch to one of the [d] labels of the function. *)
Definition sbranch (d n : Z) : MI outcome :=
  if (0 <=? n) && (n <? d) then ret (Branch n) else undef UB_vector.

Definition sif (c d : Z) (bt : ValType) (Stat : list Instr) : MI outcome :=
  if sizeZ Stat =? 0 then ret Normal
  else chargeInstr Op_Else ;;; sblock c d (block_arity bt) Stat.

(** The target of an indirect call. *)
Definition indirect_target (FuncIdx : Z) : MI (FunctionInstance H) :=
  let* TabInst := getTabInstByIdx 0 in
  let* ModInst := currentModule in
  let* TargetFuncType := deref (lift (get_at (FuncTypes ModInst) FuncIdx)) in
  let* Idx := onStack Stack.pop in
  let* i := lift (retrieveValue U32 Idx) in
  let* FuncAddr := lift (getElemAddr i TabInst) in
  let* s := get in
  let* FuncInst := deref (lift (getInstance FuncAddr (Funcs (StoreMgr s)))) in
  if bool_decide (Params TargetFuncType <> Params (getFuncTypeOf FuncInst)) ||
     bool_decide (Returns TargetFuncType <> Returns (getFuncTypeOf FuncInst))
  then throw TypeNotMatch
  else ret FuncInst.

Definition call_target (FuncIdx : Z) : MI (FunctionInstance H) :=
  let* ModInst := currentModule in
  let* FuncAddr := deref (lift (get_at (FuncAddrs ModInst) FuncIdx)) in
  let* s := get in
  deref (lift (getInstance FuncAddr (Funcs (StoreMgr s)))).

Definition pop_u32 : MI Z := let* v := onStack Stack.pop in lift (retrieveValue U32 v).

(** The control transfer of one instruction, [None] for all the others. *)
Definition scontrol (c d : Z) (i : Instr) : option (MI outcome) :=
  match i with
  | ControlInstruction Op_Return => Some (ret Return)
  | BlockControlInstruction Op_Block bt Body => Some (sblock c d (block_arity bt) Body)
  | BlockControlInstruction Op_Loop _ Body => Some (lp c d Body)
  | IfElseControlInstruction Op_If bt IfStat ElseStat => Some (
      let* x := pop_u32 in sif c d bt (if negb (x =? 0) then IfStat else ElseStat))
  | BrControlInstruction Op_Br n => Some (sbranch d n)
  | BrControlInstruction Op_Br_if n => Some (
      let* x := pop_u32 in if negb (x =? 0) then sbranch d n else ret Normal)
  | BrTableControlInstruction Op_Br_table t n => Some (
      let* x := pop_u32 in sbranch d (default n (atZ t x)))
  | CallControlInstruction Op_Call n => Some (let* f := call_target n in scall c f)
  | CallControlInstruction Op_Call_indirect n => Some (let* f := indirect_target n in scall c f)
  | _ => None
  end.

Definition sinstr (c d : Z) (i : Instr) : MI outcome :=
  match scontrol c d i with
  | Some m =>
      if bool_decide (dispatchInstruction (getOpCode i) = Some (node_class i)) then m
      else undef UB_downcast
  | None => executeInstr i ;;; ret Normal
  end.

End Open.

(** Sequences and loops, with fuel for the depth of the recursion. *)
Fixpoint seval (fuel : nat) (c d : Z) (l : list Instr) {struct fuel} : MI outcome :=
  match fuel with
  | O => nofuel
  | S f =>
      match l with
      | [] => ret Normal
      | i :: l' =>
          countInstr (getOpCode i) ;;;
          let* o := sinstr (seval f) (sloop f) c d i in
          match o with Normal => seval f c d l' | _ => ret o end
      end
  end
with sloop (fuel : nat) (c d : Z) (Body : list Instr) {struct fuel} : MI outcome :=
  match fuel with
  | O => nofuel
  | S f =>
      guarded c (fun h =>
        let* o := seval f (c + 1) (d + 1) Body in
        match o with
        | Normal => unwind h 0 ;;; ret Normal
        | Branch n =>
            if n =? 0 then unwind h 0 ;;; sloop f c d Body else ret (Branch (n - 1))
        | Return => ret Return
        end)
  end.

(** ** Calls from outside

    [Terminated] ends a Wasm function like a return; a host function that is called directly
    reports it. *)

Definition srunFunction (fuel : nat) (Func : FunctionInstance H) : MI unit :=
  if isHostFunction Func then scall (seval fuel) 0 Func ;;; ret tt
  else
    let* Res := try (scall (seval fuel) 0 Func) in
    match Res with
    | inl _ => ret tt
    | inr e => if bool_decide (e = Terminated) then ret tt else throw e
    end.

Definition sinvoke (fuel : nat) (Name : list Z) (Params_ : list ValVariant) : MI (list ValVariant) :=
  let* s := get in
  let* FuncExp := lift (getFuncExports (StoreMgr s)) in
  match map_find Name FuncExp with
  | None => throw CallFunctionError
  | Some a =>
      let* FuncInst := deref (lift (getInstance a (Funcs (StoreMgr s)))) in
      let FuncType := getFuncTypeOf FuncInst in
      if negb (sizeZ (Params FuncType) =? sizeZ Params_) then throw TypeNotMatch
      else
        modify (set_Iters []) ;;;
        onStack Stack.reset ;;;
        mapM_ (fun Val => onStack (Stack.push Val)) Params_ ;;;
        srunFunction fuel FuncInst ;;;
        let* Returns_ := pop_n (length (Returns FuncType)) in
        ret (reverse Returns_)
  end.

End Spec.
