(* ===== verification/EngineRefine.v ===== *)
(** * The engine refines the structured semantics

    The flat loop over scopes and labels simulates the recursive reference of EngineSpec. *)
From stdpp Require Import base list numbers option.
From Stdlib Require Import ZArith Lia.
From S2P Require Import Prelude Types Instruction AST Numeric Memory StackMgr Runtime.
From S2P Require Import Interpreter EngineSpec.
#[local] Open Scope Z_scope.

Create HintDb prim.
Create HintDb vprim.

(** ** States that differ in control only *)

(** Frames agree but for the height of the label stack. *)
Record frame_rel (f1 f2 : Frame) : Prop := mk_frame_rel {
  fr_mod : ModAddr f1 = ModAddr f2;
  fr_vals : VStackSize f1 = VStackSize f2;
  fr_co : FCoarity f1 = FCoarity f2 }.

Record stack_rel (k1 k2 : StackManager) : Prop := mk_stack_rel {
  sr_vals : ValueStack k1 = ValueStack k2;
  sr_frames : Forall2 frame_rel (FrameStack k1) (FrameStack k2) }.

Section Refine.
Context {H : Type}.
#[local] Abbreviation MI := (M (Interpreter H)).

(** A host function uses the values of the stack only. *)
Definition host_values_only (h : HostFunc H) : Prop := exists
    g : list ValVariant -> MemoryInstance -> option Measurement -> H ->
        res ErrCode * (list ValVariant * MemoryInstance * option Measurement * H),
  forall stk mem mea hs, hfRun h stk mem mea hs =
    let '(r, (vs, mem', mea', hs')) := g (ValueStack stk) mem mea hs in
    (r, (set_values vs stk, mem', mea', hs')).

Definition hosts_values_only (st : StoreManager H) : Prop :=
  Forall (fun f => match f with HostFunctionInst h => host_values_only h | _ => True end)
    (insts (Funcs st)).

Record sim (s1 s2 : Interpreter H) : Prop := mk_sim {
  sim_stack : stack_rel (StackMgr s1) (StackMgr s2);
  sim_measure : Measure s1 = Measure s2;
  sim_store : StoreMgr s1 = StoreMgr s2;
  sim_host : HostState s1 = HostState s2;
  sim_mode : InsMode s1 = InsMode s2;
  sim_hosts : hosts_values_only (StoreMgr s2) }.

(** Control that a computation leaves alone. *)
Definition same_control (s s' : Interpreter H) : Prop :=
  Iters s' = Iters s /\ LabelStack (StackMgr s') = LabelStack (StackMgr s) /\
  FrameStack (StackMgr s') = FrameStack (StackMgr s).

(** A computation that neither reads nor changes control. *)
Definition prim {A} (m : MI A) : Prop := forall s1 s2, sim s1 s2 ->
  (m s1).1 = (m s2).1 /\ sim (m s1).2 (m s2).2 /\ same_control s2 (m s2).2.

Definition vprim {A} (m : M StackManager A) : Prop := forall k1 k2, stack_rel k1 k2 ->
  (m k1).1 = (m k2).1 /\ stack_rel (m k1).2 (m k2).2 /\
  LabelStack (m k2).2 = LabelStack k2 /\ FrameStack (m k2).2 = FrameStack k2.

Lemma same_control_refl s : same_control s s.
Proof. by split_and!. Qed.

Lemma same_control_trans s1 s2 s3 : same_control s1 s2 -> same_control s2 s3 -> same_control s1 s3.
Proof. intros (a & b & c) (a' & b' & c'). split_and!; congruence. Qed.

Lemma prim_bind {A B} (m : MI A) (k : A -> MI B) :
  prim m -> (forall a, prim (k a)) -> prim (bind m k).
Proof.
  intros Hm Hk s1 s2 Hs. unfold bind. destruct (Hm s1 s2 Hs) as (He & Hs' & Hc).
  destruct (m s1) as [r1 t1], (m s2) as [r2 t2]; cbn in He, Hs', Hc |- *. subst r2.
  destruct r1 as [a|e|u|]; cbn; try by split_and!.
  destruct (Hk a t1 t2 Hs') as (? & ? & ?). split_and!; [done..|].
  by eapply same_control_trans.
Qed.

Lemma prim_const {A} (r : res A) : prim (lift r).
Proof. intros s1 s2 Hs. cbn. split_and!; [done..|]. apply same_control_refl. Qed.

Lemma prim_ret {A} (a : A) : prim (ret a).
Proof. apply (prim_const (Ok a)). Qed.
Lemma prim_throw {A} e : prim (throw (A := A) e).
Proof. apply (prim_const (Err e)). Qed.
Lemma prim_undef {A} u : prim (undef (A := A) u).
Proof. apply (prim_const (Undef u)). Qed.

Lemma prim_try {A} (m : MI A) : prim m -> prim (try m).
Proof.
  intros Hm s1 s2 Hs. unfold try. destruct (Hm s1 s2 Hs) as (He & Hs' & Hc).
  destruct (m s1) as [r1 t1], (m s2) as [r2 t2]; cbn in He, Hs', Hc |- *. subst r2.
  destruct r1; by split_and!.
Qed.

Lemma prim_deref {A} (m : MI A) : prim m -> prim (deref m).
Proof.
  intros Hm s1 s2 Hs. unfold deref. destruct (Hm s1 s2 Hs) as (He & Hs' & Hc).
  destruct (m s1) as [r1 t1], (m s2) as [r2 t2]; cbn in He, Hs', Hc |- *. subst r2.
  destruct r1; by split_and!.
Qed.

(** Reading the state: the continuation may use what related states share. *)
Lemma prim_get {A} (k : Interpreter H -> MI A) :
  (forall s, prim (k s)) -> (forall s1 s2, sim s1 s2 -> k s1 = k s2) -> prim (bind get k).
Proof.
  intros Hp He s1 s2 Hs. unfold bind, get. rewrite (He s1 s2 Hs). by apply Hp.
Qed.

Lemma prim_onStack {A} (m : M StackManager A) : vprim m -> prim (onStack m).
Proof.
  intros Hm s1 s2 Hs. unfold onStack, zoom.
  destruct (Hm _ _ (sim_stack _ _ Hs)) as (He & Hk & Hl & Hf).
  destruct (m (StackMgr s1)) as [r1 k1], (m (StackMgr s2)) as [r2 k2]; cbn in *.
  split_and!; [done|destruct Hs; by split|done].
Qed.

Lemma prim_store (f : StoreManager H -> StoreManager H) :
  (forall st, Funcs (f st) = Funcs st) -> prim (modify (fun s => set_StoreMgr (f (StoreMgr s)) s)).
Proof.
  intros Hf s1 s2 Hs. unfold modify. cbn.
  split_and!; [done| |by split_and!]. destruct Hs as [? ? Hst ? ? Hh].
  split; cbn; try done; [by rewrite Hst|]. unfold hosts_values_only in *. by rewrite Hf.
Qed.

(** ** Value operations *)

Lemma vprim_bind {A B} (m : M StackManager A) (k : A -> M StackManager B) :
  vprim m -> (forall a, vprim (k a)) -> vprim (bind m k).
Proof.
  intros Hm Hk k1 k2 Hs. unfold bind. destruct (Hm k1 k2 Hs) as (He & Hs' & Hl & Hf).
  destruct (m k1) as [r1 t1], (m k2) as [r2 t2]; cbn in He, Hs', Hl, Hf |- *. subst r2.
  destruct r1 as [a|e|u|]; cbn; try by split_and!.
  destruct (Hk a t1 t2 Hs') as (? & ? & ? & ?). split_and!; try done; congruence.
Qed.

Lemma vprim_const {A} (r : res A) : vprim (lift r).
Proof. intros k1 k2 Hk. by split_and!. Qed.
Lemma vprim_throw {A} e : vprim (throw (A := A) e).
Proof. apply (vprim_const (Err e)). Qed.

Ltac vprim_solve :=
  let Hv := fresh "Hv" in let Hf := fresh "Hf" in
  intros [v1 l1 f1] [v2 l2 f2] [Hv Hf]; cbn in Hv, Hf; subst v1;
  repeat (progress (unfold Stack.bottom_index, modify, set_values; cbn));
  repeat case_match; simplify_eq; cbn; split_and!; try done; by split.

Ltac vprim_frame :=
  let Hv := fresh "Hv" in let Hf := fresh "Hf" in
  intros [v1 l1 f1] [v2 l2 f2] [Hv Hf]; cbn in Hv, Hf; subst v1;
  inversion Hf as [|? ? ? ? [Hm Hs Hc]]; subst; cbn; rewrite ?Hm, ?Hs; split_and!; done || by split.

Lemma vprim_getTop : vprim Stack.getTop.
Proof. unfold Stack.getTop. vprim_solve. Qed.
Lemma vprim_setTop v : vprim (Stack.setTop v).
Proof. unfold Stack.setTop. vprim_solve. Qed.
Lemma vprim_push v : vprim (Stack.push v).
Proof. unfold Stack.push. vprim_solve. Qed.
Lemma vprim_pop : vprim Stack.pop.
Proof. unfold Stack.pop. vprim_solve. Qed.
Lemma vprim_getBottomN n : vprim (Stack.getBottomN n).
Proof. unfold Stack.getBottomN. vprim_solve. Qed.
Lemma vprim_setBottomN n v : vprim (Stack.setBottomN n v).
Proof. unfold Stack.setBottomN. vprim_solve. Qed.
Lemma vprim_getModuleAddr : vprim Stack.getModuleAddr.
Proof. vprim_frame. Qed.
Lemma vprim_getOffset n : vprim (Stack.getOffset n).
Proof. vprim_frame. Qed.
Lemma vprim_push_many n v : vprim (modify (fun st => set_values (replicate n v ++ ValueStack st) st)).
Proof. vprim_solve. Qed.

#[local] Hint Resolve vprim_const vprim_throw vprim_getTop vprim_setTop vprim_push vprim_pop
  vprim_getBottomN vprim_setBottomN vprim_getModuleAddr vprim_getOffset vprim_push_many : vprim.

Ltac vprim_auto :=
  repeat (first [apply vprim_bind; [|intros ?] | by eauto with vprim | case_match]).

(** ** The operations of the engine that do not transfer control *)

Lemma prim_currentModule : prim currentModule.
Proof.
  apply prim_bind; [apply prim_onStack, vprim_getModuleAddr|intros a].
  apply prim_get; [intros s; apply prim_deref, prim_const|].
  intros s1 s2 Hs. by rewrite (sim_store _ _ Hs).
Qed.

Lemma prim_fromStore {A} (f : StoreManager H -> res A) :
  prim (let* s := get in deref (lift (f (StoreMgr s)))).
Proof.
  apply prim_get; [intros s; apply prim_deref, prim_const|].
  intros s1 s2 Hs. by rewrite (sim_store _ _ Hs).
Qed.

Lemma prim_getTabInstByIdx n : prim (getTabInstByIdx n).
Proof.
  apply prim_bind; [|intros a; apply (prim_fromStore (fun st => getInstance a (Tabs st)))].
  apply prim_bind; [apply prim_currentModule|intros m; apply prim_deref, prim_const].
Qed.

Lemma prim_instByIdx {A} (addrs : ModuleInstance -> list Z) (f : Z -> StoreManager H -> res A) n :
  prim (let* m := currentModule in
        let* a := deref (lift (get_at (addrs m) n)) in
        let* s := get in
        let* x := deref (lift (f a (StoreMgr s))) in ret (a, x)).
Proof.
  apply prim_bind; [apply prim_currentModule|intros m].
  apply prim_bind; [apply prim_deref, prim_const|intros a].
  apply prim_get; [|by intros s1 s2 Hs; rewrite (sim_store _ _ Hs)].
  intros s. apply prim_bind; [apply prim_deref, prim_const|intros x; apply prim_ret].
Qed.

Lemma prim_getMemInstByIdx n : prim (getMemInstByIdx n).
Proof. apply (prim_instByIdx MemAddrs (fun a st => getInstance a (Mems st))). Qed.
Lemma prim_getGlobInstByIdx n : prim (getGlobInstByIdx n).
Proof. apply (prim_instByIdx GlobalAddrs (fun a st => getInstance a (Globs st))). Qed.

Lemma prim_putMem a m : prim (putMem a m).
Proof. apply (prim_store (fun st => set_Mems (pool_update a m (Mems st)) st)). done. Qed.
Lemma prim_putGlob a g : prim (putGlob a g).
Proof. apply (prim_store (fun st => set_Globs (pool_update a g (Globs st)) st)). done. Qed.

Lemma prim_onMem {A} a mem (op : M MemoryInstance A) : prim (onMem a mem op).
Proof.
  unfold onMem. destruct (op mem) as [r mem'].
  apply prim_bind; [apply prim_putMem|intros x; apply prim_const].
Qed.

Lemma prim_setMeasure m : prim (modify (set_Measure m)).
Proof.
  intros s1 s2 Hs. unfold modify. cbn. split_and!; [done| |by split_and!].
  destruct Hs. by split.
Qed.

Lemma prim_chargeInstr Code : prim (chargeInstr Code).
Proof.
  intros s1 s2 Hs. unfold chargeInstr. rewrite (sim_measure _ _ Hs).
  destruct (Measure s2) as [m|]; [|split_and!; [done..|apply same_control_refl]].
  destruct (addInstrCost Code m) as [[[]|e|u|] m']; cbn; split_and!; try done; destruct Hs; by split.
Qed.

Lemma prim_countInstr Code : prim (countInstr Code).
Proof.
  apply prim_get.
  - intros s. destruct (Measure s); [|apply prim_ret].
    apply prim_bind; [apply prim_setMeasure|intros x; apply prim_chargeInstr].
  - intros s1 s2 Hs. by rewrite (sim_measure _ _ Hs).
Qed.

#[local] Hint Resolve prim_ret prim_throw prim_undef prim_const prim_currentModule
  prim_getTabInstByIdx prim_getMemInstByIdx prim_getGlobInstByIdx prim_putMem prim_putGlob
  prim_onMem prim_chargeInstr prim_countInstr prim_setMeasure : prim.

Ltac prim_auto :=
  repeat (first
    [ by eauto with prim | apply prim_try | apply prim_deref
    | apply prim_onStack; by vprim_auto | apply prim_bind; [|intros ?] | case_match ]).

Lemma prim_executeMemory Code o : prim (executeMemory Code o).
Proof.
  unfold executeMemory, runLoadOp, runStoreOp, runMemoryGrowOp, runMemorySizeOp. prim_auto.
Qed.

Lemma prim_executeVariable Code n : prim (executeVariable Code n).
Proof.
  unfold executeVariable, runLocalGetOp, runLocalSetOp, runLocalTeeOp, runGlobalGetOp,
    runGlobalSetOp. prim_auto.
Qed.

Lemma prim_executeParametric Code : prim (executeParametric Code).
Proof. unfold executeParametric. prim_auto. Qed.

Lemma prim_executeUnary Code : prim (executeUnary Code).
Proof. unfold executeUnary. destruct (unary_op Code); prim_auto. Qed.
Lemma prim_executeBinary Code : prim (executeBinary Code).
Proof. unfold executeBinary. destruct (binary_op Code); prim_auto. Qed.

Lemma prim_push_locals l : prim (push_locals l).
Proof. induction l as [|x l IH]; [apply prim_ret|]. apply prim_bind; [prim_auto|done]. Qed.

(** The call itself, as a change of the state, then the status. *)
Lemma prim_hostRun (h : HostFunc H) a mem : host_values_only h -> prim (
  let* s := get in
  match hfRun h (StackMgr s) mem (Measure s) (HostState s) with
  | (r, (stk, mem, mea, hs)) =>
      put (mkInterp stk (Iters s) mea (StoreMgr s) hs (InsMode s)) ;;;
      putMem a mem ;;;
      let* Status := lift r in
      if bool_decide (Status <> Success) then throw Status else ret tt
  end).
Proof.
  intros [g Hg] s1 s2 Hs. rewrite !bind_get. cbn beta.
  rewrite !Hg, (sim_measure _ _ Hs), (sim_host _ _ Hs), (sr_vals _ _ (sim_stack _ _ Hs)).
  destruct (g _ _ _ _) as (r & ((vs & mem') & mea) & hs).
  rewrite !bind_put. cbn beta.
  match goal with |- (?m ?t1).1 = (_ ?t2).1 /\ _ => assert (prim m) as Hm by prim_auto;
    assert (sim t1 t2) as Ht by (destruct Hs as [[? ?] ? ? ? ? ?]; by repeat split);
    exact (Hm t1 t2 Ht) end.
Qed.

Lemma prim_callHost (h : HostFunc H) : host_values_only h -> prim (callHost h).
Proof.
  intros Hh. unfold callHost. apply prim_bind; [prim_auto|intros am].
  apply prim_get; [|by intros s1 s2 Hs; rewrite (sim_measure _ _ Hs)].
  intros s. apply prim_bind; [|intros x; by apply prim_hostRun].
  destruct (Measure s) as [m|]; [|prim_auto]. destruct (addCost _ _) as [b m']. prim_auto.
Qed.

(** The instructions [scontrol] leaves to the engine. *)
Lemma prim_executeInstr ev lp c d (i : Instr) : scontrol (H := H) ev lp c d i = None ->
  prim (executeInstr (H := H) i).
Proof.
  intros Hc. unfold executeInstr. destruct (dispatchInstruction _) as [cl|]; [|prim_auto].
  destruct (bool_decide _); [prim_auto|].
  destruct i as [Code| Code bt b| Code bt b1 b2| Code n| Code t n| Code n| | | |Code v| |]; cbn in Hc.
  1-6: destruct Code; first [apply prim_throw|apply prim_ret|discriminate Hc].
  all: first [apply prim_executeParametric|apply prim_executeVariable|apply prim_executeMemory
    |apply prim_executeUnary|apply prim_executeBinary|unfold executeConst; prim_auto].
Qed.

Lemma prim_call_target n : prim (call_target n).
Proof.
  apply prim_bind; [prim_auto|intros m]. apply prim_bind; [prim_auto|intros a].
  apply (prim_fromStore (fun st => getInstance a (Funcs st))).
Qed.

Lemma prim_indirect_target n : prim (indirect_target n).
Proof.
  unfold indirect_target.
  do 6 (apply prim_bind; [prim_auto|intros ?]).
  apply prim_get; [intros s; prim_auto|by intros s1 s2 Hs; rewrite (sim_store _ _ Hs)].
Qed.

Lemma prim_pop_u32 : prim pop_u32.
Proof. unfold pop_u32. prim_auto. Qed.

(** ** The loop as a relation *)

(** [leads p q]: the loop takes the outcome [p] of a step to the outcome [q]. *)
Inductive leads : res unit * Interpreter H -> res unit * Interpreter H -> Prop :=
| leads_refl p : leads p p
| leads_step s q : Iters s <> [] -> leads (step s) q -> leads (Ok tt, s) q.

Lemma leads_trans p q r : leads p q -> leads q r -> leads p r.
Proof. induction 1; [done|]. intros Hr. constructor; [done|]. auto. Qed.

Lemma execute_more n m (s : Interpreter H) r s' : execute n s = (r, s') -> r <> NoFuel -> (n <= m)%nat ->
  execute m s = (r, s').
Proof.
  revert m s. induction n as [|n IH]; intros m s; destruct m as [|m]; try lia.
  all: cbn [execute]; rewrite ?bind_get; destruct (sizeZ (Iters s) =? 0); try done.
  { intros E. by inversion E. }
  unfold bind. destruct (step s) as [[]?]; try done. intros E Hr Hm. apply IH; [done..|lia].
Qed.

Lemma scopes_left {A} (l : list A) : l <> [] -> (sizeZ l =? 0) = false.
Proof. destruct l; [done|]. intros _. unfold sizeZ. cbn [length]. apply Z.eqb_neq. lia. Qed.

Lemma execute_leads s q : leads (Ok tt, s) q ->
  (forall s', q = (Ok tt, s') -> Iters s' = []) -> q.1 <> NoFuel ->
  exists n, execute n s = q.
Proof.
  intros Hl. remember (Ok tt, s) as p eqn:E. revert s E.
  induction Hl as [p|s0 q Hi Hl IH]; intros s E.
  - subst p. intros Hq _. exists O. cbn [execute]. rewrite bind_get. by rewrite (Hq s eq_refl).
  - inversion E; subst s0. intros Hq Hn. destruct (step s) as [[[]|e|u|] s1] eqn:Es.
    + destruct (IH s1 eq_refl Hq Hn) as [n Hx]. exists (S n). cbn [execute]. rewrite bind_get.
      rewrite (scopes_left _ Hi). unfold bind. by rewrite Es.
    + exists 1%nat. cbn [execute]. rewrite bind_get, (scopes_left _ Hi). unfold bind. rewrite Es.
      by inversion Hl.
    + exists 1%nat. cbn [execute]. rewrite bind_get, (scopes_left _ Hi). unfold bind. rewrite Es.
      by inversion Hl.
    + inversion Hl; subst; done.
Qed.

(** Equality of outcomes, except that undefined ones are not compared. *)
Definition same_outcome (p q : res unit * Interpreter H) : Prop :=
  match q.1 with Ok _ | Err _ => p = q | _ => True end.

Lemma same_outcome_trans p q r : same_outcome p q -> same_outcome q r -> same_outcome p r.
Proof.
  unfold same_outcome. destruct r as [[[]|e|u|] t]; cbn; try done; intros Hp ->; apply Hp.
Qed.

(** ** Leaving a block *)

(** The state without its innermost label and scope. *)
Definition drop1 (s : Interpreter H) : Interpreter H :=
  set_Iters (tail (Iters s)) (set_StackMgr
    (mkStack (ValueStack (StackMgr s)) (tail (LabelStack (StackMgr s))) (FrameStack (StackMgr s))) s).

(** The values a label keeps. *)
Definition with_values (vs : list ValVariant) (s : Interpreter H) : Interpreter H :=
  set_StackMgr (set_values vs (StackMgr s)) s.

Lemma sim_drop1 s1 s : sim s1 s -> sim s1 (drop1 s).
Proof. intros [[? ?] ? ? ? ? ?]. by repeat split. Qed.

Lemma sim_with_values vs s1 s : sim s1 s -> sim (with_values vs s1) (with_values vs s).
Proof. intros [[? ?] ? ? ? ? ?]. by repeat split. Qed.

Definition labels (s : Interpreter H) : list Label := LabelStack (StackMgr s).
Definition values (s : Interpreter H) : list ValVariant := ValueStack (StackMgr s).
Definition frames (s : Interpreter H) : list Frame := FrameStack (StackMgr s).

Lemma popLabel_run L ls n k : 0 <= n -> atZ (LabelStack k) n = Some L ->
  drop (Z.to_nat (n + 1)) (LabelStack k) = ls ->
  Stack.popLabel (n + 1) k =
    match erase_mid (LStackSz L) (LCoarity L) (ValueStack k) with
    | Ok vs => (Ok tt, mkStack vs ls (FrameStack k))
    | _ => (Undef UB_vector, k)
    end.
Proof.
  intros Hn HL Hd. unfold Stack.popLabel, bind, Stack.getLabelWithCount, get.
  replace (n + 1 - 1) with n by lia. rewrite HL. rewrite Hd.
  by destruct (erase_mid _ _ _).
Qed.

Lemma popInstrs_n_run n (s : Interpreter H) :
  popInstrs_n n s = (Ok tt, set_Iters (drop n (Iters s)) s).
Proof.
  revert s. induction n as [|n IH]; intros s; cbn [popInstrs_n].
  { destruct s. done. }
  unfold bind, try, popInstrs. destruct (Iters s) as [|x l] eqn:E; rewrite IH; cbn.
  - rewrite E, drop_nil. by destruct s; cbn in *; subst.
  - done.
Qed.

Lemma branch_run L n (s : Interpreter H) : 0 <= n -> n + 1 < 2 ^ 32 -> atZ (labels s) n = Some L ->
  branchToLabel runLoopOp n s =
    match erase_mid (LStackSz L) (LCoarity L) (values s) with
    | Ok vs =>
        let s' := set_Iters (drop (Z.to_nat (n + 1)) (Iters s)) (set_StackMgr
          (mkStack vs (drop (Z.to_nat (n + 1)) (labels s)) (frames s)) s) in
        match Target L with Some i => runLoopOp i s' | None => (Ok tt, s') end
    | _ => (Undef UB_vector, s)
    end.
Proof.
  intros Hn Hw HL. unfold branchToLabel, bind, onStack, zoom.
  unfold Stack.getLabelWithCount at 1. fold (labels s). rewrite HL. cbn [StackMgr set_StackMgr].
  unfold wrap. rewrite Z.mod_small by lia.
  rewrite (popLabel_run L _ n _ Hn HL eq_refl). fold (values s).
  destruct (erase_mid _ _ _) as [vs| | |]; cbn [fst snd]; try (by destruct s).
  rewrite popInstrs_n_run. cbn. by destruct (Target L).
Qed.

Lemma branch_none n (s : Interpreter H) : atZ (labels s) n = None ->
  (branchToLabel runLoopOp n s).1 = Undef UB_vector.
Proof.
  intros HL. unfold branchToLabel, bind, onStack, zoom, Stack.getLabelWithCount.
  fold (labels s). by rewrite HL.
Qed.

Lemma drop_S_tail {A} n (l : list A) : drop (S n) l = drop n (tail l).
Proof. destruct l; cbn; by rewrite ?drop_nil. Qed.

Lemma tail_drop_swap {A} n (l : list A) : drop n (tail l) = tail (drop n l).
Proof. revert l. induction n as [|n IH]; intros [|x l]; cbn; try done. by rewrite <- IH, drop_S_tail. Qed.

(** A branch past the innermost label is a branch of the state without it. *)
Lemma branch_drop1 n (s : Interpreter H) : 1 <= n -> sizeZ (labels s) < 2 ^ 32 ->
  same_outcome (branchToLabel runLoopOp n s) (branchToLabel runLoopOp (n - 1) (drop1 s)).
Proof.
  intros Hn Hs. destruct (atZ (labels (drop1 s)) (n - 1)) as [L|] eqn:EL.
  2: { unfold same_outcome. by rewrite (branch_none _ _ EL). }
  assert (atZ (labels s) n = Some L) as EL'.
  { revert EL. unfold labels, drop1, atZ. cbn. destruct (LabelStack (StackMgr s)); cbn.
    - by case_match.
    - rewrite !(proj2 (Z.leb_le _ _)) by lia. by replace (Z.to_nat n) with (S (Z.to_nat (n - 1))) by lia. }
  assert (n < sizeZ (labels s)) as Hb.
  { revert EL'. unfold atZ. case_match; [|done]. intros Hl%lookup_lt_Some. unfold sizeZ. lia. }
  rewrite (branch_run L n s) by (try done; lia).
  rewrite (branch_run L (n - 1) (drop1 s)) by (try done; lia).
  replace (Z.to_nat (n + 1)) with (S (Z.to_nat (n - 1 + 1))) by lia.
  rewrite !drop_S_tail. unfold same_outcome, values, labels, drop1, frames. cbn.
  destruct (erase_mid _ _ _) as [vs| | |]; cbn; try done. by case_match.
Qed.

(** [c] labels, [d] of them pushed since the current frame. *)
Record lab_ok (c d : Z) (s : Interpreter H) : Prop := mk_lab_ok {
  lo_count : sizeZ (labels s) = c;
  lo_small : c < 2 ^ 32;
  lo_depth : 0 <= d <= c;
  lo_frame : exists f fs, frames s = f :: fs /\ LStackSize f = c - d }.

Lemma try_popInstrs (s : Interpreter H) :
  (try popInstrs ;;; ret tt) s = (Ok tt, set_Iters (tail (Iters s)) s).
Proof.
  unfold bind, try, popInstrs, ret. destruct (Iters s) eqn:E; [|done].
  destruct s; cbn in *; by subst.
Qed.

Lemma leave_run c d f fs (s : Interpreter H) : lab_ok c d s -> frames s = f :: fs ->
  leaveFunction s =
    match erase_mid (VStackSize f) (FCoarity f) (values s) with
    | Ok vs => (Ok tt, set_Iters (drop (S (Z.to_nat d)) (Iters s)) (set_StackMgr
        (mkStack vs (drop (Z.to_nat d) (labels s)) fs) s))
    | _ => (Undef UB_vector, s)
    end.
Proof.
  intros [Hc Hw Hd (f' & fs' & Hf & HL)] E. rewrite E in Hf. inversion Hf; subst f' fs'; clear Hf.
  unfold leaveFunction. unfold bind at 1. unfold onStack, zoom, Stack.popFrame.
  fold (frames s) (labels s) (values s). rewrite E, HL, Hc.
  replace (erase_mid (c - d) 0 (labels s)) with (Ok (drop (Z.to_nat d) (labels s))).
  2: { unfold erase_mid. rewrite Hc. rewrite (proj2 (Z.leb_le 0 (c - d))) by lia.
       rewrite (proj2 (Z.leb_le (c - d) (c - 0))) by lia. cbn. by replace (c - (c - d)) with d by lia. }
  destruct (erase_mid _ _ (values s)) as [vs| | |]; cbn [fst snd]; try (by destruct s).
  unfold wrap. rewrite Z.mod_small by lia. replace (c - (c - d)) with d by lia.
  unfold bind at 1. rewrite popInstrs_n_run. rewrite try_popInstrs.
  by rewrite drop_S_tail, tail_drop_swap.
Qed.

Lemma leave_drop1 c d (s : Interpreter H) : 0 <= d -> lab_ok (c + 1) (d + 1) s ->
  same_outcome (leaveFunction s) (leaveFunction (drop1 s)).
Proof.
  intros Hd Hok. pose proof Hok as [Hc Hw Hd' (f & fs & Hf & HL)].
  assert (lab_ok c d (drop1 s)) as Hok1.
  { split; [|lia|lia|exists f, fs; split; [done|lia]].
    revert Hc. unfold labels, drop1, sizeZ. cbn. destruct (LabelStack _); cbn; lia. }
  rewrite (leave_run _ _ f fs _ Hok Hf), (leave_run _ _ f fs _ Hok1 Hf).
  unfold same_outcome. replace (Z.to_nat (d + 1)) with (S (Z.to_nat d)) by lia.
  rewrite (drop_S_tail (S _) (Iters s)), (drop_S_tail _ (labels s)).
  unfold values, labels, drop1. cbn. by destruct (erase_mid _ _ _).
Qed.

(** ** The simulation *)

(** The engine's labels and frames are those it started from, its scopes satisfy [P]. *)
Record kept (P : list InstrScope -> Prop) (s s' : Interpreter H) : Prop := mk_kept {
  kp_labels : labels s' = labels s;
  kp_frames : frames s' = frames s;
  kp_iters : P (Iters s') }.

(** What the engine has reached when the reference ends with [r] in [s1']. *)
Definition machine_out (PN PB : list InstrScope -> Prop) (s2 : Interpreter H)
    (r : res outcome) (s1' : Interpreter H) (q : res unit * Interpreter H) : Prop :=
  match r with
  | Ok Normal => exists s2', q = (Ok tt, s2') /\ sim s1' s2' /\ kept PN s2 s2'
  | Ok (Branch n) => exists s2', same_outcome q (branchToLabel runLoopOp n s2') /\
      0 <= n /\ sim s1' s2' /\ kept PB s2 s2'
  | Ok Return => exists s2', same_outcome q (leaveFunction s2') /\ sim s1' s2' /\ kept PB s2 s2'
  | Err e => exists s2', q = (Err e, s2') /\ sim s1' s2'
  | _ => True
  end.

Definition runs PN PB s2 (p : res unit * Interpreter H) (rs : res outcome * Interpreter H) : Prop :=
  exists q, leads p q /\ machine_out PN PB s2 rs.1 rs.2 q.

(** The simulation of a sequence, of a block, of a call. *)
Definition seq_sim (ev : Z -> Z -> list Instr -> MI outcome) : Prop := forall c d l s1 s2 t its,
  sim s1 s2 -> Iters s2 = mkScope t l :: its -> lab_ok c d s2 ->
  runs (fun x => x = mkScope t [] :: its) (fun x => exists l', x = mkScope t l' :: its) s2
    (Ok tt, s2) (ev c d l s1).

Definition same_its (s2 : Interpreter H) (x : list InstrScope) : Prop := x = Iters s2.

Definition loop_sim (lp : Z -> Z -> list Instr -> MI outcome) : Prop := forall c d bt Body s1 s2,
  sim s1 s2 -> lab_ok c d s2 ->
  runs (same_its s2) (same_its s2) s2
    (enterBlock 0 (Some (BlockControlInstruction Op_Loop bt Body)) Body s2) (lp c d Body s1).

Lemma lab_ok_kept c d P s s' : lab_ok c d s -> kept P s s' -> lab_ok c d s'.
Proof. intros [? ? ? ?] [Hl Hf _]. split; try done; by rewrite ?Hl, ?Hf. Qed.

Lemma runs_undef PN PB s2 p rs :
  match rs.1 with Ok _ | Err _ => False | _ => True end -> runs PN PB s2 p rs.
Proof. intros Hr. exists p. split; [constructor|]. destruct rs as [[]?]; done. Qed.

(** The state after [enterBlock]. *)
Definition entered (a : Z) (tgt : option Instr) (Body : list Instr) (s : Interpreter H) :=
  set_Iters (mkScope Seq_Block Body :: Iters s) (set_StackMgr (mkStack (values s)
    (mkLabel (sizeZ (values s)) a tgt :: labels s) (frames s)) s).

Lemma enterBlock_run a tgt Body (s : Interpreter H) : sizeZ (values s) < 2 ^ 32 ->
  enterBlock a tgt Body s = (Ok tt, entered a tgt Body s).
Proof.
  intros Hv. unfold enterBlock, bind, onStack, zoom, Stack.pushLabel, modify. cbn.
  fold (values s). unfold wrap. rewrite Z.mod_small by (unfold sizeZ in *; lia). done.
Qed.

Lemma entered_ok c d a tgt Body s : c + 1 < 2 ^ 32 -> lab_ok c d s ->
  lab_ok (c + 1) (d + 1) (entered a tgt Body s).
Proof.
  intros Hc [H1 H2 H3 (f & fs & Hf & HL)]. split; try lia.
  - unfold labels at 1. cbn. unfold sizeZ in *. cbn. lia.
  - exists f, fs. split; [done|lia].
Qed.

Lemma sim_entered a tgt Body s1 s : sim s1 s -> sim s1 (entered a tgt Body s).
Proof. intros [[? ?] ? ? ? ? ?]. by repeat split. Qed.

Lemma unwind_run h a (s : Interpreter H) : unwind h a s =
  match erase_mid h a (values s) with
  | Ok vs => (Ok tt, with_values vs s) | _ => (Undef UB_vector, s) end.
Proof.
  unfold unwind, onStack, zoom. fold (values s). destruct (erase_mid _ _ _); try done; by destruct s.
Qed.

(** Leaving through the label of an entered block. *)
Lemma exit_kept a tgt Body vs sc s2 s2' :
  kept (fun x => exists l', x = mkScope sc l' :: Iters s2) (entered a tgt Body s2) s2' ->
  kept (same_its s2) s2 (drop1 (with_values vs s2')).
Proof.
  intros [Hl Hf [l' Hi]]. unfold labels, frames in *. cbn in *.
  split; unfold labels, frames, same_its, drop1; cbn; by rewrite ?Hl, ?Hf, ?Hi.
Qed.

Lemma exit_kept0 a tgt Body sc s2 s2' :
  kept (fun x => exists l', x = mkScope sc l' :: Iters s2) (entered a tgt Body s2) s2' ->
  kept (same_its s2) s2 (drop1 s2').
Proof. intros Hk. by destruct (exit_kept _ _ _ [] _ _ _ Hk). Qed.

Lemma exit_normal a tgt Body vs s2 s2' :
  kept (fun x => x = mkScope Seq_Block [] :: Iters s2) (entered a tgt Body s2) s2' ->
  erase_mid (sizeZ (values s2)) a (values s2') = Ok vs ->
  leads (Ok tt, s2') (Ok tt, drop1 (with_values vs s2')).
Proof.
  intros [Hl Hf Hi] He. apply leads_step; [by rewrite Hi|].
  replace (step s2') with (Ok tt : res unit, drop1 (with_values vs s2')); [constructor|].
  unfold step. unfold bind at 1, getNextInstr. rewrite Hi.
  unfold bind at 1, getTopScopeType, gets. rewrite Hi. cbn [ScType].
  unfold leaveBlock, onStack, zoom. unfold bind at 1.
  replace 1 with (0 + 1) by done. unfold labels in Hl. cbn in Hl.
  erewrite (popLabel_run _ (labels s2) 0); [|done|by rewrite Hl|by rewrite Hl].
  cbn [LStackSz LCoarity]. fold (values s2'). rewrite He. cbn.
  unfold popInstrs. cbn. rewrite Hi. unfold drop1, with_values. cbn. rewrite Hl, Hi. done.
Qed.

Lemma exit_branch0 a tgt Body vs sc s2 s2' :
  kept (fun x => exists l', x = mkScope sc l' :: Iters s2) (entered a tgt Body s2) s2' ->
  erase_mid (sizeZ (values s2)) a (values s2') = Ok vs ->
  branchToLabel runLoopOp 0 s2' = match tgt with
    | Some i => runLoopOp i (drop1 (with_values vs s2'))
    | None => (Ok tt, drop1 (with_values vs s2')) end.
Proof.
  intros [Hl Hf _] He.
  rewrite (branch_run (mkLabel (sizeZ (values s2)) a tgt)); [|done|done|by rewrite Hl].
  cbn [LStackSz LCoarity Target]. rewrite He.
  change (Z.to_nat (0 + 1)) with 1%nat. rewrite !drop_S_tail. done.
Qed.

Lemma sim_values s1 s2 : sim s1 s2 -> values s1 = values s2.
Proof. intros Hs. apply (sr_vals _ _ (sim_stack _ _ Hs)). Qed.

Lemma guarded_run {A} c (f : Z -> MI A) s :
  guarded c f s = if (sizeZ (values s) <? 2 ^ 32) && (c + 1 <? 2 ^ 32)
                  then f (sizeZ (values s)) s else (Undef UB_vector, s).
Proof. unfold guarded, bind, gets. fold (values s). by destruct (_ && _). Qed.

(** A branch past the block, and a return, leave the label behind. *)
Lemma exit_past a tgt Body c d r s1' s2 q : c + 1 < 2 ^ 32 -> lab_ok c d s2 ->
  match r with Branch n => 1 <= n | Return => True | Normal => False end ->
  machine_out (fun x => x = mkScope Seq_Block [] :: Iters s2)
    (fun x => exists l', x = mkScope Seq_Block l' :: Iters s2) (entered a tgt Body s2)
    (Ok r) s1' q ->
  machine_out (same_its s2) (same_its s2) s2
    (Ok (match r with Branch n => Branch (n - 1) | _ => r end)) s1' q.
Proof.
  intros Hc Hok Hr Hq. pose proof (entered_ok c d a tgt Body s2 Hc Hok) as Hok'.
  destruct r as [|n|]; [done| |].
  - destruct Hq as (s2' & Hq & Hn & Hs & Hk). exists (drop1 s2').
    pose proof (lab_ok_kept _ _ _ _ _ Hok' Hk) as [Hlc ? ? _].
    split_and!; [|lia|by apply sim_drop1|by eapply exit_kept0].
    eapply same_outcome_trans; [exact Hq|]. apply branch_drop1; lia.
  - destruct Hq as (s2' & Hq & Hs & Hk). exists (drop1 s2').
    pose proof (lab_ok_kept _ _ _ _ _ Hok' Hk) as Hok2.
    split_and!; [|by apply sim_drop1|by eapply exit_kept0].
    eapply same_outcome_trans; [exact Hq|]. apply (leave_drop1 c d); [apply Hok|done].
Qed.

Lemma block_sim ev c d a Body s1 s2 : seq_sim ev -> sim s1 s2 -> lab_ok c d s2 ->
  runs (same_its s2) (same_its s2) s2 (enterBlock a None Body s2) (sblock ev c d a Body s1).
Proof.
  intros Hev Hs Hok. unfold sblock. rewrite guarded_run, (sim_values _ _ Hs).
  destruct (_ && _) eqn:Eg; [|by apply runs_undef]. apply andb_true_iff in Eg as [Hv%Z.ltb_lt Hc%Z.ltb_lt].
  rewrite enterBlock_run by done.
  destruct (Hev (c + 1) (d + 1) Body s1 (entered a None Body s2) Seq_Block (Iters s2))
    as (q & Hq & Ho); [by apply sim_entered|done|by apply entered_ok|].
  unfold bind at 1. destruct (ev (c + 1) (d + 1) Body s1) as [[[|n|]|e|u|] s1']; cbn [fst snd] in Ho.
  5-6: by apply runs_undef.
  4: { by exists q. }
  - destruct Ho as (s2' & -> & Hs' & Hk). unfold bind. rewrite unwind_run, (sim_values _ _ Hs').
    destruct (erase_mid _ _ (values s2')) as [vs| | |] eqn:Ee; try by apply runs_undef.
    exists (Ok tt, drop1 (with_values vs s2')). split.
    { eapply leads_trans; [exact Hq|]. by eapply exit_normal. }
    eexists. split; [done|]. split; [by apply sim_drop1, sim_with_values|].
    apply (exit_kept a None Body _ Seq_Block). destruct Hk. split; try done. by eexists.
  - destruct (n =? 0) eqn:En.
    + assert (n = 0) as -> by lia. destruct Ho as (s2' & Hsq & _ & Hs' & Hk).
      unfold bind. rewrite unwind_run, (sim_values _ _ Hs').
      destruct (erase_mid _ _ (values s2')) as [vs| | |] eqn:Ee; try by apply runs_undef.
      rewrite (exit_branch0 _ _ _ _ _ _ _ Hk Ee) in Hsq. cbn in Hsq. subst q.
      eexists. split; [exact Hq|]. eexists. split; [done|].
      split; [by apply sim_drop1, sim_with_values|]. by eapply (exit_kept a None Body).
    + exists q. split; [done|]. cbn. assert (1 <= n) as Hn.
      { destruct Ho as (? & ? & ? & ?). lia. }
      by apply (exit_past a None Body c d (Branch n) s1' s2 q).
  - exists q. split; [done|]. by apply (exit_past a None Body c d Return s1' s2 q).
Qed.

Lemma runs_base s2 s2b p rs : kept (same_its s2) s2 s2b ->
  runs (same_its s2b) (same_its s2b) s2b p rs -> runs (same_its s2) (same_its s2) s2 p rs.
Proof.
  intros Hb (q & Hl & Ho). exists q. split; [done|].
  assert (forall x, kept (same_its s2b) s2b x -> kept (same_its s2) s2 x) as Hk.
  { destruct Hb. intros x []. unfold same_its in *. split; unfold same_its; congruence. }
  destruct rs as [[[|n|]|e|u|] s1']; cbn in Ho |- *; try done.
  - destruct Ho as (s & ? & ? & ?). exists s. auto.
  - destruct Ho as (s & ? & ? & ? & ?). exists s. auto.
  - destruct Ho as (s & ? & ? & ?). exists s. auto.
Qed.

Lemma runs_step p p' PN PB s2 rs : leads p p' -> runs PN PB s2 p' rs -> runs PN PB s2 p rs.
Proof. intros Hl (q & Hq & Ho). exists q. split; [by eapply leads_trans|done]. Qed.

Lemma runs_bind_prim {A} (m : MI A) k1 k2 s1 s2 : prim m -> sim s1 s2 ->
  (forall x t1 t2, sim t1 t2 -> kept (same_its s2) s2 t2 -> m s2 = (Ok x, t2) ->
     runs (same_its s2) (same_its s2) s2 (k2 x t2) (k1 x t1)) ->
  runs (same_its s2) (same_its s2) s2 (bind m k2 s2) (bind m k1 s1).
Proof.
  intros Hm Hs Hk. destruct (Hm s1 s2 Hs) as (He & Hs' & Hi & Hl & Hf).
  unfold bind. destruct (m s1) as [r1 t1], (m s2) as [r2 t2]; cbn in *. subst r2.
  destruct r1 as [x|e|u|]; try by apply runs_undef.
  - apply Hk; [done|by split|done].
  - eexists. split; [constructor|]. by eexists.
Qed.

Lemma runs_ret s1 s2 s2b : sim s1 s2b -> kept (same_its s2) s2 s2b ->
  runs (same_its s2) (same_its s2) s2 (Ok tt, s2b) (Ok Normal, s1).
Proof. intros Hs Hk. eexists. split; [constructor|]. by exists s2b. Qed.

Lemma runs_prim (m : MI unit) s1 s2 : prim m -> sim s1 s2 ->
  runs (same_its s2) (same_its s2) s2 (m s2) ((m ;;; ret Normal) s1).
Proof.
  intros Hm Hs. replace (m s2) with ((m ;;; ret tt) s2).
  - apply runs_bind_prim; [done..|]. intros [] t1 t2 Ht Hk _. by apply runs_ret.
  - unfold bind. by destruct (m s2) as [[[]| | |] ?].
Qed.

Lemma loop_step ev lp c d bt Body s1 s2 : seq_sim ev -> loop_sim lp -> sim s1 s2 -> lab_ok c d s2 ->
  runs (same_its s2) (same_its s2) s2
    (enterBlock 0 (Some (BlockControlInstruction Op_Loop bt Body)) Body s2)
    (guarded c (fun h =>
        let* o := ev (c + 1) (d + 1) Body in
        match o with
        | Normal => unwind h 0 ;;; ret Normal
        | Branch n => if n =? 0 then unwind h 0 ;;; lp c d Body else ret (Branch (n - 1))
        | Return => ret Return
        end) s1).
Proof.
  intros Hev Hlp Hs Hok. rewrite guarded_run, (sim_values _ _ Hs).
  set (tgt := Some (BlockControlInstruction Op_Loop bt Body)).
  destruct (_ && _) eqn:Eg; [|by apply runs_undef]. apply andb_true_iff in Eg as [Hv%Z.ltb_lt Hc%Z.ltb_lt].
  rewrite enterBlock_run by done.
  destruct (Hev (c + 1) (d + 1) Body s1 (entered 0 tgt Body s2) Seq_Block (Iters s2))
    as (q & Hq & Ho); [by apply sim_entered|done|by apply entered_ok|].
  unfold bind at 1. destruct (ev (c + 1) (d + 1) Body s1) as [[[|n|]|e|u|] s1']; cbn [fst snd] in Ho.
  5-6: by apply runs_undef.
  4: { by exists q. }
  - destruct Ho as (s2' & -> & Hs' & Hk). unfold bind. rewrite unwind_run, (sim_values _ _ Hs').
    destruct (erase_mid _ _ (values s2')) as [vs| | |] eqn:Ee; try by apply runs_undef.
    eapply runs_step; [eapply leads_trans; [exact Hq|by eapply exit_normal]|].
    apply runs_ret; [by apply sim_drop1, sim_with_values|].
    apply (exit_kept 0 tgt Body _ Seq_Block). destruct Hk. split; try done. by eexists.
  - destruct (n =? 0) eqn:En.
    + assert (n = 0) as -> by lia. destruct Ho as (s2' & Hsq & _ & Hs' & Hk).
      unfold bind. rewrite unwind_run, (sim_values _ _ Hs').
      destruct (erase_mid _ _ (values s2')) as [vs| | |] eqn:Ee; try by apply runs_undef.
      rewrite (exit_branch0 _ _ _ _ _ _ _ Hk Ee) in Hsq.
      change (q = enterBlock 0 tgt Body (drop1 (with_values vs s2'))) in Hsq. subst q.
      eapply runs_step; [exact Hq|]. pose proof (exit_kept 0 tgt Body vs _ _ _ Hk) as Hk'.
      eapply runs_base; [exact Hk'|].
      apply (Hlp c d bt Body); [by apply sim_drop1, sim_with_values|by eapply lab_ok_kept].
    + exists q. split; [done|]. cbn. assert (1 <= n) as Hn.
      { destruct Ho as (? & ? & ? & ?). lia. }
      by apply (exit_past 0 tgt Body c d (Branch n) s1' s2 q).
  - exists q. split; [done|]. by apply (exit_past 0 tgt Body c d Return s1' s2 q).
Qed.

(** ** Calls *)

(** Leaving a function whose labels are gone: the frame goes, the values it keeps stay. *)
Lemma leave_sim s1' s2 s2' c f (call : InstrScope) : sim s1' s2' -> lab_ok c 0 s2' ->
  frames s2' = f :: frames s2 -> labels s2' = labels s2 -> Iters s2' = call :: Iters s2 ->
  forall p, (exists q, leads p q /\ same_outcome q (leaveFunction s2')) ->
  runs (same_its s2) (same_its s2) s2 p ((dropFrame ;;; ret Normal) s1').
Proof.
  intros Hs Hok Hf Hl Hi p (q & Hq & Hsq). rewrite (leave_run _ _ _ _ _ Hok Hf) in Hsq.
  pose proof (sim_stack _ _ Hs) as [Hv Hfr]. unfold frames in Hf. rewrite Hf in Hfr.
  inversion Hfr as [|f1 ? fs1 ? [_ Hvs Hco] Hfs E1 E2]; subst.
  unfold bind, dropFrame, onStack, zoom. rewrite <- E1, Hvs, Hco, Hv. fold (values s2').
  destruct (erase_mid _ _ (values s2')) as [vs| | |] eqn:Ee; try by apply runs_undef.
  cbn in Hsq. subst q. rewrite drop_0, Hi in Hq. cbn in Hq.
  eapply runs_step; [exact Hq|]. apply runs_ret.
  - destruct Hs as [_ ? ? ? ? ?]. by repeat split.
  - split; [exact Hl|done..].
Qed.

(** The state after [pushFrame]. *)
Definition framed (ModA : Z) (FT : FType) (s : Interpreter H) : Interpreter H :=
  set_StackMgr (mkStack (values s) (labels s)
    (mkFrame ModA (wrap 32 (sizeZ (values s) - sizeZ (Params FT))) (wrap 32 (sizeZ (labels s)))
       (sizeZ (Returns FT)) :: frames s)) s.

Lemma pushFrame_run ModA FT (s : Interpreter H) :
  onStack (Stack.pushFrame ModA (sizeZ (Params FT)) (sizeZ (Returns FT))) s = (Ok tt, framed ModA FT s).
Proof. done. Qed.

Lemma sim_framed ModA FT s1 s2 : sim s1 s2 -> sim (framed ModA FT s1) (framed ModA FT s2).
Proof.
  intros Hs. pose proof (sim_values _ _ Hs) as Hvs. destruct Hs as [[? ?] ? ? ? ? ?].
  repeat split; cbn; try done. constructor; [|done]. split; cbn; try done. by rewrite Hvs.
Qed.

(** The scope and the frame of a call, with the body's labels gone. *)
Record in_call (c : Z) (s2 u : Interpreter H) : Prop := mk_in_call {
  ic_ok : lab_ok c 0 u;
  ic_labels : labels u = labels s2;
  ic_frame : exists f, frames u = f :: frames s2;
  ic_iters : Iters u = mkScope Seq_FunctionCall [] :: Iters s2 }.

Lemma in_call_framed c ModA FT s2 u2 : sizeZ (labels s2) = c -> c + 1 < 2 ^ 32 ->
  same_control (framed ModA FT s2) u2 ->
  in_call c s2 (set_Iters (mkScope Seq_FunctionCall [] :: Iters u2) u2).
Proof.
  intros Hc Hw (Hi & Hl & Hf).
  assert (labels (set_Iters (mkScope Seq_FunctionCall [] :: Iters u2) u2) = labels s2) as HL by done.
  split; [|done|unfold frames; cbn; rewrite Hf; by eexists|by cbn; rewrite Hi].
  split; rewrite ?HL; [done|lia|unfold sizeZ in *; lia|].
  unfold frames. cbn. rewrite Hf. do 2 eexists. split; [done|]. cbn.
  rewrite Hc. unfold wrap. rewrite Z.mod_small; unfold sizeZ in *; lia.
Qed.

Lemma in_call_kept c s2 u u' : in_call c s2 u -> kept (same_its u) u u' -> in_call c s2 u'.
Proof.
  intros [Hok Hl Hf Hi] Hk. pose proof (lab_ok_kept _ _ _ _ _ Hok Hk). destruct Hk as [H1 H2 H3].
  unfold same_its in H3. by split; rewrite ?H1, ?H2, ?H3.
Qed.

(** The end of the call scope runs [leaveFunction]. *)
Lemma step_call_end c s2 u : in_call c s2 u -> leads (Ok tt, u) (leaveFunction u).
Proof.
  intros [_ _ _ Hi]. apply leads_step; [by rewrite Hi|].
  unfold step. unfold bind at 1, getNextInstr. rewrite Hi.
  unfold bind at 1, getTopScopeType, gets. rewrite Hi. constructor.
Qed.

Lemma body_sim ev c a Instrs u1 u2 s2 : seq_sim ev -> sim u1 u2 -> in_call c s2 u2 ->
  runs (same_its s2) (same_its s2) s2 (enterBlock a None Instrs u2)
    ((let* o := sblock ev c 0 a Instrs in
      match o with Normal | Return => dropFrame ;;; ret Normal | Branch _ => undef UB_vector end) u1).
Proof.
  intros Hev Hu Hc.
  destruct (block_sim ev c 0 a Instrs u1 u2 Hev Hu (ic_ok _ _ _ Hc)) as (q & Hq & Ho).
  unfold bind at 1.
  destruct (sblock ev c 0 a Instrs u1) as [[[|n|]|e|u|] s1']; cbn [fst snd] in Ho;
    try by apply runs_undef.
  - destruct Ho as (s2' & -> & Hs' & Hk). pose proof (in_call_kept _ _ _ _ Hc Hk) as Hc'.
    pose proof Hc' as [? ? [f ?] ?]. eapply leave_sim; try done.
    exists (leaveFunction s2'). split; [|unfold same_outcome; by case_match].
    eapply leads_trans; [exact Hq|]. by eapply step_call_end.
  - destruct Ho as (s2' & Hsq & Hs' & Hk). pose proof (in_call_kept _ _ _ _ Hc Hk) as Hc'.
    pose proof Hc' as [? ? [f ?] ?]. eapply leave_sim; try done. by exists q.
  - by exists q.
Qed.

Lemma call_sim ev c Func s1 s2 : seq_sim ev -> sim s1 s2 -> sizeZ (labels s2) = c ->
  match Func with HostFunctionInst h => host_values_only h | _ => True end ->
  runs (same_its s2) (same_its s2) s2 (enterFunction Func s2) (scall ev c Func s1).
Proof.
  intros Hev Hs Hc Hh. destruct Func as [ModA FT Locals Instrs|h].
  2: { by apply (runs_prim (callHost h)); [apply prim_callHost|]. }
  unfold scall. rewrite guarded_run. destruct (_ && _) eqn:Eg; [|by apply runs_undef].
  apply andb_true_iff in Eg as [Hv%Z.ltb_lt Hc1%Z.ltb_lt]. unfold enterFunction.
  rewrite (bind_Ok _ _ _ _ _ (pushFrame_run ModA FT s1)), (bind_Ok _ _ _ _ _ (pushFrame_run ModA FT s2)).
  destruct (prim_push_locals Locals _ _ (sim_framed ModA FT s1 s2 Hs)) as (He & Ht' & Hctl).
  destruct (push_locals Locals (framed ModA FT s1)) as [r1 u1] eqn:E1,
    (push_locals Locals (framed ModA FT s2)) as [r2 u2] eqn:E2.
  cbn [fst snd] in *. subst r2. destruct r1 as [[]|e|u|].
  - rewrite (bind_Ok _ _ _ _ _ E1), (bind_Ok _ _ _ _ _ E2).
    apply body_sim; [done|by destruct Ht'|by eapply in_call_framed].
  - unfold bind at 1. rewrite E2. unfold bind at 1. rewrite E1.
    eexists. split; [constructor|]. by eexists.
  - apply runs_undef. unfold bind. by rewrite E1.
  - apply runs_undef. unfold bind. by rewrite E1.
Qed.

(** ** One instruction *)

Definition func_fine (st : StoreManager H) (f : FunctionInstance H) : Prop :=
  f ∈ insts (Funcs st).

Lemma func_fine_host st f : hosts_values_only st -> func_fine st f ->
  match f with HostFunctionInst h => host_values_only h | _ => True end.
Proof.
  intros Hh Hf. unfold hosts_values_only in Hh. rewrite list.Forall_forall in Hh. exact (Hh f Hf).
Qed.

Lemma getInstance_fine {S} a st (f : FunctionInstance H) (t t' : S) :
  deref (lift (getInstance a (Funcs st))) t = (Ok f, t') -> func_fine st f /\ t' = t.
Proof.
  unfold deref, lift, getInstance, get_at, atZ, func_fine. destruct (0 <=? a); [|done].
  destruct (insts (Funcs st) !! Z.to_nat a) eqn:E; [|done]. intros [= <- <-]. split; [|done].
  by eapply list_elem_of_lookup_2.
Qed.

Lemma call_target_fine n (s t : Interpreter H) f : call_target n s = (Ok f, t) ->
  func_fine (StoreMgr t) f.
Proof.
  intros E. unfold call_target in E.
  apply bind_Ok_inv in E as (m & s1 & _ & E). apply bind_Ok_inv in E as (a & s2 & _ & E).
  rewrite bind_get in E. by apply getInstance_fine in E as [? ->].
Qed.

Lemma indirect_target_fine n (s t : Interpreter H) f : indirect_target n s = (Ok f, t) ->
  func_fine (StoreMgr t) f.
Proof.
  intros E. unfold indirect_target in E.
  do 6 (apply bind_Ok_inv in E as (? & ? & _ & E)).
  rewrite bind_get in E. apply bind_Ok_inv in E as (f' & s1 & E1 & E).
  apply getInstance_fine in E1 as [Hf ->]. destruct (_ || _); [done|]. by inversion E; subst.
Qed.

(** The engine's operations, cut at their control transfer. *)
Lemma runCallOp_cut n (s : Interpreter H) :
  runCallOp n s = (let* f := call_target n in enterFunction f) s.
Proof.
  unfold runCallOp, call_target. rewrite bind_assoc. unfold bind.
  destruct (currentModule s) as [[m| | |] s1]; try done.
  destruct (deref (lift (get_at (FuncAddrs m) n)) s1) as [[a| | |] s2]; try done.
Qed.

Lemma runCallIndirectOp_cut n (s : Interpreter H) :
  runCallIndirectOp n s = (let* f := indirect_target n in enterFunction f) s.
Proof.
  unfold runCallIndirectOp, indirect_target, bind, get.
  destruct (getTabInstByIdx 0 s) as [[t| | |] s1]; try done.
  destruct (currentModule s1) as [[m| | |] s2]; try done.
  destruct (deref (lift (get_at (FuncTypes m) n)) s2) as [[ft| | |] s3]; try done.
  destruct (onStack Stack.pop s3) as [[v| | |] s4]; try done.
  destruct (lift (retrieveValue U32 v) s4) as [[x| | |] s5]; try done.
  destruct (lift (getElemAddr x t) s5) as [[a| | |] s6]; try done.
  destruct (deref _ s6) as [[f| | |] s7]; try done. by destruct (_ || _).
Qed.

Lemma runIfElseOp_cut bt l1 l2 (s : Interpreter H) :
  runIfElseOp bt l1 l2 s = (let* x := pop_u32 in
    let l := if negb (x =? 0) then l1 else l2 in
    if sizeZ l =? 0 then ret tt
    else chargeInstr Op_Else ;;; enterBlock (block_arity bt) None l) s.
Proof.
  unfold runIfElseOp, pop_u32. rewrite bind_assoc. unfold bind.
  destruct (onStack Stack.pop s) as [[v| | |] s1]; try done.
  destruct (lift (retrieveValue U32 v) s1) as [[x| | |] s2]; try done. by destruct (negb _).
Qed.

Lemma runBrIfOp_cut n (s : Interpreter H) :
  runBrIfOp n s = (let* x := pop_u32 in if negb (x =? 0) then runBrOp n else ret tt) s.
Proof. unfold runBrIfOp, pop_u32. by rewrite bind_assoc. Qed.

Lemma runBrTableOp_cut t n (s : Interpreter H) :
  runBrTableOp t n s = (let* x := pop_u32 in branchToLabel runLoopOp (default n (atZ t x))) s.
Proof.
  unfold runBrTableOp, pop_u32. rewrite bind_assoc. unfold bind.
  destruct (onStack Stack.pop s) as [[v| | |] s1]; try done.
  destruct (lift (retrieveValue U32 v) s1) as [[x| | |] s2]; try done. by destruct (atZ t x).
Qed.

Lemma branch_sim d n s1 s2 s2b : sim s1 s2b -> kept (same_its s2) s2 s2b ->
  runs (same_its s2) (same_its s2) s2 (branchToLabel runLoopOp n s2b) (sbranch (H := H) d n s1).
Proof.
  intros Hs Hk. unfold sbranch. destruct (_ && _) eqn:E; [|by apply runs_undef].
  eexists. split; [constructor|]. exists s2b.
  split_and!; [unfold same_outcome; by case_match|lia|done|done].
Qed.

Lemma control_sim ev lp c d i m s1 s2 : seq_sim ev -> loop_sim lp -> sim s1 s2 -> lab_ok c d s2 ->
  scontrol ev lp c d i = Some m -> dispatchInstruction (getOpCode i) = Some (node_class i) ->
  runs (same_its s2) (same_its s2) s2 (executeInstr i s2) (m s1).
Proof.
  intros Hev Hlp Hs Hok Hm Hd. unfold executeInstr. rewrite Hd.
  rewrite bool_decide_eq_false_2 by (intros Hn; by apply Hn).
  assert (kept (same_its s2) s2 s2) as Hk by done.
  destruct i as [Code| Code bt b| Code bt b1 b2| Code n| Code t n| Code n| | | |Code v| |];
    try discriminate Hm; destruct Code; try discriminate Hm; injection Hm as <-.
  - eexists. split; [constructor|]. exists s2. split_and!; try done. unfold same_outcome. by case_match.
  - by apply block_sim.
  - by apply Hlp.
  - rewrite runIfElseOp_cut. apply runs_bind_prim; [apply prim_pop_u32|done|].
    intros x t1 t2 Ht Hk' _. cbv zeta. unfold sif.
    set (l := if negb (x =? 0) then b1 else b2). destruct (sizeZ l =? 0); [by apply runs_ret|].
    eapply runs_base; [exact Hk'|]. apply runs_bind_prim; [apply prim_chargeInstr|done|].
    intros y u1 u2 Hu Hk2 _. eapply runs_base; [exact Hk2|]. apply block_sim; [done..|].
    eapply lab_ok_kept; [by eapply lab_ok_kept|done].
  - by apply branch_sim.
  - rewrite runBrIfOp_cut. apply runs_bind_prim; [apply prim_pop_u32|done|].
    intros x t1 t2 Ht Hk' _. destruct (negb _); [by apply branch_sim|by apply runs_ret].
  - rewrite runBrTableOp_cut. apply runs_bind_prim; [apply prim_pop_u32|done|].
    intros x t1 t2 Ht Hk' _. by apply branch_sim.
  - rewrite runCallOp_cut. apply runs_bind_prim; [apply prim_call_target|done|].
    intros f t1 t2 Ht Hk' E. eapply runs_base; [exact Hk'|].
    apply call_sim; [done..|by rewrite (kp_labels _ _ _ Hk'), (lo_count _ _ _ Hok)|].
    eapply func_fine_host; [apply (sim_hosts _ _ Ht)|by eapply call_target_fine].
  - rewrite runCallIndirectOp_cut. apply runs_bind_prim; [apply prim_indirect_target|done|].
    intros f t1 t2 Ht Hk' E. eapply runs_base; [exact Hk'|].
    apply call_sim; [done..|by rewrite (kp_labels _ _ _ Hk'), (lo_count _ _ _ Hok)|].
    eapply func_fine_host; [apply (sim_hosts _ _ Ht)|by eapply indirect_target_fine].
Qed.

Lemma instr_sim ev lp c d i s1 s2 : seq_sim ev -> loop_sim lp -> sim s1 s2 -> lab_ok c d s2 ->
  runs (same_its s2) (same_its s2) s2 (executeInstr i s2) (sinstr ev lp c d i s1).
Proof.
  intros Hev Hlp Hs Hok. unfold sinstr. destruct (scontrol ev lp c d i) as [m|] eqn:Em.
  - case_bool_decide; [|by apply runs_undef]. by eapply control_sim.
  - apply runs_prim; [by eapply prim_executeInstr|done].
Qed.

(** ** Sequences *)

Lemma seq_step ev lp c d i l s1 s2 t its : seq_sim ev -> loop_sim lp ->
  sim s1 s2 -> Iters s2 = mkScope t (i :: l) :: its -> lab_ok c d s2 ->
  runs (fun x => x = mkScope t [] :: its) (fun x => exists l', x = mkScope t l' :: its) s2
    (Ok tt, s2)
    ((countInstr (getOpCode i) ;;;
      let* o := sinstr ev lp c d i in
      match o with Normal => ev c d l | _ => ret o end) s1).
Proof.
  intros Hev Hlp Hs Hi Hok. set (s2b := set_Iters (mkScope t l :: its) s2).
  assert (step s2 = (countInstr (getOpCode i) ;;; executeInstr i) s2b) as Hst.
  { unfold step. unfold bind at 1, getNextInstr. rewrite Hi. done. }
  assert (sim s1 s2b) as Hsb by (destruct Hs; by split).
  assert (lab_ok c d s2b) as Hokb by (destruct Hok; by split).
  eapply runs_step; [apply leads_step; [by rewrite Hi|rewrite Hst; constructor]|].
  rewrite <- (bind_assoc _ (fun _ => sinstr ev lp c d i)).
  assert (runs (same_its s2b) (same_its s2b) s2b
    ((countInstr (getOpCode i) ;;; executeInstr i) s2b)
    ((countInstr (getOpCode i) ;;; sinstr ev lp c d i) s1)) as (q & Hq & Ho).
  { apply runs_bind_prim; [apply prim_countInstr|done|]. intros x t1 t2 Ht Hk _.
    eapply runs_base; [exact Hk|]. apply instr_sim; [done..|by eapply lab_ok_kept]. }
  rewrite (bind_eq (countInstr (getOpCode i) ;;; sinstr ev lp c d i)).
  destruct ((countInstr (getOpCode i) ;;; sinstr ev lp c d i) s1) as [[[|n|]|e|u|] s1'];
    cbn [fst snd] in Ho.
  5-6: by apply runs_undef.
  - destruct Ho as (s2' & -> & Hs' & Hk). eapply runs_step; [exact Hq|].
    destruct (Hev c d l s1' s2' t its) as (q' & Hq' & Ho'); [done|apply Hk|by eapply lab_ok_kept|].
    exists q'. split; [done|]. destruct Hk as [Hk1 Hk2 _].
    assert (forall P x, kept P s2' x -> kept P s2 x) as Hkk.
    { intros P x []. split; [etransitivity; eassumption..|done]. }
    destruct (ev c d l s1') as [[[|n|]|e|u|] s1'']; cbn in Ho' |- *; try done.
    + destruct Ho' as (x & ? & ? & ?). exists x. auto.
    + destruct Ho' as (x & ? & ? & ? & ?). exists x. auto.
    + destruct Ho' as (x & ? & ? & ?). exists x. auto.
  - destruct Ho as (s2' & ? & ? & ? & [? ? Hx]). exists q. split; [done|]. exists s2'.
    split_and!; try done. split; try done. by exists l.
  - destruct Ho as (s2' & ? & ? & [? ? Hx]). exists q. split; [done|]. exists s2'.
    split_and!; try done. split; try done. by exists l.
  - by exists q.
Qed.

Lemma engine_sim fuel : seq_sim (seval fuel) /\ loop_sim (sloop fuel).
Proof.
  induction fuel as [|f [IHs IHl]]; split.
  - intros c d l s1 s2 t its _ _ _. by apply runs_undef.
  - intros c d bt Body s1 s2 _ _. by apply runs_undef.
  - intros c d [|i l] s1 s2 t its Hs Hi Hok; [|by apply (seq_step _ (sloop f))].
    eexists. split; [constructor|]. by exists s2.
  - intros c d bt Body s1 s2 Hs Hok. by apply loop_step.
Qed.

(** ** Calls from outside *)

Lemma push_locals_ok l (s : Interpreter H) : exists t, push_locals l s = (Ok tt, t).
Proof.
  revert s. induction l as [|x l IH]; intros s; [by eexists|].
  destruct (IH (set_StackMgr (set_values (replicate (Z.to_nat x.1) (ValueFromType (default VT_None x.2))
    ++ ValueStack (StackMgr s)) (StackMgr s)) s)) as [t Ht]. by exists t.
Qed.

Lemma enter_native ModA FT L I (s : Interpreter H) :
  exists t, enterFunction (NativeFunction ModA FT L I) s = (Ok tt, t).
Proof.
  unfold enterFunction. rewrite (bind_Ok _ _ _ _ _ (pushFrame_run ModA FT s)).
  destruct (push_locals_ok L (framed ModA FT s)) as [t Ht]. rewrite (bind_Ok _ _ _ _ _ Ht). by eexists.
Qed.

(** The reference's result, once the engine has enough fuel. *)
Definition settles {A} (r : res A) (s1 : Interpreter H) (f : nat -> res A * Interpreter H) : Prop :=
  match r with
  | Ok _ | Err _ => exists n s2, sim s1 s2 /\ forall m, (n <= m)%nat -> f m = (r, s2)
  | _ => True
  end.

Lemma scall_normal ev c f (s t : Interpreter H) o : scall ev c f s = (Ok o, t) -> o = Normal.
Proof.
  destruct f as [ModA FT L I|h]; unfold scall.
  - rewrite guarded_run. destruct (_ && _); [|done]. intros E.
    apply bind_Ok_inv in E as (? & ? & _ & E). apply bind_Ok_inv in E as (? & ? & _ & E).
    apply bind_Ok_inv in E as (o' & ? & _ & E).
    destruct o'; try done; apply bind_Ok_inv in E as (? & ? & _ & E); by inversion E.
  - intros E. apply bind_Ok_inv in E as (? & ? & _ & E). by inversion E.
Qed.

(** [runFunction] after the body. *)
Lemma runFunction_native m f (s t t' : Interpreter H) r : enterFunction f s = (Ok tt, t) ->
  execute m t = (r, t') -> runFunction m f s =
    match r with
    | Err e => (if bool_decide (e = Terminated) then Ok tt else Err e, t')
    | _ => (r, t')
    end.
Proof.
  intros He Hx. unfold runFunction. rewrite (bind_Ok _ _ _ _ _ He). unfold bind, try. rewrite Hx.
  destruct r as [[]|e|u|]; try done. by destruct (bool_decide _).
Qed.

Lemma runFunction_sim fuel f s1 s2 : sim s1 s2 -> Iters s2 = [] -> labels s2 = [] ->
  func_fine (StoreMgr s2) f ->
  settles (srunFunction fuel f s1).1 (srunFunction fuel f s1).2 (fun m => runFunction m f s2).
Proof.
  intros Hs Hi Hl Hf. pose proof (func_fine_host _ _ (sim_hosts _ _ Hs) Hf) as Hh.
  assert (sizeZ (labels s2) = 0) as Hc by by rewrite Hl.
  destruct (call_sim (seval fuel) 0 f s1 s2 (proj1 (engine_sim fuel)) Hs Hc Hh) as (q & Hq & Ho).
  unfold srunFunction. destruct f as [ModA FT L I|h]; cbn [isHostFunction].
  - destruct (enter_native ModA FT L I s2) as [t Ht]. rewrite Ht in Hq. unfold bind, try.
    destruct (scall _ 0 _ s1) as [[o|e|u|] s1'] eqn:Es; cbn [fst snd] in Ho; try done.
    + apply scall_normal in Es as ->. destruct Ho as (s2' & -> & Hs' & Hk).
      destruct (execute_leads _ _ Hq) as [n Hn]; [|done|].
      { intros ? [= <-]. destruct Hk as [_ _ ->]. done. }
      exists n, s2'. split; [done|]. intros m Hm.
      by rewrite (runFunction_native m _ _ _ _ _ Ht (execute_more _ _ _ _ _ Hn ltac:(done) Hm)).
    + destruct Ho as (s2' & -> & Hs'). destruct (execute_leads _ _ Hq) as [n Hn]; [done..|].
      assert (forall m, (n <= m)%nat -> runFunction m (NativeFunction ModA FT L I) s2 =
        (if bool_decide (e = Terminated) then Ok tt else Err e, s2')) as Hr.
      { intros m Hm.
        by rewrite (runFunction_native m _ _ _ _ _ Ht (execute_more _ _ _ _ _ Hn ltac:(done) Hm)). }
      destruct (bool_decide _); exists n, s2'; done.
  - destruct (prim_callHost h Hh s1 s2 Hs) as (He & Hs' & Hi' & _).
    unfold scall, runFunction. unfold enterFunction, bind.
    destruct (callHost h s1) as [r1 t1], (callHost h s2) as [r2 t2]. cbn [fst snd] in *. subst r2.
    destruct r1 as [[]|e|u|]; try done; exists O, t2; split; try done. intros m _.
    unfold try. destruct m; cbn [execute]; rewrite bind_get, Hi', Hi; done.
Qed.

Lemma prim_pop_n n : prim (pop_n n).
Proof. induction n as [|n IH]; cbn [pop_n]; prim_auto. Qed.

Lemma settles_bind {A B} (m : MI A) (m2 : nat -> MI A) (k : A -> MI B) s1 s2 :
  settles (m s1).1 (m s1).2 (fun n => m2 n s2) -> (forall a, prim (k a)) ->
  settles (bind m k s1).1 (bind m k s1).2 (fun n => bind (m2 n) k s2).
Proof.
  intros Hm Hk. unfold bind at 1 2. destruct (m s1) as [[a|e|u|] t1]; cbn in Hm |- *; try done.
  - destruct Hm as (n & t2 & Ht & Hn). destruct (Hk a t1 t2 Ht) as (He & Hs' & _).
    destruct (k a t1) as [r t1'] eqn:E1, (k a t2) as [r2 t2'] eqn:E2; cbn in *. subst r2.
    destruct r; try done; exists n, t2'; split; try done; intros i Hi; unfold bind;
      by rewrite (Hn i Hi), E2.
  - destruct Hm as (n & t2 & Ht & Hn). exists n, t2. split; [done|]. intros i Hi. unfold bind.
    by rewrite (Hn i Hi).
Qed.

Lemma sim_refl s : hosts_values_only (StoreMgr s) -> sim s s.
Proof.
  intros Hh. repeat split; try done. induction (FrameStack (StackMgr s)); constructor; [|done].
  by split.
Qed.

Lemma push_args l (s : Interpreter H) : exists t,
  mapM_ (fun Val => onStack (Stack.push Val)) l s = (Ok tt, t) /\
  Iters t = Iters s /\ labels t = labels s /\ StoreMgr t = StoreMgr s /\ Measure t = Measure s.
Proof.
  revert s. induction l as [|v l IH]; intros s; [by eexists|].
  destruct (IH (set_StackMgr (set_values (v :: values s) (StackMgr s)) s)) as (t & Ht & ? & ? & ? & ?).
  by exists t.
Qed.

(** [invoke] and [sinvoke] differ in what runs the function. *)
Definition invoke_with (run : FunctionInstance H -> MI unit) (Name : list Z)
    (Params_ : list ValVariant) : MI (list ValVariant) :=
  let* s := get in
  let* FuncExp := lift (getFuncExports (StoreMgr s)) in
  match map_find Name FuncExp with
  | None => throw CallFunctionError
  | Some a =>
      let* FuncInst := deref (lift (getInstance a (Funcs (StoreMgr s)))) in
      let FuncType := getFuncTypeOf FuncInst in
      if negb (sizeZ (Params FuncType) =? sizeZ Params_) then throw TypeNotMatch
      else
        modify (set_Iters []) ;;;
        onStack Stack.reset ;;;
        mapM_ (fun Val => onStack (Stack.push Val)) Params_ ;;;
        run FuncInst ;;;
        let* Returns_ := pop_n (length (Returns FuncType)) in
        ret (reverse Returns_)
  end.

Definition results (f : FunctionInstance H) : MI (list ValVariant) :=
  let* Returns_ := pop_n (length (Returns (getFuncTypeOf f))) in ret (reverse Returns_).

(** It fails before anything changes, or it runs a function of the store on fresh stacks. *)
Lemma invoke_with_cases Name Params_ (s : Interpreter H) :
  (exists r, r <> NoFuel /\ forall run, invoke_with run Name Params_ s = (r, s)) \/
  (exists f t, func_fine (StoreMgr t) f /\ Iters t = [] /\ labels t = [] /\
     StoreMgr t = StoreMgr s /\ Measure t = Measure s /\
     forall run, invoke_with run Name Params_ s = (run f ;;; results f) t).
Proof.
  destruct (getFuncExports (StoreMgr s)) as [FuncExp|e|u|] eqn:E1.
  2, 4: exfalso; unfold getFuncExports in E1; by repeat case_match.
  2: { left. eexists. split; [|intros run; unfold invoke_with; rewrite bind_get, bind_eq;
         unfold lift at 1; by rewrite E1]. done. }
  assert (lift (getFuncExports (StoreMgr s)) s = (Ok FuncExp, s)) as L1 by (unfold lift; by rewrite E1).
  destruct (map_find Name FuncExp) as [a|] eqn:E2.
  2: { left. eexists. split; [|intros run; unfold invoke_with;
         by rewrite bind_get, (bind_Ok _ _ _ _ _ L1), E2]. done. }
  destruct (deref (lift (getInstance a (Funcs (StoreMgr s)))) s) as [[f|e|u|] s'] eqn:Ef.
  2, 4: exfalso; unfold deref, lift, getInstance, get_at in Ef; by repeat case_match.
  2: { left. assert (s' = s) as -> by (unfold deref, lift in Ef; destruct (getInstance _ _); congruence).
       eexists. split; [|intros run; unfold invoke_with;
         by rewrite bind_get, (bind_Ok _ _ _ _ _ L1), E2, bind_eq, Ef]. done. }
  pose proof (getInstance_fine _ _ _ _ _ Ef) as [Hf' ->].
  destruct (negb (sizeZ (Params (getFuncTypeOf f)) =? sizeZ Params_)) eqn:E3.
  { left. eexists. split; [|intros run; unfold invoke_with;
      by rewrite bind_get, (bind_Ok _ _ _ _ _ L1), E2, (bind_Ok _ _ _ _ _ Ef), E3]. done. }
  right. set (s0 := set_StackMgr newStackManager (set_Iters [] s)).
  destruct (push_args Params_ s0) as (t & Ht & Hi & Hl & Hst & Hme).
  exists f, t. split_and!; try done; [by rewrite Hst|]. intros run. unfold invoke_with.
  rewrite bind_get, (bind_Ok _ _ _ _ _ L1), E2, (bind_Ok _ _ _ _ _ Ef), E3.
  exact (bind_Ok _ _ _ _ _ Ht).
Qed.

Lemma invoke_refines (fuel : nat) (Name : list Z) (Params_ : list ValVariant)
    (s s1 : Interpreter H) (r : res (list ValVariant)) :
  hosts_values_only (StoreMgr s) -> sinvoke fuel Name Params_ s = (r, s1) ->
  (forall u, r <> Undef u) -> r <> NoFuel ->
  exists n s2, sim s1 s2 /\ forall m, (n <= m)%nat -> invoke m Name Params_ s = (r, s2).
Proof.
  intros Hh Hr Hu Hf. change (invoke_with (srunFunction fuel) Name Params_ s = (r, s1)) in Hr.
  change (exists n s2, sim s1 s2 /\ forall m, (n <= m)%nat ->
    invoke_with (runFunction m) Name Params_ s = (r, s2)).
  destruct (invoke_with_cases Name Params_ s) as [(r0 & _ & H0)|(f & t & Hft & Hi & Hl & Hst & _ & H0)].
  - rewrite H0 in Hr. injection Hr as <- <-. exists O, s. split; [by apply sim_refl|done].
  - rewrite H0 in Hr. rewrite <- Hst in Hh.
    pose proof (runFunction_sim fuel f t t (sim_refl t Hh) Hi Hl Hft) as Hrun.
    apply (settles_bind _ (fun m => runFunction m f) (fun _ => results f)) in Hrun.
    2: { intros _. apply prim_bind; [apply prim_pop_n|intros x; apply prim_ret]. }
    rewrite Hr in Hrun. cbn [fst snd] in Hrun.
    destruct r as [vs|e|u|]; cbn in Hrun; try done; [| |by destruct (Hu u)].
    all: destruct Hrun as (n & s2 & Hs2 & Hn); exists n, s2; split; [done|]; intros m Hm;
      rewrite H0; exact (Hn m Hm).
Qed.

(** [C1] The engine implements structured control.  Whenever the reference semantics, in
    which blocks, loops and calls are recursive calls without any label or scope stack, ends
    a call of an exported function with results or with a trap, the engine's loop over
    scopes and labels ends the same call, from some amount of fuel on, with the same
    results or trap and with the same values, frames, measurement, store and host state. *)
Theorem engine_refines_structured_semantics (fuel : nat) (Name : list Z) (Params_ : list ValVariant)
    (s s1 : Interpreter H) (r : res (list ValVariant)) :
  hosts_values_only (StoreMgr s) -> sinvoke fuel Name Params_ s = (r, s1) ->
  (forall u, r <> Undef u) -> r <> NoFuel ->
  exists n s2, sim s1 s2 /\ forall m, (n <= m)%nat -> invoke m Name Params_ s = (r, s2).
Proof. apply invoke_refines. Qed.

End Refine.

(** ** A program with a block, a loop, branches and a call *)

(** [count(n)]: counts its parameter down to 0 in a loop. *)
Definition count_body : list Instr :=
  [ BlockControlInstruction Op_Block VT_None
      [ BlockControlInstruction Op_Loop VT_None
          [ VariableInstruction Local__get 0;
            UnaryNumericInstruction I32__eqz;
            BrControlInstruction Op_Br_if 1;
            VariableInstruction Local__get 0;
            ConstInstruction I32__const (mkVariant U32 1);
            BinaryNumericInstruction I32__sub;
            VariableInstruction Local__set 0;
            BrControlInstruction Op_Br 0 ] ];
    VariableInstruction Local__get 0 ].

(** [main(n) = count(n)]. *)
Definition main_body : list Instr :=
  [ VariableInstruction Local__get 0; CallControlInstruction Op_Call 0 ].

Definition i32_to_i32 : FType := mkFType [VT_I32] [VT_I32].

Definition count_store : StoreManager unit :=
  mkStore
    (mkPool [mkModInst 0 [] [i32_to_i32] [0; 1] [] [] [] [([109], 1)] [] [] [] None] 1 1)
    (mkPool [NativeFunction 0 i32_to_i32 [] count_body; NativeFunction 0 i32_to_i32 [] main_body] 2 2)
    empty_pool empty_pool empty_pool.

Definition count_interp : Interpreter unit :=
  mkInterp newStackManager [] (Some (newMeasurement (replicate 256 1) 1000)) count_store tt
    Mode_Instantiate.

Lemma engine_refines_structured_semantics_witness :
  exists n s2, sim (sinvoke 50 [109] [mkVariant U32 3] count_interp).2 s2 /\
    forall m, (n <= m)%nat ->
      invoke m [109] [mkVariant U32 3] count_interp = (Ok [mkVariant U32 0], s2).
Proof.
  apply (engine_refines_structured_semantics 50 [109] [mkVariant U32 3] count_interp
           (sinvoke 50 [109] [mkVariant U32 3] count_interp).2 (Ok [mkVariant U32 0])).
  - repeat constructor.
  - vm_compute. reflexivity.
  - discriminate.
  - discriminate.
Defined.
