(* ===== verification/EngineFuel.v ===== *)
(** * Metered execution terminates

    With a cost table without zeros every instruction spends some of the limit; between two
    instructions the loop only closes scopes.  The bound on the iterations of the loop
    follows, for any program. *)
From stdpp Require Import base list numbers option.
From Stdlib Require Import ZArith Lia.
From S2P Require Import Prelude Types Instruction AST Numeric NumericFacts Memory StackMgr.
From S2P Require Import Runtime Interpreter EngineSpec EngineRefine.
#[local] Open Scope Z_scope.

Create HintDb free.

(** ** Operations that never run out of fuel *)

Definition free {S A} (m : M S A) : Prop := forall s, (m s).1 <> NoFuel.

Lemma free_bind {S A B} (m : M S A) (k : A -> M S B) : free m -> (forall a, free (k a)) -> free (bind m k).
Proof.
  intros Hm Hk s. unfold bind. specialize (Hm s). destruct (m s) as [[a| | |] t]; try done. apply Hk.
Qed.
Lemma free_lift {S A} (r : res A) : r <> NoFuel -> free (lift (S := S) r).
Proof. by intros Hr s. Qed.
Lemma free_ret {S A} (a : A) : free (ret (S := S) a).
Proof. by intros s. Qed.
Lemma free_throw {S A} e : free (throw (S := S) (A := A) e).
Proof. by intros s. Qed.
Lemma free_get {S} : free (get (S := S)).
Proof. by intros s. Qed.
Lemma free_put {S} (t : S) : free (put t).
Proof. by intros s. Qed.
Lemma free_modify {S} (f : S -> S) : free (modify f).
Proof. by intros s. Qed.

Lemma retrieveValue_fuel T v : retrieveValue T v <> NoFuel.
Proof. unfold retrieveValue. by destruct (_ && _). Qed.
Lemma read_range_fuel a b l : read_range a b l <> NoFuel.
Proof. unfold read_range. by destruct (_ <=? _). Qed.
Lemma write_range_fuel a b l : write_range a b l <> NoFuel.
Proof. unfold write_range. by destruct (_ <=? _). Qed.
Lemma get_at_fuel {A} (l : list A) i : get_at l i <> NoFuel.
Proof. unfold get_at. by destruct (atZ _ _). Qed.
Lemma getElemAddr_fuel i t : getElemAddr i t <> NoFuel.
Proof. unfold getElemAddr. by destruct (atZ _ _). Qed.

(** The counting loops end (NumericFacts). *)
Lemma counting_fuel (w64 : bool) v :
  runClzOp (utype w64) v <> NoFuel /\ runCtzOp (utype w64) v <> NoFuel /\
  runPopcntOp (utype w64) v <> NoFuel.
Proof.
  destruct (wide_enough w64 v) eqn:E.
  - rewrite (clz_correct _ _ E). destruct (ctz_correct _ _ E) as (? & -> & _).
    destruct (popcnt_correct _ _ E) as (? & -> & _). split_and!; [by case_match|done..].
  - destruct w64; [|done].
    assert (retrieveValue U64 v = Undef UB_indet) as Hr.
    { unfold wide_enough in E. unfold retrieveValue. cbn in *. by rewrite E. }
    unfold runClzOp, runCtzOp, runPopcntOp. cbn [utype]. by rewrite Hr.
Qed.

Lemma unary_f_fuel f T v : unary_f f T v <> NoFuel.
Proof. unfold unary_f, rbind. pose proof (retrieveValue_fuel T v). by case_match. Qed.
Lemma compound_fuel f T v1 v2 : compound f T v1 v2 <> NoFuel.
Proof.
  unfold compound, rbind. pose proof (retrieveValue_fuel T v1). pose proof (retrieveValue_fuel T v2).
  repeat case_match; done.
Qed.

(** A unary operation on one retrieved value. *)
Lemma retrieve_fuel {A} T v (k : Z -> res A) : (forall a, k a <> NoFuel) -> rbind (retrieveValue T v) k <> NoFuel.
Proof. intros Hk. pose proof (retrieveValue_fuel T v). unfold rbind. case_match; try done. Qed.

Lemma shl_T_fuel T a n : shl_T T a n <> NoFuel.
Proof. unfold shl_T. by case_match. Qed.
Lemma shr_T_fuel T a n : shr_T T a n <> NoFuel.
Proof. unfold shr_T. by case_match. Qed.
Lemma rbind_fuel {A B} (r : res A) (k : A -> res B) : r <> NoFuel -> (forall a, k a <> NoFuel) ->
  rbind r k <> NoFuel.
Proof. intros Hr Hk. unfold rbind. case_match; try done. Qed.

#[export] Hint Resolve retrieveValue_fuel read_range_fuel write_range_fuel get_at_fuel getElemAddr_fuel
  unary_f_fuel compound_fuel shl_T_fuel shr_T_fuel free_ret free_throw free_get free_put
  free_modify : free.

Ltac op_fuel :=
  repeat first [ by eauto with free | done | apply rbind_fuel; [by eauto with free|intros ?] | case_match ].

Lemma runTruncateOp_fuel TIn TOut v : runTruncateOp TIn TOut v <> NoFuel.
Proof. unfold runTruncateOp. cbv zeta. op_fuel. Qed.

Lemma unary_op_fuel Code f v : unary_op Code = Some f -> f v <> NoFuel.
Proof.
  pose proof (counting_fuel false v) as (Hc1 & Hc2 & Hc3).
  pose proof (counting_fuel true v) as (Hc4 & Hc5 & Hc6). cbn [utype] in *.
  intros E. destruct Code; try discriminate E; injection E as <-; try assumption;
    try apply unary_f_fuel; try apply runTruncateOp_fuel; apply retrieve_fuel; done.
Qed.

Lemma binary_op_fuel Code f v1 v2 : binary_op Code = Some f -> f v1 v2 <> NoFuel.
Proof.
  intros E. destruct Code; try discriminate E; injection E as <-; try apply compound_fuel.
  all: unfold runEqOp, runNeOp, runLtOp, runGtOp, runLeOp, runGeOp, runDivOp, runRemOp, runRotlOp,
    runRotrOp, runMinOp; op_fuel.
Qed.

Lemma free_requireDataSize o l : free (requireDataSize o l).
Proof.
  intros m. unfold requireDataSize, bind, checkDataSize, throw, ret.
  by repeat (case_match; simplify_eq/=).
Qed.

#[export] Hint Resolve free_requireDataSize : free.

Ltac free_auto := repeat lazymatch goal with
  | |- free (bind _ _) => apply free_bind; [|intros ?]
  | |- free (lift _) => apply free_lift; by eauto with free
  | |- free (match _ with _ => _ end) => case_match
  | |- free _ => by eauto with free
  end.

Lemma free_loadValue T o l : free (loadValue T o l).
Proof. unfold loadValue. cbv zeta. free_auto. Qed.
Lemma free_storeValue T v o l : free (storeValue T v o l).
Proof. unfold storeValue. free_auto. Qed.
Lemma free_growPage n : free (growPage n).
Proof. intros m. unfold growPage. by case_match. Qed.

Lemma free_getBytes o l : free (getBytes o l).
Proof. unfold getBytes. free_auto. Qed.
Lemma free_setBytes d o s l : free (setBytes d o s l).
Proof. unfold setBytes. free_auto. Qed.
Lemma free_getArray o l b : free (getArray o l b).
Proof. unfold getArray. free_auto. Qed.
Lemma free_setArray d o l b : free (setArray d o l b).
Proof. unfold setArray. free_auto. Qed.
#[export] Hint Resolve free_getBytes free_setBytes free_getArray free_setArray : free.

Lemma free_pop : free Stack.pop.
Proof. intros k. unfold Stack.pop. by case_match. Qed.
Lemma free_getTop : free Stack.getTop.
Proof. intros k. unfold Stack.getTop. by case_match. Qed.
Lemma free_setTop v : free (Stack.setTop v).
Proof. intros k. unfold Stack.setTop. by case_match. Qed.
Lemma free_push v : free (Stack.push v).
Proof. by intros k. Qed.
Lemma free_getBottomN n : free (Stack.getBottomN n).
Proof. intros k. unfold Stack.getBottomN. by case_match. Qed.
Lemma free_setBottomN n v : free (Stack.setBottomN n v).
Proof. intros k. unfold Stack.setBottomN. by case_match. Qed.
Lemma free_getModuleAddr : free Stack.getModuleAddr.
Proof. intros k. unfold Stack.getModuleAddr. by case_match. Qed.
Lemma free_getOffset n : free (Stack.getOffset n).
Proof. intros k. unfold Stack.getOffset. by case_match. Qed.
Lemma free_getLabel n : free (Stack.getLabelWithCount n).
Proof. intros k. unfold Stack.getLabelWithCount. by case_match. Qed.
Lemma free_popLabel n : free (Stack.popLabel n).
Proof.
  apply free_bind; [apply free_getLabel|intros L]. apply free_bind; [apply free_get|intros s].
  by destruct (erase_mid _ _ _).
Qed.
Lemma free_popFrame : free Stack.popFrame.
Proof. intros k. unfold Stack.popFrame. by repeat case_match. Qed.

#[export] Hint Resolve free_pop free_getTop free_setTop free_push free_getBottomN free_setBottomN
  free_getModuleAddr free_getOffset free_getLabel free_popLabel free_popFrame free_loadValue
  free_storeValue free_growPage : free.

(** ** Operations that spend nothing *)

Section Fuel.
Context {H : Type}.
#[local] Abbreviation MI := (M (Interpreter H)).

(** They leave the measurement, the functions and the scopes. *)
Definition quiet {A} (m : MI A) : Prop := forall s,
  (m s).1 <> NoFuel /\ Measure (m s).2 = Measure s /\
  Funcs (StoreMgr (m s).2) = Funcs (StoreMgr s) /\ Iters (m s).2 = Iters s.

Lemma quiet_bind {A B} (m : MI A) (k : A -> MI B) : quiet m -> (forall a, quiet (k a)) -> quiet (bind m k).
Proof.
  intros Hm Hk s. unfold bind. destruct (Hm s) as (H1 & H2 & H3 & H4).
  destruct (m s) as [[a|e|u|] t]; cbn in *; try by split_and!.
  destruct (Hk a t) as (? & ? & ? & ?). split_and!; congruence.
Qed.

Lemma quiet_lift {A} (r : res A) : r <> NoFuel -> quiet (lift r).
Proof. by intros Hr s. Qed.
Lemma quiet_ret {A} (a : A) : quiet (ret a).
Proof. by intros s. Qed.
Lemma quiet_throw {A} e : quiet (throw (A := A) e).
Proof. by intros s. Qed.
Lemma quiet_undef {A} u : quiet (undef (A := A) u).
Proof. by intros s. Qed.
Lemma quiet_get : quiet get.
Proof. by intros s. Qed.
Lemma quiet_deref {A} (m : MI A) : quiet m -> quiet (deref m).
Proof. intros Hm s. unfold deref. destruct (Hm s) as (? & ? & ? & ?).
  destruct (m s) as [[] t]; cbn in *; by split_and!. Qed.
Lemma quiet_try {A} (m : MI A) : quiet m -> quiet (try m).
Proof. intros Hm s. unfold try. destruct (Hm s) as (? & ? & ? & ?).
  destruct (m s) as [[] t]; cbn in *; by split_and!. Qed.
Lemma quiet_onStack {A} (m : M StackManager A) : free m -> quiet (onStack m).
Proof.
  intros Hm s. unfold onStack, zoom. specialize (Hm (StackMgr s)).
  destruct (m (StackMgr s)); cbn in *; by split_and!.
Qed.
Lemma quiet_putMem a m : quiet (putMem a m).
Proof. by intros s. Qed.
Lemma quiet_putGlob a g : quiet (putGlob a g).
Proof. by intros s. Qed.
Lemma quiet_onMem {A} a mem (op : M MemoryInstance A) : free op -> quiet (onMem a mem op).
Proof.
  intros Hop. unfold onMem. specialize (Hop mem). destruct (op mem) as [r mem'].
  apply quiet_bind; [apply quiet_putMem|intros x; by apply quiet_lift].
Qed.

#[local] Hint Resolve quiet_ret quiet_throw quiet_undef quiet_get quiet_putMem quiet_putGlob : free.

Ltac quiet_auto := repeat lazymatch goal with
  | |- quiet (bind _ _) => apply quiet_bind; [|intros ?]
  | |- quiet (deref _) => apply quiet_deref
  | |- quiet (try _) => apply quiet_try
  | |- quiet (lift _) => apply quiet_lift; by eauto with free
  | |- quiet (onStack _) => apply quiet_onStack; by (free_auto; eauto with free)
  | |- quiet (onMem _ _ _) => apply quiet_onMem; by eauto with free
  | |- quiet (match _ with _ => _ end) => case_match
  | |- _ => by eauto with free
  end.

Lemma quiet_currentModule : quiet currentModule.
Proof. unfold currentModule, getInstance. quiet_auto. Qed.
#[local] Hint Resolve quiet_currentModule : free.

Lemma quiet_getTabInstByIdx n : quiet (getTabInstByIdx n).
Proof. unfold getTabInstByIdx, getTabAddrByIdx, getInstance. quiet_auto. Qed.
Lemma quiet_getMemInstByIdx n : quiet (getMemInstByIdx n).
Proof. unfold getMemInstByIdx, getInstance. quiet_auto. Qed.
Lemma quiet_getGlobInstByIdx n : quiet (getGlobInstByIdx n).
Proof. unfold getGlobInstByIdx, getInstance. quiet_auto. Qed.
#[local] Hint Resolve quiet_getTabInstByIdx quiet_getMemInstByIdx quiet_getGlobInstByIdx : free.

Lemma quiet_executeMemory Code o : quiet (executeMemory Code o).
Proof. unfold executeMemory, runLoadOp, runStoreOp, runMemoryGrowOp, runMemorySizeOp. quiet_auto. Qed.
Lemma quiet_executeVariable Code n : quiet (executeVariable Code n).
Proof.
  unfold executeVariable, runLocalGetOp, runLocalSetOp, runLocalTeeOp, runGlobalGetOp, runGlobalSetOp.
  quiet_auto.
Qed.
Lemma quiet_executeParametric Code : quiet (executeParametric Code).
Proof. unfold executeParametric. quiet_auto. Qed.
Lemma quiet_executeUnary Code : quiet (executeUnary Code).
Proof.
  unfold executeUnary. apply quiet_onStack. destruct (unary_op Code) as [f|] eqn:E; [|by free_auto].
  apply free_bind; [eauto with free|intros v]. apply free_bind; [|eauto with free].
  apply free_lift. by eapply unary_op_fuel.
Qed.
Lemma quiet_executeBinary Code : quiet (executeBinary Code).
Proof.
  unfold executeBinary. apply quiet_onStack. apply free_bind; [eauto with free|intros v2].
  destruct (binary_op Code) as [f|] eqn:E; [|by free_auto].
  apply free_bind; [eauto with free|intros v]. apply free_bind; [|eauto with free].
  apply free_lift. by eapply binary_op_fuel.
Qed.

(** ** Spending *)

(** A measurement with the limit [L]: every opcode costs something, and no charge wraps
    around 64 bits. *)
Record metered (L : Z) (m : Measurement) : Prop := mk_metered {
  mt_size : 256 <= sizeZ (Runtime.CostTab m);
  mt_tab : Forall (fun c => 1 <= c /\ L + c < 2 ^ 64) (Runtime.CostTab m);
  mt_limit : CostLimit m = L;
  mt_sum : 0 <= CostSum m <= L }.

(** A host function returns, keeps the meter and gives nothing back. *)
Definition host_metered (L : Z) (h : HostFunc H) : Prop :=
  0 <= hfCost h /\ L + hfCost h < 2 ^ 64 /\
  forall stk mem m hs, metered L m ->
    let '(r, (_, _, mea, _)) := hfRun h stk mem (Some m) hs in
    r <> NoFuel /\ exists m', mea = Some m' /\ metered L m' /\ CostSum m <= CostSum m'.

Definition hosts_metered (L : Z) (fs : list (FunctionInstance H)) : Prop :=
  Forall (fun f => match f with HostFunctionInst h => host_metered L h | _ => True end) fs.

Record gas_state (L : Z) (s : Interpreter H) : Prop := mk_gas_state {
  gs_measure : exists m, Measure s = Some m /\ metered L m;
  gs_hosts : hosts_metered L (insts (Funcs (StoreMgr s))) }.

Definition spent (s : Interpreter H) : Z := match Measure s with Some m => CostSum m | None => 0 end.
Definition scopes (s : Interpreter H) : Z := sizeZ (Iters s).

(** At most [n] scopes more, and nothing given back. *)
Definition grows (n : Z) {A} (m : MI A) : Prop := forall L s, gas_state L s ->
  (m s).1 <> NoFuel /\ gas_state L (m s).2 /\ spent s <= spent (m s).2 /\
  scopes (m s).2 <= scopes s + n.

Lemma gas_bounds L s : gas_state L s -> 0 <= spent s <= L.
Proof. intros [(m & Hm & Hg) _]. unfold spent. rewrite Hm. apply Hg. Qed.

Lemma grows_quiet {A} (m : MI A) : quiet m -> grows 0 m.
Proof.
  intros Hq L s [(m0 & Hm & Hg) Hh]. destruct (Hq s) as (H1 & H2 & H3 & H4).
  unfold spent, scopes. rewrite H2, H4. split_and!; [done| |lia|lia].
  split; [exists m0; by rewrite H2|by rewrite H3].
Qed.

Lemma grows_bind a b {A B} (m : MI A) (k : A -> MI B) : grows a m -> 0 <= b -> (forall x, grows b (k x)) ->
  grows (a + b) (bind m k).
Proof.
  intros Hm Hb Hk L s Hs. unfold bind. destruct (Hm L s Hs) as (H1 & H2 & H3 & H4).
  destruct (m s) as [[x|e|u|] t]; cbn in *; try (split_and!; done || lia).
  destruct (Hk x L t H2) as (? & ? & ? & ?). split_and!; done || lia.
Qed.

Lemma grows_bind0 b {A B} (m : MI A) (k : A -> MI B) : quiet m -> 0 <= b -> (forall x, grows b (k x)) ->
  grows b (bind m k).
Proof. intros Hm Hb Hk. apply (grows_bind 0 b); [by apply grows_quiet|done..]. Qed.

Lemma grows_le a b {A} (m : MI A) : grows a m -> a <= b -> grows b m.
Proof. intros Hm Hab L s Hs. destruct (Hm L s Hs) as (? & ? & ? & ?). split_and!; done || lia. Qed.

Lemma addCost_spends L c m : metered L m -> 0 <= c -> L + c < 2 ^ 64 ->
  metered L (addCost c m).2 /\ CostSum m <= CostSum (addCost c m).2 /\
  ((addCost c m).1 = true -> CostSum (addCost c m).2 = CostSum m + c).
Proof.
  intros [H1 H2 H3 H4] Hc Hw. unfold addCost, wrap. rewrite Z.mod_small by lia.
  destruct (_ >? _) eqn:E; cbn; split_and!; try done; try lia; split; cbn; try done; lia.
Qed.

Lemma byte_of_OpCode_range Code : 0 <= byte_of_OpCode Code < 256.
Proof. by destruct Code. Qed.

Lemma chargeInstr_spends L Code s : gas_state L s ->
  (chargeInstr Code s).1 <> NoFuel /\ gas_state L (chargeInstr Code s).2 /\
  spent s <= spent (chargeInstr Code s).2 /\ Iters (chargeInstr Code s).2 = Iters s /\
  ((chargeInstr Code s).1 = Ok tt -> spent s + 1 <= spent (chargeInstr Code s).2).
Proof.
  intros [(m & Hm & Hg) Hh]. unfold chargeInstr, spent. rewrite Hm. unfold addInstrCost.
  pose proof (byte_of_OpCode_range Code) as Hb.
  destruct (atZ_is_Some (Runtime.CostTab m) (byte_of_OpCode Code)) as [c Hc].
  { pose proof (mt_size _ _ Hg). lia. }
  rewrite Hc. pose proof (mt_tab _ _ Hg) as Ht. rewrite list.Forall_forall in Ht.
  assert (1 <= c /\ L + c < 2 ^ 64) as [Hc1 Hc2].
  { apply Ht. unfold atZ in Hc. destruct (0 <=? _); [|done]. by eapply list_elem_of_lookup_2. }
  destruct (addCost_spends L c m Hg ltac:(lia) Hc2) as (Hm' & Hs & He).
  destruct (addCost c m) as [[|] m']; cbn in *; split_and!; try done;
    try (split; [by exists m'|done]). intros _. rewrite He by done. lia.
Qed.

Lemma grows_chargeInstr Code : grows 0 (chargeInstr Code).
Proof.
  intros L s Hs. destruct (chargeInstr_spends L Code s Hs) as (? & ? & ? & Hi & _).
  unfold scopes. rewrite Hi. split_and!; done || lia.
Qed.

Lemma countInstr_spends L Code s : gas_state L s ->
  (countInstr Code s).1 <> NoFuel /\ gas_state L (countInstr Code s).2 /\
  spent s <= spent (countInstr Code s).2 /\ Iters (countInstr Code s).2 = Iters s /\
  ((countInstr Code s).1 = Ok tt -> spent s + 1 <= spent (countInstr Code s).2).
Proof.
  intros [(m & Hm & Hg) Hh].
  assert (countInstr Code s = chargeInstr Code (set_Measure (Some (incInstrCnt m)) s)) as ->.
  { unfold countInstr. rewrite bind_get, Hm. done. }
  assert (gas_state L (set_Measure (Some (incInstrCnt m)) s)) as Hs.
  { split; [|done]. exists (incInstrCnt m). split; [done|]. by destruct Hg. }
  destruct (chargeInstr_spends L Code _ Hs) as (? & ? & ? & ? & ?).
  replace (spent s) with (spent (set_Measure (Some (incInstrCnt m)) s)); [done|].
  unfold spent. by rewrite Hm.
Qed.

(** ** Control *)

Lemma grows_enterBlock a tgt l : grows 1 (enterBlock a tgt l).
Proof.
  apply grows_bind0; [by apply quiet_onStack, free_modify|lia|intros x].
  intros L s Hs. unfold pushInstrs, modify, spent, scopes, sizeZ. cbn.
  split_and!; [done| |lia|lia]. by destruct Hs.
Qed.

Lemma gas_set_Iters L l s : gas_state L s -> gas_state L (set_Iters l s).
Proof. by intros []. Qed.

Lemma grows_popInstrs_n n : grows 0 (popInstrs_n n).
Proof.
  intros L s Hs. rewrite popInstrs_n_run. split_and!; [done|by apply gas_set_Iters|done|].
  unfold scopes, sizeZ. cbn. rewrite length_drop. lia.
Qed.

Lemma grows_pop1 : grows 0 (try popInstrs ;;; ret tt).
Proof.
  intros L s Hs. rewrite try_popInstrs. split_and!; [done|by apply gas_set_Iters|done|].
  unfold scopes, sizeZ. cbn. destruct (Iters s); cbn; lia.
Qed.

Lemma grows_leaveFunction : grows 0 leaveFunction.
Proof.
  apply grows_bind0; [apply quiet_onStack, free_popFrame|lia|intros n].
  apply (grows_bind 0 0); [apply grows_popInstrs_n|lia|intros x; apply grows_pop1].
Qed.

Lemma grows_runLoopOp i : grows 1 (runLoopOp i).
Proof.
  destruct i; try (apply grows_enterBlock).
  all: apply (grows_le 0); [apply grows_quiet, quiet_undef|lia].
Qed.

Lemma grows_branch n : grows 1 (branchToLabel runLoopOp n).
Proof.
  apply grows_bind0; [by apply quiet_onStack, free_getLabel|lia|intros L].
  apply grows_bind0; [by apply quiet_onStack, free_popLabel|lia|intros x].
  apply (grows_bind 0 1); [apply grows_popInstrs_n|lia|intros y].
  destruct (Target L); [apply grows_runLoopOp|].
  apply (grows_le 0); [apply grows_quiet, quiet_ret|lia].
Qed.

Lemma quiet_pop_u32 : quiet pop_u32.
Proof. unfold pop_u32. quiet_auto. Qed.

Lemma quiet_push_locals l : quiet (push_locals l).
Proof.
  induction l as [|x l IH]; [apply quiet_ret|]. apply quiet_bind; [|done].
  apply quiet_onStack, free_modify.
Qed.

Lemma quiet_call_target n : quiet (call_target n).
Proof. unfold call_target, getInstance. quiet_auto. Qed.
Lemma quiet_indirect_target n : quiet (indirect_target n).
Proof. unfold indirect_target, getInstance. quiet_auto. Qed.

(** A host call spends its cost and what the host function spends. *)
Lemma callHost_spends L h s : gas_state L s -> host_metered L h ->
  (callHost h s).1 <> NoFuel /\ gas_state L (callHost h s).2 /\
  spent s <= spent (callHost h s).2 /\ scopes (callHost h s).2 <= scopes s.
Proof.
  intros Hs (Hh1 & Hh2 & Hrun). unfold callHost.
  destruct (grows_quiet _ (quiet_getMemInstByIdx 0) L s Hs) as (H1 & H2 & H3 & H4).
  rewrite bind_eq. destruct (getMemInstByIdx 0 s) as [[am|e|u|] t]; cbn in H1, H2, H3, H4;
    try (cbn; split_and!; done || lia).
  rewrite bind_get. destruct H2 as [(m & Hm & Hg) Hho]. rewrite Hm.
  destruct (addCost_spends L (hfCost h) m Hg Hh1 Hh2) as (Hm1 & Hs1 & _).
  assert (spent t = CostSum m) as Hsp by (unfold spent; by rewrite Hm).
  destruct (addCost (hfCost h) m) as [[|] m1]; cbn [fst snd] in *.
  2: { unfold bind, modify, throw. cbn. unfold spent, scopes in *. cbn.
       split_and!; [done|split; [by exists m1|done]|cbn; lia|lia]. }
  match goal with |- context [bind (bind ?a ?b) ?k t] =>
    change (bind (bind a b) k t) with (k tt (set_Measure (Some m1) t)) end.
  cbn beta. rewrite bind_get. cbn [StackMgr Measure HostState set_Measure].
  specialize (Hrun (StackMgr t) am.2 m1 (HostState t) Hm1).
  destruct (hfRun _ _ _ _ _) as (r & ((stk & mem) & mea) & hs). destruct Hrun as (Hr & m2 & -> & Hm2 & Hs2).
  unfold bind, put, putMem, modify, lift.
  unfold scopes, spent in *. cbn. destruct r as [st|e|u|]; try done; [case_bool_decide|..]; cbn;
    (split_and!; [done|split; [by exists m2|done]|lia|lia]).
Qed.

Lemma enterFunction_spends L f s : gas_state L s -> f ∈ insts (Funcs (StoreMgr s)) ->
  (enterFunction f s).1 <> NoFuel /\ gas_state L (enterFunction f s).2 /\
  spent s <= spent (enterFunction f s).2 /\ scopes (enterFunction f s).2 <= scopes s + 2.
Proof.
  intros Hs Hf. destruct f as [ModA FT Ls I|h].
  - revert L s Hs Hf. assert (grows 2 (enterFunction (NativeFunction ModA FT Ls I))) as Hgr; [|by eauto].
    unfold enterFunction. apply grows_bind0; [apply quiet_onStack, free_modify|lia|intros x].
    apply grows_bind0; [apply quiet_push_locals|lia|intros y].
    apply (grows_bind 1 1); [|lia|intros z; apply grows_enterBlock].
    intros L s Hs. unfold pushInstrs, modify, spent, scopes, sizeZ. cbn.
    split_and!; [done|by destruct Hs|lia|lia].
  - pose proof (gs_hosts _ _ Hs) as Hh. unfold hosts_metered in Hh. rewrite list.Forall_forall in Hh.
    destruct (callHost_spends L h s Hs (Hh _ Hf)) as (? & ? & ? & ?). cbn. split_and!; done || lia.
Qed.

(** A call through the store. *)
Lemma grows_call (target : MI (FunctionInstance H)) : quiet target ->
  (forall s t f, target s = (Ok f, t) -> func_fine (StoreMgr t) f) ->
  grows 2 (let* f := target in enterFunction f).
Proof.
  intros Hq Hf L s Hs. rewrite bind_eq. destruct (grows_quiet _ Hq L s Hs) as (H1 & H2 & H3 & H4).
  destruct (target s) as [[f|e|u|] t] eqn:E; cbn in H1, H2, H3, H4; try (cbn; split_and!; done || lia).
  destruct (enterFunction_spends L f t H2 (Hf _ _ _ E)) as (? & ? & ? & ?). split_and!; done || lia.
Qed.

Lemma grows_ext n {A} (m m' : MI A) : (forall s, m s = m' s) -> grows n m' -> grows n m.
Proof. intros He Hm L s Hs. rewrite He. by apply Hm. Qed.

Lemma grows_quiet_le n {A} (m : MI A) : 0 <= n -> quiet m -> grows n m.
Proof. intros Hn Hm. apply (grows_le 0); [by apply grows_quiet|done]. Qed.

Lemma grows_executeInstr i : grows 2 (executeInstr i).
Proof.
  unfold executeInstr. destruct (dispatchInstruction _) as [cl|]; [|apply grows_quiet_le; [lia|apply quiet_throw]].
  destruct (bool_decide _); [apply grows_quiet_le; [lia|apply quiet_undef]|].
  destruct i as [Code| Code bt b| Code bt b1 b2| Code n| Code t n| Code n| | | |Code v| |].
  7-12: apply grows_quiet_le; [lia|]; first [apply quiet_executeParametric|apply quiet_executeVariable
    |apply quiet_executeMemory|apply quiet_executeUnary|apply quiet_executeBinary
    |apply quiet_onStack, free_push].
  all: destruct Code; try (apply grows_quiet_le; [lia|first [apply quiet_throw|apply quiet_ret]]).
  - apply (grows_le 0); [apply grows_leaveFunction|lia].
  - apply (grows_le 1); [apply grows_enterBlock|lia].
  - apply (grows_le 1); [apply grows_runLoopOp|lia].
  - eapply grows_ext; [apply runIfElseOp_cut|]. apply grows_bind0; [apply quiet_pop_u32|lia|intros x].
    cbv zeta. destruct (sizeZ _ =? 0); [apply grows_quiet_le; [lia|apply quiet_ret]|].
    apply (grows_bind 0 2); [apply grows_chargeInstr|lia|intros y].
    apply (grows_le 1); [apply grows_enterBlock|lia].
  - apply (grows_le 1); [apply grows_branch|lia].
  - eapply grows_ext; [apply runBrIfOp_cut|]. apply grows_bind0; [apply quiet_pop_u32|lia|intros x].
    destruct (negb _); [apply (grows_le 1); [apply grows_branch|lia]|].
    apply grows_quiet_le; [lia|apply quiet_ret].
  - eapply grows_ext; [apply runBrTableOp_cut|]. apply grows_bind0; [apply quiet_pop_u32|lia|intros x].
    apply (grows_le 1); [apply grows_branch|lia].
  - eapply grows_ext; [apply runCallOp_cut|]. apply grows_call; [apply quiet_call_target|].
    intros s t f. apply call_target_fine.
  - eapply grows_ext; [apply runCallIndirectOp_cut|]. apply grows_call; [apply quiet_indirect_target|].
    intros s t f. apply indirect_target_fine.
Qed.

(** ** The loop *)

(** Three scopes for every unit that is left. *)
Definition potential (L : Z) (s : Interpreter H) : Z := 3 * (L - spent s) + scopes s.

Lemma leaveBlock_pops (s s' : Interpreter H) : leaveBlock s = (Ok tt, s') ->
  Measure s' = Measure s /\ Funcs (StoreMgr s') = Funcs (StoreMgr s) /\ scopes s' = scopes s - 1.
Proof.
  intros E. apply bind_Ok_inv in E as ([] & t & E1 & E).
  destruct (quiet_onStack _ (free_popLabel 1) s) as (_ & H2 & H3 & H4). rewrite E1 in H2, H3, H4. cbn in *.
  unfold popInstrs in E. destruct (Iters t) eqn:Et; [done|]. injection E as <-. cbn.
  unfold scopes, sizeZ. cbn. rewrite <- H4. split_and!; [done..|cbn; lia].
Qed.

Lemma leaveFunction_pops (s s' : Interpreter H) : Iters s <> [] -> leaveFunction s = (Ok tt, s') ->
  Measure s' = Measure s /\ Funcs (StoreMgr s') = Funcs (StoreMgr s) /\ scopes s' <= scopes s - 1.
Proof.
  intros Hi E. apply bind_Ok_inv in E as (n & t & E1 & E).
  destruct (quiet_onStack _ free_popFrame s) as (_ & H2 & H3 & H4). rewrite E1 in H2, H3, H4. cbn in *.
  apply bind_Ok_inv in E as ([] & t1 & E2 & E). rewrite popInstrs_n_run in E2. injection E2 as <-.
  rewrite try_popInstrs in E. injection E as <-. cbn. split_and!; [done..|].
  unfold scopes, sizeZ. cbn. rewrite H4.
  destruct (drop _ (Iters s)) as [|x l] eqn:Ed; cbn.
  - destruct (Iters s); [done|cbn; lia].
  - apply (f_equal length) in Ed. rewrite length_drop in Ed. cbn in Ed. lia.
Qed.

Lemma step_decreases L s : gas_state L s -> Iters s <> [] ->
  (step s).1 <> NoFuel /\
  (forall s', step s = (Ok tt, s') -> gas_state L s' /\ potential L s' < potential L s).
Proof.
  intros Hs Hi. unfold step.
  assert (forall s', Measure s' = Measure s -> Funcs (StoreMgr s') = Funcs (StoreMgr s) ->
    scopes s' <= scopes s - 1 -> gas_state L s' /\ potential L s' < potential L s) as Hpop.
  { intros s' Hm Hf Hl. unfold potential, spent. rewrite Hm. split; [|lia].
    destruct Hs as [(m & ? & ?) Hh]. split; [exists m; by rewrite Hm|by rewrite Hf]. }
  rewrite bind_eq. unfold getNextInstr.
  destruct (Iters s) as [|[t [|i l]] r] eqn:Ei; [done| |].
  - rewrite bind_eq. unfold getTopScopeType, gets. rewrite Ei. cbn [ScType]. destruct t.
    + unfold popInstrs. rewrite Ei. split; [done|]. intros s' [= <-]. apply Hpop; try done.
      unfold scopes, sizeZ. rewrite Ei. cbn. lia.
    + split.
      * unfold leaveBlock. rewrite bind_eq. destruct (quiet_onStack _ (free_popLabel 1) s) as (H1 & _).
        destruct (onStack _ s) as [[] t]; try done. unfold popInstrs. by case_match.
      * intros s' E. apply leaveBlock_pops in E as (? & ? & ?). apply Hpop; try done. lia.
    + split; [by apply (grows_leaveFunction L s Hs)|].
      intros s' E. apply leaveFunction_pops in E as (? & ? & ?); [|by rewrite Ei].
      by apply Hpop.
  - set (s1 := set_Iters _ s). assert (gas_state L s1) as Hs1 by by apply gas_set_Iters.
    assert (spent s1 = spent s /\ scopes s1 = scopes s) as [Hsp Hsc].
    { split; [done|]. unfold scopes, sizeZ. rewrite Ei. done. }
    destruct (countInstr_spends L (getOpCode i) s1 Hs1) as (H1 & H2 & H3 & H4 & H5).
    rewrite bind_eq. destruct (countInstr (getOpCode i) s1) as [[[]|e|u|] s2]; cbn in H1, H2, H3, H4, H5;
      try (split; [done|by intros ?]).
    destruct (grows_executeInstr i L s2 H2) as (G1 & G2 & G3 & G4). split; [done|].
    intros s' E. rewrite E in G2, G3, G4. cbn in G2, G3, G4. split; [done|].
    specialize (H5 eq_refl). assert (scopes s2 = scopes s) as Hs2.
    { rewrite <- Hsc. unfold scopes. by rewrite H4. }
    unfold potential. lia.
Qed.

Lemma quiet_pop_n n : quiet (pop_n n).
Proof. induction n as [|n IH]; cbn [pop_n]; quiet_auto. Qed.

Lemma execute_terminates L fuel s : gas_state L s -> potential L s <= Z.of_nat fuel ->
  (execute fuel s).1 <> NoFuel.
Proof.
  revert s. induction fuel as [|fuel IH]; intros s Hs Hp; cbn [execute]; rewrite bind_get.
  - pose proof (gas_bounds _ _ Hs). unfold potential, scopes in Hp.
    assert (sizeZ (Iters s) = 0) as -> by (unfold sizeZ in *; lia). done.
  - destruct (sizeZ (Iters s) =? 0) eqn:E; [done|].
    assert (Iters s <> []) as Hi by (intros Hn; by rewrite Hn in E).
    destruct (step_decreases L s Hs Hi) as [Hn Hd]. rewrite bind_eq.
    destruct (step s) as [[[]|e|u|] s']; try done. destruct (Hd s' eq_refl). apply IH; [done|lia].
Qed.

(** A call of a function of the store, from outside. *)
Lemma runFunction_terminates L fuel f s : gas_state L s -> f ∈ insts (Funcs (StoreMgr s)) ->
  Iters s = [] -> 3 * (L - spent s) + 2 <= Z.of_nat fuel ->
  (runFunction fuel f s).1 <> NoFuel.
Proof.
  intros Hs Hf Hi Hfuel. unfold runFunction. rewrite bind_eq.
  destruct (enterFunction_spends L f s Hs Hf) as (H1 & H2 & H3 & H4).
  destruct (enterFunction f s) as [[[]|e|u|] t]; cbn in H1, H2, H3, H4; try done.
  assert (scopes s = 0) as Hs0 by (unfold scopes; by rewrite Hi).
  pose proof (execute_terminates L fuel t H2 ltac:(unfold potential; lia)) as Hx.
  unfold bind, try. destruct (execute fuel t) as [[[]|e|u|] t']; try done. by case_bool_decide.
Qed.

Lemma invoke_metered (L : Z) (fuel : nat) (Name : list Z) (Params_ : list ValVariant)
    (s : Interpreter H) :
  gas_state L s -> 3 * (L - spent s) + 2 <= Z.of_nat fuel ->
  (invoke fuel Name Params_ s).1 <> NoFuel.
Proof.
  intros Hs Hfuel.
  change (invoke fuel Name Params_ s) with (invoke_with (runFunction fuel) Name Params_ s).
  destruct (invoke_with_cases Name Params_ s) as [(r0 & Hr & H0)|(f & t & Hft & Hi & Hl & Hst & Hme & H0)];
    rewrite H0; [done|].
  assert (gas_state L t) as Ht.
  { destruct Hs as [(m & Hm & Hg) Hh]. split; [exists m; by rewrite Hme|by rewrite Hst]. }
  assert (spent t = spent s) as Hsp by (unfold spent; by rewrite Hme).
  pose proof (runFunction_terminates L fuel f t Ht Hft Hi ltac:(lia)) as Hr.
  rewrite bind_eq. destruct (runFunction fuel f t) as [[[]|e|u|] t']; try done.
  unfold results. rewrite bind_eq. destruct (quiet_pop_n (length (Returns (getFuncTypeOf f))) t') as (Hp & _).
  by destruct (pop_n _ t') as [[] ?].
Qed.

(** [C5] Metered execution terminates.  If every entry of the cost table is at least 1, no
    charge wraps around 64 bits and host functions return and give no cost back, a call of
    any exported function with any arguments ends after at most three iterations of the run
    loop for every unit of cost that is left, plus two: the call returns, traps, or runs
    into undefined behaviour, but never loops. *)
Theorem metered_invoke_terminates (L : Z) (fuel : nat) (Name : list Z) (Params_ : list ValVariant)
    (s : Interpreter H) :
  gas_state L s -> 3 * (L - spent s) + 2 <= Z.of_nat fuel ->
  (invoke fuel Name Params_ s).1 <> NoFuel.
Proof. apply invoke_metered. Qed.

End Fuel.

(** An endless loop under a limit of 20. *)
Definition spin_store : StoreManager unit :=
  mkStore
    (mkPool [mkModInst 0 [] [mkFType [] []] [0] [] [] [] [([109], 0)] [] [] [] None] 1 1)
    (mkPool [NativeFunction 0 (mkFType [] []) []
      [BlockControlInstruction Op_Loop VT_None [BrControlInstruction Op_Br 0]]] 1 1)
    empty_pool empty_pool empty_pool.

Definition spin_interp (cost limit : Z) : Interpreter unit :=
  mkInterp newStackManager [] (Some (newMeasurement (replicate 256 cost) limit)) spin_store tt
    Mode_Instantiate.

Lemma spin_gas_state : gas_state 20 (spin_interp 1 20).
Proof.
  split; [|repeat constructor]. eexists. split; [reflexivity|].
  split; [by vm_compute| |done|by vm_compute].
  change (Runtime.CostTab _) with (replicate 256 1). apply Forall_replicate. lia.
Qed.

Lemma metered_invoke_terminates_witness : (invoke 62 [109] [] (spin_interp 1 20)).1 <> NoFuel.
Proof. apply (metered_invoke_terminates 20); [apply spin_gas_state|vm_compute; discriminate]. Defined.

(** ** The default limit *)

Lemma addCost_max c m : CostLimit m = 2 ^ 64 - 1 ->
  addCost c m = (true, set_CostSum (wrap 64 (CostSum m + c)) m).
Proof.
  intros HL. unfold addCost. rewrite HL.
  pose proof (Z.mod_pos_bound (CostSum m + c) (2 ^ 64) ltac:(lia)) as Hb. unfold wrap.
  destruct (_ >? _) eqn:E; [lia|done].
Qed.

(** A meter with the maximal limit and a full table charges any instruction. *)
Definition max_meter (cost : Z) (m : Measurement) : Prop :=
  CostLimit m = 2 ^ 64 - 1 /\ Runtime.CostTab m = replicate 256 cost.

Lemma countInstr_max {H} cost Code (s : Interpreter H) m : Measure s = Some m -> max_meter cost m ->
  exists m', countInstr Code s = (Ok tt, set_Measure (Some m') s) /\ max_meter cost m'.
Proof.
  intros Hm [HL HT]. unfold countInstr. rewrite bind_get, Hm.
  rewrite (bind_Ok (modify _) _ _ tt (set_Measure (Some (incInstrCnt m)) s)) by done.
  unfold chargeInstr, addInstrCost. cbn [Measure set_Measure Runtime.CostTab incInstrCnt].
  rewrite HT. pose proof (byte_of_OpCode_range Code) as Hb.
  replace (atZ (replicate 256 cost) (byte_of_OpCode Code)) with (Some cost).
  2: { unfold atZ. rewrite (proj2 (Z.leb_le _ _)) by lia. symmetry.
       apply lookup_replicate. split; [done|lia]. }
  rewrite addCost_max by done. eexists. split; [by destruct s|done].
Qed.

(** The loop [loop br 0 end] in the body of a function without parameters. *)
Definition spin_loop : Instr := BlockControlInstruction Op_Loop VT_None [BrControlInstruction Op_Br 0].

Definition spinning (m : Measurement) : Interpreter unit :=
  mkInterp
    (mkStack [] [mkLabel 0 0 (Some spin_loop); mkLabel 0 0 None] [mkFrame 0 0 0 0])
    [mkScope Seq_Block [BrControlInstruction Op_Br 0]; mkScope Seq_Block []; mkScope Seq_FunctionCall []]
    (Some m) spin_store tt Mode_Instantiate.

Lemma getNextInstr_run {H} t i l its (s : Interpreter H) : Iters s = mkScope t (i :: l) :: its ->
  getNextInstr s = (Ok (Some i), set_Iters (mkScope t l :: its) s).
Proof. intros E. unfold getNextInstr. by rewrite E. Qed.

Lemma spinning_step cost m : max_meter cost m ->
  exists m', step (spinning m) = (Ok tt, spinning m') /\ max_meter cost m'.
Proof.
  intros Hm. unfold step.
  rewrite (bind_Ok _ _ _ _ _ (getNextInstr_run _ _ _ _ (spinning m) eq_refl)).
  match goal with |- context [bind (countInstr ?c) ?k ?s] =>
    destruct (countInstr_max cost c s m eq_refl Hm) as (m' & Hc & Hm') end.
  rewrite (bind_Ok _ _ _ _ _ Hc). exists m'. by split.
Qed.

Lemma spinning_runs cost fuel m : max_meter cost m -> (execute fuel (spinning m)).1 = NoFuel.
Proof.
  revert m. induction fuel as [|fuel IH]; intros m Hm; [done|].
  cbn [execute]. rewrite bind_get. destruct (spinning_step cost m Hm) as (m' & Hs & Hm').
  change (sizeZ (Iters (spinning m)) =? 0) with false. cbv iota.
  rewrite (bind_Ok _ _ _ _ _ Hs). by apply IH.
Qed.

(** The state when the body is entered. *)
Definition spin_entered (m : Measurement) : Interpreter unit :=
  mkInterp (mkStack [] [mkLabel 0 0 None] [mkFrame 0 0 0 0])
    [mkScope Seq_Block [spin_loop]; mkScope Seq_FunctionCall []] (Some m) spin_store tt Mode_Instantiate.

Lemma spin_entered_runs cost fuel m : max_meter cost m -> (execute fuel (spin_entered m)).1 = NoFuel.
Proof.
  intros Hm. destruct fuel as [|fuel]; [done|]. cbn [execute]. rewrite bind_get.
  change (sizeZ (Iters (spin_entered m)) =? 0) with false. cbv iota.
  unfold step. rewrite bind_assoc.
  rewrite (bind_Ok _ _ _ _ _ (getNextInstr_run _ _ _ _ (spin_entered m) eq_refl)), bind_assoc.
  match goal with |- context [bind (countInstr ?c) ?k ?s] =>
    destruct (countInstr_max cost c s m eq_refl Hm) as (m' & Hc & Hm') end.
  rewrite (bind_Ok _ _ _ _ _ Hc).
  erewrite (bind_Ok (executeInstr spin_loop) _ _ tt (spinning m')) by reflexivity.
  by apply (spinning_runs cost).
Qed.

(** The default limit stops nothing.  With the limit UINT64_MAX a [Measurement] starts
    with, [addCost] never reports that the limit is exceeded, since the 64-bit sum wraps
    around instead; so an endless loop runs on for any amount of fuel, whatever the cost of
    its instructions. *)
Theorem default_limit_never_exceeded (cost : Z) (fuel : nat) : in_u 64 cost ->
  (forall c m, CostLimit m = 2 ^ 64 - 1 -> (addCost c m).1 = true) /\
  (invoke fuel [109] [] (spin_interp cost (2 ^ 64 - 1))).1 = NoFuel.
Proof.
  intros Hc. split; [intros c m HL; by rewrite addCost_max|].
  assert (max_meter cost (newMeasurement (replicate 256 cost) (2 ^ 64 - 1))) as Hm by done.
  set (m := newMeasurement _ _) in *.
  pose proof (spin_entered_runs cost fuel m Hm) as Hx.
  assert (invoke fuel [109] [] (spin_interp cost (2 ^ 64 - 1)) =
    ((let* Res := try (execute fuel) in
      match Res with
      | inl _ => ret tt
      | inr e => if bool_decide (e = Terminated) then ret tt else throw e
      end) ;;; (let* r := pop_n 0 in ret (reverse r))) (spin_entered m)) as -> by reflexivity.
  rewrite bind_assoc, bind_eq. unfold try. by destruct (execute fuel (spin_entered m)) as [[] ?].
Qed.

Lemma default_limit_never_exceeded_witness :
  (invoke 1000 [109] [] (spin_interp 1 (2 ^ 64 - 1))).1 = NoFuel.
Proof. apply (default_limit_never_exceeded 1 1000). by vm_compute. Defined.
