(* ===== verification/EngineFacts.v ===== *)
(** * The engine against the validator, and accesses at the edges *)
From stdpp Require Import base list numbers option.
From Stdlib Require Import ZArith Lia.
From S2P Require Import Prelude Types Instruction AST Numeric NumericFacts Memory FormChecker.
From S2P Require Import StackMgr Runtime Interpreter EngineSpec EngineRefine EngineFuel.
#[local] Open Scope Z_scope.

(** ** Numeric instructions have the type the validator gives them *)

Definition vt (t : VType) : ValType :=
  match t with V_I32 => VT_I32 | V_I64 => VT_I64 | V_F32 => VT_F32 | V_F64 => VT_F64 | _ => VT_None end.

Definition good (t : ValType) (v : ValVariant) : Prop := val_ok v /\ has_type t v.

(** A value of the type, a trap, or one of the two known kinds of undefined behaviour. *)
Definition typed (t : ValType) (r : res ValVariant) : Prop :=
  match r with
  | Ok v => good t v
  | Err _ => True
  | Undef u => u = UB_shift \/ u = UB_cast
  | NoFuel => False
  end.

Lemma typed_retrieve t T v (k : Z -> res ValVariant) : has_type (ValTypeFromType T) v ->
  (forall a, typed t (k a)) -> typed t (rbind (retrieveValue T v) k).
Proof. intros Hv Hk. rewrite (retrieve_typed _ _ Hv). apply Hk. Qed.

Lemma typed_mkVariant t T x : t = ValTypeFromType T -> typed t (Ok (mkVariant T x)).
Proof. intros ->. split; [apply mkVariant_ok|by destruct T]. Qed.

Lemma typed_assign t T x v : t = ValTypeFromType T -> val_ok v -> typed t (Ok (assignValue T x v)).
Proof. intros -> Hv. split; [by apply assignValue_ok|by destruct T]. Qed.

Lemma typed_rbind {A} t (r : res A) (k : A -> res ValVariant) :
  match r with Undef u => u = UB_shift \/ u = UB_cast | NoFuel => False | _ => True end ->
  (forall a, typed t (k a)) -> typed t (rbind r k).
Proof. intros Hr Hk. destruct r; try done. apply Hk. Qed.

Lemma shl_T_typed T a n : match shl_T T a n with Undef u => u = UB_shift \/ u = UB_cast | NoFuel => False | _ => True end.
Proof. unfold shl_T. destruct (_ && _); auto. Qed.
Lemma shr_T_typed T a n : match shr_T T a n with Undef u => u = UB_shift \/ u = UB_cast | NoFuel => False | _ => True end.
Proof. unfold shr_T. destruct (_ && _); auto. Qed.

Create HintDb typed.
#[local] Hint Resolve typed_mkVariant typed_assign : typed.

Ltac typed_auto := repeat first
  [ by eauto with typed | exact I | by left | by right
  | apply typed_retrieve; [done|intros ?] | apply typed_rbind; [first [apply shl_T_typed|apply shr_T_typed]|intros ?]
  | case_match ].

Lemma counting_typed (w64 : bool) v : good (ValTypeFromType (utype w64)) v ->
  typed (ValTypeFromType (utype w64)) (runClzOp (utype w64) v) /\
  typed (ValTypeFromType (utype w64)) (runCtzOp (utype w64) v) /\
  typed (ValTypeFromType (utype w64)) (runPopcntOp (utype w64) v).
Proof.
  intros [Hv Ht]. assert (wide_enough w64 v = true) as Hw by (by destruct w64).
  rewrite (clz_correct _ _ Hw). destruct (ctz_correct _ _ Hw) as (k & -> & _).
  split_and!; [case_match; [by split|typed_auto]|typed_auto|].
  destruct (popcnt_correct _ _ Hw) as (v' & E & _). rewrite E. revert E. unfold runPopcntOp.
  rewrite (retrieve_typed _ _ Ht). cbn [rbind]. case_match; [|by intros [= <-]].
  destruct (popcnt_loop _ _ _ _ _) as [n| | |]; cbn; try done. intros [= <-]. apply (typed_mkVariant _ _ _ eq_refl).
Qed.

Lemma unary_f_typed t T f v : t = ValTypeFromType T -> good t v -> typed t (unary_f f T v).
Proof. intros -> [Hv Ht]. unfold unary_f. typed_auto. Qed.
Lemma compound_typed t T f v1 v2 : t = ValTypeFromType T -> good t v1 -> good t v2 ->
  typed t (compound f T v1 v2).
Proof. intros -> [Hv Ht] [Hv' Ht']. unfold compound. typed_auto. Qed.

Lemma runTruncateOp_typed t TIn TOut v : t = ValTypeFromType TOut -> good (ValTypeFromType TIn) v ->
  typed t (runTruncateOp TIn TOut v).
Proof. intros -> [Hv Ht]. unfold runTruncateOp. cbv zeta. typed_auto. Qed.

(** What the engine does for a unary instruction the validator gives the type [t1 -> t2]. *)
Lemma unary_typed Code f t1 t2 v : unary_type Code = Some ([t1], [t2]) -> unary_op Code = Some f ->
  good (vt t1) v -> typed (vt t2) (f v).
Proof.
  intros Ht Hf Hv.
  destruct Code; try discriminate Hf; injection Hf as <-; injection Ht as <- <-; cbn [vt] in *.
  all: try (apply unary_f_typed; done); try (apply runTruncateOp_typed; done).
  all: try (destruct (counting_typed false v Hv) as (? & ? & ?); assumption).
  all: try (destruct (counting_typed true v Hv) as (? & ? & ?); assumption).
  all: destruct Hv as [Hv Ht].
  all: unfold runEqzOp, runWrapOp, runExtendOp, runConvertOp, runDemoteOp, runPromoteOp, runReinterpretOp,
    bool_val; typed_auto.
Qed.

Lemma binary_typed Code f t1 t2 v1 v2 : binary_type Code = Some ([t1; t1], [t2]) -> binary_op Code = Some f ->
  good (vt t1) v1 -> good (vt t1) v2 -> typed (vt t2) (f v1 v2).
Proof.
  intros Ht Hf Hv1 Hv2.
  destruct Code; try discriminate Hf; injection Hf as <-; injection Ht as <- _ <-; cbn [vt] in *.
  all: try (apply compound_typed; done). all: destruct Hv1 as [Hv1 Ht1], Hv2 as [Hv2 Ht2].
  all: unfold runEqOp, runNeOp, runLtOp, runGtOp, runLeOp, runGeOp, runDivOp, runRemOp, runRotlOp, runRotrOp,
    runMinOp, bool_val; typed_auto.
Qed.

(** [C28] The engine runs what the validator types.  An opcode the validator accepts as a
    unary or binary numeric instruction has an operation in the engine, except [f32.trunc]
    and [f64.trunc]; on operands of the types the validator requires, the operation traps,
    runs into an undefined shift or conversion, or gives a value of the validator's result
    type. *)
Theorem numeric_typing_sound (Code : OpCode) (t1 t2 : VType) (v1 v2 : ValVariant) :
  good (vt t1) v1 -> good (vt t1) v2 ->
  (unary_type Code = Some ([t1], [t2]) ->
     (Code = F32__trunc \/ Code = F64__trunc) /\ unary_op Code = None \/
     exists f, unary_op Code = Some f /\ typed (vt t2) (f v1)) /\
  (binary_type Code = Some ([t1; t1], [t2]) ->
     exists f, binary_op Code = Some f /\ typed (vt t2) (f v1 v2)).
Proof.
  intros H1 H2. split; intros Ht.
  - destruct (unary_op Code) as [f|] eqn:E.
    + right. exists f. split; [done|]. by eapply unary_typed.
    + left. split; [|done]. destruct Code; try discriminate E; try discriminate Ht; auto.
  - destruct (binary_op Code) as [f|] eqn:E.
    + exists f. split; [done|]. by eapply binary_typed.
    + destruct Code; try discriminate E; discriminate Ht.
Qed.

Lemma numeric_typing_sound_witness :
  exists f, binary_op I64__add = Some f /\
    typed VT_I64 (f (mkVariant U64 (2 ^ 64 - 1)) (mkVariant U64 1)).
Proof.
  apply (numeric_typing_sound I64__add V_I64 V_I64 (mkVariant U64 (2 ^ 64 - 1)) (mkVariant U64 1));
    [split; by vm_compute|split; by vm_compute|reflexivity].
Defined.

(** ** Indirect calls *)

Section Calls.
Context {H : Type}.

(** Computations that leave the state alone. *)
Definition reads {A} (m : M (Interpreter H) A) : Prop := forall s, (m s).2 = s.

Lemma reads_bind {A B} (m : M (Interpreter H) A) (k : A -> M (Interpreter H) B) :
  reads m -> (forall a, reads (k a)) -> reads (bind m k).
Proof.
  intros Hm Hk s. specialize (Hm s). unfold bind. destruct (m s) as [[a|e|u|] t]; cbn in *; try done.
  subst t. apply Hk.
Qed.
Lemma reads_lookup {A} (f : Interpreter H -> res A) : reads (let* s := get in deref (lift (f s))).
Proof. intros s. rewrite bind_get. unfold deref, lift. by destruct (f s). Qed.
Lemma reads_currentModule : reads currentModule.
Proof.
  apply reads_bind; [|intros a; apply (reads_lookup (fun s => getInstance a (Mods (StoreMgr s))))].
  intros [[v l f] i me st h mo]. unfold onStack, zoom. cbn. by destruct f.
Qed.
Lemma reads_getTabInstByIdx n : reads (getTabInstByIdx n).
Proof.
  apply reads_bind; [|intros a; apply (reads_lookup (fun s => getInstance a (Tabs (StoreMgr s))))].
  apply reads_bind; [apply reads_currentModule|]. intros m s. unfold deref, lift. by destruct (get_at _ _).
Qed.

Lemma reads_Ok {A} (m : M (Interpreter H) A) s x t : reads m -> m s = (Ok x, t) -> t = s.
Proof. intros Hm E. specialize (Hm s). by rewrite E in Hm. Qed.

Lemma deref_lift_Ok {S A} (r : res A) (s t : S) x : deref (lift r) s = (Ok x, t) -> r = Ok x /\ t = s.
Proof. unfold deref, lift. destruct r; intros [=]; by subst. Qed.

Lemma pop_u32_store (s t : Interpreter H) x : pop_u32 s = (Ok x, t) -> StoreMgr t = StoreMgr s.
Proof.
  unfold pop_u32. intros E. apply bind_Ok_inv in E as (v & s1 & E1 & E). injection E as _ <-.
  unfold onStack, zoom in E1. destruct (Stack.pop _). by injection E1 as _ <-.
Qed.

(** The table of the module. *)
Lemma getTabInstByIdx_lookup n (s : Interpreter H) T m :
  getTabInstByIdx n s = (Ok T, s) -> currentModule s = (Ok m, s) ->
  exists a, get_at (TableAddrs m) n = Ok a /\ getInstance a (Tabs (StoreMgr s)) = Ok T.
Proof.
  intros E Hm. unfold getTabInstByIdx, getTabAddrByIdx in E.
  apply bind_Ok_inv in E as (a & s1 & E1 & E). rewrite (bind_Ok _ _ _ _ _ Hm) in E1.
  apply deref_lift_Ok in E1 as [E1 ->]. rewrite bind_get in E. apply deref_lift_Ok in E as [E _]. by exists a.
Qed.

Lemma call_indirect_entered (TypeIdx : Z) (s s' : Interpreter H) :
  runCallIndirectOp TypeIdx s = (Ok tt, s') ->
  exists t TabInst ModInst FT ta i a f,
    getTabInstByIdx 0 s = (Ok TabInst, s) /\ currentModule s = (Ok ModInst, s) /\
    get_at (TableAddrs ModInst) 0 = Ok ta /\ getInstance ta (Tabs (StoreMgr s)) = Ok TabInst /\
    get_at (FuncTypes ModInst) TypeIdx = Ok FT /\
    pop_u32 s = (Ok i, t) /\ atZ (FuncElem TabInst) i = Some a /\
    atZ (insts (Funcs (StoreMgr s))) a = Some f /\
    Params (getFuncTypeOf f) = Params FT /\ Returns (getFuncTypeOf f) = Returns FT /\
    enterFunction f t = (Ok tt, s').
Proof.
  intros E. unfold runCallIndirectOp in E.
  apply bind_Ok_inv in E as (TabInst & s1 & E1 & E). pose proof (reads_Ok _ _ _ _ (reads_getTabInstByIdx 0) E1); subst s1.
  apply bind_Ok_inv in E as (ModInst & s1 & E2 & E). pose proof (reads_Ok _ _ _ _ reads_currentModule E2); subst s1.
  apply bind_Ok_inv in E as (FT & s1 & E3 & E). apply deref_lift_Ok in E3 as [E3 ->].
  apply bind_Ok_inv in E as (v & s1 & E4 & E). apply bind_Ok_inv in E as (i & s2 & E5 & E).
  assert (pop_u32 s = (Ok i, s2)) as Ep by (unfold pop_u32; by rewrite (bind_Ok _ _ _ _ _ E4)).
  apply bind_Ok_inv in E as (a & s3 & E6 & E). injection E6 as E6 <-. rewrite bind_get in E.
  apply bind_Ok_inv in E as (f & s4 & E7 & E). apply deref_lift_Ok in E7 as [E7 ->].
  destruct (_ || _) eqn:Eb; [done|]. apply orb_false_iff in Eb as [Eb1 Eb2].
  apply bool_decide_eq_false, dec_stable in Eb1. apply bool_decide_eq_false, dec_stable in Eb2.
  destruct (getTabInstByIdx_lookup 0 s TabInst ModInst E1 E2) as (ta & Ht1 & Ht2).
  exists s2, TabInst, ModInst, FT, ta, i, a, f. rewrite (pop_u32_store _ _ _ Ep) in E7.
  unfold getElemAddr in E6. unfold getInstance, get_at in E7.
  destruct (atZ (FuncElem TabInst) i); simplify_eq. destruct (atZ (insts _) a); simplify_eq. done.
Qed.

(** [C31] An indirect call enters a function of the expected type.  If [call_indirect]
    succeeds, the operand is an index of the first table of the module, the table holds the
    address of a function of the store there, the parameters and results of that function
    are those of the type the instruction names, and the function was entered.  In a module with a
    table and the named type, with an operand on the stack, this is all it does: an index
    outside the table fails with AccessForbidMemory and a function of another type with
    TypeNotMatch, an address that is not in the store is undefined, and none of these
    three changes more than that the operand is popped; a function of the type is entered,
    and the instruction ends as that does. *)
Theorem call_indirect_type_safe (TypeIdx : Z) (s : Interpreter H) :
  (forall s', runCallIndirectOp TypeIdx s = (Ok tt, s') ->
   exists t TabInst ModInst FT ta i a f,
    getTabInstByIdx 0 s = (Ok TabInst, s) /\ currentModule s = (Ok ModInst, s) /\
    get_at (TableAddrs ModInst) 0 = Ok ta /\ getInstance ta (Tabs (StoreMgr s)) = Ok TabInst /\
    get_at (FuncTypes ModInst) TypeIdx = Ok FT /\
    pop_u32 s = (Ok i, t) /\ atZ (FuncElem TabInst) i = Some a /\
    atZ (insts (Funcs (StoreMgr s))) a = Some f /\
    Params (getFuncTypeOf f) = Params FT /\ Returns (getFuncTypeOf f) = Returns FT /\
    enterFunction f t = (Ok tt, s')) /\
  (forall t TabInst ModInst FT i,
    getTabInstByIdx 0 s = (Ok TabInst, s) -> currentModule s = (Ok ModInst, s) ->
    get_at (FuncTypes ModInst) TypeIdx = Ok FT -> pop_u32 s = (Ok i, t) ->
    runCallIndirectOp TypeIdx s =
      match atZ (FuncElem TabInst) i with
      | None => (Err AccessForbidMemory, t)
      | Some a =>
          match atZ (insts (Funcs (StoreMgr s))) a with
          | None => (Undef UB_deref, t)
          | Some f =>
              if bool_decide (Params (getFuncTypeOf f) = Params FT /\ Returns (getFuncTypeOf f) = Returns FT)
              then enterFunction f t else (Err TypeNotMatch, t)
          end
      end).
Proof.
  split; [apply call_indirect_entered|]. intros t TabInst ModInst FT i E1 E2 E3 E4.
  unfold runCallIndirectOp. rewrite (bind_Ok _ _ _ _ _ E1), (bind_Ok _ _ _ _ _ E2), bind_eq, E3.
  pose proof (pop_u32_store _ _ _ E4) as Hst. unfold pop_u32 in E4.
  apply bind_Ok_inv in E4 as (v & s1 & E5 & E6). unfold deref at 1, lift at 1.
  rewrite (bind_Ok _ _ _ _ _ E5), (bind_Ok _ _ _ _ _ E6), bind_eq. unfold lift at 1.
  unfold getElemAddr. destruct (atZ (FuncElem TabInst) i) as [a|]; [|done].
  rewrite bind_get, bind_eq, Hst. unfold deref, lift, getInstance, get_at.
  destruct (atZ (insts (Funcs (StoreMgr s))) a) as [f|]; [|done].
  set (Q := Params (getFuncTypeOf f) = Params FT /\ Returns (getFuncTypeOf f) = Returns FT).
  destruct (decide Q) as [Hd|Hd].
  - rewrite (bool_decide_eq_true_2 Q Hd). destruct Hd as [-> ->]. by rewrite !bool_decide_eq_false_2 by auto.
  - rewrite (bool_decide_eq_false_2 Q Hd). apply not_and_l in Hd as [Hd|Hd].
    + by rewrite (bool_decide_eq_true_2 (Params FT <> _)) by auto.
    + by rewrite (bool_decide_eq_true_2 (Returns FT <> _)), orb_true_r by auto.
Qed.

(** ** Host functions *)

(** A host function needs a memory.  A call of a host function whose calling module has
    no memory dereferences an error, whatever the function does, before its cost is charged
    and before it runs. *)
Theorem host_call_needs_memory (h : HostFunc H) (s : Interpreter H) (m : ModuleInstance) :
  currentModule s = (Ok m, s) -> MemAddrs m = [] ->
  enterFunction (HostFunctionInst h) s = (Undef UB_deref, s).
Proof.
  intros Hm Hn. unfold enterFunction, callHost, getMemInstByIdx.
  rewrite bind_eq, (bind_Ok _ _ _ _ _ Hm), Hn. done.
Qed.

(** ** Memory accesses *)

Lemma assign_over_u32 T x p q : assignValue T x (mkVariant U32 p) = assignValue T x (mkVariant U32 q).
Proof.
  assert (forall y, storage (mkVariant U32 y) - wrap 32 (storage (mkVariant U32 y)) = 0) as H0.
  { intros y. change (storage (mkVariant U32 y)) with (to_bits U32 y).
    rewrite wrap_small; [lia|apply (to_bits_range U32)]. }
  unfold assignValue. by rewrite !H0.
Qed.

Lemma loadValue_some T o l mem mem' : 0 < l -> loadValue T o l mem <> (Ok None, mem').
Proof.
  intros Hl. unfold loadValue. destruct (sizeof T <? l); [done|]. rewrite bind_eq.
  destruct (requireDataSize o l mem) as [[] m1]; try done. rewrite (proj2 (Z.ltb_lt _ _)) by lia.
  rewrite bind_get. destruct (is_floating T); rewrite bind_eq; unfold lift; by destruct (read_range _ _ _).
Qed.

(** A load with the operand [base] on top. *)
Lemma runLoadOp_run T w a mem Offset base vs (s : Interpreter H) : in_u 32 base ->
  values s = mkVariant U32 base :: vs ->
  runLoadOp T w a mem Offset s =
    (let* r := onMem a mem (loadValue T (wrap 32 (base + Offset)) (w / 8)) in
     match r with Some x => onStack (Stack.setTop (assignValue T x (mkVariant U32 base))) | None => ret tt end) s.
Proof.
  intros Hb Hv. unfold runLoadOp.
  assert (onStack Stack.getTop s = (Ok (mkVariant U32 base), s)) as Et.
  { unfold onStack, zoom, Stack.getTop. fold (values s). rewrite Hv. by destruct s. }
  rewrite (bind_Ok _ _ _ _ _ Et), bind_eq. unfold lift.
  rewrite retrieve_mkVariant.
  replace (of_bits U32 (to_bits U32 base)) with base; [done|].
  change (base = wrap 32 (wrap 32 base)). by rewrite !wrap_small by (by rewrite ?wrap_small).
Qed.

(** Effective addresses wrap.  A load whose address plus offset does not fit 32 bits
    does not trap: it has the outcome of a load at the sum modulo 2^32 with offset 0. *)
Theorem effective_address_wraps (T : CType) (w a base Offset : Z) (mem : MemoryInstance)
    (s t : Interpreter H) (vs : list ValVariant) :
  in_u 32 base -> 8 <= w -> values s = mkVariant U32 base :: vs ->
  runLoadOp T w a mem Offset s = (Ok tt, t) <->
  runLoadOp T w a mem 0
    (set_StackMgr (set_values (mkVariant U32 (wrap 32 (base + Offset)) :: vs) (StackMgr s)) s) = (Ok tt, t).
Proof.
  intros Hb Hw Hv. set (s' := set_StackMgr _ s).
  assert (in_u 32 (wrap 32 (base + Offset))) as Hb' by (apply Z.mod_pos_bound; lia).
  rewrite (runLoadOp_run T w a mem Offset base vs s Hb Hv),
    (runLoadOp_run T w a mem 0 (wrap 32 (base + Offset)) vs s' Hb' eq_refl).
  replace (wrap 32 (wrap 32 (base + Offset) + 0)) with (wrap 32 (base + Offset)).
  2: { unfold wrap. by rewrite Z.add_0_r, Z.mod_mod by lia. }
  rewrite !bind_eq. unfold onMem.
  assert (0 < w / 8) as Hl by (apply Z.div_str_pos; lia).
  pose proof (fun m => loadValue_some T (wrap 32 (base + Offset)) (w / 8) mem m Hl) as Hs.
  destruct (loadValue _ _ _ _) as [[[x|]|e|u|] mem']; [|by destruct (Hs mem')|done..].
  rewrite !bind_eq. unfold putMem, modify, lift, onStack, zoom, Stack.setTop.
  cbn [StackMgr set_StoreMgr set_StackMgr s']. fold (values s). rewrite Hv. cbn [ValueStack set_values].
  rewrite (assign_over_u32 T x base (wrap 32 (base + Offset))). done.
Qed.

End Calls.

(** ** Concrete states *)

Definition page_store : StoreManager unit :=
  mkStore
    (mkPool [mkModInst 0 [] [mkFType [] []] [0] [0] [] [] [] [] [] [] None] 1 1)
    (mkPool [NativeFunction 0 (mkFType [] []) [] []] 1 1)
    (mkPool [mkTable ET_FuncRef false 1 0 [0]] 1 1) empty_pool empty_pool.

Definition page_interp (vs : list ValVariant) : Interpreter unit :=
  mkInterp (mkStack vs [] [mkFrame 0 0 0 0]) [] None page_store tt Mode_Instantiate.

Definition noop_host : HostFunc unit :=
  mkHostFunc (mkFType [] []) 0 (fun stk mem mea hs => (Ok Success, (stk, mem, mea, hs))).

Lemma host_call_needs_memory_witness :
  enterFunction (HostFunctionInst noop_host) (page_interp []) = (Undef UB_deref, page_interp []).
Proof. eapply host_call_needs_memory; reflexivity. Defined.

Lemma call_indirect_type_safe_witness :
  (exists f, atZ (insts (Funcs page_store)) 0 = Some f /\ Params (getFuncTypeOf f) = []) /\
  runCallIndirectOp 0 (page_interp [mkVariant U32 7]) = (Err AccessForbidMemory, page_interp []).
Proof.
  split.
  - destruct (proj1 (call_indirect_type_safe 0 (page_interp [mkVariant U32 0]))
      (runCallIndirectOp 0 (page_interp [mkVariant U32 0])).2) as
      (t & TabInst & ModInst & FT & ta & i & a & f & H1 & H2 & _ & _ & H3 & H4 & H5 & H6 & H7 & H8 & H9);
      [vm_compute; reflexivity|].
    injection H1 as <-. injection H2 as <-. injection H3 as <-. injection H4 as <- _.
    injection H5 as <-. exists f. split; [exact H6|exact H7].
  - rewrite (proj2 (call_indirect_type_safe 0 (page_interp [mkVariant U32 7])) (page_interp [])
      (mkTable ET_FuncRef false 1 0 [0]) (mkModInst 0 [] [mkFType [] []] [0] [0] [] [] [] [] [] [] None)
      (mkFType [] []) 7); reflexivity.
Defined.

(** The byte at 0 of a one-page memory, read at 2^32 - 1 with offset 1. *)
Lemma effective_address_wraps_witness :
  exists t, runLoadOp U32 8 0 (mkMemory false 1 0 1 [42]) 1 (page_interp [mkVariant U32 (2 ^ 32 - 1)]) = (Ok tt, t) /\
    values t = [mkVariant U32 42].
Proof.
  eexists. split.
  - apply (effective_address_wraps U32 8 0 (2 ^ 32 - 1) 1 (mkMemory false 1 0 1 [42])
      (page_interp [mkVariant U32 (2 ^ 32 - 1)]) _ []); [by vm_compute|lia|reflexivity|].
    vm_compute. reflexivity.
  - reflexivity.
Defined.
