(* ===== verification/Instantiate.v ===== *)
(** * Instantiation: lib/interpreter/instantiate/*.cpp and the module entry points of
    lib/interpreter/interpreter.cpp

    [ModInst] is a pointer into the store: the model passes its address, reads the module
    there and writes it back. *)
From stdpp Require Import base list numbers option.
From Stdlib Require Import ZArith Lia.
From S2P Require Import Prelude Types Instruction AST Numeric Memory StackMgr Runtime.
From S2P Require Import Interpreter.
#[local] Open Scope Z_scope.

(** ** import.cpp *)

Definition isLimitMatched (HasMax1 : bool) (Min1 Max1 : Z) (HasMax2 : bool) (Min2 Max2 : Z) : bool :=
  if (Min1 <? Min2) || (negb HasMax1 && HasMax2) then false
  else if HasMax1 && HasMax2 && (Max1 >? Max2) then false
  else true.

Section Instantiate.
Context {H : Type}.
#[local] Abbreviation MI := (M (Interpreter H)).

(** Calls that change the store. *)
Definition onStore {A} (f : StoreManager H -> A * StoreManager H) : MI A := fun s =>
  let '(a, st) := f (StoreMgr s) in (Ok a, set_StoreMgr st s).
Definition store_reset : MI unit := fun s =>
  match resetStore false (StoreMgr s) with
  | Ok st => (Ok tt, set_StoreMgr st s)
  | Err e => (Err e, s) | Undef u => (Undef u, s) | NoFuel => (NoFuel, s)
  end.
Definition store_popModule : MI unit := fun s =>
  match popModule (StoreMgr s) with
  | Ok st => (Ok tt, set_StoreMgr st s)
  | Err e => (Err e, s) | Undef u => (Undef u, s) | NoFuel => (NoFuel, s)
  end.

(** [ *ModInst] and an assignment to its members. *)
Definition getMod (ModInst : Z) : MI (ModuleInstance) :=
  let* s := get in deref (lift (getInstance ModInst (Mods (StoreMgr s)))).
Definition putMod (ModInst : Z) (m : ModuleInstance) : MI unit := modify (fun s =>
  set_StoreMgr (set_Mods (pool_update ModInst m (Mods (StoreMgr s))) (StoreMgr s)) s).
Definition updMod (ModInst : Z) (f : ModuleInstance -> res ModuleInstance) : MI unit :=
  let* m := getMod ModInst in
  let* m' := lift (f m) in
  putMod ModInst m'.

(** [if (InsMode == Instantiate) StoreMgr.pushX(New) else StoreMgr.importX(New)] *)
Definition addInst {A} (getter : StoreManager H -> pool A)
    (setter : pool A -> StoreManager H -> StoreManager H) (x : A) : MI Z :=
  let* s := get in
  onStore (fun st =>
    let '(a, p) := match InsMode s with
                   | Mode_Instantiate => pool_push x (getter st)
                   | Mode_ImportWasm => pool_import x (getter st)
                   end in (a, setter p st)).

(** The lookups of one import: the exported address, or WrongInstanceAddress. *)
Definition find_export (ExtName : list Z) (exports : smap Z) : MI Z :=
  match map_find ExtName exports with
  | Some TargetAddr => ret TargetAddr
  | None => throw WrongInstanceAddress
  end.

Definition instantiateImport (ModInst : Z) (ImpDesc : ImportDesc) : MI unit :=
  let* s := get in
  let* TargetModInst := lift (findModule (ModName ImpDesc) (StoreMgr s)) in
  match ImpExtType ImpDesc with
  | Ext_Function =>
      let* TargetAddr := find_export (ImpExtName ImpDesc) (ExpFuncs TargetModInst) in
      let* TypeIdx := lift (getContentFunction ImpDesc) in
      let* TargetInst := deref (lift (getInstance TargetAddr (Funcs (StoreMgr s)))) in
      let TargetType := getFuncTypeOf TargetInst in
      let* m := getMod ModInst in
      let* FuncType := lift (get_at (FuncTypes m) TypeIdx) in
      if bool_decide (Params TargetType <> Params FuncType) ||
         bool_decide (Returns TargetType <> Returns FuncType)
      then throw ImportNotMatch
      else updMod ModInst (fun m => Ok (addFuncAddr TargetAddr m))
  | Ext_Table =>
      let* TargetAddr := find_export (ImpExtName ImpDesc) (ExpTables TargetModInst) in
      let* TabType_ := lift (getContentTable ImpDesc) in
      let* TargetInst := deref (lift (getInstance TargetAddr (Tabs (StoreMgr s)))) in
      let TabLim := Table TabType_ in
      if bool_decide (TabType TargetInst <> TabElemType TabType_) ||
         negb (isLimitMatched (HasMaxSize TargetInst) (MinSize TargetInst) (MaxSize TargetInst)
                 (hasMax TabLim) (Min TabLim) (Max TabLim))
      then throw ImportNotMatch
      else updMod ModInst (fun m => Ok (addTableAddr TargetAddr m))
  | Ext_Memory =>
      let* TargetAddr := find_export (ImpExtName ImpDesc) (ExpMems TargetModInst) in
      let* MemType := lift (getContentMemory ImpDesc) in
      let* TargetInst := deref (lift (getInstance TargetAddr (Mems (StoreMgr s)))) in
      let MemLim := Memory MemType in
      if negb (isLimitMatched (HasMaxPage TargetInst) (MinPage TargetInst) (MaxPage TargetInst)
                 (hasMax MemLim) (Min MemLim) (Max MemLim))
      then throw ImportNotMatch
      else updMod ModInst (fun m => Ok (addMemAddr TargetAddr m))
  | Ext_Global =>
      let* TargetAddr := find_export (ImpExtName ImpDesc) (ExpGlobals TargetModInst) in
      let* GlobType := lift (getContentGlobal ImpDesc) in
      let* TargetInst := deref (lift (getInstance TargetAddr (Globs (StoreMgr s)))) in
      if bool_decide (GType TargetInst <> GlobValType GlobType) ||
         bool_decide (GMut TargetInst <> GlobMut GlobType)
      then throw ImportNotMatch
      else updMod ModInst (fun m => Ok (addGlobalAddr TargetAddr m))
  end.

Definition instantiateImports (ModInst : Z) (ImportSec : list ImportDesc) : MI unit :=
  mapM_ (instantiateImport ModInst) ImportSec.

(** ** function.cpp *)

(** [TypeIdxs[I]] for every code segment: undefined when there are fewer type indices. *)
Fixpoint instantiateFunctions (ModInst : Z) (TypeIdxs : list Z) (CodeSegs : list CodeSegment) : MI unit :=
  match CodeSegs with
  | [] => ret tt
  | Seg :: CodeSegs' =>
      match TypeIdxs with
      | [] => undef UB_vector
      | TypeIdx :: TypeIdxs' =>
          let* m := getMod ModInst in
          let* FuncType := deref (lift (get_at (FuncTypes m) TypeIdx)) in
          let* NewFuncInst := lift (newNativeFunction (miAddr m) FuncType (CodeLocals Seg) (CodeExpr Seg)) in
          let* NewFuncInstAddr := addInst Funcs set_Funcs NewFuncInst in
          updMod ModInst (fun m => Ok (addFuncAddr NewFuncInstAddr m)) ;;;
          instantiateFunctions ModInst TypeIdxs' CodeSegs'
      end
  end.

(** ** global.cpp *)

Definition instantiateGlobal (fuel : nat) (ModInst : Z) (GlobSeg : GlobalSegment) : MI unit :=
  let NewGlobInst := newGlobal (GlobValType (Global GlobSeg)) (GlobMut (Global GlobSeg)) in
  runExpression fuel (GlobExpr GlobSeg) ;;;
  let* v := onStack Stack.pop in
  let* NewGlobInstAddr := addInst Globs set_Globs (set_GValue v NewGlobInst) in
  updMod ModInst (fun m => Ok (addGlobalAddr NewGlobInstAddr m)).

(** A temporary module with the imported globals is pushed for the initialisers. *)
Definition instantiateGlobals (fuel : nat) (ModInst : Z) (GlobSec : list GlobalSegment) : MI unit :=
  let* m := getMod ModInst in
  let TmpMod := fold_left (fun t a => addGlobalAddr a t) (GlobalAddrs m) (newModuleInstance []) in
  let* TmpModInstAddr := onStore (pushModule TmpMod) in
  onStack (Stack.pushFrame TmpModInstAddr 0 0) ;;;
  mapM_ (instantiateGlobal fuel ModInst) GlobSec ;;;
  onStack Stack.popFrame ;;;
  store_popModule.

(** ** table.cpp, memory.cpp *)

Definition instantiateTables (ModInst : Z) (TabSec : list TableType) : MI unit :=
  mapM_ (fun TabType_ =>
    let* a := addInst Tabs set_Tabs (newTable (TabElemType TabType_) (Table TabType_)) in
    updMod ModInst (fun m => Ok (addTableAddr a m))) TabSec.

Definition instantiateMemories (ModInst : Z) (MemSec : list MemoryType) : MI unit :=
  mapM_ (fun MemType =>
    let* a := addInst Mems set_Mems (newMemory (Memory MemType)) in
    updMod ModInst (fun m => Ok (addMemAddr a m))) MemSec.

(** ** elem.cpp, data.cpp *)

Fixpoint func_addrs (m : ModuleInstance) (FuncIdxList : list Z) : MI (list Z) :=
  match FuncIdxList with
  | [] => ret []
  | Idx :: l =>
      let* FuncAddr := deref (lift (get_at (FuncAddrs m) Idx)) in
      let* r := func_addrs m l in
      ret (FuncAddr :: r)
  end.

Definition putTab (a : Z) (t : TableInstance) : MI unit := modify (fun s =>
  set_StoreMgr (set_Tabs (pool_update a t (Tabs (StoreMgr s))) (StoreMgr s)) s).

Definition instantiateElem (fuel : nat) (ModInst : Z) (ElemSeg : ElementSegment) : MI unit :=
  runExpression fuel (ElemExpr ElemSeg) ;;;
  let* PopVal := onStack Stack.pop in
  let* Offset := lift (retrieveValue U32 PopVal) in
  let* m := getMod ModInst in
  let* TabAddr := deref (lift (get_at (TableAddrs m) (TableIdx ElemSeg))) in
  let* s := get in
  let* TabInst := deref (lift (getInstance TabAddr (Tabs (StoreMgr s)))) in
  let* FuncIdxList := func_addrs m (FuncIdxes ElemSeg) in
  let '(r, TabInst') := setInitList Offset FuncIdxList TabInst in
  putTab TabAddr TabInst' ;;; lift r.

Definition instantiateData (fuel : nat) (ModInst : Z) (DataSeg : DataSegment) : MI unit :=
  runExpression fuel (DataExpr DataSeg) ;;;
  let* PopVal := onStack Stack.pop in
  let* Offset := lift (retrieveValue U32 PopVal) in
  let* m := getMod ModInst in
  let* MemAddr := deref (lift (get_at (MemAddrs m) (MemoryIdx DataSeg))) in
  let* s := get in
  let* MemInst := deref (lift (getInstance MemAddr (Mems (StoreMgr s)))) in
  onMem MemAddr MemInst
    (setBytes (DataBytes DataSeg) Offset 0 (wrap 32 (sizeZ (DataBytes DataSeg)))).

(** ** export.cpp *)

Definition instantiateExport (ModInst : Z) (ExpDesc : ExportDesc) : MI unit :=
  let ExtName := ExpExtName ExpDesc in
  updMod ModInst
    (match ExpExtType ExpDesc with
     | Ext_Function => exportFuncion ExtName (ExtIdx ExpDesc)
     | Ext_Global => exportGlobal ExtName (ExtIdx ExpDesc)
     | Ext_Memory => exportMemory ExtName (ExtIdx ExpDesc)
     | Ext_Table => exportTable ExtName (ExtIdx ExpDesc)
     end).

(** ** module.cpp *)

(** [if (Sec != nullptr) { if (auto Res = instantiate(...); !Res) return Unexpect(Res); }] *)
Definition on_section {A} (Sec : option A) (f : A -> MI unit) : MI unit :=
  match Sec with Some c => f c | None => ret tt end.

Definition instantiate (fuel : nat) (Mod : AModule) (Name : list Z) : MI unit :=
  let* s := get in
  match findModule Name (StoreMgr s) with
  | Ok _ => throw ModuleNameConflict
  | Undef u => undef u
  | NoFuel => nofuel
  | Err _ =>
      let NewModInst := newModuleInstance Name in
      store_reset ;;;
      onStack Stack.reset ;;;
      modify (set_Iters []) ;;;
      let* ModInst := onStore (fun st =>
        match InsMode s with
        | Mode_Instantiate => pushModule NewModInst st
        | Mode_ImportWasm => importModule NewModInst st
        end) in
      on_section (TypeSec Mod) (mapM_ (fun FuncType =>
        updMod ModInst (fun m => Ok (addFuncType
          (mkFType (ParamTypes FuncType) (ReturnTypes FuncType)) m)))) ;;;
      on_section (ImportSec Mod) (instantiateImports ModInst) ;;;
      match FunctionSec Mod, CodeSec Mod with
      | Some FuncSec, Some CodeSec => instantiateFunctions ModInst FuncSec CodeSec
      | _, _ => ret tt
      end ;;;
      on_section (GlobalSec Mod) (instantiateGlobals fuel ModInst) ;;;
      on_section (TableSec Mod) (instantiateTables ModInst) ;;;
      on_section (MemorySec Mod) (instantiateMemories ModInst) ;;;
      let* m := getMod ModInst in
      onStack (Stack.pushFrame (miAddr m) 0 0) ;;;
      on_section (ElementSec Mod) (mapM_ (instantiateElem fuel ModInst)) ;;;
      on_section (DataSec Mod) (mapM_ (instantiateData fuel ModInst)) ;;;
      onStack Stack.popFrame ;;;
      on_section (ExportSec Mod) (mapM_ (instantiateExport ModInst)) ;;;
      on_section (StartSec Mod) (fun StartIdx =>
        updMod ModInst (setStartIdx StartIdx) ;;;
        let* m := getMod ModInst in
        match StartAddr m with
        | None => undef UB_deref
        | Some Addr =>
            let* s := get in
            let* FuncInst := deref (lift (getInstance Addr (Funcs (StoreMgr s)))) in
            runFunction fuel FuncInst
        end)
  end.

(** ** interpreter.cpp *)

Definition instantiateModule (fuel : nat) (Mod : AModule) (Name : list Z) : MI unit :=
  modify (set_InsMode Mode_Instantiate) ;;; instantiate fuel Mod Name.

(** The overload for Wasm modules. *)
Definition registerWasmModule (fuel : nat) (Mod : AModule) (Name : list Z) : MI unit :=
  modify (set_InsMode Mode_ImportWasm) ;;; instantiate fuel Mod Name.

(** One loop of the overload for host modules: [getFuncNum() - 1] is the address just added. *)
Definition registerHostInst {A} (getter : StoreManager H -> pool A)
    (setter : pool A -> StoreManager H -> StoreManager H)
    (addAddr : Z -> ModuleInstance -> ModuleInstance) (addrs : ModuleInstance -> list Z)
    (exp : list Z -> Z -> ModuleInstance -> res ModuleInstance)
    (ModInst : Z) (kv : list Z * A) : MI unit :=
  let* Addr := onStore (fun st =>
    let '(a, p) := pool_import_host kv.2 (getter st) in (a, setter p st)) in
  updMod ModInst (fun m => Ok (addAddr Addr m)) ;;;
  updMod ModInst (fun m => exp kv.1 (wrap 32 (sizeZ (addrs m) - 1)) m).

(** The overload for host modules. *)
Definition registerHostModule (Obj : ImportObject H) : MI unit :=
  store_reset ;;;
  let* s := get in
  match findModule (ioName Obj) (StoreMgr s) with
  | Ok _ => throw ModuleNameConflict
  | Undef u => undef u
  | NoFuel => nofuel
  | Err _ =>
      let* ModInst := onStore (importModule (newModuleInstance (ioName Obj))) in
      mapM_ (registerHostInst Funcs set_Funcs addFuncAddr FuncAddrs exportFuncion ModInst) (ioFuncs Obj) ;;;
      mapM_ (registerHostInst Tabs set_Tabs addTableAddr TableAddrs exportTable ModInst) (ioTabs Obj) ;;;
      mapM_ (registerHostInst Mems set_Mems addMemAddr MemAddrs exportMemory ModInst) (ioMems Obj) ;;;
      mapM_ (registerHostInst Globs set_Globs addGlobalAddr GlobalAddrs exportGlobal ModInst) (ioGlobs Obj)
  end.

End Instantiate.
