(* ===== verification/StoreFacts.v ===== *)
(** * The store under execution and instantiation

    What no operation can break: the bookkeeping of the five pools, on which [reset] and
    [popModule] rely, the names of the registered modules, and any property of the functions
    that native functions and the registered host functions have. *)
From stdpp Require Import base list numbers option.
From Stdlib Require Import ZArith Lia.
From S2P Require Import Prelude Types Instruction AST Numeric Memory StackMgr Runtime.
From S2P Require Import Interpreter Instantiate.
#[local] Open Scope Z_scope.

Create HintDb keep.

(** ** Pools *)

(** The instances of the instantiated module are owned, the owned ones are there. *)
Record pool_ok {A} (p : pool A) : Prop := mk_pool_ok {
  po_num : 0 <= num p;
  po_owned : num p <= owned p;
  po_size : owned p <= sizeZ (insts p) }.

Lemma pool_reset_ok {A} (p : pool A) : pool_ok p ->
  exists p', pool_reset p = Ok p' /\ pool_ok p' /\ num p' = 0 /\
    insts p' = take (Z.to_nat (sizeZ (insts p) - num p)) (insts p).
Proof.
  intros [H1 H2 H3]. unfold pool_reset.
  rewrite !(proj2 (Z.leb_le _ _)) by lia. cbn. eexists. split_and!; [done| |done|done].
  split; cbn; try lia. unfold sizeZ in *. rewrite length_take. lia.
Qed.

Lemma pool_ok_push {A} (x : A) p : pool_ok p -> pool_ok (pool_push x p).2.
Proof.
  intros [H1 H2 H3]. unfold sizeZ in *.
  pose proof (Z.mod_le (num p + 1) (2 ^ 32) ltac:(lia) ltac:(lia)).
  pose proof (Z.mod_pos_bound (num p + 1) (2 ^ 32) ltac:(lia)).
  split; cbn; unfold wrap, sizeZ; rewrite ?length_app; cbn; lia.
Qed.
Lemma pool_ok_import {A} (x : A) p : pool_ok p -> pool_ok (pool_import x p).2.
Proof. intros [H1 H2 H3]. unfold sizeZ in *. split; cbn; unfold sizeZ; rewrite ?length_app; cbn; lia. Qed.
Lemma pool_ok_import_host {A} (x : A) p : pool_ok p -> pool_ok (pool_import_host x p).2.
Proof. intros [H1 H2 H3]. unfold sizeZ in *. split; cbn; unfold sizeZ; rewrite ?length_app; cbn; lia. Qed.
Lemma pool_ok_update {A} a (x : A) p : pool_ok p -> pool_ok (pool_update a x p).
Proof.
  intros [H1 H2 H3]. unfold pool_update, setZ, sizeZ in *. split; cbn; unfold sizeZ; rewrite ?length_insert; lia.
Qed.
Lemma pool_ok_empty {A} : pool_ok (empty_pool (A := A)).
Proof. by split. Qed.

Section Store.
Context {H : Type}.
#[local] Abbreviation MI := (M (Interpreter H)).

(** A property of functions that is asked of host functions only. *)
Definition natives_ok (P : FunctionInstance H -> Prop) : Prop :=
  forall a t l i, P (NativeFunction a t l i).
Definition object_ok (P : FunctionInstance H -> Prop) (Obj : ImportObject H) : Prop :=
  Forall (fun kv => P kv.2) (ioFuncs Obj).

Context (P : FunctionInstance H -> Prop).

Record store_ok (st : StoreManager H) : Prop := mk_store_ok {
  so_mods : pool_ok (Mods st);
  so_funcs : pool_ok (Funcs st);
  so_tabs : pool_ok (Tabs st);
  so_mems : pool_ok (Mems st);
  so_globs : pool_ok (Globs st);
  so_insts : Forall P (insts (Funcs st)) }.

(** The names of the modules and how many of them belong to the instantiated module. *)
Definition mods_of (st : StoreManager H) : list (list Z) * Z * Z :=
  (miName <$> insts (Mods st), owned (Mods st), num (Mods st)).

(** The names of the modules that stay when the store is reset. *)
Definition base_names (st : StoreManager H) : list (list Z) :=
  take (Z.to_nat (sizeZ (insts (Mods st)) - num (Mods st))) (miName <$> insts (Mods st)).

Lemma base_names_reset (st : StoreManager H) (l : list ModuleInstance) :
  l = take (Z.to_nat (sizeZ (insts (Mods st)) - num (Mods st))) (insts (Mods st)) ->
  miName <$> l = base_names st.
Proof. intros ->. apply fmap_take. Qed.

Lemma base_names_all (st : StoreManager H) : num (Mods st) = 0 ->
  base_names st = miName <$> insts (Mods st).
Proof.
  intros Hn. unfold base_names. rewrite Hn. apply take_ge. unfold sizeZ. rewrite length_fmap. lia.
Qed.

(** One more module that belongs to the instantiated one. *)
Lemma base_names_push (st st' : StoreManager H) n : pool_ok (Mods st) ->
  miName <$> insts (Mods st') = (miName <$> insts (Mods st)) ++ [n] ->
  num (Mods st') = num (Mods st) + 1 -> base_names st' = base_names st.
Proof.
  intros [H1 H2 H3] Hi Hn. unfold base_names, sizeZ in *. rewrite Hi, Hn.
  apply (f_equal length) in Hi. rewrite length_app, !length_fmap in Hi. cbn in Hi.
  rewrite take_app_le by (rewrite length_fmap; lia). f_equal. lia.
Qed.

Lemma base_names_eq (st st' : StoreManager H) : mods_of st' = mods_of st -> base_names st' = base_names st.
Proof.
  unfold mods_of, base_names. intros [= Hi _ Hn]. rewrite Hi, Hn. unfold sizeZ.
  apply (f_equal length) in Hi. rewrite !length_fmap in Hi. by rewrite Hi.
Qed.

Lemma resetStore_ok st : store_ok st ->
  exists st', resetStore false st = Ok st' /\ store_ok st' /\ num (Mods st') = 0 /\
    insts (Mods st') = take (Z.to_nat (sizeZ (insts (Mods st)) - num (Mods st))) (insts (Mods st)).
Proof.
  intros [H1 H2 H3 H4 H5 H6]. unfold resetStore.
  destruct (pool_reset_ok _ H1) as (p1 & -> & ? & ? & ?), (pool_reset_ok _ H2) as (p2 & -> & ? & _ & Hi),
    (pool_reset_ok _ H3) as (p3 & -> & ? & _), (pool_reset_ok _ H4) as (p4 & -> & ? & _),
    (pool_reset_ok _ H5) as (p5 & -> & ? & _). cbn. eexists. split_and!; [done| |done|done].
  split; try done. cbn. rewrite Hi. by apply Forall_take.
Qed.

(** ** Execution leaves the modules alone *)

(** A property of the measurement that charging keeps, and that the host functions keep. *)
Context (G : option Measurement -> Prop).

Record meter_laws : Prop := mk_meter_laws {
  ml_cost : forall c m, G (Some m) -> G (Some (addCost c m).2);
  ml_count : forall m, G (Some m) -> G (Some (incInstrCnt m));
  ml_host : forall h stk mem mea hs, P (HostFunctionInst h) -> G mea ->
    G (hfRun h stk mem mea hs).2.1.2;
  ml_native : natives_ok P }.

Context (HL : meter_laws).

Record sinv (s : Interpreter H) : Prop := mk_sinv {
  si_store : store_ok (StoreMgr s);
  si_meter : G (Measure s) }.

Definition keeps {A} (m : MI A) : Prop := forall s, sinv s ->
  sinv (m s).2 /\ Mods (StoreMgr (m s).2) = Mods (StoreMgr s).

Lemma keeps_bind {A B} (m : MI A) (k : A -> MI B) : keeps m -> (forall a, keeps (k a)) -> keeps (bind m k).
Proof.
  intros Hm Hk s Hs. unfold bind. destruct (Hm s Hs) as (H1 & H2).
  destruct (m s) as [[a|e|u|] t]; cbn in *; try done.
  destruct (Hk a t H1) as (H3 & H4). split; [done|]. by rewrite H4, H2.
Qed.
(** What is read from the state is in order, and so is a function of the store. *)
Lemma keeps_bind_get {A} (k : Interpreter H -> MI A) : (forall s, sinv s -> keeps (k s)) -> keeps (bind get k).
Proof. intros Hk s Hs. rewrite bind_get. by apply Hk. Qed.
Lemma keeps_func {A} a p (k : FunctionInstance H -> MI A) : Forall P (insts p) ->
  (forall f, P f -> keeps (k f)) -> keeps (bind (deref (lift (getInstance a p))) k).
Proof.
  intros Hp Hk s Hs. rewrite bind_eq. unfold deref, lift, getInstance, get_at, atZ.
  destruct (0 <=? a); [|done]. destruct (insts p !! _) as [f|] eqn:E; [|done].
  apply Hk; [|done]. rewrite list.Forall_forall in Hp. apply Hp. by apply (list_elem_of_lookup_2 _ _ _ E).
Qed.
Lemma keeps_lift {A} (r : res A) : keeps (lift r).
Proof. by intros s. Qed.
Lemma keeps_ret {A} (a : A) : keeps (ret a).
Proof. by intros s. Qed.
Lemma keeps_throw {A} e : keeps (throw (A := A) e).
Proof. by intros s. Qed.
Lemma keeps_undef {A} u : keeps (undef (A := A) u).
Proof. by intros s. Qed.
Lemma keeps_nofuel {A} : keeps (nofuel (A := A)).
Proof. by intros s. Qed.
Lemma keeps_get : keeps get.
Proof. by intros s. Qed.
Lemma keeps_gets {A} (f : Interpreter H -> A) : keeps (gets f).
Proof. by intros s. Qed.
Lemma keeps_deref {A} (m : MI A) : keeps m -> keeps (deref m).
Proof. intros Hm s Hs. unfold deref. specialize (Hm s Hs). by destruct (m s) as [[] t]. Qed.
Lemma keeps_try {A} (m : MI A) : keeps m -> keeps (try m).
Proof. intros Hm s Hs. unfold try. specialize (Hm s Hs). by destruct (m s) as [[] t]. Qed.
Lemma keeps_onStack {A} (m : M StackManager A) : keeps (onStack m).
Proof. intros s []. unfold onStack, zoom. by destruct (m (StackMgr s)). Qed.
Lemma keeps_putMem a m : keeps (putMem a m).
Proof. intros s [[] ?]. split; [|done]. split; [|done]. split; try done. by apply pool_ok_update. Qed.
Lemma keeps_putGlob a g : keeps (putGlob a g).
Proof. intros s [[] ?]. split; [|done]. split; [|done]. split; try done. by apply pool_ok_update. Qed.
Lemma keeps_putTab a t : keeps (putTab a t).
Proof. intros s [[] ?]. split; [|done]. split; [|done]. split; try done. by apply pool_ok_update. Qed.
Lemma keeps_onMem {A} a mem (op : M MemoryInstance A) : keeps (onMem a mem op).
Proof.
  unfold onMem. destruct (op mem). apply keeps_bind; [apply keeps_putMem|intros x; apply keeps_lift].
Qed.
Lemma keeps_setMeasure m : G m -> keeps (modify (set_Measure m)).
Proof. by intros Hm s []. Qed.
Lemma keeps_setIters f : keeps (modify (fun s => set_Iters (f s) s)).
Proof. by intros s []. Qed.
Lemma keeps_setMode m : keeps (modify (set_InsMode m)).
Proof. by intros s []. Qed.
Lemma keeps_resetIters : keeps (modify (set_Iters [])).
Proof. by intros s []. Qed.
Lemma addInstrCost_keeps c m : G (Some m) -> G (Some (addInstrCost c m).2).
Proof.
  intros Hm. unfold addInstrCost. destruct (atZ _ _) as [x|]; [|done].
  pose proof (ml_cost HL x m Hm). by destruct (addCost x m).
Qed.
Lemma keeps_chargeInstr c : keeps (chargeInstr c).
Proof.
  intros s Hi. unfold chargeInstr. destruct (Measure s) as [m|] eqn:E; [|done].
  destruct Hi as [Hs Hm]. rewrite E in Hm. pose proof (addInstrCost_keeps c m Hm).
  by destruct (addInstrCost _ _) as [[[]| | |] ?].
Qed.
Lemma keeps_getNextInstr : keeps getNextInstr.
Proof. intros s []. unfold getNextInstr. by repeat case_match. Qed.
Lemma keeps_popInstrs : keeps popInstrs.
Proof. intros s []. unfold popInstrs. by case_match. Qed.

#[local] Hint Resolve keeps_lift keeps_ret keeps_throw keeps_undef keeps_nofuel keeps_get keeps_gets
  keeps_onStack keeps_putMem keeps_putGlob keeps_putTab keeps_onMem keeps_setMeasure keeps_setIters
  keeps_setMode keeps_resetIters keeps_chargeInstr keeps_getNextInstr keeps_popInstrs : keep.

Ltac keeps_auto := repeat lazymatch goal with
  | |- keeps (bind get _) => apply keeps_bind_get; intros ? ?
  | Hs : sinv ?s |- keeps (bind (deref (lift (getInstance _ (Funcs (StoreMgr ?s))))) _) =>
      apply keeps_func; [exact (so_insts _ (si_store _ Hs))|intros ? ?]
  | |- keeps (bind _ _) => apply keeps_bind; [|intros ?]
  | |- keeps (deref _) => apply keeps_deref
  | |- keeps (try _) => apply keeps_try
  | |- keeps (match _ with _ => _ end) => case_match
  | |- _ => by eauto with keep
  end.

Lemma keeps_popInstrs_n n : keeps (popInstrs_n n).
Proof. induction n; cbn [popInstrs_n]; keeps_auto. Qed.
Lemma keeps_currentModule : keeps currentModule.
Proof. unfold currentModule. keeps_auto. Qed.
#[local] Hint Resolve keeps_popInstrs_n keeps_currentModule : keep.
Lemma keeps_getMemInstByIdx n : keeps (getMemInstByIdx n).
Proof. unfold getMemInstByIdx. keeps_auto. Qed.
Lemma keeps_getGlobInstByIdx n : keeps (getGlobInstByIdx n).
Proof. unfold getGlobInstByIdx. keeps_auto. Qed.
Lemma keeps_getTabInstByIdx n : keeps (getTabInstByIdx n).
Proof. unfold getTabInstByIdx, getTabAddrByIdx. keeps_auto. Qed.
#[local] Hint Resolve keeps_getMemInstByIdx keeps_getGlobInstByIdx keeps_getTabInstByIdx : keep.

Lemma keeps_enterBlock a t l : keeps (enterBlock a t l).
Proof. unfold enterBlock, pushInstrs. keeps_auto. Qed.
Lemma keeps_leaveFunction : keeps leaveFunction.
Proof. unfold leaveFunction. keeps_auto. Qed.
Lemma keeps_leaveBlock : keeps leaveBlock.
Proof. unfold leaveBlock. keeps_auto. Qed.
#[local] Hint Resolve keeps_enterBlock keeps_leaveFunction keeps_leaveBlock : keep.
Lemma keeps_runLoopOp i : keeps (runLoopOp i).
Proof. unfold runLoopOp. keeps_auto. Qed.
#[local] Hint Resolve keeps_runLoopOp : keep.
Lemma keeps_branch n : keeps (branchToLabel runLoopOp n).
Proof. unfold branchToLabel. keeps_auto. Qed.
#[local] Hint Resolve keeps_branch : keep.

Lemma keeps_callHost h : P (HostFunctionInst h) -> keeps (callHost h).
Proof.
  intros HPh. unfold callHost. apply keeps_bind; [eauto with keep|intros am].
  apply keeps_bind_get. intros s [_ Hs].
  apply keeps_bind; [destruct (Measure s) as [m|]; [|keeps_auto]|].
  { pose proof (ml_cost HL (hfCost h) m Hs). destruct (addCost _ _) as [[] ?]; keeps_auto. }
  intros _ t [Ht1 Ht2]. rewrite bind_get. pose proof (ml_host HL h (StackMgr t) am.2 (Measure t) (HostState t) HPh Ht2).
  destruct (hfRun _ _ _ _ _) as (r & ((stk & mem) & mea) & hs). rewrite bind_put.
  match goal with |- sinv (?m ?t1).2 /\ _ =>
    assert (keeps m) as Hm by keeps_auto; by apply (Hm t1) end.
Qed.

Lemma keeps_push_locals l : keeps (push_locals l).
Proof. induction l; [apply keeps_ret|]. apply keeps_bind; [eauto with keep|done]. Qed.
#[local] Hint Resolve keeps_callHost keeps_push_locals : keep.

Lemma keeps_enterFunction f : P f -> keeps (enterFunction f).
Proof. intros Hf. destruct f; unfold enterFunction, pushInstrs; keeps_auto. Qed.
#[local] Hint Resolve keeps_enterFunction : keep.

Lemma keeps_executeInstr i : keeps (executeInstr i).
Proof.
  unfold executeInstr, executeControl, executeParametric, executeVariable, executeMemory, executeConst,
    executeUnary, executeBinary, runReturnOp, runBlockOp, runIfElseOp, runBrOp, runBrIfOp, runBrTableOp,
    runCallOp, runCallIndirectOp, runLocalGetOp, runLocalSetOp, runLocalTeeOp, runGlobalGetOp,
    runGlobalSetOp, runMemorySizeOp, runMemoryGrowOp, runLoadOp, runStoreOp, runBrOp.
  keeps_auto.
Qed.

Lemma keeps_countInstr c : keeps (countInstr c).
Proof.
  unfold countInstr. apply keeps_bind_get. intros s Hs. destruct (Measure s) as [m|] eqn:E; [|keeps_auto].
  apply keeps_bind; [apply keeps_setMeasure, (ml_count HL)|keeps_auto]. rewrite <- E. apply Hs.
Qed.
#[local] Hint Resolve keeps_executeInstr keeps_countInstr : keep.

Lemma keeps_step : keeps step.
Proof. unfold step, getTopScopeType. keeps_auto. Qed.

Lemma keeps_execute fuel : keeps (execute fuel).
Proof.
  induction fuel as [|fuel IH]; cbn [execute]; keeps_auto. apply keeps_step.
Qed.
#[local] Hint Resolve keeps_execute : keep.

Lemma keeps_runExpression fuel l : keeps (runExpression fuel l).
Proof. unfold runExpression, pushInstrs. keeps_auto. Qed.
Lemma keeps_runFunction fuel f : P f -> keeps (runFunction fuel f).
Proof. intros Hf. unfold runFunction. keeps_auto. Qed.
#[local] Hint Resolve keeps_runExpression keeps_runFunction : keep.

Lemma keeps_pop_n n : keeps (pop_n n).
Proof. induction n; cbn [pop_n]; keeps_auto. Qed.
Lemma keeps_pushes (l : list ValVariant) : keeps (mapM_ (fun Val => onStack (Stack.push Val)) l).
Proof. induction l; [apply keeps_ret|]. apply keeps_bind; [eauto with keep|done]. Qed.
#[local] Hint Resolve keeps_pop_n keeps_pushes : keep.

Lemma keeps_invoke fuel n ps : keeps (invoke fuel n ps).
Proof. unfold invoke. keeps_auto. Qed.

(** ** Instantiation *)

(** The pools stay in order on every path, and so do the modules that stay when the store is
    reset; on success all modules keep their names. *)
Definition settled {A} (m : MI A) : Prop := forall s, sinv s ->
  sinv (m s).2 /\ base_names (StoreMgr (m s).2) = base_names (StoreMgr s) /\
  (forall a, (m s).1 = Ok a -> mods_of (StoreMgr (m s).2) = mods_of (StoreMgr s)).

Lemma settled_keeps {A} (m : MI A) : keeps m -> settled m.
Proof.
  intros Hm s Hs. destruct (Hm s Hs) as [H1 H2]. split_and!; [done|unfold base_names; by rewrite H2|].
  intros a _. unfold mods_of. by rewrite H2.
Qed.

Lemma settled_bind {A B} (m : MI A) (k : A -> MI B) : settled m -> (forall a, settled (k a)) ->
  settled (bind m k).
Proof.
  intros Hm Hk s Hs. unfold bind. destruct (Hm s Hs) as (H1 & B1 & H2).
  destruct (m s) as [[a|e|u|] t]; cbn in *; try done.
  destruct (Hk a t H1) as (H3 & B2 & H4). split_and!; [done|congruence|].
  intros b Hb. rewrite (H4 b Hb). by apply (H2 a).
Qed.

Lemma settled_mapM {A} (f : A -> MI unit) l : (forall a, settled (f a)) -> settled (mapM_ f l).
Proof.
  intros Hf. induction l as [|a l IH]; [apply settled_keeps, keeps_ret|]. by apply settled_bind.
Qed.

Lemma settled_onSection {A} (o : option A) f : (forall a, settled (f a)) -> settled (on_section o f).
Proof. intros Hf. destruct o; [apply Hf|apply settled_keeps, keeps_ret]. Qed.

Lemma settled_addInst {A} (getter : StoreManager H -> pool A) setter x :
  (forall st, store_ok st -> pool_ok (getter st)) ->
  (forall p st, store_ok st -> pool_ok p -> store_ok (setter p st)) ->
  (forall p st, Mods (setter p st) = Mods st) -> settled (addInst getter setter x).
Proof.
  intros Hg Hset Hm s [Hs HG]. unfold addInst. rewrite bind_get. unfold onStore.
  destruct (InsMode s); cbn;
    (split_and!; [|unfold base_names; by rewrite Hm|intros ? _; unfold mods_of; by rewrite Hm]);
    (split; [|done]); apply Hset; try done; [apply (pool_ok_push x)|apply (pool_ok_import x)]; by apply Hg.
Qed.

Lemma settled_addFunc x : P x -> settled (addInst Funcs set_Funcs x).
Proof.
  intros Hx s [Hs HG]. unfold addInst. rewrite bind_get. unfold onStore. destruct Hs as [? Hf ? ? ? Hi].
  destruct (InsMode s); cbn; (split; [|done]); (split; [|done]); split; try done; cbn;
    [by apply (pool_ok_push x)|by apply Forall_app; repeat constructor|by apply (pool_ok_import x)|
     by apply Forall_app; repeat constructor].
Qed.
Lemma settled_addTab x : settled (addInst Tabs set_Tabs x).
Proof. apply settled_addInst; [by intros ? []|by intros ? ? [] ?; split|done]. Qed.
Lemma settled_addMem x : settled (addInst Mems set_Mems x).
Proof. apply settled_addInst; [by intros ? []|by intros ? ? [] ?; split|done]. Qed.
Lemma settled_addGlob x : settled (addInst Globs set_Globs x).
Proof. apply settled_addInst; [by intros ? []|by intros ? ? [] ?; split|done]. Qed.

Lemma keeps_getMod a : keeps (getMod a).
Proof. unfold getMod. keeps_auto. Qed.

Lemma getMod_lookup a (s t : Interpreter H) m : getMod a s = (Ok m, t) ->
  t = s /\ 0 <= a /\ insts (Mods (StoreMgr s)) !! Z.to_nat a = Some m.
Proof.
  unfold getMod. rewrite bind_get. unfold deref, lift, getInstance, get_at, atZ.
  destruct (0 <=? a) eqn:E; [|done]. destruct (insts _ !! _) eqn:El; [|done]. intros [= <- <-].
  split_and!; [done|lia|done].
Qed.

Lemma settled_updMod a f : (forall m m', f m = Ok m' -> miName m' = miName m) -> settled (updMod a f).
Proof.
  intros Hf s Hs. unfold updMod. rewrite bind_eq.
  destruct (settled_keeps _ (keeps_getMod a) s Hs) as (Hk1 & Hk2 & _).
  destruct (getMod a s) as [[m|e|u|] t] eqn:E; cbn in Hk1, Hk2; try done.
  apply getMod_lookup in E as (-> & Ha & El). rewrite bind_eq. unfold lift.
  destruct (f m) as [m'|e|u|] eqn:Em; try done. cbn [fst snd].
  match goal with |- sinv ?t /\ _ => assert (mods_of (StoreMgr t) = mods_of (StoreMgr s)) as Hm end;
    [|split_and!; [destruct Hs as [[] ?]; split; [split; try done|done]; by apply pool_ok_update|
                   by apply base_names_eq|done]].
  - unfold mods_of. cbn. unfold setZ. rewrite list_fmap_insert. do 2 f_equal.
    apply list_insert_id. rewrite list_lookup_fmap, El. cbn. by rewrite (Hf _ _ Em).
Qed.

#[local] Hint Resolve keeps_getMod : keep.

(** The members that are set: the name stays. *)
Ltac name_kept :=
  intros m m'; unfold exportFuncion, exportGlobal, exportMemory, exportTable, setStartIdx;
  repeat case_match; intros; simplify_eq; done.

Lemma settled_addType a t : settled (updMod a (fun m => Ok (addFuncType t m))).
Proof. apply settled_updMod. name_kept. Qed.
Lemma settled_addFuncAddr a x : settled (updMod a (fun m => Ok (addFuncAddr x m))).
Proof. apply settled_updMod. name_kept. Qed.
Lemma settled_addTableAddr a x : settled (updMod a (fun m => Ok (addTableAddr x m))).
Proof. apply settled_updMod. name_kept. Qed.
Lemma settled_addMemAddr a x : settled (updMod a (fun m => Ok (addMemAddr x m))).
Proof. apply settled_updMod. name_kept. Qed.
Lemma settled_addGlobalAddr a x : settled (updMod a (fun m => Ok (addGlobalAddr x m))).
Proof. apply settled_updMod. name_kept. Qed.

#[local] Hint Resolve settled_addTab settled_addMem settled_addGlob settled_addType
  settled_addFuncAddr settled_addTableAddr settled_addMemAddr settled_addGlobalAddr : keep.

Ltac settled_auto := repeat lazymatch goal with
  | |- settled (bind _ _) => apply settled_bind; [|intros ?]
  | |- settled (match _ with _ => _ end) => case_match
  | |- _ => first [by eauto with keep | apply settled_keeps; by keeps_auto]
  end.

Lemma keeps_find_export n e : keeps (find_export n e).
Proof. unfold find_export. keeps_auto. Qed.
#[local] Hint Resolve keeps_find_export : keep.

Lemma settled_import a d : settled (instantiateImport a d).
Proof. unfold instantiateImport. settled_auto. Qed.

Lemma settled_lift {A B} (r : res A) (k : A -> MI B) :
  (forall a, r = Ok a -> settled (k a)) -> settled (bind (lift r) k).
Proof. intros Hk s Hs. rewrite bind_eq. unfold lift. destruct r as [a|e|u|]; try done. by apply (Hk a). Qed.

Lemma settled_functions a ts cs : settled (instantiateFunctions a ts cs).
Proof.
  revert ts. induction cs as [|c cs IH]; intros [|t ts]; cbn [instantiateFunctions]; try by settled_auto.
  do 2 (apply settled_bind; [settled_auto|intros ?]). apply settled_lift. intros f Hf.
  apply settled_bind; [|intros x; settled_auto]. apply settled_addFunc.
  unfold newNativeFunction in Hf. destruct (copyInstrs _); simplify_eq/=. apply (ml_native HL).
Qed.

Lemma settled_global fuel a g : settled (instantiateGlobal fuel a g).
Proof. unfold instantiateGlobal. settled_auto. Qed.

Lemma keeps_func_addrs m l : keeps (func_addrs m l).
Proof. induction l; cbn [func_addrs]; keeps_auto. Qed.
#[local] Hint Resolve keeps_func_addrs : keep.

Lemma settled_elem fuel a e : settled (instantiateElem fuel a e).
Proof.
  unfold instantiateElem. apply settled_keeps. do 7 (apply keeps_bind; [keeps_auto|intros ?]).
  apply keeps_bind; [keeps_auto|intros l]. destruct (setInitList _ _ _). keeps_auto.
Qed.
Lemma settled_data fuel a d : settled (instantiateData fuel a d).
Proof. unfold instantiateData. settled_auto. Qed.

Lemma settled_export a d : settled (instantiateExport a d).
Proof. unfold instantiateExport. apply settled_updMod. destruct (ExpExtType d); name_kept. Qed.

Lemma settled_start fuel a i : settled (
  updMod a (setStartIdx i) ;;;
  let* m := getMod a in
  match StartAddr m with
  | None => undef UB_deref
  | Some Addr =>
      let* s := get in
      let* FuncInst := deref (lift (getInstance Addr (Funcs (StoreMgr s)))) in
      runFunction fuel FuncInst
  end).
Proof. apply settled_bind; [apply settled_updMod; name_kept|intros x]. apply settled_keeps. keeps_auto. Qed.

(** The temporary module is gone again when the globals are done. *)
Lemma removelast_fmap {A B} (f : A -> B) l : f <$> removelast l = removelast (f <$> l).
Proof. induction l as [|x [|y l] IH]; [done|done|]. cbn [removelast fmap list_fmap] in *. by rewrite IH. Qed.

Lemma removelast_length {A} (y : A) l : length (removelast (y :: l)) = length l.
Proof.
  pose proof (f_equal length (app_removelast_last y (l := y :: l) ltac:(done))) as Hl.
  rewrite length_app in Hl. cbn [length] in Hl. lia.
Qed.

Lemma globals_settled fuel a l s : sinv s -> num (Mods (StoreMgr s)) + 1 < 2 ^ 32 ->
  sinv (instantiateGlobals fuel a l s).2 /\
  base_names (StoreMgr (instantiateGlobals fuel a l s).2) = base_names (StoreMgr s) /\
  (forall x, (instantiateGlobals fuel a l s).1 = Ok x ->
     mods_of (StoreMgr (instantiateGlobals fuel a l s).2) = mods_of (StoreMgr s)).
Proof.
  intros Hs Hn. unfold instantiateGlobals. rewrite bind_eq.
  destruct (settled_keeps _ (keeps_getMod a) s Hs) as (Hk1 & Hk2 & _).
  destruct (getMod a s) as [[m|e|u|] t] eqn:E; cbn in Hk1, Hk2; try done.
  apply getMod_lookup in E as (-> & _ & _). set (tmp := fold_left _ _ _).
  assert (miName tmp = []) as Htmp.
  { subst tmp. generalize (GlobalAddrs m), (newModuleInstance []), (eq_refl : miName (newModuleInstance []) = []).
    intros l0. induction l0 as [|x l0 IH]; intros mi Hmi; [done|]. cbn. by apply IH. }
  rewrite bind_eq. unfold onStore, pushModule, pool_push. cbn [StoreMgr set_StoreMgr].
  set (st1 := set_Mods _ _). set (s1 := set_StoreMgr st1 s).
  assert (sinv s1) as Hst1.
  { destruct Hs as [[] ?]; split; [|done]. split; try done. by apply pool_ok_push. }
  pose proof (so_mods _ (si_store _ Hs)) as Hmods.
  assert (settled (onStack (Stack.pushFrame (wrap 32 (sizeZ (insts (Mods (StoreMgr s))))) 0 0) ;;;
    mapM_ (instantiateGlobal fuel a) l ;;; onStack Stack.popFrame)) as Hmid.
  { apply settled_bind; [settled_auto|intros _]. apply settled_bind; [|intros _; settled_auto].
    apply settled_mapM. intros g. apply settled_global. }
  set (mid := bind _ _) in Hmid.
  match goal with |- context [(?m s1).2] => assert (forall z, m z = (mid ;;; store_popModule) z) as Hcut end.
  { intros z. unfold mid. rewrite bind_assoc. apply bind_ext. intros x z'. by rewrite bind_assoc. }
  assert (base_names st1 = base_names (StoreMgr s)) as Hb1.
  { apply (base_names_push _ _ []); [done| |].
    - cbn. by rewrite fmap_app, <- Htmp.
    - cbn. destruct Hmods. apply Z.mod_small. lia. }
  rewrite !Hcut, bind_eq. destruct (Hmid s1 Hst1) as (Hm1 & Hb2 & Hm2).
  destruct (mid s1) as [[x|e|u|] s2]; cbn [fst snd] in Hm1, Hb2, Hm2;
    try (split_and!; [done|etrans; [exact Hb2|exact Hb1]|done]).
  specialize (Hm2 x eq_refl).
  unfold store_popModule, popModule. unfold mods_of in Hm2. cbn in Hm2.
  injection Hm2 as Hi Ho Hnum. unfold wrap in Hnum. destruct Hmods as [R1 R2 R3].
  rewrite Z.mod_small in Hnum by lia. rewrite Hnum, Ho.
  rewrite (proj2 (Z.ltb_lt _ _)) by lia.
  destruct (insts (Mods (StoreMgr s2))) as [|y ys] eqn:Ei.
  { cbn in Hi. rewrite fmap_app in Hi. by destruct (miName <$> _). }
  rewrite (proj2 (Z.leb_gt _ _)) by lia. cbn [fst snd].
  match goal with |- sinv ?t /\ _ => assert (mods_of (StoreMgr t) = mods_of (StoreMgr s)) as Hsame end;
    [|split_and!; [|by apply base_names_eq|done]].
  - unfold mods_of. cbn [Mods set_Mods insts owned num set_StoreMgr StoreMgr].
    rewrite removelast_fmap, Hi, fmap_app. cbn [fmap list_fmap]. rewrite removelast_last.
    repeat f_equal; lia.
  - destruct Hm1 as [[[Q1 Q2 Q3] ? ? ? ? ?] ?]. split; [|done]. split; try done. rewrite Ei in Q3. unfold sizeZ in *.
    pose proof (removelast_length y ys). cbn [length] in *.
    split; cbn [StoreMgr set_StoreMgr Mods set_Mods num owned insts]; unfold sizeZ; lia.
Qed.

(** The sections that run on the module just pushed. *)
Lemma settled_types a (o : option (list FunctionType)) : settled (on_section o (mapM_ (fun FuncType =>
  updMod a (fun m => Ok (addFuncType (mkFType (ParamTypes FuncType) (ReturnTypes FuncType)) m))))).
Proof. apply settled_onSection. intros l. apply settled_mapM. intros t. apply settled_addType. Qed.

(** Before and after the globals. *)
Definition sections_before (a : Z) (Mod : AModule) : MI unit :=
  on_section (TypeSec Mod) (mapM_ (fun FuncType =>
    updMod a (fun m => Ok (addFuncType (mkFType (ParamTypes FuncType) (ReturnTypes FuncType)) m)))) ;;;
  on_section (ImportSec Mod) (instantiateImports a) ;;;
  match FunctionSec Mod, CodeSec Mod with
  | Some FuncSec, Some CodeSec => instantiateFunctions a FuncSec CodeSec
  | _, _ => ret tt
  end.

Definition sections_after (fuel : nat) (a : Z) (Mod : AModule) : MI unit :=
  on_section (TableSec Mod) (instantiateTables a) ;;;
  on_section (MemorySec Mod) (instantiateMemories a) ;;;
  let* m := getMod a in
  onStack (Stack.pushFrame (miAddr m) 0 0) ;;;
  on_section (ElementSec Mod) (mapM_ (instantiateElem fuel a)) ;;;
  on_section (DataSec Mod) (mapM_ (instantiateData fuel a)) ;;;
  onStack Stack.popFrame ;;;
  on_section (ExportSec Mod) (mapM_ (instantiateExport a)) ;;;
  on_section (StartSec Mod) (fun StartIdx =>
    updMod a (setStartIdx StartIdx) ;;;
    let* m := getMod a in
    match StartAddr m with
    | None => undef UB_deref
    | Some Addr =>
        let* s := get in
        let* FuncInst := deref (lift (getInstance Addr (Funcs (StoreMgr s)))) in
        runFunction fuel FuncInst
    end).

Lemma settled_before a Mod : settled (sections_before a Mod).
Proof.
  apply settled_bind; [apply settled_types|intros _]. apply settled_bind.
  - apply settled_onSection. intros l. apply settled_mapM. intros d. apply settled_import.
  - intros _. destruct (FunctionSec Mod), (CodeSec Mod); try apply settled_functions;
      apply settled_keeps, keeps_ret.
Qed.

Lemma settled_after fuel a Mod : settled (sections_after fuel a Mod).
Proof.
  apply settled_bind; [apply settled_onSection; intros l; apply settled_mapM; intros t; settled_auto|intros _].
  apply settled_bind; [apply settled_onSection; intros l; apply settled_mapM; intros t; settled_auto|intros _].
  apply settled_bind; [settled_auto|intros m]. apply settled_bind; [settled_auto|intros _].
  apply settled_bind; [apply settled_onSection; intros l; apply settled_mapM, settled_elem|intros _].
  apply settled_bind; [apply settled_onSection; intros l; apply settled_mapM, settled_data|intros _].
  apply settled_bind; [settled_auto|intros _].
  apply settled_bind; [apply settled_onSection; intros l; apply settled_mapM, settled_export|intros _].
  apply settled_onSection. intros i. apply settled_start.
Qed.

(** The module, once pushed or imported. *)
Definition instantiate_body (fuel : nat) (a : Z) (Mod : AModule) : MI unit :=
  sections_before a Mod ;;;
  on_section (GlobalSec Mod) (instantiateGlobals fuel a) ;;;
  sections_after fuel a Mod.

Lemma body_settled fuel a Mod s : sinv s -> num (Mods (StoreMgr s)) + 1 < 2 ^ 32 ->
  sinv (instantiate_body fuel a Mod s).2 /\
  base_names (StoreMgr (instantiate_body fuel a Mod s).2) = base_names (StoreMgr s) /\
  (forall x, (instantiate_body fuel a Mod s).1 = Ok x ->
     mods_of (StoreMgr (instantiate_body fuel a Mod s).2) = mods_of (StoreMgr s)).
Proof.
  intros Hs Hn. unfold instantiate_body. rewrite bind_eq.
  destruct (settled_before a Mod s Hs) as (H1 & B1 & H2).
  destruct (sections_before a Mod s) as [[x|e|u|] t]; cbn [fst snd] in H1, B1, H2 |- *; try done. specialize (H2 x eq_refl).
  assert (num (Mods (StoreMgr t)) + 1 < 2 ^ 32) as Hn' by (unfold mods_of in H2; injection H2; lia).
  rewrite bind_eq.
  assert (sinv (on_section (GlobalSec Mod) (instantiateGlobals fuel a) t).2 /\
    base_names (StoreMgr (on_section (GlobalSec Mod) (instantiateGlobals fuel a) t).2) =
      base_names (StoreMgr t) /\
    (forall x, (on_section (GlobalSec Mod) (instantiateGlobals fuel a) t).1 = Ok x ->
      mods_of (StoreMgr (on_section (GlobalSec Mod) (instantiateGlobals fuel a) t).2) =
      mods_of (StoreMgr t))) as (H3 & B2 & H4).
  { destruct (GlobalSec Mod) as [l|]; [by apply globals_settled|done]. }
  destruct (on_section (GlobalSec Mod) _ t) as [[y|e|u|] t']; cbn [fst snd] in H3, B2, H4 |- *;
    try (split_and!; [done|congruence|done]).
  specialize (H4 y eq_refl). destruct (settled_after fuel a Mod t' H3) as (H5 & B3 & H6).
  split_and!; [done|congruence|]. intros z Hz. rewrite (H6 z Hz). congruence.
Qed.

Lemma instantiate_cut fuel Mod Name (s : Interpreter H) :
  (forall m, findModule Name (StoreMgr s) <> Ok m) -> store_ok (StoreMgr s) ->
  exists st, resetStore false (StoreMgr s) = Ok st /\ store_ok st /\ num (Mods st) = 0 /\
    miName <$> insts (Mods st) = base_names (StoreMgr s) /\
    instantiate fuel Mod Name s =
      (let '(a, st') := match InsMode s with
         | Mode_Instantiate => pushModule (newModuleInstance Name) st
         | Mode_ImportWasm => importModule (newModuleInstance Name) st end in
       instantiate_body fuel a Mod
         (set_StoreMgr st' (set_Iters [] (set_StackMgr newStackManager s)))).
Proof.
  intros Hf Hs. destruct (resetStore_ok _ Hs) as (st & Hr & Hst & Hn & Hi).
  exists st. split_and!; try done; [by apply base_names_reset|]. unfold instantiate. rewrite bind_get.
  assert (exists e, findModule Name (StoreMgr s) = Err e) as [e ->].
  { unfold findModule in *. case_match; [|by eexists]. case_match; subst. by edestruct Hf. }
  cbv zeta. unfold store_reset. rewrite bind_eq, Hr.
  rewrite (bind_Ok (onStack Stack.reset) _ _ tt _ eq_refl), (bind_Ok (modify _) _ _ tt _ eq_refl).
  rewrite bind_eq. unfold onStore.
  change (StoreMgr (set_Iters [] _)) with st.
  destruct (match InsMode s with Mode_Instantiate => _ | _ => _ end) as [a st'].
  unfold instantiate_body, sections_before. rewrite bind_assoc. apply bind_ext. intros _ t1.
  rewrite bind_assoc. apply bind_ext. intros _ t2. done.
Qed.

(** What a module adds to the names that stay. *)
Definition registered (im : InstantiateMode) (Name : list Z) : list (list Z) :=
  match im with Mode_Instantiate => [] | Mode_ImportWasm => [Name] end.

(** The store with the new module in it. *)
Lemma enter_module im Name st : store_ok st -> num (Mods st) = 0 ->
  exists a st', match im with
         | Mode_Instantiate => pushModule (newModuleInstance Name) st
         | Mode_ImportWasm => importModule (newModuleInstance Name) st end = (a, st') /\ store_ok st' /\
    num (Mods st') + 1 < 2 ^ 32 /\ Name ∈ miName <$> insts (Mods st') /\
    (im = Mode_Instantiate -> num (Mods st') = 1) /\
    base_names st' = (miName <$> insts (Mods st)) ++ registered im Name.
Proof.
  intros Hst Hn. destruct im; do 2 eexists; (split; [reflexivity|]).
  all: split; [destruct Hst; split; try done; (by apply pool_ok_push) || by apply pool_ok_import|].
  all: split; [cbn; by rewrite Hn|]; split; [|split; [intros ?; cbn; by rewrite ?Hn|]].
  all: try (cbn; rewrite fmap_app; apply elem_of_app; right; by apply list_elem_of_singleton).
  - cbn [registered]. rewrite app_nil_r, <- base_names_all by done.
    apply (base_names_push _ _ Name); [by apply so_mods|cbn; by rewrite fmap_app|cbn; by rewrite Hn].
  - rewrite base_names_all by done. cbn. by rewrite fmap_app.
Qed.

(** Instantiation keeps the pools in order; a success leaves the module under its name, as
    the instantiated one unless it was registered. *)
Lemma instantiate_settled fuel Mod Name s : sinv s ->
  sinv (instantiate fuel Mod Name s).2 /\
  (base_names (StoreMgr (instantiate fuel Mod Name s).2) = base_names (StoreMgr s) \/
   base_names (StoreMgr (instantiate fuel Mod Name s).2) =
     base_names (StoreMgr s) ++ registered (InsMode s) Name) /\
  (forall x, (instantiate fuel Mod Name s).1 = Ok x ->
     Name ∈ miName <$> insts (Mods (StoreMgr (instantiate fuel Mod Name s).2)) /\
     (InsMode s = Mode_Instantiate -> num (Mods (StoreMgr (instantiate fuel Mod Name s).2)) = 1)).
Proof.
  intros Hs. destruct (findModule Name (StoreMgr s)) as [m|e|u|] eqn:Ef.
  { unfold instantiate. rewrite bind_get, Ef. split_and!; [done|by left|done]. }
  2-3: unfold findModule in Ef; by repeat case_match.
  destruct (instantiate_cut fuel Mod Name s) as (st & Hr & Hst & Hn & Hb & ->); [congruence|apply Hs|].
  destruct (enter_module (InsMode s) Name st Hst Hn) as (a & st' & -> & Hst' & Hsm & Hin & Hone & Hb').
  set (s1 := set_StoreMgr st' (set_Iters [] (set_StackMgr newStackManager s))).
  assert (sinv s1) as Hs1 by (split; [done|apply Hs]).
  destruct (body_settled fuel a Mod s1 Hs1 Hsm) as (H1 & B1 & H2).
  split_and!; [done|right; rewrite B1, <- Hb; exact Hb'|].
  intros x Hx. specialize (H2 x Hx). unfold mods_of in H2. injection H2 as Hi _ Hnum.
  rewrite Hi, Hnum. done.
Qed.

(** ** Host modules *)

Lemma settled_host {A} (getter : StoreManager H -> pool A) setter addA addrs exp a kv :
  (forall st, store_ok st -> pool_ok (getter st)) ->
  (forall p st, store_ok st -> pool_ok p -> store_ok (setter p st)) ->
  (forall p st, Mods (setter p st) = Mods st) ->
  (forall x m, miName (addA x m) = miName m) ->
  (forall n i m m', exp n i m = Ok m' -> miName m' = miName m) ->
  settled (registerHostInst getter setter addA addrs exp a kv).
Proof.
  intros Hg Hset Hm Ha He. apply settled_bind; [|intros x; apply settled_bind; [|intros y]].
  - intros s [Hs HG]. unfold onStore. cbn.
    split_and!; [split; [|done]|unfold base_names; by rewrite Hm|intros ? _; unfold mods_of; by rewrite Hm].
    apply Hset; [done|]. apply (pool_ok_import_host kv.2). by apply Hg.
  - apply settled_updMod. intros m m' [= <-]. apply Ha.
  - apply settled_updMod. intros m m'. apply He.
Qed.

Lemma store_reset_run s : store_ok (StoreMgr s) ->
  exists st, store_reset s = (Ok tt, set_StoreMgr st s) /\ store_ok st /\ num (Mods st) = 0 /\
    miName <$> insts (Mods st) = base_names (StoreMgr s).
Proof.
  intros Hs. destruct (resetStore_ok _ Hs) as (st & Hr & Hst & Hn & Hi). exists st.
  unfold store_reset. rewrite Hr. split_and!; try done. by apply base_names_reset.
Qed.

Lemma settled_hostFunc a kv : P kv.2 ->
  settled (registerHostInst Funcs set_Funcs addFuncAddr FuncAddrs exportFuncion a kv).
Proof.
  intros Hk. apply settled_bind; [|intros x; apply settled_bind; [|intros y]].
  - intros s [[? ? ? ? ? ?] ?]. split; [|done]. split; [|done]. split; try done; cbn; [by apply (pool_ok_import_host kv.2)|].
    by apply Forall_app; repeat constructor.
  - apply settled_updMod. name_kept.
  - apply settled_updMod. name_kept.
Qed.

Lemma settled_mapM_Forall {A} (f : A -> MI unit) l : Forall (fun a => settled (f a)) l -> settled (mapM_ f l).
Proof. induction 1; [apply settled_keeps, keeps_ret|]. by apply settled_bind. Qed.

Lemma registerHost_ok Obj s : object_ok P Obj -> sinv s ->
  sinv (registerHostModule Obj s).2 /\
  (base_names (StoreMgr (registerHostModule Obj s).2) = base_names (StoreMgr s) \/
   base_names (StoreMgr (registerHostModule Obj s).2) = base_names (StoreMgr s) ++ [ioName Obj]).
Proof.
  intros HO Hs. destruct (store_reset_run s (si_store _ Hs)) as (st & Hr & Hst & Hn & Hb).
  unfold registerHostModule. rewrite (bind_Ok _ _ _ _ _ Hr), bind_get. cbn [StoreMgr set_StoreMgr].
  rewrite <- (base_names_all st Hn) in Hb. rewrite <- Hb.
  destruct (findModule _ st) as [m|e|u|]; try (split; [by destruct Hs|by left]).
  destruct (enter_module Mode_ImportWasm (ioName Obj) st Hst Hn) as (a & st' & E & Hst' & _ & _ & _ & Hb').
  rewrite bind_eq. unfold onStore. cbn [StoreMgr set_StoreMgr]. rewrite E.
  rewrite <- (base_names_all st Hn) in Hb'. cbn [registered] in Hb'.
  match goal with |- sinv (?m ?t).2 /\ _ => assert (settled m) as Hm;
    [|destruct (Hm t) as (H1 & H2 & _); [by destruct Hs|];
      by split; [exact H1|right; rewrite H2; cbn [StoreMgr set_StoreMgr]]] end.
  apply settled_bind; [apply settled_mapM_Forall|intros _].
  { revert HO. apply Forall_impl. intros kv. apply settled_hostFunc. }
  apply settled_bind; [apply settled_mapM; intros kv|intros _].
  { apply settled_host; [by intros ? []|by intros ? ? [] ?; split|done|done|intros n i; name_kept]. }
  apply settled_bind; [apply settled_mapM; intros kv|intros _].
  { apply settled_host; [by intros ? []|by intros ? ? [] ?; split|done|done|intros n i; name_kept]. }
  apply settled_mapM. intros kv.
  apply settled_host; [by intros ? []|by intros ? ? [] ?; split|done|done|intros n i; name_kept].
Qed.

End Store.
