(* ===== verification/InstantiateFacts.v ===== *)
(** * Instantiation: imports are resolved safely, segments are written where they belong *)
From stdpp Require Import base list numbers option.
From Stdlib Require Import ZArith Lia.
From S2P Require Import Prelude Types Instruction AST Memory StackMgr Runtime Interpreter.
From S2P Require Import MemoryFacts EngineSpec EngineRefine EngineFuel EngineFacts Instantiate.
From S2P Require Import StoreFacts.
#[local] Open Scope Z_scope.

(** The limits of an instance are within those of an import. *)
Definition limits_within (hasMax1 : bool) (min1 max1 : Z) (l : Limit) : Prop :=
  Min l <= min1 /\ (hasMax l = true -> hasMax1 = true /\ max1 <= Max l).

Lemma isLimitMatched_spec h1 m1 x1 l :
  isLimitMatched h1 m1 x1 (hasMax l) (Min l) (Max l) = true <-> limits_within h1 m1 x1 l.
Proof.
  unfold isLimitMatched, limits_within. destruct (m1 <? Min l) eqn:E1, h1, (hasMax l); cbn;
    try destruct (x1 >? Max l) eqn:E2; split; intros Hx; try discriminate; try done;
    try (split; [lia|intros; try split; (done || lia)]); destruct Hx as [Ha Hb];
    try (specialize (Hb eq_refl) as [? ?]; (done || lia)); try lia.
Qed.

Section InstantiateFacts.
Context {H : Type}.
#[local] Abbreviation MI := (M (Interpreter H)).

(** The kind of a content. *)
Definition content_kind (c : ExtContent) : ExternalType :=
  match c with
  | Content_Function _ => Ext_Function
  | Content_Table _ => Ext_Table
  | Content_Memory _ => Ext_Memory
  | Content_Global _ => Ext_Global
  end.

(** The instance an import is resolved to, and the addresses of the module after it. *)
Definition import_resolved (d : ImportDesc) (st : StoreManager H) (target m m' : ModuleInstance) : Prop :=
  match ImpContent d with
  | Content_Function i => exists a f ft,
      map_find (ImpExtName d) (ExpFuncs target) = Some a /\ getInstance a (Funcs st) = Ok f /\
      get_at (FuncTypes m) i = Ok ft /\
      Params (getFuncTypeOf f) = Params ft /\ Returns (getFuncTypeOf f) = Returns ft /\
      m' = addFuncAddr a m
  | Content_Table t => exists a x,
      map_find (ImpExtName d) (ExpTables target) = Some a /\ getInstance a (Tabs st) = Ok x /\
      TabType x = TabElemType t /\ limits_within (HasMaxSize x) (MinSize x) (MaxSize x) (Table t) /\
      m' = addTableAddr a m
  | Content_Memory t => exists a x,
      map_find (ImpExtName d) (ExpMems target) = Some a /\ getInstance a (Mems st) = Ok x /\
      limits_within (HasMaxPage x) (MinPage x) (MaxPage x) (Memory t) /\ m' = addMemAddr a m
  | Content_Global t => exists a x,
      map_find (ImpExtName d) (ExpGlobals target) = Some a /\ getInstance a (Globs st) = Ok x /\
      GType x = GlobValType t /\ GMut x = GlobMut t /\ m' = addGlobalAddr a m
  end.

Lemma find_export_Ok n e (s t : Interpreter H) a : find_export n e s = (Ok a, t) ->
  map_find n e = Some a /\ t = s.
Proof. unfold find_export. destruct (map_find n e); intros [=]; by subst. Qed.

Lemma lift_Ok {S A} (r : res A) (s t : S) x : lift r s = (Ok x, t) -> r = Ok x /\ t = s.
Proof. unfold lift. intros [=]. by subst. Qed.

Lemma findModule_Ok Name (st : StoreManager H) m : findModule Name st = Ok m ->
  m ∈ insts (Mods st) /\ miName m = Name.
Proof.
  unfold findModule. destruct (list_find _ _) as [[i m']|] eqn:E; [|done]. intros [= <-].
  apply list_find_Some in E as (E & Hn & _). split; [by apply list_elem_of_lookup_2 in E|done].
Qed.

Lemma updMod_Ok a f (s t : Interpreter H) : updMod a f s = (Ok tt, t) ->
  exists m m', insts (Mods (StoreMgr s)) !! Z.to_nat a = Some m /\ f m = Ok m' /\
    insts (Mods (StoreMgr t)) = <[Z.to_nat a := m']> (insts (Mods (StoreMgr s))).
Proof.
  unfold updMod. intros E. apply bind_Ok_inv in E as (m & s1 & E1 & E).
  apply getMod_lookup in E1 as (-> & Ha & El). apply bind_Ok_inv in E as (m' & s2 & E2 & E).
  apply lift_Ok in E2 as [E2 ->]. injection E as <-. by exists m, m'.
Qed.

(** The part all kinds of imports share: the export, the content, the instance. *)
Ltac import_prefix E :=
  apply bind_Ok_inv in E as (a & s1 & E2 & E); apply find_export_Ok in E2 as [E2 ->];
  apply bind_Ok_inv in E as (i & s1 & E3 & E); apply lift_Ok in E3 as [E3 ->];
  unfold getContentFunction, getContentTable, getContentMemory, getContentGlobal in E3;
  destruct (ImpContent _); simplify_eq;
  apply bind_Ok_inv in E as (f & s1 & E4 & E); apply deref_lift_Ok in E4 as [E4 ->].

(** The matching succeeded and the address was added. *)
Ltac import_suffix E :=
  let Eb := fresh "Eb" in let Eb1 := fresh "Eb1" in
  match type of E with (if ?c then _ else _) _ = _ => destruct c eqn:Eb; [done|] end;
  try apply orb_false_iff in Eb as [Eb1 Eb];
  try apply bool_decide_eq_false, dec_stable in Eb1;
  first [apply bool_decide_eq_false, dec_stable in Eb|apply negb_false_iff, isLimitMatched_spec in Eb];
  apply updMod_Ok in E as (m & m' & Em & Ef & Ei); injection Ef as <-.

(** ** Segments *)

(** [i32.const v]: the offset expression of most segments. *)
Definition const_expr (v : Z) : list Instr := [ConstInstruction I32__const (mkVariant U32 v)].

(** Charging an instruction does not depend on the instruction scopes. *)
Lemma countInstr_Iters c x (s : Interpreter H) :
  countInstr c (set_Iters x s) = ((countInstr c s).1, set_Iters x (countInstr c s).2).
Proof.
  destruct s as [st it [m|] sm h mo]; [|done]. unfold countInstr, bind, get, modify, chargeInstr. cbn.
  by destruct (addInstrCost _ _) as [[[]|e|u|] m'].
Qed.

Lemma countInstr_scopes c (s : Interpreter H) : Iters (countInstr c s).2 = Iters s.
Proof.
  destruct s as [st it [m|] sm h mo]; [|done]. unfold countInstr, bind, get, modify, chargeInstr. cbn.
  by destruct (addInstrCost _ _) as [[[]|e|u|] m'].
Qed.

(** A constant expression leaves its value, and nothing else, if its cost is covered. *)
Lemma const_expr_run fuel v (s t : Interpreter H) :
  (2 <= fuel)%nat -> Iters s = [] -> countInstr I32__const s = (Ok tt, t) ->
  runExpression fuel (const_expr v) s =
    (Ok tt, set_StackMgr (set_values (mkVariant U32 v :: values t) (StackMgr t)) t).
Proof.
  intros Hf Hi Hc. do 2 (destruct fuel as [|fuel]; [lia|]).
  assert (Iters t = []) as Ht.
  { rewrite <- Hi. pose proof (countInstr_scopes I32__const s) as E. by rewrite Hc in E. }
  unfold runExpression, pushInstrs. rewrite bind_eq. unfold modify. rewrite Hi.
  cbn [execute]. rewrite bind_get.
  change (sizeZ (Iters (set_Iters [mkScope Seq_Expression (const_expr v)] s)) =? 0) with false. cbv iota.
  unfold step at 1. rewrite bind_eq, bind_eq.
  change (getNextInstr (set_Iters [mkScope Seq_Expression (const_expr v)] s))
    with (@Ok (option Instr) (Some (ConstInstruction I32__const (mkVariant U32 v))),
          set_Iters [mkScope Seq_Expression []] s). cbv beta iota.
  rewrite bind_eq. cbn [getOpCode].
  rewrite countInstr_Iters, Hc. cbn [fst snd]. destruct t as [st it me sm h mo]. cbn in Ht. subst it.
  destruct fuel; reflexivity.
Qed.

(** What a segment with a constant offset starts with: the offset is popped again. *)
Lemma const_offset_run {A} fuel off (k : Z -> M (Interpreter H) A) (s t : Interpreter H) :
  (2 <= fuel)%nat -> Iters s = [] -> countInstr I32__const s = (Ok tt, t) -> in_u 32 off ->
  (runExpression fuel (const_expr off) ;;;
   let* PopVal := onStack Stack.pop in
   let* Offset := lift (retrieveValue U32 PopVal) in k Offset) s = k off t.
Proof.
  intros Hf Hi Hc Ho. rewrite bind_eq, (const_expr_run fuel off s t Hf Hi Hc), bind_eq.
  destruct t as [[vs ls fs] it me sm h mo]. unfold bind, lift, onStack, zoom.
  assert (retrieveValue U32 (mkVariant U32 off) = Ok off) as E.
  { rewrite retrieve_mkVariant. unfold of_bits, to_bits. change (bits U32) with 32.
    rewrite (wrap_small 32 off) by done. by rewrite wrap_small. }
  cbn -[retrieveValue mkVariant]. by rewrite E.
Qed.

Lemma countInstr_store c (s : Interpreter H) : StoreMgr (countInstr c s).2 = StoreMgr s.
Proof.
  destruct s as [st it [m|] sm h mo]; [|done]. unfold countInstr, bind, get, modify, chargeInstr. cbn.
  by destruct (addInstrCost _ _) as [[[]|e|u|] m'].
Qed.

Lemma deref_lift_run {A} (r : res A) x (s : Interpreter H) : r = Ok x -> deref (lift r) s = (Ok x, s).
Proof. by intros ->. Qed.

(** [C30] A data segment is written where it belongs.  For a segment with a constant offset
    whose cost is covered, of less than 2^32 bytes, with no instructions pending and for a memory of at most 59577 pages
    (above it the 32-bit sizes of checkDataSize overflow), instantiation leaves the stacks
    and every other instance of the store as they were; if the data fits the pages of the
    memory, the bytes of the range are the data and all others are unchanged, and otherwise
    it fails with MemorySizeExceeded and no byte is changed. *)
Theorem data_segment_written (fuel : nat) (ModInst off a : Z) (d : DataSegment)
    (s t : Interpreter H) (m : ModuleInstance) (mem : MemoryInstance) :
  (2 <= fuel)%nat -> Iters s = [] -> countInstr I32__const s = (Ok tt, t) ->
  DataExpr d = const_expr off -> in_u 32 off ->
  getInstance ModInst (Mods (StoreMgr s)) = Ok m -> get_at (MemAddrs m) (MemoryIdx d) = Ok a ->
  getInstance a (Mems (StoreMgr s)) = Ok mem -> mem_ok mem ->
  Forall is_byte (DataBytes d) -> sizeZ (DataBytes d) < 2 ^ 32 ->
  let fits := off + sizeZ (DataBytes d) <=? CurrPage mem * 65536 in
  exists mem',
    instantiateData fuel ModInst d s =
      (if fits then Ok tt else Err MemorySizeExceeded,
       set_StoreMgr (set_Mems (pool_update a mem' (Mems (StoreMgr s))) (StoreMgr s)) t) /\
    mem_ok mem' /\ CurrPage mem' = CurrPage mem /\
    forall i, mem_byte mem' i = if fits then mem_written mem off (DataBytes d) i else mem_byte mem i.
Proof.
  intros Hf Hi Hc He Ho Hm Ha Hmem Hok Hb Hl. cbv zeta.
  pose proof (countInstr_store I32__const s) as Hst. rewrite Hc in Hst. cbn [snd] in Hst.
  unfold instantiateData. rewrite He, (const_offset_run fuel off _ s t Hf Hi Hc Ho). unfold getMod.
  rewrite bind_eq, bind_get, Hst, (deref_lift_run _ _ _ Hm), bind_eq, (deref_lift_run _ _ _ Ha).
  rewrite bind_get, bind_eq, Hst, (deref_lift_run _ _ _ Hmem).
  assert (0 <= sizeZ (DataBytes d)) by (unfold sizeZ; lia). unfold in_u in Ho.
  unfold onMem. rewrite wrap_small by (unfold in_u; lia).
  destruct (Z.leb_spec (off + sizeZ (DataBytes d)) (CurrPage mem * 65536)) as [Hr|Hr].
  - destruct (setBytes_ok mem Hok (DataBytes d) off Hb) as (mem' & -> & Hres); [unfold in_range; lia|].
    exists mem'. split; [|done]. unfold putMem. rewrite bind_eq. unfold modify. by rewrite Hst.
  - exists mem. unfold setBytes. rewrite bind_eq, requireDataSize_fail by lia.
    split; [|done]. unfold putMem. rewrite bind_eq. unfold modify. by rewrite Hst.
Qed.

Lemma func_addrs_run (m : ModuleInstance) idxs addrs (s : Interpreter H) :
  Forall2 (fun i x => get_at (FuncAddrs m) i = Ok x) idxs addrs -> func_addrs m idxs s = (Ok addrs, s).
Proof.
  induction 1 as [|i x idxs addrs E _ IH]; [done|]. cbn [func_addrs].
  by rewrite bind_eq, (deref_lift_run _ _ _ E), bind_eq, IH.
Qed.

(** The elements after an initialisation that is within the limits. *)
Lemma setInitList_elems off addrs tab :
  0 <= off -> (HasMaxSize tab = true -> off + sizeZ addrs <= MaxSize tab) ->
  exists tab', setInitList off addrs tab = (Ok tt, tab') /\
    sizeZ (FuncElem tab') = Z.max (sizeZ (FuncElem tab)) (off + sizeZ addrs) /\
    (forall i, 0 <= i < sizeZ addrs -> atZ (FuncElem tab') (off + i) = atZ addrs i) /\
    (forall i, 0 <= i < sizeZ (FuncElem tab) -> i < off \/ off + sizeZ addrs <= i ->
       atZ (FuncElem tab') i = atZ (FuncElem tab) i).
Proof.
  intros Ho Hm. assert (0 <= sizeZ addrs) by (unfold sizeZ; lia). unfold setInitList.
  assert (HasMaxSize tab && (off + sizeZ addrs >? MaxSize tab) = false) as ->.
  { destruct (HasMaxSize tab); [|done]. specialize (Hm eq_refl). cbn. rewrite Z.gtb_ltb. by apply Z.ltb_ge. }
  eexists. split; [done|]. cbn [FuncElem].
  set (elem := if _ <? _ then _ else _).
  assert (sizeZ elem = Z.max (sizeZ (FuncElem tab)) (off + sizeZ addrs)) as Hs.
  { unfold elem. destruct (Z.ltb_spec (sizeZ (FuncElem tab)) (off + sizeZ addrs));
      [rewrite length_resizeZ by lia|]; lia. }
  assert (forall i : nat, Z.of_nat i < sizeZ (FuncElem tab) -> elem !! i = FuncElem tab !! i) as He.
  { intros i Hi. unfold elem. destruct (Z.ltb_spec (sizeZ (FuncElem tab)) (off + sizeZ addrs)); [|done].
    rewrite lookup_resizeZ by lia. destruct (FuncElem tab !! i) eqn:E; [done|].
    apply lookup_ge_None in E. unfold sizeZ in Hi. lia. }
  split; [unfold sizeZ at 1; rewrite length_splice by lia; fold (sizeZ elem); lia|]. unfold atZ. split.
  - intros i Hi. rewrite !(proj2 (Z.leb_le _ _)) by lia.
    rewrite lookup_splice_in by lia. f_equal. lia.
  - intros i Hi Hout. rewrite !(proj2 (Z.leb_le _ _)) by lia.
    rewrite lookup_splice_out by lia. apply He. lia.
Qed.

(** An element segment is written where it belongs.  For a segment with a constant
    offset whose cost is covered, instantiation leaves the stacks and every other instance
    of the store as they were; if the segment ends within the maximum of the table, the
    slots of the range hold the store addresses of the functions, all other slots are
    unchanged and the table has grown to hold the segment, and otherwise it fails with
    TableSizeExceeded and the table is unchanged. *)
Theorem element_segment_written (fuel : nat) (ModInst off a : Z) (d : ElementSegment)
    (s t : Interpreter H) (m : ModuleInstance) (tab : TableInstance) (addrs : list Z) :
  (2 <= fuel)%nat -> Iters s = [] -> countInstr I32__const s = (Ok tt, t) ->
  ElemExpr d = const_expr off -> in_u 32 off ->
  getInstance ModInst (Mods (StoreMgr s)) = Ok m -> get_at (TableAddrs m) (TableIdx d) = Ok a ->
  getInstance a (Tabs (StoreMgr s)) = Ok tab ->
  Forall2 (fun i x => get_at (FuncAddrs m) i = Ok x) (FuncIdxes d) addrs ->
  exists tab' r,
    instantiateElem fuel ModInst d s =
      (r, set_StoreMgr (set_Tabs (pool_update a tab' (Tabs (StoreMgr s))) (StoreMgr s)) t) /\
    (HasMaxSize tab = true /\ MaxSize tab < off + sizeZ addrs /\ r = Err TableSizeExceeded /\ tab' = tab \/
     r = Ok tt /\ sizeZ (FuncElem tab') = Z.max (sizeZ (FuncElem tab)) (off + sizeZ addrs) /\
     (forall i, 0 <= i < sizeZ addrs -> atZ (FuncElem tab') (off + i) = atZ addrs i) /\
     (forall i, 0 <= i < sizeZ (FuncElem tab) -> i < off \/ off + sizeZ addrs <= i ->
        atZ (FuncElem tab') i = atZ (FuncElem tab) i)).
Proof.
  intros Hf Hi Hc He Ho Hm Ha Ht Hx.
  pose proof (countInstr_store I32__const s) as Hst. rewrite Hc in Hst. cbn [snd] in Hst.
  unfold instantiateElem. rewrite He, (const_offset_run fuel off _ s t Hf Hi Hc Ho). unfold getMod.
  rewrite bind_eq, bind_get, Hst, (deref_lift_run _ _ _ Hm), bind_eq, (deref_lift_run _ _ _ Ha).
  rewrite bind_get, bind_eq, Hst, (deref_lift_run _ _ _ Ht), bind_eq, (func_addrs_run _ _ _ _ Hx).
  unfold in_u in Ho.
  destruct (decide (HasMaxSize tab = true /\ MaxSize tab < off + sizeZ addrs)) as [[Hh Hmx]|Hn].
  - exists tab, (Err TableSizeExceeded). unfold setInitList. rewrite Hh, Z.gtb_ltb.
    rewrite (proj2 (Z.ltb_lt _ _) Hmx). cbn [andb]. split; [|by left].
    unfold putTab. rewrite bind_eq. unfold modify. by rewrite Hst.
  - destruct (setInitList_elems off addrs tab) as (tab' & -> & Hs & Hin & Hout); [lia| |].
    { intros Hh. destruct (decide (MaxSize tab < off + sizeZ addrs)); [by destruct Hn|lia]. }
    exists tab', (Ok tt). split; [unfold putTab; rewrite bind_eq; unfold modify; by rewrite Hst|].
    right. by split_and!.
Qed.

(** [C29] Imports are resolved safely.  If an import is accepted, the kind of its content is
    the kind it was declared with, the named module is in the store and exports the name
    with that kind, the exported address leads to an instance of the store whose type is the
    declared one (the same parameters and results, the same element type, value type and
    mutability, limits within the declared ones), and the only change to the module is that
    the address is appended to those of its kind. *)
Theorem import_resolution_sound (ModInst : Z) (d : ImportDesc) (s s' : Interpreter H) :
  instantiateImport ModInst d s = (Ok tt, s') ->
  ImpExtType d = content_kind (ImpContent d) /\
  exists target m m',
    findModule (ModName d) (StoreMgr s) = Ok target /\
    target ∈ insts (Mods (StoreMgr s)) /\ miName target = ModName d /\
    insts (Mods (StoreMgr s)) !! Z.to_nat ModInst = Some m /\
    import_resolved d (StoreMgr s) target m m' /\
    insts (Mods (StoreMgr s')) = <[Z.to_nat ModInst := m']> (insts (Mods (StoreMgr s))).
Proof.
  unfold instantiateImport, import_resolved. rewrite bind_get. intros E.
  apply bind_Ok_inv in E as (target & s1 & E1 & E). apply lift_Ok in E1 as [E1 ->].
  destruct (findModule_Ok _ _ _ E1) as [Hel Hname].
  destruct (ImpExtType d); import_prefix E; (split; [done|]); exists target.
  - apply bind_Ok_inv in E as (m0 & s1 & E5 & E). apply getMod_lookup in E5 as (-> & _ & E5).
    apply bind_Ok_inv in E as (ft & s1 & E6 & E). apply lift_Ok in E6 as [E6 ->].
    import_suffix E. assert (m0 = m) as -> by congruence.
    exists m, (addFuncAddr a m). split_and!; try done. by exists a, f, ft.
  - import_suffix E. exists m, (addTableAddr a m). split_and!; try done. by exists a, f.
  - import_suffix E. exists m, (addMemAddr a m). split_and!; try done. by exists a, f.
  - import_suffix E. exists m, (addGlobalAddr a m). split_and!; try done. by exists a, f.
Qed.

(** A slot that no segment has written calls function 0.  The slots of a new table are
    zero, which is the address of a function of the store: an indirect call through any slot
    of the table that instantiation made, before it is written, enters the function at
    address 0 if that has the expected type, where WebAssembly traps. *)
Theorem unwritten_slot_calls_function_zero (TypeIdx i : Z) (Elem : ElemType) (Lim : Limit)
    (s t : Interpreter H) (m : ModuleInstance) (f : FunctionInstance H) :
  0 <= i < Min Lim ->
  getTabInstByIdx 0 s = (Ok (newTable Elem Lim), s) -> currentModule s = (Ok m, s) ->
  get_at (FuncTypes m) TypeIdx = Ok (getFuncTypeOf f) -> pop_u32 s = (Ok i, t) ->
  getInstance 0 (Funcs (StoreMgr s)) = Ok f ->
  runCallIndirectOp TypeIdx s = enterFunction f t.
Proof.
  intros Hi Ht Hm Hf Hp Hz. unfold runCallIndirectOp.
  rewrite bind_eq, Ht, bind_eq, Hm, bind_eq, (deref_lift_run _ _ _ Hf).
  pose proof (pop_u32_store _ _ _ Hp) as Hst.
  unfold pop_u32 in Hp. apply bind_Ok_inv in Hp as (v & s1 & E1 & Hp). apply lift_Ok in Hp as [Hp <-].
  rewrite bind_eq, E1, bind_eq. unfold lift at 1. rewrite Hp, bind_eq.
  assert (getElemAddr i (newTable Elem Lim) = Ok 0) as ->.
  { unfold getElemAddr, newTable, atZ. cbn [FuncElem]. rewrite (proj2 (Z.leb_le 0 i)) by lia.
    rewrite lookup_replicate_2 by lia. done. }
  unfold lift at 1. rewrite bind_get, bind_eq, Hst, (deref_lift_run _ _ _ Hz).
  by rewrite !bool_decide_eq_false_2 by auto.
Qed.

End InstantiateFacts.

(** A module that imports the function "m" of the module without a name. *)
Lemma import_resolution_sound_witness :
  exists target m m', findModule [] count_store = Ok target /\
    insts (Mods count_store) !! 0%nat = Some m /\
    import_resolved (mkImportDesc [] [109] Ext_Function (Content_Function 0)) count_store target m m'.
Proof.
  destruct (import_resolution_sound 0 (mkImportDesc [] [109] Ext_Function (Content_Function 0)) count_interp
    (instantiateImport 0 (mkImportDesc [] [109] Ext_Function (Content_Function 0)) count_interp).2)
    as (_ & t & m & m' & H1 & _ & _ & H2 & H3 & _); [vm_compute; reflexivity|].
  exists t, m, m'. split; [exact H1|split; [exact H2|exact H3]].
Defined.

(** A store with one module, a table of one slot and a memory of one page. *)
Definition seg_interp : Interpreter unit :=
  mkInterp (mkStack [] [] [mkFrame 0 0 0 0]) [] None
    (mkStore
       (mkPool [mkModInst 0 [] [mkFType [] []] [1; 0] [0] [0] [] [] [] [] [] None] 1 1)
       (mkPool [NativeFunction 0 (mkFType [] []) [] []; NativeFunction 0 (mkFType [] []) [] []] 2 2)
       (mkPool [newTable ET_FuncRef (mkLimit HasMin 3 0)] 1 1)
       (mkPool [example_memory] 1 1) empty_pool) tt Mode_Instantiate.

Lemma data_segment_written_witness :
  exists mem', (instantiateData 2 0 (mkDataSegment 0 (const_expr 16) [1; 2; 3]) seg_interp).1 = Ok tt /\
    mem_byte mem' 17 = 2 /\ mem_byte mem' 19 = 0.
Proof.
  destruct (data_segment_written 2 0 16 0 (mkDataSegment 0 (const_expr 16) [1; 2; 3]) seg_interp seg_interp
    (mkModInst 0 [] [mkFType [] []] [1; 0] [0] [0] [] [] [] [] [] None) example_memory)
    as (mem' & E & _ & _ & Hb); try reflexivity; try lia; [by vm_compute|exact example_memory_ok|..].
  { repeat constructor; unfold is_byte; lia. }
  exists mem'. split; [by rewrite E|]. by rewrite !Hb.
Defined.

Lemma element_segment_written_witness :
  exists tab', (instantiateElem 2 0 (mkElementSegment 0 (const_expr 1) [0; 1]) seg_interp).1 = Ok tt /\
    atZ (FuncElem tab') 1 = Some 1.
Proof.
  destruct (element_segment_written 2 0 1 0 (mkElementSegment 0 (const_expr 1) [0; 1]) seg_interp seg_interp
    (mkModInst 0 [] [mkFType [] []] [1; 0] [0] [0] [] [] [] [] [] None)
    (newTable ET_FuncRef (mkLimit HasMin 3 0)) [1; 0])
    as (tab' & r & E & [[Hh _]|(-> & _ & Hin & _)]); try reflexivity; try lia;
    [by vm_compute|by repeat constructor|done|].
  exists tab'. split; [by rewrite E|]. apply (Hin 0). by vm_compute.
Defined.

Lemma unwritten_slot_calls_function_zero_witness :
  runCallIndirectOp 0 (set_StackMgr (set_values [mkVariant U32 2] (StackMgr seg_interp)) seg_interp) =
    enterFunction (NativeFunction 0 (mkFType [] []) [] []) seg_interp.
Proof.
  eapply (unwritten_slot_calls_function_zero 0 2 ET_FuncRef (mkLimit HasMin 3 0)); try reflexivity.
  by vm_compute.
Defined.
