(* ===== verification/VM.v ===== *)
(** * The VM: include/expvm/{vm,configure,costtable}.h, lib/expvm/vm.cpp

    The state machine that drives the loader, the validator and the interpreter.  The
    overloads that take a path have the contents of the files as an argument.  The host
    modules the constructor registers are the parameters [WasiMod] and [EEIMod]. *)
From stdpp Require Import base list numbers option.
From Stdlib Require Import ZArith Lia.
From S2P Require Import Prelude Types Instruction AST Memory FileMgr Loader FormChecker.
From S2P Require Import Validator StackMgr Runtime Interpreter Instantiate.
#[local] Open Scope Z_scope.

(** ** configure.h *)

Inductive VMType : Set := VM_Wasm | VM_Ewasm | VM_Wasi | VM_ONNC.

#[export] Instance VMType_eq_dec : EqDecision VMType.
Proof. solve_decision. Defined.

(** [std::unordered_set<VMType>]. *)
Definition Configure : Type := list VMType.
Definition newConfigure : Configure := [VM_Wasm].
Definition hasVMType (t : VMType) (c : Configure) : bool := bool_decide (t ∈ c).
Definition addVMType (t : VMType) (c : Configure) : Configure :=
  if hasVMType t c then c else t :: c.
Definition removeVMType (t : VMType) (c : Configure) : Configure := filter (fun x => x <> t) c.

(** ** costtable.h *)

Definition CostTable : Type := list (VMType * list Z).

Fixpoint costs_find (t : VMType) (c : CostTable) : option (list Z) :=
  match c with
  | [] => None
  | (t', v) :: c' => if bool_decide (t = t') then Some v else costs_find t c'
  end.
Definition costs_set (t : VMType) (v : list Z) (c : CostTable) : CostTable :=
  (t, v) :: filter (fun p => p.1 <> t) c.

Definition setDefaultCostTable (t : VMType) (c : CostTable) : bool * CostTable :=
  match t with
  | VM_Wasm => (true, costs_set t (replicate 256 1) c)
  | VM_Ewasm => (true, costs_set t (replicate 256 0) c)
  | VM_Wasi => (true, costs_set t (replicate 256 1) c)
  | VM_ONNC => (false, c)
  end.

Definition setCustomCostTable (t : VMType) (Table : list Z) (c : CostTable) : bool * CostTable :=
  if sizeZ Table <? 0xFF then (false, c) else (true, costs_set t Table c).

(** [Costs.at(Wasm)] throws std::out_of_range when that table is missing too. *)
Definition getCostTable (t : VMType) (c : CostTable) : option (list Z) :=
  match costs_find t c with Some v => Some v | None => costs_find VM_Wasm c end.

(** ** vm.h *)

Inductive VMStage : Set := Inited | Loaded | Validated | Instantiated.

#[export] Instance VMStage_eq_dec : EqDecision VMStage.
Proof. solve_decision. Defined.

Definition stage_num (s : VMStage) : Z :=
  match s with Inited => 0 | Loaded => 1 | Validated => 2 | Instantiated => 3 end.
(** [Stage < X] on the enum. *)
Definition stage_lt (a b : VMStage) : bool := stage_num a <? stage_num b.

Section VM.
Context {H : Type}.

Record VM : Type := mkVM {
  Stage : VMStage;
  Mod : option AModule;
  LoaderEngine : Loader;
  ValidatorEngine : FormChecker;
  InterpreterEngine : Interpreter H;
  ImpObjs : list (VMType * ImportObject H);
  CostTab : CostTable
}.

#[local] Abbreviation MV := (M VM).

Definition set_Stage (x : VMStage) (s : VM) : VM :=
  mkVM x (Mod s) (LoaderEngine s) (ValidatorEngine s) (InterpreterEngine s) (ImpObjs s) (CostTab s).
Definition set_Mod (x : option AModule) (s : VM) : VM :=
  mkVM (Stage s) x (LoaderEngine s) (ValidatorEngine s) (InterpreterEngine s) (ImpObjs s) (CostTab s).
Definition set_Loader (x : Loader) (s : VM) : VM :=
  mkVM (Stage s) (Mod s) x (ValidatorEngine s) (InterpreterEngine s) (ImpObjs s) (CostTab s).
Definition set_Validator (x : FormChecker) (s : VM) : VM :=
  mkVM (Stage s) (Mod s) (LoaderEngine s) x (InterpreterEngine s) (ImpObjs s) (CostTab s).
Definition set_Interp (x : Interpreter H) (s : VM) : VM :=
  mkVM (Stage s) (Mod s) (LoaderEngine s) (ValidatorEngine s) x (ImpObjs s) (CostTab s).
Definition set_ImpObjs (x : list (VMType * ImportObject H)) (s : VM) : VM :=
  mkVM (Stage s) (Mod s) (LoaderEngine s) (ValidatorEngine s) (InterpreterEngine s) x (CostTab s).
Definition set_CostTab (x : CostTable) (s : VM) : VM :=
  mkVM (Stage s) (Mod s) (LoaderEngine s) (ValidatorEngine s) (InterpreterEngine s) (ImpObjs s) x.

Definition onLoader {A} (m : M Loader A) : MV A := zoom LoaderEngine set_Loader m.
Definition onValidator {A} (m : M FormChecker A) : MV A := zoom ValidatorEngine set_Validator m.
Definition onInterp {A} (m : M (Interpreter H) A) : MV A := zoom InterpreterEngine set_Interp m.

(** The enclosing [CostTab.setCostTable(T); Measure.setCostTable(CostTab.getCostTable(T))]. *)
Definition useCostTable (t : VMType) (s : VM) : VM :=
  let c := (setDefaultCostTable t (CostTab s)).2 in
  let i := InterpreterEngine s in
  match getCostTable t c with
  | Some Tab => set_Interp (set_Measure (setCostTable Tab <$> Measure i) i) (set_CostTab c s)
  | None => set_CostTab c s
  end.

(** [InterpreterEngine.registerModule(...); ImpObjs.insert(...)]: the result is dropped. *)
Definition useHostModule (t : VMType) (Obj : ImportObject H) : MV unit :=
  try (onInterp (registerHostModule Obj)) ;;;
  modify (fun s => set_ImpObjs
    (if bool_decide (t ∈ (ImpObjs s).*1) then ImpObjs s else (t, Obj) :: ImpObjs s) s).

(** [initVM] with the host modules it makes. *)
Definition initVM (WasiMod EEIMod : ImportObject H) (Config : Configure) : MV unit :=
  modify (useCostTable VM_Wasm) ;;;
  (if hasVMType VM_Wasi Config
   then useHostModule VM_Wasi WasiMod ;;; modify (useCostTable VM_Wasi) else ret tt) ;;;
  (if hasVMType VM_Ewasm Config
   then useHostModule VM_Ewasm EEIMod ;;; modify (useCostTable VM_Ewasm) else ret tt).

(** The members before the body of the constructor runs, for a given store. *)
Definition rawVM (S : StoreManager H) (h : H) : VM :=
  mkVM Inited None newLoader newFormChecker
    (mkInterp newStackManager [] (Some (newMeasurement (replicate 256 0) (2 ^ 64 - 1))) S h
       Mode_Instantiate) [] [].

Definition newVM (WasiMod EEIMod : ImportObject H) (Config : Configure) (S : StoreManager H)
    (h : H) : res unit * VM :=
  initVM WasiMod EEIMod Config (rawVM S h).

(** [if (Stage == VMStage::Instantiated) Stage = VMStage::Validated;] *)
Definition dropInstantiated : MV unit := modify (fun s =>
  if bool_decide (Stage s = Instantiated) then set_Stage Validated s else s).

Definition registerModuleAST (fuel : nat) (Name : list Z) (Module_ : AModule) : MV unit :=
  onValidator (Validator.validate Module_) ;;;
  onInterp (registerWasmModule fuel Module_ Name).

(** The two overloads of [LoaderEngine.parseModule]. *)
Definition loadCode (fuel : nat) (Code : list Z) : MV AModule :=
  onLoader (onFVMgr (parseModule fuel Code)).
Definition loadPath (fs : list Z -> option (list Z)) (fuel : nat) (Path : list Z) : MV AModule :=
  onLoader (onFSMgr (parseModulePath fs fuel Path)).

Definition registerModulePath (fs : list Z -> option (list Z)) (fuel : nat) (Name Path : list Z)
    : MV unit :=
  dropInstantiated ;;;
  let* m := loadPath fs fuel Path in
  registerModuleAST fuel Name m.

Definition registerModuleCode (fuel : nat) (Name Code : list Z) : MV unit :=
  dropInstantiated ;;;
  let* m := loadCode fuel Code in
  registerModuleAST fuel Name m.

Definition registerModuleHost (Obj : ImportObject H) : MV unit :=
  dropInstantiated ;;; onInterp (registerHostModule Obj).

Definition runWasmFileAST (fuel : nat) (Module_ : AModule) (Func : list Z) (Params_ : list ValVariant)
    : MV (list ValVariant) :=
  onValidator (Validator.validate Module_) ;;;
  onInterp (instantiateModule fuel Module_ []) ;;;
  onInterp (invoke fuel Func Params_).

Definition runWasmFilePath (fs : list Z -> option (list Z)) (fuel : nat) (Path Func : list Z)
    (Params_ : list ValVariant) : MV (list ValVariant) :=
  dropInstantiated ;;;
  let* m := loadPath fs fuel Path in
  runWasmFileAST fuel m Func Params_.

Definition runWasmFile (fuel : nat) (Code Func : list Z) (Params_ : list ValVariant)
    : MV (list ValVariant) :=
  dropInstantiated ;;;
  let* m := loadCode fuel Code in
  runWasmFileAST fuel m Func Params_.

Definition loadWasmPath (fs : list Z -> option (list Z)) (fuel : nat) (Path : list Z) : MV unit :=
  let* m := loadPath fs fuel Path in
  modify (set_Mod (Some m)) ;;; modify (set_Stage Loaded).

Definition loadWasm (fuel : nat) (Code : list Z) : MV unit :=
  let* m := loadCode fuel Code in
  modify (set_Mod (Some m)) ;;; modify (set_Stage Loaded).

(** [*Mod.get()]: null is undefined. *)
Definition getModule : MV AModule :=
  let* s := get in match Mod s with Some m => ret m | None => undef UB_deref end.

Definition validateVM : MV unit :=
  let* s := get in
  if stage_lt (Stage s) Loaded then throw WrongVMWorkflow
  else
    let* m := getModule in
    onValidator (Validator.validate m) ;;;
    modify (set_Stage Validated).

Definition instantiateVM (fuel : nat) : MV unit :=
  let* s := get in
  if stage_lt (Stage s) Validated then throw ValidationFailed
  else
    let* m := getModule in
    onInterp (instantiateModule fuel m []) ;;;
    modify (set_Stage Instantiated).

Definition executeVM (fuel : nat) (Func : list Z) (Params_ : list ValVariant) : MV (list ValVariant) :=
  onInterp (invoke fuel Func Params_).

Definition cleanup : MV unit :=
  modify (set_Mod None) ;;;
  onInterp store_reset ;;;
  modify (fun s => set_Interp
    (set_Measure (clearMeasure <$> Measure (InterpreterEngine s)) (InterpreterEngine s)) s) ;;;
  modify (set_Stage Inited).

(** [for (auto &&Func : StoreRef.getFuncExports()) ...] *)
Fixpoint func_list (exports : smap Z) : MV (list (list Z * FType)) :=
  match exports with
  | [] => ret []
  | (n, a) :: l =>
      let* s := get in
      let* f := deref (lift (getInstance a (Funcs (StoreMgr (InterpreterEngine s))))) in
      let* r := func_list l in
      ret ((n, getFuncTypeOf f) :: r)
  end.
Definition getFunctionList : MV (list (list Z * FType)) :=
  let* s := get in
  let* e := lift (getFuncExports (StoreMgr (InterpreterEngine s))) in
  func_list e.

Fixpoint imp_find (t : VMType) (l : list (VMType * ImportObject H)) : option (ImportObject H) :=
  match l with
  | [] => None
  | (t', o) :: l' => if bool_decide (t = t') then Some o else imp_find t l'
  end.
Definition getImportModule (t : VMType) : MV (option (ImportObject H)) :=
  gets (fun s => imp_find t (ImpObjs s)).

End VM.

Arguments VM : clear implicits.
