(* ===== verification/VMFacts.v ===== *)
(** * The VM's state machine *)
From stdpp Require Import base list numbers option.
From Stdlib Require Import ZArith Lia.
From S2P Require Import Prelude Types Instruction AST Memory FileMgr Loader FormChecker.
From S2P Require Import Validator StackMgr Runtime Interpreter EngineSpec EngineRefine.
From S2P Require Import Instantiate StoreFacts VM.
#[local] Open Scope Z_scope.

Section VMFacts.
Context {H : Type}.
#[local] Abbreviation MV := (M (VM H)).

(** ** Calls of the public interface

    [getImportModule] and [getMeasurement] hand out references, through which a client
    changes the environments of the host modules and the measurement between calls. *)

Inductive vm_op : Type :=
| Op_load (Code : list Z)
| Op_validate
| Op_instantiate
| Op_execute (Func : list Z) (Params_ : list ValVariant)
| Op_register (Name Code : list Z)
| Op_registerHost (Obj : ImportObject H)
| Op_runFile (Code Func : list Z) (Params_ : list ValVariant)
| Op_cleanup
| Op_host (f : H -> H)
| Op_measure (f : Measurement -> Measurement)
| Op_loadPath (fs : list Z -> option (list Z)) (Path : list Z)
| Op_registerPath (fs : list Z -> option (list Z)) (Name Path : list Z)
| Op_runPath (fs : list Z -> option (list Z)) (Path Func : list Z) (Params_ : list ValVariant).

Definition run_op (fuel : nat) (op : vm_op) : MV unit :=
  match op with
  | Op_load Code => loadWasm fuel Code
  | Op_validate => validateVM
  | Op_instantiate => instantiateVM fuel
  | Op_execute Func ps => executeVM fuel Func ps ;;; ret tt
  | Op_register Name Code => registerModuleCode fuel Name Code
  | Op_registerHost Obj => registerModuleHost Obj
  | Op_runFile Code Func ps => runWasmFile fuel Code Func ps ;;; ret tt
  | Op_cleanup => cleanup
  | Op_host f => onInterp (modify (fun s => mkInterp (StackMgr s) (Iters s) (Measure s) (StoreMgr s)
      (f (HostState s)) (InsMode s)))
  | Op_measure f => onInterp (modify (fun s => set_Measure (f <$> Measure s) s))
  | Op_loadPath fs Path => loadWasmPath fs fuel Path
  | Op_registerPath fs Name Path => registerModulePath fs fuel Name Path
  | Op_runPath fs Path Func ps => runWasmFilePath fs fuel Path Func ps ;;; ret tt
  end.

(** The states a client of a new VM can bring about: every call returned a result or an
    error code.  The calls may be restricted. *)
Inductive vm_reach_with (Q : vm_op -> Prop) (WasiMod EEIMod : ImportObject H) (Config : Configure) (h : H) :
  VM H -> Prop :=
| reach_new vm :
    newVM WasiMod EEIMod Config newStoreManager h = (Ok tt, vm) -> vm_reach_with Q WasiMod EEIMod Config h vm
| reach_op fuel op vm r vm' :
    vm_reach_with Q WasiMod EEIMod Config h vm -> Q op -> run_op fuel op vm = (r, vm') ->
    match r with Ok _ | Err _ => True | _ => False end ->
    vm_reach_with Q WasiMod EEIMod Config h vm'.

Definition vm_reach : ImportObject H -> ImportObject H -> Configure -> H -> VM H -> Prop :=
  vm_reach_with (fun _ => True).

(** A sequence of calls that return. *)
Fixpoint run_ops (fuel : nat) (ops : list vm_op) (vm : VM H) : option (VM H) :=
  match ops with
  | [] => Some vm
  | op :: ops' =>
      match run_op fuel op vm with
      | (Ok _, vm') | (Err _, vm') => run_ops fuel ops' vm'
      | _ => None
      end
  end.

Lemma run_ops_reach Q WasiMod EEIMod Config h fuel ops vm vm' :
  vm_reach_with Q WasiMod EEIMod Config h vm -> Forall Q ops -> run_ops fuel ops vm = Some vm' ->
  vm_reach_with Q WasiMod EEIMod Config h vm'.
Proof.
  revert vm. induction ops as [|op ops IH]; intros vm Hr Ho; cbn; [by intros [= <-]|].
  inversion_clear Ho as [|? ? Ho1 Hos]. destruct (run_op fuel op vm) as [[[]|e|u|] vm1] eqn:E; try done.
  all: apply IH; [by eapply reach_op|done].
Qed.

Definition store (vm : VM H) : StoreManager H := StoreMgr (InterpreterEngine vm).

Lemma findModule_elem Name (st : StoreManager H) : Name ∈ miName <$> insts (Mods st) ->
  exists m, findModule Name st = Ok m.
Proof.
  intros Hin. unfold findModule. destruct (list_find _ _) as [[i m]|] eqn:E; [by eexists|].
  exfalso. rewrite list_find_None, list.Forall_forall in E.
  apply list_elem_of_fmap in Hin as (m & -> & Hm). by apply (E m Hm).
Qed.

(** A module that is there under the name makes instantiation fail before the store is reset. *)
Lemma instantiateModule_conflict fuel m Name (s : Interpreter H) :
  Name ∈ miName <$> insts (Mods (StoreMgr s)) ->
  instantiateModule fuel m Name s = (Err ModuleNameConflict, set_InsMode Mode_Instantiate s).
Proof.
  intros Hin. unfold instantiateModule, instantiate.
  destruct (findModule_elem Name (StoreMgr s) Hin) as [mi Hf].
  unfold bind at 1, modify. rewrite bind_get. cbn [StoreMgr set_InsMode]. by rewrite Hf.
Qed.

Lemma getModule_run (vm : VM H) m : Mod vm = Some m -> getModule vm = (Ok m, vm).
Proof. intros E. unfold getModule. by rewrite bind_get, E. Qed.

Lemma stage_onLoader {A} (ld : M Loader A) (vm : VM H) a vm' :
  onLoader ld vm = (Ok a, vm') -> Stage vm' = Stage vm.
Proof. unfold onLoader, zoom. destruct (ld _). by injection 1 as _ <-. Qed.

(** What the functions of the host modules, the measurement and the names of the registered
    modules have to satisfy. *)
Context (P : FunctionInstance H -> Prop) (G : option Measurement -> Prop) (N : list Z -> Prop).

Record vm_laws : Prop := mk_vm_laws {
  vl_meter : meter_laws P G;
  vl_clear : forall m, G (Some m) -> G (Some (clearMeasure m)) }.

(** What the constructor needs. *)
Record new_laws : Prop := mk_new_laws {
  nl_new : G (Some (newMeasurement (replicate 256 0) (2 ^ 64 - 1)));
  nl_table : forall Tab m, G (Some m) -> G (Some (setCostTable Tab m)) }.

#[local] Abbreviation sinv := (sinv P G).

Definition host_ok (Obj : ImportObject H) : Prop := object_ok P Obj /\ N (ioName Obj).

Definition op_ok (op : vm_op) : Prop :=
  match op with
  | Op_registerHost Obj => host_ok Obj
  | Op_register Name _ | Op_registerPath _ Name _ => N Name
  | Op_measure f => forall m, G m -> G (f <$> m)
  | _ => True
  end.

(** The stage tells the truth about the module and the store. *)
Record vm_inv (vm : VM H) : Prop := mk_vm_inv {
  vi_store : sinv (InterpreterEngine vm);
  vi_names : Forall N (base_names (store vm));
  vi_loaded : stage_lt (Stage vm) Loaded = false -> is_Some (Mod vm);
  vi_validated : stage_lt (Stage vm) Validated = false ->
    exists m c c', Mod vm = Some m /\ Validator.validate m c = (Ok tt, c');
  vi_instantiated : Stage vm = Instantiated ->
    [] ∈ miName <$> insts (Mods (store vm)) /\ num (Mods (store vm)) = 1 }.

(** ** Preservation *)

Context (HL : vm_laws).

(** Operations of the engines that touch neither the stage nor the module. *)
Lemma inv_onLoader {A} (m : M Loader A) vm : vm_inv vm -> vm_inv (onLoader m vm).2.
Proof. intros []. unfold onLoader, zoom. destruct (m _). by split. Qed.
Lemma inv_onValidator {A} (m : M FormChecker A) vm : vm_inv vm -> vm_inv (onValidator m vm).2.
Proof. intros []. unfold onValidator, zoom. destruct (m _). by split. Qed.

(** Operations on the store, away from the instantiated stage. *)
Lemma inv_onInterp {A} (m : M (Interpreter H) A) vm : vm_inv vm -> Stage vm <> Instantiated ->
  (forall s, sinv s -> Forall N (base_names (StoreMgr s)) ->
     sinv (m s).2 /\ Forall N (base_names (StoreMgr (m s).2))) ->
  vm_inv (onInterp m vm).2.
Proof.
  intros [H1 HN H2 H3 H4] Hs Hm. unfold onInterp, zoom. specialize (Hm _ H1 HN).
  destruct (m (InterpreterEngine vm)) as [r i]. destruct Hm. by split.
Qed.

Lemma inv_execute fuel f ps vm : vm_inv vm -> vm_inv (executeVM fuel f ps vm).2.
Proof.
  intros [H1 HN H2 H3 H4]. unfold executeVM, onInterp, zoom.
  destruct (keeps_invoke P G (vl_meter HL) fuel f ps (InterpreterEngine vm) H1) as [Hk1 Hk2].
  destruct (invoke fuel f ps (InterpreterEngine vm)) as [r i]. cbn in *.
  split; cbn; [done|unfold base_names, store; cbn; by rewrite Hk2|done|done|].
  unfold store. cbn. by rewrite Hk2.
Qed.

Lemma inv_drop vm : vm_inv vm -> exists vm', dropInstantiated vm = (Ok tt, vm') /\ vm_inv vm' /\
  Stage vm' <> Instantiated.
Proof.
  intros [H1 HN H2 H3 H4]. unfold dropInstantiated, modify. case_bool_decide as Hs; eexists.
  - split; [done|]. split; [|done]. rewrite Hs in *. split; cbn; try done; intros; auto.
  - split; [done|]. by split.
Qed.

Lemma bind_inv {A B} (m : MV A) (k : A -> MV B) vm : vm_inv (m vm).2 ->
  (forall a vm', m vm = (Ok a, vm') -> vm_inv vm' -> vm_inv (k a vm').2) -> vm_inv (bind m k vm).2.
Proof. intros Hm Hk. rewrite bind_eq. destruct (m vm) as [[a|e|u|] vm']; try done. by apply Hk. Qed.

Lemma meter_map f : (forall m, G (Some m) -> G (Some (f m))) -> forall o, G o -> G (f <$> o).
Proof. intros Hf [m|] Ho; [by apply Hf|done]. Qed.

Lemma sinv_mode im s : sinv s -> sinv (set_InsMode im s).
Proof. intros []. by split. Qed.

Lemma instantiateModule_ok fuel m Name (s : Interpreter H) : sinv s ->
  sinv (instantiateModule fuel m Name s).2 /\
  base_names (StoreMgr (instantiateModule fuel m Name s).2) = base_names (StoreMgr s) /\
  (forall x, (instantiateModule fuel m Name s).1 = Ok x ->
     Name ∈ miName <$> insts (Mods (StoreMgr (instantiateModule fuel m Name s).2)) /\
     num (Mods (StoreMgr (instantiateModule fuel m Name s).2)) = 1).
Proof.
  intros Hs. unfold instantiateModule. rewrite (bind_Ok (modify _) _ _ tt (set_InsMode Mode_Instantiate s)) by done.
  destruct (instantiate_settled P G (vl_meter HL) fuel m Name (set_InsMode Mode_Instantiate s)
    (sinv_mode _ _ Hs)) as (H1 & Hb & H2).
  split_and!; [done|cbn [InsMode set_InsMode registered] in Hb; rewrite app_nil_r in Hb; by destruct Hb|].
  intros x Hx. destruct (H2 x Hx) as [H3 H4]. split; [done|by apply H4].
Qed.

Lemma registerWasm_ok fuel m Name (s : Interpreter H) : N Name ->
  sinv s -> Forall N (base_names (StoreMgr s)) ->
  sinv (registerWasmModule fuel m Name s).2 /\
  Forall N (base_names (StoreMgr (registerWasmModule fuel m Name s).2)).
Proof.
  intros HN Hs Hb. unfold registerWasmModule.
  rewrite (bind_Ok (modify _) _ _ tt (set_InsMode Mode_ImportWasm s)) by done.
  destruct (instantiate_settled P G (vl_meter HL) fuel m Name (set_InsMode Mode_ImportWasm s)
    (sinv_mode _ _ Hs)) as (H1 & [H2|H2] & _);
    (split; [done|]); rewrite H2; [done|]. apply Forall_app. by repeat constructor.
Qed.

Lemma registerHostModule_ok Obj (s : Interpreter H) : host_ok Obj ->
  sinv s -> Forall N (base_names (StoreMgr s)) ->
  sinv (registerHostModule Obj s).2 /\
  Forall N (base_names (StoreMgr (registerHostModule Obj s).2)).
Proof.
  intros [HO HN] Hs Hb. destruct (registerHost_ok P G Obj s HO Hs) as (H1 & [H2|H2]);
    (split; [done|]); rewrite H2; [done|]. apply Forall_app. by repeat constructor.
Qed.

Lemma instantiate_inv fuel vm : vm_inv vm -> vm_inv (instantiateVM fuel vm).2.
Proof.
  intros Hi. pose proof Hi as [H1 HN H2 H3 H4]. unfold instantiateVM. rewrite bind_get.
  destruct (stage_lt (Stage vm) Validated) eqn:Es; [done|].
  destruct (H3 eq_refl) as (m & c & c' & Em & Hv).
  rewrite (bind_Ok _ _ _ _ _ (getModule_run vm m Em)), bind_eq. unfold onInterp, zoom.
  destruct (decide (Stage vm = Instantiated)) as [E|E].
  - destruct (H4 E) as [Hin Hn]. rewrite (instantiateModule_conflict fuel m [] _ Hin).
    destruct Hi. split; try done. by apply sinv_mode.
  - destruct (instantiateModule_ok fuel m [] (InterpreterEngine vm) H1) as (G1 & Gb & G2).
    assert (Forall N (base_names (StoreMgr (instantiateModule fuel m [] (InterpreterEngine vm)).2))) as GN
      by (by rewrite Gb).
    destruct (instantiateModule fuel m [] (InterpreterEngine vm)) as [[x|e|u|] i]; cbn in *.
    + split; cbn; [done|done|rewrite Em; by eexists|by exists m, c, c'|intros _; by apply (G2 x)].
    + destruct Hi. by split.
    + destruct Hi. by split.
    + destruct Hi. by split.
Qed.

Lemma validate_inv vm : vm_inv vm -> vm_inv (validateVM vm).2.
Proof.
  intros Hi. pose proof Hi as [H1 HN H2 H3 H4]. unfold validateVM. rewrite bind_get.
  destruct (stage_lt (Stage vm) Loaded) eqn:Es; [done|].
  destruct (H2 eq_refl) as [m Em]. rewrite (bind_Ok _ _ _ _ _ (getModule_run vm m Em)).
  apply bind_inv; [by apply inv_onValidator|]. intros [] vm' E _. unfold onValidator, zoom in E.
  destruct (Validator.validate m (ValidatorEngine vm)) as [r c'] eqn:Ev. injection E as -> <-.
  split; cbn; [done|done|rewrite Em; by eexists|by exists m, (ValidatorEngine vm), c'|done].
Qed.

(** A load may put the module in place, register it or run it, from either source. *)
Lemma load_inv (ld : M Loader AModule) vm : vm_inv vm ->
  vm_inv ((let* m := onLoader ld in modify (set_Mod (Some m)) ;;; modify (set_Stage Loaded)) vm).2.
Proof.
  intros Hi. apply bind_inv; [by apply inv_onLoader|]. intros m vm' _ [].
  split; cbn; [done|done|by eexists|done|done].
Qed.

Lemma register_inv (ld : M Loader AModule) fuel Name vm : N Name -> vm_inv vm ->
  vm_inv ((dropInstantiated ;;; let* m := onLoader ld in registerModuleAST fuel Name m) vm).2.
Proof.
  intros HNm Hi. destruct (inv_drop vm Hi) as (vm0 & E & H0 & Hs0).
  rewrite (bind_Ok _ _ _ _ _ E). apply bind_inv; [by apply inv_onLoader|]. intros m vm1 E1 H1.
  assert (Stage vm1 <> Instantiated) as Hs1 by (by rewrite (stage_onLoader _ _ _ _ E1)).
  unfold registerModuleAST. apply bind_inv; [by apply inv_onValidator|]. intros [] vm2 E2 H2.
  apply inv_onInterp; [done| |intros s Hs Hb; by apply registerWasm_ok].
  unfold onValidator, zoom in E2. destruct (Validator.validate _ _). by injection E2 as _ <-.
Qed.

Lemma registerHost_inv Obj vm : host_ok Obj -> vm_inv vm -> vm_inv (registerModuleHost Obj vm).2.
Proof.
  intros HO Hi. destruct (inv_drop vm Hi) as (vm0 & E & H0 & Hs0). unfold registerModuleHost.
  rewrite (bind_Ok _ _ _ _ _ E). apply inv_onInterp; [done|done|]. intros s. by apply registerHostModule_ok.
Qed.

Lemma runFile_inv (ld : M Loader AModule) fuel f ps vm : vm_inv vm ->
  vm_inv ((dropInstantiated ;;; let* m := onLoader ld in runWasmFileAST fuel m f ps) vm).2.
Proof.
  intros Hi. destruct (inv_drop vm Hi) as (vm0 & E & H0 & Hs0).
  rewrite (bind_Ok _ _ _ _ _ E). apply bind_inv; [by apply inv_onLoader|]. intros m vm1 E1 H1.
  assert (Stage vm1 <> Instantiated) as Hs1 by (by rewrite (stage_onLoader _ _ _ _ E1)).
  unfold runWasmFileAST. apply bind_inv; [by apply inv_onValidator|]. intros [] vm2 E2 H2.
  assert (Stage vm2 <> Instantiated) as Hs2.
  { unfold onValidator, zoom in E2. destruct (Validator.validate _ _). by injection E2 as _ <-. }
  apply bind_inv; [|intros [] vm3 _ H3; by apply inv_execute].
  apply inv_onInterp; [done|done|]. intros s Hs Hb.
  destruct (instantiateModule_ok fuel m [] s Hs) as (G1 & -> & _). done.
Qed.

Lemma cleanup_run vm : vm_inv vm -> exists vm', cleanup vm = (Ok tt, vm') /\ vm_inv vm' /\
  Stage vm' = Inited /\ Mod vm' = None /\ num (Mods (store vm')) = 0 /\
  miName <$> insts (Mods (store vm')) = base_names (store vm).
Proof.
  intros [H1 HN _ _ _]. unfold cleanup. unfold bind at 1, modify at 1. unfold onInterp, zoom.
  destruct (store_reset_run P (InterpreterEngine vm) (si_store _ _ _ H1)) as (st & Hr & Hst & Hn & Hb).
  rewrite bind_eq. cbn [InterpreterEngine set_Mod]. rewrite Hr. eexists. split; [done|].
  split_and!; try done. split; try done; cbn.
  - split; [done|]. apply (meter_map _ (vl_clear HL)), H1.
  - rewrite base_names_all by done. rewrite Hb. exact HN.
Qed.

Lemma run_op_inv fuel op vm : op_ok op -> vm_inv vm -> vm_inv (run_op fuel op vm).2.
Proof.
  intros Ho Hi. destruct op; cbn [run_op].
  - apply load_inv, Hi.
  - by apply validate_inv.
  - by apply instantiate_inv.
  - apply bind_inv; [by apply inv_execute|done].
  - by apply register_inv.
  - by apply registerHost_inv.
  - apply bind_inv; [apply runFile_inv, Hi|done].
  - by destruct (cleanup_run vm Hi) as (vm' & -> & ? & _).
  - destruct Hi as [[] ? ? ? ?]. split; try done.
  - destruct Hi as [[] ? ? ? ?]. split; try done. split; [done|]. by apply Ho.
  - apply load_inv, Hi.
  - by apply register_inv.
  - apply bind_inv; [apply runFile_inv, Hi|done].
Qed.

(** The constructor. *)
Context (HN : new_laws).

Definition fresh_inv (vm : VM H) : Prop := vm_inv vm /\ Stage vm <> Instantiated.

Lemma fresh_useCostTable t vm : fresh_inv vm -> fresh_inv (useCostTable t vm).
Proof.
  intros [[[? ?] ? ? ? ?] ?]. unfold useCostTable. destruct (getCostTable _ _); [|by split].
  split; [|done]. split; try done. split; [done|]. by apply (meter_map _ (nl_table HN _)).
Qed.

Lemma fresh_useHostModule t Obj vm : host_ok Obj -> fresh_inv vm -> fresh_inv (useHostModule t Obj vm).2.
Proof.
  intros HO [Hi Hs]. unfold useHostModule. rewrite bind_eq. unfold try.
  pose proof (inv_onInterp (registerHostModule Obj) vm Hi Hs (fun s => registerHostModule_ok Obj s HO)) as Hi'.
  assert (Stage (onInterp (registerHostModule Obj) vm).2 <> Instantiated) as Hs'.
  { unfold onInterp, zoom. by destruct (registerHostModule _ _). }
  destruct (onInterp (registerHostModule Obj) vm) as [[] vm']; cbn in *; try done.
  all: by destruct Hi'.
Qed.

Lemma fresh_initHost t Obj vm : host_ok Obj -> fresh_inv vm ->
  fresh_inv ((useHostModule t Obj ;;; modify (useCostTable t)) vm).2.
Proof.
  intros HO Hf. pose proof (fresh_useHostModule t Obj vm HO Hf) as Hf'. rewrite bind_eq.
  destruct (useHostModule t Obj vm) as [[] vm']; try done. by apply fresh_useCostTable.
Qed.

Lemma newVM_fresh WasiMod EEIMod Config h :
  (hasVMType VM_Wasi Config = true -> host_ok WasiMod) ->
  (hasVMType VM_Ewasm Config = true -> host_ok EEIMod) ->
  fresh_inv (newVM WasiMod EEIMod Config newStoreManager h).2.
Proof.
  intros HW HE. unfold newVM, initVM.
  rewrite (bind_Ok (modify _) _ _ tt (useCostTable VM_Wasm (rawVM newStoreManager h))) by done.
  assert (fresh_inv (useCostTable VM_Wasm (rawVM newStoreManager h))) as H0.
  { apply fresh_useCostTable. split; [|done]. split; try done.
    split; [split; try apply pool_ok_empty; apply Forall_nil_2|apply (nl_new HN)]. }
  set (vm0 := useCostTable _ _) in *. rewrite bind_eq.
  assert (fresh_inv ((if hasVMType VM_Wasi Config
    then useHostModule VM_Wasi WasiMod ;;; modify (useCostTable VM_Wasi) else ret tt) vm0).2) as H1.
  { destruct (hasVMType _ _); [by apply fresh_initHost; auto|done]. }
  destruct ((if hasVMType VM_Wasi Config
    then useHostModule VM_Wasi WasiMod ;;; modify (useCostTable VM_Wasi) else ret tt) vm0)
    as [[] vm1]; try apply H1.
  destruct (hasVMType VM_Ewasm Config); [by apply fresh_initHost; auto|apply H1].
Qed.

Lemma newVM_inv WasiMod EEIMod Config h :
  (hasVMType VM_Wasi Config = true -> host_ok WasiMod) ->
  (hasVMType VM_Ewasm Config = true -> host_ok EEIMod) ->
  vm_inv (newVM WasiMod EEIMod Config newStoreManager h).2.
Proof. intros HW HE. by apply newVM_fresh. Qed.

Lemma reach_inv (WasiMod EEIMod : ImportObject H) (Config : Configure) (h : H) (vm : VM H) :
  (hasVMType VM_Wasi Config = true -> host_ok WasiMod) ->
  (hasVMType VM_Ewasm Config = true -> host_ok EEIMod) -> vm_reach_with op_ok WasiMod EEIMod Config h vm -> vm_inv vm.
Proof.
  intros HW HE. induction 1 as [vm E|fuel op vm r vm' _ IH Ho E _].
  - pose proof (newVM_inv WasiMod EEIMod Config h HW HE) as Hi. by rewrite E in Hi.
  - pose proof (run_op_inv fuel op vm Ho IH) as Hi. by rewrite E in Hi.
Qed.

End VMFacts.

Section Stages.
Context {H : Type}.
#[local] Abbreviation any := (fun _ : FunctionInstance H => True).
#[local] Abbreviation anyM := (fun _ : option Measurement => True).

(** Nothing is asked of the host functions and the measurement. *)
Lemma any_laws : vm_laws any anyM.
Proof. by repeat split. Qed.
Lemma any_new : new_laws anyM.
Proof. done. Qed.

Lemma vm_reach_impl (Q Q' : vm_op -> Prop) (WasiMod EEIMod : ImportObject H) (Config : Configure) (h : H)
    (vm : VM H) : (forall op, Q op -> Q' op) ->
  vm_reach_with Q WasiMod EEIMod Config h vm -> vm_reach_with Q' WasiMod EEIMod Config h vm.
Proof.
  intros HQ. induction 1 as [vm E|fuel op vm r vm' _ IH Ho E Hres]; [by apply reach_new|].
  apply (reach_op _ _ _ _ _ fuel op vm r); auto.
Qed.

Lemma reach_inv_any (WasiMod EEIMod : ImportObject H) (Config : Configure) (h : H) (vm : VM H) :
  vm_reach WasiMod EEIMod Config h vm -> vm_inv any anyM (fun _ => True) vm.
Proof.
  assert (forall Obj, host_ok any (fun _ => True) Obj) as Hany
    by (intros Obj; split; [by apply Forall_true|done]).
  intros Hr. apply (reach_inv any anyM (fun _ => True) any_laws any_new WasiMod EEIMod Config h); [auto..|].
  revert Hr. apply vm_reach_impl. intros [] _; try done. apply Hany.
Qed.

(** [C9] The stage of a VM tells the truth.  In every state that calls of the public
    interface can bring about from a new VM, whatever they return, a VM past the first stage
    holds a module, the module of one that is at least validated has passed the validator,
    an instantiated one has exactly one active module, which is in the store under the empty
    name, and [cleanup] succeeds and leaves no active module, so that every later call of a
    function fails with CallFunctionError. *)
Theorem vm_stage_sound (WasiMod EEIMod : ImportObject H) (Config : Configure) (h : H) (vm : VM H) :
  vm_reach WasiMod EEIMod Config h vm ->
  (Stage vm <> Inited -> is_Some (Mod vm)) /\
  (stage_lt (Stage vm) Validated = false ->
     exists m c c', Mod vm = Some m /\ Validator.validate m c = (Ok tt, c')) /\
  (Stage vm = Instantiated ->
     [] ∈ miName <$> insts (Mods (store vm)) /\ num (Mods (store vm)) = 1) /\
  (exists vm', cleanup vm = (Ok tt, vm') /\ Stage vm' = Inited /\ Mod vm' = None /\
     forall fuel Func ps, (executeVM fuel Func ps vm').1 = Err CallFunctionError).
Proof.
  intros Hr. pose proof (reach_inv_any _ _ _ _ _ Hr) as Hi. pose proof Hi as [H1 HN H2 H3 H4].
  split_and!; [intros Hs; apply H2; by destruct (Stage vm)|done|done|].
  destruct (cleanup_run any anyM (fun _ => True) any_laws vm Hi) as (vm' & Hc & _ & Hs & Hm & Hn & _). exists vm'. split_and!; [done..|].
  intros fuel Func ps. unfold executeVM, onInterp, zoom, invoke. rewrite bind_get.
  unfold getFuncExports. fold (store vm'). rewrite Hn. done.
Qed.

(** A VM cannot instantiate twice.  In every reachable VM that is instantiated,
    [instantiate] fails with ModuleNameConflict, because the name is looked up before the
    store is reset; running other code with [runWasmFile] fails in the same way whenever the
    code loads and is valid. *)
Theorem vm_instantiate_once (WasiMod EEIMod : ImportObject H) (Config : Configure) (h : H) (vm : VM H)
    (fuel : nat) (Code Func : list Z) (Params_ : list ValVariant) (m : AModule) :
  vm_reach WasiMod EEIMod Config h vm -> Stage vm = Instantiated ->
  (instantiateVM fuel vm).1 = Err ModuleNameConflict /\
  ((parseModule fuel Code (FVMgr (LoaderEngine vm))).1 = Ok m ->
   (Validator.validate m (ValidatorEngine vm)).1 = Ok tt ->
   (runWasmFile fuel Code Func Params_ vm).1 = Err ModuleNameConflict).
Proof.
  intros Hr Hs. destruct (reach_inv_any _ _ _ _ _ Hr) as [H1 HN H2 H3 H4].
  destruct (H4 Hs) as [Hin Hn]. rewrite Hs in H3. destruct (H3 eq_refl) as (m0 & c & c' & Em & _). split.
  - unfold instantiateVM. rewrite bind_get, Hs. change (stage_lt Instantiated Validated) with false. cbv iota.
    rewrite (bind_Ok _ _ _ _ _ (getModule_run vm m0 Em)), bind_eq. unfold onInterp, zoom.
    by rewrite (instantiateModule_conflict fuel m0 [] _ Hin).
  - intros Hp Hv. unfold runWasmFile, dropInstantiated. rewrite bind_eq. unfold modify.
    rewrite bool_decide_eq_true_2 by done. rewrite bind_eq. unfold loadCode, onLoader, onFVMgr, zoom.
    cbn [LoaderEngine set_Stage]. destruct (parseModule fuel Code (FVMgr (LoaderEngine vm))) as [r fm].
    cbn in Hp. subst r. unfold runWasmFileAST. rewrite bind_eq. unfold onValidator, zoom.
    cbn [ValidatorEngine set_Loader set_Stage].
    destruct (Validator.validate m (ValidatorEngine vm)) as [r fc]. cbn in Hv. subst r.
    rewrite bind_eq. unfold onInterp, zoom. cbn [InterpreterEngine set_Validator set_Loader set_Stage].
    by rewrite (instantiateModule_conflict fuel m [] _ Hin).
Qed.

(** Loading and validating start afresh, whatever the engines were used for before. *)
Lemma loadWasm_run fuel Code (vm : VM H) m : (parseModule fuel Code newFileMgrVector).1 = Ok m ->
  exists vm', loadWasm fuel Code vm = (Ok tt, vm') /\ Stage vm' = Loaded /\ Mod vm' = Some m /\
    InterpreterEngine vm' = InterpreterEngine vm.
Proof.
  intros Hp. unfold loadWasm, loadCode, onLoader, onFVMgr. rewrite bind_eq. unfold zoom.
  change (parseModule fuel Code (FVMgr (LoaderEngine vm))) with (parseModule fuel Code newFileMgrVector).
  destruct (parseModule fuel Code newFileMgrVector) as [r fm]. cbn in Hp. subst r. by eexists.
Qed.

Lemma validateVM_run (vm : VM H) m : Mod vm = Some m -> Stage vm = Loaded ->
  (Validator.validate m newFormChecker).1 = Ok tt ->
  exists vm', validateVM vm = (Ok tt, vm') /\ Stage vm' = Validated /\ Mod vm' = Some m /\
    InterpreterEngine vm' = InterpreterEngine vm.
Proof.
  intros Em Es Hv. unfold validateVM. rewrite bind_get, Es. change (stage_lt Loaded Loaded) with false.
  cbv iota. rewrite (bind_Ok _ _ _ _ _ (getModule_run vm m Em)), bind_eq. unfold onValidator, zoom.
  change (Validator.validate m (ValidatorEngine vm)) with (Validator.validate m newFormChecker).
  destruct (Validator.validate m newFormChecker) as [r fc]. cbn in Hv. subst r. by eexists.
Qed.

(** With the empty name free, instantiation gets to the sections of the module. *)
Lemma instantiateVM_enters fuel (vm : VM H) m : store_ok any (store vm) -> num (Mods (store vm)) = 0 ->
  Mod vm = Some m -> Stage vm = Validated -> [] ∉ miName <$> insts (Mods (store vm)) ->
  exists a (t : Interpreter H), miName <$> insts (Mods (StoreMgr t)) = (miName <$> insts (Mods (store vm))) ++ [[]] /\
    (instantiateVM fuel vm).1 = (instantiate_body fuel a m t).1.
Proof.
  intros Hs Hn Em Es Hfree. unfold instantiateVM. rewrite bind_get, Es.
  change (stage_lt Validated Validated) with false. cbv iota.
  rewrite (bind_Ok _ _ _ _ _ (getModule_run vm m Em)), bind_eq. unfold onInterp, zoom, instantiateModule.
  rewrite (bind_Ok (modify _) _ _ tt (set_InsMode Mode_Instantiate (InterpreterEngine vm))) by done.
  destruct (instantiate_cut any fuel m [] (set_InsMode Mode_Instantiate (InterpreterEngine vm)))
    as (st & _ & _ & _ & Hb & ->); [|done|].
  { intros mi Hf. apply Hfree. unfold findModule in Hf. destruct (list_find _ _) as [[i x]|] eqn:E; [|done].
    apply list_find_Some in E as (E & Hx & _). apply list_elem_of_fmap. exists x. split; [done|].
    by apply (list_elem_of_lookup_2 _ i). }
  cbn [InsMode set_InsMode]. unfold pushModule, pool_push.
  match goal with |- context [match instantiate_body fuel ?a m ?t with _ => _ end] =>
    exists a, t; split; [|by destruct (instantiate_body fuel a m t) as [[[]|?|?|] ?]] end.
  cbn. rewrite fmap_app, Hb. by rewrite <- base_names_all.
Qed.

(** [C20] A VM can always be used again.  From every state that calls of the public interface
    can bring about, whatever errors they returned, as long as no module was registered under
    the empty name, any code that loads and is valid can be brought to its instantiation:
    [cleanup], [loadWasm] and [validate] succeed in turn, the VM then holds that module with
    only the registered modules in its store, and [instantiate] does not stop at the name
    check but goes through the sections of the module. *)
Theorem vm_restarts (WasiMod EEIMod : ImportObject H) (Config : Configure) (h : H) (vm : VM H)
    (fuel : nat) (Code : list Z) (m : AModule) :
  ioName WasiMod <> [] -> ioName EEIMod <> [] ->
  vm_reach_with (op_ok (fun _ => True) (fun _ => True) (fun n => n <> [])) WasiMod EEIMod Config h vm ->
  (parseModule fuel Code newFileMgrVector).1 = Ok m ->
  (Validator.validate m newFormChecker).1 = Ok tt ->
  exists vm1 vm2 vm3,
    cleanup vm = (Ok tt, vm1) /\ loadWasm fuel Code vm1 = (Ok tt, vm2) /\ validateVM vm2 = (Ok tt, vm3) /\
    Stage vm3 = Validated /\ Mod vm3 = Some m /\
    miName <$> insts (Mods (store vm3)) = base_names (store vm) /\
    forall fuel', exists a (t : Interpreter H),
      miName <$> insts (Mods (StoreMgr t)) = base_names (store vm) ++ [[]] /\
      (instantiateVM fuel' vm3).1 = (instantiate_body fuel' a m t).1.
Proof.
  intros HW HE Hr Hp Hv.
  assert (forall Obj, ioName Obj <> [] -> host_ok any (fun n => n <> []) Obj) as Hany
    by (intros Obj HO; split; [by apply Forall_true|done]).
  assert (vm_inv any anyM (fun n => n <> []) vm) as Hi.
  { apply (reach_inv any anyM _ any_laws any_new WasiMod EEIMod Config h); auto. }
  destruct (cleanup_run any anyM _ any_laws vm Hi) as (vm1 & E1 & H1 & _ & _ & Hn1 & Hb1).
  destruct (loadWasm_run fuel Code vm1 m Hp) as (vm2 & E2 & S2 & M2 & I2).
  destruct (validateVM_run vm2 m M2 S2 Hv) as (vm3 & E3 & S3 & M3 & I3).
  assert (store vm3 = store vm1) as Hst by (unfold store; by rewrite I3, I2).
  exists vm1, vm2, vm3. split_and!; try done; [by rewrite Hst|]. intros fuel'.
  rewrite <- Hb1, <- Hst. apply instantiateVM_enters; [rewrite Hst; apply H1|by rewrite Hst|done|done|].
  rewrite Hst, Hb1. intros Hin. pose proof (vi_names _ _ _ _ Hi) as HN. rewrite list.Forall_forall in HN.
  by apply (HN [] Hin).
Qed.

End Stages.

(** ** Programs, from their bytes *)

Definition i32_module (code : list Z) : list Z :=
  [0; 0x61; 0x73; 0x6D; 1; 0; 0; 0] ++ [1; 5; 1; 0x60; 0; 1; 0x7F] ++ [3; 2; 1; 0] ++
  [7; 5; 1; 1; 109; 0; 0] ++ code.

(** (func (export "m") (result i32) (block (result i32) (i32.const 7))), the same with a
    loop, and the same with an empty body. *)
Definition block_wasm : list Z := i32_module [0x0A; 9; 1; 7; 0; 0x02; 0x7F; 0x41; 7; 0x0B; 0x0B].
Definition loop_wasm : list Z := i32_module [0x0A; 9; 1; 7; 0; 0x03; 0x7F; 0x41; 7; 0x0B; 0x0B].
Definition empty_body_wasm : list Z := i32_module [0x0A; 4; 1; 2; 0; 0x0B].

Definition no_host (name : list Z) : ImportObject unit := newImportObject name.
Definition vm0 : VM unit := (newVM (no_host [119]) (no_host [101]) newConfigure newStoreManager tt).2.
Definition vm_after (ops : list (vm_op (H := unit))) : VM unit :=
  fold_left (fun vm op => (run_op 50 op vm).2) ops vm0.

Definition block_vm : VM unit := vm_after [Op_load block_wasm; Op_validate; Op_instantiate].

Lemma block_vm_reach_with Q : Q (Op_load block_wasm) -> Q Op_validate -> Q Op_instantiate ->
  vm_reach_with Q (no_host [119]) (no_host [101]) newConfigure tt block_vm.
Proof.
  assert (forall op vm, Q op -> vm_reach_with Q (no_host [119]) (no_host [101]) newConfigure tt vm ->
    (run_op 50 op vm).1 = Ok tt ->
    vm_reach_with Q (no_host [119]) (no_host [101]) newConfigure tt (run_op 50 op vm).2) as Hstep.
  { intros op vm Ho Hr E. apply (reach_op _ _ _ _ _ 50 op vm (Ok tt)); [done|done| |done].
    rewrite <- E. apply surjective_pairing. }
  intros. unfold block_vm, vm_after. cbn [fold_left]. do 3 (apply Hstep; [done| |by vm_compute]).
  apply reach_new. unfold vm0. rewrite (surjective_pairing (newVM _ _ _ _ _)) at 1. f_equal.
Qed.

Lemma block_vm_reach : vm_reach (no_host [119]) (no_host [101]) newConfigure tt block_vm.
Proof. by apply block_vm_reach_with. Qed.

Lemma vm_stage_sound_witness :
  exists m c c', Mod block_vm = Some m /\ Validator.validate m c = (Ok tt, c').
Proof.
  apply (vm_stage_sound (no_host [119]) (no_host [101]) newConfigure tt block_vm);
    [apply block_vm_reach|by vm_compute].
Defined.

Definition loop_module : AModule :=
  match (parseModule 50 loop_wasm newFileMgrVector).1 with Ok m => m | _ => empty_module end.

Lemma vm_instantiate_once_witness :
  (instantiateVM 50 block_vm).1 = Err ModuleNameConflict /\
  (runWasmFile 50 loop_wasm [109] [] block_vm).1 = Err ModuleNameConflict.
Proof.
  destruct (vm_instantiate_once (no_host [119]) (no_host [101]) newConfigure tt block_vm 50 loop_wasm
    [109] [] loop_module) as [H1 H2]; [apply block_vm_reach|vm_compute; reflexivity|].
  split; [exact H1|]. apply H2; vm_compute; reflexivity.
Defined.

Lemma vm_restarts_witness : exists vm1 vm2 vm3 : VM unit,
  cleanup block_vm = (Ok tt, vm1) /\ loadWasm 50 loop_wasm vm1 = (Ok tt, vm2) /\
  validateVM vm2 = (Ok tt, vm3) /\ Mod vm3 = Some loop_module.
Proof.
  destruct (vm_restarts (no_host [119]) (no_host [101]) newConfigure tt block_vm 50 loop_wasm loop_module)
    as (vm1 & vm2 & vm3 & H1 & H2 & H3 & _ & H4 & _);
    [done|done|by apply block_vm_reach_with|vm_compute; reflexivity|vm_compute; reflexivity|].
  exists vm1, vm2, vm3. exact (conj H1 (conj H2 (conj H3 H4))).
Defined.

(** ** Results the engine loses *)

Lemma erase_mid_height {A} h (l l' : list A) : erase_mid h 0 l = Ok l' -> sizeZ l' = h.
Proof.
  unfold erase_mid. destruct (_ && _) eqn:E; [|done]. intros [= <-]. unfold sizeZ in *.
  cbn. rewrite length_drop. lia.
Qed.

Lemma sloop_height {H} fuel c d Body (s s' : Interpreter H) :
  sloop fuel c d Body s = (Ok Normal, s') -> sizeZ (values s') = sizeZ (values s).
Proof.
  revert s. induction fuel as [|f IH]; intros s; [done|]. cbn [sloop]. rewrite guarded_run.
  destruct (_ && _); [|done]. intros E. apply bind_Ok_inv in E as (o & s1 & _ & E).
  destruct o as [|n|]; [| |done].
  - apply bind_Ok_inv in E as ([] & s2 & Eu & E). injection E as <-. rewrite unwind_run in Eu.
    destruct (erase_mid _ _ _) as [vs| | |] eqn:Ee; try done. injection Eu as <-.
    by rewrite <- (erase_mid_height _ _ _ Ee).
  - destruct (n =? 0); [|done]. apply bind_Ok_inv in E as ([] & s2 & Eu & E). rewrite unwind_run in Eu.
    destruct (erase_mid _ _ _) as [vs| | |] eqn:Ee; try done. injection Eu as <-.
    rewrite (IH _ E). by rewrite <- (erase_mid_height _ _ _ Ee).
Qed.

(** A loop loses its result.  A loop that ends normally leaves as many values as there
    were before it, whatever its block type says, because its label is pushed with arity 0.
    So the function [(loop (result i32) (i32.const 7))], which is valid Wasm and passes the
    validator, makes the engine erase past the end of its value stack, while the same
    function with a block returns 7. *)
Theorem loop_result_lost :
  (forall H fuel c d Body (s s' : Interpreter H),
     sloop fuel c d Body s = (Ok Normal, s') -> sizeZ (values s') = sizeZ (values s)) /\
  (runWasmFile 50 loop_wasm [109] [] vm0).1 = Undef UB_vector /\
  (runWasmFile 50 block_wasm [109] [] vm0).1 = Ok [mkVariant U32 7].
Proof. split; [intros H; apply sloop_height|]. split; by vm_compute. Qed.

(** Validation does not prevent undefined behaviour.  The function with result i32 and
    an empty body passes the validator, and calling it makes the engine erase past the end
    of its value stack. *)
Theorem valid_module_undefined :
  ((let* m := loadCode 50 empty_body_wasm in
    onValidator (Validator.validate m)) vm0).1 = Ok tt /\
  (runWasmFile 50 empty_body_wasm [109] [] vm0).1 = Undef UB_vector.
Proof. split; by vm_compute. Qed.
