(* ===== verification/HostFunc.v ===== *)
(** * Host functions: include/runtime/hostfunc.h

    The template [HostFunction<T>] turns the member function [T::body] into the virtual
    [run]: it takes the arguments [body] declares from the top of the stack, calls [body]
    with the memory of the caller, and pushes the value [body] assigned to its reference
    parameter, when it has one.  The theorems discharge the interfaces the engine's
    theorems ask of host functions. *)
From stdpp Require Import base list numbers option strings.
From Stdlib Require Import ZArith Lia.
From S2P Require Import Prelude Types Memory StackMgr Runtime.
#[local] Open Scope Z_scope.

(** ** The state a body works on

    The memory instance, the measurement that host modules may refer to, the state of the
    host module, and the result variable [Ret]: [None] while it is uninitialised. *)
Record HostCtx (S : Type) : Type := mkCtx {
  hcMem : MemoryInstance; hcMea : option Measurement; hcEnv : S; hcRet : option Z }.
Arguments mkCtx {S} hcMem hcMea hcEnv hcRet.
Arguments hcMem {S} h.
Arguments hcMea {S} h.
Arguments hcEnv {S} h.
Arguments hcRet {S} h.

(** The parameter pack of [body]: the tuple of its values and the curried function. *)
Fixpoint tuple (Ts : list CType) : Type :=
  match Ts with [] => unit | _ :: Ts' => (Z * tuple Ts')%type end.
Fixpoint fun_of (Ts : list CType) (B : Type) : Type :=
  match Ts with [] => B | _ :: Ts' => Z -> fun_of Ts' B end.

(** [std::apply]. *)
Fixpoint apply {B} (Ts : list CType) : fun_of Ts B -> tuple Ts -> B :=
  match Ts with
  | [] => fun f _ => f
  | _ :: Ts' => fun f a => apply Ts' (f a.1) a.2
  end.

Section Ctx.
Context {S : Type}.

Definition set_hcMem (m : MemoryInstance) (c : HostCtx S) : HostCtx S :=
  mkCtx m (hcMea c) (hcEnv c) (hcRet c).
Definition set_hcMea (m : option Measurement) (c : HostCtx S) : HostCtx S :=
  mkCtx (hcMem c) m (hcEnv c) (hcRet c).
Definition set_hcEnv (e : S) (c : HostCtx S) : HostCtx S :=
  mkCtx (hcMem c) (hcMea c) e (hcRet c).
Definition set_hcRet (r : option Z) (c : HostCtx S) : HostCtx S :=
  mkCtx (hcMem c) (hcMea c) (hcEnv c) r.

(** An operation of the memory instance; [Ret = x]. *)
Definition onMem {A} (m : M MemoryInstance A) : M (HostCtx S) A := zoom hcMem set_hcMem m.
Definition setRet (x : Z) : M (HostCtx S) unit := modify (set_hcRet (Some x)).

(** [getBottomN<std::tuple_element_t<I, Tuple>>(StackMgr, N + I)...] *)
Fixpoint readTuple (Ts : list CType) (N : Z) : M StackManager (tuple Ts) :=
  match Ts with
  | [] => ret tt
  | T :: Ts' =>
      let* v := Stack.getBottomN N in
      let* x := lift (retrieveValue T v) in
      let* xs := readTuple Ts' (N + 1) in
      ret (x, xs)
  end.

(** [((StackMgr.pop(), (void)Indices), ...)] *)
Fixpoint popValues (n : nat) : M StackManager unit :=
  match n with
  | O => ret tt
  | Datatypes.S n' => Stack.pop ;;; popValues n'
  end.

Definition popTuple (Ts : list CType) (N : Z) : M StackManager (tuple Ts) :=
  let* Result := readTuple Ts N in
  popValues (length Ts) ;;; ret Result.

(** The [ErrCode] a body returns. *)
Definition status (r : res unit) : res ErrCode :=
  match r with
  | Ok _ => Ok Success | Err e => Ok e | Undef u => Undef u | NoFuel => NoFuel
  end.

(** [StackMgr.push(Ret)]: reading [Ret] is undefined while nothing was assigned to it. *)
Definition pushRet (RetT : option CType) (Ret : option Z) : M StackManager unit :=
  match RetT, Ret with
  | None, _ => ret tt
  | Some T, Some x => Stack.push (mkVariant T x)
  | Some _, None => undef UB_indet
  end.

Definition hostInvoke (RetT : option CType) (Ts : list CType)
    (body : fun_of Ts (M (HostCtx S) unit))
    (stk : StackManager) (mem : MemoryInstance) (mea : option Measurement) (h : S)
    : res ErrCode * (StackManager * MemoryInstance * option Measurement * S) :=
  let kSize := sizeZ Ts in
  if sizeZ (ValueStack stk) <? kSize then (Ok CallFunctionError, (stk, mem, mea, h))
  else
    match popTuple Ts (sizeZ (ValueStack stk) - kSize) stk with
    | (Ok Tuple, stk1) =>
        let '(r, c) := apply Ts body Tuple (mkCtx mem mea h None) in
        match status r with
        | Ok Status =>
            let '(p, stk2) := pushRet RetT (hcRet c) stk1 in
            (let? _ := p in Ok Status, (stk2, hcMem c, hcMea c, hcEnv c))
        | q => (q, (stk1, hcMem c, hcMea c, hcEnv c))
        end
    | (Err e, stk1) => (Err e, (stk1, mem, mea, h))
    | (Undef u, stk1) => (Undef u, (stk1, mem, mea, h))
    | (NoFuel, stk1) => (NoFuel, (stk1, mem, mea, h))
    end.

(** [initializeFuncType]. *)
Definition initializeFuncType (RetT : option CType) (Ts : list CType) : FType :=
  mkFType (ValTypeFromType <$> Ts)
    (match RetT with Some T => [ValTypeFromType T] | None => [] end).

Definition hostFunction (Cost : Z) (RetT : option CType) (Ts : list CType)
    (body : fun_of Ts (M (HostCtx S) unit)) : HostFunc S :=
  mkHostFunc (initializeFuncType RetT Ts) Cost (hostInvoke RetT Ts body).

End Ctx.

(** A host function whose module keeps its state in a part of a larger one. *)
Definition embedHost {S T} (getter : T -> S) (setter : S -> T -> T) (h : HostFunc S) : HostFunc T :=
  mkHostFunc (hfType h) (hfCost h) (fun stk mem mea t =>
    let '(r, (stk', mem', mea', s')) := hfRun h stk mem mea (getter t) in
    (r, (stk', mem', mea', setter s' t))).

(** A string literal as a [std::string]. *)
Definition chars (s : string) : list Z :=
  Z.of_N ∘ Ascii.N_of_ascii <$> String.list_ascii_of_string s.

(** The constructor of a host module: [addHostFunc] for each name, in order. *)
Definition hostModule {S T} (emb : HostFunc S -> HostFunc T) (Name : string)
    (fs : list (string * HostFunc S)) : ImportObject T :=
  fold_left (fun o f => addHostFunc (chars f.1) (emb f.2) o) fs (newImportObject (chars Name)).
