(* ===== verification/HostFuncFacts.v ===== *)
(** * The host function template meets the engine's interfaces

    [host_values_only] and [host_metered] are what the refinement of the engine and its
    termination ask of host functions; here they are proved of every function the template
    makes, the second from a condition on the body alone. *)
From stdpp Require Import base list numbers option.
From Stdlib Require Import ZArith Lia.
From S2P Require Import Prelude Types Memory StackMgr Runtime Interpreter.
From S2P Require Import EngineRefine EngineFuel HostFunc.
#[local] Open Scope Z_scope.

(** ** Computations on the value stack only *)

Definition values_only {A} (m : M StackManager A) : Prop := exists
    g : list ValVariant -> res A * list ValVariant,
  forall stk, m stk = let '(r, vs) := g (ValueStack stk) in (r, set_values vs stk).

Lemma set_values_id stk : set_values (ValueStack stk) stk = stk.
Proof. by destruct stk. Qed.

Lemma vo_pure {A} (f : list ValVariant -> res A) :
  values_only (fun stk => (f (ValueStack stk), stk)).
Proof. exists (fun vs => (f vs, vs)). intros stk. by rewrite set_values_id. Qed.

Lemma vo_ret {A} (a : A) : values_only (ret a).
Proof. apply (vo_pure (fun _ => Ok a)). Qed.
Lemma vo_lift {A} (r : res A) : values_only (lift r).
Proof. apply (vo_pure (fun _ => r)). Qed.

Lemma vo_bind {A B} (m : M StackManager A) (k : A -> M StackManager B) :
  values_only m -> (forall a, values_only (k a)) -> values_only (bind m k).
Proof.
  intros [g Hg] Hk.
  exists (fun vs => match g vs with
    | (Ok a, vs') => ((k a (mkStack vs' [] [])).1, ValueStack (k a (mkStack vs' [] [])).2)
    | (Err e, vs') => (Err e, vs') | (Undef u, vs') => (Undef u, vs') | (NoFuel, vs') => (NoFuel, vs')
    end).
  intros stk. unfold bind. rewrite Hg. destruct (g (ValueStack stk)) as [[a|e|u|] vs]; try done.
  destruct (Hk a) as [h Hh]. rewrite !Hh. cbn. by destruct (h vs).
Qed.

Lemma vo_getBottomN N : values_only (Stack.getBottomN N).
Proof.
  exists (fun vs => (match (if (0 <=? N) && (N <? sizeZ vs) then Some (Z.to_nat (sizeZ vs - 1 - N))
    else None) ≫= (fun i => vs !! i) with Some v => Ok v | None => Undef UB_vector end, vs)).
  intros stk. unfold Stack.getBottomN, Stack.bottom_index. rewrite set_values_id.
  by destruct (_ ≫= _).
Qed.

Lemma vo_pop : values_only Stack.pop.
Proof.
  exists (fun vs => match vs with v :: vs' => (Ok v, vs') | [] => (Undef UB_vector, []) end).
  intros [[|v vs] ls fs]; done.
Qed.

Lemma vo_push v : values_only (Stack.push v).
Proof. by exists (fun vs => (Ok tt, v :: vs)). Qed.

Create HintDb vo.
#[local] Hint Resolve vo_ret vo_lift vo_getBottomN vo_pop vo_push vo_bind : vo.

Lemma vo_readTuple Ts N : values_only (readTuple Ts N).
Proof. revert N. induction Ts; intros N; cbn; auto 8 with vo. Qed.
Lemma vo_popValues n : values_only (popValues n).
Proof. induction n; cbn; auto with vo. Qed.
#[local] Hint Resolve vo_readTuple vo_popValues : vo.
Lemma vo_popTuple Ts N : values_only (popTuple Ts N).
Proof. unfold popTuple. auto with vo. Qed.
Lemma vo_pushRet T x : values_only (pushRet T x).
Proof. destruct T, x; cbn; auto with vo. apply (vo_lift (Undef UB_indet)). Qed.

(** ** Reading the arguments *)

(** The arguments a body gets from the values [vs], the first of them the deepest. *)
Fixpoint args_of (Ts : list CType) (vs : list ValVariant) : option (tuple Ts) :=
  match Ts with
  | [] => Some tt
  | T :: Ts' =>
      match vs with
      | v :: vs' =>
          match retrieveValue T v, args_of Ts' vs' with
          | Ok x, Some xs => Some (x, xs)
          | _, _ => None
          end
      | [] => None
      end
  end.

Lemma args_of_typed Ts vs : Forall2 has_type (ValTypeFromType <$> Ts) vs ->
  length vs = length Ts /\ exists args, args_of Ts vs = Some args.
Proof.
  revert vs. induction Ts as [|T Ts IH]; intros vs Hv; inversion Hv as [|? ? ? ? H1 H2]; subst; cbn.
  { eauto. }
  destruct (IH _ H2) as (-> & args & ->). rewrite (retrieve_typed _ _ H1). eauto.
Qed.

Lemma getBottomN_at stk vs (k : nat) v : ValueStack stk = vs -> reverse vs !! k = Some v ->
  Stack.getBottomN (Z.of_nat k) stk = (Ok v, stk).
Proof.
  intros <- Hv. unfold Stack.getBottomN, Stack.bottom_index, sizeZ.
  pose proof (lookup_lt_Some _ _ _ Hv) as Hl. rewrite length_reverse in Hl.
  rewrite (proj2 (Z.leb_le 0 _)), (proj2 (Z.ltb_lt _ _)) by lia. cbn.
  rewrite reverse_lookup in Hv by lia.
  replace (Z.to_nat _) with (length (ValueStack stk) - Datatypes.S k)%nat by lia. by rewrite Hv.
Qed.

Lemma readTuple_ok Ts vs args pre stk : args_of Ts vs = Some args ->
  reverse (ValueStack stk) = pre ++ vs ->
  readTuple Ts (sizeZ pre) stk = (Ok args, stk).
Proof.
  revert vs args pre. induction Ts as [|T Ts IH]; intros vs args pre Ha Hs; cbn in *.
  { by simplify_eq. }
  destruct vs as [|v vs]; [done|].
  destruct (retrieveValue T v) as [x|?|?|] eqn:Hx; try done.
  destruct (args_of Ts vs) as [xs|] eqn:Hxs; simplify_eq.
  rewrite (bind_Ok _ _ _ v stk).
  2: { apply (getBottomN_at stk _ (length pre) v eq_refl). rewrite Hs. by apply list_lookup_middle. }
  unfold bind at 1, lift. rewrite Hx. rewrite (bind_Ok _ _ _ xs stk); [done|].
  replace (sizeZ pre + 1) with (sizeZ (pre ++ [v])) by (unfold sizeZ; rewrite length_app; cbn; lia).
  apply IH with vs; [done|]. by rewrite <- app_assoc.
Qed.

Lemma popValues_ok n vs rest stk : ValueStack stk = vs ++ rest -> length vs = n ->
  popValues n stk = (Ok tt, set_values rest stk).
Proof.
  revert vs stk. induction n as [|n IH]; intros [|v vs] stk Hs Hn; try done; cbn in *.
  - by rewrite <- Hs, set_values_id.
  - unfold bind, Stack.pop. rewrite Hs. rewrite (IH vs); [done|done|lia].
Qed.

Lemma popTuple_ok Ts vs args rest stk : args_of Ts vs = Some args -> length vs = length Ts ->
  ValueStack stk = reverse vs ++ rest ->
  popTuple Ts (sizeZ (ValueStack stk) - sizeZ Ts) stk = (Ok args, set_values rest stk).
Proof.
  intros Ha Hl Hs. unfold popTuple.
  replace (sizeZ (ValueStack stk) - sizeZ Ts) with (sizeZ (reverse rest)).
  2: { unfold sizeZ. rewrite Hs, length_app, !length_reverse. lia. }
  rewrite (bind_Ok _ _ _ args stk).
  2: { apply readTuple_ok with vs; [done|]. by rewrite Hs, reverse_app, reverse_involutive. }
  rewrite (bind_Ok _ _ _ tt (set_values rest stk)); [done|].
  apply popValues_ok with (reverse vs); [done|]. by rewrite length_reverse.
Qed.

Lemma mkVariant_typed T x : has_type (ValTypeFromType T) (mkVariant T x).
Proof. by destruct T. Qed.

(** A value of the C++ type, and arguments that are. *)
Definition in_type (T : CType) (x : Z) : Prop :=
  match T with S32 => in_s 32 x | S64 => in_s 64 x | _ => in_u (bits T) x end.
Fixpoint tuple_ok (Ts : list CType) : tuple Ts -> Prop :=
  match Ts with [] => fun _ => True | T :: Ts' => fun a => in_type T a.1 /\ tuple_ok Ts' a.2 end.

Lemma of_bits_in_type T x : in_type T (of_bits T x).
Proof. destruct T; cbn -[Z.pow]; (apply wrap_range || apply sgn_range); done. Qed.

Section HostFacts.
Context {S : Type}.

(** ** The engine's interfaces *)

Lemma hostFunction_values_only Cost RetT Ts (body : fun_of Ts (M (HostCtx S) unit)) :
  host_values_only (hostFunction Cost RetT Ts body).
Proof.
  exists (fun vs mem mea hs =>
    let '(r, (stk, mem', mea', hs')) := hostInvoke RetT Ts body (mkStack vs [] []) mem mea hs in
    (r, (ValueStack stk, mem', mea', hs'))).
  intros stk mem mea hs. cbn. unfold hostInvoke. cbn [ValueStack].
  destruct (_ <? _) eqn:E; [by cbn; rewrite set_values_id|].
  destruct (vo_popTuple Ts (sizeZ (ValueStack stk) - sizeZ Ts)) as [g Hg].
  rewrite !Hg. cbn [ValueStack]. destruct (g (ValueStack stk)) as [[t|e|u|] vs]; try done.
  destruct (apply Ts body t _) as [r c]. destruct (status r) as [q|e|u|]; try done.
  destruct (vo_pushRet RetT (hcRet c)) as [g' Hg']. rewrite !Hg'. cbn [ValueStack set_values].
  destruct (g' vs) as [p vs']. done.
Qed.

Lemma pushRet_fuel T x stk : (pushRet T x stk).1 <> NoFuel.
Proof. by destruct T, x. Qed.

(** Reading the arguments cannot fail with an error, and gives values of their types. *)
Lemma readTuple_outcome Ts N stk : exists r, readTuple Ts N stk = (r, stk) /\
  match r with Ok args => tuple_ok Ts args | Undef _ => True | _ => False end.
Proof.
  revert N. induction Ts as [|T Ts IH]; intros N; cbn; [by eexists|]. unfold bind.
  unfold Stack.getBottomN. destruct (_ ≫= _) as [v|]; [|by eexists].
  unfold lift. destruct (retrieveValue T v) as [x|e|u|] eqn:Hx; unfold retrieveValue in Hx;
    destruct (_ && _); simplify_eq; [|by eexists].
  destruct (IH (N + 1)) as ([xs|e|u|] & -> & Hxs); try done; [|by eexists].
  eexists; split; [done|]. split; [apply of_bits_in_type|done].
Qed.

Lemma popTuple_outcome Ts N stk : match (popTuple Ts N stk).1 with
  | Ok args => tuple_ok Ts args | Undef _ => True | _ => False end.
Proof.
  unfold popTuple, bind. destruct (readTuple_outcome Ts N stk) as ([t|e|u|] & -> & Ht); try done.
  assert (forall n s, (popValues n s).1 = Ok tt \/ exists u, (popValues n s).1 = Undef u) as Hp.
  { clear. induction n as [|n IH]; intros s; cbn; [by left|]. unfold bind, Stack.pop.
    destruct (ValueStack s); cbn; eauto. }
  destruct (Hp (length Ts) stk) as [Hq|[u Hq]], (popValues (length Ts) stk) as [? ?]; cbn in *; by subst.
Qed.

(** What a body does to the measurement is what the function does to it. *)
Lemma hostInvoke_meter (P : option Measurement -> Prop) RetT Ts (body : fun_of Ts (M (HostCtx S) unit))
    stk mem mea h : P mea ->
  (forall args c, tuple_ok Ts args -> hcMea c = mea ->
     (apply Ts body args c).1 <> NoFuel /\ P (hcMea (apply Ts body args c).2)) ->
  let '(r, (_, _, mea', _)) := hostInvoke RetT Ts body stk mem mea h in r <> NoFuel /\ P mea'.
Proof.
  intros HP Hb. unfold hostInvoke. destruct (_ <? _); [done|].
  pose proof (popTuple_outcome Ts (sizeZ (ValueStack stk) - sizeZ Ts) stk) as Ht.
  destruct (popTuple Ts _ stk) as [[t|e|u|] stk1]; cbn in Ht; try done.
  destruct (Hb t (mkCtx mem mea h None) Ht eq_refl) as (Hn & HP').
  destruct (apply Ts body t _) as [[[]|e|u|] c]; cbn in *; try done.
  all: pose proof (pushRet_fuel RetT (hcRet c) stk1); by destruct (pushRet _ _ stk1) as [[] stk2].
Qed.

(** A body that returns, keeps the meter and gives nothing back. *)
Definition body_metered (L : Z) (m : M (HostCtx S) unit) : Prop := forall c mea,
  hcMea c = Some mea -> metered L mea ->
  (m c).1 <> NoFuel /\ exists mea', hcMea (m c).2 = Some mea' /\ metered L mea' /\
    CostSum mea <= CostSum mea'.

Lemma hostFunction_metered L Cost RetT Ts (body : fun_of Ts (M (HostCtx S) unit)) :
  0 <= Cost -> L + Cost < 2 ^ 64 ->
  (forall args, tuple_ok Ts args -> body_metered L (apply Ts body args)) ->
  host_metered L (hostFunction Cost RetT Ts body).
Proof.
  intros Hc HL Hb. split_and!; [done|done|]. intros stk mem m hs Hm.
  apply (hostInvoke_meter (fun o => exists m', o = Some m' /\ metered L m' /\ CostSum m <= CostSum m')).
  - exists m. split_and!; [done|done|lia].
  - intros args c Ha Hc'. by apply (Hb args Ha c m).
Qed.

Lemma embedHost_values_only {T} (getter : T -> S) setter h :
  host_values_only h -> host_values_only (embedHost getter setter h).
Proof.
  intros [g Hg]. exists (fun vs mem mea t =>
    let '(r, (vs', mem', mea', s')) := g vs mem mea (getter t) in (r, (vs', mem', mea', setter s' t))).
  intros stk mem mea t. cbn. rewrite Hg. by destruct (g _ _ _ _) as [? [[[??]?]?]].
Qed.

Lemma embedHost_metered {T} L (getter : T -> S) setter h :
  host_metered L h -> host_metered L (embedHost getter setter h).
Proof.
  intros (H1 & H2 & Hr). split_and!; [done|done|]. intros stk mem m hs Hm. cbn.
  specialize (Hr stk mem m (getter hs) Hm). by destruct (hfRun _ _ _ _ _) as [? [[[??]?]?]].
Qed.

Lemma onMem_run {A} (m : M MemoryInstance A) (c : HostCtx S) r mem :
  m (hcMem c) = (r, mem) -> onMem m c = (r, set_hcMem mem c).
Proof. intros Hm. unfold onMem, zoom. by rewrite Hm. Qed.

(** ** The calling convention *)

Lemma hostInvoke_ok RetT Ts (body : fun_of Ts (M (HostCtx S) unit)) vs rest args stk mem mea h r c :
  args_of Ts vs = Some args -> length vs = length Ts -> ValueStack stk = reverse vs ++ rest ->
  apply Ts body args (mkCtx mem mea h None) = (r, c) ->
  hostInvoke RetT Ts body stk mem mea h =
  match status r with
  | Ok Status =>
      let '(p, stk2) := pushRet RetT (hcRet c) (set_values rest stk) in
      (let? _ := p in Ok Status, (stk2, hcMem c, hcMea c, hcEnv c))
  | q => (q, (set_values rest stk, hcMem c, hcMea c, hcEnv c))
  end.
Proof.
  intros Ha Hl Hs Hb. unfold hostInvoke.
  assert ((sizeZ (ValueStack stk) <? sizeZ Ts) = false) as ->.
  { apply Z.ltb_ge. unfold sizeZ. rewrite Hs, length_app, length_reverse. lia. }
  rewrite (popTuple_ok Ts vs args rest) by done. by rewrite Hb.
Qed.

(** The calling convention of host functions.  When the values on top of the stack
    have the types the function declares, [run] takes exactly them off, calls the body once
    with the deepest of them as its first argument, and returns the status of the body; a
    body that assigned its result leaves one value of the declared type on the rest of the
    stack, read back as what the body assigned. *)
Theorem host_call_convention (Cost : Z) (RetT : option CType) (Ts : list CType)
    (body : fun_of Ts (M (HostCtx S) unit)) (vs rest : list ValVariant) (stk : StackManager)
    (mem : MemoryInstance) (mea : option Measurement) (h : S) :
  let f := hostFunction Cost RetT Ts body in
  Forall2 has_type (Params (hfType f)) vs -> ValueStack stk = reverse vs ++ rest ->
  exists args, args_of Ts vs = Some args /\
    forall r c, apply Ts body args (mkCtx mem mea h None) = (r, c) ->
    (RetT <> None -> is_Some (hcRet c)) ->
    exists out, hfRun f stk mem mea h =
      (status r, (set_values (match status r with Ok _ => out | _ => [] end ++ rest) stk,
                  hcMem c, hcMea c, hcEnv c)) /\
      Forall2 has_type (Returns (hfType f)) out /\
      forall T x, RetT = Some T -> hcRet c = Some x ->
        exists v, out = [v] /\ retrieveValue T v = Ok (of_bits T (to_bits T x)).
Proof.
  cbn. intros Hv Hs. destruct (args_of_typed _ _ Hv) as (Hl & args & Ha).
  exists args. split; [done|]. intros r c Hb Hret.
  rewrite (hostInvoke_ok RetT Ts body vs rest args stk mem mea h r c) by done.
  destruct RetT as [T|].
  - destruct Hret as [x Hx]; [done|]. rewrite Hx. exists [mkVariant T x].
    split_and!.
    + destruct r; cbn; done.
    + repeat constructor. apply mkVariant_typed.
    + intros T' x' [= <-] [= <-]. exists (mkVariant T x). by rewrite retrieve_mkVariant.
  - exists []. split_and!; [destruct r; cbn; done|constructor|done].
Qed.

End HostFacts.

(** A host function with a pair of arguments: [Ret = A - B]. *)
Definition sub_body : fun_of [U64; U32] (M (HostCtx unit) unit) := fun A B => setRet (A - B).

Lemma host_call_convention_witness : exists out,
  hfRun (hostFunction 2 (Some U32) [U64; U32] sub_body)
    (mkStack [mkVariant U32 2; mkVariant U64 7; mkVariant FLT 9] [] [])
    (mkMemory false 0 0 0 []) None tt
  = (Ok Success, (mkStack (out ++ [mkVariant FLT 9]) [] [], mkMemory false 0 0 0 [], None, tt)) /\
  exists v, out = [v] /\ retrieveValue U32 v = Ok 5.
Proof.
  destruct (host_call_convention 2 (Some U32) [U64; U32] sub_body [mkVariant U64 7; mkVariant U32 2]
    [mkVariant FLT 9] (mkStack [mkVariant U32 2; mkVariant U64 7; mkVariant FLT 9] [] [])
    (mkMemory false 0 0 0 []) None tt) as (args & Ha & Hrun).
  - repeat constructor.
  - reflexivity.
  - cbn in Ha. injection Ha as <-.
    destruct (Hrun _ _ eq_refl) as (out & Hf & _ & Hv); [eexists; reflexivity|].
    exists out. split; [exact Hf|]. exact (Hv U32 5 eq_refl eq_refl).
Defined.
