(* ===== verification/HexStr.v ===== *)
(** * Hexadecimal strings: include/support/hexstr.h

    The conversions between byte vectors and hexadecimal strings the EEI environment and
    the tools use.  A [std::string] is a list of character codes. *)
From stdpp Require Import base list numbers option.
From Stdlib Require Import ZArith Lia.
From S2P Require Import Prelude.
#[local] Open Scope Z_scope.

Definition convertCharToHex (C : Z) : Z :=
  if (48 <=? C) && (C <=? 57) then C - 48
  else if (97 <=? C) && (C <=? 102) then C - 97 + 10
  else if (65 <=? C) && (C <=? 70) then C - 65 + 10
  else 0.

(** [snprintf(Buf, 3, "%02x", B)] *)
Definition hex_digit (d : Z) : Z := if d <? 10 then 48 + d else 97 + (d - 10).
Definition hex_byte (B : Z) : list Z := [hex_digit (B / 16); hex_digit (B mod 16)].

(** [std::string(Padding - S.length(), '0').append(S)] when [S] is shorter than [Padding]. *)
Definition pad_zeros (Padding : Z) (S : list Z) : list Z :=
  replicate (Z.to_nat (Padding - sizeZ S)) 48 ++ S.

Definition convertBytesToHexStr (Src : list Z) (Padding : Z) (IsLittleEndian : bool) : list Z :=
  pad_zeros Padding (concat (hex_byte <$> (if IsLittleEndian then reverse Src else Src))).

Definition convertValVecToHexStr (Src : list Z) (Padding : Z) : list Z :=
  convertBytesToHexStr Src Padding true.

(** [CL + (CH << 4)] as an unsigned char, for the pairs of an even string. *)
Fixpoint hex_pairs (S : list Z) : list Z :=
  match S with
  | CH :: CL :: S' =>
      wrap 8 (convertCharToHex CL + Z.shiftl (convertCharToHex CH) 4) :: hex_pairs S'
  | _ => []
  end.

(** The same over the reversed string, where the low digit comes first. *)
Fixpoint hex_pairs_rev (S : list Z) : list Z :=
  match S with
  | CL :: CH :: S' =>
      wrap 8 (convertCharToHex CL + Z.shiftl (convertCharToHex CH) 4) :: hex_pairs_rev S'
  | _ => []
  end.

Definition convertHexStrToBytes (Src : list Z) (Padding0 : Z) (IsLittleEndian : bool) : list Z :=
  let Padding := if Z.odd Padding0 then wrap 32 (Padding0 + 1) else Padding0 in
  if sizeZ Src =? 0 then []
  else
    let S := pad_zeros Padding Src in
    let S := if Z.odd (sizeZ S) then 48 :: S else S in
    if IsLittleEndian then hex_pairs_rev (reverse S) else hex_pairs S.

(** The flag of the byte order is not passed on. *)
Definition convertHexStrToValVec (Src : list Z) (Padding : Z) : list Z :=
  convertHexStrToBytes Src Padding false.

(** ** Round trips *)

Lemma hex_byte_back b : is_byte b ->
  wrap 8 (convertCharToHex (hex_digit (b mod 16)) + Z.shiftl (convertCharToHex (hex_digit (b / 16))) 4)
  = b.
Proof.
  intros Hb. apply Z.eqb_eq.
  apply (byte_forall (fun b => wrap 8 (convertCharToHex (hex_digit (b mod 16)) +
    Z.shiftl (convertCharToHex (hex_digit (b / 16))) 4) =? b) b); [by vm_compute|done].
Qed.

Lemma length_hex bs : sizeZ (concat (hex_byte <$> bs)) = 2 * sizeZ bs.
Proof. unfold sizeZ. induction bs; cbn in *; lia. Qed.

Lemma hex_pairs_hex bs S : Forall is_byte bs ->
  hex_pairs (concat (hex_byte <$> bs) ++ S) = bs ++ hex_pairs S.
Proof. induction 1; cbn -[wrap Z.div Z.modulo]; [done|]. rewrite hex_byte_back by done. by f_equal. Qed.

Lemma hex_pairs_zeros n S : hex_pairs (replicate (2 * n) 48 ++ S) = replicate n 0 ++ hex_pairs S.
Proof.
  induction n as [|n IH]; [done|].
  replace (2 * Datatypes.S n)%nat with (Datatypes.S (Datatypes.S (2 * n))) by lia.
  cbn [replicate app hex_pairs]. by rewrite IH.
Qed.

Lemma hex_pairs_rev_app (n : nat) S1 S2 : length S1 = (2 * n)%nat ->
  hex_pairs_rev (S1 ++ S2) = hex_pairs_rev S1 ++ hex_pairs_rev S2.
Proof.
  revert S1. induction n as [|n IH]; intros [|a [|b S1]]; cbn -[wrap]; intros; try done; try lia.
  f_equal. apply IH. lia.
Qed.

(** Reading backwards gives the bytes backwards. *)
Lemma hex_pairs_reverse (n : nat) S : length S = (2 * n)%nat ->
  hex_pairs_rev (reverse S) = reverse (hex_pairs S).
Proof.
  revert S. induction n as [|n IH]; intros [|a [|b S]] HS; cbn in HS; try done; try lia.
  cbn [hex_pairs]. rewrite !reverse_cons. rewrite <- app_assoc.
  rewrite (hex_pairs_rev_app n) by (rewrite length_reverse; lia).
  rewrite IH by lia. done.
Qed.

Lemma odd_double n : Z.odd (2 * n) = false.
Proof. rewrite <- Z.negb_even, Z.even_mul. done. Qed.

(** Two conversions with the same even padding. *)
Lemma hex_back (LE : bool) (w : Z) Src : Forall is_byte Src -> 0 < w ->
  convertHexStrToBytes (convertBytesToHexStr Src (2 * w) LE) (2 * w) LE =
  if LE then Src ++ replicate (Z.to_nat (w - sizeZ Src)) 0
  else replicate (Z.to_nat (w - sizeZ Src)) 0 ++ Src.
Proof.
  intros Hb Hw. unfold convertHexStrToBytes, convertBytesToHexStr. rewrite odd_double.
  set (bs := if LE then reverse Src else Src).
  assert (sizeZ bs = sizeZ Src) as Hl by (subst bs; unfold sizeZ; destruct LE; by rewrite ?length_reverse).
  assert (Forall is_byte bs) as Hbs by (subst bs; destruct LE; [by apply Forall_reverse|done]).
  set (k := Z.to_nat (w - sizeZ Src)).
  assert (pad_zeros (2 * w) (concat (hex_byte <$> bs)) =
    replicate (2 * k) 48 ++ concat (hex_byte <$> bs)) as Hp.
  { unfold pad_zeros. rewrite length_hex, Hl. f_equal. f_equal. lia. }
  assert (sizeZ (pad_zeros (2 * w) (concat (hex_byte <$> bs))) = 2 * (Z.of_nat k + sizeZ bs)) as Hs.
  { rewrite Hp. pose proof (length_hex bs). unfold sizeZ in *. rewrite length_app, length_replicate. lia. }
  assert (0 < Z.of_nat k + sizeZ bs) by (unfold sizeZ in *; lia).
  rewrite Hs. rewrite (proj2 (Z.eqb_neq _ _)) by lia.
  assert (pad_zeros (2 * w) (pad_zeros (2 * w) (concat (hex_byte <$> bs))) =
    pad_zeros (2 * w) (concat (hex_byte <$> bs))) as ->.
  { unfold pad_zeros at 1. rewrite Hs. replace (Z.to_nat _) with 0%nat; [done|]. unfold sizeZ in *. lia. }
  rewrite Hs, odd_double.
  assert (hex_pairs (pad_zeros (2 * w) (concat (hex_byte <$> bs))) = replicate k 0 ++ bs) as Hpairs.
  { rewrite Hp, hex_pairs_zeros. f_equal. rewrite <- (app_nil_r (concat _)), hex_pairs_hex by done.
    apply app_nil_r. }
  destruct LE; [|exact Hpairs].
  rewrite (hex_pairs_reverse (Z.to_nat (Z.of_nat k + sizeZ bs))) by (unfold sizeZ in *; lia).
  rewrite Hpairs, reverse_app, reverse_replicate. subst bs. by rewrite reverse_involutive.
Qed.

(** Hexadecimal strings read back.  A byte vector printed with either byte order and
    read with the same order and padding is the vector, extended with zero bytes on its
    most significant side up to the padding; the value vectors, printed little endian and
    read big endian, come back reversed. *)
Theorem hex_string_roundtrip (Src : list Z) (w : Z) : Forall is_byte Src -> 0 < w ->
  convertHexStrToBytes (convertBytesToHexStr Src (2 * w) false) (2 * w) false
    = replicate (Z.to_nat (w - sizeZ Src)) 0 ++ Src /\
  convertHexStrToBytes (convertBytesToHexStr Src (2 * w) true) (2 * w) true
    = Src ++ replicate (Z.to_nat (w - sizeZ Src)) 0 /\
  convertHexStrToValVec (convertValVecToHexStr Src (2 * w)) (2 * w)
    = replicate (Z.to_nat (w - sizeZ Src)) 0 ++ reverse Src.
Proof.
  intros Hb Hw. split_and!.
  - exact (hex_back false w Src Hb Hw).
  - exact (hex_back true w Src Hb Hw).
  - pose proof (hex_back false w (reverse Src)) as H.
    assert (sizeZ (reverse Src) = sizeZ Src) as E by (unfold sizeZ; by rewrite length_reverse).
    rewrite E in H. apply H; [by apply Forall_reverse|done].
Qed.

Lemma hex_string_roundtrip_witness :
  convertHexStrToValVec (convertValVecToHexStr [1; 2; 255] 8) 8 = [0; 255; 2; 1].
Proof.
  apply (hex_string_roundtrip [1; 2; 255] 4); [|lia].
  repeat constructor; lia.
Defined.

(** The digits of either case, and a string of odd length. *)
Example hex_examples :
  convertBytesToHexStr [18; 171] 6 false = [48; 48; 49; 50; 97; 98] /\
  convertHexStrToBytes [65; 98; 99] 2 false = [10; 188] /\
  convertHexStrToBytes [65; 98; 99] 2 true = [188; 10] /\
  convertHexStrToBytes [] 40 false = [].
Proof. vm_compute. done. Qed.
