(* ===== verification/CString.v ===== *)
(** * Numbers in text: what the tools and the snapshots use of <string>, <cstdlib> and boost

    A [const char *] stands for the characters before the first zero.  The conversions of
    the C and C++ libraries are those of the "C" locale on a platform with 64-bit [long];
    an exception nobody catches ends the program ([UB_throw]). *)
From stdpp Require Import base list numbers option.
From Stdlib Require Import ZArith Lia.
From Stdlib Require Import Floats.SpecFloat.
From S2P Require Import Prelude Types Float HexStr.
#[local] Open Scope Z_scope.

(** The characters a [const char *] to [s] stands for. *)
Fixpoint c_str (s : list Z) : list Z :=
  match s with
  | [] => []
  | c :: s' => if c =? 0 then [] else c :: c_str s'
  end.

(** ** Integers *)

Definition isspace (c : Z) : bool := (c =? 32) || ((9 <=? c) && (c <=? 13)).

Fixpoint skip_space (s : list Z) : list Z :=
  match s with
  | c :: s' => if isspace c then skip_space s' else s
  | [] => []
  end.

(** An optional sign. *)
Definition take_sign (s : list Z) : bool * list Z :=
  match s with
  | 43 :: s' => (false, s')
  | 45 :: s' => (true, s')
  | _ => (false, s)
  end.

(** The value of a digit below [base], for bases up to 16. *)
Definition digit_value (base c : Z) : option Z :=
  let v := if (48 <=? c) && (c <=? 57) then c - 48
           else if (97 <=? c) && (c <=? 102) then c - 87
           else if (65 <=? c) && (c <=? 70) then c - 55
           else 36 in
  if v <? base then Some v else None.

(** The number the longest run of digits stands for, appended to those of [acc], how many
    digits there were, and what follows. *)
Fixpoint scan (base acc cnt : Z) (s : list Z) : Z * Z * list Z :=
  match s with
  | c :: s' =>
      match digit_value base c with
      | Some d => scan base (base * acc + d) (cnt + 1) s'
      | None => (acc, cnt, s)
      end
  | [] => (acc, cnt, [])
  end.

Definition starts_digit (base : Z) (s : list Z) : bool :=
  match s with c :: _ => bool_decide (is_Some (digit_value base c)) | [] => false end.

(** [0x] counts as a prefix only when a digit follows. *)
Definition skip_0x (s : list Z) : list Z :=
  match s with
  | 48 :: x :: s' => if ((x =? 120) || (x =? 88)) && starts_digit 16 s' then s' else s
  | _ => s
  end.

(** The sign and the magnitude the [strto] functions find, if they find digits. *)
Definition strto (base : Z) (Str : list Z) : option (bool * Z) :=
  let '(neg, s) := take_sign (skip_space Str) in
  let s := if base =? 16 then skip_0x s else s in
  if starts_digit base s then Some (neg, (scan base 0 0 s).1.1) else None.

Definition signed (nm : bool * Z) : Z := if nm.1 then - nm.2 else nm.2.

(** [std::strtoull(Str, nullptr, 16)]: 0 without digits, the largest value past the range. *)
Definition strtoull16 (Str : list Z) : Z :=
  match strto 16 Str with
  | None => 0
  | Some nm => if 2 ^ 64 <=? nm.2 then 2 ^ 64 - 1 else wrap 64 (signed nm)
  end.

(** [std::stoul] and [std::stoull]: they throw where [strtoull] reports an error. *)
Definition stoull (base : Z) (Str : list Z) : res Z :=
  match strto base Str with
  | None => Undef UB_throw
  | Some nm => if 2 ^ 64 <=? nm.2 then Undef UB_throw else Ok (wrap 64 (signed nm))
  end.
Definition stoul (Str : list Z) : res Z := stoull 10 Str.
Definition stoull16 (Str : list Z) : res Z := stoull 16 Str.

(** [std::stol] and [std::stoll]. *)
Definition stoll (Str : list Z) : res Z :=
  match strto 10 Str with
  | None => Undef UB_throw
  | Some nm =>
      if (- 2 ^ 63 <=? signed nm) && (signed nm <? 2 ^ 63) then Ok (signed nm) else Undef UB_throw
  end.
Definition stol (Str : list Z) : res Z := stoll Str.

(** [std::to_string] *)
Fixpoint dec (fuel : nat) (n : Z) (acc : list Z) : list Z :=
  match fuel with
  | O => acc
  | S f => if n <? 10 then (48 + n) :: acc else dec f (n / 10) ((48 + n mod 10) :: acc)
  end.
Definition to_string (x : Z) : list Z :=
  (if x <? 0 then [45] else []) ++ dec (S (Z.to_nat (Z.log2 (Z.abs x)))) (Z.abs x) [].

(** ** Floating point *)

Definition lower (c : Z) : Z := if (65 <=? c) && (c <=? 90) then c + 32 else c.

(** An optional exponent after [mark]: it counts only when digits follow. *)
Definition take_exp (mark : Z) (s : list Z) : Z :=
  match s with
  | c :: s' =>
      if lower c =? mark then
        let '(neg, s'') := take_sign s' in
        if starts_digit 10 s'' then signed (neg, (scan 10 0 0 s'').1.1) else 0
      else 0
  | [] => 0
  end.

(** Digits with an optional point in base [base], with an exponent of base [ebase]: the
    mantissa and the exponents of both bases; [None] without digits. *)
Definition scan_float (base mark : Z) (s : list Z) : option (Z * Z * Z) :=
  let '(a, n, s1) := scan base 0 0 s in
  let '(b, k, s2) := match s1 with 46 :: s' => scan base a 0 s' | _ => (a, 0, s1) end in
  if n + k =? 0 then None else Some (b, - k, take_exp mark s2).

(** The ratio of two positive integers, rounded to nearest, ties to even. *)
Definition sf_ratio (T : CType) (s : bool) (n d : positive) : spec_float :=
  let '(q, e, l) := SFdiv_core_binary (prec T) (emax T) (Zpos n) 0 (Zpos d) 0 in
  binary_round_aux (prec T) (emax T) s q e l.

(** [b * base^k * ebase^e]; out of range when it rounds to infinity, or to a subnormal
    number or zero it is not equal to. *)
Definition float_of (T : CType) (s : bool) (b base k ebase e : Z) : res Z :=
  let num := b * base ^ Z.max 0 k * ebase ^ Z.max 0 e in
  let den := base ^ Z.max 0 (- k) * ebase ^ Z.max 0 (- e) in
  match num, den with
  | Zpos n, Zpos d =>
      match sf_ratio T s n d with
      | S754_finite _ m x as r =>
          if (Zpos m <? 2 ^ frac_w T) &&
             negb (Zpos m * 2 ^ Z.max 0 x * den =? num * 2 ^ Z.max 0 (- x))
          then Undef UB_throw else Ok (fencode T r)
      | _ => Undef UB_throw
      end
  | _, _ => Ok (fencode T (S754_zero s))
  end.

(** [std::stof] and [std::stod]. *)
Definition stofloat (T : CType) (Str : list Z) : res Z :=
  let '(neg, s) := take_sign (skip_space Str) in
  match lower <$> take 3 s with
  | [105; 110; 102] => Ok (fencode T (S754_infinity neg))
  | [110; 97; 110] => Ok (qnan T)
  | _ =>
      let hex := match s with
                 | 48 :: x :: s' => if lower x =? 120 then scan_float 16 112 s' else None
                 | _ => None
                 end in
      match hex with
      | Some (b, k, e) => float_of T neg b 16 k 2 e
      | None =>
          match scan_float 10 101 s with
          | Some (b, k, e) => float_of T neg b 10 k 10 e
          | None => Undef UB_throw
          end
      end
  end.

(** ** boost

    [boost::format("0x%016llx")], [hex_lower] and [unhex] of boost/algorithm/hex.hpp. *)
Class HexLib : Type := mkHexLib {
  format_0x016llx : Z -> list Z;
  hex_lower : list Z -> list Z;
  unhex : list Z -> res (list Z)
}.

(** Sixteen hexadecimal digits: the digits of the eight bytes, high byte first. *)
Definition hex16 (x : Z) : list Z := concat (hex_byte <$> reverse (le_split 8 x)).
Definition is_hex (c : Z) : Prop := is_Some (digit_value 16 c).

(** What their documentation says: the format prints the prefix and the number padded with
    zeros to sixteen lowercase digits, [hex_lower] two lowercase digits per byte, and
    [unhex] reads two digits of either case per byte. *)
Class HexLaws (lib : HexLib) : Prop := mkHexLaws {
  format_law x : in_u 64 x -> format_0x016llx x = 48 :: 120 :: hex16 x;
  hex_lower_law bs : Forall is_byte bs -> hex_lower bs = concat (hex_byte <$> bs);
  unhex_law s : Z.even (sizeZ s) = true -> Forall is_hex s -> unhex s = Ok (hex_pairs s)
}.

(** ** The examples of the documentation *)

Example strto_examples :
  stol [32; 45; 49; 50; 120] = Ok (-12) /\ stol [45] = Undef UB_throw /\
  stoull16 [48; 120; 49; 70] = Ok 31 /\ stoull16 [48; 120] = Ok 0 /\ strtoull16 [120] = 0 /\
  stoull16 [45; 49] = Ok (2 ^ 64 - 1).
Proof. repeat split; vm_compute; reflexivity. Qed.

(** 0.1 and -2.5e1, 0x1.8p1, 1e39 as a float. *)
Example stofloat_examples :
  stofloat DBL [48; 46; 49] = Ok 0x3FB999999999999A /\
  stofloat FLT [45; 50; 46; 53; 101; 49] = Ok 0xC1C80000 /\
  stofloat FLT [48; 120; 49; 46; 56; 112; 49] = Ok 0x40400000 /\
  stofloat FLT [49; 101; 51; 57] = Undef UB_throw.
Proof. repeat split; vm_compute; reflexivity. Qed.

(** ** Facts *)

Lemma c_str_id s : Forall (fun c => c <> 0) s -> c_str s = s.
Proof.
  induction 1 as [|c s Hc _ IH]; cbn; [done|]. rewrite IH. by destruct (Z.eqb_spec c 0).
Qed.

Lemma c_str_nonzero s : Forall (fun c => c <> 0) (c_str s).
Proof. induction s as [|c s IH]; cbn; [done|]. destruct (Z.eqb_spec c 0); by constructor. Qed.

Lemma c_str_idem s : c_str (c_str s) = c_str s.
Proof. apply c_str_id, c_str_nonzero. Qed.

Lemma digit_nonzero base c : is_Some (digit_value base c) -> base <= 36 -> c <> 0.
Proof.
  intros [d Hd] Hb ->. unfold digit_value in Hd. cbn in Hd. destruct (Z.ltb_spec 36 base); [lia|done].
Qed.

Lemma hex_digit_is_hex d : 0 <= d < 16 -> digit_value 16 (hex_digit d) = Some d.
Proof.
  intros Hd. unfold hex_digit, digit_value. destruct (Z.ltb_spec d 10).
  - rewrite (proj2 (Z.leb_le 48 (48 + d))), (proj2 (Z.leb_le (48 + d) 57)) by lia. cbn [andb].
    rewrite (proj2 (Z.ltb_lt (48 + d - 48) 16)) by lia. f_equal. lia.
  - rewrite (proj2 (Z.leb_gt (97 + (d - 10)) 57)), andb_false_r by lia.
    rewrite (proj2 (Z.leb_le 97 (97 + (d - 10)))), (proj2 (Z.leb_le (97 + (d - 10)) 102)) by lia. cbn [andb].
    rewrite (proj2 (Z.ltb_lt (97 + (d - 10) - 87) 16)) by lia. f_equal. lia.
Qed.

Lemma byte_digits b : is_byte b -> 0 <= b / 16 < 16 /\ 0 <= b mod 16 < 16.
Proof.
  intros [? ?]. split; [|apply Z.mod_pos_bound; lia].
  split; [apply Z.div_pos; lia|apply Z.div_lt_upper_bound; lia].
Qed.

Lemma hex_bytes_are_hex bs : Forall is_byte bs -> Forall is_hex (concat (hex_byte <$> bs)).
Proof.
  induction 1 as [|b bs Hb _ IH]; cbn; [done|]. apply byte_digits in Hb as [? ?].
  repeat constructor; [| |done]; eexists; by apply hex_digit_is_hex.
Qed.

Lemma hex_c_str s : Forall is_hex s -> c_str s = s.
Proof.
  intros Hs. apply c_str_id. eapply List.Forall_impl; [|exact Hs].
  intros c Hc. eapply digit_nonzero; [exact Hc|lia].
Qed.

Lemma scan_hex_bytes bs a n S : Forall is_byte bs ->
  scan 16 a n (concat (hex_byte <$> bs) ++ S) =
  scan 16 (fold_left (fun a b => 256 * a + b) bs a) (n + 2 * sizeZ bs) S.
Proof.
  intros Hbs. revert a n; induction Hbs as [|b bs Hb _ IH]; intros a n.
  { cbn. unfold sizeZ. cbn. by rewrite Z.add_0_r. }
  pose proof (byte_digits b Hb) as [H1 H2]. unfold sizeZ in *.
  cbn [fmap list_fmap concat app scan fold_left hex_byte length].
  rewrite !hex_digit_is_hex, IH by done. f_equal; [|lia]. f_equal.
  pose proof (Z.div_mod b 16 ltac:(lia)). lia.
Qed.

Lemma fold_be bs a : fold_left (fun a b => 256 * a + b) (reverse bs) a =
  256 ^ sizeZ bs * a + le_combine bs.
Proof.
  unfold sizeZ. revert a; induction bs as [|b bs IH]; intros a; cbn [le_combine length].
  { cbn [reverse rev_append fold_left length]. change (256 ^ Z.of_nat 0) with 1. cbn. lia. }
  rewrite reverse_cons, fold_left_app, IH. cbn [fold_left].
  rewrite Nat2Z.inj_succ, Z.pow_succ_r by lia. lia.
Qed.

Lemma hex16_hex x : Forall is_hex (hex16 x).
Proof. apply hex_bytes_are_hex, Forall_reverse, le_split_bytes. Qed.

Lemma hex16_head x : exists c s, hex16 x = c :: s /\ is_hex c.
Proof.
  pose proof (hex16_hex x) as H. destruct (hex16 x) as [|c s] eqn:E.
  - apply (f_equal sizeZ) in E. unfold hex16 in E. rewrite length_hex in E.
    unfold sizeZ in E. rewrite length_reverse, length_le_split in E. done.
  - exists c, s. split; [done|]. by inversion H.
Qed.

(** What the format prints is read back. *)
Lemma stoull16_format x : in_u 64 x -> stoull16 (48 :: 120 :: hex16 x) = Ok x.
Proof.
  intros Hx. unfold stoull16, stoull, strto.
  change (skip_space (48 :: 120 :: hex16 x)) with (48 :: 120 :: hex16 x).
  cbn [take_sign skip_0x]. rewrite Z.eqb_refl, Z.eqb_refl. cbn [orb andb].
  assert (starts_digit 16 (hex16 x) = true) as Hd.
  { destruct (hex16_head x) as (c & s & -> & Hc). by apply bool_decide_eq_true_2. }
  rewrite Hd, Hd. unfold hex16. rewrite <- (app_nil_r (concat _)).
  rewrite scan_hex_bytes by (apply Forall_reverse, le_split_bytes).
  cbn [scan fst snd signed]. rewrite fold_be, le_combine_split, Z.mul_0_r, Z.add_0_l.
  change (2 ^ (8 * Z.of_nat 8)) with (2 ^ 64). rewrite Z.mod_small by done.
  destruct Hx as [? Hx]. rewrite (proj2 (Z.leb_gt (2 ^ 64) x)) by done.
  by rewrite wrap_small by done.
Qed.

(** Decimal text. *)
Lemma dec_digit d : 0 <= d < 10 -> digit_value 10 (48 + d) = Some d.
Proof.
  intros. unfold digit_value. rewrite (proj2 (Z.leb_le 48 (48 + d))), (proj2 (Z.leb_le (48 + d) 57)) by lia.
  cbn [andb]. rewrite (proj2 (Z.ltb_lt (48 + d - 48) 10)) by lia. f_equal. lia.
Qed.

Lemma scan_dec fuel n s cnt : 0 <= n < 10 ^ Z.of_nat fuel -> (0 < fuel)%nat ->
  exists k, (scan 10 0 cnt (dec fuel n s)) = scan 10 n (cnt + k) s.
Proof.
  revert n s; induction fuel as [|f IH]; intros n s Hn Hf; [lia|]. cbn [dec].
  destruct (Z.ltb_spec n 10).
  { exists 1. cbn [scan]. by rewrite dec_digit by lia. }
  assert (0 < n / 10) by (apply Z.div_str_pos; lia).
  pose proof (Z.mod_pos_bound n 10 ltac:(lia)).
  rewrite Nat2Z.inj_succ, Z.pow_succ_r in Hn by lia.
  assert (n / 10 < 10 ^ Z.of_nat f) by (apply Z.div_lt_upper_bound; lia).
  destruct f as [|f]; [cbn in *; lia|].
  destruct (IH (n / 10) ((48 + n mod 10) :: s)) as [k E]; [lia|lia|].
  exists (k + 1). rewrite E. cbn [scan]. rewrite dec_digit by lia.
  rewrite <- Z.div_mod by lia. by rewrite Z.add_assoc.
Qed.

Lemma dec_starts fuel n s : 0 <= n -> (0 < fuel)%nat \/ starts_digit 10 s = true ->
  starts_digit 10 (dec fuel n s) = true.
Proof.
  revert n s; induction fuel as [|f IH]; intros n s Hn Hs; cbn [dec].
  { by destruct Hs; [lia|]. }
  pose proof (Z.mod_pos_bound n 10 ltac:(lia)).
  destruct (Z.ltb_spec n 10).
  - cbn. rewrite dec_digit by lia. done.
  - apply IH; [apply Z.div_pos; lia|]. right. cbn. rewrite dec_digit by lia. done.
Qed.

Lemma log2_fuel n : 0 <= n -> n < 10 ^ Z.of_nat (S (Z.to_nat (Z.log2 n))).
Proof.
  intros Hn. rewrite Nat2Z.inj_succ, Z2Nat.id by apply Z.log2_nonneg.
  destruct (decide (n = 0)) as [->|]; [done|].
  apply Z.lt_le_trans with (2 ^ Z.succ (Z.log2 n)).
  - by apply Z.log2_spec; lia.
  - apply Z.pow_le_mono_l. lia.
Qed.

Lemma digit_not_space s : starts_digit 10 s = true -> skip_space s = s /\ take_sign s = (false, s).
Proof.
  destruct s as [|c s]; [done|]. cbn [starts_digit]. rewrite bool_decide_eq_true. intros [d Hd].
  assert (48 <= c <= 57) as Hc.
  { unfold digit_value in Hd. destruct ((48 <=? c) && (c <=? 57)) eqn:E; [lia|].
    destruct ((97 <=? c) && (c <=? 102)) eqn:E1.
    - destruct (Z.ltb_spec (c - 87) 10); [lia|done].
    - destruct ((65 <=? c) && (c <=? 70)) eqn:E2; [destruct (Z.ltb_spec (c - 55) 10); [lia|done]|done]. }
  cbn [skip_space]. unfold isspace.
  replace (c =? 32) with false by (symmetry; apply Z.eqb_neq; lia).
  replace (c <=? 13) with false by (symmetry; apply Z.leb_gt; lia). rewrite andb_false_r.
  cbn [orb]. split; [done|].
  assert (c = 48 \/ c = 49 \/ c = 50 \/ c = 51 \/ c = 52 \/ c = 53 \/ c = 54 \/ c = 55 \/ c = 56 \/ c = 57) as H by lia.
  by repeat destruct H as [->|H]; subst.
Qed.

Lemma strto_to_string x : strto 10 (to_string x) = Some (x <? 0, Z.abs x).
Proof.
  unfold to_string. set (ds := dec _ _ _).
  pose proof (Z.abs_nonneg x) as Hx.
  assert (starts_digit 10 ds = true) as Hd by (apply dec_starts; [done|left; lia]).
  destruct (scan_dec (S (Z.to_nat (Z.log2 (Z.abs x)))) (Z.abs x) [] 0) as [k Hk];
    [split; [done|by apply log2_fuel]|lia|]. fold ds in Hk. cbn [scan] in Hk.
  destruct (digit_not_space ds Hd) as [H1 H2].
  unfold strto. destruct (x <? 0); cbn [app].
  - change (take_sign (skip_space (45 :: ds))) with (true, ds). cbn beta iota zeta.
    change (10 =? 16) with false. cbn beta iota. by rewrite Hd, Hk.
  - rewrite H1, H2. change (10 =? 16) with false. cbn beta iota zeta. by rewrite Hd, Hk.
Qed.

Lemma stoll_to_string x : in_s 64 x -> stoll (to_string x) = Ok x.
Proof.
  intros [H1 H2]. unfold stoll. rewrite strto_to_string.
  assert (signed (x <? 0, Z.abs x) = x) as ->.
  { unfold signed. cbn [fst snd]. destruct (Z.ltb_spec x 0); lia. }
  change (64 - 1) with 63 in *.
  rewrite (proj2 (Z.leb_le (- 2 ^ 63) x)), (proj2 (Z.ltb_lt x (2 ^ 63))) by done. done.
Qed.

Lemma dec_nonzero fuel n s : 0 <= n -> Forall (fun c => c <> 0) s -> Forall (fun c => c <> 0) (dec fuel n s).
Proof.
  revert n s; induction fuel as [|f IH]; intros n s Hn Hs; cbn [dec]; [done|].
  pose proof (Z.mod_pos_bound n 10 ltac:(lia)).
  destruct (n <? 10); [constructor; [lia|done]|]. apply IH; [apply Z.div_pos; lia|].
  constructor; [lia|done].
Qed.

Lemma to_string_c_str x : c_str (to_string x) = to_string x.
Proof.
  apply c_str_id. unfold to_string. apply Forall_app. split; [by destruct (x <? 0); repeat constructor|].
  apply dec_nonzero; [apply Z.abs_nonneg|done].
Qed.

(** ** Functions with these laws *)

Fixpoint unhex_pairs (s : list Z) : res (list Z) :=
  match s with
  | [] => Ok []
  | a :: b :: s' =>
      match digit_value 16 a, digit_value 16 b with
      | Some x, Some y => let? r := unhex_pairs s' in Ok (16 * x + y :: r)
      | _, _ => Undef UB_throw
      end
  | _ => Undef UB_throw
  end.

Definition hex_lib : HexLib := mkHexLib
  (fun x => 48 :: 120 :: hex16 x) (fun bs => concat (hex_byte <$> bs)) unhex_pairs.

Lemma char_value c d : digit_value 16 c = Some d -> convertCharToHex c = d /\ 0 <= d < 16.
Proof.
  unfold digit_value, convertCharToHex.
  repeat match goal with |- context [if ?b then _ else _] => destruct b eqn:? end;
    intros [= <-] || discriminate; lia.
Qed.

Lemma unhex_pairs_ok n s : (length s <= n)%nat -> Z.even (sizeZ s) = true -> Forall is_hex s ->
  unhex_pairs s = Ok (hex_pairs s).
Proof.
  unfold sizeZ. revert s; induction n as [|n IH]; intros [|a [|b s]] Hn He Hs; cbn [length] in *; try done; [lia|].
  inversion Hs as [|? ? [x Ha] Hs1]; subst. inversion Hs1 as [|? ? [y Hb] Hs2]; subst.
  cbn [unhex_pairs hex_pairs]. rewrite Ha, Hb.
  apply char_value in Ha as [-> Ha]. apply char_value in Hb as [-> Hb].
  rewrite IH; [|lia| |done].
  - cbn [rbind]. rewrite Z.shiftl_mul_pow2 by lia. rewrite wrap_small by (unfold in_u; lia).
    f_equal. f_equal. lia.
  - rewrite !Nat2Z.inj_succ, Z.even_succ_succ in He. done.
Qed.

#[export] Instance hex_lib_laws : HexLaws hex_lib.
Proof. split; [done|done|]. intros s. by apply (unhex_pairs_ok (length s)). Qed.
