(* ===== verification/Compiler.v ===== *)
(** * The ahead-of-time compiler: lib/compiler/{compiler,library}.cpp

    A function is translated by calls of LLVM's IRBuilder; a compile-time stack holds the
    [llvm::Value]s that stand for the operands.  LLVM is a parameter: the class [LLVM] has the
    operations the compiler calls, on a state of its own, the module and function under
    construction with the insertion point.  What a method makes is named by [Method]. *)
From stdpp Require Import base list numbers option strings.
From Stdlib Require Import ZArith Lia.
From S2P Require Import Prelude Types Instruction AST HostFunc CString.
#[local] Open Scope Z_scope.

(** ** common.h *)

Inductive CErrCode : Set :=
| CSuccess | CFailed | CTypeNotMatch | CDivideByZero | CFloatPointException | CUnreachable
| CFunctionInvalid | CTerminated.

(** ** LLVM *)

Inductive LType : Set := TVoid | TInt (w : Z) | TFloat | TDouble | TPtr (t : LType).
Inductive ICmp : Set := EQ | NE | SLT | ULT | SGT | UGT | SLE | ULE | SGE | UGE.
Inductive FCmp : Set := OEQ | UNE | OLT | OGT | OLE | OGE.

Inductive Linkage : Set := ExternalLinkage | InternalLinkage.

(** The methods [Create...] of the builder whose result is a value. *)
Inductive Method : Set :=
| Add | Sub | Mul | SDiv | UDiv | SRem | URem | And | Or | Xor | Shl | AShr | LShr
| FAdd | FSub | FMul | FDiv | FNeg
| ICmpOp (p : ICmp) | FCmpOp (p : FCmp)
| ZExt (t : LType) | SExt (t : LType) | Trunc (t : LType) | FPToSI (t : LType) | FPToUI (t : LType)
| SIToFP (t : LType) | UIToFP (t : LType) | FPTrunc (t : LType) | FPExt (t : LType) | BitCast (t : LType)
| Select
| UnaryIntrinsic (n : string) | BinaryIntrinsic (n : string) | Intrinsic (n : string) (t : LType)
| Alloca (t : LType) | Load | Store | InBoundsGEP | Call.

Class LLVM : Type := {
  Value : Type;
  Block : Type;
  Build : Type;
  ConstInt : LType -> Z -> Value;
  (** [ConstantFP::get] of the number with these bits in the C++ type. *)
  ConstFP : LType -> Z -> Value;
  UndefValue : LType -> Value;
  Create : Method -> list Value -> Build -> Value * Build;
  (** [std::make_unique<Module>("wasm.ll", ...)], and the passes of level 1. *)
  newModule : list Z -> Build;
  optimize : Build -> Build;
  (** [BasicBlock::Create], with the parent; [SetInsertPoint]. *)
  CreateBlock : list Z -> option Value -> Build -> Block * Build;
  SetInsertPoint : Block -> Build -> Build;
  (** Terminators; a switch gets its cases later. *)
  CreateBr : Block -> Build -> Build;
  CreateCondBr : Value -> Block -> Block -> Build -> Build;
  CreateSwitch : Value -> Block -> Build -> Value * Build;
  addCase : Value -> Value -> Block -> Build -> Build;
  CreateRet : Value -> Build -> Build;
  CreateRetVoid : Build -> Build;
  PHICreate : LType -> Block -> Build -> Value * Build;
  addIncoming : Value -> Value -> Block -> Build -> Build;
  (** [delete Builder.GetInsertBlock()] *)
  deleteInsertBlock : Build -> Build;
  (** Functions and global variables of the module, with what they return or their
      initialiser; a [ConstantDataArray] as a private constant. *)
  FunctionCreate : LType -> list LType -> Linkage -> list Z -> Build -> Value * Build;
  GlobalCreate : LType -> Linkage -> option Value -> list Z -> Build -> Value * Build;
  DataCreate : list Z -> Build -> Value * Build;
  (** Destination, source (both aligned to eight bytes) and size. *)
  CreateMemCpy : Value -> Value -> Value -> Build -> Build;
  setName : Value -> list Z -> Build -> Build;
  setLinkage : Value -> Linkage -> Build -> Build;
  addNoReturn : Value -> Build -> Build;
  fnArgs : Value -> list (Value * LType);
  getReturnType : Value -> LType;
  getType : Value -> LType;
  isConstant : Value -> bool;
  (** [cast<ConstantInt>(V)->getZExtValue()]: [None] where the cast fails. *)
  getZExtValue : Value -> option Z }.

(** ** Types of the source *)

(** [toLLVMType(ValType)]: anything else reaches [__builtin_unreachable]. *)
Definition toLLVMType (t : ValType) : res LType :=
  match t with
  | VT_I32 => Ok (TInt 32) | VT_I64 => Ok (TInt 64) | VT_F32 => Ok TFloat | VT_F64 => Ok TDouble
  | VT_None => Undef UB_downcast
  end.
Fixpoint toLLVMTypes (l : list ValType) : res (list LType) :=
  match l with
  | [] => Ok []
  | t :: l' => let? x := toLLVMType t in let? xs := toLLVMTypes l' in Ok (x :: xs)
  end.
(** [toLLVMType(FunctionType)]: the first result only. *)
Definition toLLVMFunctionType (f : FunctionType) : res (LType * list LType) :=
  let? r := match ReturnTypes f with [] => Ok TVoid | t :: _ => toLLVMType t end in
  let? ps := toLLVMTypes (ParamTypes f) in
  Ok (r, ps).

Section Compiler.
Context `{llvm : LLVM}.

Definition int32 (z : Z) : Value := ConstInt (TInt 32) z.
Definition int64 (z : Z) : Value := ConstInt (TInt 64) z.

Definition toLLVMConstantZero (t : ValType) : res Value :=
  match t with
  | VT_I32 => Ok (int32 0) | VT_I64 => Ok (int64 0)
  | VT_F32 => Ok (ConstFP TFloat 0) | VT_F64 => Ok (ConstFP TDouble 0)
  | VT_None => Undef UB_downcast
  end.

(** [CompileContext]: a function has its type index, its [llvm::Function] and its code, which
    an imported one does not have. *)
Record CompileContext : Type := mkContext {
  FunctionTypes : list FunctionType;
  Elements : list Z;
  Functions : list (Z * Value * option CodeSegment);
  Globals : list Value;
  Ctors : list Value;
  TrapFn : Value; MemorySizeFn : Value; MemoryGrowFn : Value; MemoryVar : Value }.

(** ** FunctionCompiler

    The back of [Stack] and [ControlStack] is the head of the list; a null pointer on [Stack]
    is [None]. *)
Record FunctionCompiler : Type := mkFC {
  Local : list Value;
  Stack : list (option Value);
  ControlStack : list (Z * Block * Block);
  Bld : Build }.

Definition set_Local (l : list Value) (s : FunctionCompiler) : FunctionCompiler :=
  mkFC l (Stack s) (ControlStack s) (Bld s).
Definition set_Stack (l : list (option Value)) (s : FunctionCompiler) : FunctionCompiler :=
  mkFC (Local s) l (ControlStack s) (Bld s).
Definition set_ControlStack (l : list (Z * Block * Block)) (s : FunctionCompiler) : FunctionCompiler :=
  mkFC (Local s) (Stack s) l (Bld s).
Definition set_Bld (b : Build) (s : FunctionCompiler) : FunctionCompiler :=
  mkFC (Local s) (Stack s) (ControlStack s) b.

#[local] Abbreviation MF := (M FunctionCompiler).

Definition build (f : Build -> Build) : MF unit := modify (fun s => set_Bld (f (Bld s)) s).
Definition building {A} (f : Build -> A * Build) : MF A := fun s =>
  let '(a, b) := f (Bld s) in (Ok a, set_Bld b s).
Definition create (m : Method) (vs : list Value) : MF Value := building (Create m vs).

Definition push (v : Value) : MF unit := modify (fun s => set_Stack (Some v :: Stack s) s).
(** [Stack.back()], which the builder dereferences. *)
Definition back : MF Value := fun s =>
  match Stack s with
  | Some v :: _ => (Ok v, s)
  | None :: _ => (Undef UB_deref, s)
  | [] => (Undef UB_vector, s)
  end.
Definition pop_back : MF unit := fun s =>
  match Stack s with _ :: l => (Ok tt, set_Stack l s) | [] => (Undef UB_vector, s) end.
Definition setBack (v : Value) : MF unit := pop_back ;;; push v.

Section Function.
(** The context, and [F]: null when a constant expression is evaluated. *)
Context (Ctx : CompileContext) (F : option Value).

Definition retTy : MF LType :=
  match F with Some f => ret (getReturnType f) | None => undef UB_deref end.
Definition newBlock (n : string) : MF Block := building (CreateBlock (chars n) F).
Definition moveTo (b : Block) : MF unit := build (SetInsertPoint b).

Definition enterBlock (JumpTarget NextTarget : Block) : MF unit :=
  modify (fun s => set_ControlStack ((sizeZ (Stack s), JumpTarget, NextTarget) :: ControlStack s) s).

(** [Stack.resize(n)] fills up with null pointers. *)
Definition resizeStack (n : Z) : MF unit := modify (fun s =>
  set_Stack (replicate (Z.to_nat n - length (Stack s)) None ++ drop (length (Stack s) - Z.to_nat n) (Stack s)) s).

Definition leaveBlock : MF unit := fun s =>
  match ControlStack s with
  | (n, _, Next) :: l =>
      (resizeStack n ;;; build (CreateBr Next) ;;; moveTo Next ;;; modify (set_ControlStack l)) s
  | [] => (Undef UB_vector, s)
  end.

Definition getLabel (Index : Z) : MF Block :=
  let* s := get in
  match atZ (ControlStack s) Index with Some (_, b, _) => ret b | None => undef UB_vector end.

(** [Builder.CreateICmpNE(Stack.back(), Builder.getInt32(0)); Stack.pop_back();] *)
Definition condition : MF Value :=
  let* v := back in
  let* c := create (ICmpOp NE) [v; int32 0] in
  pop_back ;;; ret c.

Definition trapCall : MF unit := create Call [TrapFn Ctx; int32 5] ;;; ret tt.

(** *** The classes of instructions *)

Definition compileControl (Code : OpCode) : MF CErrCode :=
  match Code with
  | Op_Unreachable =>
      trapCall ;;;
      let* t := retTy in
      (match t with TVoid => ret tt | _ => push (UndefValue t) end) ;;; ret CSuccess
  | Op_Nop => ret CSuccess
  | Op_Return =>
      let* t := retTy in
      (match t with TVoid => build CreateRetVoid | _ => let* v := back in build (CreateRet v) end) ;;;
      let* b := newBlock "ret.end" in
      moveTo b ;;; ret CSuccess
  | _ => undef UB_downcast
  end.

Definition compileBr (Code : OpCode) (Label : Z) : MF CErrCode :=
  let* s := get in
  if sizeZ (ControlStack s) <=? Label then ret CFailed
  else
    let* Target := getLabel Label in
    match Code with
    | Op_Br =>
        build (CreateBr Target) ;;;
        let* b := newBlock "br.end" in
        moveTo b ;;; ret CSuccess
    | Op_Br_if =>
        let* Cond := condition in
        let* Next := newBlock "br_if.end" in
        build (CreateCondBr Cond Target Next) ;;;
        moveTo Next ;;; ret CSuccess
    | _ => undef UB_downcast
    end.

Fixpoint addCases (Switch : Value) (I : Z) (LabelTable : list Z) : MF unit :=
  match LabelTable with
  | [] => ret tt
  | l :: LabelTable' =>
      let* b := getLabel l in
      build (addCase Switch (int32 I) b) ;;; addCases Switch (I + 1) LabelTable'
  end.

(** The selector stays on the stack. *)
Definition compileBrTable (Code : OpCode) (LabelTable : list Z) (Label : Z) : MF CErrCode :=
  match Code with
  | Op_Br_table =>
      let* v := back in
      let* d := getLabel Label in
      let* Switch := building (CreateSwitch v d) in
      addCases Switch 0 LabelTable ;;;
      let* End := newBlock "switch.end" in
      moveTo End ;;; ret CSuccess
  | _ => undef UB_downcast
  end.

Fixpoint nonNull (l : list (option Value)) : option (list Value) :=
  match l with
  | [] => Some []
  | Some v :: l' => vs ← nonNull l'; Some (v :: vs)
  | None :: _ => None
  end.
(** The [n] values below the [skip] topmost, the deepest first. *)
Definition operands (skip n : Z) : MF (list Value) :=
  let* s := get in
  match nonNull (reverse (take (Z.to_nat n) (drop (Z.to_nat skip) (Stack s)))) with
  | Some l => ret l
  | None => undef UB_deref
  end.
Definition eraseTop (n : Z) : MF unit := modify (fun s => set_Stack (drop (Z.to_nat n) (Stack s)) s).

Definition compileCallOp (FuncIndex : Z) : MF CErrCode :=
  match atZ (Functions Ctx) FuncIndex with
  | None => undef UB_vector
  | Some (T, Function, _) =>
      match atZ (FunctionTypes Ctx) T with
      | None => undef UB_vector
      | Some FuncType =>
          let n := sizeZ (ParamTypes FuncType) in
          let* s := get in
          if sizeZ (Stack s) <? n then ret CFailed
          else
            let* Args := operands 0 n in
            let* Ret := create Call (Function :: Args) in
            eraseTop n ;;;
            (match ReturnTypes FuncType with [] => ret tt | _ => push Ret end) ;;; ret CSuccess
      end
  end.

(** The functions of the table that have the type, with their places. *)
Fixpoint tableOf (FuncTypeIndex I : Z) (Elems : list Z) : res (list (Z * Value)) :=
  match Elems with
  | [] => Ok []
  | f :: Elems' =>
      match atZ (Functions Ctx) f with
      | None => Undef UB_vector
      | Some (T, Fn, _) =>
          let? l := tableOf FuncTypeIndex (I + 1) Elems' in
          Ok (if T =? FuncTypeIndex then (I, Fn) :: l else l)
      end
  end.

Fixpoint callEntries (OK : Block) (Switch : Value) (PHIRet : option Value) (Args : list Value)
    (Table : list (Z * Value)) : MF unit :=
  match Table with
  | [] => ret tt
  | (K, Fn) :: Table' =>
      let* Entry := building (CreateBlock (chars "call_indirect." ++ to_string K) F) in
      moveTo Entry ;;;
      let* Ret := create Call (Fn :: Args) in
      build (CreateBr OK) ;;;
      build (addCase Switch (int32 K) Entry) ;;;
      (match PHIRet with Some p => build (addIncoming p Ret Entry) | None => ret tt end) ;;;
      callEntries OK Switch PHIRet Args Table'
  end.

(** With as many values as parameters and no selector the iterators leave the stack. *)
Definition compileIndirectCallOp (FuncTypeIndex : Z) : MF CErrCode :=
  match atZ (FunctionTypes Ctx) FuncTypeIndex with
  | None => undef UB_vector
  | Some FuncType =>
      let n := sizeZ (ParamTypes FuncType) in
      let* s := get in
      if sizeZ (Stack s) <? n then ret CFailed
      else if sizeZ (Stack s) <? n + 1 then undef UB_vector
      else
        let* Args := operands 1 n in
        let* Table := lift (tableOf FuncTypeIndex 0 (Elements Ctx)) in
        let* OK := newBlock "call_indirect.end" in
        let* ErrorBlk := newBlock "call_indirect.error" in
        let* v := back in
        let* Switch := building (CreateSwitch v ErrorBlk) in
        let* PHIRet := match ReturnTypes FuncType with
                       | [] => ret None
                       | t :: _ => let* ty := lift (toLLVMType t) in
                                   let* p := building (PHICreate ty OK) in ret (Some p)
                       end in
        callEntries OK Switch PHIRet Args Table ;;;
        moveTo ErrorBlk ;;; trapCall ;;;
        let* t := retTy in
        (match t with TVoid => build CreateRetVoid | _ => build (CreateRet (UndefValue t)) end) ;;;
        eraseTop (n + 1) ;;;
        (match PHIRet with Some p => push p | None => ret tt end) ;;;
        moveTo OK ;;; ret CSuccess
  end.

Definition compileCall (Code : OpCode) (n : Z) : MF CErrCode :=
  match Code with
  | Op_Call => compileCallOp n
  | Op_Call_indirect => compileIndirectCallOp n
  | _ => undef UB_downcast
  end.

Definition compileParametric (Code : OpCode) : MF CErrCode :=
  match Code with
  | Op_Drop => pop_back ;;; ret CSuccess
  | Op_Select =>
      let* Cond := condition in
      let* vFalse := back in
      pop_back ;;;
      let* vTrue := back in
      let* v := create Select [Cond; vTrue; vFalse] in
      setBack v ;;; ret CSuccess
  | _ => undef UB_downcast
  end.

Definition local (Index : Z) : MF Value :=
  let* s := get in
  match atZ (Local s) Index with Some p => ret p | None => undef UB_vector end.

Definition compileVariable (Code : OpCode) (Index : Z) : MF CErrCode :=
  match Code with
  | Local__get =>
      let* p := local Index in
      let* v := create Load [p] in
      push v ;;; ret CSuccess
  | Local__set =>
      let* v := back in
      let* p := local Index in
      create Store [v; p] ;;; pop_back ;;; ret CSuccess
  | Local__tee =>
      let* v := back in
      let* p := local Index in
      create Store [v; p] ;;; ret CSuccess
  | Global__get =>
      match atZ (Globals Ctx) Index with
      | None => ret CFailed
      | Some g => let* v := create Load [g] in push v ;;; ret CSuccess
      end
  | Global__set =>
      match atZ (Globals Ctx) Index with
      | None => ret CFailed
      | Some g => let* v := back in create Store [v; g] ;;; pop_back ;;; ret CSuccess
      end
  | _ => undef UB_downcast
  end.

(** The address: [Ofs + Offset], in 32 bits, then as an index from the start of the memory. *)
Definition address (Ofs : Value) (Offset : Z) (Ty : LType) : MF Value :=
  let* Ofs := if Offset =? 0 then ret Ofs else create Add [Ofs; int32 Offset] in
  let* Ofs := create (ZExt (TInt 64)) [Ofs] in
  let* m := create Load [MemoryVar Ctx] in
  let* VPtr := create InBoundsGEP [m; Ofs] in
  create (BitCast (TPtr Ty)) [VPtr].

Definition compileLoadOp (Offset : Z) (LoadTy : LType) : MF CErrCode :=
  let* Ofs := back in
  let* Ptr := address Ofs Offset LoadTy in
  let* v := create Load [Ptr] in
  setBack v ;;; ret CSuccess.
Definition compileExtLoadOp (Offset : Z) (LoadTy ExtendTy : LType) (Signed : bool) : MF CErrCode :=
  compileLoadOp Offset LoadTy ;;;
  let* o := back in
  let* v := create (if Signed then SExt ExtendTy else ZExt ExtendTy) [o] in
  setBack v ;;; ret CSuccess.
Definition compileStoreOp (Offset : Z) (LoadTy : LType) (Truncate : bool) : MF CErrCode :=
  let* V := back in
  pop_back ;;;
  let* V := if Truncate then create (Trunc LoadTy) [V] else ret V in
  let* Ofs := back in
  pop_back ;;;
  let* Ptr := address Ofs Offset LoadTy in
  create Store [V; Ptr] ;;; ret CSuccess.

Definition compileMemory (Code : OpCode) (Offset : Z) : MF CErrCode :=
  match Code with
  | I32__load => compileLoadOp Offset (TInt 32)
  | I64__load => compileLoadOp Offset (TInt 64)
  | F32__load => compileLoadOp Offset TFloat
  | F64__load => compileLoadOp Offset TDouble
  | I32__load8_s => compileExtLoadOp Offset (TInt 8) (TInt 32) true
  | I32__load8_u => compileExtLoadOp Offset (TInt 8) (TInt 32) false
  | I32__load16_s => compileExtLoadOp Offset (TInt 16) (TInt 32) true
  | I32__load16_u => compileExtLoadOp Offset (TInt 16) (TInt 32) false
  | I64__load8_s => compileExtLoadOp Offset (TInt 8) (TInt 64) true
  | I64__load8_u => compileExtLoadOp Offset (TInt 8) (TInt 64) false
  | I64__load16_s => compileExtLoadOp Offset (TInt 16) (TInt 64) true
  | I64__load16_u => compileExtLoadOp Offset (TInt 16) (TInt 64) false
  | I64__load32_s => compileExtLoadOp Offset (TInt 32) (TInt 64) true
  | I64__load32_u => compileExtLoadOp Offset (TInt 32) (TInt 64) false
  | I32__store => compileStoreOp Offset (TInt 32) false
  | I64__store => compileStoreOp Offset (TInt 64) false
  | F32__store => compileStoreOp Offset TFloat false
  | F64__store => compileStoreOp Offset TDouble false
  | I32__store8 | I64__store8 => compileStoreOp Offset (TInt 8) true
  | I32__store16 | I64__store16 => compileStoreOp Offset (TInt 16) true
  | I64__store32 => compileStoreOp Offset (TInt 32) true
  | Memory__size => let* v := create Call [MemorySizeFn Ctx] in push v ;;; ret CSuccess
  | Memory__grow =>
      let* o := back in
      let* v := create Call [MemoryGrowFn Ctx; o] in
      setBack v ;;; ret CSuccess
  | _ => undef UB_downcast
  end.

(** [std::get<T>(Instr.getConstValue())] *)
Definition compileConst (Code : OpCode) (v : ValVariant) : MF CErrCode :=
  match Code with
  | I32__const => let* x := lift (retrieveValue U32 v) in push (int32 x) ;;; ret CSuccess
  | I64__const => let* x := lift (retrieveValue U64 v) in push (int64 x) ;;; ret CSuccess
  | F32__const => let* x := lift (retrieveValue FLT v) in push (ConstFP TFloat x) ;;; ret CSuccess
  | F64__const => let* x := lift (retrieveValue DBL v) in push (ConstFP TDouble x) ;;; ret CSuccess
  | _ => undef UB_downcast
  end.

(** [Stack.back() = Builder.Create...(Stack.back())] *)
Definition unary (m : Method) : MF CErrCode :=
  let* o := back in
  let* v := create m [o] in
  setBack v ;;; ret CSuccess.

(** [CreateZExt(CreateICmpEQ(Stack.back(), 0), Int32Ty)] *)
Definition compileEqz (zero : Value) : MF CErrCode :=
  let* o := back in
  let* c := create (ICmpOp EQ) [o; zero] in
  let* v := create (ZExt (TInt 32)) [c] in
  setBack v ;;; ret CSuccess.

Definition compileUnary (Code : OpCode) : MF CErrCode :=
  match Code with
  | I32__eqz => compileEqz (int32 0)
  | I64__eqz => compileEqz (int64 0)
  | I32__clz | I64__clz => unary (UnaryIntrinsic "ctlz")
  | I32__ctz | I64__ctz => unary (UnaryIntrinsic "cttz")
  | I32__popcnt | I64__popcnt => unary (UnaryIntrinsic "ctpop")
  | F32__abs | F64__abs => unary (UnaryIntrinsic "fabs")
  | F32__neg | F64__neg => unary FNeg
  | F32__ceil | F64__ceil => unary (UnaryIntrinsic "ceil")
  | F32__floor | F64__floor => unary (UnaryIntrinsic "floor")
  | F32__trunc | F64__trunc => unary (UnaryIntrinsic "trunc")
  | F32__nearest | F64__nearest => unary (UnaryIntrinsic "rint")
  | F32__sqrt | F64__sqrt => unary (UnaryIntrinsic "sqrt")
  | I32__wrap_i64 => unary (Trunc (TInt 32))
  | I32__trunc_f32_s | I32__trunc_f64_s => unary (FPToSI (TInt 32))
  | I32__trunc_f32_u | I32__trunc_f64_u => unary (FPToUI (TInt 32))
  | I64__extend_i32_s => unary (SExt (TInt 64))
  | I64__extend_i32_u => unary (ZExt (TInt 64))
  | I64__trunc_f32_s | I64__trunc_f64_s => unary (FPToSI (TInt 64))
  | I64__trunc_f32_u | I64__trunc_f64_u => unary (FPToUI (TInt 64))
  | F32__convert_i32_s | F32__convert_i64_s => unary (SIToFP TFloat)
  | F32__convert_i32_u | F32__convert_i64_u => unary (UIToFP TFloat)
  | F64__convert_i32_s | F64__convert_i64_s => unary (SIToFP TDouble)
  | F64__convert_i32_u | F64__convert_i64_u => unary (UIToFP TDouble)
  | F32__demote_f64 => unary (FPTrunc TFloat)
  | F64__promote_f32 => unary (FPExt TDouble)
  | I32__reinterpret_f32 => unary (BitCast (TInt 32))
  | I64__reinterpret_f64 => unary (BitCast (TInt 64))
  | F32__reinterpret_i32 => unary (BitCast TFloat)
  | F64__reinterpret_i64 => unary (BitCast TDouble)
  | _ => undef UB_downcast
  end.

(** [Stack.back() = Builder.Create...(Stack.back(), RHS)], and the forms around it. *)
Definition binary (m : Method) (RHS : Value) : MF CErrCode :=
  let* o := back in
  let* v := create m [o; RHS] in
  setBack v ;;; ret CSuccess.
Definition compare (m : Method) (RHS : Value) : MF CErrCode :=
  let* o := back in
  let* c := create m [o; RHS] in
  let* v := create (ZExt (TInt 32)) [c] in
  setBack v ;;; ret CSuccess.
Definition rotate (n : string) (t : LType) (RHS : Value) : MF CErrCode :=
  let* o := back in
  let* v := create (Intrinsic n t) [o; o; RHS] in
  setBack v ;;; ret CSuccess.

Definition compileBinary (Code : OpCode) : MF CErrCode :=
  let* RHS := back in
  pop_back ;;;
  match Code with
  | I32__eq | I64__eq => compare (ICmpOp EQ) RHS
  | I32__ne | I64__ne => compare (ICmpOp NE) RHS
  | I32__lt_s | I64__lt_s => compare (ICmpOp SLT) RHS
  | I32__lt_u | I64__lt_u => compare (ICmpOp ULT) RHS
  | I32__gt_s | I64__gt_s => compare (ICmpOp SGT) RHS
  | I32__gt_u | I64__gt_u => compare (ICmpOp UGT) RHS
  | I32__le_s | I64__le_s => compare (ICmpOp SLE) RHS
  | I32__le_u | I64__le_u => compare (ICmpOp ULE) RHS
  | I32__ge_s | I64__ge_s => compare (ICmpOp SGE) RHS
  | I32__ge_u | I64__ge_u => compare (ICmpOp UGE) RHS
  | F32__eq | F64__eq => compare (FCmpOp OEQ) RHS
  | F32__ne | F64__ne => compare (FCmpOp UNE) RHS
  | F32__lt | F64__lt => compare (FCmpOp OLT) RHS
  | F32__gt | F64__gt => compare (FCmpOp OGT) RHS
  | F32__le | F64__le => compare (FCmpOp OLE) RHS
  | F32__ge | F64__ge => compare (FCmpOp OGE) RHS
  | I32__add | I64__add => binary Add RHS
  | I32__sub | I64__sub => binary Sub RHS
  | I32__mul | I64__mul => binary Mul RHS
  | I32__div_s | I64__div_s => binary SDiv RHS
  | I32__div_u | I64__div_u => binary UDiv RHS
  | I32__rem_s | I64__rem_s => binary SRem RHS
  | I32__rem_u | I64__rem_u => binary URem RHS
  | I32__and | I64__and => binary And RHS
  | I32__or | I64__or => binary Or RHS
  | I32__xor | I64__xor => binary Xor RHS
  | I32__shl | I64__shl => binary Shl RHS
  | I32__shr_s | I64__shr_s => binary AShr RHS
  | I32__shr_u | I64__shr_u => binary LShr RHS
  | I32__rotl => rotate "fshl" (TInt 32) RHS
  | I32__rotr => rotate "fshr" (TInt 32) RHS
  | I64__rotl => rotate "fshl" (TInt 64) RHS
  | I64__rotr => rotate "fshr" (TInt 64) RHS
  | F32__add | F64__add => binary FAdd RHS
  | F32__sub | F64__sub => binary FSub RHS
  | F32__mul | F64__mul => binary FMul RHS
  | F32__div | F64__div => binary FDiv RHS
  | F32__min | F64__min => binary (BinaryIntrinsic "experimental_constrained_minnum") RHS
  | F32__max | F64__max => binary (BinaryIntrinsic "experimental_constrained_maxnum") RHS
  | F32__copysign | F64__copysign => binary (BinaryIntrinsic "copysign") RHS
  | _ => undef UB_downcast
  end.

(** The loop over the instructions: the first status that is not a success ends it. *)
Definition compileAll (f : Instr -> MF CErrCode) : list Instr -> MF CErrCode :=
  fix go l := match l with
  | [] => ret CSuccess
  | i :: l' => let* st := f i in match st with CSuccess => go l' | _ => ret st end
  end.

(** The status of the body of a block is dropped; both branches of an if compile the first
    statement. *)
Fixpoint compileInstr (i : Instr) : MF CErrCode :=
  match dispatchInstruction (getOpCode i) with
  | None => ret CFailed
  | Some cl =>
      if bool_decide (cl <> node_class i) then undef UB_downcast
      else match i with
      | ControlInstruction Code => compileControl Code
      | BlockControlInstruction Code _ body =>
          match Code with
          | Op_Block =>
              let* b := newBlock "block" in
              let* EndBlock := newBlock "block.end" in
              build (CreateBr b) ;;;
              enterBlock EndBlock EndBlock ;;; moveTo b ;;;
              compileAll compileInstr body ;;;
              leaveBlock ;;; ret CSuccess
          | Op_Loop =>
              let* Loop := newBlock "loop" in
              let* EndLoop := newBlock "loop.end" in
              build (CreateBr Loop) ;;;
              enterBlock Loop EndLoop ;;; moveTo Loop ;;;
              compileAll compileInstr body ;;;
              leaveBlock ;;; ret CSuccess
          | _ => undef UB_downcast
          end
      | IfElseControlInstruction Code _ ifs els =>
          match Code with
          | Op_If =>
              let* Cond := condition in
              let* Then := newBlock "then" in
              let* Else := newBlock "else" in
              let* EndIf := newBlock "if.end" in
              build (CreateCondBr Cond Then EndIf) ;;;
              enterBlock EndIf Else ;;; moveTo Then ;;;
              compileAll compileInstr ifs ;;;
              leaveBlock ;;;
              enterBlock EndIf EndIf ;;;
              compileAll compileInstr ifs ;;;
              leaveBlock ;;; ret CSuccess
          | _ => undef UB_downcast
          end
      | BrControlInstruction Code n => compileBr Code n
      | BrTableControlInstruction Code t n => compileBrTable Code t n
      | CallControlInstruction Code n => compileCall Code n
      | ParametricInstruction Code => compileParametric Code
      | VariableInstruction Code n => compileVariable Code n
      | MemoryInstruction Code _ Offset => compileMemory Code Offset
      | ConstInstruction Code v => compileConst Code v
      | UnaryNumericInstruction Code => compileUnary Code
      | BinaryNumericInstruction Code => compileBinary Code
      end
  end.

Definition compileInstrs (Instrs : list Instr) : MF CErrCode := compileAll compileInstr Instrs.

Definition epilog : MF unit :=
  let* t := retTy in
  match t with TVoid => build CreateRetVoid | _ => let* v := back in build (CreateRet v) end.

(** *** The constructor *)

Definition newLocal (t : LType) (v : Value) : MF unit :=
  let* ArgPtr := create (Alloca t) [] in
  create Store [v; ArgPtr] ;;;
  modify (fun s => set_Local (Local s ++ [ArgPtr]) s).
Fixpoint newArgs (l : list (Value * LType)) : MF unit :=
  match l with [] => ret tt | (v, t) :: l' => newLocal t v ;;; newArgs l' end.
(** A type byte without an enumerator ends like [None]. *)
Fixpoint newLocals (Locals : list (option ValType)) : MF unit :=
  match Locals with
  | [] => ret tt
  | None :: _ => undef UB_downcast
  | Some t :: Locals' =>
      let* ty := lift (toLLVMType t) in
      let* z := lift (toLLVMConstantZero t) in
      newLocal ty z ;;; newLocals Locals'
  end.
Definition newFunctionCompiler (Locals : list (option ValType)) : MF unit :=
  let* b := newBlock "entry" in
  moveTo b ;;;
  match F with
  | Some f => newArgs (fnArgs f) ;;; newLocals Locals
  | None => ret tt
  end.
(** [~FunctionCompiler]: the block of a constant expression has no function that owns it. *)
Definition deleteFunctionCompiler : MF unit :=
  match F with Some _ => ret tt | None => build deleteInsertBlock end.

End Function.

(** ** Compiler: the module under construction and what is known of it *)

Record CompilerState : Type := mkCS { Ctx : CompileContext; CBld : Build }.
#[local] Abbreviation MC := (M CompilerState).

Definition set_Ctx (c : CompileContext) (s : CompilerState) : CompilerState := mkCS c (CBld s).
Definition cbuild (f : Build -> Build) : MC unit := modify (fun s => mkCS (Ctx s) (f (CBld s))).
Definition cbuilding {A} (f : Build -> A * Build) : MC A := fun s =>
  let '(a, b) := f (CBld s) in (Ok a, mkCS (Ctx s) b).

(** A function compiler of its own: constructed, used, destroyed. *)
Definition withFC {A} (F : option Value) (Locals : list (option ValType)) (m : CompileContext -> MF A)
    : MC A := fun s =>
  let '(r, fc) := (newFunctionCompiler F Locals ;;;
                   let* a := m (Ctx s) in
                   deleteFunctionCompiler F ;;; ret a) (mkFC [] [] [] (CBld s)) in
  (r, mkCS (Ctx s) (Bld fc)).

(** The status of the expression is dropped. *)
Definition evaluate (Instrs : list Instr) : MC Value :=
  withFC None [] (fun c =>
    compileInstrs c None Instrs ;;;
    let* v := back in
    if isConstant v then ret v else undef UB_downcast).

(** *** createCtxCall and CompileContext *)

Definition createCtxCall (F C : Value) : M Build Value := fun b =>
  let '(Result, b) := FunctionCreate (getReturnType F) (getType C :: (fnArgs F).*2) ExternalLinkage [] b in
  let '(OK, b) := CreateBlock (chars "entry") (Some F) b in
  let b := SetInsertPoint OK b in
  let '(Ret, b) := Create Call (Result :: C :: (fnArgs F).*1) b in
  (Ok Result, match getReturnType F with TVoid => CreateRetVoid b | _ => CreateRet Ret b end).

Definition named (F C : Value) (n : list Z) : M Build unit :=
  let* r := createCtxCall F C in modify (setName r n).

Definition newContext : M Build CompileContext :=
  let mk f := fun b => let '(a, b') := f b in (Ok a, b') in
  let* LibCtx := mk (GlobalCreate (TInt 8) ExternalLinkage None (chars "$lib.ctx")) in
  let* Trap := mk (FunctionCreate TVoid [TInt 32] InternalLinkage (chars "$trap.")) in
  let* MemorySize := mk (FunctionCreate (TInt 32) [] InternalLinkage (chars "$memory.size.")) in
  let* MemoryGrow := mk (FunctionCreate (TInt 32) [TInt 32] InternalLinkage (chars "$memory.grow.")) in
  let* Memory := mk (GlobalCreate (TPtr (TInt 8)) ExternalLinkage None (chars "$memory")) in
  modify (addNoReturn Trap) ;;;
  named Trap LibCtx (chars "$trap") ;;;
  named MemorySize LibCtx (chars "$memory.size") ;;;
  named MemoryGrow LibCtx (chars "$memory.grow") ;;;
  ret (mkContext [] [] [] [] [] Trap MemorySize MemoryGrow Memory).

(** *** The sections *)

Definition modifyCtx (f : CompileContext -> CompileContext) : MC unit :=
  modify (fun s => set_Ctx (f (Ctx s)) s).
Definition set_FunctionTypes (l : list FunctionType) (c : CompileContext) : CompileContext :=
  mkContext l (Elements c) (Functions c) (Globals c) (Ctors c) (TrapFn c) (MemorySizeFn c)
    (MemoryGrowFn c) (MemoryVar c).
Definition set_Elements (l : list Z) (c : CompileContext) : CompileContext :=
  mkContext (FunctionTypes c) l (Functions c) (Globals c) (Ctors c) (TrapFn c) (MemorySizeFn c)
    (MemoryGrowFn c) (MemoryVar c).
Definition set_Functions (l : list (Z * Value * option CodeSegment)) (c : CompileContext)
    : CompileContext :=
  mkContext (FunctionTypes c) (Elements c) l (Globals c) (Ctors c) (TrapFn c) (MemorySizeFn c)
    (MemoryGrowFn c) (MemoryVar c).
Definition set_Globals (l : list Value) (c : CompileContext) : CompileContext :=
  mkContext (FunctionTypes c) (Elements c) (Functions c) l (Ctors c) (TrapFn c) (MemorySizeFn c)
    (MemoryGrowFn c) (MemoryVar c).
Definition set_Ctors (l : list Value) (c : CompileContext) : CompileContext :=
  mkContext (FunctionTypes c) (Elements c) (Functions c) (Globals c) l (TrapFn c) (MemorySizeFn c)
    (MemoryGrowFn c) (MemoryVar c).

Definition addFunction (T : Z) (F : Value) (Code : option CodeSegment) : MC unit :=
  modifyCtx (fun c => set_Functions (Functions c ++ [(T, F, Code)]) c).
(** [FunctionTypes[T]] after the bounds check, as a type of LLVM. *)
Definition typeAt (T : Z) : MC (option (LType * list LType)) :=
  let* s := get in
  match atZ (FunctionTypes (Ctx s)) T with
  | None => ret None
  | Some t => let* ty := lift (toLLVMFunctionType t) in ret (Some ty)
  end.

(** A loop whose body ends the function with a status that is not a success. *)
Fixpoint forEach {A} (f : A -> MC CErrCode) (l : list A) : MC CErrCode :=
  match l with
  | [] => ret CSuccess
  | a :: l' => let* st := f a in match st with CSuccess => forEach f l' | _ => ret st end
  end.

Definition compileTypes (l : list FunctionType) : MC CErrCode :=
  forEach (fun t => modifyCtx (fun c => set_FunctionTypes (FunctionTypes c ++ [t]) c) ;;; ret CSuccess) l.

Definition compileImport (d : ImportDesc) : MC CErrCode :=
  let FullName := ModName d ++ chars "." ++ ImpExtName d in
  match ImpExtType d with
  | Ext_Function =>
      match getContentFunction d with
      | Ok TypeIdx =>
          let* t := typeAt TypeIdx in
          match t with
          | None => ret CFailed
          | Some (r, ps) =>
              let* F := cbuilding (FunctionCreate r ps InternalLinkage (FullName ++ chars ".wrap")) in
              let* C := cbuilding (GlobalCreate (TInt 8) ExternalLinkage None (FullName ++ chars ".ctx")) in
              cbuild (fun b => snd (named F C FullName b)) ;;;
              addFunction TypeIdx F None ;;; ret CSuccess
          end
      | _ => ret CFailed
      end
  | _ => ret CSuccess
  end.
Definition compileImports (l : list ImportDesc) : MC CErrCode := forEach compileImport l.

Definition compileExport (d : ExportDesc) : MC CErrCode :=
  match ExpExtType d with
  | Ext_Function =>
      let* s := get in
      match atZ (Functions (Ctx s)) (ExtIdx d) with
      | None => undef UB_vector
      | Some (_, F, _) =>
          cbuild (setLinkage F ExternalLinkage) ;;; cbuild (setName F (ExpExtName d)) ;;; ret CSuccess
      end
  | _ => ret CSuccess
  end.
Definition compileExports (l : list ExportDesc) : MC CErrCode := forEach compileExport l.

Definition compileGlobal (K : Z) (g : GlobalSegment) : MC CErrCode :=
  let* ty := lift (toLLVMType (GlobValType (Global g))) in
  let* v := evaluate (GlobExpr g) in
  let* G := cbuilding (GlobalCreate ty InternalLinkage (Some v) (chars "$g." ++ to_string K)) in
  modifyCtx (fun c => set_Globals (Globals c ++ [G]) c) ;;; ret CSuccess.
Definition compileGlobals (l : list GlobalSegment) : MC CErrCode :=
  forEach (fun '(K, g) => compileGlobal (Z.of_nat K) g) (imap pair l).

(** [cast<ConstantInt>(evaluate(...))->getZExtValue()] *)
Definition evaluateOffset (Instrs : list Instr) : MC Z :=
  let* v := evaluate Instrs in
  match getZExtValue v with Some n => ret n | None => undef UB_downcast end.

(** The vector grows when the segment ends behind it, the end in 64 bits; [max_size] of the
    vector bounds [resize]. *)
Definition placeAt (max_size : Z) (Offset : Z) (Data Result : list Z) : res (list Z) :=
  let End := wrap 64 (Offset + sizeZ Data) in
  if (sizeZ Result <? End) && (max_size <? End) then Undef UB_throw
  else
    let Result := if sizeZ Result <? End then resizeZ 0 End Result else Result in
    if sizeZ Result <? Offset + sizeZ Data then Undef UB_vector
    else Ok (splice Offset Data Result).

Fixpoint initialData (ResultData : list Z) (l : list DataSegment) : MC (list Z) :=
  match l with
  | [] => ret ResultData
  | d :: l' =>
      let* Offset := evaluateOffset (DataExpr d) in
      let* R := lift (placeAt (2 ^ 63 - 1) Offset (DataBytes d) ResultData) in
      initialData R l'
  end.
Definition compileMemories (l : list DataSegment) : MC CErrCode :=
  let* ResultData := initialData [] l in
  let* Ctor := cbuilding (FunctionCreate TVoid [] InternalLinkage (chars "$memory.ctor")) in
  let* b := cbuilding (CreateBlock (chars "entry") (Some Ctor)) in
  cbuild (SetInsertPoint b) ;;;
  let* GV := cbuilding (DataCreate ResultData) in
  let* s := get in
  let* m := cbuilding (Create Load [MemoryVar (Ctx s)]) in
  let* p := cbuilding (Create InBoundsGEP [m; int32 0]) in
  cbuild (CreateMemCpy p GV (int32 (wrap 32 (sizeZ ResultData)))) ;;;
  cbuild CreateRetVoid ;;;
  modifyCtx (fun c => set_Ctors (Ctors c ++ [Ctor]) c) ;;; ret CSuccess.

Definition compileElement (e : ElementSegment) : MC CErrCode :=
  let* Offset := evaluateOffset (ElemExpr e) in
  let* s := get in
  let* R := lift (placeAt (2 ^ 61 - 1) Offset (FuncIdxes e) (Elements (Ctx s))) in
  modifyCtx (set_Elements R) ;;; ret CSuccess.
Definition compileTables (l : list ElementSegment) : MC CErrCode := forEach compileElement l.

Definition declareFunction (tc : Z * CodeSegment) : MC CErrCode :=
  let* t := typeAt tc.1 in
  match t with
  | None => ret CFailed
  | Some (r, ps) =>
      let* s := get in
      let* F := cbuilding (FunctionCreate r ps InternalLinkage
                             (chars "$f" ++ to_string (sizeZ (Functions (Ctx s))))) in
      addFunction tc.1 F (Some tc.2) ;;; ret CSuccess
  end.
Definition expandLocals (l : list (Z * option ValType)) : list (option ValType) :=
  concat ((fun p => replicate (Z.to_nat p.1) p.2) <$> l).
Definition defineFunction (f : Z * Value * option CodeSegment) : MC CErrCode :=
  match f with
  | (_, _, None) => ret CSuccess
  | (_, F, Some Code) =>
      withFC (Some F) (expandLocals (CodeLocals Code)) (fun c =>
        let* st := compileInstrs c (Some F) (CodeExpr Code) in
        match st with CSuccess => epilog (Some F) ;;; ret CSuccess | _ => ret st end)
  end.
Definition compileFunctions (TypeIdxs : list Z) (CodeSegs : list CodeSegment) : MC CErrCode :=
  let* st := forEach declareFunction (zip TypeIdxs CodeSegs) in
  match st with
  | CSuccess => let* s := get in forEach defineFunction (Functions (Ctx s))
  | _ => ret st
  end.

(** *** The module *)

(** A section the module does not have is skipped; a status that is not a success is returned. *)
Definition andThen (m k : MC CErrCode) : MC CErrCode :=
  let* st := m in match st with CSuccess => k | _ => ret st end.
Definition onSection {A} (sec : option A) (f : A -> MC CErrCode) : MC CErrCode :=
  match sec with Some c => f c | None => ret CSuccess end.

(** The start section is looked at and left. *)
Definition compileModule (Mod : AModule) : MC CErrCode :=
  andThen (onSection (TypeSec Mod) compileTypes) (
  andThen (onSection (ImportSec Mod) compileImports) (
  andThen (onSection (GlobalSec Mod) compileGlobals) (
  andThen (onSection (MemorySec Mod) (fun _ => onSection (DataSec Mod) compileMemories)) (
  andThen (onSection (TableSec Mod) (fun _ => onSection (ElementSec Mod) compileTables)) (
  andThen (onSection (FunctionSec Mod) (fun ts => onSection (CodeSec Mod) (compileFunctions ts))) (
  onSection (ExportSec Mod) compileExports)))))).

(** The function [$ctor] calls the constructors of the module. *)
Fixpoint callAll (l : list Value) : MC unit :=
  match l with [] => ret tt | F :: l' => cbuilding (Create Call [F]) ;;; callAll l' end.
Definition compileCtor : MC unit :=
  let* Ctor := cbuilding (FunctionCreate TVoid [] ExternalLinkage (chars "$ctor")) in
  let* b := cbuilding (CreateBlock (chars "entry") (Some Ctor)) in
  cbuild (SetInsertPoint b) ;;;
  let* s := get in
  callAll (Ctors (Ctx s)) ;;; cbuild CreateRetVoid.

End Compiler.
