(* ===== verification/CompilerFacts.v ===== *)
(** * Facts about the ahead-of-time compiler

    The meaning of the instructions of LLVM the compiler emits is stated as the laws of the
    class [LLVMLaws], as the LLVM language reference gives it.  Against it, straight-line
    integer code is compiled to code that computes what the interpreter computes; the
    theorems at the end say where other code is not. *)
From stdpp Require Import base list numbers option strings.
From Stdlib Require Import ZArith Lia.
From S2P Require Import Prelude Types Instruction AST Numeric NumericFacts StackMgr Runtime.
From S2P Require Import Interpreter HostFunc CString Compiler.
#[local] Open Scope Z_scope.

(** ** A reference: WebAssembly on typed integers

    A value is whether it has 64 bits, and the number. *)
Abbreviation ival := (bool * Z)%type.

Definition icmp (N : Z) (p : ICmp) (x y : Z) : bool :=
  match p with
  | EQ => x =? y | NE => negb (x =? y)
  | SLT => sgn N x <? sgn N y | ULT => x <? y
  | SGT => sgn N y <? sgn N x | UGT => y <? x
  | SLE => sgn N x <=? sgn N y | ULE => x <=? y
  | SGE => sgn N y <=? sgn N x | UGE => y <=? x
  end.

Definition iop_of (Code : OpCode) : option (bool * iop) :=
  match Code with
  | I32__add => Some (false, IAdd) | I64__add => Some (true, IAdd)
  | I32__sub => Some (false, ISub) | I64__sub => Some (true, ISub)
  | I32__mul => Some (false, IMul) | I64__mul => Some (true, IMul)
  | I32__div_s => Some (false, IDivS) | I64__div_s => Some (true, IDivS)
  | I32__div_u => Some (false, IDivU) | I64__div_u => Some (true, IDivU)
  | I32__rem_s => Some (false, IRemS) | I64__rem_s => Some (true, IRemS)
  | I32__rem_u => Some (false, IRemU) | I64__rem_u => Some (true, IRemU)
  | I32__and => Some (false, IAnd) | I64__and => Some (true, IAnd)
  | I32__or => Some (false, IOr) | I64__or => Some (true, IOr)
  | I32__xor => Some (false, IXor) | I64__xor => Some (true, IXor)
  | I32__shl => Some (false, IShl) | I64__shl => Some (true, IShl)
  | I32__shr_s => Some (false, IShrS) | I64__shr_s => Some (true, IShrS)
  | I32__shr_u => Some (false, IShrU) | I64__shr_u => Some (true, IShrU)
  | I32__rotl => Some (false, IRotl) | I64__rotl => Some (true, IRotl)
  | I32__rotr => Some (false, IRotr) | I64__rotr => Some (true, IRotr)
  | _ => None
  end.

Definition cmp_of (Code : OpCode) : option (bool * ICmp) :=
  match Code with
  | I32__eq => Some (false, EQ) | I64__eq => Some (true, EQ)
  | I32__ne => Some (false, NE) | I64__ne => Some (true, NE)
  | I32__lt_s => Some (false, SLT) | I64__lt_s => Some (true, SLT)
  | I32__lt_u => Some (false, ULT) | I64__lt_u => Some (true, ULT)
  | I32__gt_s => Some (false, SGT) | I64__gt_s => Some (true, SGT)
  | I32__gt_u => Some (false, UGT) | I64__gt_u => Some (true, UGT)
  | I32__le_s => Some (false, SLE) | I64__le_s => Some (true, SLE)
  | I32__le_u => Some (false, ULE) | I64__le_u => Some (true, ULE)
  | I32__ge_s => Some (false, SGE) | I64__ge_s => Some (true, SGE)
  | I32__ge_u => Some (false, UGE) | I64__ge_u => Some (true, UGE)
  | _ => None
  end.

Definition truth (b : bool) : ival := (false, Z.b2z b).

Definition iun (Code : OpCode) (v : ival) : option ival :=
  match Code, v with
  | I32__eqz, (false, x) | I64__eqz, (true, x) => Some (truth (x =? 0))
  | I32__popcnt, (false, x) => Some (false, bit_count 32 x)
  | I64__popcnt, (true, x) => Some (true, bit_count 64 x)
  | I32__wrap_i64, (true, x) => Some (false, wrap 32 x)
  | I64__extend_i32_s, (false, x) => Some (true, wrap 64 (sgn 32 x))
  | I64__extend_i32_u, (false, x) => Some (true, x)
  | _, _ => None
  end.

Section Reference.
(** Where an operator is asked to be defined. *)
Context (g : iop -> bool -> Z -> Z -> bool).

Definition ibin (Code : OpCode) (v1 v2 : ival) : option ival :=
  let '(w1, x) := v1 in
  let '(w2, y) := v2 in
  match iop_of Code, cmp_of Code with
  | Some (w, op), _ =>
      if eqb w w1 && eqb w w2 && g op w x y
      then r ← spec_ibinop (width w) op x y; Some (w, r) else None
  | None, Some (w, p) =>
      if eqb w w1 && eqb w w2 then Some (truth (icmp (width w) p x y)) else None
  | None, None => None
  end.

(** Operands, the top first, and locals.  [None]: not straight-line integer code, not
    well typed, or a trap. *)
Definition wstep (i : Instr) (st : list ival * list ival) : option (list ival * list ival) :=
  let '(vs, ls) := st in
  match i, vs with
  | ControlInstruction Op_Nop, _ => Some (vs, ls)
  | ConstInstruction I32__const v, _ => Some ((false, wrap 32 (storage v)) :: vs, ls)
  | ConstInstruction I64__const v, _ =>
      if wide v then Some ((true, wrap 64 (storage v)) :: vs, ls) else None
  | ParametricInstruction Op_Drop, _ :: vs => Some (vs, ls)
  | ParametricInstruction Op_Select, (false, c) :: (w2, y) :: (w1, x) :: vs =>
      if eqb w1 w2 then Some ((w1, if c =? 0 then y else x) :: vs, ls) else None
  | VariableInstruction Local__get k, _ => v ← atZ ls k; Some (v :: vs, ls)
  | VariableInstruction Local__set k, v :: vs' =>
      o ← atZ ls k; if eqb o.1 v.1 then Some (vs', setZ k v ls) else None
  | VariableInstruction Local__tee k, v :: _ =>
      o ← atZ ls k; if eqb o.1 v.1 then Some (vs, setZ k v ls) else None
  | UnaryNumericInstruction Code, v :: vs => r ← iun Code v; Some (r :: vs, ls)
  | BinaryNumericInstruction Code, v2 :: v1 :: vs => r ← ibin Code v1 v2; Some (r :: vs, ls)
  | _, _ => None
  end.

Fixpoint wrun (l : list Instr) (st : list ival * list ival) : option (list ival * list ival) :=
  match l with
  | [] => Some st
  | i :: l' => st' ← wstep i st; wrun l' st'
  end.
End Reference.

(** The interpreter rotates by its shifts of C++, and LLVM leaves a shift by the width or
    more, and the remainder of the least number by -1, undefined. *)
Definition cxx_defined (op : iop) (w : bool) (x y : Z) : bool :=
  negb (is_rot op && (y mod width w =? 0)).
Definition llvm_defined (op : iop) (w : bool) (x y : Z) : bool :=
  match op with
  | IShl | IShrU | IShrS => y <? width w
  | IRemS => negb ((sgn (width w) x =? - 2 ^ (width w - 1)) && (sgn (width w) y =? -1))
  | _ => true
  end.
Definition both_defined (op : iop) (w : bool) (x y : Z) : bool :=
  cxx_defined op w x y && llvm_defined op w x y.

(** ** The laws of LLVM *)

Definition lty (w64 : bool) : LType := TInt (width w64).

Definition int_op (m : Method) (w x y : Z) : option Z :=
  match m with
  | Add => Some (wrap w (x + y))
  | Sub => Some (wrap w (x - y))
  | Mul => Some (wrap w (x * y))
  | UDiv => if y =? 0 then None else Some (x / y)
  | URem => if y =? 0 then None else Some (x mod y)
  | SDiv =>
      if (y =? 0) || ((sgn w x =? - 2 ^ (w - 1)) && (sgn w y =? -1)) then None
      else Some (wrap w (Z.quot (sgn w x) (sgn w y)))
  | SRem =>
      if (y =? 0) || ((sgn w x =? - 2 ^ (w - 1)) && (sgn w y =? -1)) then None
      else Some (wrap w (Z.rem (sgn w x) (sgn w y)))
  | And => Some (Z.land x y)
  | Or => Some (Z.lor x y)
  | Xor => Some (Z.lxor x y)
  | Shl => if y <? w then Some (wrap w (x * 2 ^ y)) else None
  | LShr => if y <? w then Some (x / 2 ^ y) else None
  | AShr => if y <? w then Some (wrap w (sgn w x / 2 ^ y)) else None
  | _ => None
  end.

(** What an instruction without access to memory computes; [None]: poison, undefined, or
    operands of the wrong types. *)
Definition sem (m : Method) (ops : list (LType * Z)) : option (LType * Z) :=
  match m, ops with
  | ICmpOp p, [(TInt w, x); (TInt w', y)] =>
      if w =? w' then Some (TInt 1, Z.b2z (icmp w p x y)) else None
  | ZExt (TInt w), [(TInt w', x)] => if w' <? w then Some (TInt w, x) else None
  | SExt (TInt w), [(TInt w', x)] => if w' <? w then Some (TInt w, wrap w (sgn w' x)) else None
  | Trunc (TInt w), [(TInt w', x)] => if (0 <? w) && (w <? w') then Some (TInt w, wrap w x) else None
  | Select, [(TInt 1, c); (t, x); (t', y)] =>
      match t, t' with
      | TInt w, TInt w' => if w =? w' then Some (TInt w, if c =? 0 then y else x) else None
      | _, _ => None
      end
  | UnaryIntrinsic n, [(TInt w, x)] =>
      if String.eqb n "ctpop" then Some (TInt w, bit_count (Z.to_nat w) x) else None
  | Intrinsic n (TInt w), [(TInt w1, a); (TInt w2, b); (TInt w3, c)] =>
      if (0 <? w) && (w1 =? w) && (w2 =? w) && (w3 =? w) then
        if String.eqb n "fshl" then Some (TInt w, wrap w (a * 2 ^ (c mod w)) + b / 2 ^ (w - c mod w))
        else if String.eqb n "fshr" then Some (TInt w, b / 2 ^ (c mod w) + wrap w (a * 2 ^ (w - c mod w)))
        else None
      else None
  | _, [(TInt w, x); (TInt w', y)] =>
      if w =? w' then r ← int_op m w x y; Some (TInt w, r) else None
  | _, _ => None
  end.

(** [val b u] is the value of [u] when control is at the insertion point, [slot] the type of
    what a pointer made by [alloca] points to, [cell] what is stored there, [returned] what
    the function returns at the end of the block. *)
Class LLVMLaws (llvm : LLVM) : Type := {
  val : Build -> Value -> option (LType * Z);
  slot : Build -> Value -> option LType;
  cell : Build -> Value -> option (LType * Z);
  returned : Build -> option (LType * Z);
  keeps (b b' : Build) : Prop :=
    (forall u r, val b u = Some r -> val b' u = Some r) /\
    (forall p t, slot b p = Some t -> slot b' p = Some t);
  same (b b' : Build) : Prop :=
    keeps b b' /\ forall p r, cell b p = Some r -> cell b' p = Some r;
  cell_slot b p t x : cell b p = Some (t, x) -> slot b p = Some t;
  val_range b u w x : val b u = Some (TInt w, x) -> in_u w x;
  val_ConstInt b w z : 0 < w -> val b (ConstInt (TInt w) z) = Some (TInt w, wrap w z);
  law_pure m vs ops r b v b' :
    Create m vs b = (v, b') -> mapM (val b) vs = Some ops -> sem m ops = Some r ->
    same b b' /\ val b' v = Some r;
  law_Alloca t b p b' :
    Create (Alloca t) [] b = (p, b') ->
    same b b' /\ slot b p = None /\ slot b' p = Some t;
  law_Load p r b v b' :
    Create Load [p] b = (v, b') -> cell b p = Some r -> same b b' /\ val b' v = Some r;
  law_Store u p t x b v b' :
    Create Store [u; p] b = (v, b') -> val b u = Some (t, x) -> slot b p = Some t ->
    keeps b b' /\ cell b' p = Some (t, x) /\
    (forall q r, q <> p -> cell b q = Some r -> cell b' q = Some r);
  law_Ret v r b : val b v = Some r -> returned (CreateRet v b) = Some r }.

(** ** The interpreter computes the reference *)

Definition rep (v : ValVariant) (p : ival) : Prop := retrieveValue (utype p.1) v = Ok p.2.

Lemma rep_inv v w x : rep v (w, x) -> wide_enough w v = true /\ uval w v = x.
Proof.
  unfold rep, retrieveValue, wide_enough, uval. destruct w, (wide v); cbn -[wrap];
    intros; simplify_eq; auto.
Qed.

Lemma rep_intro v w : wide_enough w v = true -> rep v (w, uval w v).
Proof. intros. by apply retrieve_u. Qed.

Lemma rep_range v w x : rep v (w, x) -> in_u (width w) x.
Proof. intros [_ <-]%rep_inv. apply uval_range. Qed.

Lemma of_bits_to_bits w x : of_bits (utype w) (to_bits (utype w) x) = wrap (width w) x.
Proof. unfold of_bits, to_bits. destruct w; apply wrap_wrap; by cbn. Qed.

Lemma rep_assign w x v : rep (assignValue (utype w) x v) (w, wrap (width w) x).
Proof. unfold rep. cbn [fst snd]. by rewrite retrieve_assign, of_bits_to_bits. Qed.

Lemma rep_mkVariant w x : rep (mkVariant (utype w) x) (w, wrap (width w) x).
Proof. unfold rep. cbn [fst snd]. by rewrite retrieve_mkVariant, of_bits_to_bits. Qed.

Lemma rep_bool b : rep (bool_val b) (truth b).
Proof. by destruct b. Qed.

Lemma div_range w x y : 0 < y -> in_u w x -> in_u w (x / y).
Proof.
  unfold in_u. intros Hy Hx. split; [by apply Z.div_pos; lia|].
  apply Z.le_lt_trans with x; [|lia]. apply Z.div_le_upper_bound; [done|]. nia.
Qed.

Lemma spec_range w64 op x y r :
  in_u (width w64) x -> in_u (width w64) y ->
  spec_ibinop (width w64) op x y = Some r -> in_u (width w64) r.
Proof.
  intros Hx Hy. pose proof (width_pos w64) as HN.
  assert (0 <= y mod width w64 < width w64) as Hk by (apply Z.mod_pos_bound; lia).
  assert (0 < 2 ^ (y mod width w64)) as Hp by (apply Z.pow_pos_nonneg; lia).
  destruct op; cbn; repeat case_match; try apply Z.eqb_neq in H0;
    intros; simplify_eq; try (apply wrap_range; lia); try (apply bitop_range; auto; lia).
  - apply div_range; [unfold in_u in Hy; lia|done].
  - unfold in_u in *. pose proof (Z.mod_pos_bound x y). lia.
  - by apply div_range.
  - apply rot_range; [lia|done].
  - rewrite Z.add_comm.
    replace (y mod width w64) with (width w64 - (width w64 - y mod width w64)) at 2 by lia.
    apply rot_range; [lia|done].
Qed.

Lemma iop_binary Code w op : iop_of Code = Some (w, op) -> binary_op Code = Some (code_ibinop w op).
Proof. destruct Code; cbn; intros; simplify_eq; reflexivity. Qed.

(** The instantiation of a comparison. *)
Definition run_cmp (w : bool) (p : ICmp) : ValVariant -> ValVariant -> res ValVariant :=
  match p with
  | EQ => runEqOp (utype w) | NE => runNeOp (utype w)
  | SLT => runLtOp (stype w) | ULT => runLtOp (utype w)
  | SGT => runGtOp (stype w) | UGT => runGtOp (utype w)
  | SLE => runLeOp (stype w) | ULE => runLeOp (utype w)
  | SGE => runGeOp (stype w) | UGE => runGeOp (utype w)
  end.

Lemma cmp_binary Code w p : cmp_of Code = Some (w, p) -> binary_op Code = Some (run_cmp w p).
Proof. destruct Code; cbn; intros; simplify_eq; reflexivity. Qed.

Lemma run_cmp_correct w p v1 v2 :
  wide_enough w v1 = true -> wide_enough w v2 = true ->
  run_cmp w p v1 v2 = Ok (bool_val (icmp (width w) p (uval w v1) (uval w v2))).
Proof.
  intros H1 H2. destruct p; cbn [run_cmp icmp];
    unfold runEqOp, runNeOp, runLtOp, runGtOp, runLeOp, runGeOp, c_eqb, c_ltb, c_leb;
    rewrite ?retrieve_u, ?retrieve_s by done; cbn [rbind]; by destruct w.
Qed.

Lemma ibin_interp g Code p1 p2 r v1 v2 :
  (forall op w x y, g op w x y = true -> cxx_defined op w x y = true) ->
  ibin g Code p1 p2 = Some r -> rep v1 p1 -> rep v2 p2 ->
  exists f v', binary_op Code = Some f /\ f v1 v2 = Ok v' /\ rep v' r.
Proof.
  destruct p1 as [w1 x], p2 as [w2 y]. intros Hg Hb [H1 H1']%rep_inv [H2 H2']%rep_inv.
  cbn in Hb. destruct (iop_of Code) as [[w op]|] eqn:Ho.
  - destruct (eqb w w1 && eqb w w2 && g op w x y) eqn:E; [|done]. bool_to_prop.
    repeat match goal with H : eqb _ _ = true |- _ => apply eqb_prop in H; subst end.
    destruct (spec_ibinop _ _ _ _) as [z|] eqn:Hs; [|done]. cbn in Hb. simplify_eq.
    eexists _, _. split; [by apply iop_binary|]. rewrite ibinop_correct, Hs by
      (try done; intros Hr; apply Hg in H0; unfold cxx_defined in H0; rewrite Hr in H0;
       unfold rot_amount; bool_to_prop; cbn in *; by apply Z.eqb_neq).
    split; [done|].
    rewrite <- (wrap_small (width w1) z) at 2 by (eapply spec_range; [..|done]; apply uval_range).
    apply rep_assign.
  - destruct (cmp_of Code) as [[w p]|] eqn:Hc; [|done].
    destruct (eqb w w1 && eqb w w2) eqn:E; [|done]. bool_to_prop.
    repeat match goal with H : eqb _ _ = true |- _ => apply eqb_prop in H; subst end.
    simplify_eq. eexists _, _. split; [by apply cmp_binary|].
    rewrite run_cmp_correct by done. split; [done|]. apply rep_bool.
Qed.

Lemma iun_interp Code p r v :
  iun Code p = Some r -> rep v p ->
  exists f v', unary_op Code = Some f /\ f v = Ok v' /\ rep v' r.
Proof.
  destruct p as [w x]. intros Hu Hv. pose proof (rep_range _ _ _ Hv) as Hx.
  pose proof Hv as [Hw Hx']%rep_inv.
  destruct Code; cbn in Hu; try done; destruct w; try done; injection Hu as <-;
    (eexists _; cbn [unary_op]).
  all: try (eexists; split; [reflexivity|]; unfold runEqzOp, runWrapOp, runExtendOp;
    unfold rep in Hv; cbn [fst snd utype] in Hv; rewrite Hv; cbn [rbind]; split; [reflexivity|]).
  all: try apply rep_bool.
  - destruct (popcnt_correct false v Hw) as (v' & E & Hr). rewrite Hx' in Hr. eauto.
  - destruct (popcnt_correct true v Hw) as (v' & E & Hr). rewrite Hx' in Hr. eauto.
  - apply (rep_mkVariant false).
  - eexists. split; [reflexivity|]. unfold runExtendOp.
    pose proof (retrieve_s false v Hw) as Hs. cbn [stype width] in Hs. rewrite Hs. cbn [rbind].
    split; [reflexivity|]. rewrite <- Hx'. apply (rep_assign true).
  - rewrite <- (wrap_small (width true) x) at 2 by (unfold in_u in *; cbn -[Z.pow] in *; lia).
    apply (rep_assign true).
Qed.

Lemma wstep_dispatch g i st st' :
  wstep g i st = Some st' -> dispatchInstruction (getOpCode i) = Some (node_class i).
Proof.
  destruct st as [vs ls].
  destruct i as [Code|Code ? ?|Code ? ? ?|Code ?|Code ? ?|Code ?|Code|Code ?|Code ? ?|Code ?|Code|Code];
    cbn [wstep]; try done.
  1-4: by destruct Code; try done; repeat case_match; intros; simplify_eq.
  - destruct vs as [|[w x] vs]; [done|]. cbn [getOpCode].
    destruct Code; cbn; try done; by repeat case_match.
  - destruct vs as [|[w y] [|[w' x] vs]]; [done..|]. unfold ibin.
    destruct Code; cbn; try done; by repeat case_match.
Qed.

Section Interp.
Context {H : Type}.
Context (g : iop -> bool -> Z -> Z -> bool).
Context (Hg : forall op w x y, g op w x y = true -> cxx_defined op w x y = true).

(** The operands lie on the locals, which lie where the frame says. *)
Definition isim (st : list ival * list ival) (s : Interpreter H) : Prop :=
  exists f fs vs ls rest,
    FrameStack (StackMgr s) = f :: fs /\ ValueStack (StackMgr s) = vs ++ ls ++ rest /\
    Forall2 rep vs st.1 /\ Forall2 rep (reverse ls) st.2 /\
    VStackSize f = sizeZ rest /\ sizeZ rest + sizeZ ls <= 2 ^ 32.

(** The instructions one after another. *)
Fixpoint executeAll (l : list Instr) : M (Interpreter H) unit :=
  match l with [] => ret tt | i :: l' => executeInstr i ;;; executeAll l' end.

Lemma onStack_eq (m : M StackManager unit) (s : Interpreter H) vs :
  m (StackMgr s) = (Ok tt, set_values vs (StackMgr s)) ->
  onStack m s = (Ok tt, set_StackMgr (set_values vs (StackMgr s)) s).
Proof. unfold onStack, zoom. by intros ->. Qed.

(** The place of a local. *)
Lemma local_at (s : Interpreter H) f fs vs ls rest k v :
  FrameStack (StackMgr s) = f :: fs -> ValueStack (StackMgr s) = vs ++ ls ++ rest ->
  VStackSize f = sizeZ rest -> sizeZ rest + sizeZ ls <= 2 ^ 32 ->
  atZ (reverse ls) k = Some v ->
  exists n, reverse ls !! Z.to_nat k = Some v /\ ls !! n = Some v /\ (n < length ls)%nat /\
    (length ls - 1 - n = Z.to_nat k)%nat /\
    wrap 32 (VStackSize f + k) = VStackSize f + k /\
    Stack.bottom_index (StackMgr s) (VStackSize f + k) = Some (length vs + n)%nat.
Proof.
  intros Hf Hv Hr Hs Hk. pose proof (atZ_Some _ _ _ Hk) as Hb.
  unfold atZ in Hk. destruct (0 <=? k); [|done].
  rewrite Hr. unfold sizeZ in *. rewrite length_reverse in Hb.
  exists (length ls - 1 - Z.to_nat k)%nat. split; [done|].
  rewrite reverse_lookup in Hk by lia.
  replace (length ls - S (Z.to_nat k))%nat with (length ls - 1 - Z.to_nat k)%nat in Hk by lia.
  split; [done|]. split; [lia|]. split; [lia|].
  split; [apply wrap_small; unfold in_u; lia|].
  unfold Stack.bottom_index, sizeZ. rewrite Hv, !length_app.
  destruct (Z.leb_spec 0 (Z.of_nat (length rest) + k)); [|lia].
  destruct (Z.ltb_spec (Z.of_nat (length rest) + k)
              (Z.of_nat (length vs + (length ls + length rest)))); [|lia].
  cbn. f_equal. lia.
Qed.

Lemma insert_local (vs ls rest : list ValVariant) n k v :
  (n < length ls)%nat -> (length ls - 1 - n = k)%nat ->
  <[(length vs + n)%nat := v]> (vs ++ ls ++ rest) = vs ++ <[n := v]> ls ++ rest /\
  reverse (<[n := v]> ls) = <[k := v]> (reverse ls).
Proof.
  intros Hn Hk. split.
  - rewrite insert_app_r. f_equal. by apply insert_app_l.
  - apply list_eq. intros j. destruct (decide (j < length ls)%nat).
    + rewrite reverse_lookup by (rewrite length_insert; lia). rewrite length_insert.
      destruct (decide (j = k)) as [->|].
      * rewrite list_lookup_insert_eq by (rewrite length_reverse; lia).
        replace (length ls - S k)%nat with n by lia. by apply list_lookup_insert_eq.
      * rewrite !list_lookup_insert_ne by lia. by rewrite reverse_lookup.
    + rewrite !lookup_ge_None_2; [done|..];
        rewrite ?length_insert, ?length_reverse, ?length_insert; lia.
Qed.

Lemma isim_set_local (s : Interpreter H) f fs vs ls rest k v p ps qs :
  FrameStack (StackMgr s) = f :: fs -> ValueStack (StackMgr s) = vs ++ ls ++ rest ->
  Forall2 rep vs ps -> Forall2 rep (reverse ls) qs ->
  VStackSize f = sizeZ rest -> sizeZ rest + sizeZ ls <= 2 ^ 32 ->
  is_Some (atZ qs k) -> rep v p ->
  exists vs', Stack.setBottomN (wrap 32 (VStackSize f + k)) v (StackMgr s) =
      (Ok tt, set_values vs' (StackMgr s)) /\
    isim (ps, setZ k p qs) (set_StackMgr (set_values vs' (StackMgr s)) s).
Proof.
  intros Hf Hv Hvs Hls Hr Hs [q Hq] Hp.
  assert (exists o, atZ (reverse ls) k = Some o) as [o Ho].
  { pose proof (atZ_Some _ _ _ Hq). apply atZ_is_Some. apply Forall2_length in Hls.
    unfold sizeZ in *. lia. }
  destruct (local_at s f fs vs ls rest k o) as (n & _ & _ & Hn & Hk & Hw & Hb); [done..|].
  destruct (insert_local vs ls rest n _ v Hn Hk) as [E1 E2].
  exists (vs ++ <[n := v]> ls ++ rest). rewrite Hw. split.
  - unfold Stack.setBottomN. by rewrite Hb, Hv, E1.
  - exists f, fs, vs, (<[n := v]> ls), rest. cbn. rewrite E2. unfold setZ, sizeZ in *.
    rewrite length_insert. repeat split; auto. by apply Forall2_insert.
Qed.

Lemma execute_dispatch i st st' :
  wstep g i st = Some st' ->
  executeInstr (H := H) i =
  match i with
  | ControlInstruction Code => executeControl Code
  | ParametricInstruction Code => executeParametric Code
  | VariableInstruction Code n => executeVariable Code n
  | ConstInstruction _ v => executeConst v
  | UnaryNumericInstruction Code => executeUnary Code
  | BinaryNumericInstruction Code => executeBinary Code
  | _ => executeInstr i
  end.
Proof.
  intros Hw. pose proof (wstep_dispatch _ _ _ _ Hw) as Hd.
  destruct i; try done; unfold executeInstr; rewrite Hd; by rewrite bool_decide_eq_false_2 by auto.
Qed.

Lemma isim_const Code v (vs : list ival) ls st' :
  wstep g (ConstInstruction Code v) (vs, ls) = Some st' -> exists p, rep v p /\ st' = (p :: vs, ls).
Proof.
  cbn. destruct Code; try done.
  - intros [= <-]. exists (false, uval false v). split; [by apply rep_intro|done].
  - destruct (wide v) eqn:E; [|done]. intros [= <-].
    exists (true, uval true v). split; [by apply rep_intro|done].
Qed.

Section Step.
Context (s : Interpreter H) (f : Frame) (fs : list Frame) (vs ls rest : list ValVariant).
Context (ps qs : list ival).
Context (Hf : FrameStack (StackMgr s) = f :: fs) (Hv : ValueStack (StackMgr s) = vs ++ ls ++ rest).
Context (Hvs : Forall2 rep vs ps) (Hls : Forall2 rep (reverse ls) qs).
Context (Hr : VStackSize f = sizeZ rest) (Hs : sizeZ rest + sizeZ ls <= 2 ^ 32).

(** What replaces the operands keeps the rest. *)
Lemma isim_operands (m : M StackManager unit) vs' ps' :
  m (StackMgr s) = (Ok tt, set_values (vs' ++ ls ++ rest) (StackMgr s)) -> Forall2 rep vs' ps' ->
  exists s', onStack m s = (Ok tt, s') /\ isim (ps', qs) s'.
Proof using Hf Hls Hr Hs.
  intros Hm Hvs'. eexists. split; [by apply onStack_eq|]. exists f, fs, vs', ls, rest. cbn. by split_and!.
Qed.

Lemma isim_parametric Code st' :
  wstep g (ParametricInstruction Code) (ps, qs) = Some st' ->
  exists s', executeParametric Code s = (Ok tt, s') /\ isim st' s'.
Proof using Hf Hv Hvs Hls Hr Hs.
  destruct Code; cbn [wstep]; try done.
  - destruct ps as [|p ps']; [done|]. intros [= <-]. inversion Hvs as [|v ? vs' ? Hp Hvs']; subst.
    cbn [executeParametric].
    destruct (isim_operands (Stack.pop ;;; ret tt) vs' ps') as (s' & E & Hi); [|done|].
    { unfold bind, Stack.pop. by rewrite Hv. }
    exists s'. split; [|done]. rewrite <- E. unfold bind, onStack, zoom, Stack.pop. by rewrite Hv.
  - destruct ps as [|[[] c] [|[w2 y] [|[w1 x] ps']]]; try done.
    destruct (eqb w1 w2) eqn:E; [|done]. apply eqb_prop in E as ->. intros [= <-].
    inversion Hvs as [|vc ? vs1 ? Hc Hvs1]; subst. inversion Hvs1 as [|v2 ? vs2 ? H2 Hvs2]; subst.
    inversion Hvs2 as [|v1 ? vs3 ? H1 Hvs3]; subst. cbn [executeParametric].
    apply (isim_operands _ ((if c =? 0 then v2 else v1) :: vs3)).
    + unfold bind, Stack.pop, lift. rewrite Hv. cbn -[retrieveValue]. unfold rep in Hc.
      cbn [fst snd utype] in Hc. rewrite Hc.
      by destruct (c =? 0).
    + constructor; [by destruct (c =? 0)|done].
Qed.

Lemma isim_variable Code k st' :
  wstep g (VariableInstruction Code k) (ps, qs) = Some st' ->
  exists s', executeVariable Code k s = (Ok tt, s') /\ isim st' s'.
Proof using Hf Hv Hvs Hls Hr Hs.
  destruct Code; cbn [wstep]; try done.
  - destruct (atZ qs k) as [q|] eqn:Hq; [|done]. cbn. intros [= <-].
    assert (exists v, atZ (reverse ls) k = Some v /\ rep v q) as (v & Ho & Hq').
    { unfold atZ in *. destruct (0 <=? k); [|done].
      eapply Forall2_lookup_r in Hls as (v & ? & ?); [|done]. eauto. }
    destruct (local_at s f fs vs ls rest k v) as (n & _ & Hn & Hn' & _ & Hw & Hb); [done..|].
    apply (isim_operands _ (v :: vs)); [|by constructor].
    unfold bind, Stack.getOffset, Stack.getBottomN. rewrite Hf, Hw, Hb, Hv. cbn.
    rewrite lookup_app_r, lookup_app_l by lia.
    replace (length vs + n - length vs)%nat with n by lia. rewrite Hn.
    unfold Stack.push, modify. by rewrite Hv.
  - destruct ps as [|p ps']; [done|]. destruct (atZ qs k) as [q|] eqn:Hq; [|done]. cbn.
    destruct (eqb _ _); [|done]. intros [= <-]. inversion Hvs as [|v ? vs' ? Hp Hvs']; subst.
    destruct (isim_set_local (set_StackMgr (set_values (vs' ++ ls ++ rest) (StackMgr s)) s) f fs vs' ls
                rest k v p ps' qs) as (vs'' & E & Hi); [done..|by eexists|done|].
    eexists. split; [|exact Hi]. unfold runLocalSetOp.
    erewrite onStack_eq with (vs := vs''); [reflexivity|].
    unfold bind, Stack.getOffset, Stack.pop. rewrite Hf, Hv. exact E.
  - destruct ps as [|p ps']; [done|]. destruct (atZ qs k) as [q|] eqn:Hq; [|done]. cbn.
    destruct (eqb _ _); [|done]. intros [= <-]. inversion Hvs as [|v ? vs' ? Hp Hvs']; subst.
    destruct (isim_set_local s f fs (v :: vs') ls rest k v p (p :: ps') qs)
      as (vs'' & E & Hi); [done..|by eexists|done|].
    eexists. split; [|exact Hi]. unfold runLocalTeeOp. apply onStack_eq.
    unfold bind, Stack.getOffset, Stack.getTop. rewrite Hv. cbn -[Stack.setBottomN wrap]. rewrite Hf. exact E.
Qed.

Lemma isim_unary Code st' :
  wstep g (UnaryNumericInstruction Code) (ps, qs) = Some st' ->
  exists s', executeUnary Code s = (Ok tt, s') /\ isim st' s'.
Proof using Hf Hv Hvs Hls Hr Hs.
  cbn [wstep]. destruct ps as [|p ps']; [done|]. destruct (iun Code p) as [r|] eqn:E; [|done].
  intros [= <-]. inversion Hvs as [|v ? vs' ? Hp Hvs']; subst.
  destruct (iun_interp _ _ _ _ E Hp) as (op & v' & Ho & Hv' & Hrep).
  apply (isim_operands _ (v' :: vs')); [|by constructor].
  unfold bind, Stack.getTop, Stack.setTop, lift. rewrite Hv. cbn. rewrite Ho, Hv'. cbn. by rewrite Hv.
Qed.

Lemma isim_binary Code st' :
  wstep g (BinaryNumericInstruction Code) (ps, qs) = Some st' ->
  exists s', executeBinary Code s = (Ok tt, s') /\ isim st' s'.
Proof using Hg Hf Hv Hvs Hls Hr Hs.
  cbn [wstep]. destruct ps as [|p2 [|p1 ps']]; [done..|].
  destruct (ibin g Code p1 p2) as [r|] eqn:E; [|done]. intros [= <-].
  inversion Hvs as [|v2 ? vs1 ? H2 Hvs1]; subst. inversion Hvs1 as [|v1 ? vs' ? H1 Hvs']; subst.
  destruct (ibin_interp _ _ _ _ _ _ _ Hg E H1 H2) as (op & v' & Ho & Hv' & Hrep).
  apply (isim_operands _ (v' :: vs')); [|by constructor].
  unfold bind, Stack.getTop, Stack.setTop, Stack.pop, lift. rewrite Hv. cbn. rewrite Ho, Hv'. done.
Qed.

End Step.

Lemma isim_step i st st' s :
  wstep g i st = Some st' -> isim st s ->
  exists s', executeInstr i s = (Ok tt, s') /\ isim st' s'.
Proof using Hg.
  intros Hw (f & fs & vs & ls & rest & Hf & Hv & Hvs & Hls & Hr & Hs).
  rewrite (execute_dispatch _ _ _ Hw). destruct st as [ps qs]. cbn [fst snd] in *.
  destruct i as [Code|Code ? ?|Code ? ? ?|Code ?|Code ? ?|Code ?|Code|Code k|Code ? ?|Code v|Code|Code];
    try done.
  - destruct Code; try done. cbn in Hw. simplify_eq. exists s. split; [done|].
    by exists f, fs, vs, ls, rest.
  - by eapply isim_parametric.
  - by eapply isim_variable.
  - destruct (isim_const _ _ _ _ _ Hw) as (p & Hp & ->).
    eapply isim_operands with (vs' := v :: vs); try done; [|by constructor].
    unfold Stack.push, modify. by rewrite Hv.
  - by eapply isim_unary.
  - by eapply isim_binary.
Qed.

Lemma isim_run l st st' s :
  wrun g l st = Some st' -> isim st s -> exists s', executeAll l s = (Ok tt, s') /\ isim st' s'.
Proof using Hg.
  revert st s. induction l as [|i l IH]; intros st s Hw Hi; cbn in Hw.
  - simplify_eq. by exists s.
  - destruct (wstep g i st) as [st1|] eqn:E; [|done]. cbn in Hw.
    destruct (isim_step _ _ _ _ E Hi) as (s1 & E1 & Hi1).
    destruct (IH _ _ Hw Hi1) as (s2 & E2 & Hi2). exists s2. split; [|done].
    cbn [executeAll]. unfold bind. by rewrite E1.
Qed.

End Interp.

(** ** The compiled code computes the reference *)

Section Compiled.
Context {llvm : LLVM} {laws : LLVMLaws llvm}.
Context (g : iop -> bool -> Z -> Z -> bool).
Context (Hg : forall op w x y, g op w x y = true -> llvm_defined op w x y = true).

Definition vrep (b : Build) (o : option Value) (p : ival) : Prop :=
  exists u, o = Some u /\ val b u = Some (lty p.1, p.2).
Definition lrep (b : Build) (p : Value) (q : ival) : Prop := cell b p = Some (lty q.1, q.2).

Definition csim (st : list ival * list ival) (s : FunctionCompiler) : Prop :=
  Forall2 (vrep (Bld s)) (Stack s) st.1 /\ Forall2 (lrep (Bld s)) (Local s) st.2 /\ NoDup (Local s).

Lemma same_refl b : same b b.
Proof. by repeat split. Qed.
Lemma same_trans b1 b2 b3 : same b1 b2 -> same b2 b3 -> same b1 b3.
Proof. intros [[? ?] ?] [[? ?] ?]. repeat split; eauto. Qed.

Lemma keeps_vrep b b' os ps : keeps b b' -> Forall2 (vrep b) os ps -> Forall2 (vrep b') os ps.
Proof.
  intros [Hv _] HF. eapply Forall2_impl; [done|]. intros o p (u & -> & Hu). exists u. eauto.
Qed.
Lemma same_lrep b b' l qs : same b b' -> Forall2 (lrep b) l qs -> Forall2 (lrep b') l qs.
Proof. intros [_ Hc] HF. eapply Forall2_impl; [done|]. intros p q. apply Hc. Qed.

Lemma create_sem m vs ops r s :
  mapM (val (Bld s)) vs = Some ops -> sem m ops = Some r ->
  exists v b', create m vs s = (Ok v, set_Bld b' s) /\ same (Bld s) b' /\ val b' v = Some r.
Proof.
  intros Ho Hr. unfold create, building. destruct (Create m vs (Bld s)) as [v b'] eqn:E.
  destruct (law_pure _ _ _ _ _ _ _ E Ho Hr). eauto.
Qed.

(** The method and the operands of an operator. *)
Definition method (op : iop) : Method :=
  match op with
  | IAdd => Add | ISub => Sub | IMul => Mul | IDivS => SDiv | IDivU => UDiv | IRemS => SRem
  | IRemU => URem | IAnd => And | IOr => Or | IXor => Xor | IShl => Shl | IShrS => AShr
  | IShrU => LShr | IRotl => Intrinsic "fshl" (TInt 32) | IRotr => Intrinsic "fshr" (TInt 32)
  end.

Lemma sem_iop w op x y z :
  is_rot op = false -> llvm_defined op w x y = true -> in_u (width w) y ->
  spec_ibinop (width w) op x y = Some z ->
  sem (method op) [(lty w, x); (lty w, y)] = Some (lty w, z).
Proof.
  intros Hop Hd Hy Hs. pose proof (width_pos w) as Hw.
  assert (int_op (method op) (width w) x y = Some z) as E.
  { destruct op; cbn [spec_ibinop int_op method llvm_defined] in *; try done.
    - destruct (Z.eqb_spec y 0); [done|]. cbn [orb]. revert Hs.
      destruct (Z.eqb_spec (Z.quot (sgn (width w) x) (sgn (width w) y)) (2 ^ (width w - 1))) as [|Hq]; [done|].
      intros [= <-]. destruct (_ && _) eqn:E; [|done]. bool_to_prop. destruct Hq.
      rewrite quot_min_iff; [done|lia|apply sgn_range; lia|apply sgn_range; lia|lia].
    - destruct (Z.eqb_spec y 0); [done|]. apply negb_true_iff in Hd. cbn [orb]. by rewrite Hd.
    - rewrite Hd. apply Z.ltb_lt in Hd. rewrite Z.mod_small in Hs by (unfold in_u in Hy; lia). done.
    - rewrite Hd. apply Z.ltb_lt in Hd. rewrite Z.mod_small in Hs by (unfold in_u in Hy; lia). done.
    - rewrite Hd. apply Z.ltb_lt in Hd. rewrite Z.mod_small in Hs by (unfold in_u in Hy; lia). done. }
  unfold sem, lty in *.
  destruct op; cbn [method] in *; try done; rewrite Z.eqb_refl, E; done.
Qed.

(** What [compileBinary] does after it has taken the right operand. *)
Definition emit (w : bool) (op : iop) (RHS : Value) : M FunctionCompiler CErrCode :=
  match op with
  | IRotl => rotate "fshl" (lty w) RHS
  | IRotr => rotate "fshr" (lty w) RHS
  | _ => binary (method op) RHS
  end.

Lemma iop_compile Code w op :
  iop_of Code = Some (w, op) -> compileBinary Code = (let* RHS := back in pop_back ;;; emit w op RHS).
Proof. destruct Code; cbn; intros; simplify_eq; reflexivity. Qed.
Lemma cmp_compile Code w p :
  cmp_of Code = Some (w, p) ->
  compileBinary Code = (let* RHS := back in pop_back ;;; compare (ICmpOp p) RHS).
Proof. destruct Code; cbn; intros; simplify_eq; reflexivity. Qed.

(** Replacing the top operand by what an instruction computes of it and of others. *)
Lemma replace_top m us ops r u os s ps :
  Stack s = Some u :: os -> Forall2 (vrep (Bld s)) os ps ->
  mapM (val (Bld s)) us = Some ops -> sem m ops = Some (lty r.1, r.2) ->
  exists s', (let* v := create m us in setBack v ;;; ret CSuccess) s = (Ok CSuccess, s') /\
    same (Bld s) (Bld s') /\ Local s' = Local s /\ Forall2 (vrep (Bld s')) (Stack s') (r :: ps).
Proof.
  intros Hs Hos Ho Hr. destruct (create_sem _ _ _ _ _ Ho Hr) as (v & b' & E & Hb & Hv).
  exists (mkFC (Local s) (Some v :: os) (ControlStack s) b').
  unfold setBack, pop_back, push, modify, ret, bind. rewrite E. cbn. rewrite Hs. cbn.
  split_and!; [done|done|done|]. constructor; [by eexists|].
  by eapply keeps_vrep; [apply Hb|].
Qed.

Lemma replace_top_flag m us ops b u os s ps :
  Stack s = Some u :: os -> Forall2 (vrep (Bld s)) os ps ->
  mapM (val (Bld s)) us = Some ops -> sem m ops = Some (TInt 1, Z.b2z b) ->
  exists s', (let* c := create m us in
              let* v := create (ZExt (TInt 32)) [c] in
              setBack v ;;; ret CSuccess) s = (Ok CSuccess, s') /\
    same (Bld s) (Bld s') /\ Local s' = Local s /\ Forall2 (vrep (Bld s')) (Stack s') (truth b :: ps).
Proof.
  intros Hs Hos Ho Hr. destruct (create_sem _ _ _ _ _ Ho Hr) as (c & b1 & E & Hb & Hc).
  destruct (replace_top (ZExt (TInt 32)) [c] [(TInt 1, Z.b2z b)] (truth b) u os (set_Bld b1 s) ps)
    as (s' & E' & Hb' & Hl & HF); try done.
  - by eapply keeps_vrep; [apply Hb|].
  - cbn. by rewrite Hc.
  - exists s'. split_and!; [|by eapply same_trans|done|done]. unfold bind at 1. by rewrite E.
Qed.

Lemma take_top {A} u os s (k : Value -> M FunctionCompiler A) :
  Stack s = Some u :: os ->
  (let* v := back in pop_back ;;; k v) s = k u (set_Stack os s).
Proof. intros Hs. unfold bind, back, pop_back. rewrite Hs. cbn. by rewrite Hs. Qed.

Lemma sem_rot w op x y z :
  is_rot op = true -> spec_ibinop (width w) op x y = Some z ->
  sem (match op with IRotl => Intrinsic "fshl" (lty w) | _ => Intrinsic "fshr" (lty w) end)
    [(lty w, x); (lty w, x); (lty w, y)] = Some (lty w, z).
Proof.
  destruct op; try done; intros _ [= <-]; unfold sem, lty; rewrite !Z.eqb_refl; by destruct w.
Qed.

Section Step.
Context (s : FunctionCompiler) (ps qs : list ival).
Context (Hos : Forall2 (vrep (Bld s)) (Stack s) ps) (Hls : Forall2 (lrep (Bld s)) (Local s) qs).
Context (Hn : NoDup (Local s)).

Lemma csim_after (m : M FunctionCompiler CErrCode) ps' :
  (exists s', m s = (Ok CSuccess, s') /\ same (Bld s) (Bld s') /\ Local s' = Local s /\
     Forall2 (vrep (Bld s')) (Stack s') ps') ->
  exists s', m s = (Ok CSuccess, s') /\ csim (ps', qs) s'.
Proof using Hls Hn.
  intros (s' & Hc & Hb & HL & HF). exists s'. split; [done|].
  split_and!; cbn; [done|rewrite HL; by eapply same_lrep|by rewrite HL].
Qed.

Lemma csim_binary Code st' :
  wstep g (BinaryNumericInstruction Code) (ps, qs) = Some st' ->
  exists s', compileBinary Code s = (Ok CSuccess, s') /\ csim st' s'.
Proof using Hg Hos Hls Hn.
  cbn [wstep]. destruct ps as [|[w2 y] [|[w1 x] ps']]; [done..|].
  destruct (ibin g Code _ _) as [r|] eqn:E; [|done]. intros [= <-]. cbn in E.
  inversion Hos as [|o2 ? os1 ? (u2 & -> & H2) Hos1 Es]; subst.
  inversion Hos1 as [|o1 ? os ? (u1 & -> & H1) Hos' Es']; subst. cbn [fst snd] in *.
  symmetry in Es.
  apply csim_after.
  destruct (iop_of Code) as [[w op]|] eqn:Ho.
  - destruct (eqb w w1 && eqb w w2 && g op w x y) eqn:E'; [|done]. bool_to_prop.
    repeat match goal with H : eqb _ _ = true |- _ => apply eqb_prop in H; subst end.
    destruct (spec_ibinop _ _ _ _) as [z|] eqn:Hs; [|done]. cbn in E. simplify_eq.
    rewrite (iop_compile _ _ _ Ho), (take_top _ _ _ _ Es). destruct (is_rot op) eqn:Hrot.
    + pose proof (sem_rot _ _ _ _ _ Hrot Hs) as Hsem.
      destruct (replace_top _ [u1; u1; u2] _ (w1, z) u1 os (set_Stack (Some u1 :: os) s) ps' eq_refl Hos'
        ltac:(cbn; by rewrite H1, H2) Hsem) as (s' & E & ?).
      exists s'. split; [|done]. by destruct op.
    + pose proof (val_range _ _ _ _ H2) as Hy.
      pose proof (sem_iop _ _ _ _ _ Hrot (Hg _ _ _ _ H0) Hy Hs) as Hsem.
      destruct (replace_top _ [u1; u2] _ (w1, z) u1 os (set_Stack (Some u1 :: os) s) ps' eq_refl Hos'
        ltac:(cbn; by rewrite H1, H2) Hsem) as (s' & E & ?).
      exists s'. split; [|done]. by destruct op.
  - destruct (cmp_of Code) as [[w p]|] eqn:Hc; [|done].
    destruct (eqb w w1 && eqb w w2) eqn:E'; [|done]. bool_to_prop.
    repeat match goal with H : eqb _ _ = true |- _ => apply eqb_prop in H; subst end.
    simplify_eq. rewrite (cmp_compile _ _ _ Hc), (take_top _ _ _ _ Es).
    destruct (replace_top_flag (ICmpOp p) [u1; u2] [(lty w1, x); (lty w1, y)]
      (icmp (width w1) p x y) u1 os (set_Stack (Some u1 :: os) s) ps' eq_refl Hos'
      ltac:(cbn; by rewrite H1, H2) ltac:(cbn; by rewrite Z.eqb_refl)) as (s' & E & ?).
    exists s'. done.
Qed.

Lemma csim_unary Code st' :
  wstep g (UnaryNumericInstruction Code) (ps, qs) = Some st' ->
  exists s', compileUnary Code s = (Ok CSuccess, s') /\ csim st' s'.
Proof using Hos Hls Hn.
  cbn [wstep]. destruct ps as [|[w x] ps']; [done|].
  destruct (iun Code _) as [r|] eqn:E; [|done]. intros [= <-].
  inversion Hos as [|o ? os ? (u & -> & Hu) Hos' Es]; subst. cbn [fst snd] in *. symmetry in Es.
  assert (forall A (k : Value -> M FunctionCompiler A), (let* o := back in k o) s = k u s) as Hk.
  { intros A k. unfold bind, back. by rewrite Es. }
  apply csim_after.
  assert (forall m, sem m [(lty w, x)] = Some (lty r.1, r.2) -> compileUnary Code = unary m ->
    exists s', compileUnary Code s = (Ok CSuccess, s') /\ same (Bld s) (Bld s') /\
      Local s' = Local s /\ Forall2 (vrep (Bld s')) (Stack s') (r :: ps')) as Hun.
  { intros m Hm ->. unfold unary. rewrite Hk.
    apply (replace_top m [u] [(lty w, x)] r u os); try done. cbn. by rewrite Hu. }
  assert (forall z, compileUnary Code = compileEqz (ConstInt (lty w) z) -> wrap (width w) z = 0 ->
    r = truth (x =? 0) ->
    exists s', compileUnary Code s = (Ok CSuccess, s') /\ same (Bld s) (Bld s') /\
      Local s' = Local s /\ Forall2 (vrep (Bld s')) (Stack s') (r :: ps')) as Heq.
  { intros z -> Hz ->. unfold compileEqz. rewrite Hk.
    apply (replace_top_flag (ICmpOp EQ) [u; ConstInt (lty w) z] [(lty w, x); (lty w, 0)] (x =? 0) u os); try done.
    - cbn. rewrite Hu. unfold lty. rewrite val_ConstInt by (by destruct w). cbn. by rewrite Hz.
    - cbn. by rewrite Z.eqb_refl. }
  destruct Code; cbn in E; try done; destruct w; try done; injection E as <-;
    first [by apply (Heq 0)|by eapply Hun; [|reflexivity]; reflexivity].
Qed.

(** A comparison of the top with zero, for a select. *)
Lemma condition_sem c os :
  Stack s = Some c :: os -> forall x, val (Bld s) c = Some (TInt 32, x) ->
  exists v b', condition s = (Ok v, mkFC (Local s) os (ControlStack s) b') /\ same (Bld s) b' /\
    val b' v = Some (TInt 1, Z.b2z (negb (x =? 0))).
Proof.
  intros Hs x Hx. destruct (create_sem (ICmpOp NE) [c; int32 0] [(TInt 32, x); (TInt 32, 0)]
    (TInt 1, Z.b2z (negb (x =? 0))) s) as (v & b' & E & Hb & Hv).
  - cbn. unfold int32. by rewrite Hx, val_ConstInt.
  - done.
  - exists v, b'. split; [|done]. unfold condition, bind, back, pop_back, ret. rewrite Hs, E. cbn.
    by rewrite Hs.
Qed.

Lemma csim_parametric Code st' :
  wstep g (ParametricInstruction Code) (ps, qs) = Some st' ->
  exists s', compileParametric Code s = (Ok CSuccess, s') /\ csim st' s'.
Proof using Hos Hls Hn.
  destruct Code; cbn [wstep]; try done.
  - destruct ps as [|p ps']; [done|]. intros [= <-].
    inversion Hos as [|o ? os ? Ho Hos' Es]; subst. symmetry in Es. apply csim_after.
    eexists. unfold compileParametric, bind, pop_back. rewrite Es.
    split; [reflexivity|]. split_and!; [apply same_refl|done|done].
  - destruct ps as [|[[] c] [|[w2 y] [|[w1 x] ps']]]; try done.
    destruct (eqb w1 w2) eqn:E; [|done]. apply eqb_prop in E as ->. intros [= <-].
    inversion Hos as [|o ? os1 ? (uc & -> & Hc) Hos1 Es]; subst. symmetry in Es.
    inversion Hos1 as [|o2 ? os2 ? (uy & -> & Hy) Hos2]; subst.
    inversion Hos2 as [|o1 ? os ? (ux & -> & Hx) Hos']; subst. cbn [fst snd] in *.
    destruct (condition_sem _ _ Es _ Hc) as (v & b' & E & Hb & Hv). apply csim_after.
    cbn [compileParametric]. unfold bind at 1. rewrite E.
    rewrite (take_top uy (Some ux :: os)) by done.
    destruct Hb as [[Hb1 Hb2] Hb3].
    destruct (replace_top Select [v; ux; uy] [(TInt 1, Z.b2z (negb (c =? 0))); (lty w2, x); (lty w2, y)]
      (w2, if c =? 0 then y else x) ux os (mkFC (Local s) (Some ux :: os) (ControlStack s) b') ps')
      as (s' & E' & [[Hb1' Hb2'] Hb3'] & HL & HF); try done.
    + by eapply keeps_vrep; [split|].
    + cbn. by rewrite Hv, (Hb1 _ _ Hx), (Hb1 _ _ Hy).
    + cbn. rewrite Z.eqb_refl. by destruct (c =? 0).
    + exists s'. split; [exact E'|]. split_and!; [|done|done]. repeat split; eauto.
Qed.

(** A store to a local changes that local. *)
Lemma store_local u p q v k s0 :
  Bld s0 = Bld s -> Local s0 = Local s ->
  atZ qs k = Some q -> atZ (Local s) k = Some p -> q.1 = v.1 -> val (Bld s) u = Some (lty v.1, v.2) ->
  exists w b', create Store [u; p] s0 = (Ok w, set_Bld b' s0) /\ keeps (Bld s) b' /\
    Forall2 (lrep b') (Local s) (setZ k v qs).
Proof using Hls Hn.
  intros Hb0 HL0 Hq Hp Hqv Hu. unfold create, building. rewrite Hb0.
  destruct (Create Store [u; p] (Bld s)) as [w b'] eqn:E.
  unfold atZ in Hq, Hp. destruct (0 <=? k); [|done].
  pose proof (Forall2_lookup_lr _ _ _ _ _ _ Hls Hp Hq) as Hc. unfold lrep in Hc.
  destruct (law_Store u p (lty v.1) v.2 (Bld s) w b' E Hu) as (Hk & Hp' & Ho).
  { rewrite <- Hqv. by eapply cell_slot. }
  exists w, b'. split_and!; [done|done|]. apply Forall2_lookup. intros j.
  pose proof (proj1 (Forall2_lookup _ _ _) Hls j) as Hj. unfold setZ.
  destruct (decide (j = Z.to_nat k)) as [->|Hjk].
  - rewrite list_lookup_insert_eq by (by eapply lookup_lt_Some). rewrite Hp. by constructor.
  - rewrite list_lookup_insert_ne by done. inversion Hj as [p' q' Hc' E1 E2|]; constructor.
    apply Ho; [|done]. intros ->. symmetry in E1. by eapply Hjk, NoDup_lookup.
Qed.

Lemma csim_variable Ctx Code k st' :
  wstep g (VariableInstruction Code k) (ps, qs) = Some st' ->
  exists s', compileVariable Ctx Code k s = (Ok CSuccess, s') /\ csim st' s'.
Proof using Hos Hls Hn.
  assert (forall q, atZ qs k = Some q -> exists p, atZ (Local s) k = Some p /\ lrep (Bld s) p q) as Hl.
  { intros q. unfold atZ. destruct (0 <=? k); [|done]. intros Hq.
    by destruct (Forall2_lookup_r _ _ _ _ _ Hls Hq) as (p & ? & ?); eauto. }
  destruct Code; cbn [wstep]; try done.
  - destruct (atZ qs k) as [q|] eqn:Hq; [|done]. cbn. intros [= <-].
    destruct (Hl q eq_refl) as (p & Hp & Hc). apply csim_after.
    destruct (Create Load [p] (Bld s)) as [v b'] eqn:E.
    destruct (law_Load _ _ _ _ _ E Hc) as [Hb Hv].
    unfold local, create, building, push, modify, bind, get, ret. rewrite Hp, E. cbn.
    eexists. split; [reflexivity|]. split_and!; [done|done|]. cbn. constructor; [by eexists|].
    by eapply keeps_vrep; [apply Hb|].
  - destruct ps as [|v ps']; [done|]. destruct (atZ qs k) as [q|] eqn:Hq; [|done]. cbn.
    destruct (eqb q.1 v.1) eqn:E; [|done]. apply eqb_prop in E. intros [= <-].
    inversion Hos as [|o ? os ? (u & -> & Hu) Hos' Es]; subst. symmetry in Es.
    destruct (Hl q eq_refl) as (p & Hp & _).
    destruct (store_local u p q v k s eq_refl eq_refl Hq Hp E Hu) as (w & b' & Ec & Hb & HF).
    exists (mkFC (Local s) os (ControlStack s) b').
    unfold local, back, pop_back, bind, get, ret. rewrite Es, Hp, Ec. cbn. rewrite Es.
    split; [done|]. split_and!; cbn; [by eapply keeps_vrep|done|done].
  - destruct ps as [|v ps']; [done|]. destruct (atZ qs k) as [q|] eqn:Hq; [|done]. cbn.
    destruct (eqb q.1 v.1) eqn:E; [|done]. apply eqb_prop in E. intros [= <-].
    inversion Hos as [|o ? os ? (u & -> & Hu) Hos' Es]; subst. symmetry in Es.
    destruct (Hl q eq_refl) as (p & Hp & _).
    destruct (store_local u p q v k s eq_refl eq_refl Hq Hp E Hu) as (w & b' & Ec & Hb & HF).
    exists (set_Bld b' s).
    unfold local, back, bind, get, ret. rewrite Es, Hp, Ec.
    split; [done|]. split_and!; cbn; [by eapply keeps_vrep|done|done].
Qed.

Lemma csim_const Code v st' :
  wstep g (ConstInstruction Code v) (ps, qs) = Some st' ->
  exists s', compileConst Code v s = (Ok CSuccess, s') /\ csim st' s'.
Proof using Hos Hls Hn.
  destruct Code; cbn [wstep]; try done.
  - intros [= <-]. apply csim_after. eexists. split; [reflexivity|]. cbn.
    split_and!; [apply same_refl|done|]. constructor; [|done]. eexists. split; [done|].
    unfold int32. rewrite val_ConstInt by done. cbn -[wrap]. by rewrite wrap_wrap.
  - destruct (wide v) eqn:E; [|done]. intros [= <-]. apply csim_after.
    unfold compileConst, bind, lift. rewrite (retrieve_u true) by done.
    eexists. split; [reflexivity|]. cbn.
    split_and!; [apply same_refl|done|]. constructor; [|done]. eexists. split; [done|].
    unfold int64. rewrite val_ConstInt by done. unfold uval. cbn -[wrap]. by rewrite wrap_wrap.
Qed.

End Step.

Lemma compile_dispatch Ctx F i st st' :
  wstep g i st = Some st' ->
  compileInstr Ctx F i =
  match i with
  | ControlInstruction Code => compileControl Ctx F Code
  | ParametricInstruction Code => compileParametric Code
  | VariableInstruction Code n => compileVariable Ctx Code n
  | ConstInstruction Code v => compileConst Code v
  | UnaryNumericInstruction Code => compileUnary Code
  | BinaryNumericInstruction Code => compileBinary Code
  | _ => compileInstr Ctx F i
  end.
Proof.
  intros Hw. pose proof (wstep_dispatch _ _ _ _ Hw) as Hd.
  destruct i; try done; unfold compileInstr; rewrite Hd; by rewrite bool_decide_eq_false_2 by auto.
Qed.

Lemma csim_step Ctx F i st st' s :
  wstep g i st = Some st' -> csim st s ->
  exists s', compileInstr Ctx F i s = (Ok CSuccess, s') /\ csim st' s'.
Proof using Hg.
  intros Hw (Hos & Hls & Hn). rewrite (compile_dispatch _ _ _ _ _ Hw). destruct st as [ps qs].
  cbn [fst snd] in *.
  destruct i as [Code|Code ? ?|Code ? ? ?|Code ?|Code ? ?|Code ?|Code|Code k|Code ? ?|Code v|Code|Code];
    try done.
  - destruct Code; try done. cbn in Hw. simplify_eq. exists s. by split_and!.
  - by eapply csim_parametric.
  - by eapply csim_variable.
  - by eapply csim_const.
  - by eapply csim_unary.
  - by eapply csim_binary.
Qed.

Lemma csim_run Ctx F l st st' s :
  wrun g l st = Some st' -> csim st s ->
  exists s', compileInstrs Ctx F l s = (Ok CSuccess, s') /\ csim st' s'.
Proof using Hg.
  revert st s. induction l as [|i l IH]; intros st s Hw Hi; cbn in Hw.
  - simplify_eq. by exists s.
  - destruct (wstep g i st) as [st1|] eqn:E; [|done]. cbn in Hw.
    destruct (csim_step Ctx F _ _ _ _ E Hi) as (s1 & E1 & Hi1).
    destruct (IH _ _ Hw Hi1) as (s2 & E2 & Hi2). exists s2. split; [|done].
    cbn [compileInstrs compileAll]. unfold bind. by rewrite E1.
Qed.

(** *** The constructor of a function compiler, and the whole function *)

Definition zero_of (t : option ValType) : option ival :=
  match t with Some VT_I32 => Some (false, 0) | Some VT_I64 => Some (true, 0) | _ => None end.

Lemma newLocal_sim v q qs s :
  csim ([], qs) s -> val (Bld s) v = Some (lty q.1, q.2) ->
  exists s', newLocal (lty q.1) v s = (Ok tt, s') /\ csim ([], qs ++ [q]) s' /\ keeps (Bld s) (Bld s').
Proof.
  intros (Hos & Hls & Hn) Hv. inversion Hos as [Es|].
  unfold newLocal, bind at 1, create, building at 1.
  destruct (Create (Alloca (lty q.1)) [] (Bld s)) as [p b1] eqn:E1.
  destruct (law_Alloca _ _ _ _ E1) as (Hb1 & Hp0 & Hp1). cbn.
  destruct (Create Store [v; p] b1) as [w b2] eqn:E2.
  pose proof (proj1 (proj1 Hb1) _ _ Hv) as Hv1.
  destruct (law_Store _ _ _ _ _ _ _ E2 Hv1 Hp1) as (Hk & Hc & Ho).
  assert (p ∉ Local s) as Hfresh.
  { intros Hin. apply list_elem_of_lookup_1 in Hin as [j Hj].
    destruct (Forall2_lookup_l _ _ _ _ _ Hls Hj) as (q' & _ & Hc').
    apply cell_slot in Hc'. congruence. }
  eexists. unfold bind, building, modify. cbn. rewrite E2. split; [reflexivity|].
  split; [|destruct Hb1 as [[? ?] ?], Hk; split; cbn; eauto].
  split_and!; cbn; [by rewrite <- Es| |].
  - apply Forall2_app; [|by repeat constructor].
    eapply (same_lrep _ _ _ _ Hb1) in Hls.
    apply Forall2_lookup. intros j. pose proof (proj1 (Forall2_lookup _ _ _) Hls j) as Hj.
    inversion Hj as [p' q' Hq' Ep Eq|]; constructor. apply Ho; [|done]. intros ->.
    symmetry in Ep. apply list_elem_of_lookup_2 in Ep. done.
  - apply NoDup_app. split_and!; [done| |apply NoDup_singleton].
    intros x Hx Hx'. apply list_elem_of_singleton in Hx'. by subst.
Qed.

Lemma newArgs_sim l qs0 qs s :
  csim ([], qs0) s ->
  Forall2 (fun a q => a.2 = lty q.1 /\ val (Bld s) a.1 = Some (lty q.1, q.2)) l qs ->
  exists s', newArgs l s = (Ok tt, s') /\ csim ([], qs0 ++ qs) s'.
Proof.
  intros Hc HF. revert qs0 s Hc HF. revert qs. induction l as [|[a t] l IH]; intros qs qs0 s Hc HF.
  - inversion HF; subst. rewrite app_nil_r. by exists s.
  - inversion HF as [|? q ? qs' [Ht Hv] HF']; subst. cbn in *. subst t.
    destruct (newLocal_sim _ _ _ _ Hc Hv) as (s1 & E1 & Hc1 & Hk).
    destruct (IH qs' (qs0 ++ [q]) s1 Hc1) as (s2 & E2 & Hc2).
    { eapply Forall2_impl; [exact HF'|]. intros a' q' [? ?]. split; [done|]. by apply Hk. }
    exists s2. unfold bind. rewrite E1. split; [done|]. by rewrite <- app_assoc in Hc2.
Qed.

Lemma newLocals_sim l qs0 zs s :
  csim ([], qs0) s -> mapM zero_of l = Some zs ->
  exists s', newLocals l s = (Ok tt, s') /\ csim ([], qs0 ++ zs) s'.
Proof.
  revert qs0 zs s. induction l as [|t l IH]; intros qs0 zs s Hc Hz.
  - injection Hz as <-. rewrite app_nil_r. by exists s.
  - cbn in Hz. destruct (zero_of t) as [z|] eqn:Ez; [|done]. cbn in Hz.
    destruct (mapM zero_of l) as [zs'|] eqn:El; [|done]. injection Hz as <-.
    assert (exists ty v, t = Some ty /\ toLLVMType ty = Ok (lty z.1) /\ toLLVMConstantZero ty = Ok v /\
      val (Bld s) v = Some (lty z.1, z.2)) as (ty & v & -> & Ht & Hv & Hval).
    { destruct t as [[]|]; cbn in Ez; simplify_eq;
        (eexists _, _; split_and!; [done|done|done|]); by apply val_ConstInt. }
    destruct (newLocal_sim _ _ _ _ Hc Hval) as (s1 & E1 & Hc1 & _).
    destruct (IH _ _ _ Hc1 eq_refl) as (s2 & E2 & Hc2). exists s2.
    rewrite <- app_assoc in Hc2. split; [|done].
    cbn [newLocals]. unfold bind, lift. rewrite Ht, Hv, E1. done.
Qed.

(** The entry of a function, and the values its arguments have there. *)
Definition entry (f : Value) (b : Build) : Build :=
  let '(blk, b1) := CreateBlock (chars "entry") (Some f) b in SetInsertPoint blk b1.
Definition has_args (f : Value) (b : Build) (args : list ival) : Prop :=
  Forall2 (fun a q => a.2 = lty q.1 /\ val (entry f b) a.1 = Some (lty q.1, q.2)) (fnArgs f) args.

Lemma newFunctionCompiler_sim f locals b args zs :
  has_args f b args -> mapM zero_of locals = Some zs ->
  exists s, newFunctionCompiler (Some f) locals (mkFC [] [] [] b) = (Ok tt, s) /\ csim ([], args ++ zs) s.
Proof.
  unfold has_args, entry. intros Ha Hz.
  destruct (CreateBlock (chars "entry") (Some f) b) as [blk b1] eqn:E0.
  assert (csim ([], []) (mkFC [] [] [] (SetInsertPoint blk b1))) as H0
    by (split_and!; cbn; constructor).
  destruct (newArgs_sim _ _ _ _ H0 Ha) as (s1 & E1 & H1).
  destruct (newLocals_sim _ _ _ _ H1 Hz) as (s2 & E2 & H2). exists s2. split; [|done].
  unfold newFunctionCompiler, newBlock, moveTo, build, building, modify, bind. cbn [Bld].
  rewrite E0. unfold set_Bld. cbn [Local Stack ControlStack Bld]. by rewrite E1.
Qed.

Lemma define_straight T f Code c b args zs r vs ls :
  has_args f b args -> mapM zero_of (expandLocals (CodeLocals Code)) = Some zs ->
  getReturnType f = lty r.1 ->
  wrun g (CodeExpr Code) ([], args ++ zs) = Some (r :: vs, ls) ->
  exists b', defineFunction (T, f, Some Code) (mkCS c b) = (Ok CSuccess, mkCS c b') /\
    returned b' = Some (lty r.1, r.2).
Proof using Hg.
  intros Ha Hz Hr Hw.
  destruct (newFunctionCompiler_sim _ _ _ _ _ Ha Hz) as (s2 & E2 & H2).
  destruct (csim_run c (Some f) _ _ _ _ Hw H2) as (s3 & E3 & (Ho3 & _)).
  inversion Ho3 as [|o ? os ? (u & -> & Hu) _ Es]; subst. symmetry in Es.
  assert (epilog (Some f) s3 = (Ok tt, set_Bld (CreateRet u (Bld s3)) s3)) as E4.
  { unfold epilog, retTy, bind, ret, back, build, modify. rewrite Hr. cbn. by rewrite Es. }
  unfold defineFunction, withFC, bind. cbn [Ctx CBld]. rewrite E2, E3, E4. cbn.
  eexists. split; [reflexivity|]. by apply law_Ret.
Qed.

End Compiled.

(** ** A builder that folds: an instance of the laws

    A value is a known number, a place, or a function with the arguments it is entered with. *)
Module Fold.

Inductive FValue : Type :=
| Known (r : option (LType * Z)) | Place (n : nat) | Fn (t : LType) (args : list (LType * Z)).
Record FBuild : Type := mkFB { places : list (LType * option Z); result : option (LType * Z) }.

Definition in_width (r : LType * Z) : bool :=
  match r.1 with TInt w => (0 <=? r.2) && (r.2 <? 2 ^ w) | _ => true end.
Definition known (r : LType * Z) : option (LType * Z) := if in_width r then Some r else None.
Definition fval (u : FValue) : option (LType * Z) :=
  match u with Known (Some r) => known r | _ => None end.
Definition fslot (b : FBuild) (u : FValue) : option LType :=
  match u with Place n => fst <$> places b !! n | _ => None end.
Definition fcell (b : FBuild) (u : FValue) : option (LType * Z) :=
  match u with
  | Place n => '(t, o) ← places b !! n; x ← o; known (t, x)
  | _ => None
  end.

Definition fcreate (m : Method) (vs : list FValue) (b : FBuild) : FValue * FBuild :=
  match m, vs with
  | Alloca t, _ => (Place (length (places b)), mkFB (places b ++ [(t, None)]) (result b))
  | Load, [p] => (Known (fcell b p), b)
  | Store, [u; Place n] =>
      match fval u with
      | Some (t, x) => (Known None, mkFB (<[n := (t, Some x)]> (places b)) (result b))
      | None => (Known None, b)
      end
  | _, _ => (Known (ops ← mapM fval vs; r ← sem m ops; known r), b)
  end.

#[export] Instance llvm : LLVM := {
  Value := FValue; Block := unit; Build := FBuild;
  ConstInt t z := Known (Some (t, match t with TInt w => wrap w z | _ => z end));
  ConstFP t z := Known (Some (t, z));
  UndefValue _ := Known None;
  Create := fcreate;
  newModule _ := mkFB [] None;
  optimize b := b;
  CreateBlock _ _ b := (tt, b);
  SetInsertPoint _ b := b;
  CreateBr _ b := b;
  CreateCondBr _ _ _ b := b;
  CreateSwitch _ _ b := (Known None, b);
  addCase _ _ _ b := b;
  CreateRet v b := mkFB (places b) (fval v);
  CreateRetVoid b := b;
  PHICreate _ _ b := (Known None, b);
  addIncoming _ _ _ b := b;
  deleteInsertBlock b := b;
  FunctionCreate t ps _ _ b := (Fn t ((fun p => (p, 0)) <$> ps), b);
  GlobalCreate _ _ v _ b := (default (Known None) v, b);
  DataCreate _ b := (Known None, b);
  CreateMemCpy _ _ _ b := b;
  setName _ _ b := b;
  setLinkage _ _ b := b;
  addNoReturn _ b := b;
  fnArgs f := match f with Fn _ args => (fun a => (Known (Some a), a.1)) <$> args | _ => [] end;
  getReturnType f := match f with Fn t _ => t | _ => TVoid end;
  getType u := match u with Known (Some r) => r.1 | _ => TVoid end;
  isConstant u := match u with Known (Some _) => true | _ => false end;
  getZExtValue u := match u with Known (Some (TInt _, x)) => Some x | _ => None end }.

Lemma known_Some r r' : known r = Some r' -> r' = r /\ in_width r = true.
Proof. unfold known. destruct (in_width r) eqn:E; intros; simplify_eq; auto. Qed.

Lemma fval_range u w x : fval u = Some (TInt w, x) -> in_u w x.
Proof.
  unfold fval. destruct u as [[r|]| |]; try done. intros [<- Hr]%known_Some.
  unfold in_width, in_u in *. cbn in *. bool_to_prop. lia.
Qed.

Lemma int_op_range m w x y r :
  in_u w x -> in_u w y -> int_op m w x y = Some r -> in_u w r.
Proof.
  intros Hx Hy. assert (0 <= w) as Hw.
  { unfold in_u in Hx. destruct (Z.lt_ge_cases w 0); [|done]. rewrite Z.pow_neg_r in Hx; lia. }
  destruct m; cbn; try done; repeat case_match; intros; simplify_eq;
    try (by apply wrap_range); try (by apply bitop_range; auto); bool_to_prop;
    try (apply div_range; [|done]).
  - unfold in_u in Hy. lia.
  - unfold in_u in *. pose proof (Z.mod_pos_bound x y). lia.
  - unfold in_u in Hy. apply Z.pow_pos_nonneg; lia.
Qed.

Lemma fval_in_width u r : fval u = Some r -> in_width r = true.
Proof. unfold fval. destruct u as [[r0|]| |]; try done. by intros [-> ?]%known_Some. Qed.

Lemma in_width_int w x : in_width (TInt w, x) = true <-> in_u w x.
Proof. unfold in_width, in_u. cbn. rewrite andb_true_iff, Z.leb_le, Z.ltb_lt. done. Qed.

Lemma b2z_range w b : 0 < w -> in_u w (Z.b2z b).
Proof.
  intros. unfold in_u. pose proof (Z.pow_gt_lin_r 2 w ltac:(lia) ltac:(lia)). destruct b; cbn; lia.
Qed.

Lemma sem_in_width m ops r :
  Forall (fun o => in_width o = true) ops -> sem m ops = Some r -> in_width r = true.
Proof.
  intros HF Hs. destruct r as [t x].
  assert (exists w, t = TInt w /\ in_u w x) as (w & -> & Hx); [|by apply in_width_int].
  assert (forall w x, in_u w x -> 0 <= w) as Hw.
  { intros w y Hy. unfold in_u in Hy. destruct (Z.lt_ge_cases w 0); [|done].
    rewrite Z.pow_neg_r in Hy; lia. }
  destruct m; cbn -[int_op] in Hs; repeat case_match; simplify_eq;
    repeat match goal with
    | H : Forall _ (_ :: _) |- _ => apply Forall_cons in H as [?%in_width_int H]
    end;
    bool_to_prop; subst;
    try match type of Hs with context [int_op ?m ?w ?x ?y] =>
      destruct (int_op m w x y) eqn:E; [apply int_op_range in E; [|assumption..]|]; cbn in Hs;
        [injection Hs as <- <-; by eexists|done] end;
    simplify_eq; eexists; (split; [done|]).
  all: try (by apply b2z_range); try done; try (apply wrap_range; lia).
  - pose proof (Hw _ _ H). pose proof (Z.pow_lt_mono_r 2 w0 w). unfold in_u in *. lia.
  - apply wrap_range. pose proof (Hw _ _ H). lia.
  - pose proof (bit_count_bound (Z.to_nat w) z). pose proof (Hw _ _ H).
    pose proof (Z.pow_gt_lin_r 2 w). unfold in_u in *. lia.
  - apply rot_range; [|done]. pose proof (Z.mod_pos_bound z1 w). lia.
  - pose proof (Z.mod_pos_bound z1 w). rewrite Z.add_comm.
    replace (z1 mod w) with (w - (w - z1 mod w)) at 2 by lia. apply rot_range; [lia|done].
Qed.

Lemma fcell_slot b p t x : fcell b p = Some (t, x) -> fslot b p = Some t.
Proof.
  unfold fcell, fslot. destruct p; try done. destruct (places b !! n) as [[t' [o|]]|]; try done.
  cbn. by intros [[= -> ->] _]%known_Some.
Qed.

Lemma fcreate_pure m vs ops r b v b' :
  fcreate m vs b = (v, b') -> mapM fval vs = Some ops -> sem m ops = Some r -> b' = b /\ fval v = Some r.
Proof.
  intros Hc Ho Hr.
  assert (fcreate m vs b = (Known (ops ← mapM fval vs; r ← sem m ops; known r), b)) as E.
  { destruct m; try done; cbn in Hr.
    - by repeat case_match.
    - by repeat case_match.
    - destruct vs as [|u [|[?|?|?] [|]]]; try done. cbn in Ho. destruct (fval u); done. }
  rewrite E in Hc. injection Hc as <- <-. split; [done|]. rewrite Ho. cbn. rewrite Hr. cbn.
  assert (in_width r = true) as Hin.
  { eapply sem_in_width; [|done]. apply mapM_Some_1 in Ho. apply Forall_lookup. intros j o Hj.
    destruct (Forall2_lookup_r _ _ _ _ _ Ho Hj) as (u & _ & Hu). by eapply fval_in_width. }
  unfold known. rewrite Hin. cbn. unfold known. by rewrite Hin.
Qed.

Lemma fcreate_store u p t x b v b' :
  fcreate Store [u; p] b = (v, b') -> fval u = Some (t, x) -> fslot b p = Some t ->
  (forall q t', fslot b q = Some t' -> fslot b' q = Some t') /\ fcell b' p = Some (t, x) /\
  (forall q r, q <> p -> fcell b q = Some r -> fcell b' q = Some r).
Proof.
  destruct p as [|n|]; try done. cbn. intros Hc Hu Hp. rewrite Hu in Hc. injection Hc as <- <-.
  destruct (places b !! n) as [[t' o]|] eqn:En; [|done]. cbn in Hp. simplify_eq.
  pose proof (lookup_lt_Some _ _ _ En) as Hlt. cbn. split_and!.
  - intros [|k|] t'; try done. cbn. destruct (decide (k = n)) as [->|].
    + rewrite list_lookup_insert_eq by done. rewrite En. done.
    + by rewrite list_lookup_insert_ne by done.
  - rewrite list_lookup_insert_eq by done. cbn. unfold known. by rewrite (fval_in_width _ _ Hu).
  - intros [|k|] r' Hk; try done. cbn. rewrite list_lookup_insert_ne by congruence. done.
Qed.

Lemma fcreate_alloca t b p b' :
  fcreate (Alloca t) [] b = (p, b') ->
  (forall q t', fslot b q = Some t' -> fslot b' q = Some t') /\
  (forall q r, fcell b q = Some r -> fcell b' q = Some r) /\ fslot b p = None /\ fslot b' p = Some t.
Proof.
  cbn. intros [= <- <-]. cbn. split_and!.
  - intros [|k|] t'; try done. cbn. destruct (places b !! k) eqn:E; [|done].
    by rewrite (lookup_app_l_Some _ _ _ _ E).
  - intros [|k|] r0; try done. cbn. destruct (places b !! k) eqn:E; [|done].
    by rewrite (lookup_app_l_Some _ _ _ _ E).
  - by rewrite lookup_ge_None_2.
  - by rewrite lookup_app_r, Nat.sub_diag by done.
Qed.

#[export] Instance laws : LLVMLaws llvm.
Proof.
  refine (Build_LLVMLaws llvm (fun _ => fval) fslot fcell result fcell_slot _ _ _ _ _ _ _).
  - intros _ u w x. apply fval_range.
  - intros _ w z Hw. cbn. unfold known. rewrite (proj2 (in_width_int _ _)); [done|].
    apply wrap_range. lia.
  - intros m vs ops r b v b' Hc Ho Hr. destruct (fcreate_pure _ _ _ _ _ _ _ Hc Ho Hr) as [-> Hv].
    by repeat split.
  - intros t b p b' Hc. destruct (fcreate_alloca _ _ _ _ Hc) as (? & ? & ? & ?). by repeat split.
  - intros p r b v b' Hc Hp. cbn in Hc. injection Hc as <- <-. split; [by repeat split|].
    cbn. rewrite Hp. destruct p as [|n|]; try done. cbn in Hp.
    destruct (places b !! n) as [[t [o|]]|]; try done. cbn in Hp. apply known_Some in Hp as [-> Hr].
    cbn. unfold known. by rewrite Hr.
  - intros u p t x b v b' Hc Hu Hp. destruct (fcreate_store _ _ _ _ _ _ _ Hc Hu Hp) as (? & ? & ?).
    by repeat split.
  - done.
Defined.

End Fold.

(** ** What is compiled right *)

Lemma both_cxx op w x y : both_defined op w x y = true -> cxx_defined op w x y = true.
Proof. unfold both_defined. by intros [? _]%andb_true_iff. Qed.
Lemma both_llvm op w x y : both_defined op w x y = true -> llvm_defined op w x y = true.
Proof. unfold both_defined. by intros [_ ?]%andb_true_iff. Qed.

(** [C21] Straight-line integer code is compiled to code that computes what the interpreter
    computes: for a function of integer parameters and locals whose body consists of
    constants, accesses to locals, drop, select and integer operators and whose run, by the
    definitions of WebAssembly, ends without a trap and meets no operation that C++ or LLVM
    leaves undefined, the interpreter runs the body, the function is compiled with success, and
    the compiled function returns the number the interpreter leaves on its stack. *)
Theorem compiled_straight_line_agrees {H : Type} {llvm : LLVM} {laws : LLVMLaws llvm}
    T f Code c b args zs r vs ls (s : Interpreter H) :
  has_args f b args -> mapM zero_of (expandLocals (CodeLocals Code)) = Some zs ->
  getReturnType f = lty r.1 -> isim ([], args ++ zs) s ->
  wrun both_defined (CodeExpr Code) ([], args ++ zs) = Some (r :: vs, ls) ->
  exists s' v rest x b',
    executeAll (CodeExpr Code) s = (Ok tt, s') /\ ValueStack (StackMgr s') = v :: rest /\
    retrieveValue (utype r.1) v = Ok x /\
    defineFunction (T, f, Some Code) (mkCS c b) = (Ok CSuccess, mkCS c b') /\
    returned b' = Some (lty r.1, x).
Proof.
  intros Ha Hz Hr Hi Hw.
  destruct (isim_run _ both_cxx _ _ _ _ Hw Hi)
    as (s' & E & (fr & fs & us & ls' & rest & _ & Hv & Hus & _)).
  destruct (define_straight _ both_llvm T f Code c b args zs r vs ls) as (b' & E' & Hb'); [done..|].
  inversion Hus as [|v ? us' ? Hrep]; subst. exists s', v, (us' ++ ls' ++ rest), r.2, b'. by split_and!.
Qed.

(** [(a + b) * 3 >> 1], with [a] and [b] the arguments; the product is kept in a local. *)
Definition sample_code : CodeSegment := mkCodeSegment 0 [(1, Some VT_I32)]
  [VariableInstruction Local__get 0; VariableInstruction Local__get 1;
   BinaryNumericInstruction I32__add; ConstInstruction I32__const (mkVariant U32 3);
   BinaryNumericInstruction I32__mul; VariableInstruction Local__tee 2;
   ConstInstruction I32__const (mkVariant U32 1); BinaryNumericInstruction I32__shr_s].
Definition sample_function : Value (LLVM := Fold.llvm) := Fold.Fn (TInt 32) [(TInt 32, 20); (TInt 32, 4294967286)].
Definition sample_context : CompileContext (llvm := Fold.llvm) :=
  mkContext [] [] [] [] [] sample_function sample_function sample_function sample_function.
Definition sample_state : Interpreter unit :=
  mkInterp (mkStack [mkVariant U32 0; mkVariant U32 4294967286; mkVariant U32 20] [] [mkFrame 0 0 0 1])
    [] None newStoreManager tt Mode_Instantiate.

Lemma compiled_straight_line_agrees_witness :
  exists s' v rest x b',
    executeAll (CodeExpr sample_code) sample_state = (Ok tt, s') /\
    ValueStack (StackMgr s') = v :: rest /\ retrieveValue U32 v = Ok x /\
    defineFunction (0, sample_function, Some sample_code) (mkCS sample_context (Fold.mkFB [] None)) =
      (Ok CSuccess, mkCS sample_context b') /\
    Fold.result b' = Some (TInt 32, x) /\ x = 15.
Proof.
  destruct (compiled_straight_line_agrees (laws := Fold.laws) 0 sample_function sample_code
    sample_context (Fold.mkFB [] None) [(false, 20); (false, 4294967286)] [(false, 0)] (false, 15) []
    [(false, 20); (false, 4294967286); (false, 30)] sample_state) as (s' & v & rest & x & b' & E & Hv & Hx & Ed & Hb).
  - repeat constructor.
  - reflexivity.
  - reflexivity.
  - exists (mkFrame 0 0 0 1), [], [], [mkVariant U32 0; mkVariant U32 4294967286; mkVariant U32 20], [].
    split_and!; try reflexivity; try (by repeat constructor).
  - vm_compute. reflexivity.
  - exists s', v, rest, x, b'. repeat (split; [assumption|]). vm_compute in E. injection E as <-.
    cbn in Hv. injection Hv as <- _. vm_compute in Hx. by injection Hx as <-.
Defined.
