(* ===== verification/CompilerControl.v ===== *)
(** * Control, sections and memory in the ahead-of-time compiler

    What holds of every builder: the stack of open blocks is kept by every instruction, so a
    block ends with the operands it began with.  From this follow the points at which the
    compiler leaves WebAssembly: results of blocks, the second branch of an if, branches out of
    the function, the start section, imported globals. *)
From stdpp Require Import base list numbers option strings.
From Stdlib Require Import ZArith Lia.
From S2P Require Import Prelude Types Instruction AST HostFunc CString Compiler.
#[local] Open Scope Z_scope.

Create HintDb cc.

Section Control.
Context {llvm : LLVM}.
#[local] Abbreviation MF := (M FunctionCompiler).

(** ** The open blocks and the locals are kept *)

Definition steady {A} (m : MF A) : Prop := forall s a s',
  m s = (Ok a, s') -> ControlStack s' = ControlStack s /\ Local s' = Local s.

Lemma steady_ret {A} (a : A) : steady (ret a).
Proof. by intros s b s' [= _ <-]. Qed.
Lemma steady_undef {A} u : steady (undef (A := A) u).
Proof. by intros s b s' [=]. Qed.
Lemma steady_lift {A} (r : res A) : steady (lift r).
Proof. by intros s b s' [= _ <-]. Qed.
Lemma steady_get : steady get.
Proof. by intros s b s' [= _ <-]. Qed.
Lemma steady_bind {A B} (m : MF A) (k : A -> MF B) :
  steady m -> (forall a, steady (k a)) -> steady (bind m k).
Proof.
  intros Hm Hk s b s' (a & s1 & E1 & E2)%bind_Ok_inv.
  destruct (Hm _ _ _ E1) as [<- <-]. by eapply Hk.
Qed.
Lemma steady_modify f :
  (forall s, ControlStack (f s) = ControlStack s /\ Local (f s) = Local s) -> steady (modify f).
Proof. intros Hf s a s' [= _ <-]. apply Hf. Qed.
Lemma steady_building {A} (f : Build -> A * Build) : steady (building f).
Proof. intros s a s'. unfold building. destruct (f (Bld s)). by intros [= _ <-]. Qed.
Lemma steady_back : steady back.
Proof. intros s a s'. unfold back. by destruct (Stack s) as [|[]]; intros [= _ <-]. Qed.
Lemma steady_pop_back : steady pop_back.
Proof. intros s a s'. unfold pop_back. by destruct (Stack s); intros [= _ <-]. Qed.

#[local] Hint Resolve steady_ret steady_undef steady_lift steady_get steady_building steady_back
  steady_pop_back : cc.
#[local] Hint Extern 1 (steady (modify _)) => apply steady_modify; done : cc.
#[local] Hint Extern 1 (steady (build _)) => apply steady_modify; done : cc.
#[local] Hint Extern 1 (steady (push _)) => apply steady_modify; done : cc.
#[local] Hint Extern 1 (steady (eraseTop _)) => apply steady_modify; done : cc.
#[local] Hint Extern 1 (steady (moveTo _)) => apply steady_modify; done : cc.
#[local] Hint Extern 1 (steady (create _ _)) => apply steady_building : cc.
#[local] Hint Extern 1 (steady (newBlock _ _)) => apply steady_building : cc.
#[local] Hint Extern 2 (steady (bind _ _)) => apply steady_bind; [|intros ?] : cc.
#[local] Hint Extern 3 (steady (match ?x with _ => _ end)) => destruct x : cc.
#[local] Hint Extern 3 (steady (if ?x then _ else _)) => destruct x : cc.

Ltac steadily := repeat first [progress auto with cc|apply steady_bind; [|intros ?]|case_match].

Lemma steady_setBack v : steady (setBack v).
Proof. unfold setBack. steadily. Qed.
Lemma steady_getLabel n : steady (getLabel n).
Proof. unfold getLabel. steadily. Qed.
Lemma steady_retTy F : steady (retTy F).
Proof. unfold retTy. steadily. Qed.
Lemma steady_operands i n : steady (operands i n).
Proof. unfold operands. steadily. Qed.
Lemma steady_condition : steady condition.
Proof. unfold condition. steadily. Qed.
#[local] Hint Resolve steady_setBack steady_getLabel steady_retTy steady_operands steady_condition : cc.

Section Function.
Context (Ctx : CompileContext) (F : option Value).

Lemma steady_trapCall : steady (trapCall Ctx).
Proof. unfold trapCall. steadily. Qed.
Lemma steady_address o n t : steady (address Ctx o n t).
Proof. unfold address. steadily. Qed.
#[local] Hint Resolve steady_trapCall steady_address : cc.

Lemma steady_addCases v i l : steady (addCases v i l).
Proof. revert i. induction l as [|n l IH]; intros i; cbn [addCases]; steadily. Qed.
Lemma steady_callEntries a b p v l : steady (callEntries F a b p v l).
Proof. induction l as [|[K Fn] l IH]; cbn [callEntries]; steadily. Qed.
#[local] Hint Resolve steady_addCases steady_callEntries : cc.

Lemma steady_control c : steady (compileControl Ctx F c).
Proof. destruct c; cbn [compileControl]; steadily. Qed.
Lemma steady_br c n : steady (compileBr F c n).
Proof. unfold compileBr. steadily. Qed.
Lemma steady_brTable c t n : steady (compileBrTable F c t n).
Proof. destruct c; cbn [compileBrTable]; steadily. Qed.
Lemma steady_call c n : steady (compileCall Ctx F c n).
Proof. destruct c; cbn [compileCall]; unfold compileCallOp, compileIndirectCallOp; steadily. Qed.
Lemma steady_parametric c : steady (compileParametric c).
Proof. destruct c; cbn [compileParametric]; steadily. Qed.
Lemma steady_local n : steady (local n).
Proof. unfold local. steadily. Qed.
#[local] Hint Resolve steady_local : cc.
Lemma steady_variable c n : steady (compileVariable Ctx c n).
Proof. destruct c; cbn [compileVariable]; steadily. Qed.
Lemma steady_loadOp n t : steady (compileLoadOp Ctx n t).
Proof. unfold compileLoadOp. steadily. Qed.
#[local] Hint Resolve steady_loadOp : cc.
Lemma steady_memory c n : steady (compileMemory Ctx c n).
Proof. destruct c; cbn [compileMemory]; unfold compileExtLoadOp, compileStoreOp; steadily. Qed.
Lemma steady_const c v : steady (compileConst c v).
Proof. destruct c; cbn [compileConst]; steadily. Qed.
Lemma steady_unary c : steady (compileUnary c).
Proof. destruct c; cbn [compileUnary]; unfold unary, compileEqz; steadily. Qed.
Lemma steady_binary c : steady (compileBinary c).
Proof. destruct c; unfold compileBinary, binary, compare, rotate; steadily. Qed.

(** ** Blocks *)

Lemma leaveBlock_inv s s' n j nx l u :
  ControlStack s = (n, j, nx) :: l -> leaveBlock s = (Ok u, s') ->
  ControlStack s' = l /\ Local s' = Local s /\ length (Stack s') = Z.to_nat n.
Proof.
  intros Hc. unfold leaveBlock. rewrite Hc. intros [= _ <-]. cbn. split_and!; [done..|].
  rewrite length_app, length_replicate, length_drop. lia.
Qed.

(** From entering a block to leaving it. *)
Lemma block_balanced {A} a b (m : MF A) s s1 s2 x s3 u :
  steady m -> enterBlock a b s = (Ok tt, s1) -> m s1 = (Ok x, s2) -> leaveBlock s2 = (Ok u, s3) ->
  ControlStack s3 = ControlStack s /\ Local s3 = Local s /\ length (Stack s3) = length (Stack s).
Proof.
  intros Hm [= <-] Em El. destruct (Hm _ _ _ Em) as [Hc HL]. cbn in Hc, HL.
  destruct (leaveBlock_inv _ _ _ _ _ _ _ Hc El) as (-> & -> & ->). unfold sizeZ.
  split_and!; [done..|lia].
Qed.

Lemma newBlock_inv (n : string) s b s' :
  newBlock F n s = (Ok b, s') ->
  Stack s' = Stack s /\ ControlStack s' = ControlStack s /\ Local s' = Local s.
Proof. unfold newBlock, building. destruct (CreateBlock _ _ _). by intros [= _ <-]. Qed.

Lemma condition_inv s c s' :
  condition s = (Ok c, s') ->
  length (Stack s) = S (length (Stack s')) /\ ControlStack s' = ControlStack s /\ Local s' = Local s.
Proof.
  unfold condition, back, pop_back, create, building, bind, ret.
  destruct (Stack s) as [|[v|] os] eqn:Es; try done.
  destruct (Create _ _ _) as [v' b']. cbn. rewrite Es. by intros [= _ <-].
Qed.

Lemma steady_all l :
  Forall (fun i => steady (compileInstr Ctx F i)) l -> steady (compileAll (compileInstr Ctx F) l).
Proof.
  induction 1 as [|i l Hi Hl IH]; cbn [compileAll]; steadily.
Qed.

Definition block_of (Code : OpCode) (body : list Instr) : MF CErrCode :=
  match Code with
  | Op_Block =>
      let* b := newBlock F "block" in
      let* EndBlock := newBlock F "block.end" in
      build (CreateBr b) ;;;
      enterBlock EndBlock EndBlock ;;; moveTo b ;;;
      compileAll (compileInstr Ctx F) body ;;;
      leaveBlock ;;; ret CSuccess
  | Op_Loop =>
      let* Loop := newBlock F "loop" in
      let* EndLoop := newBlock F "loop.end" in
      build (CreateBr Loop) ;;;
      enterBlock Loop EndLoop ;;; moveTo Loop ;;;
      compileAll (compileInstr Ctx F) body ;;;
      leaveBlock ;;; ret CSuccess
  | _ => undef UB_downcast
  end.

Lemma bracket {A B} a b (m : MF A) (k : MF B) s x s' :
  steady m -> (enterBlock a b ;;; m ;;; leaveBlock ;;; k) s = (Ok x, s') ->
  exists s1, k s1 = (Ok x, s') /\ ControlStack s1 = ControlStack s /\ Local s1 = Local s /\
    length (Stack s1) = length (Stack s).
Proof.
  intros Hm (u & s1 & E1 & E)%bind_Ok_inv. apply bind_Ok_inv in E as (y & s2 & E2 & E).
  apply bind_Ok_inv in E as (u' & s3 & E3 & E). destruct u. exists s3. split; [done|].
  by eapply block_balanced.
Qed.
Lemma bracket_at {A B} a b c (m : MF A) (k : MF B) s x s' :
  steady m -> (enterBlock a b ;;; moveTo c ;;; m ;;; leaveBlock ;;; k) s = (Ok x, s') ->
  exists s1, k s1 = (Ok x, s') /\ ControlStack s1 = ControlStack s /\ Local s1 = Local s /\
    length (Stack s1) = length (Stack s).
Proof.
  intros Hm E. apply (bracket a b (moveTo c ;;; m)); [steadily|].
  rewrite <- E. unfold bind. cbn. done.
Qed.

Lemma block_of_balanced Code body s st s' :
  steady (compileAll (compileInstr Ctx F) body) -> block_of Code body s = (Ok st, s') ->
  ControlStack s' = ControlStack s /\ Local s' = Local s /\ length (Stack s') = length (Stack s).
Proof.
  intros Hm Hb. destruct Code; try done; cbn [block_of] in Hb;
    apply bind_Ok_inv in Hb as (b1 & s1 & (H1 & H2 & H3)%newBlock_inv & Hb);
    apply bind_Ok_inv in Hb as (b2 & s2 & (H4 & H5 & H6)%newBlock_inv & Hb);
    apply bind_Ok_inv in Hb as ([] & s3 & [= <-] & Hb);
    apply bracket_at in Hb as (s4 & [= _ <-] & Hc & HL & Hs); try done; cbn in *;
    split_and!; congruence.
Qed.

(** Both branches of an if: the operand is the condition. *)
Definition if_of (ifs : list Instr) : MF CErrCode :=
  let* Cond := condition in
  let* Then := newBlock F "then" in
  let* Else := newBlock F "else" in
  let* EndIf := newBlock F "if.end" in
  build (CreateCondBr Cond Then EndIf) ;;;
  enterBlock EndIf Else ;;; moveTo Then ;;;
  compileAll (compileInstr Ctx F) ifs ;;;
  leaveBlock ;;;
  enterBlock EndIf EndIf ;;;
  compileAll (compileInstr Ctx F) ifs ;;;
  leaveBlock ;;; ret CSuccess.

Lemma if_of_balanced ifs s st s' :
  steady (compileAll (compileInstr Ctx F) ifs) -> if_of ifs s = (Ok st, s') ->
  ControlStack s' = ControlStack s /\ Local s' = Local s /\ length (Stack s) = S (length (Stack s')).
Proof.
  intros Hm Hb. unfold if_of in Hb.
  apply bind_Ok_inv in Hb as (c & s0 & (H7 & H8 & H9)%condition_inv & Hb).
  apply bind_Ok_inv in Hb as (b1 & s1 & (H1 & H2 & H3)%newBlock_inv & Hb).
  apply bind_Ok_inv in Hb as (b2 & s2 & (H4 & H5 & H6)%newBlock_inv & Hb).
  apply bind_Ok_inv in Hb as (b3 & s3 & (H10 & H11 & H12)%newBlock_inv & Hb).
  apply bind_Ok_inv in Hb as ([] & s4 & [= <-] & Hb).
  apply bracket_at in Hb as (s5 & Hb & Hc & HL & Hs); [|done].
  apply bracket in Hb as (s6 & [= _ <-] & Hc' & HL' & Hs'); [|done]. cbn in *.
  split_and!; congruence.
Qed.

(** Every instruction keeps the open blocks and the locals. *)
Lemma steady_instr i : steady (compileInstr Ctx F i).
Proof.
  induction i as [c bt body IH|c bt ifs els IH1 IH2|i Hb Hi] using Instr_nested_ind.
  - apply steady_all in IH. intros s a s' E. cbn [compileInstr] in E. cbn [getOpCode] in E.
    repeat case_match; try done; try (by injection E as _ <-);
      [destruct (block_of_balanced Op_Block body s a s') as (? & ? & _)
      |destruct (block_of_balanced Op_Loop body s a s') as (? & ? & _)]; done.
  - apply steady_all in IH1. intros s a s' E. cbn [compileInstr getOpCode] in E.
    repeat case_match; try done; try (by injection E as _ <-).
    destruct (if_of_balanced ifs s a s') as (? & ? & _); done.
  - destruct i; try (by exfalso; eapply Hb); try (by exfalso; eapply Hi); cbn [compileInstr];
      repeat case_match; auto using steady_ret, steady_undef, steady_control, steady_br, steady_brTable,
        steady_call, steady_parametric, steady_variable, steady_memory, steady_const, steady_unary,
        steady_binary.
Qed.

Lemma steady_instrs l : steady (compileAll (compileInstr Ctx F) l).
Proof. apply steady_all, Forall_forall. intros i _. apply steady_instr. Qed.

End Function.
End Control.

(** ** Where the compiler leaves WebAssembly *)

(** Every instruction list is compiled with the open blocks and the locals kept, whatever the
    builder does; a block or a loop ends with as many operands as it began with, and an if with
    one fewer.  A block that has a result, which is one operand more, loses it. *)
Theorem compiled_blocks_balanced {llvm : LLVM} Ctx F :
  (forall l s st s', compileInstrs Ctx F l s = (Ok st, s') ->
     ControlStack s' = ControlStack s /\ Local s' = Local s) /\
  (forall c bt body s s', c = Op_Block \/ c = Op_Loop ->
     compileInstr Ctx F (BlockControlInstruction c bt body) s = (Ok CSuccess, s') ->
     length (Stack s') = length (Stack s)) /\
  (forall bt ifs els s s',
     compileInstr Ctx F (IfElseControlInstruction Op_If bt ifs els) s = (Ok CSuccess, s') ->
     length (Stack s) = S (length (Stack s'))).
Proof.
  split_and!.
  - intros l. apply steady_instrs.
  - intros c bt body s s' Hc E.
    assert (block_of Ctx F c body s = (Ok CSuccess, s')) as E' by (by destruct Hc as [-> | ->]).
    by apply block_of_balanced in E' as (_ & _ & ?); [|apply steady_instrs].
  - intros bt ifs els s s' E.
    assert (if_of Ctx F ifs s = (Ok CSuccess, s')) as E' by done.
    by apply if_of_balanced in E' as (_ & _ & ?); [|apply steady_instrs].
Qed.

(** The code of an if does not depend on its second branch. *)
Theorem else_branch_not_compiled {llvm : LLVM} Ctx F c bt ifs els els' :
  compileInstr Ctx F (IfElseControlInstruction c bt ifs els) =
  compileInstr Ctx F (IfElseControlInstruction c bt ifs els').
Proof. done. Qed.

Lemma br_fails {llvm : LLVM} F n s :
  sizeZ (ControlStack s) <= n -> compileBr F Op_Br n s = (Ok CFailed, s).
Proof. intros Hn%Z.leb_le. unfold compileBr, bind, get. by rewrite Hn. Qed.

Lemma body_fails {llvm : LLVM} Ctx F n rest s :
  sizeZ (ControlStack s) <= n ->
  compileAll (compileInstr Ctx F) (BrControlInstruction Op_Br n :: rest) s = (Ok CFailed, s).
Proof.
  intros Hn. cbn [compileAll]. unfold bind.
  change (compileInstr Ctx F (BrControlInstruction Op_Br n)) with (compileBr F Op_Br n).
  by rewrite br_fails.
Qed.

(** A branch to the outermost label, which leaves the function, is not compiled; in a block
    the failure is not reported, and what follows in the block is left out. *)
Theorem branch_out_of_function_not_compiled {llvm : LLVM} Ctx F bt n rest s :
  let inner b1 b2 b := mkFC (Local s) (Stack s) ((sizeZ (Stack s), b2, b2) :: ControlStack s)
                         (SetInsertPoint b1 (CreateBr b1 b)) in
  sizeZ (ControlStack s) <= n ->
  compileInstr Ctx F (BrControlInstruction Op_Br n) s = (Ok CFailed, s) /\
  exists s', compileInstr Ctx F (BlockControlInstruction Op_Block bt (BrControlInstruction Op_Br (n + 1) :: rest)) s =
    (Ok CSuccess, s') /\
    exists b1 b2 b, leaveBlock (inner b1 b2 b) = (Ok tt, s').
Proof.
  intros inner Hn. split; [by apply br_fails|].
  destruct (CreateBlock (chars "block") F (Bld s)) as [b1 x1] eqn:E1.
  destruct (CreateBlock (chars "block.end") F x1) as [b2 x2] eqn:E2.
  eexists. split; [|by exists b1, b2, x2].
  change (compileInstr _ _ _ s)
    with (block_of Ctx F Op_Block (BrControlInstruction Op_Br (n + 1) :: rest) s).
  unfold block_of.
  pose proof (body_fails Ctx F (n + 1) rest (inner b1 b2 x2)
    ltac:(unfold sizeZ in *; cbn -[Z.of_nat]; lia)) as Eb.
  set (body := compileAll _ _) in *. clearbody body. subst inner.
  unfold newBlock, building, build, modify, enterBlock, moveTo, bind. rewrite E1.
  cbn -[chars sizeZ]. rewrite E2. cbn -[chars sizeZ].
  change (body _) with (body (mkFC (Local s) (Stack s) ((sizeZ (Stack s), b2, b2) :: ControlStack s)
    (SetInsertPoint b1 (CreateBr b1 x2)))).
  rewrite Eb. reflexivity.
Qed.

(** The start function is not called by the code that is made. *)
Theorem start_section_not_compiled {llvm : LLVM} (m : AModule) (i : Z) :
  compileModule (set_StartSec i m) = compileModule m.
Proof. done. Qed.

(** An imported global gets no place, so the indices of the module name other globals. *)
Theorem imported_globals_not_compiled {llvm : LLVM} d s :
  ImpExtType d = Ext_Global -> compileImport d s = (Ok CSuccess, s).
Proof. unfold compileImport. by intros ->. Qed.

(** Data and element segments are laid out as their offsets say: where a segment ends within
    the bounds of the vector, the vector has the segment at its offset, what it had elsewhere,
    and zeroes where it grew. *)
Theorem segments_placed max_size Offset Data Result :
  max_size < 2 ^ 64 -> 0 <= Offset -> Offset + sizeZ Data <= max_size ->
  exists R, placeAt max_size Offset Data Result = Ok R /\
    sizeZ R = Z.max (sizeZ Result) (Offset + sizeZ Data) /\
    slice Offset (sizeZ Data) R = Data /\
    forall i, (Z.of_nat i < sizeZ R) ->
      Z.of_nat i < Offset \/ Offset + sizeZ Data <= Z.of_nat i ->
      R !! i = Some (default 0 (Result !! i)).
Proof.
  intros Hm Ho He. unfold placeAt. assert (0 <= sizeZ Data) by (unfold sizeZ; lia).
  rewrite wrap_small by (unfold in_u; lia).
  replace (max_size <? Offset + sizeZ Data) with false by (symmetry; apply Z.ltb_ge; lia).
  rewrite andb_false_r. cbn beta zeta.
  set (R0 := if sizeZ Result <? _ then resizeZ _ _ _ else _).
  assert (sizeZ R0 = Z.max (sizeZ Result) (Offset + sizeZ Data) /\
    forall i, Z.of_nat i < sizeZ R0 -> R0 !! i = Some (default 0 (Result !! i))) as [HR Hl].
  { unfold R0. destruct (Z.ltb_spec (sizeZ Result) (Offset + sizeZ Data)).
    - rewrite length_resizeZ by lia. split; [lia|]. intros i Hi. apply lookup_resizeZ; lia.
    - split; [lia|]. intros i Hi. unfold sizeZ in Hi.
      destruct (lookup_lt_is_Some_2 Result i) as [x Hx]; [lia|]. by rewrite Hx. }
  replace (sizeZ R0 <? Offset + sizeZ Data) with false by (symmetry; apply Z.ltb_ge; lia).
  assert (sizeZ (splice Offset Data R0) = sizeZ R0) as Hs
    by (unfold sizeZ at 1 2; rewrite length_splice by lia; done).
  eexists. split_and!; [reflexivity|lia|apply slice_splice; lia|].
  intros i Hi Hout. rewrite lookup_splice_out by lia. apply Hl. lia.
Qed.
