(* ===== verification/Keccak.v ===== *)
(** * The hash of callStatic: thirdparty/keccak/{Keccak,Rotation,Endian}

    The class [Keccak] absorbs bytes in a buffer of one block and applies the permutation
    [keccakf] to its 25 lanes of 64 bits whenever the buffer is full.  The cast of the buffer to lanes reads the host's
    bytes, little endian on x86-64. *)
From stdpp Require Import base list numbers option.
From Stdlib Require Import ZArith Lia.
From S2P Require Import Prelude.
#[local] Open Scope Z_scope.

(** ** Rotation.h *)

(** [(x << n) | (x >> ((-n) & mask))] on 64 bits. *)
Definition rotateLeft (x n : Z) : Z :=
  let n := Z.land n 63 in
  Z.lor (wrap 64 (Z.shiftl x n)) (Z.shiftr x (Z.land (- n) 63)).

(** ** Endian.h *)

(** [static_cast<uint8_t>(0xff00)] is zero. *)
Definition littleEndian : bool := wrap 8 0xff00 =? 0.

(** [b[0] = in >> 8; b[1] = in; out[0] = (b[1] & 0x00FF) << 8; out[1] = b[0] & 0x00FF] *)
Definition swapEndian16 (x : Z) : Z :=
  let b0 := wrap 8 (Z.shiftr x 8) in
  let b1 := wrap 8 x in
  Z.lor (wrap 16 (Z.shiftl (Z.land b1 0x00FF) 8)) (Z.land b0 0x00FF).
Definition swapEndian32 (x : Z) : Z :=
  let b0 := swapEndian16 (wrap 16 (Z.shiftr x 16)) in
  let b1 := swapEndian16 (wrap 16 x) in
  Z.lor (wrap 32 (Z.shiftl (Z.land b1 0x0000FFFF) 16)) (Z.land b0 0x0000FFFF).
Definition swapEndian64 (x : Z) : Z :=
  let b0 := swapEndian32 (wrap 32 (Z.shiftr x 32)) in
  let b1 := swapEndian32 (wrap 32 x) in
  Z.lor (wrap 64 (Z.shiftl (Z.land b1 0x00000000FFFFFFFF) 32)) (Z.land b0 0x00000000FFFFFFFF).

(** [LittleToNative(uint64_t)] *)
Definition LittleToNative (x : Z) : Z := if littleEndian then x else swapEndian64 x.

(** ** Keccak.cpp *)

Definition RC : list Z :=
  [0x0000000000000001; 0x0000000000008082; 0x800000000000808a;
   0x8000000080008000; 0x000000000000808b; 0x0000000080000001;
   0x8000000080008081; 0x8000000000008009; 0x000000000000008a;
   0x0000000000000088; 0x0000000080008009; 0x000000008000000a;
   0x000000008000808b; 0x800000000000008b; 0x8000000000008089;
   0x8000000000008003; 0x8000000000008002; 0x8000000000000080;
   0x000000000000800a; 0x800000008000000a; 0x8000000080008081;
   0x8000000000008080; 0x0000000080000001; 0x8000000080008008].

Definition R : list Z :=
  [0; 1; 62; 28; 27; 36; 44; 6; 55; 20; 3; 10; 43; 25; 39; 41; 45; 15; 21; 8; 18; 2; 61; 56; 14].

(** [index(x)] calls itself with [x + 5] while [x] is negative. *)
Fixpoint index_from (fuel : nat) (x : Z) : Z :=
  match fuel with
  | S f => if x <? 0 then index_from f (x + 5) else Z.rem x 5
  | O => x
  end.
Definition index (x : Z) : Z := index_from (S (Z.to_nat (- x))) x.
Definition index2 (x y : Z) : Z := index x + 5 * index y.

(** Elements of the arrays: every index the code uses is inside them. *)
Definition lane (l : list Z) (i : Z) : Z := default 0 (atZ l i).

Definition xs : list Z := [0; 1; 2; 3; 4].
Definition xys : list (Z * Z) := x ← xs; y ← xs; [(x, y)].

(** The column parities. *)
Definition columns (A : list Z) : list Z :=
  (fun x => Z.lxor (Z.lxor (Z.lxor (Z.lxor (lane A (index2 x 0)) (lane A (index2 x 1)))
              (lane A (index2 x 2))) (lane A (index2 x 3))) (lane A (index2 x 4))) <$> xs.

(** [D[x] = C[index(x - 1)] ^ rotateLeft(C[index(x + 1)], 1); A[index(x, y)] ^= D[x]] *)
Definition mixColumns (A : list Z) : list Z :=
  let C := columns A in
  fold_left (fun A x =>
    let D := Z.lxor (lane C (index (x - 1))) (rotateLeft (lane C (index (x + 1))) 1) in
    fold_left (fun A y => setZ (index2 x y) (Z.lxor (lane A (index2 x y)) D) A) xs A) xs A.

(** [B[index(y, x * 2 + 3 * y)] = rotateLeft(A[i], R[i])] *)
Definition rotateLanes (A : list Z) : list Z :=
  fold_left (fun B xy =>
    let i := index2 xy.1 xy.2 in
    setZ (index2 xy.2 (xy.1 * 2 + 3 * xy.2)) (rotateLeft (lane A i) (lane R i)) B)
    xys (replicate 25 0).

(** [A[i] = B[i] ^ (~B[index(x + 1, y)] & B[index(x + 2, y)])] *)
Definition combineRows (B A : list Z) : list Z :=
  fold_left (fun A xy =>
    let i := index2 xy.1 xy.2 in
    setZ i (Z.lxor (lane B i) (Z.land (Z.lnot (lane B (index2 (xy.1 + 1) xy.2)))
                                 (lane B (index2 (xy.1 + 2) xy.2)))) A) xys A.

Definition keccakRound (A : list Z) (n : Z) : list Z :=
  let A1 := mixColumns A in
  let A2 := combineRows (rotateLanes A1) A1 in
  setZ 0 (Z.lxor (lane A2 0) (lane RC n)) A2.

Definition keccakf (A : list Z) : list Z := fold_left keccakRound (seqZ 0 24) A.

(** ** The class *)

Record Keccak : Type := mkKeccak {
  A : list Z; blockLen : Z; buffer : list Z; bufferLen : Z; hashLength : Z }.

Definition newKeccak (length_ : Z) : Keccak :=
  let blockLen := 200 - 2 * (length_ / 8) in
  mkKeccak (replicate 25 0) blockLen (replicate (Z.to_nat blockLen) 0) 0 length_.

Definition set_A (x : list Z) (k : Keccak) : Keccak :=
  mkKeccak x (blockLen k) (buffer k) (bufferLen k) (hashLength k).
Definition set_buffer (b : list Z) (n : Z) (k : Keccak) : Keccak :=
  mkKeccak (A k) (blockLen k) b n (hashLength k).

Definition reset (k : Keccak) : Keccak := set_buffer (buffer k) 0 (set_A (replicate 25 0) k).

(** [A[i] ^= LittleToNative(...)] with the eight bytes of the buffer from [8 * i] on. *)
Definition xorBlock (n : Z) (block A : list Z) : list Z :=
  fold_left (fun A i => setZ i (Z.lxor (lane A i) (LittleToNative (le_combine (slice (8 * i) 8 block)))) A)
    (seqZ 0 n) A.

Definition processBuffer (k : Keccak) : Keccak :=
  set_buffer (buffer k) 0 (set_A (keccakf (xorBlock (blockLen k / 8) (buffer k) (A k))) k).

(** [addData(uint8_t)] *)
Definition addByte (input : Z) (k : Keccak) : Keccak :=
  let k := set_buffer (setZ (bufferLen k) input (buffer k)) (bufferLen k + 1) k in
  if bufferLen k =? blockLen k then processBuffer k else k.

(** [addData(input, off, len)]; [input] holds the bytes from [off] on.  An iteration copies
    at least one byte. *)
Fixpoint addData (fuel : nat) (input : list Z) (k : Keccak) : res Keccak :=
  if 0 <? sizeZ input then
    match fuel with
    | O => NoFuel
    | S f =>
        let room := blockLen k - bufferLen k in
        let cpLen := if room >? sizeZ input then sizeZ input else room in
        let k := set_buffer (splice (bufferLen k) (take (Z.to_nat cpLen) input) (buffer k))
                   (bufferLen k + cpLen) k in
        addData f (drop (Z.to_nat cpLen) input)
          (if bufferLen k =? blockLen k then processBuffer k else k)
    end
  else Ok k.

Definition addPadding (k : Keccak) : Keccak :=
  if bufferLen k + 1 =? blockLen k then
    set_buffer (setZ (bufferLen k) 0x81 (buffer k)) (bufferLen k) k
  else
    let b := setZ (bufferLen k) 0x01 (buffer k) in
    let b := fold_left (fun b i => setZ i 0 b) (seqZ (bufferLen k + 1) (blockLen k - 1 - (bufferLen k + 1))) b in
    set_buffer (setZ (blockLen k - 1) 0x80 b) (bufferLen k) k.

(** [(b >> (8 * j)) & 0xFF] for [j] below [n]. *)
Definition laneBytes (n : Z) (b : Z) : list Z := (fun j => Z.land (Z.shiftr b (8 * j)) 0xFF) <$> seqZ 0 n.

(** [digest()]: the hash, and the object after it. *)
Definition digest (k : Keccak) : list Z * Keccak :=
  let lengthInBytes := hashLength k / 8 in
  let lengthInQuads := lengthInBytes / 8 in
  let k := processBuffer (addPadding k) in
  let tmp := concat ((fun i => laneBytes 8 (lane (A k) i)) <$> seqZ 0 lengthInQuads) in
  let tmp := if negb (lengthInBytes mod 8 =? 0)
             then tmp ++ laneBytes (lengthInBytes mod 8) (lane (A k) lengthInQuads) else tmp in
  (tmp, reset k).

(** [Keccak K(256); for (auto &I : Data) K.addData(I); ... K.digest()] *)
Definition keccak256 (Data : list Z) : list Z :=
  (digest (fold_left (fun k b => addByte b k) Data (newKeccak 256))).1.

(** The hash of nothing. *)
Example keccak256_empty : keccak256 [] =
  [0xc5; 0xd2; 0x46; 0x01; 0x86; 0xf7; 0x23; 0x3c; 0x92; 0x7e; 0x7d; 0xb2; 0xdc; 0xc7; 0x03; 0xc0;
   0xe5; 0x00; 0xb6; 0x53; 0xca; 0x82; 0x27; 0x3b; 0x7b; 0xfa; 0xd8; 0x04; 0x5d; 0x85; 0xa4; 0x70].
Proof. vm_compute. reflexivity. Qed.
