(* ===== verification/KeccakFacts.v ===== *)
(** * The hash is the Keccak sponge

    The permutation is the composition of the five step mappings of the standard, with the
    rotation offsets and round constants computed as the standard says; the class, whatever
    chunks its input arrives in, computes the sponge over the padded message. *)
From stdpp Require Import base list numbers option.
From Stdlib Require Import ZArith Lia.
From S2P Require Import Prelude Keccak.
#[local] Open Scope Z_scope.

(** ** The step mappings *)

(** A state: the lane at the coordinates [x] and [y], both below 5. *)
Definition coords (A : list Z) (x y : Z) : Z := lane A (x + 5 * y).
Definition lanes_of (s : Z -> Z -> Z) : list Z := (fun i => s (i mod 5) (i / 5)) <$> seqZ 0 25.

Definition parity (s : Z -> Z -> Z) (x : Z) : Z :=
  Z.lxor (Z.lxor (Z.lxor (Z.lxor (s x 0) (s x 1)) (s x 2)) (s x 3)) (s x 4).

(** A lane rotated by [n] places, below 64: the product by [2 ^ n], whose high part comes
    back at the low end. *)
Definition rot64 (x n : Z) : Z := (x * 2 ^ n) mod 2 ^ 64 + x / 2 ^ (64 - n).

Definition theta (s : Z -> Z -> Z) (x y : Z) : Z :=
  Z.lxor (s x y) (Z.lxor (parity s ((x - 1) mod 5)) (rot64 (parity s ((x + 1) mod 5)) 1)).

(** The walk that gives the offsets: the [t]-th place is rotated by [(t + 1) (t + 2) / 2]. *)
Fixpoint walk (n : nat) (t x y : Z) : list (Z * Z * Z) :=
  match n with
  | O => []
  | S n => (x, y, ((t + 1) * (t + 2) / 2) mod 64) :: walk n (t + 1) y ((2 * x + 3 * y) mod 5)
  end.
Definition offset (x y : Z) : Z :=
  match list_find (fun p => p.1 = (x, y)) (walk 24 0 1 0) with Some (_, p) => p.2 | None => 0 end.
Definition rho (s : Z -> Z -> Z) (x y : Z) : Z := rot64 (s x y) (offset x y).
Definition pi (s : Z -> Z -> Z) (x y : Z) : Z := s ((x + 3 * y) mod 5) x.
Definition chi (s : Z -> Z -> Z) (x y : Z) : Z :=
  Z.lxor (s x y) (Z.land (Z.lnot (s ((x + 1) mod 5) y)) (s ((x + 2) mod 5) y)).
Definition iota (c : Z) (s : Z -> Z -> Z) (x y : Z) : Z :=
  if (x =? 0) && (y =? 0) then Z.lxor (s x y) c else s x y.

(** The linear feedback register behind the round constants. *)
Definition lfsr (r : list bool) : list bool :=
  match r with
  | [r0; r1; r2; r3; r4; r5; r6; r7] => [r7; r0; r1; r2; xorb r3 r7; xorb r4 r7; xorb r5 r7; r6]
  | _ => r
  end.
Definition rc_bit (t : Z) : bool :=
  match Nat.iter (Z.to_nat (t mod 255)) lfsr [true; false; false; false; false; false; false; false] with
  | b :: _ => b
  | [] => false
  end.
Definition round_constant (n : Z) : Z :=
  fold_left (fun acc j => if rc_bit (j + 7 * n) then acc + 2 ^ (2 ^ j - 1) else acc) (seqZ 0 7) 0.

Definition spec_round (n : Z) (s : Z -> Z -> Z) : Z -> Z -> Z :=
  iota (round_constant n) (chi (pi (rho (theta s)))).

(** ** The tables *)

Lemma RC_table : RC = round_constant <$> seqZ 0 24.
Proof. vm_compute. reflexivity. Qed.

Lemma R_table : R = lanes_of offset.
Proof. vm_compute. reflexivity. Qed.

(** ** Rotation *)

(** [rotateLeft] moves bit [i - n] to bit [i], around the lane. *)
Lemma rotateLeft_bits x n i : in_u 64 x -> 0 <= n < 64 -> 0 <= i < 64 ->
  Z.testbit (rotateLeft x n) i = Z.testbit x ((i - n) mod 64).
Proof.
  intros [Hx0 Hx] Hn Hi. unfold rotateLeft. change 63 with (Z.ones 6). rewrite !Z.land_ones by lia.
  change (2 ^ 6) with 64. rewrite (Z.mod_small n) by lia.
  rewrite Z.lor_spec. unfold wrap. rewrite Z.mod_pow2_bits_low, Z.shiftl_spec, Z.shiftr_spec by lia.
  assert (forall j, 64 <= j -> Z.testbit x j = false) as Hhigh.
  { intros j Hj. destruct (decide (x = 0)) as [->|Hne]; [apply Z.bits_0|].
    apply Z.bits_above_log2; [done|]. apply Z.lt_le_trans with 64; [|done]. apply Z.log2_lt_pow2; lia. }
  destruct (decide (n = 0)) as [->|Hn0].
  { change (- 0) with 0. rewrite Z.sub_0_r, Z.mod_0_l, Z.add_0_r, orb_diag, Z.mod_small by lia. done. }
  rewrite (Z.mod_opp_l_nz n 64) by (rewrite ?Z.mod_small by lia; lia). rewrite (Z.mod_small n 64) by lia.
  destruct (decide (i < n)) as [Hlt|Hge].
  - rewrite Z.testbit_neg_r by lia. cbn [orb]. f_equal.
    rewrite <- (Z.mod_add (i - n) 1 64) by lia. rewrite Z.mod_small by lia. lia.
  - rewrite (Hhigh (i + (64 - n))), orb_false_r by lia. f_equal. rewrite Z.mod_small by lia. lia.
Qed.

(** The rotation of the code is the rotation of the standard, on lanes of 64 bits. *)
Lemma rotateLeft_rot64 x n : in_u 64 x -> 0 <= n < 64 -> rotateLeft x n = rot64 x n.
Proof.
  intros Hx Hn. unfold rotateLeft, rot64. change 63 with (Z.ones 6). rewrite !Z.land_ones by lia.
  change (2 ^ 6) with 64. rewrite (Z.mod_small n) by lia. rewrite Z.shiftl_mul_pow2 by lia.
  destruct (decide (n = 0)) as [->|Hn0].
  - change (- 0) with 0. rewrite Z.mod_0_l, Z.shiftr_0_r, Z.mul_1_r, Z.sub_0_r, wrap_small by (done || lia).
    unfold in_u in Hx. rewrite Z.lor_diag, Z.mod_small, Z.div_small by lia. lia.
  - rewrite (Z.mod_opp_l_nz n 64), (Z.mod_small n 64), Z.shiftr_div_pow2 by (rewrite ?Z.mod_small by lia; lia).
    apply lor_disjoint with n; [lia|apply wrap_shiftl_mod; lia|apply div_pow_lt; [lia|done]].
Qed.

Lemma rot64_range x n : in_u 64 x -> 0 <= n < 64 -> in_u 64 (rot64 x n).
Proof. intros Hx Hn. apply (rot_range 64 x x n); [lia|done]. Qed.

Lemma rotateLeft_range x n : in_u 64 x -> 0 <= n < 64 -> in_u 64 (rotateLeft x n).
Proof. intros. rewrite rotateLeft_rot64 by done. by apply rot64_range. Qed.

Lemma lxor_range x y : in_u 64 x -> in_u 64 y -> in_u 64 (Z.lxor x y).
Proof. intros. apply bitop_range; auto; lia. Qed.

(** [~x & y] of two lanes. *)
Lemma andnot_range x y : in_u 64 y -> in_u 64 (Z.land (Z.lnot x) y).
Proof.
  intros Hy. replace (Z.land (Z.lnot x) y) with (Z.land (Z.land (Z.lnot x) (Z.ones 64)) y).
  - apply bitop_range; [auto|lia| |done]. rewrite Z.land_ones by lia. by apply wrap_range.
  - unfold in_u in Hy. rewrite <- Z.land_assoc, (Z.land_comm (Z.ones 64)), Z.land_ones, (Z.mod_small y) by lia. done.
Qed.

(** ** The permutation *)

(** A state of 25 lanes of 64 bits. *)
Definition lanes_ok (l : list Z) : Prop := length l = 25%nat /\ Forall (in_u 64) l.
Definition state_ok (s : Z -> Z -> Z) : Prop := forall x y, in_u 64 (s x y).

Lemma coords_ok l : lanes_ok l -> state_ok (coords l).
Proof.
  intros [_ Hl] x y. unfold coords, lane, atZ. destruct (0 <=? x + 5 * y); [|done].
  destruct (l !! Z.to_nat (x + 5 * y)) eqn:E; [|done]. cbn. by eapply Forall_lookup_1 in E.
Qed.

Lemma lanes_of_ok s : state_ok s -> lanes_ok (lanes_of s).
Proof. intros Hs. split; [done|]. apply Forall_fmap, Forall_true. intros i. apply Hs. Qed.

Lemma offset_range x y : 0 <= offset x y < 64.
Proof.
  unfold offset. destruct (list_find _ _) as [[i p]|] eqn:E; [|done].
  apply list_find_Some in E as (Hp & _ & _). apply list_elem_of_lookup_2 in Hp.
  assert (Forall (fun p : Z * Z * Z => 0 <= p.2 < 64) (walk 24 0 1 0)) as Hw
    by (vm_compute; repeat constructor; discriminate).
  rewrite list.Forall_forall in Hw. exact (Hw _ Hp).
Qed.

Lemma round_constant_range n : 0 <= n < 24 -> in_u 64 (round_constant n).
Proof.
  intros Hn. assert (Forall (in_u 64) RC) as H by (by repeat constructor).
  rewrite RC_table, Forall_fmap, list.Forall_forall in H. apply H, elem_of_seqZ. lia.
Qed.

Lemma spec_round_ok n s : 0 <= n < 24 -> state_ok s -> state_ok (spec_round n s).
Proof.
  intros Hn Hs. unfold spec_round. set (c := round_constant n).
  assert (in_u 64 c) as Hc by (by apply round_constant_range).
  assert (forall x, in_u 64 (parity s x)) as Hpar by (intros x; by repeat apply lxor_range).
  assert (state_ok (theta s)) as Hth.
  { intros x y. apply lxor_range, lxor_range; [apply Hs|apply Hpar|]. apply rot64_range; [apply Hpar|lia]. }
  assert (state_ok (rho (theta s))) as Hrho by (intros x y; apply rot64_range; [apply Hth|apply offset_range]).
  assert (state_ok (pi (rho (theta s)))) as Hpi by (intros x y; apply Hrho).
  assert (state_ok (chi (pi (rho (theta s))))) as Hchi
    by (intros x y; apply lxor_range, andnot_range; apply Hpi).
  intros x y. unfold iota. destruct (_ && _); [apply lxor_range|]; auto.
Qed.

Lemma round_shape c l : lanes_ok l ->
  (let A1 := mixColumns l in
   let A2 := combineRows (rotateLanes A1) A1 in setZ 0 (Z.lxor (lane A2 0) c) A2) =
  lanes_of (iota c (chi (pi (rho (theta (coords l)))))).
Proof.
  intros [Hl Hu]. do 25 (destruct l as [|? l]; [discriminate|]). destruct l; [|discriminate]. clear Hl.
  do 25 (apply list.Forall_cons in Hu as [? Hu]). clear Hu.
  cbv -[Z.lxor Z.land Z.lnot rotateLeft rot64 in_u] in *.
  rewrite !rotateLeft_rot64 by (repeat first [assumption | apply lxor_range | apply rotateLeft_range | apply rot64_range | lia]).
  reflexivity.
Qed.

Lemma round_spec l n : lanes_ok l -> 0 <= n < 24 ->
  keccakRound l n = lanes_of (spec_round n (coords l)).
Proof.
  intros Hl Hn. unfold keccakRound, spec_round. rewrite <- (round_shape (round_constant n) l Hl).
  cbv zeta. f_equal. f_equal. unfold lane. rewrite RC_table. unfold atZ.
  rewrite (proj2 (Z.leb_le 0 n)) by lia. rewrite list_lookup_fmap, lookup_seqZ_lt by lia. cbn. f_equal. lia.
Qed.

(** Twenty-four rounds. *)
Definition keccak_p (l : list Z) : list Z :=
  fold_left (fun l n => lanes_of (spec_round n (coords l))) (seqZ 0 24) l.

Lemma fold_agree {S T} (f g : S -> T -> S) (P : S -> Prop) (Q : T -> Prop) :
  (forall s t, P s -> Q t -> f s t = g s t /\ P (f s t)) ->
  forall ts, Forall Q ts -> forall s, P s -> fold_left f ts s = fold_left g ts s /\ P (fold_left f ts s).
Proof.
  intros Hfg. induction 1 as [|t ts Ht _ IH]; intros s Hs; cbn [fold_left]; [done|].
  destruct (Hfg s t Hs Ht) as [<- Hp]. by apply IH.
Qed.

Lemma round_agree l n : lanes_ok l -> 0 <= n < 24 ->
  keccakRound l n = lanes_of (spec_round n (coords l)) /\ lanes_ok (keccakRound l n).
Proof.
  intros Hl Hn. pose proof (round_spec l n Hl Hn) as E. split; [exact E|]. rewrite E.
  by apply lanes_of_ok, spec_round_ok, coords_ok.
Qed.

Lemma rounds_range : Forall (fun n => 0 <= n < 24) (seqZ 0 24).
Proof. apply list.Forall_forall. intros n Hn%elem_of_seqZ. lia. Qed.

Lemma keccakf_spec l : lanes_ok l -> keccakf l = keccak_p l /\ lanes_ok (keccakf l).
Proof.
  intros Hl. unfold keccakf, keccak_p.
  exact (fold_agree _ _ lanes_ok _ round_agree _ rounds_range l Hl).
Qed.

(** ** The sponge *)

Section Sponge.
(** The length [d] of the hash in bytes; a block is what the capacity leaves of 200.  Up to
    64 bytes, the hash fits one block and is squeezed at once. *)
Context (d : Z) (Hd : 0 < d <= 64) (Hd4 : d mod 4 = 0).

Definition rate : Z := 200 - 2 * d.

(** A 1 bit, zeros, and a 1 bit at the end of the block, in the order of the bits. *)
Definition pad (n : Z) : list Z :=
  let zeros := rate - 1 - n mod rate in
  if zeros =? 0 then [0x81] else 0x01 :: replicate (Z.to_nat (zeros - 1)) 0 ++ [0x80].

Definition absorb_block (l block : list Z) : list Z :=
  keccak_p (imap (fun i a => if Z.of_nat i <? rate / 8
                             then Z.lxor a (le_combine (slice (8 * Z.of_nat i) 8 block)) else a) l).

Fixpoint absorb (n : nat) (l m : list Z) : list Z :=
  match n with
  | O => l
  | S n => absorb n (absorb_block l (take (Z.to_nat rate) m)) (drop (Z.to_nat rate) m)
  end.

Definition zero_state : list Z := replicate 25 0.
Definition sponge (m : list Z) : list Z :=
  let p := m ++ pad (sizeZ m) in
  take (Z.to_nat d) (concat (le_split 8 <$> absorb (length p / Z.to_nat rate) zero_state p)).

Lemma rate_bounds : 72 <= rate <= 198 /\ rate mod 8 = 0.
Proof using Hd Hd4.
  unfold rate. pose proof (Z.div_mod d 4 ltac:(lia)) as E. rewrite Hd4 in E. split; [lia|].
  replace (200 - 2 * d) with ((25 - d / 4) * 8) by lia. by apply Z.mod_mul.
Qed.

(** The loop over the lanes. *)
Lemma xorBlock_lookup (n : nat) block l i :
  xorBlock (Z.of_nat n) block l !! i =
  (fun a => if Z.of_nat i <? Z.of_nat n
            then Z.lxor a (le_combine (slice (8 * Z.of_nat i) 8 block)) else a) <$> l !! i.
Proof using Type.
  unfold xorBlock, LittleToNative. change littleEndian with true. cbv iota. induction n as [|n IH].
  { change (Z.of_nat 0) with 0. destruct (Z.ltb_spec (Z.of_nat i) 0); [lia|].
    rewrite seqZ_nil by lia. cbn [fold_left]. by destruct (l !! i). }
  rewrite seqZ_S, fold_left_app, Z.add_0_l. cbn [fold_left].
  set (l' := fold_left _ _ _) in *. unfold setZ, lane, atZ.
  replace (Z.of_nat (S n)) with (Z.of_nat n + 1) by lia.
  rewrite (proj2 (Z.leb_le 0 _)), Nat2Z.id by lia.
  destruct (decide (i = n)) as [->|Hne].
  - rewrite (proj2 (Z.ltb_lt (Z.of_nat n) (Z.of_nat n + 1))) by lia.
    rewrite (proj2 (Z.ltb_ge (Z.of_nat n) (Z.of_nat n))) in IH by lia.
    destruct (l !! n) as [a|] eqn:E; cbn in IH |- *.
    + rewrite IH. cbn. apply list_lookup_insert_eq. by apply lookup_lt_Some in IH.
    + rewrite IH. cbn. rewrite list_insert_ge; [done|]. by apply lookup_ge_None.
  - rewrite list_lookup_insert_ne by done. rewrite IH.
    destruct (Z.ltb_spec (Z.of_nat i) (Z.of_nat n)), (Z.ltb_spec (Z.of_nat i) (Z.of_nat n + 1)); try lia; done.
Qed.

(** A lane with eight bytes of a block added. *)
Lemma xor_bytes_range a off block : in_u 64 a -> Forall is_byte block ->
  in_u 64 (Z.lxor a (le_combine (slice off 8 block))).
Proof using Type.
  intros Ha Hb. apply lxor_range; [done|].
  pose proof (le_combine_range (slice off 8 block) (Forall_slice _ _ _ _ Hb)) as [H0 H1].
  split; [done|]. apply Z.lt_le_trans with (1 := H1), Z.pow_le_mono_r; [lia|].
  unfold sizeZ, slice. rewrite length_take. lia.
Qed.

Lemma process_block block l : lanes_ok l -> Forall is_byte block ->
  keccakf (xorBlock (rate / 8) block l) = absorb_block l block /\ lanes_ok (absorb_block l block).
Proof using Hd Hd4.
  intros [Hl Hu] Hb. pose proof rate_bounds as [Hr _]. unfold absorb_block.
  assert (0 <= rate / 8) by (apply Z.div_pos; lia).
  replace (xorBlock (rate / 8) block l) with (imap (fun i a => if Z.of_nat i <? rate / 8
    then Z.lxor a (le_combine (slice (8 * Z.of_nat i) 8 block)) else a) l).
  - set (l' := imap _ l). assert (lanes_ok l') as Hl'.
    { split; [unfold l'; by rewrite length_imap|]. apply Forall_lookup_2. intros i x Hx.
      unfold l' in Hx. rewrite list_lookup_imap in Hx. destruct (l !! i) as [a|] eqn:Ea; [|done].
      cbn in Hx. simplify_eq. eapply Forall_lookup_1 in Ea; [|done].
      destruct (_ <? _); [by apply xor_bytes_range|done]. }
    destruct (keccakf_spec l' Hl') as [<- Hlen]. done.
  - apply list_eq. intros i. rewrite list_lookup_imap.
    pose proof (xorBlock_lookup (Z.to_nat (rate / 8)) block l i) as E. rewrite Z2Nat.id in E by done.
    symmetry. exact E.
Qed.

Lemma absorb_snoc n l m block : length m = (n * Z.to_nat rate)%nat -> length block = Z.to_nat rate ->
  absorb (S n) l (m ++ block) = absorb_block (absorb n l m) block.
Proof using Type.
  revert l m; induction n as [|n IH]; intros l m Hm Hb.
  - assert (m = []) as -> by (destruct m; done). cbn [app absorb]. by rewrite take_ge by lia.
  - change (absorb (S (S n)) l (m ++ block)) with
      (absorb (S n) (absorb_block l (take (Z.to_nat rate) (m ++ block))) (drop (Z.to_nat rate) (m ++ block))).
    rewrite take_app_le, drop_app_le by lia. rewrite IH; [done| |done]. rewrite length_drop. lia.
Qed.

(** What the object holds after the bytes [full ++ rest]: [n] whole blocks were absorbed,
    and the rest is in the buffer. *)
Record holds (n : nat) (full rest : list Z) (k : Keccak) : Prop := mk_holds {
  h_block : blockLen k = rate;
  h_hash : hashLength k = 8 * d;
  h_buffer : length (buffer k) = Z.to_nat rate;
  h_full : length full = (n * Z.to_nat rate)%nat;
  h_rest : bufferLen k = sizeZ rest;
  h_room : sizeZ rest < rate;
  h_held : take (length rest) (buffer k) = rest;
  h_lanes : A k = absorb n zero_state full;
  h_ok : lanes_ok (A k);
  h_bytes : Forall is_byte (buffer k) }.

(** The buffer is full: the block is absorbed. *)
Lemma process_holds n full block k : blockLen k = rate -> hashLength k = 8 * d ->
  length (buffer k) = Z.to_nat rate -> length full = (n * Z.to_nat rate)%nat -> buffer k = block ->
  A k = absorb n zero_state full -> lanes_ok (A k) -> Forall is_byte block ->
  holds (S n) (full ++ block) [] (processBuffer k).
Proof using Hd Hd4.
  intros H1 H2 H3 H4 H5 H6 H7 H8. pose proof rate_bounds as [Hr _].
  destruct (process_block block (A k) H7 H8) as [E1 E2]. subst block.
  split; cbn [processBuffer set_buffer set_A blockLen hashLength buffer bufferLen A]; try done.
  - rewrite length_app, H3, H4. lia.
  - unfold sizeZ. cbn. lia.
  - rewrite H1, E1, absorb_snoc by done. by rewrite H6.
  - by rewrite H1, E1.
Qed.

(** Bytes that fit in the buffer. *)
Lemma chunk_holds n full rest k part : holds n full rest k -> Forall is_byte part ->
  sizeZ rest + sizeZ part <= rate ->
  let k1 := set_buffer (splice (sizeZ rest) part (buffer k)) (sizeZ rest + sizeZ part) k in
  exists n' full' rest', holds n' full' rest' (if bufferLen k1 =? blockLen k1 then processBuffer k1 else k1) /\
    full' ++ rest' = full ++ rest ++ part.
Proof using Hd Hd4.
  intros [H1 H2 H3 H4 H5 H6 H7 H8 H9 H10] Hpart Hc. pose proof rate_bounds as [Hr _].
  set (b := splice (sizeZ rest) part (buffer k)).
  assert (take (length (rest ++ part)) b = rest ++ part /\ length b = Z.to_nat rate) as [Hb1 Hb2].
  { unfold b, splice, sizeZ in *. rewrite Nat2Z.id, H7. split.
    - rewrite app_assoc. by rewrite take_app_length.
    - rewrite !length_app, length_drop. lia. }
  assert (Forall is_byte b) as Hb3 by (by apply Forall_splice).
  assert (Forall is_byte (rest ++ part)) as Hrp by (rewrite <- Hb1; by apply Forall_take).
  cbn [bufferLen blockLen set_buffer]. rewrite H1.
  destruct (Z.eqb_spec (sizeZ rest + sizeZ part) rate) as [He|He].
  - exists (S n), (full ++ rest ++ part), []. split; [|by rewrite app_nil_r].
    apply process_holds; try done. cbn [buffer set_buffer]. rewrite <- Hb1, take_ge; [done|].
    rewrite Hb2, length_app. unfold sizeZ in *. lia.
  - exists n, full, (rest ++ part). split; [|done].
    split; cbn [blockLen hashLength buffer bufferLen A set_buffer]; try done;
      unfold sizeZ in *; rewrite length_app; lia.
Qed.

(** A byte. *)
Lemma addByte_holds n full rest k x : holds n full rest k -> is_byte x ->
  exists n' full' rest', holds n' full' rest' (addByte x k) /\ full' ++ rest' = full ++ rest ++ [x].
Proof using Hd Hd4.
  intros H Hx. pose proof H as [H1 H2 H3 H4 H5 H6 H7 H8 H9 H10]. pose proof rate_bounds as [Hr _].
  unfold addByte. rewrite H5.
  replace (setZ (sizeZ rest) x (buffer k)) with (splice (sizeZ rest) [x] (buffer k)).
  - change 1 with (sizeZ [x]). apply (chunk_holds n full rest k [x] H); [by apply list.Forall_singleton|]. change (sizeZ [x]) with 1. lia.
  - unfold setZ, splice, sizeZ in *. rewrite insert_take_drop by lia. cbn [length]. by rewrite Nat.add_1_r.
Qed.

Lemma add_holds m n full rest k : Forall is_byte m -> holds n full rest k ->
  exists n' full' rest', holds n' full' rest' (fold_left (fun k b => addByte b k) m k) /\
    full' ++ rest' = full ++ rest ++ m.
Proof using Hd Hd4.
  intros Hm. revert n full rest k; induction Hm as [|x m Hx _ IH]; intros n full rest k Hk.
  { exists n, full, rest. by rewrite app_nil_r. }
  destruct (addByte_holds n full rest k x Hk Hx) as (n1 & f1 & r1 & H1 & E1). cbn [fold_left].
  destruct (IH n1 f1 r1 _ H1) as (n2 & f2 & r2 & H2 & E2). exists n2, f2, r2. split; [done|].
  rewrite E2, app_assoc, E1, <- !app_assoc. done.
Qed.

(** *** Padding and squeezing *)

Lemma zero_ok : lanes_ok zero_state.
Proof using Type. split; [done|]. by apply Forall_replicate. Qed.

Lemma new_holds : holds 0 [] [] (newKeccak (8 * d)).
Proof using Hd Hd4.
  pose proof rate_bounds as [Hr _].
  split; cbn [newKeccak blockLen hashLength buffer bufferLen A]; try done.
  - unfold rate. rewrite (Z.mul_comm 8), Z.div_mul by lia. done.
  - rewrite length_replicate. unfold rate. rewrite (Z.mul_comm 8), Z.div_mul by lia. done.
  - unfold sizeZ. cbn. lia.
  - exact zero_ok.
  - by apply Forall_replicate.
Qed.

(** After [reset] the object is as new, whatever its buffer holds. *)
Lemma reset_holds n full rest k : holds n full rest k -> holds 0 [] [] (reset k).
Proof using Hd Hd4.
  intros [H1 H2 H3 H4 H5 H6 H7 H8 H9 H10]. pose proof rate_bounds as [Hr _].
  split; cbn [reset set_buffer set_A blockLen hashLength buffer bufferLen A]; try done.
  - unfold sizeZ. cbn. lia.
  - exact zero_ok.
Qed.

(** The loop that clears the buffer from [i] on. *)
Lemma clear_range (n : nat) (i : nat) (b pre suf : list Z) :
  length pre = i -> b = pre ++ suf -> (n <= length suf)%nat ->
  fold_left (fun b i => setZ i 0 b) (seqZ (Z.of_nat i) (Z.of_nat n)) b = pre ++ replicate n 0 ++ drop n suf.
Proof using Type.
  revert i b pre suf; induction n as [|n IH]; intros i b pre suf Hi -> Hn.
  { by rewrite seqZ_nil by lia. }
  rewrite seqZ_cons by lia. cbn [fold_left]. destruct suf as [|x suf]; [cbn in Hn; lia|].
  replace (Z.succ (Z.of_nat i)) with (Z.of_nat (S i)) by lia.
  replace (Z.pred (Z.of_nat (S n))) with (Z.of_nat n) by lia.
  rewrite (IH (S i) _ (pre ++ [0]) suf); [by rewrite <- app_assoc| | |cbn in Hn; lia].
  - rewrite length_app. cbn. lia.
  - unfold setZ. rewrite Nat2Z.id, <- app_assoc. subst i.
    by rewrite <- (Nat.add_0_r (length pre)), insert_app_r.
Qed.

(** The buffer after the bytes that it holds. *)
Lemma buffer_end (rest b : list Z) (r : Z) :
  take (length rest) b = rest -> length b = Z.to_nat r -> 0 <= r -> sizeZ rest < r ->
  exists suf, (forall y, setZ (sizeZ rest) y b = rest ++ y :: suf) /\
    Z.of_nat (length suf) = r - 1 - sizeZ rest.
Proof using Type.
  intros Ht Hb Hr Hlt. pose proof (take_drop (length rest) b) as E. rewrite Ht in E.
  pose proof (length_drop b (length rest)) as El.
  destruct (drop (length rest) b) as [|x suf] eqn:Ed; unfold sizeZ in *; cbn in El; [lia|].
  exists suf. split; [|lia]. intros y. rewrite <- E. unfold setZ. rewrite Nat2Z.id.
  by rewrite <- (Nat.add_0_r (length rest)), insert_app_r.
Qed.

Lemma pad_bytes n : Forall is_byte (pad n).
Proof using Type.
  unfold pad. destruct (_ =? _); [by repeat constructor|].
  constructor; [done|]. apply Forall_app. split; [by apply Forall_replicate|by repeat constructor].
Qed.

(** The padded block. *)
Lemma padded_block n full rest k : holds n full rest k ->
  buffer (addPadding k) = rest ++ pad (sizeZ (full ++ rest)) /\
  length (rest ++ pad (sizeZ (full ++ rest))) = Z.to_nat rate.
Proof using Hd Hd4.
  intros [H1 H2 H3 H4 H5 H6 H7 H8 H9 H10]. pose proof rate_bounds as [Hr _].
  assert (sizeZ (full ++ rest) mod rate = sizeZ rest) as Em.
  { unfold sizeZ in *. rewrite length_app, H4.
    replace (Z.of_nat (n * Z.to_nat rate + length rest)) with (Z.of_nat (length rest) + Z.of_nat n * rate) by lia.
    rewrite Z.mod_add, Z.mod_small by lia. done. }
  destruct (buffer_end rest (buffer k) rate) as (suf & Ew & Es); [done|done|lia..|].
  unfold addPadding, pad. rewrite H1, H5, Em.
  destruct (Z.eqb_spec (sizeZ rest + 1) rate) as [He|He].
  - rewrite (proj2 (Z.eqb_eq (rate - 1 - sizeZ rest) 0)) by lia.
    cbn [buffer set_buffer]. rewrite Ew. assert (suf = []) as -> by (destruct suf; [done|cbn in Es; lia]).
    split; [done|]. rewrite length_app. unfold sizeZ in *. cbn. lia.
  - rewrite (proj2 (Z.eqb_neq (rate - 1 - sizeZ rest) 0)) by lia.
    cbn [buffer set_buffer]. rewrite Ew.
    set (z := Z.to_nat (rate - 1 - sizeZ rest - 1)).
    assert (length suf = S z) as Ez by (unfold z, sizeZ in *; lia).
    replace (sizeZ rest + 1) with (Z.of_nat (length (rest ++ [0x01]))) by (rewrite length_app; unfold sizeZ; cbn; lia).
    replace (rate - 1 - Z.of_nat (length (rest ++ [0x01]))) with (Z.of_nat z)
      by (rewrite length_app; unfold z, sizeZ in *; cbn; lia).
    rewrite (clear_range z _ _ (rest ++ [0x01]) suf) by (rewrite <- ?app_assoc; try done; lia).
    assert (exists y, drop z suf = [y]) as [y ->].
    { pose proof (length_drop suf z) as El. destruct (drop z suf) as [|y [|]]; cbn in El; try lia. by exists y. }
    split.
    + unfold setZ. rewrite app_assoc.
      replace (Z.to_nat (rate - 1)) with (length ((rest ++ [0x01%Z]) ++ replicate z 0%Z) + 0)%nat
        by (rewrite !length_app, length_replicate; unfold z, sizeZ in *; cbn; lia).
      rewrite insert_app_r. cbn. by rewrite <- !app_assoc.
    + rewrite !length_app, length_cons, length_app, length_replicate. unfold z, sizeZ in *. cbn. lia.
Qed.

Lemma laneBytes_split (n : nat) b : laneBytes (Z.of_nat n) b = le_split n b.
Proof using Type.
  revert b; induction n as [|n IH]; intros b; [done|]. cbn [le_split]. rewrite <- IH. unfold laneBytes.
  rewrite seqZ_cons by lia. replace (Z.pred (Z.of_nat (S n))) with (Z.of_nat n) by lia.
  change (Z.succ 0) with (1 + 0). rewrite <- fmap_add_seqZ. cbn [fmap list_fmap]. f_equal.
  - rewrite Z.shiftr_0_r. change 0xFF with (Z.ones 8). by rewrite Z.land_ones by lia.
  - rewrite <- list_fmap_compose. apply list_fmap_ext. intros i j Hj. cbn. f_equal.
    apply lookup_seqZ in Hj as [-> Hj]. change 256 with (2 ^ 8). rewrite <- Z.shiftr_div_pow2 by lia.
    rewrite Z.shiftr_shiftr by lia. f_equal. lia.
Qed.

Lemma take_le_split (n m : nat) b : (n <= m)%nat -> take n (le_split m b) = le_split n b.
Proof using Type.
  revert m b; induction n as [|n IH]; intros [|m] b Hle; try done; [lia|].
  cbn. f_equal. apply IH. lia.
Qed.

Lemma length_concat_split (l : list Z) : length (concat (le_split 8 <$> l)) = (length l * 8)%nat.
Proof using Type. induction l as [|a l IH]; [done|]. rewrite fmap_cons. cbn [concat]. rewrite length_app, IH, length_le_split. cbn. lia. Qed.

Lemma lanes_prefix (l : list Z) (q : nat) : (q <= length l)%nat -> lane l <$> seqZ 0 (Z.of_nat q) = take q l.
Proof using Type.
  intros Hq. apply list_eq. intros i. rewrite list_lookup_fmap. destruct (decide (i < q)%nat) as [Hi|Hi].
  - rewrite (proj2 (lookup_seqZ 0 (Z.of_nat q) i (Z.of_nat i))) by lia. rewrite lookup_take_lt by done. cbn.
    destruct (lookup_lt_is_Some_2 l i ltac:(lia)) as [a Ea]. rewrite Ea. unfold lane, atZ.
    rewrite (proj2 (Z.leb_le 0 _)), Nat2Z.id, Ea by lia. done.
  - rewrite lookup_take_ge by lia. rewrite (proj2 (lookup_ge_None _ _)); [done|].
    rewrite length_seqZ. lia.
Qed.

(** The bytes that [digest] reads from the lanes are the first [d] of the state. *)
Lemma squeeze l : length l = 25%nat ->
  (let tmp := concat ((fun i => laneBytes 8 (lane l i)) <$> seqZ 0 (d / 8)) in
   if negb (d mod 8 =? 0) then tmp ++ laneBytes (d mod 8) (lane l (d / 8)) else tmp) =
  take (Z.to_nat d) (concat (le_split 8 <$> l)).
Proof using Hd.
  intros Hl. pose proof (Z.div_mod d 8 ltac:(lia)) as Ed. pose proof (Z.mod_pos_bound d 8 ltac:(lia)) as Hr.
  set (q := Z.to_nat (d / 8)). set (r := Z.to_nat (d mod 8)).
  assert (d / 8 = Z.of_nat q) as Eq by (unfold q; lia). assert (d mod 8 = Z.of_nat r) as Er by (unfold r; lia).
  assert (q < 25)%nat as Hq by lia. rewrite Eq, Er.
  replace ((fun i => laneBytes 8 (lane l i)) <$> seqZ 0 (Z.of_nat q)) with (le_split 8 <$> take q l).
  2:{ rewrite <- (lanes_prefix l q) by lia. rewrite <- list_fmap_compose. apply list_fmap_ext.
      intros i j _. cbn [compose]. by rewrite <- laneBytes_split. }
  destruct (lookup_lt_is_Some_2 l q ltac:(lia)) as [a Ea].
  assert (concat (le_split 8 <$> l) =
    concat (le_split 8 <$> take q l) ++ le_split 8 a ++ concat (le_split 8 <$> drop (S q) l)) as ->.
  { rewrite <- (take_drop_middle l q a Ea) at 1. by rewrite fmap_app, fmap_cons, concat_app. }
  pose proof (length_concat_split (take q l)) as Hc. rewrite length_take, Nat.min_l in Hc by lia.
  replace (Z.to_nat d) with (length (concat (le_split 8 <$> take q l)) + r)%nat by lia.
  rewrite take_app_add. rewrite take_app_le by (rewrite length_le_split; lia).
  rewrite take_le_split by lia. unfold lane, atZ. rewrite (proj2 (Z.leb_le 0 _)), Nat2Z.id, Ea by lia. cbn.
  destruct (Z.eqb_spec (Z.of_nat r) 0) as [E0|E0]; cbn [negb].
  - assert (r = 0)%nat as -> by lia. by rewrite app_nil_r.
  - by rewrite laneBytes_split.
Qed.

(** The object between two messages; the constructor gives one. *)
Definition fresh (k : Keccak) : Prop := holds 0 [] [] k.

Lemma digest_holds n full rest k : holds n full rest k ->
  exists k', digest k = (sponge (full ++ rest), k') /\ fresh k'.
Proof using Hd Hd4.
  intros H. pose proof rate_bounds as [Hr _]. destruct (padded_block n full rest k H) as [Eb El].
  destruct H as [H1 H2 H3 H4 H5 H6 H7 H8 H9 H10].
  assert (Forall is_byte rest) as Hrest by (rewrite <- H7; by apply Forall_take).
  assert (blockLen (addPadding k) = rate /\ hashLength (addPadding k) = 8 * d /\ A (addPadding k) = A k)
    as (P1 & P2 & P3) by (unfold addPadding; destruct (_ =? _); done).
  assert (holds (S n) (full ++ rest ++ pad (sizeZ (full ++ rest))) [] (processBuffer (addPadding k))) as Hp.
  { apply process_holds; rewrite ?Eb, ?P3; try done. apply Forall_app. split; [done|apply pad_bytes]. }
  exists (reset (processBuffer (addPadding k))). split; [|exact (reset_holds _ _ _ _ Hp)].
  unfold digest. rewrite H2, (Z.mul_comm 8), Z.div_mul by lia. f_equal.
  etransitivity; [exact (squeeze _ (proj1 (h_ok _ _ _ _ Hp)))|]. rewrite (h_lanes _ _ _ _ Hp). unfold sponge. f_equal. f_equal. f_equal.
  rewrite <- app_assoc. f_equal. rewrite length_app, El, H4.
  replace (n * Z.to_nat rate + Z.to_nat rate)%nat with (S n * Z.to_nat rate)%nat by lia.
  by rewrite Nat.div_mul by lia.
Qed.

(** Several bytes at once: as many iterations as there are bytes are enough. *)
Lemma addData_holds fuel input n full rest k : holds n full rest k -> Forall is_byte input ->
  (length input <= fuel)%nat ->
  exists n' full' rest' k', addData fuel input k = Ok k' /\ holds n' full' rest' k' /\
    full' ++ rest' = full ++ rest ++ input.
Proof using Hd Hd4.
  revert input n full rest k; induction fuel as [|fuel IH]; intros input n full rest k H Hin Hf;
    cbn [addData]; (destruct (Z.ltb_spec 0 (sizeZ input)) as [Hi|Hi];
      [|exists n, full, rest, k; destruct input; [by rewrite app_nil_r|unfold sizeZ in Hi; cbn in Hi; lia]]).
  { unfold sizeZ in Hi. lia. }
  pose proof rate_bounds as [Hr _]. pose proof H as [H1 H2 H3 H4 H5 H6 H7 H8 H9 H10].
  rewrite H1, H5. set (c := if _ >? _ then _ else _).
  assert (c = Z.min (sizeZ input) (rate - sizeZ rest)) as Ec.
  { unfold c. destruct (Z.gtb_spec (rate - sizeZ rest) (sizeZ input)); lia. }
  set (part := take (Z.to_nat c) input).
  assert (sizeZ part = c) as Ep by (unfold part, sizeZ in *; rewrite length_take; lia).
  destruct (chunk_holds n full rest k part H) as (n1 & f1 & r1 & Hn & En); [by apply Forall_take|lia|]. rewrite Ep in Hn.
  destruct (IH (drop (Z.to_nat c) input) n1 f1 r1 _ Hn) as (n2 & f2 & r2 & k2 & E2 & G2 & J2).
  { by apply Forall_drop. }
  { rewrite length_drop. unfold sizeZ in *. lia. }
  exists n2, f2, r2, k2. split; [exact E2|]. split; [done|].
  rewrite J2, app_assoc, En, <- !app_assoc. unfold part. by rewrite take_drop.
Qed.

End Sponge.

(** ** The class *)

(** [C34] Keccak: for a hash of [d] bytes, [d] at most 64 and a multiple of 4 (224, 256, 384 and
    512 bits among them), an object that holds nothing, as the constructor and [digest] leave
    it, given the bytes [m1] one at a time and the bytes [m2] in one call, gives the sponge of
    [m1 ++ m2] over the permutation of the standard, whose step mappings, rotations of lanes
    included, are written out from the standard, and holds nothing again; the loop of the
    bulk [addData] ends within as many iterations as there are bytes. *)
Theorem keccak_sponge d m1 m2 k : 0 < d <= 64 -> d mod 4 = 0 ->
  fresh d (newKeccak (8 * d)) /\
  (fresh d k -> Forall is_byte m1 -> Forall is_byte m2 -> exists k1 k2,
    addData (length m2) m2 (fold_left (fun k b => addByte b k) m1 k) = Ok k1 /\
    digest k1 = (sponge d (m1 ++ m2), k2) /\ fresh d k2).
Proof.
  intros Hd Hd4. split; [by apply new_holds|]. intros Hk Hm1 Hm2.
  destruct (add_holds d Hd Hd4 m1 0 [] [] k Hm1 Hk) as (n1 & f1 & r1 & H1 & E1).
  destruct (addData_holds d Hd Hd4 (length m2) m2 n1 f1 r1 _ H1 Hm2 (le_n _)) as (n2 & f2 & r2 & k1 & E & H2 & E2).
  destruct (digest_holds d Hd Hd4 n2 f2 r2 k1 H2) as (k2 & Ed & H3). exists k1, k2.
  split; [exact E|]. split; [|done]. rewrite Ed, E2. cbn in E1. by rewrite app_assoc, E1.
Qed.

Lemma keccak_sponge_witness : exists k1 k2,
  addData 2 [3; 4] (fold_left (fun k b => addByte b k) [1; 2] (newKeccak (8 * 32))) = Ok k1 /\
  digest k1 = (sponge 32 [1; 2; 3; 4], k2) /\ fresh 32 k2.
Proof.
  apply (keccak_sponge 32 [1; 2] [3; 4] (newKeccak (8 * 32))); [lia|done| |by repeat constructor..].
  apply (keccak_sponge 32 [] [] (newKeccak (8 * 32))); [lia|done].
Defined.

(** What callStatic computes. *)
Lemma keccak256_sponge m : Forall is_byte m -> keccak256 m = sponge 32 m.
Proof.
  assert (0 < 32 <= 64) as Hd by lia. assert (32 mod 4 = 0) as Hd4 by done. intros Hm.
  destruct (add_holds 32 Hd Hd4 m 0 [] [] _ Hm (new_holds 32 Hd Hd4)) as (n & f & r & H & E).
  destruct (digest_holds 32 Hd Hd4 n f r _ H) as (k' & Ed & _). unfold keccak256.
  change (newKeccak 256) with (newKeccak (8 * 32)). rewrite Ed, E. done.
Qed.

(** ** Byte order *)

Lemma swap_halves n hi lo : 0 <= n -> 0 <= hi < 2 ^ n -> 0 <= lo < 2 ^ n ->
  Z.lor (wrap (n + n) (Z.shiftl (Z.land lo (Z.ones n)) n)) (Z.land hi (Z.ones n)) = hi + 2 ^ n * lo.
Proof.
  intros Hn Hh Hl. rewrite !Z.land_ones, !(Z.mod_small _ (2 ^ n)) by lia. unfold wrap.
  rewrite Z.mod_small by (rewrite Z.shiftl_mul_pow2, Z.pow_add_r by lia; nia).
  rewrite Z.lor_comm, lor_shiftl_add by lia. lia.
Qed.

Lemma swap16_bytes b0 b1 : is_byte b0 -> is_byte b1 -> swapEndian16 (b0 + 256 * b1) = b1 + 256 * b0.
Proof.
  unfold is_byte. intros H0 H1. unfold swapEndian16. rewrite Z.shiftr_div_pow2 by lia.
  replace (wrap 8 ((b0 + 256 * b1) / 2 ^ 8)) with b1 by (unfold wrap; Z.to_euclidean_division_equations; lia).
  replace (wrap 8 (b0 + 256 * b1)) with b0 by (unfold wrap; Z.to_euclidean_division_equations; lia).
  change 0x00FF with (Z.ones 8). change 16 with (8 + 8). rewrite swap_halves; lia.
Qed.

Lemma swap32_halves a b : 0 <= a < 65536 -> 0 <= b < 65536 ->
  0 <= swapEndian16 a < 65536 -> 0 <= swapEndian16 b < 65536 ->
  swapEndian32 (a + 65536 * b) = swapEndian16 b + 65536 * swapEndian16 a.
Proof.
  intros Ha Hb Ha' Hb'. unfold swapEndian32. rewrite Z.shiftr_div_pow2 by lia.
  replace (wrap 16 ((a + 65536 * b) / 2 ^ 16)) with b by (unfold wrap; Z.to_euclidean_division_equations; lia).
  replace (wrap 16 (a + 65536 * b)) with a by (unfold wrap; Z.to_euclidean_division_equations; lia).
  change 0x0000FFFF with (Z.ones 16). change 32 with (16 + 16). rewrite swap_halves; lia.
Qed.

Lemma swap64_halves a b : 0 <= a < 2 ^ 32 -> 0 <= b < 2 ^ 32 ->
  0 <= swapEndian32 a < 2 ^ 32 -> 0 <= swapEndian32 b < 2 ^ 32 ->
  swapEndian64 (a + 2 ^ 32 * b) = swapEndian32 b + 2 ^ 32 * swapEndian32 a.
Proof.
  intros Ha Hb Ha' Hb'. unfold swapEndian64. rewrite Z.shiftr_div_pow2 by lia.
  replace (wrap 32 ((a + 2 ^ 32 * b) / 2 ^ 32)) with b by (unfold wrap; Z.to_euclidean_division_equations; lia).
  replace (wrap 32 (a + 2 ^ 32 * b)) with a by (unfold wrap; Z.to_euclidean_division_equations; lia).
  change 0x00000000FFFFFFFF with (Z.ones 32). change 64 with (32 + 32). rewrite swap_halves; lia.
Qed.

(** The byte swap of Endian.h reverses the eight bytes of a lane. *)
Lemma swapEndian_reverses bs : length bs = 8%nat -> Forall is_byte bs ->
  swapEndian64 (le_combine bs) = le_combine (rev bs).
Proof.
  intros Hl Hb. do 8 (destruct bs as [|? bs]; [done|]). destruct bs; [|done].
  repeat match goal with H : Forall is_byte (_ :: _) |- _ => inversion H; clear H; subst end.
  unfold is_byte in *. cbn [rev app le_combine].
  assert (forall a b c e, 0 <= a < 256 -> 0 <= b < 256 -> 0 <= c < 256 -> 0 <= e < 256 ->
    swapEndian32 (a + 256 * b + 65536 * (c + 256 * e)) = e + 256 * c + 65536 * (b + 256 * a)) as H32.
  { intros a b c e ????. pose proof (swap16_bytes a b ltac:(done) ltac:(done)) as E1.
    pose proof (swap16_bytes c e ltac:(done) ltac:(done)) as E2.
    rewrite swap32_halves by lia. lia. }
  match goal with |- swapEndian64 (?a + 256 * (?b + 256 * (?c + 256 * (?e + 256 *
      (?f + 256 * (?g + 256 * (?h + 256 * (?i + 256 * 0)))))))) = _ =>
    pose proof (H32 a b c e ltac:(lia) ltac:(lia) ltac:(lia) ltac:(lia)) as E1;
    pose proof (H32 f g h i ltac:(lia) ltac:(lia) ltac:(lia) ltac:(lia)) as E2;
    replace (a + _) with ((a + 256 * b + 65536 * (c + 256 * e)) + 2 ^ 32 * (f + 256 * g + 65536 * (h + 256 * i)))
      by lia
  end.
  rewrite swap64_halves by lia. lia.
Qed.

(** [littleEndian] converts a value, it does not look at memory: it holds on every host. *)
Theorem LittleToNative_never_swaps x : LittleToNative x = x.
Proof. reflexivity. Qed.
