(* ===== verification/EEI.v ===== *)
(** * The Ethereum environment interface: include/host/ethereum/*.h,
    lib/host/ethereum/{eeienv,eeifunc,eeimodule}.cpp

    [EVMEnvironment] holds what a contract knows about its call; its gas counters are
    references into the measurement of the VM.  The EVMC host the functions call through
    [Cxt->host] is the embedder's: a parameter, a record of functions that pass the state
    of the context along.  The Keccak hash is a parameter as well. *)
From stdpp Require Import base list numbers option strings.
From Stdlib Require Import ZArith Lia.
From S2P Require Import Prelude Types Memory Runtime HostFunc HexStr.
#[local] Open Scope Z_scope.

(** ** The data of evmc.h

    An address is 20 bytes, a [bytes32] or big-endian [uint256] is 32 bytes.  A pointer to
    bytes is [None] for null. *)

Inductive evmc_call_kind : Set :=
| EVMC_CALL | EVMC_DELEGATECALL | EVMC_CALLCODE | EVMC_CREATE | EVMC_CREATE2.

#[export] Instance evmc_call_kind_eq_dec : EqDecision evmc_call_kind.
Proof. solve_decision. Defined.

Definition EVMC_STATIC : Z := 1.
Definition EVMC_SUCCESS : Z := 0.
Definition EVMC_REVERT : Z := 2.

Record evmc_message : Type := mkMsg {
  msg_kind : evmc_call_kind; msg_flags : Z; msg_depth : Z; msg_gas : Z;
  msg_destination : list Z; msg_sender : list Z;
  msg_input_data : option (list Z); msg_input_size : Z; msg_value : list Z }.

Record evmc_result : Type := mkResult {
  status_code : Z; gas_left : Z; output_data : option (list Z); output_size : Z;
  create_address : list Z }.

Record evmc_tx_context : Type := mkTx {
  tx_gas_price : list Z; tx_origin : list Z; block_coinbase : list Z; block_number : Z;
  block_timestamp : Z; block_gas_limit : Z; block_difficulty : list Z }.

(** [evmc_host_interface], on a context whose state is [E]. *)
Record evmc_host_interface (E : Type) : Type := mkHostInterface {
  account_exists : list Z -> E -> bool * E;
  get_storage : list Z -> list Z -> E -> list Z * E;
  set_storage : list Z -> list Z -> list Z -> E -> E;
  get_balance : list Z -> E -> list Z * E;
  get_code_size : list Z -> E -> Z * E;
  copy_code : list Z -> Z -> Z -> E -> (Z * list Z) * E;
  selfdestruct : list Z -> list Z -> E -> E;
  host_call : evmc_message -> E -> evmc_result * E;
  get_tx_context : E -> evmc_tx_context * E;
  get_block_hash : Z -> E -> list Z * E;
  emit_log : list Z -> list Z -> list (list Z) -> E -> E }.
Arguments account_exists {E} e. Arguments get_storage {E} e. Arguments set_storage {E} e.
Arguments get_balance {E} e. Arguments get_code_size {E} e. Arguments copy_code {E} e.
Arguments selfdestruct {E} e. Arguments host_call {E} e. Arguments get_tx_context {E} e.
Arguments get_block_hash {E} e. Arguments emit_log {E} e.

(** [evmc::is_zero]. *)
Definition is_zero (b : list Z) : bool := forallb (Z.eqb 0) b.

(** ** EVMEnvironment

    [EVMCContext] is [None] until [setEVMCContext] is called: the member has no
    initialiser.  Its state is kept with the pointer. *)
Record EVMEnvironment (E : Type) : Type := mkEVMEnv {
  Caller : list Z; CallValue : list Z; CallData : list Z; Address : list Z;
  ReturnData : list Z; Code : list Z; Depth : Z; Flag : Z; CallKind : evmc_call_kind;
  EVMCContext : option E }.
Arguments mkEVMEnv {E}.
Arguments Caller {E} e. Arguments CallValue {E} e. Arguments CallData {E} e.
Arguments Address {E} e. Arguments ReturnData {E} e. Arguments Code {E} e.
Arguments Depth {E} e. Arguments Flag {E} e. Arguments CallKind {E} e.
Arguments EVMCContext {E} e.

Definition newEVMEnvironment {E} : EVMEnvironment E :=
  mkEVMEnv [] [] [] [] [] [] 0 0 EVMC_CALL None.

Section Env.
Context {E : Type}.

Definition set_ReturnData (d : list Z) (e : EVMEnvironment E) : EVMEnvironment E :=
  mkEVMEnv (Caller e) (CallValue e) (CallData e) (Address e) d (Code e) (Depth e) (Flag e)
    (CallKind e) (EVMCContext e).
Definition setEVMCContext (w : E) (e : EVMEnvironment E) : EVMEnvironment E :=
  mkEVMEnv (Caller e) (CallValue e) (CallData e) (Address e) (ReturnData e) (Code e) (Depth e)
    (Flag e) (CallKind e) (Some w).
Definition set_Caller (a : list Z) (e : EVMEnvironment E) : EVMEnvironment E :=
  mkEVMEnv a (CallValue e) (CallData e) (Address e) (ReturnData e) (Code e) (Depth e) (Flag e)
    (CallKind e) (EVMCContext e).
Definition set_CallValue (v : list Z) (e : EVMEnvironment E) : EVMEnvironment E :=
  mkEVMEnv (Caller e) v (CallData e) (Address e) (ReturnData e) (Code e) (Depth e) (Flag e)
    (CallKind e) (EVMCContext e).
Definition set_Address (a : list Z) (e : EVMEnvironment E) : EVMEnvironment E :=
  mkEVMEnv (Caller e) (CallValue e) (CallData e) a (ReturnData e) (Code e) (Depth e) (Flag e)
    (CallKind e) (EVMCContext e).

(** The getters and setters by hexadecimal string. *)
Definition getCallerStr (e : EVMEnvironment E) : list Z := convertBytesToHexStr (Caller e) 40 false.
Definition setCaller (Str : list Z) : EVMEnvironment E -> EVMEnvironment E :=
  set_Caller (convertHexStrToBytes Str 40 false).
Definition getCallValueStr (e : EVMEnvironment E) : list Z := convertValVecToHexStr (CallValue e) 64.
Definition setCallValue (Str : list Z) : EVMEnvironment E -> EVMEnvironment E :=
  set_CallValue (convertHexStrToValVec Str 64).
Definition getAddressStr (e : EVMEnvironment E) : list Z := convertBytesToHexStr (Address e) 40 false.
Definition setAddress (Str : list Z) : EVMEnvironment E -> EVMEnvironment E :=
  set_Address (convertHexStrToBytes Str 40 false).

(** [memcpy] of 20 or 32 bytes from the start of a vector. *)
Definition getCallerEVMC (e : EVMEnvironment E) : res (list Z) := read_range 0 20 (Caller e).
Definition getCallValueEVMC (e : EVMEnvironment E) : res (list Z) := read_range 0 32 (CallValue e).
Definition getAddressEVMC (e : EVMEnvironment E) : res (list Z) := read_range 0 20 (Address e).

(** [Bytes(Buf, Buf + Size)]; the size is a 32-bit number. *)
Definition setEVMCCode (Buf : list Z) (Size : Z) (e : EVMEnvironment E) : EVMEnvironment E :=
  mkEVMEnv (Caller e) (CallValue e) (CallData e) (Address e) (ReturnData e)
    (take (Z.to_nat (wrap 32 Size)) Buf) (Depth e)
    (Flag e) (CallKind e) (EVMCContext e).

(** [GasLimit = Msg->gas] converts a signed number. *)
Definition set_CostLimit (L : Z) (m : Measurement) : Measurement :=
  mkMeasure (CostTab m) (InstrCnt m) L (CostSum m).

Definition setEVMCMessage (Msg : evmc_message) (m : Measurement) (e : EVMEnvironment E)
    : res (Measurement * EVMEnvironment E) :=
  let? CallData' :=
    match msg_input_data Msg with
    | Some d => if 0 <? msg_input_size Msg then read_range 0 (msg_input_size Msg) d else Ok []
    | None => Ok []
    end in
  Ok (set_CostLimit (wrap 64 (msg_gas Msg)) m,
      mkEVMEnv (msg_sender Msg) (reverse (msg_value Msg)) CallData' (msg_destination Msg) []
        (Code e) (wrap 32 (msg_depth Msg)) (msg_flags Msg) (msg_kind Msg) (EVMCContext e)).

End Env.

(** ** Gas: the two counters of the measurement *)

Definition getGasLeft (m : Measurement) : Z := wrap 64 (CostLimit m - CostSum m).
Definition consumeGas (Gas : Z) (m : Measurement) : bool * Measurement :=
  if wrap 64 (CostLimit m - CostSum m) <? Gas then (false, set_CostSum (CostLimit m) m)
  else (true, set_CostSum (wrap 64 (CostSum m + Gas)) m).
Definition returnGas (Gas : Z) (m : Measurement) : bool * Measurement :=
  if CostSum m <? Gas then (false, set_CostSum 0 m)
  else (true, set_CostSum (CostSum m - Gas) m).
(** [getMaxCallGas]: all but one 64th of what is left. *)
Definition getMaxCallGas (m : Measurement) : Z := getGasLeft m - getGasLeft m / 64.

(** ** The helpers of the base class: eeibase.h *)

Section EEI.
Context {E : Type} (host : evmc_host_interface E) (keccak256 : list Z -> list Z).

#[local] Abbreviation ME := (M (HostCtx (EVMEnvironment E))).

Definition getEnv : ME (EVMEnvironment E) := gets hcEnv.
Definition setReturnData (d : list Z) : ME unit :=
  modify (fun c => set_hcEnv (set_ReturnData d (hcEnv c)) c).

(** The counters [Env] refers to are those of the VM's measurement. *)
Definition onGas {A} (f : Measurement -> A * Measurement) : ME A := fun c =>
  match hcMea c with
  | Some m => let '(a, m') := f m in (Ok a, set_hcMea (Some m') c)
  | None => (Undef UB_deref, c)
  end.

(** [Env.getEVMCContext()] reads the pointer; [Cxt->host->f(Cxt, ...)] calls through it. *)
Definition getEVMCContext : ME unit :=
  let* Env := getEnv in
  match EVMCContext Env with Some _ => ret tt | None => undef UB_indet end.
Definition onCxt {A} (f : E -> A * E) : ME A := fun c =>
  match EVMCContext (hcEnv c) with
  | Some w => let '(a, w') := f w in (Ok a, set_hcEnv (setEVMCContext w' (hcEnv c)) c)
  | None => (Undef UB_indet, c)
  end.

(** [if (!Env.consumeGas(Gas)) return ErrCode::CostLimitExceeded;] *)
Definition takeGas (Gas : Z) : ME unit :=
  let* b := onGas (consumeGas Gas) in
  if (b : bool) then ret tt else throw CostLimitExceeded.

(** [Length] is widened to 64 bits. *)
Definition addCopyCost (Length : Z) : ME unit := takeGas (3 * ((Length + 31) / 32)).

Definition maxCallGas : ME Z := onGas (fun m => (getMaxCallGas m, m)).

(** [evmc_uint256be Dst = {}; getArray(Dst.bytes + (32 - Bytes), Off, Bytes, true)] *)
Definition loadUInt (Off Bytes0 : Z) : ME (list Z) :=
  let Bytes := if Bytes0 >? 32 then 32 else Bytes0 in
  let* bs := onMem (getArray Off Bytes true) in
  ret (replicate (Z.to_nat (32 - Bytes)) 0 ++ bs).
Definition loadAddress (Off : Z) : ME (list Z) := onMem (getArray Off 20 false).
Definition loadBytes32 (Off : Z) : ME (list Z) := onMem (getArray Off 32 false).

Definition storeUInt (Src : list Z) (Off Bytes0 : Z) : ME unit :=
  let Bytes := if Bytes0 >? 32 then 32 else Bytes0 in
  if is_zero (take (Z.to_nat (32 - Bytes)) Src)
  then onMem (setArray (drop (Z.to_nat (32 - Bytes)) Src) Off Bytes true)
  else throw ExecutionFailed.
Definition storeAddress (Addr : list Z) (Off : Z) : ME unit := onMem (setArray Addr Off 20 false).
Definition storeBytes32 (Bytes : list Z) (Off : Z) : ME unit := onMem (setArray Bytes Off 32 false).

(** The number of the low 16 bytes, big endian, unless a higher byte is set. *)
Definition be_combine (bs : list Z) : Z := fold_left (fun Dst b => Z.lor (Z.shiftl Dst 8) b) bs 0.
Definition convToUInt128 (Src : list Z) : res Z :=
  if is_zero (take 16 Src) then Ok (be_combine (drop 16 Src)) else Err ExecutionFailed.

Definition is_call_or_callcode (k : evmc_call_kind) : bool :=
  bool_decide (k = EVMC_CALL) || bool_decide (k = EVMC_CALLCODE).

(** Copying [Size] bytes from a pointer. *)
Definition from_pointer (p : option (list Z)) (Size : Z) : res (list Z) :=
  match p with Some d => read_range 0 Size d | None => Ok [] end.

(** Setting up the input data. *)
Definition setInput (Msg : evmc_message) (DataOffset DataLength : Z) : ME evmc_message :=
  if 0 <? DataLength then
    let* Code := onMem (getBytes DataOffset DataLength) in
    ret (mkMsg (msg_kind Msg) (msg_flags Msg) (msg_depth Msg) (msg_gas Msg) (msg_destination Msg)
           (msg_sender Msg) (Some Code) (sizeZ Code) (msg_value Msg))
  else ret Msg.

Definition set_msg_gas (g : Z) (Msg : evmc_message) : evmc_message :=
  mkMsg (msg_kind Msg) (msg_flags Msg) (msg_depth Msg) g (msg_destination Msg) (msg_sender Msg)
    (msg_input_data Msg) (msg_input_size Msg) (msg_value Msg).

(** The transfer gas and the gas of a new account. *)
Definition takeTransferGas (Msg : evmc_message) : ME unit :=
  if is_call_or_callcode (msg_kind Msg) && negb (is_zero (msg_value Msg)) then
    takeGas 9000 ;;;
    let* exists_ := onCxt (account_exists host (msg_destination Msg)) in
    if (exists_ : bool) then ret tt else takeGas 25000
  else ret tt.

(** Whether the sender can pay the value. *)
Definition enoughBalance (Msg : evmc_message) : ME bool :=
  if (is_call_or_callcode (msg_kind Msg) && negb (is_zero (msg_value Msg))) ||
     bool_decide (msg_kind Msg = EVMC_CREATE)
  then
    let* Balance := onCxt (get_balance host (msg_sender Msg)) in
    let* DstBalance := lift (convToUInt128 Balance) in
    let* ValBalance := lift (convToUInt128 (msg_value Msg)) in
    ret (negb (DstBalance <? ValBalance))
  else ret true.

(** The data the call returns. *)
Definition takeReturnData (Kind : evmc_call_kind) (CallRes : evmc_result) (CreateResOffset : Z)
    : ME unit :=
  if bool_decide (Kind = EVMC_CREATE) && (status_code CallRes =? EVMC_SUCCESS) then
    storeAddress (create_address CallRes) CreateResOffset ;;; setReturnData []
  else
    let* d := lift (from_pointer (output_data CallRes) (output_size CallRes)) in
    setReturnData d.

(** From the gas of the callee on: [consumeGas] may fail, which is not looked at. *)
Definition performCall (Msg : evmc_message) (CreateResOffset : Z) : ME Z :=
  onGas (consumeGas (wrap 64 (msg_gas Msg))) ;;;
  let Msg' :=
    if negb (is_zero (msg_value Msg)) && negb (bool_decide (msg_kind Msg = EVMC_CREATE))
    then set_msg_gas (sgn 64 (msg_gas Msg + 2300)) Msg else Msg in
  let* CallRes := onCxt (host_call host Msg') in
  if gas_left CallRes <? 0 then throw ExecutionFailed
  else
    onGas (returnGas (gas_left CallRes)) ;;;
    takeReturnData (msg_kind Msg) CallRes CreateResOffset ;;;
    ret (if status_code CallRes =? EVMC_SUCCESS then 0
         else if status_code CallRes =? EVMC_REVERT then 2 else 1).

Definition callContract (Msg0 : evmc_message) (DataOffset DataLength CreateResOffset : Z) : ME Z :=
  getEVMCContext ;;;
  let* Env := getEnv in
  if 1024 <=? Depth Env then ret 1
  else
    let* Msg := setInput Msg0 DataOffset DataLength in
    if (bool_decide (msg_kind Msg = EVMC_CREATE) ||
        (bool_decide (msg_kind Msg = EVMC_CALL) && negb (is_zero (msg_value Msg)))) &&
       negb (Z.land (Flag Env) EVMC_STATIC =? 0)
    then throw ExecutionFailed
    else
      takeTransferGas Msg ;;;
      let* ok := enoughBalance Msg in
      if negb ok then ret 1 else performCall Msg CreateResOffset.

(** ** The functions: eeifunc.cpp *)

(** [static_cast<int32_t>(Env.getDepth() + 1)] *)
Definition nextDepth (Env : EVMEnvironment E) : Z := sgn 32 (wrap 32 (Depth Env + 1)).

(** The message of a call; its members are evaluated in the order they are declared. *)
Definition callMessage (Kind : evmc_call_kind) (Flags Gas : Z) (Addr : list Z)
    (Val : EVMEnvironment E -> res (list Z)) : ME evmc_message :=
  let* Env := getEnv in
  let* MaxGas := maxCallGas in
  let* Sender := lift (getAddressEVMC Env) in
  let* Value := lift (Val Env) in
  ret (mkMsg Kind Flags (nextDepth Env) (sgn 64 (Z.min Gas MaxGas)) Addr Sender None 0 Value).

Definition staticFlag : ME Z := gets (fun c => Z.land (Flag (hcEnv c)) EVMC_STATIC).

Definition zero_bytes32 : list Z := replicate 32 0.

Definition EEICall_body (Gas AddressOffset ValueOffset DataOffset DataLength : Z) : ME unit :=
  let* Addr := loadAddress AddressOffset in
  let* Val := loadUInt ValueOffset 16 in
  let* Flags := staticFlag in
  let* CallMsg := callMessage EVMC_CALL Flags Gas Addr (fun _ => Ok Val) in
  let* Res := callContract CallMsg DataOffset DataLength 0 in
  setRet Res.

Definition EEICallCode_body (Gas AddressOffset ValueOffset DataOffset DataLength : Z) : ME unit :=
  let* Addr := loadAddress AddressOffset in
  let* Val := loadUInt ValueOffset 16 in
  let* Flags := staticFlag in
  let* CallMsg := callMessage EVMC_CALLCODE Flags Gas Addr (fun _ => Ok Val) in
  let* Res := callContract CallMsg DataOffset DataLength 0 in
  setRet Res.

Definition EEICallDataCopy_body (ResultOffset DataOffset Length : Z) : ME unit :=
  addCopyCost Length ;;;
  let* Env := getEnv in
  onMem (setBytes (CallData Env) ResultOffset DataOffset Length).

Definition EEICallDelegate_body (Gas AddressOffset DataOffset DataLength : Z) : ME unit :=
  let* Addr := loadAddress AddressOffset in
  let* Flags := staticFlag in
  let* CallMsg := callMessage EVMC_DELEGATECALL Flags Gas Addr getCallValueEVMC in
  let* Res := callContract CallMsg DataOffset DataLength 0 in
  setRet Res.

Definition EEICallStatic_body (Gas AddressOffset DataOffset DataLength : Z) : ME unit :=
  let* Addr := loadAddress AddressOffset in
  if be_combine Addr =? 9 then
    addCopyCost DataLength ;;;
    let* Data := onMem (getBytes DataOffset DataLength) in
    setReturnData (keccak256 Data) ;;;
    setRet 0
  else
    let* CallMsg := callMessage EVMC_CALL EVMC_STATIC Gas Addr (fun _ => Ok zero_bytes32) in
    let* Res := callContract CallMsg DataOffset DataLength 0 in
    setRet Res.

Definition EEICodeCopy_body (ResultOffset CodeOffset Length : Z) : ME unit :=
  addCopyCost Length ;;;
  let* Env := getEnv in
  onMem (setBytes (Code Env) ResultOffset CodeOffset Length).

Definition EEICreate_body (ValueOffset DataOffset DataLength ResultOffset : Z) : ME unit :=
  let* Val := loadUInt ValueOffset 16 in
  let* Env := getEnv in
  let* MaxGas := maxCallGas in
  let* Sender := lift (getAddressEVMC Env) in
  let CreateMsg := mkMsg EVMC_CREATE 0 (nextDepth Env) (sgn 64 MaxGas) (replicate 20 0) Sender
                     None 0 Val in
  let* Res := callContract CreateMsg DataOffset DataLength ResultOffset in
  setRet Res.

(** [&Buffer[0]] of a vector without elements is undefined. *)
Definition front_of (Buffer : list Z) : ME unit :=
  if sizeZ Buffer =? 0 then undef UB_vector else ret tt.

Definition EEIExternalCodeCopy_body (AddressOffset ResultOffset CodeOffset Length : Z) : ME unit :=
  addCopyCost Length ;;;
  getEVMCContext ;;;
  let* Addr := loadAddress AddressOffset in
  let Buffer := replicate (Z.to_nat Length) 0 in
  front_of Buffer ;;;
  let* r := onCxt (copy_code host Addr CodeOffset Length) in
  let* Buffer' := lift (write_range 0 r.2 Buffer) in
  if negb (Length =? r.1) then throw AccessForbidMemory
  else onMem (setBytes Buffer' ResultOffset 0 Length).

Definition EEIFinish_body (DataOffset DataLength : Z) : ME unit :=
  setReturnData [] ;;;
  let* d := onMem (getBytes DataOffset DataLength) in
  setReturnData d ;;;
  throw Terminated.

Definition EEIGetAddress_body (ResultOffset : Z) : ME unit :=
  let* Env := getEnv in onMem (setBytes (Address Env) ResultOffset 0 20).

Definition EEIGetBlockCoinbase_body (ResultOffset : Z) : ME unit :=
  getEVMCContext ;;;
  let* Tx := onCxt (get_tx_context host) in
  storeAddress (block_coinbase Tx) ResultOffset.

Definition EEIGetBlockDifficulty_body (ResultOffset : Z) : ME unit :=
  getEVMCContext ;;;
  let* Tx := onCxt (get_tx_context host) in
  storeUInt (block_difficulty Tx) ResultOffset 32.

Definition EEIGetBlockGasLimit_body : ME unit :=
  getEVMCContext ;;;
  let* Tx := onCxt (get_tx_context host) in
  setRet (wrap 64 (block_gas_limit Tx)).

Definition EEIGetBlockHash_body (Number ResultOffset : Z) : ME unit :=
  getEVMCContext ;;;
  setRet 0 ;;;
  let* Hash := onCxt (get_block_hash host (sgn 64 Number)) in
  if is_zero Hash then setRet 1 else storeBytes32 Hash ResultOffset.

Definition EEIGetBlockNumber_body : ME unit :=
  getEVMCContext ;;;
  let* Tx := onCxt (get_tx_context host) in
  setRet (wrap 64 (block_number Tx)).

Definition EEIGetBlockTimestamp_body : ME unit :=
  getEVMCContext ;;;
  let* Tx := onCxt (get_tx_context host) in
  setRet (wrap 64 (block_timestamp Tx)).

Definition EEIGetCallDataSize_body : ME unit :=
  let* Env := getEnv in setRet (wrap 32 (sizeZ (CallData Env))).

Definition EEIGetCaller_body (ResultOffset : Z) : ME unit :=
  let* Env := getEnv in onMem (setBytes (Caller Env) ResultOffset 0 20).

Definition EEIGetCallValue_body (ResultOffset : Z) : ME unit :=
  let* Env := getEnv in onMem (setBytes (CallValue Env) ResultOffset 0 16).

Definition EEIGetCodeSize_body : ME unit :=
  let* Env := getEnv in setRet (wrap 32 (sizeZ (Code Env))).

Definition EEIGetExternalBalance_body (AddressOffset ResultOffset : Z) : ME unit :=
  getEVMCContext ;;;
  let* Addr := loadAddress AddressOffset in
  let* Balance := onCxt (get_balance host Addr) in
  storeUInt Balance ResultOffset 16.

Definition EEIGetExternalCodeSize_body (AddressOffset : Z) : ME unit :=
  getEVMCContext ;;;
  let* Addr := loadAddress AddressOffset in
  let* Size := onCxt (get_code_size host Addr) in
  setRet (wrap 32 Size).

Definition EEIGetGasLeft_body : ME unit :=
  let* g := onGas (fun m => (getGasLeft m, m)) in setRet g.

Definition EEIGetReturnDataSize_body : ME unit :=
  let* Env := getEnv in setRet (wrap 32 (sizeZ (ReturnData Env))).

Definition EEIGetTxGasPrice_body (ResultOffset : Z) : ME unit :=
  getEVMCContext ;;;
  let* Tx := onCxt (get_tx_context host) in
  storeUInt (tx_gas_price Tx) ResultOffset 16.

Definition EEIGetTxOrigin_body (ResultOffset : Z) : ME unit :=
  getEVMCContext ;;;
  let* Tx := onCxt (get_tx_context host) in
  storeAddress (tx_origin Tx) ResultOffset.

(** [if (NumberOfTopics >= k) Topics[k - 1] = loadBytes32(TopicK)] *)
Definition loadTopic (b : bool) (Topic : Z) : ME (list Z) :=
  if b then loadBytes32 Topic else ret zero_bytes32.

Definition EEILog_body (DataOffset DataLength NumberOfTopics Topic1 Topic2 Topic3 Topic4 : Z)
    : ME unit :=
  if NumberOfTopics >? 4 then throw ExecutionFailed
  else
    takeGas (375 * NumberOfTopics + 8 * DataLength) ;;;
    getEVMCContext ;;;
    let* t1 := loadTopic (1 <=? NumberOfTopics) Topic1 in
    let* t2 := loadTopic (2 <=? NumberOfTopics) Topic2 in
    let* t3 := loadTopic (3 <=? NumberOfTopics) Topic3 in
    let* t4 := loadTopic (NumberOfTopics =? 4) Topic4 in
    let* Data := onMem (getBytes DataOffset DataLength) in
    let* Env := getEnv in
    let* Addr := lift (getAddressEVMC Env) in
    front_of Data ;;;
    onCxt (fun w => (tt, emit_log host Addr Data (take (Z.to_nat NumberOfTopics) [t1; t2; t3; t4]) w)).

Definition EEIReturnDataCopy_body (ResultOffset DataOffset Length : Z) : ME unit :=
  addCopyCost Length ;;;
  let* Env := getEnv in
  onMem (setBytes (ReturnData Env) ResultOffset DataOffset Length).

Definition EEIRevert_body (DataOffset DataLength : Z) : ME unit :=
  setReturnData [] ;;;
  let* d := onMem (getBytes DataOffset DataLength) in
  setReturnData d ;;;
  throw Revert.

Definition EEISelfDestruct_body (AddressOffset : Z) : ME unit :=
  getEVMCContext ;;;
  let* Addr := loadAddress AddressOffset in
  let* Env := getEnv in
  let* Self := lift (getAddressEVMC Env) in
  let* exists_ := onCxt (account_exists host Addr) in
  (if (exists_ : bool) then ret tt else takeGas 25000) ;;;
  onCxt (fun w => (tt, selfdestruct host Self Addr w)) ;;;
  throw Terminated.

Definition EEIStorageLoad_body (PathOffset ValueOffset : Z) : ME unit :=
  getEVMCContext ;;;
  let* Env := getEnv in
  let* Addr := lift (getAddressEVMC Env) in
  let* Path := loadBytes32 PathOffset in
  let* Value := onCxt (get_storage host Addr Path) in
  storeBytes32 Value ValueOffset.

Definition EEIStorageStore_body (PathOffset ValueOffset : Z) : ME unit :=
  getEVMCContext ;;;
  let* Env := getEnv in
  if negb (Z.land (Flag Env) EVMC_STATIC =? 0) then throw ExecutionFailed
  else
    let* Addr := lift (getAddressEVMC Env) in
    let* Path := loadBytes32 PathOffset in
    let* Value := loadBytes32 ValueOffset in
    let* CurrValue := onCxt (get_storage host Addr Path) in
    (if is_zero CurrValue && negb (is_zero Value) then takeGas 15000 else ret tt) ;;;
    onCxt (fun w => (tt, set_storage host Addr Path Value w)).

Definition EEIUseGas_body (Amount : Z) : ME unit := takeGas Amount.

(** ** The host functions with their costs: eeifunc.h *)

Definition EEICall := hostFunction 700 (Some U32) [U64; U32; U32; U32; U32] EEICall_body.
Definition EEICallCode := hostFunction 700 (Some U32) [U64; U32; U32; U32; U32] EEICallCode_body.
Definition EEICallDataCopy := hostFunction 3 None [U32; U32; U32] EEICallDataCopy_body.
Definition EEICallDelegate := hostFunction 700 (Some U32) [U64; U32; U32; U32] EEICallDelegate_body.
Definition EEICallStatic := hostFunction 700 (Some U32) [U64; U32; U32; U32] EEICallStatic_body.
Definition EEICodeCopy := hostFunction 3 None [U32; U32; U32] EEICodeCopy_body.
Definition EEICreate := hostFunction 32000 (Some U32) [U32; U32; U32; U32] EEICreate_body.
Definition EEIExternalCodeCopy := hostFunction 700 None [U32; U32; U32; U32] EEIExternalCodeCopy_body.
Definition EEIFinish := hostFunction 0 None [U32; U32] EEIFinish_body.
Definition EEIGetAddress := hostFunction 2 None [U32] EEIGetAddress_body.
Definition EEIGetBlockCoinbase := hostFunction 2 None [U32] EEIGetBlockCoinbase_body.
Definition EEIGetBlockDifficulty := hostFunction 2 None [U32] EEIGetBlockDifficulty_body.
Definition EEIGetBlockGasLimit := hostFunction 2 (Some U64) [] EEIGetBlockGasLimit_body.
Definition EEIGetBlockHash := hostFunction 800 (Some U32) [U64; U32] EEIGetBlockHash_body.
Definition EEIGetBlockNumber := hostFunction 2 (Some U64) [] EEIGetBlockNumber_body.
Definition EEIGetBlockTimestamp := hostFunction 2 (Some U64) [] EEIGetBlockTimestamp_body.
Definition EEIGetCallDataSize := hostFunction 2 (Some U32) [] EEIGetCallDataSize_body.
Definition EEIGetCaller := hostFunction 2 None [U32] EEIGetCaller_body.
Definition EEIGetCallValue := hostFunction 2 None [U32] EEIGetCallValue_body.
Definition EEIGetCodeSize := hostFunction 2 (Some U32) [] EEIGetCodeSize_body.
Definition EEIGetExternalBalance := hostFunction 400 None [U32; U32] EEIGetExternalBalance_body.
Definition EEIGetExternalCodeSize := hostFunction 700 (Some U32) [U32] EEIGetExternalCodeSize_body.
Definition EEIGetGasLeft := hostFunction 2 (Some U64) [] EEIGetGasLeft_body.
Definition EEIGetReturnDataSize := hostFunction 2 (Some U32) [] EEIGetReturnDataSize_body.
Definition EEIGetTxGasPrice := hostFunction 2 None [U32] EEIGetTxGasPrice_body.
Definition EEIGetTxOrigin := hostFunction 2 None [U32] EEIGetTxOrigin_body.
Definition EEILog := hostFunction 375 None [U32; U32; U32; U32; U32; U32; U32] EEILog_body.
Definition EEIReturnDataCopy := hostFunction 3 None [U32; U32; U32] EEIReturnDataCopy_body.
Definition EEIRevert := hostFunction 0 None [U32; U32] EEIRevert_body.
Definition EEISelfDestruct := hostFunction 5000 None [U32] EEISelfDestruct_body.
Definition EEIStorageLoad := hostFunction 200 None [U32; U32] EEIStorageLoad_body.
Definition EEIStorageStore := hostFunction 5000 None [U32; U32] EEIStorageStore_body.
Definition EEIUseGas := hostFunction 0 None [U64] EEIUseGas_body.

(** ** The module: eeimodule.cpp *)

Definition EEIFuncs : list (string * HostFunc (EVMEnvironment E)) :=
  [
    ("call"%string, EEICall);
    ("callCode"%string, EEICallCode);
    ("callDataCopy"%string, EEICallDataCopy);
    ("callDelegate"%string, EEICallDelegate);
    ("callStatic"%string, EEICallStatic);
    ("codeCopy"%string, EEICodeCopy);
    ("create"%string, EEICreate);
    ("externalCodeCopy"%string, EEIExternalCodeCopy);
    ("finish"%string, EEIFinish);
    ("getAddress"%string, EEIGetAddress);
    ("getBlockCoinbase"%string, EEIGetBlockCoinbase);
    ("getBlockDifficulty"%string, EEIGetBlockDifficulty);
    ("getBlockGasLimit"%string, EEIGetBlockGasLimit);
    ("getBlockHash"%string, EEIGetBlockHash);
    ("getBlockNumber"%string, EEIGetBlockNumber);
    ("getBlockTimestamp"%string, EEIGetBlockTimestamp);
    ("getCallDataSize"%string, EEIGetCallDataSize);
    ("getCallValue"%string, EEIGetCallValue);
    ("getCaller"%string, EEIGetCaller);
    ("getCodeSize"%string, EEIGetCodeSize);
    ("getExternalBalance"%string, EEIGetExternalBalance);
    ("getExternalCodeSize"%string, EEIGetExternalCodeSize);
    ("getGasLeft"%string, EEIGetGasLeft);
    ("getReturnDataSize"%string, EEIGetReturnDataSize);
    ("getTxGasPrice"%string, EEIGetTxGasPrice);
    ("getTxOrigin"%string, EEIGetTxOrigin);
    ("log"%string, EEILog);
    ("returnDataCopy"%string, EEIReturnDataCopy);
    ("revert"%string, EEIRevert);
    ("selfDestruct"%string, EEISelfDestruct);
    ("storageLoad"%string, EEIStorageLoad);
    ("storageStore"%string, EEIStorageStore);
    ("useGas"%string, EEIUseGas) ].

Definition EEIModule {T} (emb : HostFunc (EVMEnvironment E) -> HostFunc T) : ImportObject T :=
  hostModule emb "ethereum" EEIFuncs.

End EEI.
