(* ===== verification/EEIGas.v ===== *)
(** * Gas accounting of the Ethereum environment interface

    Every function keeps the gas counters between 0 and the limit, whatever the EVMC host
    does.  Against a host that gives back at most the gas it was sent, the functions that
    transfer no value never give the caller gas; a value transfer or a delegate call can. *)
From stdpp Require Import base list numbers option strings.
From Stdlib Require Import ZArith Lia.
From S2P Require Import Prelude Types Memory MemoryFacts Runtime Interpreter.
From S2P Require Import EngineFuel HostFunc HostFuncFacts EEI.
#[local] Open Scope Z_scope.

(** ** Counters *)

Definition gas_ok (m : Measurement) : Prop :=
  in_u 64 (CostLimit m) /\ 0 <= CostSum m <= CostLimit m.

(** [mono]: the second state has spent at least as much as the first. *)
Definition gas_rel (mono : bool) (m m' : Measurement) : Prop :=
  CostTab m' = CostTab m /\ CostLimit m' = CostLimit m /\
  (if mono then CostSum m else 0) <= CostSum m' /\ CostSum m' <= CostLimit m.

Lemma gas_rel_refl mono m : gas_ok m -> gas_rel mono m m.
Proof. intros [_ ?]. unfold gas_rel. destruct mono; split_and!; done || lia. Qed.

Lemma gas_rel_ok mono m m' : gas_ok m -> gas_rel mono m m' -> gas_ok m'.
Proof.
  unfold gas_ok, gas_rel. intros (HL & Hs) (_ & -> & H1 & H2). split; [done|]. destruct mono; lia.
Qed.

Lemma gas_rel_trans mono m1 m2 m3 : gas_ok m1 -> gas_rel mono m1 m2 -> gas_rel mono m2 m3 ->
  gas_rel mono m1 m3.
Proof.
  intros Hok (T1 & L1 & S1 & U1) (T2 & L2 & S2 & U2). unfold gas_rel. rewrite L2, T2, L1, T1 in *.
  split_and!; [done|done| |lia]. destruct mono; lia.
Qed.

Lemma gas_rel_weaken m m' : gas_ok m -> gas_rel true m m' -> gas_rel false m m'.
Proof. intros [_ ?] (? & ? & ? & ?). unfold gas_rel. split_and!; done || lia. Qed.

Lemma getGasLeft_ok m : gas_ok m -> getGasLeft m = CostLimit m - CostSum m.
Proof. intros [[? ?] ?]. unfold getGasLeft. apply wrap_small. unfold in_u. lia. Qed.

Lemma consumeGas_spec g m : gas_ok m -> 0 <= g ->
  consumeGas g m = (g <=? getGasLeft m,
    set_CostSum (if g <=? getGasLeft m then CostSum m + g else CostLimit m) m).
Proof.
  intros Hok Hg. pose proof (getGasLeft_ok m Hok) as Hl. unfold consumeGas.
  change (wrap 64 (CostLimit m - CostSum m)) with (getGasLeft m). rewrite Hl.
  destruct Hok as [[HL HL'] Hs].
  destruct (Z.ltb_spec (CostLimit m - CostSum m) g), (Z.leb_spec g (CostLimit m - CostSum m)); try lia;
    [done|]. rewrite wrap_small by (unfold in_u; lia). done.
Qed.

Lemma consumeGas_rel g m : gas_ok m -> 0 <= g -> gas_rel true m (consumeGas g m).2.
Proof.
  intros Hok Hg. rewrite consumeGas_spec by done. cbn. pose proof (getGasLeft_ok m Hok) as Hl.
  destruct Hok as [? ?]. unfold gas_rel. cbn. rewrite Hl.
  destruct (Z.leb_spec g (CostLimit m - CostSum m)); split_and!; done || lia.
Qed.

Lemma returnGas_rel g m : gas_ok m -> 0 <= g -> gas_rel false m (returnGas g m).2.
Proof.
  intros [HL Hs] Hg. unfold returnGas, gas_rel. destruct (Z.ltb_spec (CostSum m) g); cbn;
    split_and!; done || lia.
Qed.

Create HintDb gas.

Section EEIGas.
Context {E : Type} (host : evmc_host_interface E) (keccak256 : list Z -> list Z).
#[local] Abbreviation ME := (M (HostCtx (EVMEnvironment E))).

(** ** A computation that keeps the counters in order *)

Definition gas_keeps (mono : bool) {A} (m : ME A) : Prop := forall c mea,
  hcMea c = Some mea -> gas_ok mea ->
  (m c).1 <> NoFuel /\ exists mea', hcMea (m c).2 = Some mea' /\ gas_rel mono mea mea'.

Section Rules.
Context (mono : bool).

Lemma gk_bind {A B} (m : ME A) (k : A -> ME B) :
  gas_keeps mono m -> (forall a, gas_keeps mono (k a)) -> gas_keeps mono (bind m k).
Proof using Type.
  intros Hm Hk c mea Hc Hok. destruct (Hm c mea Hc Hok) as (Hn & mea1 & H1 & R1). unfold bind.
  destruct (m c) as [[a|e|u|] c1]; cbn in *; try by (split; [done|eauto]).
  destruct (Hk a c1 mea1 H1 (gas_rel_ok _ _ _ Hok R1)) as (Hn2 & mea2 & H2 & R2).
  split; [done|]. exists mea2. split; [done|]. by apply gas_rel_trans with mea1.
Qed.

(** What leaves the counters alone. *)
Lemma gk_quiet {A} (m : ME A) :
  (forall c, (m c).1 <> NoFuel /\ hcMea (m c).2 = hcMea c) -> gas_keeps mono m.
Proof using Type.
  intros Hm c mea Hc Hok. destruct (Hm c) as [Hn Hq]. split; [done|]. exists mea.
  rewrite Hq. split; [done|]. by apply gas_rel_refl.
Qed.

Lemma gk_ret {A} (a : A) : gas_keeps mono (ret a).
Proof using Type. by apply gk_quiet. Qed.
Lemma gk_throw {A} e : gas_keeps mono (throw (A := A) e).
Proof using Type. by apply gk_quiet. Qed.
Lemma gk_undef {A} u : gas_keeps mono (undef (A := A) u).
Proof using Type. by apply gk_quiet. Qed.
Lemma gk_gets {A} (f : _ -> A) : gas_keeps mono (gets f).
Proof using Type. by apply gk_quiet. Qed.
Lemma gk_getEnv : gas_keeps mono getEnv.
Proof using Type. apply gk_gets. Qed.
Lemma gk_lift {A} (r : res A) : r <> NoFuel -> gas_keeps mono (lift r).
Proof using Type. intros. by apply gk_quiet. Qed.
Lemma gk_setRet x : gas_keeps mono (setRet x).
Proof using Type. by apply gk_quiet. Qed.
Lemma gk_setReturnData d : gas_keeps mono (setReturnData d).
Proof using Type. by apply gk_quiet. Qed.
Lemma gk_onMem {A} (m : M MemoryInstance A) : free m -> gas_keeps mono (onMem m).
Proof using Type.
  intros Hm. apply gk_quiet. intros c. unfold onMem, zoom. specialize (Hm (hcMem c)).
  destruct (m (hcMem c)) as [r t]. by split.
Qed.
Lemma gk_onCxt {A} (f : E -> A * E) : gas_keeps mono (onCxt f).
Proof using Type. apply gk_quiet. intros c. unfold onCxt. case_match; [|done]. by destruct (f _). Qed.
Lemma gk_getEVMCContext : gas_keeps mono getEVMCContext.
Proof using Type.
  apply gk_quiet. intros c. unfold getEVMCContext, bind, getEnv, gets. by case_match.
Qed.
Lemma gk_onGas {A} (f : Measurement -> A * Measurement) :
  (forall m, gas_ok m -> gas_rel mono m (f m).2) -> gas_keeps mono (onGas f).
Proof using Type.
  intros Hf c mea Hc Hok. unfold onGas. rewrite Hc. specialize (Hf mea Hok).
  destruct (f mea) as [a m']. cbn in *. split; [done|eauto].
Qed.
Lemma gk_consume g : 0 <= g -> gas_keeps mono (onGas (consumeGas g)).
Proof using Type.
  intros Hg. apply gk_onGas. intros m Hm. pose proof (consumeGas_rel g m Hm Hg).
  destruct mono; [done|by apply gas_rel_weaken].
Qed.
Lemma gk_takeGas g : 0 <= g -> gas_keeps mono (takeGas g).
Proof using Type.
  intros Hg. apply gk_bind; [by apply gk_consume|]. intros []; [apply gk_ret|apply gk_throw].
Qed.
Lemma gk_readGas (f : Measurement -> Z) : gas_keeps mono (onGas (fun m => (f m, m))).
Proof using Type. apply gk_onGas. intros m Hm. by apply gas_rel_refl. Qed.

End Rules.

#[local] Hint Resolve gk_ret gk_throw gk_undef gk_gets gk_getEnv gk_setRet gk_setReturnData gk_onCxt
  gk_getEVMCContext gk_readGas : gas.

Lemma convToUInt128_fuel d : convToUInt128 d <> NoFuel.
Proof using Type. unfold convToUInt128. by case_match. Qed.
Lemma from_pointer_fuel p n : from_pointer p n <> NoFuel.
Proof using Type. unfold from_pointer. destruct p; [apply read_range_fuel|done]. Qed.
#[local] Hint Resolve convToUInt128_fuel from_pointer_fuel : free.

(** Follows the shape of a body down to its primitive steps. *)
Ltac gas_auto := repeat lazymatch goal with
  | |- gas_keeps _ (bind _ _) => apply gk_bind; [|intros ?]
  | |- gas_keeps _ (onMem _) => apply gk_onMem; by eauto with free
  | |- gas_keeps _ (takeGas _) => apply gk_takeGas; try lia
  | |- gas_keeps _ (onGas (consumeGas _)) => apply gk_consume; try lia
  | |- gas_keeps _ (lift _) => apply gk_lift; unfold getAddressEVMC, getCallValueEVMC;
      by eauto with free
  | |- gas_keeps _ (match _ with _ => _ end) => case_match
  | |- gas_keeps _ _ => by eauto with gas
  end.

Lemma gk_addCopyCost mono n : 0 <= n -> gas_keeps mono (addCopyCost n).
Proof using Type.
  intros. apply gk_takeGas. assert (0 <= (n + 31) / 32) by (apply Z.div_pos; lia). lia.
Qed.
Lemma gk_load mono :
  (forall o n, gas_keeps mono (loadUInt o n)) /\ (forall o, gas_keeps mono (loadAddress o)) /\
  (forall o, gas_keeps mono (loadBytes32 o)) /\ (forall b o, gas_keeps mono (loadTopic b o)).
Proof using Type.
  unfold loadTopic, loadUInt, loadAddress, loadBytes32. cbv zeta. split_and!; intros; gas_auto.
Qed.
Lemma gk_store mono :
  (forall d o n, gas_keeps mono (storeUInt d o n)) /\ (forall d o, gas_keeps mono (storeAddress d o)) /\
  (forall d o, gas_keeps mono (storeBytes32 d o)).
Proof using Type. unfold storeUInt, storeAddress, storeBytes32. cbv zeta. split_and!; intros; gas_auto. Qed.
Lemma gk_front mono d : gas_keeps mono (front_of d).
Proof using Type. unfold front_of. gas_auto. Qed.
Lemma gk_callMessage mono k f g a v : (forall e, v e <> NoFuel) -> gas_keeps mono (callMessage k f g a v).
Proof using Type.
  intros Hv. unfold callMessage, maxCallGas. gas_auto.
Qed.
Lemma gk_setInput mono m o l : gas_keeps mono (setInput m o l).
Proof using Type. unfold setInput. gas_auto. Qed.
Lemma gk_takeTransferGas mono m : gas_keeps mono (takeTransferGas host m).
Proof using Type. unfold takeTransferGas. gas_auto. Qed.
Lemma gk_enoughBalance mono m : gas_keeps mono (enoughBalance host m).
Proof using Type. unfold enoughBalance. gas_auto. Qed.

#[local] Hint Extern 1 (gas_keeps _ (loadUInt _ _)) => apply gk_load : gas.
#[local] Hint Extern 1 (gas_keeps _ (loadAddress _)) => apply gk_load : gas.
#[local] Hint Extern 1 (gas_keeps _ (loadBytes32 _)) => apply gk_load : gas.
#[local] Hint Extern 1 (gas_keeps _ (loadTopic _ _)) => apply gk_load : gas.
#[local] Hint Extern 1 (gas_keeps _ (storeUInt _ _ _)) => apply gk_store : gas.
#[local] Hint Extern 1 (gas_keeps _ (storeAddress _ _)) => apply gk_store : gas.
#[local] Hint Extern 1 (gas_keeps _ (storeBytes32 _ _)) => apply gk_store : gas.
#[local] Hint Resolve gk_front gk_setInput gk_takeTransferGas gk_enoughBalance : gas.

Lemma gk_takeReturnData mono k r o : gas_keeps mono (takeReturnData k r o).
Proof using Type. unfold takeReturnData. gas_auto. Qed.
#[local] Hint Resolve gk_takeReturnData : gas.

(** ** Calls keep the counters in order *)

Lemma gk_performCall Msg o : gas_keeps false (performCall host Msg o).
Proof using Type.
  unfold performCall. cbv zeta. gas_auto.
  - apply wrap_range. lia.
  - bool_to_prop. apply gk_onGas. intros m Hm. by apply returnGas_rel.
Qed.
#[local] Hint Resolve gk_performCall : gas.

Lemma gk_callContract Msg o l r : gas_keeps false (callContract host Msg o l r).
Proof using Type. unfold callContract. gas_auto. Qed.
#[local] Hint Resolve gk_callContract : gas.

(** ** Calls without a stipend the caller did not pay for *)

(** The outcome of a run from the counters [mea]: in order, and at least [lo] spent. *)
Definition gas_post (mea : Measurement) (lo : Z) {A} (p : res A * HostCtx (EVMEnvironment E)) : Prop :=
  p.1 <> NoFuel /\ exists mea', hcMea p.2 = Some mea' /\ gas_rel false mea mea' /\ lo <= CostSum mea'.

Lemma post_mono {A} (m : ME A) c mea mea1 lo : gas_ok mea -> gas_rel false mea mea1 ->
  hcMea c = Some mea1 -> lo <= CostSum mea1 -> gas_keeps true m -> gas_post mea lo (m c).
Proof using Type.
  intros Hok R1 Hc Hlo Hm. pose proof (gas_rel_ok _ _ _ Hok R1) as Hok1.
  destruct (Hm c mea1 Hc Hok1) as (Hn & mea2 & H2 & R2). split; [done|]. exists mea2. split; [done|].
  pose proof (gas_rel_weaken _ _ Hok1 R2). split; [by apply gas_rel_trans with mea1|].
  destruct R2 as (_ & _ & ? & _). lia.
Qed.

Lemma post_quiet {A B} (m : ME A) (k : A -> ME B) c mea mea1 lo :
  (forall c, (m c).1 <> NoFuel /\ hcMea (m c).2 = hcMea c) ->
  gas_ok mea -> gas_rel false mea mea1 -> hcMea c = Some mea1 -> lo <= CostSum mea1 ->
  (forall a c1, m c = (Ok a, c1) -> hcMea c1 = Some mea1 -> gas_post mea lo (k a c1)) ->
  gas_post mea lo (bind m k c).
Proof using Type.
  intros Hq Hok R1 Hc Hlo Hk. destruct (Hq c) as [Hn He]. unfold bind.
  destruct (m c) as [[a|e|u|] c1]; cbn in *; try done; [apply Hk; [done|congruence]|..];
    (split; [done|]; exists mea1; split_and!; [cbn; congruence|done|done]).
Qed.

Lemma quiet_getEVMCContext c : (getEVMCContext (E := E) c).1 <> NoFuel /\ hcMea (getEVMCContext c).2 = hcMea c.
Proof using Type. unfold getEVMCContext, bind, getEnv, gets. by case_match. Qed.
Lemma quiet_setInput Msg o l c : (setInput (E := E) Msg o l c).1 <> NoFuel /\ hcMea (setInput Msg o l c).2 = hcMea c.
Proof using Type.
  unfold setInput, bind, onMem, zoom. case_match; [|done].
  pose proof (free_getBytes o l (hcMem c)) as Hf. by destruct (getBytes o l (hcMem c)) as [[] ?].
Qed.
Lemma quiet_onCxt {A} (f : E -> A * E) c : (onCxt f c).1 <> NoFuel /\ hcMea (onCxt f c).2 = hcMea c.
Proof using Type. unfold onCxt. case_match; [|done]. by destruct (f _). Qed.
Lemma quiet_enoughBalance Msg c :
  (enoughBalance host Msg c).1 <> NoFuel /\ hcMea (enoughBalance host Msg c).2 = hcMea c.
Proof using Type.
  unfold enoughBalance. case_match; [|done]. unfold bind.
  pose proof (quiet_onCxt (get_balance host (msg_sender Msg)) c) as [H1 H2].
  destruct (onCxt _ c) as [[b|e|u|] c1]; cbn in *; try done.
  unfold lift, convToUInt128. by repeat case_match.
Qed.

Lemma quiet_onMemory {A} (m : M MemoryInstance A) : free m -> forall c : HostCtx (EVMEnvironment E),
  (onMem m c).1 <> NoFuel /\ hcMea (onMem m c).2 = hcMea c.
Proof using Type.
  intros Hm c. unfold onMem, zoom. specialize (Hm (hcMem c)). by destruct (m (hcMem c)).
Qed.
Lemma quiet_loadUInt o n (c : HostCtx (EVMEnvironment E)) :
  (loadUInt o n c).1 <> NoFuel /\ hcMea (loadUInt o n c).2 = hcMea c.
Proof using Type.
  unfold loadUInt. cbv zeta. unfold bind. set (k := if n >? 32 then 32 else n).
  destruct (quiet_onMemory (getArray o k true) (free_getArray o k true) c).
  by destruct (onMem (getArray o k true) c) as [[] ?].
Qed.

Lemma is_zero_slice a n l : is_zero l = true -> is_zero (slice a n l) = true.
Proof using Type.
  unfold is_zero, slice. rewrite <- !Is_true_true, !forallb_True. intros Hl. by apply Forall_take, Forall_drop.
Qed.

(** The host gives back at most the gas of the message: evmc.h, [gas_left]. *)
Definition host_gas_law : Prop := forall Msg w, gas_left (host_call host Msg w).1 <= msg_gas Msg.

(** The gas that is added to the message and charged to nobody. *)
Definition stipend (Msg : evmc_message) : Z :=
  if negb (is_zero (msg_value Msg)) && negb (bool_decide (msg_kind Msg = EVMC_CREATE)) then 2300 else 0.

Lemma sgn_le_wrap x : sgn 64 x <= wrap 64 x.
Proof using Type. unfold sgn. destruct (_ <? _); lia. Qed.

Lemma performCall_gas (Hlaw : host_gas_law) Msg o c mea mea0 : gas_ok mea0 -> gas_rel false mea0 mea ->
  hcMea c = Some mea -> wrap 64 (msg_gas Msg) <= getGasLeft mea -> in_s 64 (msg_gas Msg) ->
  gas_post mea0 (CostSum mea - stipend Msg) (performCall host Msg o c).
Proof using Type.
  intros Hok0 R0 Hc Hg Hs. pose proof (gas_rel_ok _ _ _ Hok0 R0) as Hok.
  pose proof (wrap_range 64 (msg_gas Msg) ltac:(lia)) as [Hg0 _]. set (g := wrap 64 (msg_gas Msg)) in *.
  pose proof (getGasLeft_ok mea Hok) as Hl.
  assert (onGas (consumeGas g) c = (Ok true, set_hcMea (Some (set_CostSum (CostSum mea + g) mea)) c)) as Hcons.
  { unfold onGas. rewrite Hc, consumeGas_spec by done. by rewrite (proj2 (Z.leb_le _ _)). }
  set (mea1 := set_CostSum (CostSum mea + g) mea) in *.
  assert (0 <= stipend Msg) by (unfold stipend; case_match; lia).
  assert (gas_rel false mea0 mea1) as R1.
  { apply gas_rel_trans with mea; [done|done|]. destruct Hok as [? ?]. subst mea1.
    unfold gas_rel. cbn. split_and!; done || lia. }
  unfold performCall. cbv zeta. rewrite (bind_Ok _ _ _ _ _ Hcons).
  set (Msg' := if _ && _ then _ else Msg).
  assert (msg_gas Msg' <= g + stipend Msg) as Hbound.
  { subst Msg'. unfold stipend. destruct (_ && _); cbn.
    - pose proof (sgn_le_wrap (msg_gas Msg + 2300)). unfold wrap at 1 in H0.
      rewrite <- Z.add_mod_idemp_l in H0 by done. fold (wrap 64 (msg_gas Msg)) in H0. fold g in H0.
      pose proof (Z.mod_le (g + 2300) (2 ^ 64) ltac:(lia) ltac:(lia)). lia.
    - rewrite <- (sgn_small 64 (msg_gas Msg)) by (done || lia).
      pose proof (sgn_le_wrap (msg_gas Msg)). fold g in H0. lia. }
  unfold bind at 1. unfold onCxt at 1. cbn [hcEnv set_hcMea].
  destruct (EVMCContext (hcEnv c)) as [w|].
  2: { split; [done|]. exists mea1. split_and!; [done|done|]. subst mea1. cbn. lia. }
  pose proof (Hlaw Msg' w) as Hleft. destruct (host_call host Msg' w) as [CallRes w']. cbn in Hleft.
  case_match.
  { split; [done|]. exists mea1. split_and!; [done|done|]. subst mea1. cbn. lia. }
  bool_to_prop. unfold bind at 1. unfold onGas at 1. cbn [hcMea set_hcEnv set_hcMea].
  pose proof (gas_rel_ok _ _ _ Hok0 R1) as Hok1.
  pose proof (returnGas_rel (gas_left CallRes) mea1 Hok1 ltac:(lia)) as R2.
  destruct (returnGas (gas_left CallRes) mea1) as [b mea2] eqn:Hret. cbn in R2.
  apply post_mono with mea2; [done|by apply gas_rel_trans with mea1|done| |gas_auto].
  unfold returnGas in Hret. subst mea1. cbn in *.
  destruct (Z.ltb_spec (CostSum mea + g) (gas_left CallRes)); simplify_eq/=; lia.
Qed.

(** What [takeTransferGas] can take. *)
Definition transfer_gas (Msg : evmc_message) : Z :=
  if is_call_or_callcode (msg_kind Msg) && negb (is_zero (msg_value Msg)) then 34000 else 0.
Definition transfer_least (Msg : evmc_message) : Z :=
  if is_call_or_callcode (msg_kind Msg) && negb (is_zero (msg_value Msg)) then 9000 else 0.

Lemma takeGas_spends g (c : HostCtx (EVMEnvironment E)) mea : gas_ok mea -> hcMea c = Some mea -> 0 <= g ->
  (takeGas g c).1 <> NoFuel /\ exists mea1, hcMea (takeGas g c).2 = Some mea1 /\ gas_rel true mea mea1 /\
  ((takeGas g c).1 = Ok tt -> CostSum mea1 = CostSum mea + g /\ g <= getGasLeft mea).
Proof using Type.
  intros Hok Hc Hg. pose proof (consumeGas_rel g mea Hok Hg) as R. unfold takeGas, bind, onGas. rewrite Hc.
  rewrite consumeGas_spec in * by done. cbn in R. destruct (Z.leb_spec g (getGasLeft mea)); cbn;
    (split; [done|]; eexists; split_and!; [done|exact R|]); [done|discriminate].
Qed.

Lemma takeTransferGas_spends Msg c mea : gas_ok mea -> hcMea c = Some mea ->
  (takeTransferGas host Msg c).1 <> NoFuel /\ exists mea1,
    hcMea (takeTransferGas host Msg c).2 = Some mea1 /\ gas_rel true mea mea1 /\
    ((takeTransferGas host Msg c).1 = Ok tt ->
     CostSum mea + transfer_least Msg <= CostSum mea1 <= CostSum mea + transfer_gas Msg).
Proof using Type.
  intros Hok Hc. unfold takeTransferGas, transfer_least, transfer_gas. case_match.
  2: { split; [done|]. exists mea. split_and!; [done|by apply gas_rel_refl|lia]. }
  rewrite bind_eq. destruct (takeGas_spends 9000 c mea Hok Hc ltac:(lia)) as (Hn & m1 & H1 & R1 & S1).
  destruct (takeGas 9000 c) as [[[]|e|u|] c1]; cbn in *; try done.
  2,3: split; [done|]; exists m1; split_and!; [done|done|discriminate].
  destruct (S1 eq_refl) as [Hs1 _].
  rewrite bind_eq. pose proof (quiet_onCxt (account_exists host (msg_destination Msg)) c1) as [Hn1 Hq1].
  destruct (onCxt _ c1) as [[b|e|u|] c2]; cbn in *; try done.
  2,3: split; [done|]; exists m1; rewrite Hq1; split_and!; [done|done|discriminate].
  destruct b.
  { split; [done|]. exists m1. cbn. rewrite Hq1. split_and!; [done|done|lia]. }
  assert (hcMea c2 = Some m1) as Hc2 by congruence.
  destruct (takeGas_spends 25000 c2 m1 (gas_rel_ok _ _ _ Hok R1) Hc2 ltac:(lia)) as (Hn2 & m2 & H2 & R2 & S2).
  split; [done|]. exists m2. split_and!; [done|by apply gas_rel_trans with m1|].
  intros Hr. destruct (S2 Hr). lia.
Qed.

(** The gas a call can hand out without taking it from the caller. *)
Definition unpaid (Msg : evmc_message) : Z := Z.max 0 (stipend Msg - transfer_least Msg).

Lemma setInput_same Msg o l c Msg1 c1 : setInput (E := E) Msg o l c = (Ok Msg1, c1) ->
  msg_kind Msg1 = msg_kind Msg /\ msg_gas Msg1 = msg_gas Msg /\ msg_value Msg1 = msg_value Msg.
Proof using Type.
  unfold setInput. case_match; [|intros [= <- _]; done]. intros Hr. inv_binds. done.
Qed.

Lemma callContract_gas (Hlaw : host_gas_law) Msg o l r c mea : gas_ok mea -> hcMea c = Some mea ->
  in_s 64 (msg_gas Msg) -> wrap 64 (msg_gas Msg) + transfer_gas Msg <= getGasLeft mea ->
  gas_post mea (CostSum mea - unpaid Msg) (callContract host Msg o l r c).
Proof using Type.
  intros Hok Hc Hin Hg. unfold callContract.
  assert (0 <= unpaid Msg) by (unfold unpaid; lia).
  pose proof (gas_rel_refl false mea Hok) as R0.
  apply post_quiet with mea; [apply quiet_getEVMCContext|done|done|done|lia|]. intros [] c1 _ Hc1.
  unfold bind at 1. unfold getEnv, gets.
  case_match; [by apply post_mono with mea; [..|lia|apply gk_ret]|].
  apply post_quiet with mea; [apply quiet_setInput|done|done|done|lia|]. intros Msg1 c2 Hm Hc2.
  destruct (setInput_same _ _ _ _ _ _ Hm) as (Hk & Hgas & Hv).
  case_match; [by apply post_mono with mea; [..|lia|apply gk_throw]|].
  destruct (takeTransferGas_spends Msg1 c2 mea Hok Hc2) as (Hn3 & mea3 & Hc3 & R3 & S3).
  unfold bind at 1. destruct (takeTransferGas host Msg1 c2) as [[[]|e|u|] c3]; cbn in Hn3, Hc3, S3; try done.
  2,3: split; [done|]; exists mea3; split_and!; [done|by apply gas_rel_weaken|destruct R3 as (_&_&?&_); lia].
  specialize (S3 eq_refl).
  assert (transfer_least Msg1 = transfer_least Msg /\ transfer_gas Msg1 = transfer_gas Msg /\
    stipend Msg1 = stipend Msg) as (E1 & E2 & E3).
  { unfold transfer_least, transfer_gas, stipend. by rewrite Hk, Hv. }
  rewrite E1, E2 in S3. pose proof (gas_rel_weaken _ _ Hok R3) as R3'.
  pose proof (gas_rel_ok _ _ _ Hok R3) as Hok3.
  assert (0 <= transfer_least Msg) by (unfold transfer_least; case_match; lia).
  apply post_quiet with mea3; [apply quiet_enoughBalance|done|done|done|lia|]. intros ok c4 _ Hc4.
  case_match; [by apply post_mono with mea3; [..|lia|apply gk_ret]|].
  pose proof (performCall_gas Hlaw Msg1 r c4 mea3 mea Hok R3' Hc4) as Hp. rewrite Hgas, E3 in Hp.
  destruct Hp as (Hn & mea' & Hm' & R' & Hlo).
  - rewrite getGasLeft_ok in * by done. destruct R3 as (_ & -> & _ & _). lia.
  - done.
  - split; [done|]. exists mea'. split_and!; [done|done|]. unfold unpaid. lia.
Qed.

(** ** The functions *)

Definition host_gas (mono : bool) (f : HostFunc (EVMEnvironment E)) : Prop :=
  forall stk mem mea env, gas_ok mea ->
  let '(r, (_, _, mea', _)) := hfRun f stk mem (Some mea) env in
  r <> NoFuel /\ exists m', mea' = Some m' /\ gas_rel mono mea m'.

Lemma hostFunction_gas mono Cost RetT Ts (body : fun_of Ts (ME unit)) :
  (forall args, tuple_ok Ts args -> gas_keeps mono (apply Ts body args)) ->
  host_gas mono (hostFunction Cost RetT Ts body).
Proof using Type.
  intros Hb stk mem mea env Hok.
  apply (hostInvoke_meter (fun o => exists m', o = Some m' /\ gas_rel mono mea m')).
  - exists mea. split; [done|]. by apply gas_rel_refl.
  - intros args c Ha Hc. by apply (Hb args Ha c mea).
Qed.

Lemma gk_weaken {A} (m : ME A) : gas_keeps true m -> gas_keeps false m.
Proof using Type.
  intros Hm c mea Hc Hok. destruct (Hm c mea Hc Hok) as (Hn & m' & H1 & R). split; [done|].
  exists m'. split; [done|]. by apply gas_rel_weaken.
Qed.

Lemma gk_staticFlag mono : gas_keeps mono staticFlag.
Proof using Type. unfold staticFlag. apply gk_gets. Qed.
#[local] Hint Resolve gk_staticFlag gk_callMessage : gas.

Lemma getCallValueEVMC_fuel (e : EVMEnvironment E) : getCallValueEVMC e <> NoFuel.
Proof using Type. apply read_range_fuel. Qed.
#[local] Hint Resolve getCallValueEVMC_fuel : gas.

(** The five functions that call or create. *)
Lemma gk_calls :
  (forall g a v d l, gas_keeps false (EEICall_body host g a v d l)) /\
  (forall g a v d l, gas_keeps false (EEICallCode_body host g a v d l)) /\
  (forall g a d l, gas_keeps false (EEICallDelegate_body host g a d l)) /\
  (forall v d l r, gas_keeps false (EEICreate_body host v d l r)).
Proof using Type.
  unfold EEICall_body, EEICallCode_body, EEICallDelegate_body, EEICreate_body, maxCallGas.
  cbv zeta. split_and!; intros; gas_auto.
Qed.

Lemma gk_callStatic g a d l : 0 <= l -> gas_keeps false (EEICallStatic_body host keccak256 g a d l).
Proof using Type. intros. unfold EEICallStatic_body. gas_auto. by apply gk_addCopyCost. Qed.

(** The functions that do not. *)
Definition calling : list string :=
  ["call"; "callCode"; "callDelegate"; "callStatic"; "create"]%string.

Lemma gk_others : Forall (fun p => p.1 ∈ calling \/ host_gas true p.2) (EEIFuncs host keccak256).
Proof using Type.
  unfold EEIFuncs. repeat (apply Forall_cons; split); [..|constructor].
  all: first [left; by apply (bool_decide_unpack _)|right].
  all: apply hostFunction_gas; cbn [tuple_ok apply]; intros args Ha.
  all: repeat match goal with H : _ /\ _ |- _ => destruct H end.
  all: repeat match goal with H : in_type _ _ |- _ => cbn -[Z.pow] in H; unfold in_u in H end.
  all: try (unfold EEILog_body; case_match; [by apply gk_throw|]; bool_to_prop).
  all: unfold EEICallDataCopy_body, EEICodeCopy_body, EEIExternalCodeCopy_body, EEIFinish_body,
    EEIGetAddress_body, EEIGetBlockCoinbase_body, EEIGetBlockDifficulty_body, EEIGetBlockGasLimit_body,
    EEIGetBlockHash_body, EEIGetBlockNumber_body, EEIGetBlockTimestamp_body, EEIGetCallDataSize_body,
    EEIGetCallValue_body, EEIGetCaller_body, EEIGetCodeSize_body, EEIGetExternalBalance_body,
    EEIGetExternalCodeSize_body, EEIGetGasLeft_body, EEIGetReturnDataSize_body, EEIGetTxGasPrice_body,
    EEIGetTxOrigin_body, EEIReturnDataCopy_body, EEIRevert_body, EEISelfDestruct_body,
    EEIStorageLoad_body, EEIStorageStore_body, EEIUseGas_body.
  all: cbv zeta; gas_auto.
  all: try (apply gk_addCopyCost; lia).
Qed.

Lemma elem_Forall {A} (P : A -> Prop) l x : Forall P l -> x ∈ l -> P x.
Proof using Type. rewrite list.Forall_forall. auto. Qed.

(** The case of the five calling functions, by their names. *)
Lemma calling_cases n f : (n, f) ∈ EEIFuncs host keccak256 -> n ∈ calling ->
  f = EEICall host \/ f = EEICallCode host \/ f = EEICallDelegate host \/
  f = EEICallStatic host keccak256 \/ f = EEICreate host.
Proof using Type.
  intros Hf Hn. revert Hn. change n with (n, f).1. change f with (n, f).2 at 2 3 4 5 6.
  revert Hf. generalize (n, f). rewrite <- list.Forall_forall. clear n f.
  unfold EEIFuncs. repeat (apply Forall_cons; split); [..|constructor]; cbn [fst snd]; intros Hn.
  all: first [solve [eauto 6]|exfalso; apply (bool_decide_eq_true_2 _) in Hn; vm_compute in Hn; discriminate].
Qed.

(** Whatever the host answers, the counters stay in order. *)
Lemma eei_host_gas n f : (n, f) ∈ EEIFuncs host keccak256 -> host_gas false f.
Proof using Type.
  intros Hf. destruct (elem_Forall _ _ _ gk_others Hf) as [Hc|Hg]; cbn in *.
  - destruct gk_calls as (H1 & H2 & H3 & H4).
    destruct (calling_cases n f Hf Hc) as [->|[->|[->|[->| ->]]]]; apply hostFunction_gas;
      cbn [tuple_ok apply]; intros args Ha; [apply H1|apply H2|apply H3| |apply H4].
    destruct Ha as (_ & _ & _ & [? _] & _). by apply gk_callStatic.
  - intros stk0 mem0 m0 env0 Hm0. specialize (Hg stk0 mem0 m0 env0 Hm0).
    destruct (hfRun _ _ _ _ _) as (r & ((? & ?) & mea') & ?). destruct Hg as (Hn & m' & -> & R).
    split; [done|]. exists m'. split; [done|]. by apply gas_rel_weaken.
Qed.

(** [C22] The gas counters stay in order.  Whatever the EVMC host answers, and whatever the
    arguments, every function of the EEI module returns with the gas limit and the cost
    table untouched and the gas used between 0 and the limit, if it started so. *)
Theorem eei_gas_invariant (n : string) (f : HostFunc (EVMEnvironment E)) stk mem mea env :
  (n, f) ∈ EEIFuncs host keccak256 -> gas_ok mea ->
  let '(r, (_, _, mea', _)) := hfRun f stk mem (Some mea) env in
  r <> NoFuel /\ exists m', mea' = Some m' /\ gas_ok m' /\ CostLimit m' = CostLimit mea /\
    CostTab m' = CostTab mea.
Proof using Type.
  intros Hf Hok. pose proof (eei_host_gas n f Hf stk mem mea env Hok) as Hg.
  destruct (hfRun _ _ _ _ _) as (r & ((? & ?) & mea') & ?).
  destruct Hg as (Hn & m' & -> & R). split; [done|]. exists m'. split; [done|].
  split; [by apply (gas_rel_ok false mea)|]. by destruct R as (? & ? & _).
Qed.

(** ** Gas is not created *)

Lemma maxCallGas_le m : gas_ok m -> 0 <= getMaxCallGas m <= getGasLeft m.
Proof using Type.
  intros Hok. pose proof (getGasLeft_ok m Hok) as Hl. destruct Hok as [? ?]. unfold getMaxCallGas.
  pose proof (Z.div_pos (getGasLeft m) 64 ltac:(lia) ltac:(lia)).
  pose proof (Z.div_le_upper_bound (getGasLeft m) 64 (getGasLeft m) ltac:(lia) ltac:(lia)). lia.
Qed.

(** The message of a call, and the rest of the body that makes it. *)
Lemma callMessage_ok k f g a v c mea Msg c1 : hcMea c = Some mea ->
  callMessage (E := E) k f g a v c = (Ok Msg, c1) ->
  hcMea c1 = Some mea /\ msg_kind Msg = k /\ msg_gas Msg = sgn 64 (Z.min g (getMaxCallGas mea)) /\
  v (hcEnv c) = Ok (msg_value Msg).
Proof using Type.
  intros Hc. unfold callMessage, getEnv, gets, maxCallGas, onGas, bind, lift. rewrite Hc.
  cbn [hcEnv set_hcMea]. destruct (getAddressEVMC _); try done.
  destruct (v (hcEnv c)) as [x| | |]; try done. intros [= <- <-]. cbn. done.
Qed.

Definition makeCall (k : evmc_call_kind) (f g : Z) (a : list Z) v (d l r : Z) : ME unit :=
  let* CallMsg := callMessage k f g a v in
  let* Res := callContract host CallMsg d l r in
  setRet Res.

Lemma makeCall_gas (Hlaw : host_gas_law) k f g a v d l r c mea : gas_ok mea -> hcMea c = Some mea ->
  (forall e, v e <> NoFuel) -> 0 <= g ->
  (forall Msg, msg_kind Msg = k -> v (hcEnv c) = Ok (msg_value Msg) ->
     Z.min g (getMaxCallGas mea) + transfer_gas Msg <= getGasLeft mea /\ unpaid Msg = 0) ->
  gas_post mea (CostSum mea) (makeCall k f g a v d l r c).
Proof using Type.
  intros Hok Hc Hv Hg Hm. unfold makeCall. pose proof (gas_rel_refl false mea Hok) as R0.
  pose proof (maxCallGas_le mea Hok) as Hmax. pose proof Hok as [[HL0 HL] Hs].
  pose proof (getGasLeft_ok mea Hok) as Hleft.
  unfold bind at 1. destruct (gk_callMessage true k f g a v Hv c mea Hc Hok) as (Hn & m1 & H1 & R1).
  destruct (callMessage k f g a v c) as [[Msg|e|u|] c1] eqn:Hmsg; cbn in Hn, H1; try done.
  2,3: split; [done|]; exists m1; split_and!; [done|by apply gas_rel_weaken|by destruct R1 as (_&_&?&_)].
  destruct (callMessage_ok _ _ _ _ _ _ _ _ _ Hc Hmsg) as (Hc1 & Hk & Hgas & Hval).
  destruct (Hm Msg Hk Hval) as [Hle Hun].
  assert (wrap 64 (msg_gas Msg) = Z.min g (getMaxCallGas mea)) as Hw.
  { rewrite Hgas, wrap_sgn, wrap_small by (done || (unfold in_u; lia)). done. }
  pose proof (callContract_gas Hlaw Msg d l r c1 mea Hok Hc1) as Hp. rewrite Hun, Z.sub_0_r, Hw in Hp.
  destruct Hp as (Hn2 & m2 & H2 & R2 & Hlo); [rewrite Hgas; by apply sgn_range|lia|].
  unfold bind. destruct (callContract host Msg d l r c1) as [[x|e|u|] c2]; cbn in *; try done;
    (split; [done|]; exists m2; by split_and!).
Qed.

Lemma post_keeps {A} (m : ME A) :
  (forall c mea, gas_ok mea -> hcMea c = Some mea -> gas_post mea (CostSum mea) (m c)) -> gas_keeps true m.
Proof using Type.
  intros Hm c mea Hc Hok. destruct (Hm c mea Hok Hc) as (Hn & m' & H1 & (T & L & S & U) & Hlo).
  split; [done|]. exists m'. split; [done|]. by split_and!.
Qed.

Lemma no_transfer k Msg : is_zero (msg_value Msg) = true \/ k = EVMC_CREATE -> msg_kind Msg = k ->
  transfer_gas Msg = 0 /\ unpaid Msg = 0.
Proof using Type.
  unfold unpaid, stipend, transfer_gas, transfer_least, is_call_or_callcode.
  intros [->| ->] ->; cbn; rewrite ?andb_false_r; done.
Qed.

Lemma keeps_callStatic (Hlaw : host_gas_law) g a d l : 0 <= g -> 0 <= l ->
  gas_keeps true (EEICallStatic_body host keccak256 g a d l).
Proof using Type.
  intros Hg Hl. unfold EEICallStatic_body. apply gk_bind; [apply gk_load|intros Addr].
  case_match; [gas_auto; by apply gk_addCopyCost|].
  apply post_keeps. intros c mea Hok Hc. apply makeCall_gas; [done..|].
  intros Msg Hk [= Hv]. destruct (no_transfer EVMC_CALL Msg) as [-> ->]; [left; by rewrite <- Hv|done|].
  pose proof (maxCallGas_le mea Hok). lia.
Qed.

Lemma keeps_create (Hlaw : host_gas_law) v d l r : gas_keeps true (EEICreate_body host v d l r).
Proof using Type.
  unfold EEICreate_body. apply gk_bind; [apply gk_load|intros Val].
  apply gk_bind; [apply gk_getEnv|intros Env]. apply post_keeps. intros c mea Hok Hc.
  pose proof (gas_rel_refl false mea Hok) as R0. pose proof (maxCallGas_le mea Hok) as Hmax.
  pose proof Hok as [[HL0 HL] Hs]. pose proof (getGasLeft_ok mea Hok) as Hleft.
  unfold bind at 1. unfold maxCallGas, onGas. rewrite Hc.
  apply post_quiet with mea; [|done|done|done|lia|].
  { intros c0. cbn. split; [apply read_range_fuel|done]. }
  intros Sender c1 _ Hc1. cbv zeta. match goal with |- context [callContract host ?m] => set (Msg := m) end.
  destruct (no_transfer EVMC_CREATE Msg) as [Ht Hu]; [by right|done|].
  assert (wrap 64 (msg_gas Msg) = getMaxCallGas mea) as Hw.
  { cbn [Msg msg_gas]. rewrite wrap_sgn, wrap_small by (done || (unfold in_u; lia)). done. }
  pose proof (callContract_gas Hlaw Msg d l r c1 mea Hok Hc1) as Hp. rewrite Hu, Ht, Z.sub_0_r, Hw in Hp.
  destruct Hp as (Hn2 & m2 & H2 & R2 & Hlo); [by apply sgn_range|lia|].
  unfold bind. destruct (callContract host Msg d l r c1) as [[x|e|u|] c2]; cbn in *; try done;
    (split; [done|]; exists m2; by split_and!).
Qed.

Lemma host_gas_metered L f : host_gas true f -> 0 <= hfCost f -> L + hfCost f < 2 ^ 64 ->
  host_metered L f.
Proof using Type.
  intros Hg H0 HL. split_and!; [done|done|]. intros stk mem m hs [Hsz Htab Hlim Hsum].
  assert (gas_ok m) as Hok by (split; [unfold in_u|]; lia).
  specialize (Hg stk mem m hs Hok). destruct (hfRun _ _ _ _ _) as (r & ((? & ?) & mea') & ?).
  destruct Hg as (Hn & m' & -> & (T & L' & S & U)). split; [done|]. exists m'. split; [done|].
  split; [|done]. split; [by rewrite T|by rewrite T|congruence|lia].
Qed.

Lemma eei_costs : Forall (fun p => 0 <= hfCost p.2 <= 32000) (EEIFuncs host keccak256).
Proof using Type. unfold EEIFuncs. repeat (apply Forall_cons; split); [..|constructor]; cbn; lia. Qed.

(** Only value transfers and delegate calls can give gas back.  Against a host that
    returns at most the gas of the message it got, every function of the EEI module but
    [call], [callCode] and [callDelegate] meets the interface of metered host functions:
    it returns, keeps the meter, and leaves at least as much gas used as it found.
    [callStatic] and [create], which hand gas to a callee, are among them. *)
Theorem eei_functions_metered (L : Z) (n : string) (f : HostFunc (EVMEnvironment E)) :
  host_gas_law -> L + 32000 < 2 ^ 64 -> (n, f) ∈ EEIFuncs host keccak256 ->
  n ∉ ["call"; "callCode"; "callDelegate"]%string -> host_metered L f.
Proof using Type.
  intros Hlaw HL Hf Hn. destruct (elem_Forall _ _ _ eei_costs Hf) as [H0 H1]; cbn in *.
  apply host_gas_metered; [|done|lia].
  destruct (elem_Forall _ _ _ gk_others Hf) as [Hc|Hg]; [|done]. cbn in Hc.
  assert (n = "callStatic"%string \/ n = "create"%string) as Hname.
  { unfold calling in Hc. rewrite !elem_of_cons in Hc. rewrite !elem_of_cons in Hn.
    pose proof (not_elem_of_nil n). tauto. }
  enough (Forall (fun p => p.1 = "callStatic"%string \/ p.1 = "create"%string -> host_gas true p.2)
    (EEIFuncs host keccak256)) as HF by (by apply (elem_Forall _ _ _ HF Hf)).
  clear - Hlaw. unfold EEIFuncs.
  repeat (apply Forall_cons; split); [..|constructor]; cbn [fst snd]; intros [E0|E0]; try discriminate E0;
    apply hostFunction_gas; cbn [tuple_ok apply]; intros args Ha.
  - destruct Ha as ([? _] & _ & _ & [? _] & _). by apply keeps_callStatic.
  - by apply keeps_create.
Qed.

(** [C23] Calls conserve gas when the charges are covered and the host keeps to evmc.h, that
    is, gives back at most the gas the message carries.  Against such a host, [call] and
    [callCode] with a gas argument that leaves room for the 34000 a value transfer can cost,
    and [callDelegate] in a call that carries no value, leave at least as much gas used as
    they found, however they end. *)
Theorem eei_calls_conserve_gas (g a v d l : Z) (c : HostCtx (EVMEnvironment E)) (mea : Measurement) :
  host_gas_law -> hcMea c = Some mea -> gas_ok mea -> 0 <= g ->
  (g + 34000 <= getGasLeft mea ->
     gas_post mea (CostSum mea) (EEICall_body host g a v d l c) /\
     gas_post mea (CostSum mea) (EEICallCode_body host g a v d l c)) /\
  (is_zero (CallValue (hcEnv c)) = true ->
     gas_post mea (CostSum mea) (EEICallDelegate_body host g a d l c)).
Proof using Type.
  intros Hlaw Hc Hok Hg. pose proof (gas_rel_refl false mea Hok) as R0. split.
  - intros Hroom.
    assert (forall k c1 Addr Val Flags, k = EVMC_CALL \/ k = EVMC_CALLCODE -> hcMea c1 = Some mea ->
      gas_post mea (CostSum mea) (makeCall k Flags g Addr (fun _ => Ok Val) d l 0 c1)) as Hmk.
    { intros k c1 Addr Val Flags Hk Hc1. apply makeCall_gas; [done..|]. intros Msg Hkm _. split.
      - unfold transfer_gas. case_match; lia.
      - unfold unpaid, stipend, transfer_least, is_call_or_callcode. rewrite Hkm.
        destruct Hk as [-> | ->]; cbn; destruct (is_zero _); done. }
    assert (forall k, k = EVMC_CALL \/ k = EVMC_CALLCODE -> gas_post mea (CostSum mea)
      ((let* Addr := loadAddress a in
        let* Val := loadUInt v 16 in
        let* Flags := staticFlag in
        makeCall k Flags g Addr (fun _ => Ok Val) d l 0) c)) as Hb.
    { intros k Hk. apply post_quiet with mea; [apply quiet_onMemory, free_getArray|done..|].
      intros Addr c1 _ Hc1. apply post_quiet with mea; [apply quiet_loadUInt|done..|].
      intros Val c2 _ Hc2. apply post_quiet with mea; [done|done..|]. intros Flags c3 _ Hc3. by apply Hmk. }
    split; apply Hb; auto.
  - intros Hz. unfold EEICallDelegate_body.
    apply post_quiet with mea; [apply quiet_onMemory, free_getArray|done..|]. intros Addr c1 H1 Hc1.
    apply post_quiet with mea; [done|done..|]. intros Flags c2 H2 Hc2.
    apply makeCall_gas; [done|done|done|apply getCallValueEVMC_fuel|done|]. intros Msg Hk Hv.
    assert (hcEnv c2 = hcEnv c) as He.
    { injection H2 as <- <-. unfold loadAddress, onMem, zoom in H1. by destruct (getArray _ _ _ _); simplify_eq/=. }
    assert (is_zero (msg_value Msg) = true) as Hmz.
    { rewrite He in Hv. unfold getCallValueEVMC, read_range in Hv. case_match; [|done]. injection Hv as <-.
      by apply is_zero_slice. }
    destruct (no_transfer EVMC_DELEGATECALL Msg) as [-> ->]; [by left|done|].
    pose proof (maxCallGas_le mea Hok). lia.
Qed.

End EEIGas.

(** ** A host for the examples

    Its state is the storage as a list of writes, the latest first; every account exists,
    owns 2^64 - 1 and has no code, so that a call gives all of its gas back. *)
Definition Ledger : Type := list (list Z * list Z * list Z).

Fixpoint ledger_get (a k : list Z) (w : Ledger) : list Z :=
  match w with
  | [] => zero_bytes32
  | (a', k', v) :: w' =>
      if bool_decide (a = a') && bool_decide (k = k') then v else ledger_get a k w'
  end.

Definition example_balance : list Z := replicate 24 0 ++ replicate 8 255.

Definition example_host : evmc_host_interface Ledger :=
  mkHostInterface Ledger
    (fun _ w => (true, w))
    (fun a k w => (ledger_get a k w, w))
    (fun a k v w => (a, k, v) :: w)
    (fun _ w => (example_balance, w))
    (fun _ w => (0, w))
    (fun _ _ n w => ((n, replicate (Z.to_nat n) 0), w))
    (fun _ _ w => w)
    (fun Msg w => (mkResult EVMC_SUCCESS (msg_gas Msg) None 0 (replicate 20 7), w))
    (fun w => (mkTx zero_bytes32 (replicate 20 1) (replicate 20 2) 3 4 5 zero_bytes32, w))
    (fun _ w => (zero_bytes32, w))
    (fun a d _ w => (a, d, []) :: w).

Definition example_hash (d : list Z) : list Z := replicate 32 (sizeZ d mod 256).

(** A call from account 9 to account 5 that carries the value 7. *)
Definition example_env : EVMEnvironment Ledger :=
  mkEVMEnv (replicate 20 9) (7 :: replicate 31 0) [10; 11; 12; 13] (replicate 20 5) [] [] 0 0
    EVMC_CALL (Some []).

Definition example_meter (used : Z) : Measurement := mkMeasure (replicate 256 1) 0 100000 used.

Lemma example_meter_ok used : 0 <= used <= 100000 -> gas_ok (example_meter used).
Proof. intros. split; [by vm_compute|done]. Qed.

Lemma example_gas_law : host_gas_law example_host.
Proof. intros Msg w. cbn. lia. Qed.

Lemma eei_gas_invariant_witness :
  let '(r, (_, _, mea', _)) := hfRun (EEICallStatic example_host example_hash)
    (StackMgr.mkStack [mkVariant U32 0; mkVariant U32 0; mkVariant U32 0; mkVariant U64 600] [] [])
    example_memory (Some (example_meter 5000)) example_env in
  r <> NoFuel /\ exists m', mea' = Some m' /\ gas_ok m' /\ CostLimit m' = 100000 /\
    CostTab m' = replicate 256 1.
Proof.
  apply (eei_gas_invariant example_host example_hash "callStatic"%string).
  - unfold EEIFuncs. do 4 right. left.
  - by apply example_meter_ok.
Defined.

Lemma eei_functions_metered_witness : host_metered 1000000 (EEICreate example_host).
Proof.
  apply (eei_functions_metered example_host example_hash 1000000 "create"%string).
  - exact example_gas_law.
  - by vm_compute.
  - unfold EEIFuncs. do 6 right. left.
  - intros Hn. apply (bool_decide_eq_true_2 _) in Hn. vm_compute in Hn. discriminate Hn.
Defined.

Definition example_ctx (used : Z) : HostCtx (EVMEnvironment Ledger) :=
  mkCtx example_memory (Some (example_meter used)) example_env None.

Lemma eei_calls_conserve_gas_witness :
  gas_post (example_meter 5000) 5000 (EEICall_body example_host 60000 0 0 0 0 (example_ctx 5000)).
Proof.
  apply (eei_calls_conserve_gas example_host 60000 0 0 0 0 (example_ctx 5000) (example_meter 5000)).
  - exact example_gas_law.
  - reflexivity.
  - by apply example_meter_ok.
  - lia.
  - by vm_compute.
Defined.
