(* ===== verification/EEIFacts.v ===== *)
(** * What the EEI functions do

    The functions against the abstract memory and the EVMC host: the integers they copy,
    storage, the fields of the message, static mode, and the gas of calls with a value. *)
From stdpp Require Import base list numbers option strings.
From Stdlib Require Import ZArith Lia.
From S2P Require Import Prelude Types Memory MemoryFacts StackMgr Runtime HostFunc HostFuncFacts.
From S2P Require Import HexStr EEI EEIGas.
#[local] Open Scope Z_scope.

(** ** Big-endian numbers *)

Definition bytes_n (n : Z) (b : list Z) : Prop := sizeZ b = n /\ Forall is_byte b.

Lemma be_combine_value bs : Forall is_byte bs -> be_combine bs = le_combine (reverse bs).
Proof.
  intros Hb. induction bs as [|b bs IH] using rev_ind; [done|].
  apply Forall_app in Hb as [Hbs Hx]. inversion Hx as [|? ? [H0 H1] _]; subst.
  unfold be_combine in *. rewrite fold_left_app, IH, reverse_snoc by done. cbn [fold_left le_combine].
  rewrite Z.lor_comm, (lor_shiftl_add _ _ 8) by lia. lia.
Qed.

Lemma clamp_32 n : n <= 32 -> (if n >? 32 then 32 else n) = n.
Proof. intros. destruct (Z.gtb_spec n 32); lia. Qed.

Lemma is_zero_replicate l : is_zero l = true -> l = replicate (length l) 0.
Proof.
  unfold is_zero. induction l as [|x l IH]; [done|]. cbn [forallb]. intros [Hx Hl]%andb_true_iff.
  apply Z.eqb_eq in Hx. subst x. cbn. f_equal. by apply IH.
Qed.

Lemma is_zero_app l1 l2 : is_zero (l1 ++ l2) = is_zero l1 && is_zero l2.
Proof. apply forallb_app. Qed.
Lemma is_zero_reverse l : is_zero (reverse l) = is_zero l.
Proof.
  induction l as [|x l IH]; [done|]. rewrite reverse_cons, is_zero_app, IH. cbn [is_zero forallb].
  by rewrite andb_true_r, andb_comm.
Qed.

Lemma le_combine_zeros bs n : le_combine (bs ++ replicate n 0) = le_combine bs.
Proof.
  induction bs as [|b bs IH]; cbn [app le_combine]; [|by rewrite IH].
  induction n as [|n IHn]; cbn [replicate le_combine]; [done|]. by rewrite IHn.
Qed.

Section Memory.
Context {E : Type}.
Implicit Types c : HostCtx (EVMEnvironment E).

(** A run that changes the memory only. *)
Lemma loadBytes_ok c off n : mem_ok (hcMem c) -> in_range (hcMem c) off n ->
  exists mem, onMem (getArray off n false) c = (Ok (mem_bytes (hcMem c) off n), set_hcMem mem c) /\
    mem ≡ hcMem c /\ mem_ok mem.
Proof.
  intros Hm Hr. destruct (getArray_ok (hcMem c) Hm off n false Hr) as (mem & Hg & He & Hok).
  exists mem. split; [|done]. by apply onMem_run.
Qed.

Lemma loadAddress_ok c off : mem_ok (hcMem c) -> in_range (hcMem c) off 20 ->
  exists mem, loadAddress off c = (Ok (mem_bytes (hcMem c) off 20), set_hcMem mem c) /\
    mem ≡ hcMem c /\ mem_ok mem.
Proof. apply loadBytes_ok. Qed.

Lemma getArray_fail (m : MemoryInstance) off n rev :
  CurrPage m * 65536 < off + n -> getArray off n rev m = (Err MemorySizeExceeded, m).
Proof. intros Hf. unfold getArray, bind. by rewrite requireDataSize_fail. Qed.

Lemma loadAddress_fail c off : CurrPage (hcMem c) * 65536 < off + 20 ->
  loadAddress off c = (Err MemorySizeExceeded, c).
Proof.
  intros Hf. unfold loadAddress. rewrite (onMem_run _ c _ _ (getArray_fail _ off 20 false Hf)). by destruct c.
Qed.

Lemma loadBytes32_ok c off : mem_ok (hcMem c) -> in_range (hcMem c) off 32 ->
  exists mem, loadBytes32 off c = (Ok (mem_bytes (hcMem c) off 32), set_hcMem mem c) /\
    mem ≡ hcMem c /\ mem_ok mem.
Proof. apply loadBytes_ok. Qed.

Lemma loadUInt_ok c off n : mem_ok (hcMem c) -> in_range (hcMem c) off n -> 0 <= n <= 32 ->
  exists mem, loadUInt off n c =
      (Ok (replicate (Z.to_nat (32 - n)) 0 ++ reverse (mem_bytes (hcMem c) off n)), set_hcMem mem c) /\
    mem ≡ hcMem c /\ mem_ok mem.
Proof.
  intros Hm Hr Hn. destruct (getArray_ok (hcMem c) Hm off n true Hr) as (mem & Hg & He & Hok).
  exists mem. split; [|done]. unfold loadUInt. rewrite clamp_32 by lia.
  rewrite (bind_Ok _ _ _ _ _ (onMem_run _ _ _ _ Hg)). done.
Qed.

Lemma storeBytes_ok c bs off rev : mem_ok (hcMem c) -> Forall is_byte bs ->
  in_range (hcMem c) off (sizeZ bs) -> 0 < sizeZ bs ->
  exists mem, onMem (setArray bs off (sizeZ bs) rev) c = (Ok tt, set_hcMem mem c) /\ mem_ok mem /\
    CurrPage mem = CurrPage (hcMem c) /\
    forall i, mem_byte mem i = mem_written (hcMem c) off (if (rev : bool) then reverse bs else bs) i.
Proof.
  intros Hm Hb Hr Hp. destruct (setArray_ok (hcMem c) Hm bs off rev Hb Hr Hp) as (mem & Hs & Hres).
  exists mem. split; [by apply onMem_run|done].
Qed.

Lemma storeUInt_ok c Src off n : mem_ok (hcMem c) -> bytes_n 32 Src -> 0 < n <= 32 ->
  in_range (hcMem c) off n -> is_zero (take (Z.to_nat (32 - n)) Src) = true ->
  exists mem, storeUInt Src off n c = (Ok tt, set_hcMem mem c) /\ mem_ok mem /\
    CurrPage mem = CurrPage (hcMem c) /\
    forall i, mem_byte mem i = mem_written (hcMem c) off (reverse (drop (Z.to_nat (32 - n)) Src)) i.
Proof.
  intros Hm [Hl Hb] Hn Hr Hz. unfold storeUInt. rewrite clamp_32, Hz by lia.
  assert (sizeZ (drop (Z.to_nat (32 - n)) Src) = n) as Hs by (unfold sizeZ in *; rewrite length_drop; lia).
  destruct (storeBytes_ok c (drop (Z.to_nat (32 - n)) Src) off true) as (mem & Hst & Hres);
    [done|by apply Forall_drop|by rewrite Hs|lia|].
  rewrite Hs in Hst. eauto.
Qed.

(** Numbers of 128 and 256 bits.  Storing a big-endian [uint256] of the host in [n]
    bytes fails without touching the memory when a higher byte is set; otherwise the [n]
    bytes are the number little endian, and loading them gives the number back. *)
Theorem uint_store_load c (Src : list Z) (off n : Z) :
  mem_ok (hcMem c) -> bytes_n 32 Src -> 0 < n <= 32 -> in_range (hcMem c) off n ->
  (is_zero (take (Z.to_nat (32 - n)) Src) = false -> storeUInt Src off n c = (Err ExecutionFailed, c)) /\
  (is_zero (take (Z.to_nat (32 - n)) Src) = true ->
   exists mem1, storeUInt Src off n c = (Ok tt, set_hcMem mem1 c) /\
     le_combine (mem_bytes mem1 off n) = be_combine Src /\
     exists mem2, loadUInt off n (set_hcMem mem1 c) = (Ok Src, set_hcMem mem2 c) /\ mem2 ≡ mem1).
Proof.
  intros Hm Hs Hn Hr. split.
  - intros Hz. unfold storeUInt. by rewrite clamp_32, Hz by lia.
  - intros Hz. destruct (storeUInt_ok c Src off n Hm Hs Hn Hr Hz) as (mem1 & Hst & Hok1 & Hp & Hw).
    exists mem1. split; [done|]. destruct Hs as [Hl Hb].
    assert (sizeZ (reverse (drop (Z.to_nat (32 - n)) Src)) = n) as Hsz
      by (unfold sizeZ in *; rewrite length_reverse, length_drop; lia).
    pose proof (mem_bytes_written _ _ _ _ Hw) as Hmb. rewrite Hsz in Hmb.
    pose proof (is_zero_replicate _ Hz) as Hrep.
    rewrite length_take in Hrep. replace (_ `min` _)%nat with (Z.to_nat (32 - n)) in Hrep
      by (unfold sizeZ in Hl; lia).
    split.
    + rewrite Hmb, be_combine_value by done.
      rewrite <- (take_drop (Z.to_nat (32 - n)) Src) at 2. rewrite Hrep, reverse_app, reverse_replicate.
      by rewrite le_combine_zeros.
    + destruct (loadUInt_ok (set_hcMem mem1 c) off n) as (mem2 & Hld & He & _); cbn; [done| |lia|].
      { destruct Hr as (? & ? & ?). unfold in_range. by rewrite Hp. }
      exists mem2. split; [|done]. rewrite Hld. cbn. rewrite Hmb, reverse_involutive, <- Hrep.
      by rewrite take_drop.
Qed.

End Memory.

Lemma uint_store_load_witness :
  exists mem1, storeUInt (replicate 30 0 ++ [1; 2]) 8 16 (example_ctx 0)
      = (Ok tt, set_hcMem mem1 (example_ctx 0)) /\
    le_combine (mem_bytes mem1 8 16) = 258 /\
    exists mem2, loadUInt 8 16 (set_hcMem mem1 (example_ctx 0))
      = (Ok (replicate 30 0 ++ [1; 2]), set_hcMem mem2 (example_ctx 0)) /\ mem2 ≡ mem1.
Proof.
  apply (uint_store_load (example_ctx 0) (replicate 30 0 ++ [1; 2]) 8 16).
  - exact example_memory_ok.
  - split; [done|]. apply Forall_app. split; [by apply Forall_replicate|repeat constructor; lia].
  - lia.
  - by vm_compute.
  - by vm_compute.
Defined.

(** ** Steps of the bodies *)

Section Steps.
Context {E : Type} (host : evmc_host_interface E).
Implicit Types c : HostCtx (EVMEnvironment E).

Lemma getEVMCContext_ok c w : EVMCContext (hcEnv c) = Some w -> getEVMCContext c = (Ok tt, c).
Proof. intros Hw. unfold getEVMCContext, bind, getEnv, gets. by rewrite Hw. Qed.

Lemma onCxt_ok {A} (f : E -> A * E) c w a w' : EVMCContext (hcEnv c) = Some w -> f w = (a, w') ->
  onCxt f c = (Ok a, set_hcEnv (setEVMCContext w' (hcEnv c)) c).
Proof. intros Hw Hf. unfold onCxt. by rewrite Hw, Hf. Qed.

Lemma takeGas_ok g c mea : hcMea c = Some mea -> gas_ok mea -> 0 <= g <= getGasLeft mea ->
  takeGas g c = (Ok tt, set_hcMea (Some (set_CostSum (CostSum mea + g) mea)) c).
Proof.
  intros Hc Hok Hg. unfold takeGas, bind, onGas. rewrite Hc, consumeGas_spec by (done || lia).
  by rewrite (proj2 (Z.leb_le _ _)) by lia.
Qed.

Lemma getAddressEVMC_ok (e : EVMEnvironment E) : sizeZ (Address e) = 20 -> getAddressEVMC e = Ok (Address e).
Proof.
  intros Hl. unfold getAddressEVMC, read_range. rewrite (proj2 (Z.leb_le _ _)) by lia. f_equal.
  unfold slice, sizeZ in *. rewrite drop_0. apply take_ge. lia.
Qed.

Lemma set_hcMem_id c : set_hcMem (hcMem c) c = c.
Proof. by destruct c. Qed.

End Steps.

(** Reads the next step of a body off the hypothesis that gives its result. *)
Ltac step H := rewrite (bind_Ok _ _ _ _ _ H).

(** ** Storage *)

(** What a host promises about the storage of accounts: reading is without effect, and
    gives the value written last. *)
Class StorageLaws {E} (host : evmc_host_interface E) : Prop := {
  storage_read a k w : (get_storage host a k w).2 = w;
  storage_same a k v w : (get_storage host a k (set_storage host a k v w)).1 = v;
  storage_other a k a' k' v w : (a, k) <> (a', k') ->
    (get_storage host a k (set_storage host a' k' v w)).1 = (get_storage host a k w).1 }.

#[export] Instance example_storage : StorageLaws example_host.
Proof.
  split; [done|..].
  - intros a k v w. cbn. by rewrite !bool_decide_eq_true_2.
  - intros a k a' k' v w Hne. cbn. destruct (decide (a = a')) as [->|]; [|by rewrite bool_decide_eq_false_2].
    destruct (decide (k = k')) as [->|]; [done|]. by rewrite bool_decide_eq_true_2, bool_decide_eq_false_2.
Qed.

Section Storage.
Context {E : Type} (host : evmc_host_interface E) `{!StorageLaws host}.
Implicit Types c : HostCtx (EVMEnvironment E).

(** A context in which the account may write its storage. *)
Record storage_ctx c (w : E) (mea : Measurement) : Prop := mk_storage_ctx {
  sc_cxt : EVMCContext (hcEnv c) = Some w;
  sc_addr : sizeZ (Address (hcEnv c)) = 20;
  sc_flag : Z.land (Flag (hcEnv c)) EVMC_STATIC = 0;
  sc_mea : hcMea c = Some mea;
  sc_gas : gas_ok mea;
  sc_room : 15000 <= getGasLeft mea;
  sc_mem : mem_ok (hcMem c) }.

(** What a store costs beyond its fixed price: 15000 when it makes a zero value nonzero. *)
Definition store_cost (Old New : list Z) : Z := if is_zero Old && negb (is_zero New) then 15000 else 0.

Lemma storageStore_ok c w mea p v : storage_ctx c w mea ->
  in_range (hcMem c) p 32 -> in_range (hcMem c) v 32 ->
  let Path := mem_bytes (hcMem c) p 32 in
  let Value := mem_bytes (hcMem c) v 32 in
  exists mem, mem ≡ hcMem c /\ mem_ok mem /\
    EEIStorageStore_body host p v c =
    (Ok tt, mkCtx mem
       (Some (set_CostSum (CostSum mea +
          store_cost (get_storage host (Address (hcEnv c)) Path w).1 Value) mea))
       (setEVMCContext (set_storage host (Address (hcEnv c)) Path Value w) (hcEnv c)) (hcRet c)).
Proof using All.
  intros [Hw Ha Hf Hc Hg Hroom Hm] Hp Hv Path Value. unfold EEIStorageStore_body.
  step (getEVMCContext_ok c w Hw). unfold bind at 1. unfold getEnv, gets.
  rewrite Hf. cbn [Z.eqb negb]. unfold bind at 1. rewrite (getAddressEVMC_ok _ Ha). cbn [lift].
  destruct (loadBytes32_ok c p Hm Hp) as (m1 & Hl1 & E1 & Hm1). step Hl1.
  destruct (loadBytes32_ok (set_hcMem m1 c) v) as (m2 & Hl2 & E2 & Hm2); cbn; [done|by rewrite E1|].
  step Hl2. cbn [hcMem set_hcMem]. rewrite (mem_bytes_equiv _ _ v 32 E1). fold Path. fold Value.
  set (Old := (get_storage host (Address (hcEnv c)) Path w).1).
  assert (get_storage host (Address (hcEnv c)) Path w = (Old, w)) as Hget.
  { subst Old. pose proof (storage_read (Address (hcEnv c)) Path w) as Hr. by destruct (get_storage _ _ _ _); cbn in *; subst. }
  match goal with |- context [bind _ _ ?c2] => set (c2' := c2) end.
  step (onCxt_ok (get_storage host (Address (hcEnv c)) Path) c2' w Old w Hw Hget).
  exists m2. split; [by rewrite E2|]. split; [done|]. unfold store_cost. destruct (is_zero Old && _).
  - match goal with |- context [bind _ _ ?c3] => set (c3' := c3) end.
    step (takeGas_ok 15000 c3' mea Hc Hg ltac:(lia)).
    rewrite (onCxt_ok _ _ w tt (set_storage host (Address (hcEnv c)) Path Value w)); done.
  - unfold bind, ret. rewrite (onCxt_ok _ _ w tt (set_storage host (Address (hcEnv c)) Path Value w)) by done.
    rewrite Z.add_0_r. subst c2'. destruct mea. unfold set_hcEnv, set_hcMem; cbn in *. by rewrite Hc.
Qed.

Lemma storageLoad_ok c w p r Value : EVMCContext (hcEnv c) = Some w -> sizeZ (Address (hcEnv c)) = 20 ->
  mem_ok (hcMem c) -> in_range (hcMem c) p 32 -> in_range (hcMem c) r 32 ->
  (get_storage host (Address (hcEnv c)) (mem_bytes (hcMem c) p 32) w).1 = Value -> bytes_n 32 Value ->
  exists mem, EEIStorageLoad_body host p r c = (Ok tt, set_hcMem mem (set_hcEnv (setEVMCContext w (hcEnv c)) c)) /\
    mem_ok mem /\ CurrPage mem = CurrPage (hcMem c) /\
    forall i, mem_byte mem i = mem_written (hcMem c) r Value i.
Proof using All.
  intros Hw Ha Hm Hp Hr Hval [Hl Hb]. unfold EEIStorageLoad_body.
  step (getEVMCContext_ok c w Hw). unfold bind at 1. unfold getEnv, gets.
  unfold bind at 1. rewrite (getAddressEVMC_ok _ Ha). cbn [lift].
  destruct (loadBytes32_ok c p Hm Hp) as (m1 & Hl1 & E1 & Hm1). step Hl1.
  assert (get_storage host (Address (hcEnv c)) (mem_bytes (hcMem c) p 32) w = (Value, w)) as Hget.
  { pose proof (storage_read (Address (hcEnv c)) (mem_bytes (hcMem c) p 32) w) as Hread.
    by destruct (get_storage _ _ _ _); cbn in *; subst. }
  step (onCxt_ok (get_storage host (Address (hcEnv c)) (mem_bytes (hcMem c) p 32)) (set_hcMem m1 c) w _ w Hw Hget).
  set (c2 := set_hcEnv _ _).
  destruct (storeBytes_ok c2 Value r false) as (m2 & Hs & Hok2 & Hp2 & Hb2);
    [done|done|by rewrite Hl; cbn; rewrite E1|lia|].
  rewrite Hl in Hs. exists m2. split; [exact Hs|]. split; [done|]. destruct E1 as (_ & _ & _ & Hcp & Hbyte).
  split; [by rewrite Hp2|]. intros i. rewrite Hb2. unfold mem_written. cbn. by rewrite Hbyte.
Qed.

(** Storage reads back.  With gas for it and outside of static mode, [storageStore]
    writes the 32 bytes at [v] under the 32 bytes at [p] for the executing account,
    charges 15000 exactly when a zero value becomes nonzero, and changes nothing else; a
    [storageLoad] of the same path then puts those bytes at [r]. *)
Theorem storage_store_load c (w : E) (mea : Measurement) (p v r : Z) :
  storage_ctx c w mea -> in_range (hcMem c) p 32 -> in_range (hcMem c) v 32 -> in_range (hcMem c) r 32 ->
  let Path := mem_bytes (hcMem c) p 32 in
  let Value := mem_bytes (hcMem c) v 32 in
  exists c1, EEIStorageStore_body host p v c = (Ok tt, c1) /\ hcMem c1 ≡ hcMem c /\
    EVMCContext (hcEnv c1) = Some (set_storage host (Address (hcEnv c)) Path Value w) /\
    hcMea c1 = Some (set_CostSum (CostSum mea +
      store_cost (get_storage host (Address (hcEnv c)) Path w).1 Value) mea) /\
    exists c2, EEIStorageLoad_body host p r c1 = (Ok tt, c2) /\ mem_bytes (hcMem c2) r 32 = Value.
Proof using All.
  intros Hctx Hp Hv Hr Path Value.
  destruct (storageStore_ok c w mea p v Hctx Hp Hv) as (m1 & E1 & Hm1 & Hst). cbv zeta in Hst.
  fold Path Value in Hst. eexists. split; [exact Hst|]. do 3 (split; [done|]).
  destruct Hctx as [Hw Ha Hf Hc Hg Hroom Hm].
  assert (bytes_n 32 Value) as HV
    by (split; [by apply length_mem_bytes|by apply mem_bytes_are_bytes]).
  match goal with |- exists c2, EEIStorageLoad_body host p r ?c1 = _ /\ _ =>
    destruct (storageLoad_ok c1 (set_storage host (Address (hcEnv c)) Path Value w) p r Value)
      as (m2 & Hld & _ & _ & Hw2) end; cbn; [done|done|done|by rewrite E1|by rewrite E1| |done|].
  - rewrite (mem_bytes_equiv _ _ p 32 E1). apply storage_same.
  - eexists. split; [exact Hld|]. cbn. destruct HV as [Hl _]. rewrite <- Hl.
    exact (mem_bytes_written _ _ _ _ Hw2).
Qed.

End Storage.

Lemma storage_store_load_witness :
  exists c1, EEIStorageStore_body example_host 0 32 (example_ctx 5000) = (Ok tt, c1) /\
    exists c2, EEIStorageLoad_body example_host 0 64 c1 = (Ok tt, c2) /\
      mem_bytes (hcMem c2) 64 32 = replicate 32 0.
Proof.
  destruct (storage_store_load example_host (example_ctx 5000) [] (example_meter 5000) 0 32 64)
    as (c1 & H1 & _ & _ & _ & c2 & H2 & H3).
  - split; try reflexivity; [by apply example_meter_ok|by vm_compute|exact example_memory_ok].
  - by vm_compute.
  - by vm_compute.
  - by vm_compute.
  - exists c1. split; [exact H1|]. exists c2. split; [exact H2|exact H3].
Defined.

(** ** Static mode *)

Section Static.
Context {E : Type} (host : evmc_host_interface E).
Implicit Types c : HostCtx (EVMEnvironment E).
#[local] Abbreviation ME := (M (HostCtx (EVMEnvironment E))).

(** A computation that leaves the environment, and with it the EVMC context, alone. *)
Definition env_keeps {A} (m : ME A) : Prop := forall c, hcEnv (m c).2 = hcEnv c.

Lemma ek_bind {A B} (m : ME A) (k : A -> ME B) c :
  env_keeps m -> (forall a c1, m c = (Ok a, c1) -> hcEnv (k a c1).2 = hcEnv c1) ->
  hcEnv (bind m k c).2 = hcEnv c.
Proof.
  intros Hm Hk. specialize (Hm c). unfold bind. destruct (m c) as [[a|e|u|] c1] eqn:Em; cbn in *; try done.
  rewrite <- Hm. by apply Hk.
Qed.

Lemma ek_onMem {A} (m : M MemoryInstance A) : env_keeps (onMem m).
Proof. intros c. unfold onMem, zoom. by destruct (m (hcMem c)). Qed.
Lemma ek_onGas {A} (f : Measurement -> A * Measurement) : env_keeps (onGas f).
Proof. intros c. unfold onGas. destruct (hcMea c); [|done]. by destruct (f _). Qed.
Lemma ek_getEVMCContext : env_keeps getEVMCContext.
Proof. intros c. unfold getEVMCContext, bind, getEnv, gets. by case_match. Qed.
Lemma ek_loadUInt o n : env_keeps (loadUInt o n).
Proof. intros c. unfold loadUInt. cbv zeta. by apply ek_bind; [apply ek_onMem|]. Qed.
Lemma ek_loadAddress o : env_keeps (loadAddress o).
Proof. apply ek_onMem. Qed.
Lemma ek_setInput Msg o l : env_keeps (setInput Msg o l).
Proof. intros c. unfold setInput. case_match; [|done]. by apply ek_bind; [apply ek_onMem|]. Qed.
Lemma ek_callMessage k f g a v : env_keeps (callMessage k f g a v).
Proof.
  intros c. unfold callMessage. apply ek_bind; [done|intros Env c1 _].
  apply ek_bind; [apply ek_onGas|intros MaxGas c2 _]. apply ek_bind; [done|intros Snd c3 _].
  by apply ek_bind.
Qed.

(** The messages static mode forbids. *)
Definition writes (Msg : evmc_message) : Prop :=
  msg_kind Msg = EVMC_CREATE \/ (msg_kind Msg = EVMC_CALL /\ is_zero (msg_value Msg) = false).

Lemma callContract_static Msg o l r c : writes Msg -> Z.land (Flag (hcEnv c)) EVMC_STATIC <> 0 ->
  hcEnv (callContract host Msg o l r c).2 = hcEnv c /\
  forall x, (callContract host Msg o l r c).1 = Ok x -> x = 1.
Proof.
  intros Hw Hf. unfold callContract.
  assert (forall c1, hcEnv c1 = hcEnv c -> (let* Msg1 := setInput Msg o l in
      if (bool_decide (msg_kind Msg1 = EVMC_CREATE) ||
        (bool_decide (msg_kind Msg1 = EVMC_CALL) && negb (is_zero (msg_value Msg1)))) &&
       negb (Z.land (Flag (hcEnv c)) EVMC_STATIC =? 0)
      then throw ExecutionFailed
      else
        takeTransferGas host Msg1 ;;;
        let* ok := enoughBalance host Msg1 in
        if negb ok then ret 1 else performCall host Msg1 r) c1 =
    (let* _ := setInput Msg o l in throw ExecutionFailed) c1) as Heq.
  { intros c1 Hc1. unfold bind at 1. unfold bind at 3.
    destruct (setInput Msg o l c1) as [[Msg1|e|u|] c2] eqn:Hs; try done.
    destruct (setInput_same _ _ _ _ _ _ Hs) as (Hk & _ & Hv). rewrite Hk, Hv.
    rewrite (proj2 (Z.eqb_neq _ _) Hf).
    destruct Hw as [-> | [-> ->]]; cbn; done. }
  rewrite bind_eq. pose proof (ek_getEVMCContext c) as Hg.
  destruct (getEVMCContext c) as [[[]|e|u|] c1]; cbn in Hg; try done.
  rewrite bind_eq. unfold getEnv, gets. case_match; [by split; [|intros x [= <-]]|].
  rewrite Hg, Heq by done.
  split; [rewrite <- Hg; by apply ek_bind; [apply ek_setInput|]|].
  intros x. unfold bind. by destruct (setInput Msg o l c1) as [[] ?].
Qed.

Lemma makeCall_static g a v d l c : Z.land (Flag (hcEnv c)) EVMC_STATIC <> 0 ->
  is_zero v = false ->
  hcEnv ((let* Flags := staticFlag in
          let* Msg := callMessage EVMC_CALL Flags g a (fun _ => Ok v) in
          let* Res := callContract host Msg d l 0 in setRet Res) c).2 = hcEnv c.
Proof.
  intros Hf Hv. apply ek_bind; [done|]. intros Flags c1 H1. injection H1 as <- <-.
  apply ek_bind; [apply ek_callMessage|]. intros Msg c2 H2.
  assert (writes Msg /\ hcEnv c2 = hcEnv c) as [Hw He].
  { pose proof (ek_callMessage EVMC_CALL (Z.land (Flag (hcEnv c)) EVMC_STATIC) g a (fun _ => Ok v) c) as Hek.
    rewrite H2 in Hek. split; [|done]. right.
    unfold callMessage, getEnv, gets, maxCallGas, onGas, bind, lift in H2.
    destruct (hcMea c); [|done]. destruct (getAddressEVMC _); try done. by injection H2 as <- _. }
  destruct (callContract_static Msg d l 0 c2 Hw) as [Hc _]; [by rewrite He|].
  unfold bind. by destruct (callContract host Msg d l 0 c2) as [[] ?].
Qed.

(** [C33] Static mode protects storage, creation and transfers.  In a context with the
    static flag, [storageStore] fails, [create] and a [call] whose 16-byte value is not zero
    leave the environment and the EVMC context exactly as they were, whatever the
    arguments: no contract is called, created or written. *)
Theorem static_mode_guards c (w : E) (g a p v d l r : Z) :
  EVMCContext (hcEnv c) = Some w -> Z.land (Flag (hcEnv c)) EVMC_STATIC <> 0 ->
  EEIStorageStore_body host p v c = (Err ExecutionFailed, c) /\
  hcEnv (EEICreate_body host v d l r c).2 = hcEnv c /\
  (mem_ok (hcMem c) -> in_u 32 a -> in_range (hcMem c) v 16 ->
   is_zero (mem_bytes (hcMem c) v 16) = false ->
   hcEnv (EEICall_body host g a v d l c).2 = hcEnv c).
Proof.
  intros Hw Hf. split_and!.
  - unfold EEIStorageStore_body. step (getEVMCContext_ok c w Hw). unfold bind at 1. unfold getEnv, gets.
    by rewrite (proj2 (Z.eqb_neq _ _) Hf).
  - unfold EEICreate_body. apply ek_bind; [apply ek_loadUInt|]. intros Val c1 H1.
    assert (hcEnv c1 = hcEnv c) as He1 by (pose proof (ek_loadUInt v 16 c) as Hk; by rewrite H1 in Hk).
    apply ek_bind; [done|]. intros Env c2 H2. injection H2 as <- <-.
    apply ek_bind; [apply ek_onGas|]. intros MaxGas c3 H3.
    assert (hcEnv c3 = hcEnv c1) as He3
      by (pose proof (ek_onGas (fun m => (getMaxCallGas m, m)) c1) as Hk; unfold maxCallGas in H3; by rewrite H3 in Hk).
    apply ek_bind; [done|]. intros Sender c4 H4.
    assert (c4 = c3) as -> by (unfold lift in H4; by simplify_eq).
    cbv zeta. match goal with |- context [callContract host ?m] => set (Msg := m) end.
    destruct (callContract_static Msg d l r c3) as [Hc _]; [by left|by rewrite He3, He1|].
    unfold bind. by destruct (callContract host Msg d l r c3) as [[] ?].
  - intros Hm Ha Hr Hz. unfold EEICall_body.
    destruct (decide (CurrPage (hcMem c) * 65536 < a + 20)) as [Hout|Hin].
    { unfold bind at 1. by rewrite (loadAddress_fail c a Hout). }
    destruct (loadAddress_ok c a Hm) as (m1 & Hla & Em1 & Hm1).
    { destruct Hm as ((? & ?) & _). unfold in_range, in_u, page_limit in *. lia. }
    step Hla. destruct (loadUInt_ok (set_hcMem m1 c) v 16) as (m2 & Hld & Em2 & Hm2); [done|cbn; by rewrite Em1|lia|].
    step Hld. cbn [hcMem set_hcMem]. rewrite (mem_bytes_equiv _ _ v 16 Em1).
    pose proof (makeCall_static g (mem_bytes (hcMem c) a 20)
      (replicate (Z.to_nat (32 - 16)) 0 ++ reverse (mem_bytes (hcMem c) v 16)) d l
      (set_hcMem m2 (set_hcMem m1 c)) Hf) as Hmk.
    apply Hmk. by rewrite is_zero_app, is_zero_reverse, Hz, andb_false_r.
Qed.

End Static.

Lemma static_mode_guards_witness :
  let c := mkCtx example_memory (Some (example_meter 0))
    (mkEVMEnv (replicate 20 9) zero_bytes32 [] (replicate 20 5) [] [] 0 1 EVMC_CALL (Some [])) None in
  EEIStorageStore_body example_host 0 32 c = (Err ExecutionFailed, c) /\
  hcEnv (EEICreate_body example_host 32 0 0 0 c).2 = hcEnv c.
Proof.
  intros c. destruct (static_mode_guards example_host c [] 0 0 0 32 0 0 0) as (H1 & H2 & _).
  - reflexivity.
  - discriminate.
  - split; [exact H1|exact H2].
Defined.

(** ** Copying from the environment *)

(** The price of copying [n] bytes. *)
Definition copy_cost (n : Z) : Z := 3 * ((n + 31) / 32).

Section Copy.
Context {E : Type}.
Implicit Types c : HostCtx (EVMEnvironment E).

(** The shape the three copying functions share. *)
Definition copy_from (Source : EVMEnvironment E -> list Z) (ResultOffset DataOffset Length : Z)
    : M (HostCtx (EVMEnvironment E)) unit :=
  addCopyCost Length ;;;
  let* Env := getEnv in
  onMem (setBytes (Source Env) ResultOffset DataOffset Length).

Lemma copy_ok Source c mea ro d l : hcMea c = Some mea -> gas_ok mea -> copy_cost l <= getGasLeft mea ->
  mem_ok (hcMem c) -> Forall is_byte (Source (hcEnv c)) -> in_range (hcMem c) ro l -> 0 < l -> 0 <= d ->
  d + l <= sizeZ (Source (hcEnv c)) -> d + l < 2 ^ 32 ->
  exists mem, copy_from Source ro d l c =
      (Ok tt, mkCtx mem (Some (set_CostSum (CostSum mea + copy_cost l) mea)) (hcEnv c) (hcRet c)) /\
    mem_ok mem /\ forall i, mem_byte mem i = mem_written (hcMem c) ro (slice d l (Source (hcEnv c))) i.
Proof.
  intros Hc Hok Hg Hm Hb Hr Hl Hd Hsz Hw. unfold copy_from.
  assert (0 <= copy_cost l) by (unfold copy_cost; pose proof (Z.div_pos (l + 31) 32 ltac:(lia) ltac:(lia)); lia).
  step (takeGas_ok (copy_cost l) c mea Hc Hok ltac:(lia)). unfold bind, getEnv, gets. cbn [hcEnv set_hcMea].
  destruct (setBytes_slice_ok (hcMem c) Hm (Source (hcEnv c)) ro d l) as (mem & Hset & Hmok & _ & Hwr);
    [done..|left; lia|].
  exists mem. split; [|done]. by rewrite (onMem_run _ (set_hcMea _ c) _ _ Hset).
Qed.

Lemma copy_short Source c mea ro d l : hcMea c = Some mea -> gas_ok mea -> copy_cost l <= getGasLeft mea ->
  mem_ok (hcMem c) -> in_range (hcMem c) ro l -> 0 <= d ->
  sizeZ (Source (hcEnv c)) < d + l -> d + l < 2 ^ 32 ->
  (copy_from Source ro d l c).1 = Err AccessForbidMemory /\
  hcMem (copy_from Source ro d l c).2 ≡ hcMem c.
Proof.
  intros Hc Hok Hg Hm Hr Hd Hsz Hw. unfold copy_from.
  assert (0 <= copy_cost l).
  { unfold copy_cost. destruct Hr as (_ & ? & _). pose proof (Z.div_pos (l + 31) 32 ltac:(lia) ltac:(lia)); lia. }
  step (takeGas_ok (copy_cost l) c mea Hc Hok ltac:(lia)). unfold bind, getEnv, gets. cbn [hcEnv set_hcMea].
  destruct (setBytes_slice_short (hcMem c) Hm (Source (hcEnv c)) ro d l Hr Hd Hw) as (m1 & Hset & He & _);
    [by left|].
  by rewrite (onMem_run _ (set_hcMea _ c) _ _ Hset).
Qed.

(** Call data, code and return data are copied as asked.  With gas for it, each of the
    three copying functions charges 3 for every started 32 bytes and writes exactly the
    requested part of its source at the requested place, every other byte of the memory
    unchanged; a part that reaches past the source is refused and writes nothing. *)
Theorem copy_functions_correct c (mea : Measurement) (ro d l : Z) :
  hcMea c = Some mea -> gas_ok mea -> copy_cost l <= getGasLeft mea -> mem_ok (hcMem c) ->
  in_range (hcMem c) ro l -> 0 < l -> 0 <= d -> d + l < 2 ^ 32 ->
  Forall (fun p : (EVMEnvironment E -> list Z) * (Z -> Z -> Z -> M (HostCtx (EVMEnvironment E)) unit) =>
    Forall is_byte (p.1 (hcEnv c)) ->
    (d + l <= sizeZ (p.1 (hcEnv c)) ->
     exists mem, p.2 ro d l c =
       (Ok tt, mkCtx mem (Some (set_CostSum (CostSum mea + copy_cost l) mea)) (hcEnv c) (hcRet c)) /\
       forall i, mem_byte mem i = mem_written (hcMem c) ro (slice d l (p.1 (hcEnv c))) i) /\
    (sizeZ (p.1 (hcEnv c)) < d + l ->
     (p.2 ro d l c).1 = Err AccessForbidMemory /\ hcMem (p.2 ro d l c).2 ≡ hcMem c))
    [ (CallData, EEICallDataCopy_body); (Code, EEICodeCopy_body); (ReturnData, EEIReturnDataCopy_body) ].
Proof.
  intros Hc Hok Hg Hm Hr Hl Hd Hw.
  assert (forall Source, Forall is_byte (Source (hcEnv c)) ->
    (d + l <= sizeZ (Source (hcEnv c)) ->
     exists mem, copy_from Source ro d l c =
       (Ok tt, mkCtx mem (Some (set_CostSum (CostSum mea + copy_cost l) mea)) (hcEnv c) (hcRet c)) /\
       forall i, mem_byte mem i = mem_written (hcMem c) ro (slice d l (Source (hcEnv c))) i) /\
    (sizeZ (Source (hcEnv c)) < d + l ->
     (copy_from Source ro d l c).1 = Err AccessForbidMemory /\
     hcMem (copy_from Source ro d l c).2 ≡ hcMem c)) as Hall.
  { intros Source Hb. split.
    - intros Hsz. destruct (copy_ok Source c mea ro d l) as (mem & H1 & _ & H2); try done. eauto.
    - intros Hsz. by apply (copy_short Source c mea ro d l). }
  repeat (apply Forall_cons; split); [exact (Hall CallData)|exact (Hall Code)|exact (Hall ReturnData)|constructor].
Qed.

End Copy.

Lemma copy_functions_correct_witness :
  exists mem, EEICallDataCopy_body 100 1 2 (example_ctx 0) =
      (Ok tt, mkCtx mem (Some (example_meter 3)) example_env None) /\
    forall i, mem_byte mem i = mem_written example_memory 100 [11; 12] i.
Proof.
  pose proof (copy_functions_correct (example_ctx 0) (example_meter 0) 100 1 2) as H.
  apply Forall_inv in H; [apply H| ..].
  all: try done; try lia; try (by vm_compute); try exact example_memory_ok.
  repeat constructor; lia.
Defined.

(** ** Gas out of nothing *)

Section Mint.
Context {E : Type} (host : evmc_host_interface E).
Implicit Types c : HostCtx (EVMEnvironment E).

(** A host on which a call to an account without code succeeds and spends nothing. *)
Definition codeless : Prop := forall Msg w, exists a w',
  host_call host Msg w = (mkResult EVMC_SUCCESS (msg_gas Msg) None 0 a, w').

(** A context in which a call gets to the host. *)
Record call_ctx c (w : E) (mea : Measurement) : Prop := mk_call_ctx {
  cc_cxt : EVMCContext (hcEnv c) = Some w;
  cc_addr : sizeZ (Address (hcEnv c)) = 20;
  cc_depth : 0 <= Depth (hcEnv c) < 1024;
  cc_mea : hcMea c = Some mea;
  cc_gas : gas_ok mea;
  cc_limit : CostLimit mea < 2 ^ 62 }.

(** The call itself: the callee gets the stipend on top of what the caller paid. *)
Lemma performCall_codeless (Hh : codeless) Msg o c w mea g :
  EVMCContext (hcEnv c) = Some w -> hcMea c = Some mea -> gas_ok mea -> CostLimit mea < 2 ^ 62 ->
  msg_gas Msg = g -> 0 <= g < 2 ^ 62 -> is_zero (msg_value Msg) = false -> msg_kind Msg <> EVMC_CREATE ->
  exists w', performCall host Msg o c = (Ok 0, mkCtx (hcMem c)
    (Some (returnGas (g + 2300) (consumeGas g mea).2).2)
    (set_ReturnData [] (setEVMCContext w' (hcEnv c))) (hcRet c)).
Proof.
  intros Hw Hc Hok HL Hg Hgr Hv Hk. unfold performCall. cbv zeta.
  rewrite Hv, bool_decide_eq_false_2, Hg by done. cbn [negb andb].
  rewrite wrap_small by (unfold in_u; lia). rewrite sgn_small by (unfold in_s; lia).
  unfold bind at 1. unfold onGas at 1. rewrite Hc. destruct (consumeGas g mea) as [b mea1] eqn:Hcons.
  destruct (Hh (set_msg_gas (g + 2300) Msg) w) as (a & w' & Hcall).
  step (onCxt_ok (host_call host (set_msg_gas (g + 2300) Msg)) (set_hcMea (Some mea1) c) w _ w' Hw Hcall).
  cbn [gas_left msg_gas set_msg_gas status_code].
  destruct (Z.ltb_spec (g + 2300) 0); [lia|]. unfold bind at 1. unfold onGas. cbn [hcMea set_hcEnv set_hcMea].
  destruct (returnGas (g + 2300) mea1) as [b2 mea2] eqn:Hret. cbn [snd]. rewrite Hret.
  unfold takeReturnData. rewrite bool_decide_eq_false_2 by done. cbn [andb].
  exists w'. done.
Qed.

(** The contract call without input data, up to the transfer gas. *)
Lemma callContract_delegate (Hh : codeless) Msg d r c w mea g : call_ctx c w mea ->
  msg_kind Msg = EVMC_DELEGATECALL -> is_zero (msg_value Msg) = false -> msg_gas Msg = g -> 0 <= g < 2 ^ 62 ->
  exists w', callContract host Msg d 0 r c = (Ok 0, mkCtx (hcMem c)
    (Some (returnGas (g + 2300) (consumeGas g mea).2).2)
    (set_ReturnData [] (setEVMCContext w' (hcEnv c))) (hcRet c)).
Proof.
  intros [Hw Ha Hd Hc Hok HL] Hk Hv Hg Hgr. unfold callContract. step (getEVMCContext_ok c w Hw).
  unfold bind at 1. unfold getEnv, gets. destruct (Z.leb_spec 1024 (Depth (hcEnv c))); [lia|].
  unfold bind at 1. cbn [setInput Z.ltb Z.compare ret]. rewrite Hk. cbn [andb orb bool_decide].
  unfold takeTransferGas, enoughBalance, is_call_or_callcode. rewrite Hk. cbn.
  apply (performCall_codeless Hh Msg r c w mea g); try done. by rewrite Hk.
Qed.

Lemma delegate_message k f g a c mea v : hcMea c = Some mea -> gas_ok mea -> CostLimit mea < 2 ^ 62 -> 0 <= g ->
  sizeZ (Address (hcEnv c)) = 20 ->
  forall Val, v (hcEnv c) = Ok Val ->
  callMessage k f g a v c = (Ok (mkMsg k f (nextDepth (hcEnv c)) (Z.min g (getMaxCallGas mea)) a
    (Address (hcEnv c)) None 0 Val), c).
Proof.
  intros Hc Hok HL Hg Ha Val Hv. unfold callMessage, getEnv, gets, maxCallGas, onGas, bind. rewrite Hc.
  cbn [hcEnv set_hcMea]. rewrite (getAddressEVMC_ok _ Ha). cbn [lift]. rewrite Hv. unfold ret.
  pose proof (maxCallGas_le mea Hok). pose proof (getGasLeft_ok mea Hok). destruct Hok as [_ ?].
  rewrite sgn_small by (unfold in_s; lia). by destruct c; cbn in *; subst.
Qed.

(** A delegate call mints gas.  In a call that carries a value, [callDelegate] to an
    account without code succeeds and leaves the caller with 2300 more gas than before: the
    stipend is added because the value of the message is not zero, but no transfer gas is
    taken for a delegate call.  The function costs 700, so each call gains 1600. *)
Theorem delegate_call_mints_gas c (w : E) (mea : Measurement) (g a d : Z) :
  codeless -> call_ctx c w mea -> 0 <= g -> 2300 <= CostSum mea ->
  mem_ok (hcMem c) -> in_range (hcMem c) a 20 ->
  sizeZ (CallValue (hcEnv c)) = 32 -> is_zero (CallValue (hcEnv c)) = false ->
  exists c', EEICallDelegate_body host g a d 0 c = (Ok tt, c') /\ hcRet c' = Some 0 /\
    hcMea c' = Some (set_CostSum (CostSum mea - 2300) mea) /\ hfCost (EEICallDelegate host) = 700.
Proof.
  intros Hh Hctx Hg Hsum Hm Hr Hvl Hvz. pose proof Hctx as [Hw Ha Hd Hc Hok HL].
  unfold EEICallDelegate_body. destruct (loadAddress_ok c a Hm Hr) as (m1 & Hla & _ & _). step Hla.
  unfold bind at 1. unfold staticFlag, gets. set (c1 := set_hcMem m1 c).
  assert (getCallValueEVMC (hcEnv c1) = Ok (CallValue (hcEnv c))) as Hval.
  { unfold getCallValueEVMC, read_range. cbn [c1 hcEnv set_hcMem].
    rewrite (proj2 (Z.leb_le _ _)) by lia. f_equal. unfold slice, sizeZ in *. rewrite drop_0. apply take_ge. lia. }
  rewrite (bind_Ok _ _ _ _ _ (delegate_message _ _ g _ c1 mea _ Hc Hok HL Hg Ha _ Hval)).
  set (x := Z.min g (getMaxCallGas mea)). set (Msg := mkMsg _ _ _ _ _ _ _ _ _).
  pose proof (maxCallGas_le mea Hok). pose proof (getGasLeft_ok mea Hok) as Hleft. pose proof Hok as [_ ?].
  destruct (callContract_delegate Hh Msg d 0 c1 w mea x) as (w' & Hcall); try done; [lia|].
  step Hcall. eexists. split; [done|]. split; [done|]. split; [|done]. cbn [hcMea set_hcRet setRet modify].
  f_equal. rewrite consumeGas_spec by (done || lia). rewrite (proj2 (Z.leb_le _ _)) by lia.
  unfold returnGas. cbn [snd CostSum set_CostSum]. destruct (Z.ltb_spec (CostSum mea + x) (x + 2300)); [lia|].
  cbn [snd set_CostSum]. unfold set_CostSum. cbn. f_equal. lia.
Qed.

End Mint.

Lemma example_codeless : codeless example_host.
Proof. intros Msg w. by eexists _, _. Qed.

Lemma delegate_call_mints_gas_witness :
  exists c', EEICallDelegate_body example_host 1000 0 0 0 (example_ctx 5000) = (Ok tt, c') /\
    hcMea c' = Some (example_meter 2700).
Proof.
  destruct (delegate_call_mints_gas example_host (example_ctx 5000) [] (example_meter 5000) 1000 0 0)
    as (c' & H1 & _ & H2 & _).
  - exact example_codeless.
  - split; try reflexivity; [cbn; lia|by apply example_meter_ok].
  - lia.
  - cbn. lia.
  - exact example_memory_ok.
  - by vm_compute.
  - reflexivity.
  - reflexivity.
  - exists c'. split; [exact H1|exact H2].
Defined.

Section MintValue.
Context {E : Type} (host : evmc_host_interface E).
Implicit Types c : HostCtx (EVMEnvironment E).

(** Every account exists and owns at least [b], and asking changes nothing. *)
Definition wealthy (b : Z) : Prop :=
  (forall a w, account_exists host a w = (true, w)) /\
  (forall a w, exists Bal x, get_balance host a w = (Bal, w) /\ convToUInt128 Bal = Ok x /\ b <= x).

Lemma setEVMCContext_same (e : EVMEnvironment E) w : EVMCContext e = Some w -> setEVMCContext w e = e.
Proof. intros Hw. destruct e. unfold setEVMCContext. cbn in *. by rewrite Hw. Qed.

Lemma onCxt_same {A} (f : E -> A * E) c w a : EVMCContext (hcEnv c) = Some w -> f w = (a, w) ->
  onCxt f c = (Ok a, c).
Proof.
  intros Hw Hf. rewrite (onCxt_ok f c w a w Hw Hf), setEVMCContext_same by done. by destruct c.
Qed.

Lemma callContract_value (Hh : codeless host) Msg d r c w mea g b : call_ctx c w mea -> wealthy b ->
  msg_kind Msg = EVMC_CALL -> is_zero (msg_value Msg) = false -> convToUInt128 (msg_value Msg) = Ok b ->
  msg_gas Msg = g -> 0 <= g < 2 ^ 62 -> Z.land (Flag (hcEnv c)) EVMC_STATIC = 0 ->
  9000 <= getGasLeft mea ->
  exists w', callContract host Msg d 0 r c = (Ok 0, mkCtx (hcMem c)
    (Some (returnGas (g + 2300) (consumeGas g (set_CostSum (CostSum mea + 9000) mea)).2).2)
    (set_ReturnData [] (setEVMCContext w' (hcEnv c))) (hcRet c)).
Proof.
  intros [Hw Ha Hd Hc Hok HL] [Hex Hbal] Hk Hv Hval Hg Hgr Hf Hroom.
  unfold callContract. step (getEVMCContext_ok c w Hw).
  unfold bind at 1. unfold getEnv, gets. destruct (Z.leb_spec 1024 (Depth (hcEnv c))); [lia|].
  unfold bind at 1. cbn [setInput Z.ltb Z.compare ret]. rewrite Hk, Hv, Hf. cbn [Z.eqb negb andb].
  rewrite andb_false_r. set (c1 := set_hcMea (Some (set_CostSum (CostSum mea + 9000) mea)) c).
  assert (takeTransferGas host Msg c = (Ok tt, c1)) as Ht.
  { unfold takeTransferGas, is_call_or_callcode. rewrite Hk, Hv. cbn [negb andb orb bool_decide].
    rewrite bool_decide_eq_true_2 by done. cbn [orb andb].
    step (takeGas_ok 9000 c mea Hc Hok ltac:(lia)).
    by rewrite (bind_Ok _ _ _ _ _ (onCxt_same (account_exists host (msg_destination Msg)) c1 w true Hw (Hex _ w))). }
  step Ht. destruct (Hbal (msg_sender Msg) w) as (Bal & x & Hb1 & Hb2 & Hb3).
  assert (enoughBalance host Msg c1 = (Ok true, c1)) as He.
  { unfold enoughBalance, is_call_or_callcode. rewrite Hk, Hv. rewrite bool_decide_eq_true_2 by done. cbn [orb andb negb].
    rewrite (bind_Ok _ _ _ _ _ (onCxt_same (get_balance host (msg_sender Msg)) c1 w Bal Hw Hb1)).
    unfold bind, lift. rewrite Hb2, Hval. unfold ret. by rewrite (proj2 (Z.ltb_ge x b)). }
  step He. cbn [negb].
  pose proof (getGasLeft_ok mea Hok) as Hleft. destruct Hok as [Hok1 Hok2].
  apply (performCall_codeless host Hh Msg r c1 w (set_CostSum (CostSum mea + 9000) mea) g); try done.
  - split; [done|]. cbn. lia.
  - by rewrite Hk.
Qed.

(** A value transfer mints gas.  The gas of the message is computed from what is left
    before the 9000 of the transfer are taken, and when the rest does not cover it the
    failed [consumeGas] is ignored.  So a caller with between 9000 and 147200 gas left who
    sends a value, with any gas argument that large, to an existing account without code
    gets back all but a 64th of it plus 2300, more than it had. *)
Theorem value_call_mints_gas c (w : E) (mea : Measurement) (g a v d b : Z) :
  codeless host -> wealthy b -> call_ctx c w mea -> Z.land (Flag (hcEnv c)) EVMC_STATIC = 0 ->
  mem_ok (hcMem c) -> in_range (hcMem c) a 20 -> in_range (hcMem c) v 16 ->
  0 < le_combine (mem_bytes (hcMem c) v 16) <= b ->
  9000 <= getGasLeft mea < 147200 -> getGasLeft mea <= g -> 2300 <= CostSum mea ->
  exists c' mea', EEICall_body host g a v d 0 c = (Ok tt, c') /\ hcRet c' = Some 0 /\
    hcMea c' = Some mea' /\ getGasLeft mea' = getGasLeft mea - getGasLeft mea / 64 + 2300 /\
    getGasLeft mea < getGasLeft mea'.
Proof.
  intros Hh [Hex Hbal] Hctx Hf Hm Hra Hrv Hval Hl Hg Hsum. pose proof Hctx as [Hw Ha Hd Hc Hok HL].
  unfold EEICall_body. destruct (loadAddress_ok c a Hm Hra) as (m1 & Hla & Em1 & Hm1). step Hla.
  destruct (loadUInt_ok (set_hcMem m1 c) v 16) as (m2 & Hld & Em2 & Hm2); [done|cbn; by rewrite Em1|lia|].
  step Hld. cbn [hcMem set_hcMem]. rewrite (mem_bytes_equiv _ _ v 16 Em1).
  set (Val := replicate (Z.to_nat (32 - 16)) 0 ++ reverse (mem_bytes (hcMem c) v 16)).
  pose proof (length_mem_bytes (hcMem c) v 16 ltac:(lia)) as Hlen.
  pose proof (mem_bytes_are_bytes (hcMem c) v 16 Hm) as Hbytes.
  assert (is_zero Val = false) as Hnz.
  { subst Val. rewrite is_zero_app, is_zero_reverse. destruct (is_zero (mem_bytes _ v 16)) eqn:Hz; [|apply andb_false_r].
    pose proof (is_zero_replicate _ Hz) as Hrep. rewrite Hrep, <- (app_nil_l (replicate _ _)), le_combine_zeros in Hval.
    cbn in Hval. lia. }
  assert (convToUInt128 Val = Ok (le_combine (mem_bytes (hcMem c) v 16))) as Hconv.
  { unfold convToUInt128. subst Val. change (Z.to_nat (32 - 16)) with 16%nat.
    rewrite take_app_length' by by rewrite length_replicate.
    rewrite drop_app_length' by by rewrite length_replicate.
    cbn [is_zero forallb replicate]. rewrite be_combine_value by (by apply Forall_reverse). by rewrite reverse_involutive. }
  unfold bind at 1. unfold staticFlag, gets. set (c1 := set_hcMem m2 (set_hcMem m1 c)).
  pose proof (getGasLeft_ok mea Hok) as Hleft. pose proof (maxCallGas_le mea Hok) as Hmax. pose proof Hok as [HL1 HL2].
  rewrite (bind_Ok _ _ _ _ _ (delegate_message _ _ g _ c1 mea _ Hc Hok HL ltac:(lia) Ha Val eq_refl)).
  rewrite (Z.min_r g) by lia. set (x := getMaxCallGas mea) in *. set (Msg := mkMsg _ _ _ _ _ _ _ _ _).
  destruct (callContract_value Hh Msg d 0 c1 w mea x (le_combine (mem_bytes (hcMem c) v 16))) as (w' & Hcall); try done.
  { split; [done|]. intros a0 w0. destruct (Hbal a0 w0) as (Bal & y & ? & ? & ?). exists Bal, y. split_and!; [done|done|lia]. }
  { lia. } { lia. }
  step Hcall.
  assert (getGasLeft mea / 64 < 2300) by (apply Z.div_lt_upper_bound; lia).
  assert (x = getGasLeft mea - getGasLeft mea / 64) as Hx by done.
  assert ((returnGas (x + 2300) (consumeGas x (set_CostSum (CostSum mea + 9000) mea)).2).2 =
    set_CostSum (CostLimit mea - (x + 2300)) mea) as Hmea.
  { rewrite consumeGas_spec; [|split; [done|cbn; lia]|lia].
    rewrite getGasLeft_ok by (split; [done|cbn; lia]). cbn [CostLimit CostSum set_CostSum snd].
    rewrite (proj2 (Z.leb_gt _ _)) by lia. unfold returnGas. cbn [CostSum set_CostSum].
    destruct (Z.ltb_spec (CostLimit mea) (x + 2300)); [lia|done]. }
  eexists _, _. split; [done|]. split; [done|]. split; [cbn [hcMea set_hcRet setRet modify]; by rewrite Hmea|].
  rewrite getGasLeft_ok by (split; [done|cbn; lia]). cbn [CostLimit CostSum set_CostSum]. lia.
Qed.

End MintValue.

Lemma value_call_mints_gas_witness :
  exists c' mea', EEICall_body example_host 200000 0 100 0 0
      (mkCtx (mkMemory false 1 0 1 (replicate 100 0 ++ [5] ++ replicate 100 0))
         (Some (example_meter 60000)) example_env None) = (Ok tt, c') /\
    hcMea c' = Some mea' /\ getGasLeft mea' = 41675.
Proof.
  destruct (value_call_mints_gas example_host
    (mkCtx (mkMemory false 1 0 1 (replicate 100 0 ++ [5] ++ replicate 100 0))
       (Some (example_meter 60000)) example_env None) [] (example_meter 60000) 200000 0 100 0 5)
    as (c' & mea' & H1 & _ & H2 & H3 & _).
  - exact example_codeless.
  - split; [done|]. intros a w. exists example_balance, (2 ^ 64 - 1). split_and!; [done|by vm_compute|lia].
  - split; try reflexivity; [cbn; lia|by apply example_meter_ok].
  - reflexivity.
  - split; [unfold page_limit; cbn; lia|]. split; [|vm_compute; discriminate].
    cbn [Data hcMem]. rewrite !Forall_app. split_and!; [by apply Forall_replicate|repeat constructor; lia|by apply Forall_replicate].
  - by vm_compute.
  - by vm_compute.
  - by vm_compute.
  - by vm_compute.
  - by vm_compute.
  - cbn. lia.
  - exists c', mea'. split; [exact H1|]. split; [exact H2|]. rewrite H3. reflexivity.
Defined.

(** ** The message of the call *)

Lemma le_combine_take n bs : Forall is_byte bs ->
  le_combine (take n bs) = le_combine bs mod 2 ^ (8 * Z.of_nat n).
Proof.
  intros Hb. revert n. induction Hb as [|b bs Hb0 Hb IH]; intros [|n]; cbn [take le_combine].
  - by rewrite Z.mod_1_r.
  - symmetry. apply Z.mod_0_l, Z.pow_nonzero; lia.
  - by rewrite Z.mod_1_r.
  - rewrite IH. replace (8 * Z.of_nat (S n)) with (8 + 8 * Z.of_nat n) by lia.
    rewrite Z.pow_add_r by lia. change (2 ^ 8) with 256. unfold is_byte in Hb0.
    pose proof (Z.pow_pos_nonneg 2 (8 * Z.of_nat n) ltac:(lia) ltac:(lia)). rewrite Z.rem_mul_r by lia.
    rewrite (Z.mul_comm 256 (le_combine bs)), Z_mod_plus_full, Z.div_add by lia.
    rewrite (Z.mod_small b 256), (Z.div_small b 256) by lia. by rewrite Z.add_0_l.
Qed.

Definition message_ok (Msg : evmc_message) : Prop :=
  bytes_n 20 (msg_sender Msg) /\ bytes_n 20 (msg_destination Msg) /\ bytes_n 32 (msg_value Msg) /\
  match msg_input_data Msg with
  | Some d => Forall is_byte d /\ 0 <= msg_input_size Msg <= sizeZ d
  | None => True
  end.

Section Message.
Context {E : Type}.
Implicit Types c : HostCtx (EVMEnvironment E).

Lemma setEVMCMessage_ok Msg m (e : EVMEnvironment E) : message_ok Msg ->
  exists e', setEVMCMessage Msg m e = Ok (set_CostLimit (wrap 64 (msg_gas Msg)) m, e') /\
    Caller e' = msg_sender Msg /\ Address e' = msg_destination Msg /\
    CallValue e' = reverse (msg_value Msg) /\ ReturnData e' = [] /\ EVMCContext e' = EVMCContext e /\
    CallData e' = match msg_input_data Msg with Some d => take (Z.to_nat (msg_input_size Msg)) d | None => [] end.
Proof.
  intros (Hs & Hd & Hv & Hi). unfold setEVMCMessage. destruct (msg_input_data Msg) as [d|].
  2: { eexists. by split_and!. }
  destruct Hi as [_ Hi]. destruct (Z.ltb_spec 0 (msg_input_size Msg)).
  - unfold read_range. rewrite (proj2 (Z.leb_le _ _)) by lia. eexists. by split_and!.
  - eexists. split_and!; [done..|]. cbn. by replace (msg_input_size Msg) with 0 by lia.
Qed.

Lemma setBytes_run c (Slice : list Z) off n : mem_ok (hcMem c) -> Forall is_byte Slice ->
  in_range (hcMem c) off n -> 0 < n <= sizeZ Slice -> sizeZ Slice < 2 ^ 32 ->
  exists mem, onMem (setBytes Slice off 0 n) c = (Ok tt, set_hcMem mem c) /\ mem_ok mem /\
    mem_bytes mem off n = take (Z.to_nat n) Slice.
Proof.
  intros Hm Hb Hr Hn Hs. destruct (setBytes_slice_ok (hcMem c) Hm Slice off 0 n) as (mem & Hset & Hok & _ & Hw);
    [done|done|lia|lia|lia|left; lia|].
  exists mem. split; [by apply onMem_run|]. split; [done|].
  assert (slice 0 n Slice = take (Z.to_nat n) Slice) as Hsl by (unfold slice; by rewrite drop_0).
  rewrite Hsl in Hw. pose proof (mem_bytes_written _ _ _ _ Hw) as Hmb.
  unfold sizeZ at 1 in Hmb. rewrite length_take in Hmb.
  by replace (Z.of_nat (Z.to_nat n `min` length Slice)) with n in Hmb by (unfold sizeZ in *; lia).
Qed.

(** The contract sees the message.  After [setEVMCMessage] with a well-formed message,
    [getCaller] and [getAddress] write the sender and the destination, and [getCallValue]
    writes the low 16 bytes of the big-endian value, little endian.  But the value a
    delegate call passes on is the whole value with its bytes reversed. *)
Theorem message_visible c (Msg : evmc_message) (m m' : Measurement) (e : EVMEnvironment E) (off : Z) :
  message_ok Msg -> setEVMCMessage Msg m e = Ok (m', hcEnv c) ->
  mem_ok (hcMem c) -> in_range (hcMem c) off 20 ->
  (exists mem, EEIGetCaller_body off c = (Ok tt, set_hcMem mem c) /\ mem_bytes mem off 20 = msg_sender Msg) /\
  (exists mem, EEIGetAddress_body off c = (Ok tt, set_hcMem mem c) /\
     mem_bytes mem off 20 = msg_destination Msg) /\
  (exists mem, EEIGetCallValue_body off c = (Ok tt, set_hcMem mem c) /\
     le_combine (mem_bytes mem off 16) = be_combine (msg_value Msg) mod 2 ^ 128) /\
  getCallValueEVMC (hcEnv c) = Ok (reverse (msg_value Msg)).
Proof.
  intros Hmsg Hset Hm Hr. destruct (setEVMCMessage_ok Msg m e Hmsg) as (e' & Hs & Hcl & Had & Hcv & _).
  rewrite Hset in Hs. injection Hs as -> He. rewrite <- He in *.
  destruct Hmsg as ([Hsl Hsb] & [Hdl Hdb] & [Hvl Hvb] & _).
  assert (forall Slice n, Forall is_byte Slice -> 0 < n <= 20 -> n <= sizeZ Slice -> sizeZ Slice < 2 ^ 32 ->
    exists mem, onMem (setBytes Slice off 0 n) c = (Ok tt, set_hcMem mem c) /\
      mem_bytes mem off n = take (Z.to_nat n) Slice) as Hw.
  { intros Slice n Hb Hn Hn' Hsz. destruct (setBytes_run c Slice off n) as (mem & H1 & _ & H2); try done; try lia.
    - unfold in_range in *. lia.
    - eauto. }
  split_and!.
  - destruct (Hw (Caller (hcEnv c)) 20) as (mem & H1 & H2); rewrite ?Hcl; [done|lia|lia|lia|].
    exists mem. split; [exact H1|]. rewrite H2, Hcl. apply take_ge. unfold sizeZ in *. lia.
  - destruct (Hw (Address (hcEnv c)) 20) as (mem & H1 & H2); rewrite ?Had; [done|lia|lia|lia|].
    exists mem. split; [exact H1|]. rewrite H2, Had. apply take_ge. unfold sizeZ in *. lia.
  - assert (sizeZ (reverse (msg_value Msg)) = 32) as Hrl by (unfold sizeZ in *; by rewrite length_reverse).
    destruct (Hw (CallValue (hcEnv c)) 16) as (mem & H1 & H2); rewrite ?Hcv;
      [by apply Forall_reverse|lia|lia|lia|].
    exists mem. split; [exact H1|]. rewrite H2, Hcv, be_combine_value by done.
    apply le_combine_take. unfold sizeZ in Hrl. by apply Forall_reverse.
  - unfold getCallValueEVMC, read_range. rewrite Hcv.
    assert (sizeZ (reverse (msg_value Msg)) = 32) as Hrl by (unfold sizeZ in *; by rewrite length_reverse).
    rewrite (proj2 (Z.leb_le _ _)) by lia. f_equal. unfold slice. rewrite drop_0. apply take_ge.
    unfold sizeZ in Hrl. lia.
Qed.

End Message.

Definition example_message : evmc_message :=
  mkMsg EVMC_CALL 0 1 50000 (replicate 20 5) (replicate 20 9) None 0 (replicate 30 0 ++ [1; 2]).

Lemma message_visible_witness :
  exists e', setEVMCMessage example_message (example_meter 0) example_env = Ok (set_CostLimit 50000 (example_meter 0), e') /\
    exists mem, EEIGetCallValue_body 40 (mkCtx example_memory None e' None)
        = (Ok tt, set_hcMem mem (mkCtx example_memory None e' None)) /\
      le_combine (mem_bytes mem 40 16) = 258.
Proof.
  eexists. split; [reflexivity|].
  match goal with |- exists mem, EEIGetCallValue_body 40 ?c = _ /\ _ =>
    destruct (message_visible c example_message (example_meter 0) (set_CostLimit 50000 (example_meter 0))
      example_env 40) as (_ & _ & (mem & H1 & H2) & _) end.
  - split_and!; try split; try done; rewrite ?Forall_app; try split; try (by apply Forall_replicate);
      repeat constructor; lia.
  - reflexivity.
  - exact example_memory_ok.
  - by vm_compute.
  - exists mem. split; [exact H1|]. rewrite H2. by vm_compute.
Defined.

(** ** Where the functions go wrong *)

Section Wrong.
Context {E : Type} (host : evmc_host_interface E).
Implicit Types c : HostCtx (EVMEnvironment E).

Lemma getBytes_run c off n : mem_ok (hcMem c) -> in_range (hcMem c) off n ->
  exists mem, onMem (getBytes off n) c = (Ok (mem_bytes (hcMem c) off n), set_hcMem mem c) /\
    mem ≡ hcMem c /\ mem_ok mem.
Proof.
  intros Hm Hr. destruct (getBytes_ok (hcMem c) Hm off n Hr) as (mem & Hg & He & Hok).
  exists mem. split; [by apply onMem_run|done].
Qed.

(** A log without topics, up to the call of the host. *)
Lemma log_run c w mea o l t1 t2 t3 t4 : EVMCContext (hcEnv c) = Some w -> sizeZ (Address (hcEnv c)) = 20 ->
  hcMea c = Some mea -> gas_ok mea -> 0 <= 8 * l <= getGasLeft mea ->
  mem_ok (hcMem c) -> in_range (hcMem c) o l ->
  exists c1, EEILog_body host o l 0 t1 t2 t3 t4 c =
    (front_of (mem_bytes (hcMem c) o l) ;;;
     onCxt (fun w => (tt, emit_log host (Address (hcEnv c)) (mem_bytes (hcMem c) o l) [] w))) c1 /\
    hcEnv c1 = hcEnv c.
Proof.
  intros Hw Ha Hc Hok Hg Hm Hr. unfold EEILog_body. cbn [Z.gtb Z.compare].
  step (takeGas_ok (375 * 0 + 8 * l) c mea Hc Hok ltac:(lia)).
  match goal with |- context [bind _ _ ?c1] => set (c1' := c1) end.
  step (getEVMCContext_ok c1' w Hw). unfold bind at 1 2 3 4.
  cbn [loadTopic ret Z.leb Z.eqb Z.compare].
  destruct (getBytes_run c1' o l Hm Hr) as (m1 & Hgb & _). unfold bind at 1. rewrite Hgb.
  unfold bind at 1. unfold getEnv, gets. unfold bind at 1.
  rewrite (getAddressEVMC_ok (hcEnv (set_hcMem m1 c1')) Ha). cbn [lift]. eexists. split; [reflexivity|done].
Qed.

(** Static mode does not protect logs and self-destruction.  Whatever the flag, [log]
    emits its data for the executing account and [selfDestruct] destroys it: in a static
    context both change the state of the host. *)
Theorem static_mode_unguarded c (w : E) (mea : Measurement) (o l a : Z) :
  EVMCContext (hcEnv c) = Some w -> sizeZ (Address (hcEnv c)) = 20 ->
  hcMea c = Some mea -> gas_ok mea -> mem_ok (hcMem c) ->
  Z.land (Flag (hcEnv c)) EVMC_STATIC <> 0 ->
  (in_range (hcMem c) o l -> 0 < l -> 8 * l <= getGasLeft mea ->
   exists c', EEILog_body host o l 0 0 0 0 0 c = (Ok tt, c') /\
     EVMCContext (hcEnv c') = Some (emit_log host (Address (hcEnv c)) (mem_bytes (hcMem c) o l) [] w)) /\
  (in_range (hcMem c) a 20 -> (forall b v, account_exists host b v = (true, v)) ->
   exists c', EEISelfDestruct_body host a c = (Err Terminated, c') /\
     EVMCContext (hcEnv c') =
       Some (selfdestruct host (Address (hcEnv c)) (mem_bytes (hcMem c) a 20) w)).
Proof.
  intros Hw Ha Hc Hok Hm _. split.
  - intros Hr Hl Hg. destruct (log_run c w mea o l 0 0 0 0 Hw Ha Hc Hok ltac:(lia) Hm Hr) as (c1 & -> & He).
    unfold front_of. rewrite length_mem_bytes, (proj2 (Z.eqb_neq l 0)) by lia. unfold bind, ret.
    rewrite (onCxt_ok _ c1 w tt (emit_log host (Address (hcEnv c)) (mem_bytes (hcMem c) o l) [] w));
      [|by rewrite He|done].
    eexists. split; [reflexivity|]. done.
  - intros Hr Hex. unfold EEISelfDestruct_body. step (getEVMCContext_ok c w Hw).
    destruct (loadAddress_ok c a Hm Hr) as (m1 & Hla & _ & _). step Hla.
    unfold bind at 1. unfold getEnv, gets. unfold bind at 1.
    rewrite (getAddressEVMC_ok (hcEnv (set_hcMem m1 c)) Ha). cbn [lift].
    rewrite (bind_Ok _ _ _ _ _ (onCxt_same (account_exists host _) (set_hcMem m1 c) w true Hw (Hex _ w))).
    unfold bind at 1. cbn [ret].
    rewrite (bind_Ok _ _ _ _ _ (onCxt_ok (fun w0 => (tt, selfdestruct host _ _ w0)) (set_hcMem m1 c) w tt _ Hw eq_refl)).
    eexists. split; [reflexivity|]. done.
Qed.

(** Empty buffers are undefined.  A [log] without data and an [externalCodeCopy] of no
    bytes take the address of the first element of an empty vector. *)
Theorem empty_buffer_undefined c (w : E) (mea : Measurement) (o a r k : Z) :
  EVMCContext (hcEnv c) = Some w -> sizeZ (Address (hcEnv c)) = 20 ->
  hcMea c = Some mea -> gas_ok mea -> mem_ok (hcMem c) ->
  in_range (hcMem c) o 0 -> in_range (hcMem c) a 20 ->
  (EEILog_body host o 0 0 0 0 0 0 c).1 = Undef UB_vector /\
  (EEIExternalCodeCopy_body host a r k 0 c).1 = Undef UB_vector.
Proof.
  intros Hw Ha Hc Hok Hm Hr Hra. pose proof (getGasLeft_ok mea Hok) as Hl. pose proof Hok as [_ ?]. split.
  - destruct (log_run c w mea o 0 0 0 0 0 Hw Ha Hc Hok ltac:(lia) Hm Hr) as (c1 & -> & He). done.
  - unfold EEIExternalCodeCopy_body, addCopyCost. change (3 * ((0 + 31) / 32)) with 0.
    step (takeGas_ok 0 c mea Hc Hok ltac:(lia)).
    match goal with |- context [bind _ _ ?c1] => set (c1' := c1) end.
    step (getEVMCContext_ok c1' w Hw).
    destruct (loadAddress_ok c1' a Hm Hra) as (m1 & Hla & _ & _). by step Hla.
Qed.

(** A failed call reads its result before it is set.  When the address a [call] is
    given lies past the memory, the body returns its error without assigning the result,
    and the template pushes the uninitialised variable. *)
Theorem failed_call_undefined (stk : StackManager) (rest : list ValVariant) (mem : MemoryInstance)
    (mea : option Measurement) (env : EVMEnvironment E) (g a v d l : Z) :
  ValueStack stk = reverse [mkVariant U64 g; mkVariant U32 a; mkVariant U32 v; mkVariant U32 d;
                            mkVariant U32 l] ++ rest ->
  in_u 32 a -> CurrPage mem * 65536 < a + 20 ->
  (hfRun (EEICall host) stk mem mea env).1 = Undef UB_indet.
Proof.
  intros Hs Ha Hout. cbn [EEICall hostFunction hfRun].
  set (args := (wrap 64 g, (a, (wrap 32 v, (wrap 32 d, (wrap 32 l, tt)))))).
  rewrite (hostInvoke_ok (Some U32) [U64; U32; U32; U32; U32] (EEICall_body host)
    [mkVariant U64 g; mkVariant U32 a; mkVariant U32 v; mkVariant U32 d; mkVariant U32 l] rest args
    stk mem mea env (Err MemorySizeExceeded) (mkCtx mem mea env None)); [done| |done|done|].
  - cbn -[wrap]. unfold to_bits. cbn [bits sizeof]. subst args.
    rewrite (wrap_wrap 64 64), !(wrap_wrap 32 32) by (split; [by vm_compute|done]). by rewrite (wrap_small 32 a).
  - cbn [apply args fst snd]. unfold EEICall_body, bind at 1. by rewrite loadAddress_fail.
Qed.

End Wrong.

(** A static context with one page of memory. *)
Definition static_ctx : HostCtx (EVMEnvironment Ledger) :=
  mkCtx example_memory (Some (example_meter 0))
    (mkEVMEnv (replicate 20 9) zero_bytes32 [] (replicate 20 5) [] [] 0 1 EVMC_CALL (Some [])) None.

Lemma static_mode_unguarded_witness :
  exists c', EEILog_body example_host 0 3 0 0 0 0 0 static_ctx = (Ok tt, c') /\
    EVMCContext (hcEnv c') = Some [(replicate 20 5, [0; 0; 0], [])].
Proof.
  apply (static_mode_unguarded example_host static_ctx [] (example_meter 0) 0 3 0); try reflexivity.
  all: try (by apply example_meter_ok); try exact example_memory_ok; try discriminate; try lia;
    by vm_compute.
Defined.

Lemma empty_buffer_undefined_witness :
  (EEILog_body example_host 7 0 0 0 0 0 0 static_ctx).1 = Undef UB_vector.
Proof.
  apply (empty_buffer_undefined example_host static_ctx [] (example_meter 0) 7 0 0 0); try reflexivity.
  all: try (by apply example_meter_ok); try exact example_memory_ok; by vm_compute.
Defined.

Lemma failed_call_undefined_witness :
  (hfRun (EEICall example_host)
    (mkStack [mkVariant U32 0; mkVariant U32 0; mkVariant U32 0; mkVariant U32 65530; mkVariant U64 9] [] [])
    example_memory None example_env).1 = Undef UB_indet.
Proof.
  apply (failed_call_undefined example_host _ [] _ _ _ 9 65530 0 0 0); [reflexivity|by vm_compute|by vm_compute].
Defined.
