(* ===== verification/Wasi.v ===== *)
(** * The WASI functions: include/host/wasi/*.h, lib/host/wasi/{wasienv,wasifunc,wasimodule}.cpp

    The operating system the functions call is a parameter: a record of functions that pass
    its state along.  The constants of the system are those of Linux, the [__WASI_]
    constants those of thirdparty/wasi/core.h. *)
From stdpp Require Import base list numbers option strings.
From Stdlib Require Import ZArith Lia.
From S2P Require Import Prelude Types Memory Runtime HostFunc.
#[local] Open Scope Z_scope.

(** ** The system calls

    A pointer argument is null or refers to the memory instance.  [sys_read] gives the
    number it returns and the bytes it stores; [sys_fstat] gives [st_mode], or fails. *)
Record OS (X : Type) : Type := mkOS {
  sys_close : Z -> X -> Z * X;
  sys_fstat : Z -> X -> option Z * X;
  sys_getfl : Z -> X -> Z * X;
  sys_read : Z -> bool -> Z -> X -> (Z * list Z) * X;
  sys_write : Z -> option (list Z) -> Z -> X -> Z * X;
  sys_lseek : Z -> Z -> Z -> X -> Z * X;
  sys_open : list Z -> Z -> Z -> X -> Z * X;
  sys_environ : X -> list (list Z) }.
Arguments sys_close {X} o. Arguments sys_fstat {X} o. Arguments sys_getfl {X} o.
Arguments sys_read {X} o. Arguments sys_write {X} o. Arguments sys_lseek {X} o.
Arguments sys_open {X} o. Arguments sys_environ {X} o.

Definition S_IFMT : Z := 61440.
Definition S_IFSOCK : Z := 49152.
Definition S_IFLNK : Z := 40960.
Definition S_IFREG : Z := 32768.
Definition S_IFBLK : Z := 24576.
Definition S_IFDIR : Z := 16384.
Definition S_IFCHR : Z := 8192.
Definition O_ACCMODE : Z := 3.
Definition O_RDONLY : Z := 0.
Definition O_WRONLY : Z := 1.
Definition O_RDWR : Z := 2.
Definition O_CREAT : Z := 64.
Definition O_EXCL : Z := 128.
Definition O_TRUNC : Z := 512.
Definition O_APPEND : Z := 1024.
Definition O_NONBLOCK : Z := 2048.
Definition O_DSYNC : Z := 4096.
Definition O_DIRECTORY : Z := 65536.
Definition O_NOFOLLOW : Z := 131072.
Definition O_SYNC : Z := 1052672.
Definition O_RSYNC : Z := 1052672.
Definition SEEK_SET : Z := 0.
Definition SEEK_CUR : Z := 1.
Definition SEEK_END : Z := 2.

(** ** WasiEnvironment

    [Status] is [None] until [setStatus] is called. *)
Record PreStat : Type := mkPreStat { psFd : Z; psType : Z; psPath : list Z }.

Record WasiEnvironment : Type := mkWasiEnv {
  Status : option Z; CmdArgs : list (list Z); PreStats : list PreStat; ExitCode : Z }.

Record WasiState (X : Type) : Type := mkWasi { wsEnv : WasiEnvironment; wsOS : X }.
Arguments mkWasi {X} wsEnv wsOS.
Arguments wsEnv {X} w.
Arguments wsOS {X} w.

Definition setStatus (x : Z) (e : WasiEnvironment) : WasiEnvironment :=
  mkWasiEnv (Some x) (CmdArgs e) (PreStats e) (ExitCode e).
Definition getStatus (e : WasiEnvironment) : res Z :=
  match Status e with Some x => Ok x | None => Undef UB_indet end.
Definition setExitCode (c : Z) (e : WasiEnvironment) : WasiEnvironment :=
  mkWasiEnv (Status e) (CmdArgs e) (PreStats e) c.
Definition set_CmdArgs (a : list (list Z)) (e : WasiEnvironment) : WasiEnvironment :=
  mkWasiEnv (Status e) a (PreStats e) (ExitCode e).
Definition clearEnv (e : WasiEnvironment) : WasiEnvironment := set_CmdArgs [] e.

Section Wasi.
Context {X : Type} (os : OS X).

(** The constructor opens the working directory, the destructor closes what is open. *)
Definition newWasiEnvironment (o : X) : WasiState X :=
  let '(Fd, o') := sys_open os [46] (Z.lor O_RDONLY O_DIRECTORY) 0 o in
  mkWasi (mkWasiEnv None [] [mkPreStat (sgn 32 Fd) 0 [46]] 0) o'.

Definition deleteWasiEnvironment (s : WasiState X) : X :=
  fold_left (fun o Entry => (sys_close os (psFd Entry) o).2) (PreStats (wsEnv s)) (wsOS s).

#[local] Abbreviation MW := (M (HostCtx (WasiState X))).

Definition getEnv : MW WasiEnvironment := gets (fun c => wsEnv (hcEnv c)).
Definition sys {A} (f : X -> A * X) : MW A := fun c =>
  let '(a, o) := f (wsOS (hcEnv c)) in (Ok a, set_hcEnv (mkWasi (wsEnv (hcEnv c)) o) c).

(** ** The functions: wasifunc.cpp *)

(** The loop over the strings: each pointer is stored, the strings are collected. *)
Fixpoint storePointers (Strs : list (list Z)) (Ptr BufOffset : Z) (Buf : list Z)
    : MW (Z * list Z) :=
  match Strs with
  | [] => ret (Ptr, Buf)
  | Arg :: Strs' =>
      onMem (storeValue U32 BufOffset Ptr 4) ;;;
      storePointers Strs' (wrap 32 (Ptr + 4)) (wrap 32 (BufOffset + (sizeZ Arg + 1)))
        (Buf ++ Arg ++ [0])
  end.

(** The pointers, a null pointer, and the buffer. *)
Definition storeStrings (Strs : list (list Z)) (Ptr BufPtr : Z) : MW unit :=
  let* r := storePointers Strs Ptr BufPtr [] in
  onMem (storeValue U32 0 r.1 4) ;;;
  onMem (setBytes r.2 BufPtr 0 (wrap 32 (sizeZ r.2))) ;;;
  setRet 0.

(** [Size += Str.size() + 1] over the strings. *)
Definition stringsSize (Strs : list (list Z)) : Z :=
  fold_left (fun Size Str => wrap 32 (Size + (sizeZ Str + 1))) Strs 0.

Definition WasiArgsGet_body (ArgvPtr ArgvBufPtr : Z) : MW unit :=
  let* Env := getEnv in storeStrings (CmdArgs Env) ArgvPtr ArgvBufPtr.

Definition WasiArgsSizesGet_body (ArgcPtr ArgvBufSizePtr : Z) : MW unit :=
  let* Env := getEnv in
  onMem (storeValue U32 (wrap 32 (sizeZ (CmdArgs Env))) ArgcPtr 4) ;;;
  onMem (storeValue U32 (stringsSize (CmdArgs Env)) ArgvBufSizePtr 4) ;;;
  setRet 0.

Definition getEnviron : MW (list (list Z)) := gets (fun c => sys_environ os (wsOS (hcEnv c))).

Definition WasiEnvironGet_body (EnvPtr EnvBufPtr : Z) : MW unit :=
  let* Strs := getEnviron in storeStrings Strs EnvPtr EnvBufPtr.

(** The result of the first store is not looked at. *)
Definition WasiEnvironSizesGet_body (EnvCntPtr EnvBufSizePtr : Z) : MW unit :=
  let* Strs := getEnviron in
  try (onMem (storeValue U32 (wrap 32 (sizeZ Strs)) EnvCntPtr 4)) ;;;
  onMem (storeValue U32 (stringsSize Strs) EnvBufSizePtr 4) ;;;
  setRet 0.

Definition WasiFdClose_body (Fd : Z) : MW unit :=
  let* r := sys (sys_close os Fd) in
  if negb (r =? 0) then setRet 1 else setRet 0.

(** [switch (SysFStat.st_mode & S_IFMT)] *)
Definition filetype (st_mode : Z) : Z :=
  let k := Z.land st_mode S_IFMT in
  if k =? S_IFSOCK then 5 (* __WASI_FILETYPE_SOCKET_DGRAM *)
  else if k =? S_IFLNK then 7 (* SYMBOLIC_LINK *)
  else if k =? S_IFREG then 4 (* REGULAR_FILE *)
  else if k =? S_IFBLK then 1 (* BLOCK_DEVICE *)
  else if k =? S_IFDIR then 3 (* DIRECTORY *)
  else if k =? S_IFCHR then 2 (* CHARACTER_DEVICE *)
  else 0 (* UNKNOWN *).

(** [(Flags & Bit) ? Wasi : 0] *)
Definition flag_if (Flags Bit Wasi : Z) : Z := if Z.land Flags Bit =? 0 then 0 else Wasi.

(** Of the type [__wasi_fdflags_t], with APPEND 1, DSYNC 2, NONBLOCK 4, RSYNC 8, SYNC 16. *)
Definition fdflags (FdFlags : Z) : Z :=
  Z.lor (Z.lor (Z.lor (Z.lor (wrap 16 (Z.land FdFlags O_ACCMODE)) (flag_if FdFlags O_APPEND 1))
    (flag_if FdFlags O_DSYNC 2)) (flag_if FdFlags O_NONBLOCK 4)) (flag_if FdFlags O_SYNC (8 + 16)).

Definition RIGHTS_ALL : Z := 0x1FFFFFFF.

Definition WasiFdFdstatGet_body (Fd FdStatPtr : Z) : MW unit :=
  let* st := sys (sys_fstat os Fd) in
  match st with
  | None => setRet 1
  | Some st_mode =>
      let* FdFlags := sys (sys_getfl os Fd) in
      if FdFlags <? 0 then setRet 1
      else
        onMem (storeValue U32 (filetype st_mode) FdStatPtr 1) ;;;
        onMem (storeValue U32 0 (wrap 32 (FdStatPtr + 1)) 1) ;;;
        onMem (storeValue U32 (fdflags FdFlags) (wrap 32 (FdStatPtr + 2)) 2) ;;;
        onMem (storeValue U32 0 (wrap 32 (FdStatPtr + 4)) 4) ;;;
        onMem (storeValue U64 RIGHTS_ALL (wrap 32 (FdStatPtr + 8)) 8) ;;;
        onMem (storeValue U64 RIGHTS_ALL (wrap 32 (FdStatPtr + 16)) 8) ;;;
        setRet 0
  end.

Definition WasiFdFdstatSetFlags_body (Fd FsFlags : Z) : MW unit := setRet 0.

(** The first entry with the descriptor. *)
Definition findPreStat (Fd : Z) (l : list PreStat) : option PreStat :=
  List.find (fun Entry => psFd Entry =? Fd) l.

Definition WASI_EBADF : Z := 8.
Definition WASI_EINVAL : Z := 28.

Definition WasiFdPrestatDirName_body (Fd PathBufPtr PathLen : Z) : MW unit :=
  let* Env := getEnv in
  match findPreStat Fd (PreStats Env) with
  | Some Entry =>
      if sizeZ (psPath Entry) >? PathLen then setRet WASI_EINVAL
      else
        onMem (setBytes (psPath Entry) PathBufPtr 0 (wrap 32 (sizeZ (psPath Entry)))) ;;;
        setRet 0
  | None => setRet WASI_EBADF
  end.

Definition WasiFdPrestatGet_body (Fd PreStatPtr : Z) : MW unit :=
  let* Env := getEnv in
  match findPreStat Fd (PreStats Env) with
  | Some Entry =>
      onMem (storeValue U32 (psType Entry) PreStatPtr 1) ;;;
      onMem (storeValue U32 (wrap 32 (sizeZ (psPath Entry))) (wrap 32 (PreStatPtr + 4)) 4) ;;;
      setRet 0
  | None => setRet WASI_EBADF
  end.

(** [IOVec[I]]: the offset and the length. *)
Definition loadIOVec (IOVSPtr : Z) : MW (Z * Z) :=
  let* BufPtr := onMem (loadValue U32 IOVSPtr 4) in
  let* BufLen := onMem (loadValue U32 (wrap 32 (IOVSPtr + 4)) 4) in
  ret (default 0 BufPtr, default 0 BufLen).

(** [read(Fd, MemInst.getPointer(BufPtr), BufLen)]: the system stores through the pointer
    whatever the size of the vector is. *)
Definition readTo (Fd BufPtr BufLen : Z) : MW Z :=
  let* c := get in
  match getPointer BufPtr (hcMem c) with
  | None => let* r := sys (sys_read os Fd true BufLen) in ret r.1
  | Some off =>
      let* r := sys (sys_read os Fd false BufLen) in
      let* d := lift (write_range off r.2 (Data (hcMem c))) in
      modify (fun c => set_hcMem (set_Data d (hcMem c)) c) ;;;
      ret r.1
  end.

(** [write(Fd, MemInst.getPointer(BufPtr), BufLen)]. *)
Definition writeFrom (Fd BufPtr BufLen : Z) : MW Z :=
  let* c := get in
  match getPointer BufPtr (hcMem c) with
  | None => sys (sys_write os Fd None BufLen)
  | Some off =>
      let* bs := lift (read_range off BufLen (Data (hcMem c))) in
      sys (sys_write os Fd (Some bs) BufLen)
  end.

(** The loop [for (I = 0; I < IOVSCnt; I++)], for both directions.  [true] when it ends. *)
Fixpoint transfer (op : Z -> Z -> MW Z) (Cnt : nat) (IOVSPtr N : Z) : MW (bool * Z) :=
  match Cnt with
  | O => ret (true, N)
  | S Cnt' =>
      let* v := loadIOVec IOVSPtr in
      let* n := op v.1 v.2 in
      let Size := sgn 32 n in
      if Size =? -1 then ret (false, N)
      else transfer op Cnt' (wrap 32 (IOVSPtr + 8)) (wrap 32 (N + Size))
  end.

Definition transferAll (op : Z -> Z -> MW Z) (IOVSPtr IOVSCnt NPtr : Z) : MW unit :=
  let* r := transfer op (Z.to_nat IOVSCnt) IOVSPtr 0 in
  onMem (storeValue U32 r.2 NPtr 4) ;;;
  setRet (if r.1 : bool then 0 else 1).

Definition WasiFdRead_body (Fd IOVSPtr IOVSCnt NReadPtr : Z) : MW unit :=
  transferAll (readTo Fd) IOVSPtr IOVSCnt NReadPtr.
Definition WasiFdWrite_body (Fd IOVSPtr IOVSCnt NWrittenPtr : Z) : MW unit :=
  transferAll (writeFrom Fd) IOVSPtr IOVSCnt NWrittenPtr.

(** [__WASI_WHENCE_CUR], [END] and [SET] are 0, 1 and 2. *)
Definition whence (w : Z) : option Z :=
  if w =? 0 then Some SEEK_CUR else if w =? 1 then Some SEEK_END
  else if w =? 2 then Some SEEK_SET else None.

Definition WasiFdSeek_body (Fd Offset Whence NewOffsetPtr : Z) : MW unit :=
  match whence Whence with
  | None => setRet WASI_EINVAL
  | Some Wh =>
      let* NewOffset := sys (sys_lseek os Fd Offset Wh) in
      if NewOffset =? -1 then setRet 1
      else onMem (storeValue U64 (wrap 64 NewOffset) NewOffsetPtr 8) ;;; setRet 0
  end.

(** [Path.c_str()]: the bytes before the first zero. *)
Fixpoint c_str (s : list Z) : list Z :=
  match s with
  | [] => []
  | x :: s' => if x =? 0 then [] else x :: c_str s'
  end.

Definition or_if (b : bool) (Bit Flags : Z) : Z := if b then Z.lor Flags Bit else Flags.
Definition bit_set (Flags Bit : Z) : bool := negb (Z.land Flags Bit =? 0).

Definition open_flags (DirFlags OFlags FsRightsBase FsFlags : Z) : Z :=
  let Read := bit_set FsRightsBase (0x2 + 0x4000) in
  let Write := bit_set FsRightsBase (0x1 + 0x40 + 0x100 + 0x400000) in
  let Flags := if Write then if Read then O_RDWR else O_WRONLY else O_RDONLY in
  let Flags := or_if (bit_set OFlags 1) O_CREAT Flags in
  let Flags := or_if (bit_set OFlags 2) O_DIRECTORY Flags in
  let Flags := or_if (bit_set OFlags 4) O_EXCL Flags in
  let Flags := or_if (bit_set OFlags 8) O_TRUNC Flags in
  let Flags := or_if (bit_set FsFlags 1) O_APPEND Flags in
  let Flags := or_if (bit_set FsFlags 2) O_DSYNC Flags in
  let Flags := or_if (bit_set FsFlags 4) O_NONBLOCK Flags in
  let Flags := or_if (bit_set FsFlags 8) O_RSYNC Flags in
  let Flags := or_if (bit_set FsFlags 16) O_SYNC Flags in
  or_if (negb (bit_set DirFlags 1)) O_NOFOLLOW Flags.

(** [DirFd] is not used. *)
Definition WasiPathOpen_body (DirFd DirFlags PathPtr PathLen OFlags FsRightsBase
    FsRightsInheriting FsFlags FdPtr : Z) : MW unit :=
  let* Path := onMem (getBytes PathPtr PathLen) in
  let Flags := open_flags DirFlags OFlags FsRightsBase FsFlags in
  let* r := sys (sys_open os (c_str Path) Flags 420) in
  let Fd := sgn 32 r in
  if Fd =? -1 then setRet 1
  else onMem (storeValue U32 (wrap 32 Fd) FdPtr 4) ;;; setRet 0.

Definition WasiProcExit_body (St : Z) : MW unit :=
  modify (fun c => set_hcEnv (mkWasi (setStatus St (wsEnv (hcEnv c))) (wsOS (hcEnv c))) c) ;;;
  throw Terminated.

(** ** The host functions and the module: wasifunc.h, wasimodule.cpp *)

Definition WasiArgsGet := hostFunction 0 (Some U32) [U32; U32] WasiArgsGet_body.
Definition WasiArgsSizesGet := hostFunction 0 (Some U32) [U32; U32] WasiArgsSizesGet_body.
Definition WasiEnvironGet := hostFunction 0 (Some U32) [U32; U32] WasiEnvironGet_body.
Definition WasiEnvironSizesGet := hostFunction 0 (Some U32) [U32; U32] WasiEnvironSizesGet_body.
Definition WasiFdClose := hostFunction 0 (Some U32) [S32] WasiFdClose_body.
Definition WasiFdFdstatGet := hostFunction 0 (Some U32) [S32; U32] WasiFdFdstatGet_body.
Definition WasiFdFdstatSetFlags := hostFunction 0 (Some U32) [S32; U32] WasiFdFdstatSetFlags_body.
Definition WasiFdPrestatDirName := hostFunction 0 (Some U32) [S32; U32; U32] WasiFdPrestatDirName_body.
Definition WasiFdPrestatGet := hostFunction 0 (Some U32) [S32; U32] WasiFdPrestatGet_body.
Definition WasiFdRead := hostFunction 0 (Some U32) [S32; U32; U32; U32] WasiFdRead_body.
Definition WasiFdSeek := hostFunction 0 (Some U32) [S32; S32; U32; U32] WasiFdSeek_body.
Definition WasiFdWrite := hostFunction 0 (Some U32) [S32; U32; U32; U32] WasiFdWrite_body.
Definition WasiPathOpen :=
  hostFunction 0 (Some U32) [S32; U32; U32; U32; U32; U64; U64; U32; U32] WasiPathOpen_body.
Definition WasiProcExit := hostFunction 0 None [S32] WasiProcExit_body.

Definition WasiFuncs : list (string * HostFunc (WasiState X)) :=
  [ ("args_get"%string, WasiArgsGet);
    ("args_sizes_get"%string, WasiArgsSizesGet);
    ("environ_get"%string, WasiEnvironGet);
    ("environ_sizes_get"%string, WasiEnvironSizesGet);
    ("fd_close"%string, WasiFdClose);
    ("fd_fdstat_get"%string, WasiFdFdstatGet);
    ("fd_fdstat_set_flags"%string, WasiFdFdstatSetFlags);
    ("fd_prestat_dir_name"%string, WasiFdPrestatDirName);
    ("fd_prestat_get"%string, WasiFdPrestatGet);
    ("fd_read"%string, WasiFdRead);
    ("fd_seek"%string, WasiFdSeek);
    ("fd_write"%string, WasiFdWrite);
    ("path_open"%string, WasiPathOpen);
    ("proc_exit"%string, WasiProcExit) ].

Definition WasiModule {T} (emb : HostFunc (WasiState X) -> HostFunc T) : ImportObject T :=
  hostModule emb "wasi_unstable" WasiFuncs.

End Wasi.
