(* ===== verification/WasiFacts.v ===== *)
(** * What the WASI functions do

    The argument vector a program reads back, the data [fd_write] gathers, the flags of a
    descriptor, and the accesses [fd_read] and [fd_write] leave unchecked. *)
From stdpp Require Import base list numbers option strings.
From Stdlib Require Import ZArith Lia.
From S2P Require Import Prelude Types Memory MemoryFacts StackMgr Runtime Interpreter.
From S2P Require Import EngineFuel HostFunc HostFuncFacts Wasi.
#[local] Open Scope Z_scope.

(** ** The measurement is left alone *)

Section Quiet.
Context {X : Type} (os : OS X).
#[local] Abbreviation MW := (M (HostCtx (WasiState X))).

Definition untouched {A} (m : MW A) : Prop := forall c, (m c).1 <> NoFuel /\ hcMea (m c).2 = hcMea c.

Lemma ut_bind {A B} (m : MW A) (k : A -> MW B) :
  untouched m -> (forall a, untouched (k a)) -> untouched (bind m k).
Proof.
  intros Hm Hk c. destruct (Hm c) as [H1 H2]. unfold bind.
  destruct (m c) as [[a|e|u|] c1]; cbn in *; try done. destruct (Hk a c1). split; congruence.
Qed.
Lemma ut_ret {A} (a : A) : untouched (ret a).
Proof. done. Qed.
Lemma ut_throw {A} e : untouched (throw (A := A) e).
Proof. done. Qed.
Lemma ut_get : untouched get.
Proof. done. Qed.
Lemma ut_gets {A} (f : _ -> A) : untouched (gets f).
Proof. done. Qed.
Lemma ut_lift {A} (r : res A) : r <> NoFuel -> untouched (lift r).
Proof. by intros Hr c. Qed.
Lemma ut_setRet x : untouched (setRet x).
Proof. done. Qed.
Lemma ut_sys {A} (f : X -> A * X) : untouched (sys f).
Proof. intros c. unfold sys. by destruct (f _). Qed.
Lemma ut_onMem {A} (m : M MemoryInstance A) : free m -> untouched (onMem m).
Proof. intros Hm c. unfold onMem, zoom. specialize (Hm (hcMem c)). by destruct (m (hcMem c)). Qed.
Lemma ut_try {A} (m : MW A) : untouched m -> untouched (try m).
Proof. intros Hm c. destruct (Hm c). unfold try. by destruct (m c) as [[] ?]. Qed.
Lemma ut_modify f : (forall c, hcMea (f c) = hcMea c) -> untouched (modify f).
Proof. intros Hf c. split; [done|apply Hf]. Qed.

Create HintDb ut.
#[local] Hint Resolve ut_ret ut_throw ut_get ut_gets ut_setRet ut_sys : ut.

Ltac ut_auto := repeat lazymatch goal with
  | |- untouched (bind _ _) => apply ut_bind; [|intros ?]
  | |- untouched (onMem _) => apply ut_onMem; by eauto with free
  | |- untouched (lift _) => apply ut_lift; by eauto with free
  | |- untouched (try _) => apply ut_try
  | |- untouched (modify _) => by apply ut_modify
  | |- untouched (match _ with _ => _ end) => case_match
  | |- untouched _ => by eauto with ut
  end.

Lemma ut_storePointers Strs p b d : untouched (storePointers Strs p b d).
Proof. revert p b d. induction Strs; intros p b d; cbn [storePointers]; ut_auto. Qed.
#[local] Hint Resolve ut_storePointers : ut.
Lemma ut_storeStrings Strs p b : untouched (storeStrings Strs p b).
Proof. unfold storeStrings. ut_auto. Qed.
#[local] Hint Resolve ut_storeStrings : ut.

Lemma ut_loadIOVec p : untouched (loadIOVec p).
Proof. unfold loadIOVec. ut_auto. Qed.
Lemma ut_transfer op n p k : (forall a b, untouched (op a b)) -> untouched (transfer op n p k).
Proof.
  intros Hop. revert p k. induction n as [|n IH]; intros p k; cbn [transfer]; [ut_auto|].
  apply ut_bind; [apply ut_loadIOVec|intros v]. apply ut_bind; [apply Hop|intros x]. case_match; ut_auto.
Qed.
Lemma ut_transferAll op p n q : (forall a b, untouched (op a b)) -> untouched (transferAll op p n q).
Proof. intros Hop. unfold transferAll. apply ut_bind; [by apply ut_transfer|intros r]. ut_auto. Qed.
Lemma ut_readTo fd a b : untouched (readTo os fd a b).
Proof. unfold readTo. ut_auto. Qed.
Lemma ut_writeFrom fd a b : untouched (writeFrom os fd a b).
Proof. unfold writeFrom. ut_auto. Qed.
#[local] Hint Resolve ut_readTo ut_writeFrom : ut.
#[local] Hint Resolve ut_transferAll : ut.

(** No WASI function runs out of fuel or touches the gas counters, and all are free. *)
Definition host_untouched {H} (f : HostFunc H) : Prop := hfCost f = 0 /\
  forall stk mem mea hs, let '(r, (_, _, mea', _)) := hfRun f stk mem mea hs in r <> NoFuel /\ mea' = mea.

Lemma hostFunction_untouched RetT Ts (body : fun_of Ts (MW unit)) :
  (forall args, untouched (apply Ts body args)) -> host_untouched (hostFunction 0 RetT Ts body).
Proof.
  intros Hb. split; [done|]. intros stk mem mea hs. apply (hostInvoke_meter (fun o => o = mea)); [done|].
  intros args c _ <-. apply Hb.
Qed.

Lemma wasi_untouched : Forall (fun p => host_untouched p.2) (WasiFuncs os).
Proof.
  unfold WasiFuncs. repeat (apply Forall_cons; split); [..|constructor];
    apply hostFunction_untouched; cbn [apply]; intros args.
  all: unfold WasiArgsGet_body, WasiArgsSizesGet_body, WasiEnvironGet_body, WasiEnvironSizesGet_body,
    WasiFdClose_body, WasiFdFdstatGet_body, WasiFdFdstatSetFlags_body, WasiFdPrestatDirName_body,
    WasiFdPrestatGet_body, WasiFdRead_body, WasiFdSeek_body, WasiFdWrite_body, WasiPathOpen_body,
    WasiProcExit_body, getEnviron, Wasi.getEnv; ut_auto.
Qed.

Lemma untouched_metered {H} L (f : HostFunc H) : host_untouched f -> L < 2 ^ 64 -> host_metered L f.
Proof.
  intros [Hc Hu] HL. split_and!; [lia|lia|]. intros stk mem m hs Hm. specialize (Hu stk mem (Some m) hs).
  destruct (hfRun _ _ _ _ _) as [r [[[? ?] mea'] ?]]. destruct Hu as [Hr ->]. split; [done|].
  exists m. split_and!; [done|done|lia].
Qed.

End Quiet.

(** ** Writing blocks one after the other *)

Lemma mem_written_app m m1 m2 off bs1 bs2 :
  (forall i, mem_byte m1 i = mem_written m off bs1 i) ->
  (forall i, mem_byte m2 i = mem_written m1 (off + sizeZ bs1) bs2 i) ->
  forall i, mem_byte m2 i = mem_written m off (bs1 ++ bs2) i.
Proof.
  intros H1 H2 i. rewrite H2. unfold mem_written. rewrite H1. unfold mem_written, sizeZ in *.
  rewrite length_app.
  destruct (Z.leb_spec off i), (Z.ltb_spec i (off + Z.of_nat (length bs1))),
    (Z.leb_spec (off + Z.of_nat (length bs1)) i),
    (Z.ltb_spec i (off + Z.of_nat (length bs1) + Z.of_nat (length bs2))),
    (Z.ltb_spec i (off + Z.of_nat (length bs1 + length bs2))); cbn [andb]; try lia; try done.
  - by rewrite lookup_app_l by lia.
  - rewrite lookup_app_r by lia. do 2 f_equal. lia.
Qed.

(** ** Argument vectors *)

(** The bytes of the strings, each followed by a zero, and where each of them starts. *)
Definition strings_block (Strs : list (list Z)) : list Z := concat ((fun s => s ++ [0]) <$> Strs).
Fixpoint starts (Strs : list (list Z)) (p : Z) : list Z :=
  match Strs with [] => [] | s :: Strs' => p :: starts Strs' (p + (sizeZ s + 1)) end.
Definition pointer_block (ps : list Z) : list Z := concat (le_split 4 <$> ps).

Lemma strings_block_cons s Strs : strings_block (s :: Strs) = (s ++ [0]) ++ strings_block Strs.
Proof. done. Qed.
Lemma length_pointer_block ps : sizeZ (pointer_block ps) = 4 * sizeZ ps.
Proof. unfold pointer_block, sizeZ. induction ps; cbn in *; [done|lia]. Qed.
Lemma length_starts Strs p : length (starts Strs p) = length Strs.
Proof. revert p. induction Strs; intros; cbn; auto. Qed.
Section Args.
Context {X : Type}.
Implicit Types c : HostCtx (WasiState X).

Lemma storeU32_ok c x p : mem_ok (hcMem c) -> in_range (hcMem c) p 4 -> in_u 32 x ->
  exists mem, onMem (storeValue U32 x p 4) c = (Ok tt, set_hcMem mem c) /\ mem_ok mem /\
    CurrPage mem = CurrPage (hcMem c) /\ forall i, mem_byte mem i = mem_written (hcMem c) p (le_split 4 x) i.
Proof.
  intros Hm Hr Hx. destruct (storeValue_ok (hcMem c) Hm U32 x p 4 Hr ltac:(cbn; lia)) as (mem & Hs & H1 & H2 & H3).
  exists mem. split; [by apply onMem_run|]. split_and!; [done|done|]. intros i. rewrite H3.
  unfold to_bits. by rewrite wrap_small.
Qed.

Lemma page_bytes m off n : mem_ok m -> in_range m off n -> off + n < 2 ^ 32.
Proof. intros ((? & ?) & _) (? & ? & ?). unfold page_limit in *. lia. Qed.

(** The loop writes the pointers as one block, and collects the strings. *)
Lemma storePointers_ok Strs c p b d : mem_ok (hcMem c) -> 0 <= p -> 0 <= b ->
  p + 4 * sizeZ Strs <= CurrPage (hcMem c) * 65536 -> b + sizeZ (strings_block Strs) < 2 ^ 32 ->
  exists mem, storePointers Strs p b d c =
      (Ok (p + 4 * sizeZ Strs, d ++ strings_block Strs), set_hcMem mem c) /\ mem_ok mem /\
    CurrPage mem = CurrPage (hcMem c) /\
    forall i, mem_byte mem i = mem_written (hcMem c) p (pointer_block (starts Strs b)) i.
Proof.
  revert c p b d. induction Strs as [|s Strs IH]; intros c p b d Hm Hp Hb Hend Hfit.
  - exists (hcMem c). cbn [storePointers starts pointer_block fmap list_fmap concat].
    rewrite app_nil_r, Z.add_0_r. split_and!; [by destruct c|done|done|].
    intros i. unfold mem_written. change (sizeZ (@nil Z)) with 0.
    by destruct (Z.leb_spec p i), (Z.ltb_spec i (p + 0)); cbn; try lia.
  - pose proof (sizeZ_nonneg s). pose proof (sizeZ_nonneg Strs). pose proof (sizeZ_nonneg (strings_block Strs)).
    rewrite strings_block_cons in Hfit. rewrite !sizeZ_app in Hfit. change (sizeZ [0]) with 1 in Hfit.
    rewrite sizeZ_cons in *. cbn [storePointers].
    assert (CurrPage (hcMem c) * 65536 < 2 ^ 32) as Hpg by (destruct Hm as ((? & ?) & _); unfold page_limit in *; lia).
    destruct (storeU32_ok c b p Hm) as (m1 & Hs1 & Hm1 & Hp1 & Hw1); [unfold in_range; lia|unfold in_u; lia|].
    rewrite (bind_Ok _ _ _ _ _ Hs1).
    rewrite (wrap_small 32 (b + _)) by (unfold in_u; lia).
    destruct (decide (Strs = [])) as [->|Hne].
    { exists m1. cbn [storePointers starts]. unfold ret. change (sizeZ (@nil (list Z))) with 0 in *.
      change (p + 4 * (1 + 0)) with (p + 4). rewrite wrap_small by (unfold in_u; lia).
      rewrite strings_block_cons, app_nil_r.
      split_and!; [done|done|done|]. cbn [pointer_block fmap list_fmap concat]. rewrite app_nil_r. exact Hw1. }
    assert (1 <= sizeZ Strs) by (destruct Strs; [done|rewrite sizeZ_cons; pose proof (sizeZ_nonneg Strs); lia]).
    rewrite (wrap_small 32 (p + 4)) by (unfold in_u; lia).
    destruct (IH (set_hcMem m1 c) (p + 4) (b + (sizeZ s + 1)) (d ++ s ++ [0])) as (m2 & Hs2 & Hm2 & Hp2 & Hw2);
      cbn [hcMem set_hcMem]; [done|lia|lia|rewrite Hp1; lia|lia|].
    rewrite Hs2. exists m2. split_and!; [|done|by rewrite Hp2|].
    + rewrite strings_block_cons, !app_assoc. do 3 f_equal. lia.
    + cbn [starts]. change (pointer_block (b :: ?l)) with (le_split 4 b ++ pointer_block l).
      by apply (mem_written_app _ m1).
Qed.

(** The two regions of an argument vector: inside the memory, and apart. *)
Record argv_regions (m : MemoryInstance) (Strs : list (list Z)) (p b : Z) : Prop := mk_argv_regions {
  ar_p : 0 <= p; ar_b : 0 <= b;
  ar_pend : p + 4 * (sizeZ Strs + 1) <= CurrPage m * 65536;
  ar_bend : b + sizeZ (strings_block Strs) <= CurrPage m * 65536;
  ar_apart : p + 4 * (sizeZ Strs + 1) <= b \/ b + sizeZ (strings_block Strs) <= p }.

Lemma strings_block_bytes Strs : Forall (Forall is_byte) Strs -> Forall is_byte (strings_block Strs).
Proof.
  induction 1 as [|s Strs Hs _ IH]; [constructor|]. rewrite strings_block_cons, !Forall_app.
  split_and!; [done|repeat constructor; lia|done].
Qed.

Lemma storeStrings_ok Strs c p b : mem_ok (hcMem c) -> Forall (Forall is_byte) Strs ->
  argv_regions (hcMem c) Strs p b ->
  exists mem, storeStrings Strs p b c = (Ok tt, set_hcRet (Some 0) (set_hcMem mem c)) /\ mem_ok mem /\
    mem_bytes mem p (4 * (sizeZ Strs + 1)) = pointer_block (starts Strs b ++ [0]) /\
    mem_bytes mem b (sizeZ (strings_block Strs)) = strings_block Strs.
Proof.
  intros Hm Hbytes [Hp Hb Hpe Hbe Hap]. pose proof (sizeZ_nonneg Strs). pose proof (sizeZ_nonneg (strings_block Strs)).
  assert (CurrPage (hcMem c) * 65536 < 2 ^ 32) as Hpg by (destruct Hm as ((? & ?) & _); unfold page_limit in *; lia).
  unfold storeStrings.
  destruct (storePointers_ok Strs c p b [] Hm Hp Hb ltac:(lia) ltac:(lia)) as (m1 & Hs1 & Hm1 & Hp1 & Hw1).
  rewrite (bind_Ok _ _ _ _ _ Hs1). cbn [fst snd app].
  destruct (storeU32_ok (set_hcMem m1 c) 0 (p + 4 * sizeZ Strs)) as (m2 & Hs2 & Hm2 & Hp2 & Hw2);
    cbn [hcMem set_hcMem] in *; [done|unfold in_range; rewrite Hp1; lia|by vm_compute|].
  rewrite (bind_Ok _ _ _ _ _ Hs2). rewrite wrap_small by (unfold in_u; lia).
  destruct (setBytes_ok m2 Hm2 (strings_block Strs) b) as (m3 & Hs3 & Hm3 & Hp3 & Hw3);
    [by apply strings_block_bytes|unfold in_range; rewrite Hp2, Hp1; lia|].
  rewrite (bind_Ok _ _ _ _ _ (onMem_run _ (set_hcMem m2 (set_hcMem m1 c)) _ _ Hs3)).
  exists m3. split; [done|]. split; [done|].
  assert (sizeZ (pointer_block (starts Strs b)) = 4 * sizeZ Strs) as Hlen.
  { rewrite length_pointer_block. unfold sizeZ. by rewrite length_starts. }
  assert (pointer_block (starts Strs b ++ [0]) = pointer_block (starts Strs b) ++ le_split 4 0) as Hblk.
  { unfold pointer_block. rewrite fmap_app, concat_app. cbn. done. }
  split; [|exact (mem_bytes_written _ _ _ _ Hw3)].
  rewrite (mem_bytes_frame _ _ _ _ _ _ Hw3) by lia. rewrite <- Hlen in Hw2.
  pose proof (mem_written_app _ _ _ _ _ _ Hw1 Hw2) as Hw12. rewrite <- Hblk in Hw12.
  pose proof (mem_bytes_written _ _ _ _ Hw12) as Hres.
  rewrite length_pointer_block, sizeZ_app in Hres. unfold sizeZ in Hres at 1. rewrite length_starts in Hres.
  exact Hres.
Qed.

End Args.

(** ** Reading the vector back, as a program does *)

Fixpoint c_string (m : MemoryInstance) (fuel : nat) (p : Z) : list Z :=
  match fuel with
  | O => []
  | S fuel' => if mem_byte m p =? 0 then [] else mem_byte m p :: c_string m fuel' (p + 1)
  end.
Fixpoint read_pointers (m : MemoryInstance) (p : Z) (n : nat) : list Z :=
  match n with O => [] | S n' => le_combine (mem_bytes m p 4) :: read_pointers m (p + 4) n' end.
Definition read_argv (m : MemoryInstance) (fuel : nat) (p : Z) (n : nat) : list (list Z) :=
  c_string m fuel <$> read_pointers m p n.

Lemma mem_bytes_app m off a b : 0 <= a -> 0 <= b ->
  mem_bytes m off (a + b) = mem_bytes m off a ++ mem_bytes m (off + a) b.
Proof. intros. unfold mem_bytes. rewrite seqZ_app by lia. by rewrite fmap_app. Qed.
Lemma mem_bytes_one m off : mem_bytes m off 1 = [mem_byte m off].
Proof. done. Qed.

Lemma app_split {A} (l1 l2 k1 k2 : list A) : sizeZ l1 = sizeZ k1 -> l1 ++ l2 = k1 ++ k2 -> l1 = k1 /\ l2 = k2.
Proof. unfold sizeZ. intros Hl He. apply app_inj_1 in He; [done|lia]. Qed.

Lemma c_string_ok m s p fuel : Forall (fun b => b <> 0) s -> (length s < fuel)%nat ->
  mem_bytes m p (sizeZ s + 1) = s ++ [0] -> c_string m fuel p = s.
Proof.
  revert p fuel. induction s as [|x s IH]; intros p [|fuel] Hnz Hf Hm; cbn in Hf; try lia.
  - change (sizeZ [] + 1) with 1 in Hm. rewrite mem_bytes_one in Hm. injection Hm as Hx.
    cbn [c_string]. by rewrite Hx.
  - inversion Hnz as [|? ? Hx Hs]; subst. rewrite sizeZ_cons in Hm.
    replace (sizeZ s + 1 + 1) with (1 + (sizeZ s + 1)) in Hm by lia. pose proof (sizeZ_nonneg s).
    rewrite mem_bytes_app, mem_bytes_one in Hm by lia. injection Hm as H1 H2.
    cbn [c_string]. rewrite H1, (proj2 (Z.eqb_neq x 0)) by done. f_equal. apply IH; [done|lia|done].
Qed.

Lemma c_strings_ok m Strs p fuel : Forall (Forall (fun b => b <> 0)) Strs ->
  (length (strings_block Strs) <= fuel)%nat -> mem_bytes m p (sizeZ (strings_block Strs)) = strings_block Strs ->
  c_string m fuel <$> starts Strs p = Strs.
Proof.
  revert p. induction Strs as [|s Strs IH]; intros p Hnz Hf Hm; [done|].
  inversion Hnz as [|? ? Hs Hss]; subst. cbn [starts]. rewrite fmap_cons.
  rewrite strings_block_cons in Hm, Hf. rewrite sizeZ_app in Hm. rewrite !length_app in Hf. cbn in Hf.
  pose proof (sizeZ_nonneg s). pose proof (sizeZ_nonneg (strings_block Strs)).
  assert (sizeZ (s ++ [0]) = sizeZ s + 1) as Hl by (by rewrite sizeZ_app).
  rewrite mem_bytes_app in Hm by lia. rewrite Hl in Hm.
  apply app_split in Hm as [H1 H2]; [|rewrite length_mem_bytes, Hl by lia; done].
  f_equal; [apply c_string_ok; [done|lia|done]|]. apply IH; [done|lia|done].
Qed.

Lemma read_pointers_ok m ps p : Forall (in_u 32) ps ->
  mem_bytes m p (4 * sizeZ ps) = pointer_block ps -> read_pointers m p (length ps) = ps.
Proof.
  revert p. induction ps as [|x ps IH]; intros p Hr Hm; [done|]. inversion Hr as [|? ? Hx Hps]; subst.
  rewrite sizeZ_cons in Hm. replace (4 * (sizeZ ps + 1)) with (4 + 4 * sizeZ ps) in Hm by lia.
  pose proof (sizeZ_nonneg ps). rewrite mem_bytes_app in Hm by lia.
  change (pointer_block (x :: ps)) with (le_split 4 x ++ pointer_block ps) in Hm.
  apply app_split in Hm as [H1 H2]; [|rewrite length_mem_bytes by lia; unfold sizeZ; by rewrite length_le_split].
  cbn [length read_pointers]. rewrite H1, le_combine_split. rewrite Z.mod_small by exact Hx.
  f_equal. by apply IH.
Qed.

Lemma starts_range Strs p B : 0 <= p -> p + sizeZ (strings_block Strs) <= B -> B < 2 ^ 32 ->
  Forall (in_u 32) (starts Strs p).
Proof.
  revert p. induction Strs as [|s Strs IH]; intros p Hp Hb HB; [constructor|].
  rewrite strings_block_cons, !sizeZ_app in Hb. change (sizeZ [0]) with 1 in Hb.
  pose proof (sizeZ_nonneg s). pose proof (sizeZ_nonneg (strings_block Strs)). cbn [starts].
  constructor; [unfold in_u; lia|]. apply IH; lia.
Qed.

Lemma stringsSize_acc Strs a : 0 <= a -> a + sizeZ (strings_block Strs) < 2 ^ 32 ->
  fold_left (fun Size Str => wrap 32 (Size + (sizeZ Str + 1))) Strs a = a + sizeZ (strings_block Strs).
Proof.
  revert a. induction Strs as [|s Strs IH]; intros a Ha Hf; cbn [fold_left].
  { change (sizeZ (strings_block [])) with 0. lia. }
  rewrite strings_block_cons, !sizeZ_app in *. change (sizeZ [0]) with 1 in *.
  pose proof (sizeZ_nonneg s). pose proof (sizeZ_nonneg (strings_block Strs)).
  rewrite wrap_small by (unfold in_u; lia). rewrite IH; lia.
Qed.

Lemma stringsSize_block Strs : sizeZ (strings_block Strs) < 2 ^ 32 ->
  stringsSize Strs = sizeZ (strings_block Strs).
Proof. intros. unfold stringsSize. rewrite stringsSize_acc; lia. Qed.

Section ArgsGet.
Context {X : Type}.
Implicit Types c : HostCtx (WasiState X).

(** A command line: strings of nonzero bytes. *)
Definition args_ok (Strs : list (list Z)) : Prop := Forall (Forall (fun b => is_byte b /\ b <> 0)) Strs.

Lemma argsGet_reads Strs c p b : mem_ok (hcMem c) -> args_ok Strs -> argv_regions (hcMem c) Strs p b ->
  exists mem, storeStrings Strs p b c = (Ok tt, set_hcRet (Some 0) (set_hcMem mem c)) /\ mem_ok mem /\
    read_argv mem (length (strings_block Strs)) p (length Strs) = Strs /\
    mem_bytes mem (p + 4 * sizeZ Strs) 4 = [0; 0; 0; 0].
Proof.
  intros Hm Hargs Hreg. pose proof (sizeZ_nonneg Strs).
  assert (Forall (Forall is_byte) Strs) as Hb
    by (eapply Forall_impl; [exact Hargs|]; intros s Hs; eapply Forall_impl; [exact Hs|]; by intros x [? _]).
  assert (Forall (Forall (fun b => b <> 0)) Strs) as Hnz
    by (eapply Forall_impl; [exact Hargs|]; intros s Hs; eapply Forall_impl; [exact Hs|]; by intros x [_ ?]).
  destruct (storeStrings_ok Strs c p b Hm Hb Hreg) as (mem & Hst & Hok & Hptr & Hblk).
  exists mem. split; [done|]. split; [done|].
  replace (4 * (sizeZ Strs + 1)) with (4 * sizeZ Strs + 4) in Hptr by lia. rewrite mem_bytes_app in Hptr by lia.
  unfold pointer_block in Hptr. rewrite fmap_app, concat_app in Hptr. fold (pointer_block (starts Strs b)) in Hptr.
  apply app_split in Hptr as [H1 H2].
  2: { rewrite length_mem_bytes, length_pointer_block by lia. unfold sizeZ. by rewrite length_starts. }
  split; [|exact H2]. unfold read_argv.
  assert (length Strs = length (starts Strs b)) as Hl by (by rewrite length_starts).
  rewrite Hl, (read_pointers_ok mem (starts Strs b)).
  - by apply c_strings_ok.
  - destruct Hreg. destruct Hm as ((? & ?) & _). unfold page_limit in *.
    apply (starts_range Strs b (CurrPage (hcMem c) * 65536)); lia.
  - unfold sizeZ. rewrite <- Hl. exact H1.
Qed.

(** [C35] A program reads its command line back.  In a memory of at most 59577 pages, for [n]
    arguments without zero bytes: [args_sizes_get], with two result pointers to words inside
    the pages and apart from each other, stores the number of arguments and the size of
    their buffer; with a region for [n + 1] pointers and one of the size of the buffer, both
    inside the pages and apart from each other, [args_get] fills them so that following the
    [n] pointers up to the terminating zeros gives exactly the arguments, after which a null
    pointer is stored. *)
Theorem args_roundtrip c (ac sz p b : Z) : let Strs := CmdArgs (wsEnv (hcEnv c)) in
  mem_ok (hcMem c) -> args_ok Strs -> argv_regions (hcMem c) Strs p b ->
  in_range (hcMem c) ac 4 -> in_range (hcMem c) sz 4 -> ac + 4 <= sz \/ sz + 4 <= ac ->
  exists c1, WasiArgsSizesGet_body ac sz c = (Ok tt, c1) /\ hcRet c1 = Some 0 /\
    le_combine (mem_bytes (hcMem c1) ac 4) = sizeZ Strs /\
    le_combine (mem_bytes (hcMem c1) sz 4) = sizeZ (strings_block Strs) /\
    exists c2, WasiArgsGet_body p b c1 = (Ok tt, c2) /\ hcRet c2 = Some 0 /\
      read_argv (hcMem c2) (length (strings_block Strs)) p (length Strs) = Strs /\
      mem_bytes (hcMem c2) (p + 4 * sizeZ Strs) 4 = [0; 0; 0; 0].
Proof.
  intros Strs Hm Hargs Hreg Hac Hsz Hap. pose proof Hreg as [Hp Hb Hpe Hbe _].
  pose proof (sizeZ_nonneg Strs). pose proof (sizeZ_nonneg (strings_block Strs)).
  assert (CurrPage (hcMem c) * 65536 < 2 ^ 32) as Hpg by (destruct Hm as ((? & ?) & _); unfold page_limit in *; lia).
  unfold WasiArgsSizesGet_body. unfold bind at 1. unfold Wasi.getEnv, gets. fold Strs.
  rewrite wrap_small, stringsSize_block by (unfold in_u; lia).
  destruct (storeU32_ok c (sizeZ Strs) ac Hm Hac) as (m1 & Hs1 & Hm1 & Hp1 & Hw1); [unfold in_u; lia|].
  rewrite (bind_Ok _ _ _ _ _ Hs1).
  destruct (storeU32_ok (set_hcMem m1 c) (sizeZ (strings_block Strs)) sz) as (m2 & Hs2 & Hm2 & Hp2 & Hw2);
    cbn [hcMem set_hcMem] in *; [done|unfold in_range in *; by rewrite Hp1|unfold in_u; lia|].
  rewrite (bind_Ok _ _ _ _ _ Hs2). eexists. split; [reflexivity|]. split; [reflexivity|].
  cbn [hcMem set_hcMem set_hcRet].
  assert (forall x, sizeZ (le_split 4 x) = 4) as Hl4 by (intros x; unfold sizeZ; by rewrite length_le_split).
  split.
  { rewrite (mem_bytes_frame _ _ _ _ _ _ Hw2) by (rewrite Hl4; lia).
    pose proof (mem_bytes_written _ _ _ _ Hw1) as Hmb. rewrite Hl4 in Hmb.
    rewrite Hmb, le_combine_split. apply Z.mod_small. change (2 ^ (8 * Z.of_nat 4)) with (2 ^ 32). lia. }
  split.
  { pose proof (mem_bytes_written _ _ _ _ Hw2) as Hmb. rewrite Hl4 in Hmb.
    rewrite Hmb, le_combine_split. apply Z.mod_small. change (2 ^ (8 * Z.of_nat 4)) with (2 ^ 32). lia. }
  match goal with |- exists c2, WasiArgsGet_body p b ?c1 = _ /\ _ =>
    destruct (argsGet_reads Strs c1 p b) as (m3 & Hs3 & _ & Hr & Hn) end;
    cbn [hcMem set_hcMem set_hcRet modify]; [done|done| |].
  { destruct Hreg. split; try done; rewrite Hp2, Hp1; done. }
  eexists. split; [exact Hs3|]. by split_and!.
Qed.

End ArgsGet.

(** A system whose output is the list of what was written, and that reads from a list. *)
Definition Tape : Type := list Z * list Z.
Definition example_os : OS Tape :=
  mkOS Tape
    (fun _ t => (0, t))
    (fun fd t => (if fd =? 3 then Some (S_IFREG + 420) else None, t))
    (fun _ t => (O_WRONLY, t))
    (fun _ null n t => if null : bool then ((-1, []), t)
       else ((sizeZ (take (Z.to_nat n) t.1), take (Z.to_nat n) t.1), (drop (Z.to_nat n) t.1, t.2)))
    (fun _ d n t => match d with Some bs => (n, (t.1, t.2 ++ bs)) | None => (-1, t) end)
    (fun _ o _ t => (o, t))
    (fun _ _ _ t => (3, t))
    (fun _ => []).

Definition example_wasi (t : Tape) : HostCtx (WasiState Tape) :=
  mkCtx example_memory None (mkWasi (mkWasiEnv None [[108; 115]; []; [45; 97]] [] 0) t) None.

Lemma args_roundtrip_witness :
  exists c1, WasiArgsSizesGet_body 0 4 (example_wasi ([], [])) = (Ok tt, c1) /\
    exists c2, WasiArgsGet_body 16 40 c1 = (Ok tt, c2) /\
      read_argv (hcMem c2) 7 16 3 = [[108; 115]; []; [45; 97]].
Proof.
  destruct (args_roundtrip (example_wasi ([], [])) 0 4 16 40) as (c1 & H1 & _ & _ & _ & c2 & H2 & _ & H3 & _).
  - exact example_memory_ok.
  - repeat constructor; lia.
  - split; vm_compute; intuition discriminate.
  - by vm_compute.
  - by vm_compute.
  - lia.
  - exists c1. split; [exact H1|]. exists c2. split; [exact H2|exact H3].
Defined.

(** ** Vectors of buffers *)

(** The pairs of offset and length a program put at [p]. *)
Fixpoint iov_at (m : MemoryInstance) (p : Z) (iov : list (Z * Z)) : Prop :=
  match iov with
  | [] => True
  | v :: iov' => le_combine (mem_bytes m p 4) = v.1 /\ le_combine (mem_bytes m (p + 4) 4) = v.2 /\
      iov_at m (p + 8) iov'
  end.

Lemma requireDataSize_id m off len : mem_ok m -> 0 <= off -> 0 <= len -> off + len <= sizeZ (Data m) ->
  requireDataSize off len m = (Ok tt, m).
Proof.
  intros (Hp & _ & Hs) Ho Hl Hin. unfold page_limit in Hp. unfold requireDataSize, bind, checkDataSize.
  destruct (Z.gtb_spec (off + len) (CurrPage m * 65536)); [lia|].
  rewrite wrap_small by (unfold in_u; lia). destruct (Z.ltb_spec (sizeZ (Data m)) (off + len)); [lia|done].
Qed.

Lemma loadU32_id m off : mem_ok m -> 0 <= off -> off + 4 <= sizeZ (Data m) ->
  loadValue U32 off 4 m = (Ok (Some (le_combine (mem_bytes m off 4))), m).
Proof.
  intros Hm Ho Hin. unfold loadValue. cbn [sizeof Z.ltb Z.compare Pos.compare Pos.compare_cont is_floating is_signed andb].
  rewrite (bind_Ok _ _ _ _ _ (requireDataSize_id m off 4 Hm Ho ltac:(lia) Hin)).
  unfold bind, get, lift. rewrite read_range_mem by lia. unfold ret. do 3 f_equal.
  unfold of_bits. apply wrap_small. unfold in_u.
  pose proof (le_combine_range (mem_bytes m off 4) (mem_bytes_are_bytes _ _ _ Hm)) as Hr.
  by rewrite length_mem_bytes in Hr by lia.
Qed.

Section Iov.
Context {X : Type} (os : OS X).
Implicit Types c : HostCtx (WasiState X).

Lemma loadIOVec_id c p v : mem_ok (hcMem c) -> 0 <= p -> p + 8 <= sizeZ (Data (hcMem c)) ->
  le_combine (mem_bytes (hcMem c) p 4) = v.1 -> le_combine (mem_bytes (hcMem c) (p + 4) 4) = v.2 ->
  loadIOVec p c = (Ok v, c).
Proof.
  intros Hm Hp Hin H1 H2. unfold loadIOVec.
  assert (p + 4 < 2 ^ 32) by (destruct Hm as ((? & ?) & _ & ?); unfold page_limit in *; lia).
  pose proof (onMem_run _ c _ _ (loadU32_id (hcMem c) p Hm Hp ltac:(lia))) as Hl1.
  assert (set_hcMem (hcMem c) c = c) as Hid by (by destruct c). rewrite Hid in Hl1.
  rewrite (bind_Ok _ _ _ _ _ Hl1). rewrite wrap_small by (unfold in_u; lia).
  pose proof (onMem_run _ c _ _ (loadU32_id (hcMem c) (p + 4) Hm ltac:(lia) ltac:(lia))) as Hl2. rewrite Hid in Hl2.
  rewrite (bind_Ok _ _ _ _ _ Hl2). rewrite H1, H2. by destruct v.
Qed.

(** A system that takes all it is given; [out] is its state after that. *)
Definition writes_all (out : Z -> list Z -> X -> X) : Prop := forall fd bs w,
  sys_write os fd (Some bs) (sizeZ bs) w = (sizeZ bs, out fd bs w).

Definition total (iov : list (Z * Z)) : Z := fold_right (fun v n => v.2 + n) 0 iov.

(** Buffers inside the allocated part of the memory. *)
Definition allocated (m : MemoryInstance) (v : Z * Z) : Prop :=
  0 <= v.1 < sizeZ (Data m) /\ 0 <= v.2 /\ v.1 + v.2 <= sizeZ (Data m).

Lemma transfer_writes out iov fd c p N : writes_all out -> mem_ok (hcMem c) -> 0 <= p ->
  p + 8 * sizeZ iov <= sizeZ (Data (hcMem c)) -> iov_at (hcMem c) p iov -> Forall (allocated (hcMem c)) iov ->
  transfer (writeFrom os fd) (length iov) p N c =
  (Ok (true, match iov with [] => N | _ => wrap 32 (N + total iov) end),
   set_hcEnv (mkWasi (wsEnv (hcEnv c))
     (fold_left (fun w v => out fd (mem_bytes (hcMem c) v.1 v.2) w) iov (wsOS (hcEnv c)))) c).
Proof.
  intros Hout. revert c p N. induction iov as [|v iov IH]; intros c p N Hm Hp Hin Hat Hal.
  { cbn. destruct c as [? ? [? ?] ?]. done. }
  cbn [length transfer]. destruct Hat as (H1 & H2 & Hat). inversion Hal as [|? ? [Ho [Hl Hend]] Hal']; subst.
  rewrite sizeZ_cons in Hin. pose proof (sizeZ_nonneg iov).
  assert (sizeZ (Data (hcMem c)) < 2 ^ 32 - 1) as Hbig by (destruct Hm as ((? & ?) & _ & ?); unfold page_limit in *; lia).
  rewrite (bind_Ok _ _ _ _ _ (loadIOVec_id c p v Hm Hp ltac:(lia) H1 H2)).
  set (c1 := set_hcEnv (mkWasi (wsEnv (hcEnv c)) (out fd (mem_bytes (hcMem c) v.1 v.2) (wsOS (hcEnv c)))) c).
  assert (writeFrom os fd v.1 v.2 c = (Ok v.2, c1)) as Hwr.
  { unfold writeFrom. rewrite bind_get. unfold getPointer. rewrite (proj2 (Z.leb_gt _ _)) by lia.
    unfold bind, lift. rewrite read_range_mem by lia. unfold sys.
    pose proof (Hout fd (mem_bytes (hcMem c) v.1 v.2) (wsOS (hcEnv c))) as Hw.
    rewrite length_mem_bytes in Hw by lia. by rewrite Hw. }
  rewrite (bind_Ok _ _ _ _ _ Hwr). cbv zeta.
  assert ((sgn 32 v.2 =? -1) = false) as ->.
  { apply Z.eqb_neq. intros Hs. pose proof (wrap_sgn 32 v.2 ltac:(lia)) as Hw. rewrite Hs in Hw.
    rewrite (wrap_small 32 v.2) in Hw by (unfold in_u; lia). change (wrap 32 (-1)) with 4294967295 in Hw. lia. }
  destruct (decide (iov = [])) as [->|Hne].
  { cbn [length transfer fold_left]. unfold ret. do 3 f_equal. cbn [total fold_right]. rewrite Z.add_0_r.
    unfold wrap. rewrite <- Z.add_mod_idemp_r by done. fold (wrap 32 (sgn 32 v.2)).
    rewrite wrap_sgn by lia. unfold wrap. by rewrite Z.add_mod_idemp_r. }
  assert (1 <= sizeZ iov) by (destruct iov; [done|rewrite sizeZ_cons; pose proof (sizeZ_nonneg iov); lia]).
  rewrite (wrap_small 32 (p + 8)) by (unfold in_u; lia).
  rewrite (IH c1 (p + 8)); [|done|lia|cbn; lia|done|done].
  destruct iov as [|v2 iov]; [done|]. cbn [fold_left].
  f_equal. f_equal. f_equal. set (T := total (v2 :: iov)). change (total (v :: v2 :: iov)) with (v.2 + T).
  unfold wrap. rewrite Z.add_mod_idemp_l by done.
  replace (N + sgn 32 v.2 + T) with (sgn 32 v.2 + (N + T)) by lia.
  rewrite <- Z.add_mod_idemp_l by done. fold (wrap 32 (sgn 32 v.2)). rewrite wrap_sgn by lia.
  unfold wrap. rewrite Z.add_mod_idemp_l by done. f_equal. lia.
Qed.

(** [C36] [fd_write] gathers its buffers.  In a memory of at most 59577 pages, for a vector of
    buffers that lies, as they do, in the allocated part of the memory, a result pointer to
    a word inside the pages, and a system that takes all it is given: the system gets the
    bytes of each buffer, in the order of the vector, and nothing else; the number of bytes,
    modulo 2^32, is stored at the result pointer, no other byte of the memory changes, and
    the error number is 0. *)
Theorem fd_write_gathers c (out : Z -> list Z -> X -> X) (iov : list (Z * Z)) (fd p np : Z) :
  writes_all out -> mem_ok (hcMem c) -> 0 <= p -> p + 8 * sizeZ iov <= sizeZ (Data (hcMem c)) ->
  iov_at (hcMem c) p iov -> Forall (allocated (hcMem c)) iov -> in_range (hcMem c) np 4 ->
  exists mem, WasiFdWrite_body os fd p (sizeZ iov) np c =
      (Ok tt, mkCtx mem (hcMea c) (mkWasi (wsEnv (hcEnv c))
         (fold_left (fun w v => out fd (mem_bytes (hcMem c) v.1 v.2) w) iov (wsOS (hcEnv c)))) (Some 0)) /\
    forall i, mem_byte mem i = mem_written (hcMem c) np (le_split 4 (wrap 32 (total iov))) i.
Proof.
  intros Hout Hm Hp Hin Hat Hal Hnp. unfold WasiFdWrite_body, transferAll.
  replace (Z.to_nat (sizeZ iov)) with (length iov) by (unfold sizeZ; lia).
  rewrite (bind_Ok _ _ _ _ _ (transfer_writes out iov fd c p 0 Hout Hm Hp Hin Hat Hal)). cbn [fst snd].
  set (N := match iov with [] => 0 | _ => _ end).
  assert (N = wrap 32 (total iov)) as -> by (subst N; by destruct iov).
  set (c1 := set_hcEnv _ c).
  destruct (storeU32_ok c1 (wrap 32 (total iov)) np) as (mem & Hs & _ & _ & Hw); [done|done|by apply wrap_range|].
  rewrite (bind_Ok _ _ _ _ _ Hs). exists mem. split; [done|]. exact Hw.
Qed.

(** The buffers of [fd_read] and [fd_write] are not checked.  A read into a buffer that
    begins inside the vector of the memory and is filled past its end is a write outside
    of the vector, although the buffer may lie inside the pages of the memory; and a
    buffer inside the pages that was never touched is passed as a null pointer. *)
Theorem iovec_unchecked c (fd p np o l : Z) (bs : list Z) (w : X) :
  mem_ok (hcMem c) -> 0 <= p -> p + 8 <= sizeZ (Data (hcMem c)) -> iov_at (hcMem c) p [(o, l)] ->
  0 <= o ->
  (o < sizeZ (Data (hcMem c)) -> sys_read os fd false l (wsOS (hcEnv c)) = ((l, bs), w) ->
   sizeZ (Data (hcMem c)) < o + sizeZ bs ->
   (WasiFdRead_body os fd p 1 np c).1 = Undef UB_vector) /\
  (sizeZ (Data (hcMem c)) <= o -> sys_write os fd None l (wsOS (hcEnv c)) = (-1, w) ->
   in_range (hcMem c) np 4 ->
   exists mem, WasiFdWrite_body os fd p 1 np c =
     (Ok tt, mkCtx mem (hcMea c) (mkWasi (wsEnv (hcEnv c)) w) (Some 1))).
Proof.
  intros Hm Hp Hin (H1 & H2 & _) Ho.
  pose proof (loadIOVec_id c p (o, l) Hm Hp Hin H1 H2) as Hld. split.
  - intros Hlt Hread Hover. unfold WasiFdRead_body, transferAll. change (Z.to_nat 1) with 1%nat. cbn [transfer].
    unfold bind at 1. rewrite (bind_Ok _ _ _ _ _ Hld). unfold bind at 1. cbn [fst snd].
    unfold readTo. rewrite bind_get. unfold getPointer. rewrite (proj2 (Z.leb_gt _ _)) by lia.
    unfold bind at 1. unfold sys. rewrite Hread. unfold bind, lift, write_range. cbn [snd].
    by rewrite (proj2 (Z.leb_gt _ _)) by lia.
  - intros Hge Hwr Hnp. unfold WasiFdWrite_body, transferAll. change (Z.to_nat 1) with 1%nat.
    assert (transfer (writeFrom os fd) 1 p 0 c = (Ok (false, 0), set_hcEnv (mkWasi (wsEnv (hcEnv c)) w) c)) as Ht.
    { cbn [transfer]. rewrite (bind_Ok _ _ _ _ _ Hld). unfold bind at 1. cbn [fst snd].
      unfold writeFrom. rewrite bind_get. unfold getPointer. rewrite (proj2 (Z.leb_le _ _)) by lia.
      unfold sys. rewrite Hwr. done. }
    rewrite (bind_Ok _ _ _ _ _ Ht). cbn [fst snd].
    destruct (storeU32_ok (set_hcEnv (mkWasi (wsEnv (hcEnv c)) w) c) 0 np) as (mem & Hs & _); [done|done|by vm_compute|].
    rewrite (bind_Ok _ _ _ _ _ Hs). by exists mem.
Qed.

End Iov.

(** ** Descriptor flags *)

Lemma testbit_pow2 n i : 0 <= n -> 0 <= i -> Z.testbit (2 ^ n) i = (n =? i).
Proof.
  intros Hn Hi. destruct (Z.eqb_spec n i) as [->|Hne]; [by apply Z.pow2_bits_true|by apply Z.pow2_bits_false].
Qed.

(** A test of one bit. *)
Lemma flag_if_bit f k v : 0 <= k -> flag_if f (2 ^ k) v = if Z.testbit f k then v else 0.
Proof.
  intros Hk. unfold flag_if. destruct (Z.testbit f k) eqn:Hb.
  - destruct (Z.eqb_spec (Z.land f (2 ^ k)) 0) as [E|]; [|done].
    assert (Z.testbit (Z.land f (2 ^ k)) k = true) as Ht
      by (rewrite Z.land_spec, Hb, Z.pow2_bits_true by done; done).
    rewrite E, Z.bits_0 in Ht. done.
  - rewrite (proj2 (Z.eqb_eq _ _)); [done|]. apply Z.bits_inj'. intros i Hi.
    rewrite Z.land_spec, testbit_pow2, Z.bits_0 by done.
    destruct (Z.eqb_spec k i) as [<-|]; [by rewrite Hb|apply andb_false_r].
Qed.

(** [O_SYNC] is two bits, one of them that of [O_DSYNC]. *)
Lemma flag_if_sync f v : flag_if f O_SYNC v = if Z.testbit f 12 || Z.testbit f 20 then v else 0.
Proof.
  assert (O_SYNC = Z.lor (2 ^ 12) (2 ^ 20)) as Hs by done.
  unfold flag_if. rewrite Hs, Z.land_lor_distr_r.
  pose proof (flag_if_bit f 12 1 ltac:(lia)) as H1. pose proof (flag_if_bit f 20 1 ltac:(lia)) as H2.
  unfold flag_if in H1, H2. destruct (Z.eqb_spec (Z.lor (Z.land f (2 ^ 12)) (Z.land f (2 ^ 20))) 0) as [E|E].
  - apply Z.lor_eq_0_iff in E as [E1 E2]. rewrite E1 in H1. rewrite E2 in H2. cbn [Z.eqb] in H1, H2.
    by destruct (Z.testbit f 12), (Z.testbit f 20).
  - destruct (Z.testbit f 12), (Z.testbit f 20); try done. exfalso. apply E.
    destruct (Z.eqb_spec (Z.land f (2 ^ 12)) 0) as [->|]; [|done].
    destruct (Z.eqb_spec (Z.land f (2 ^ 20)) 0) as [->|]; done.
Qed.

(** The flags a descriptor reports.  Bit by bit: the access mode of the descriptor is
    left in the result, so APPEND is also reported for every write-only descriptor and
    DSYNC for every descriptor open for reading and writing; and as O_SYNC contains the bit
    of O_DSYNC, RSYNC and SYNC are reported for a descriptor that has O_DSYNC only. *)
Theorem fdflags_bits (f : Z) : 0 <= f ->
  Z.testbit (fdflags f) 0 = Z.testbit f 0 || Z.testbit f 10 /\
  Z.testbit (fdflags f) 1 = Z.testbit f 1 || Z.testbit f 12 /\
  Z.testbit (fdflags f) 2 = Z.testbit f 11 /\
  Z.testbit (fdflags f) 3 = Z.testbit f 12 || Z.testbit f 20 /\
  Z.testbit (fdflags f) 4 = Z.testbit f 12 || Z.testbit f 20 /\
  forall i, 4 < i -> Z.testbit (fdflags f) i = false.
Proof.
  intros Hf. unfold fdflags. rewrite flag_if_sync.
  change O_APPEND with (2 ^ 10). change O_DSYNC with (2 ^ 12). change O_NONBLOCK with (2 ^ 11).
  rewrite !flag_if_bit by lia.
  assert (wrap 16 (Z.land f O_ACCMODE) = Z.land f 3) as ->.
  { apply wrap_small. change O_ACCMODE with 3. pose proof (Z.land_ones f 2 ltac:(lia)) as Hl.
    change (Z.ones 2) with 3 in Hl. rewrite Hl. unfold in_u.
    pose proof (Z.mod_pos_bound f (2 ^ 2) ltac:(lia)). lia. }
  assert (forall i, 4 < i -> forall b : bool, Z.testbit (if b then 24 else 0) i = false) as H24
    by (intros i Hi []; [apply (Z.bits_above_log2 24 i); cbn; lia|apply Z.bits_0]).
  split_and!; [..|intros i Hi]; rewrite !Z.lor_spec, Z.land_spec.
  1-5: destruct (Z.testbit f 10), (Z.testbit f 12), (Z.testbit f 11), (Z.testbit f 20); cbn [orb];
    cbn [Z.testbit Pos.testbit]; rewrite ?andb_false_r, ?andb_true_r, ?orb_false_r, ?orb_true_r; done.
  assert (Z.testbit 3 i = false) as -> by (apply Z.bits_above_log2; cbn; lia).
  rewrite andb_false_r, (H24 i Hi). destruct (Z.testbit f 10), (Z.testbit f 12), (Z.testbit f 11); cbn [orb];
    rewrite ?Z.bits_0, ?(Z.bits_above_log2 1 i), ?(Z.bits_above_log2 2 i), ?(Z.bits_above_log2 4 i) by (cbn; lia); done.
Qed.

Lemma fdflags_bits_witness : Z.testbit (fdflags O_WRONLY) 0 = true /\ Z.testbit O_WRONLY 10 = false.
Proof.
  destruct (fdflags_bits O_WRONLY) as (H0 & _); [done|]. split; [rewrite H0; reflexivity|reflexivity].
Defined.

(** Two buffers, "ab" and "c", described at 16. *)
Definition iov_memory : MemoryInstance := mkMemory false 1 0 1
  ([97; 98; 99; 0; 0; 0; 0; 0; 0; 0; 0; 0; 0; 0; 0; 0] ++
   le_split 4 0 ++ le_split 4 2 ++ le_split 4 2 ++ le_split 4 1 ++ le_split 4 30 ++ le_split 4 100 ++
   le_split 4 5000 ++ le_split 4 8).

Definition iov_ctx : HostCtx (WasiState Tape) :=
  mkCtx iov_memory None (mkWasi (mkWasiEnv None [] [] 0) (replicate 200 1, [120])) None.

Lemma iov_memory_ok : mem_ok iov_memory.
Proof.
  split; [unfold page_limit; cbn; lia|]. split; [|vm_compute; discriminate].
  apply (bool_decide_unpack _). by vm_compute.
Qed.

Lemma fd_write_gathers_witness : exists mem,
  WasiFdWrite_body example_os 1 16 2 8 iov_ctx =
    (Ok tt, mkCtx mem None (mkWasi (mkWasiEnv None [] [] 0) (replicate 200 1, [120; 97; 98; 99])) (Some 0)) /\
  mem_bytes mem 8 4 = [3; 0; 0; 0].
Proof.
  destruct (fd_write_gathers example_os iov_ctx (fun _ bs t => (t.1, t.2 ++ bs)) [(0, 2); (2, 1)] 1 16 8)
    as (mem & H1 & H2).
  - intros fd bs w. reflexivity.
  - exact iov_memory_ok.
  - lia.
  - vm_compute. discriminate.
  - by vm_compute.
  - repeat constructor; vm_compute; intuition discriminate.
  - by vm_compute.
  - exists mem. split; [exact H1|]. exact (mem_bytes_written _ _ _ _ H2).
Defined.

Lemma iovec_unchecked_witness :
  (WasiFdRead_body example_os 0 32 1 8 iov_ctx).1 = Undef UB_vector /\
  exists mem, WasiFdWrite_body example_os 1 40 1 8 iov_ctx =
    (Ok tt, mkCtx mem None (hcEnv iov_ctx) (Some 1)).
Proof.
  split.
  - apply (iovec_unchecked example_os iov_ctx 0 32 8 30 100 (replicate 100 1) (replicate 100 1, [120]));
      try exact iov_memory_ok; try lia; by vm_compute.
  - apply (iovec_unchecked example_os iov_ctx 1 40 8 5000 8 [] (replicate 200 1, [120]));
      try exact iov_memory_ok; try lia; by vm_compute.
Defined.
