(* ===== verification/TimeRecord.v ===== *)
(** * The time recorder: include/support/time.h

    Times are what [gettimeofday] stores at the call: seconds and microseconds. *)
From stdpp Require Import base list numbers option gmap.
From Stdlib Require Import ZArith Lia.
From S2P Require Import Prelude.
#[local] Open Scope Z_scope.

Record timeval : Type := mkTimeval { tv_sec : Z; tv_usec : Z }.

Record TimeRecord : Type := mkTimeRecord { StartTime : gmap Z Z; RecTime : gmap Z Z }.
Definition newTimeRecord : TimeRecord := mkTimeRecord ∅ ∅.

Definition set_StartTime (m : gmap Z Z) (r : TimeRecord) : TimeRecord := mkTimeRecord m (RecTime r).
Definition set_RecTime (m : gmap Z Z) (r : TimeRecord) : TimeRecord := mkTimeRecord (StartTime r) m.

(** [(uint64_t)1000000 * T.tv_sec + T.tv_usec] *)
Definition micros (t : timeval) : Z := wrap 64 (1000000 * tv_sec t + tv_usec t).

(** [StartTime.insert] keeps an entry that is there. *)
Definition startRecord (ID : Z) (TStart : timeval) (r : TimeRecord) : TimeRecord :=
  match StartTime r !! ID with
  | Some _ => r
  | None => set_StartTime (<[ID := micros TStart]> (StartTime r)) r
  end.

(** The result is [RecTime[ID]]; the clock is read only if the timer runs. *)
Definition stopRecord (ID : Z) (TEnd : timeval) (r : TimeRecord) : Z * TimeRecord :=
  let '(NDiff, r1) :=
    match StartTime r !! ID with
    | Some t => (wrap 64 (micros TEnd - t), set_StartTime (delete ID (StartTime r)) r)
    | None => (0, r)
    end in
  let v := match RecTime r1 !! ID with Some t => wrap 64 (t + NDiff) | None => NDiff end in
  (v, set_RecTime (<[ID := v]> (RecTime r1)) r1).

Definition clearRecord (ID : Z) (r : TimeRecord) : TimeRecord :=
  mkTimeRecord (delete ID (StartTime r)) (delete ID (RecTime r)).

Definition getRecord (ID : Z) (r : TimeRecord) : Z := default 0 (RecTime r !! ID).

Definition resetRecords (r : TimeRecord) : TimeRecord := newTimeRecord.

(** ** Histories *)

Inductive event : Type := Start (t : timeval) | Stop (t : timeval) | Clear.

Definition run_event (e : Z * event) (r : TimeRecord) : TimeRecord :=
  match e.2 with
  | Start t => startRecord e.1 t r
  | Stop t => (stopRecord e.1 t r).2
  | Clear => clearRecord e.1 r
  end.
Definition run_events (l : list (Z * event)) (r : TimeRecord) : TimeRecord :=
  fold_left (fun r e => run_event e r) l r.

(** What happened to one of the timers. *)
Definition events_of (ID : Z) (l : list (Z * event)) : list event := (filter (fun e => e.1 = ID) l).*2.

(** The timers do not see each other. *)
Lemma run_event_other ID e r : e.1 <> ID ->
  StartTime (run_event e r) !! ID = StartTime r !! ID /\ RecTime (run_event e r) !! ID = RecTime r !! ID.
Proof.
  destruct e as [i [t|t|]]; cbn; intros Hi; unfold startRecord, stopRecord; repeat case_match; simplify_eq/=;
    rewrite ?lookup_insert_ne, ?lookup_delete_ne by done; done.
Qed.

(** Two records are alike for a timer. *)
Definition alike (ID : Z) (r1 r2 : TimeRecord) : Prop :=
  StartTime r1 !! ID = StartTime r2 !! ID /\ RecTime r1 !! ID = RecTime r2 !! ID.

Lemma run_event_alike ID ev r1 r2 : alike ID r1 r2 -> alike ID (run_event (ID, ev) r1) (run_event (ID, ev) r2).
Proof.
  intros [H1 H2]. unfold alike. destruct ev; cbn; unfold startRecord, stopRecord; rewrite ?H1, ?lookup_delete_eq;
    [..|done]; destruct (StartTime r2 !! ID) eqn:E; cbn; rewrite ?H2, ?lookup_insert_eq, ?lookup_delete_eq, ?H1, ?E; auto.
Qed.

Lemma run_events_of ID l r1 r2 : alike ID r1 r2 ->
  alike ID (run_events l r1) (run_events (pair ID <$> events_of ID l) r2).
Proof.
  revert r1 r2; induction l as [|e l IH]; intros r1 r2 Ha; [done|]. unfold events_of in *. cbn [run_events fold_left].
  rewrite filter_cons. destruct (decide (e.1 = ID)) as [He|He].
  - rewrite !fmap_cons. cbn [fold_left]. apply IH. destruct e as [i ev]; cbn in He; subst. by apply run_event_alike.
  - apply IH. destruct (run_event_other ID e r1 He) as [H1 H2]. destruct Ha as [A1 A2]. split; congruence.
Qed.

(** Intervals, one after the other. *)
Definition laps (ivs : list (timeval * timeval)) : list event := iv ← ivs; [Start iv.1; Stop iv.2].
Definition elapsed (ivs : list (timeval * timeval)) : Z :=
  fold_right (fun iv acc => micros iv.2 - micros iv.1 + acc) 0 ivs.

Lemma run_laps ID ivs r : StartTime r !! ID = None -> in_u 64 (getRecord ID r) ->
  let r' := run_events (pair ID <$> laps ivs) r in
  StartTime r' !! ID = None /\ getRecord ID r' = wrap 64 (getRecord ID r + elapsed ivs).
Proof.
  revert r; induction ivs as [|[s e] ivs IH]; intros r Hs Hr; cbn [elapsed fold_right].
  { cbn. rewrite Z.add_0_r, wrap_small by done. done. }
  change (laps ((s, e) :: ivs)) with ([Start s; Stop e] ++ laps ivs). rewrite fmap_app. unfold run_events in *.
  rewrite fold_left_app. set (r1 := fold_left _ (pair ID <$> [Start s; Stop e]) r).
  assert (StartTime r1 !! ID = None /\ getRecord ID r1 = wrap 64 (getRecord ID r + (micros e - micros s))) as [H1 H2].
  { unfold r1. cbn [fmap list_fmap fold_left]. unfold run_event, startRecord, stopRecord. cbn [fst snd]. rewrite Hs.
    cbn. rewrite lookup_insert_eq. cbn. rewrite lookup_delete_eq. split; [done|]. unfold getRecord in *. cbn.
    rewrite lookup_insert_eq. unfold wrap in *. destruct (RecTime r !! ID) as [t|]; cbn; [by rewrite Zplus_mod_idemp_r|done]. }
  destruct (IH r1 H1) as [H3 H4]; [rewrite H2; apply wrap_range; lia|]. split; [done|]. cbn zeta in *. rewrite H4, H2.
  cbn [elapsed fst snd]. unfold wrap. rewrite Zplus_mod_idemp_l. f_equal. unfold elapsed. lia.
Qed.

(** The time recorder measures what it is asked to.  Take any sequence of starts, stops
    and clears of any timers, at any times, in which a timer that does not run is started and
    stopped in turn.  Whatever happens to the others in between, that timer does not run at
    the end, and what is recorded for it has grown by the sum of the times between its starts
    and stops, modulo 2^64. *)
Theorem timer_measures_laps (ID : Z) (l : list (Z * event)) (ivs : list (timeval * timeval)) (r : TimeRecord) :
  events_of ID l = laps ivs -> StartTime r !! ID = None -> in_u 64 (getRecord ID r) ->
  StartTime (run_events l r) !! ID = None /\
  getRecord ID (run_events l r) = wrap 64 (getRecord ID r + elapsed ivs).
Proof.
  intros He Hs Hr. destruct (run_events_of ID l r r) as [A1 A2]; [done|]. rewrite He in A1, A2.
  destruct (run_laps ID ivs r Hs Hr) as [H1 H2]. rewrite A1. split; [done|]. unfold getRecord at 1. rewrite A2. exact H2.
Qed.

Lemma timer_measures_laps_witness :
  getRecord 256 (run_events [(256, Start (mkTimeval 1 5)); (257, Start (mkTimeval 1 6)); (256, Stop (mkTimeval 1 25));
    (257, Clear); (256, Start (mkTimeval 2 0)); (256, Stop (mkTimeval 3 1))] newTimeRecord) = 1000021.
Proof.
  apply (timer_measures_laps 256 _ [(mkTimeval 1 5, mkTimeval 1 25); (mkTimeval 2 0, mkTimeval 3 1)]);
    [reflexivity|reflexivity|by split].
Defined.
