(* ===== verification/Onnc.v ===== *)
(** * The ONNC host module: lib/host/onnc/{onncfunc,onncmodule}.cpp

    Each function turns offsets into pointers and calls the function of the same name of the
    ONNC runtime, a library that is a parameter of the model: it works on the memory its
    pointers lead to and on a state of its own, or does something undefined. *)
From stdpp Require Import base list numbers option strings.
From Stdlib Require Import ZArith Lia.
From S2P Require Import Prelude Types Memory StackMgr Runtime HostFunc.
#[local] Open Scope Z_scope.

(** What a function of the runtime is given: a pointer into the memory or null, an array of
    them, numbers. *)
Inductive CArg : Type :=
| Ptr (p : option Z)
| Ptrs (ps : list (option Z))
| Int32 (x : Z)
| Int8 (x : Z)
| Float (x : Z).

(** The function with a name, on the data of the memory and the state of the library. *)
Definition ONNCRuntime (C : Type) : Type :=
  string -> list CArg -> list Z -> C -> option (list Z * C).

Section Onnc.
Context {C : Type} (runtime : ONNCRuntime C).
#[local] Abbreviation MO := (M (HostCtx C)).

Definition getPtr (Off : Z) : MO (option Z) := gets (fun c => getPointer Off (hcMem c)).
Definition getPtrOrNull (Off : Z) : MO (option Z) := gets (fun c => getPointerOrNull Off (hcMem c)).

Definition call (Name : string) (Args : list CArg) : MO unit := fun c =>
  match runtime Name Args (Data (hcMem c)) (hcEnv c) with
  | Some (d, s) => (Ok tt, set_hcEnv s (set_hcMem (set_Data d (hcMem c)) c))
  | None => (Undef UB_deref, c)
  end.

(** [p[i]] for a [uint32_t *p]: undefined for null and past the memory. *)
Definition at32 (p : option Z) (i : Z) : MO Z :=
  let* c := get in
  match p with
  | Some o =>
      if o + 4 * i + 4 <=? sizeZ (Data (hcMem c))
      then ret (le_combine (slice (o + 4 * i) 4 (Data (hcMem c)))) else undef UB_deref
  | None => undef UB_deref
  end.

(** [for (int i = 0; i < N; i++)]: the pointers to the tensors and to their dimensions. *)
Fixpoint tensorsFrom (n : nat) (i : Z) (Offs DimsOffs : option Z) : MO (list (option Z * option Z)) :=
  match n with
  | O => ret []
  | S n =>
      let* Off := at32 Offs i in
      let* Tensor := getPtr Off in
      let* DimsOff := at32 DimsOffs i in
      let* Dims := getPtr DimsOff in
      let* l := tensorsFrom n (i + 1) Offs DimsOffs in
      ret ((Tensor, Dims) :: l)
  end.
(** The arrays have [N] elements on the stack of the C++ function; how large that can be is
    up to the platform. *)
Definition getTensors (N : Z) : option Z -> option Z -> MO (list (option Z * option Z)) :=
  tensorsFrom (Z.to_nat N) 0.

(** ** onncfunc.cpp *)

Definition ONNCRuntimeAddFloat_body (RuntimeContextOff InAOff InANDim InADimsOff InBOff InBNDim
    InBDimsOff OutCOff OutCNDim OutCDimsOff : Z) : MO unit :=
  let* RuntimeContext := getPtr RuntimeContextOff in
  let* InADims := getPtr InADimsOff in
  let* InBDims := getPtr InBDimsOff in
  let* OutCDims := getPtr OutCDimsOff in
  let* InA := getPtr InAOff in
  let* InB := getPtr InBOff in
  let* OutC := getPtr OutCOff in
  call "ONNC_RUNTIME_add_float"
    [Ptr RuntimeContext; Ptr InA; Int32 (sgn 32 InANDim); Ptr InADims; Ptr InB;
     Int32 (sgn 32 InBNDim); Ptr InBDims; Ptr OutC; Int32 (sgn 32 OutCNDim); Ptr OutCDims].

Definition ONNCRuntimeAddInt8_body (RuntimeContextOff InAOff InANDim InADimsOff InBOff InBNDim
    InBDimsOff OutCOff OutCNDim OutCDimsOff : Z) : MO unit :=
  let* RuntimeContext := getPtr RuntimeContextOff in
  let* InADims := getPtr InADimsOff in
  let* InBDims := getPtr InBDimsOff in
  let* OutCDims := getPtr OutCDimsOff in
  let* InA := getPtr InAOff in
  let* InB := getPtr InBOff in
  let* OutC := getPtr OutCOff in
  call "ONNC_RUNTIME_add_int8"
    [Ptr RuntimeContext; Ptr InA; Int32 (sgn 32 InANDim); Ptr InADims; Ptr InB;
     Int32 (sgn 32 InBNDim); Ptr InBDims; Ptr OutC; Int32 (sgn 32 OutCNDim); Ptr OutCDims].

Definition ONNCRuntimeAveragepoolFloat_body (RuntimeContextOff InXOff InXNDim InXDimsOff OutYOff
    OutYNDim OutYDimsOff AutoPadOff IncludePadCnt KernelShapeOff KernelShapeNum PadsOff PadsNum
    StridesOff StridesNum : Z) : MO unit :=
  let* RuntimeContext := getPtr RuntimeContextOff in
  let* InXDims := getPtr InXDimsOff in
  let* OutYDims := getPtr OutYDimsOff in
  let* InX := getPtr InXOff in
  let* OutY := getPtr OutYOff in
  let* AutoPad := getPtr AutoPadOff in
  let* KernelShape := getPtr KernelShapeOff in
  let* Pads := getPtr PadsOff in
  let* Strides := getPtr StridesOff in
  call "ONNC_RUNTIME_averagepool_float"
    [Ptr RuntimeContext; Ptr InX; Int32 (sgn 32 InXNDim); Ptr InXDims; Ptr OutY;
     Int32 (sgn 32 OutYNDim); Ptr OutYDims; Ptr AutoPad; Int32 (sgn 32 IncludePadCnt);
     Ptr KernelShape; Int32 (sgn 32 KernelShapeNum); Ptr Pads; Int32 (sgn 32 PadsNum); Ptr Strides;
     Int32 (sgn 32 StridesNum)].

Definition ONNCRuntimeBatchnormalizationFloat_body (RuntimeContextOff InXOff InXNDim InXDimsOff
    InScaleOff InScaleNDim InScaleDimsOff InBOff InBNDim InBDimsOff InMeanOff InMeanNDim
    InMeanDimsOff InVarOff InVarNDim InVarDimsOff OutYOff OutYNDim OutYDimsOff OutMeanOff
    OutMeanNDim OutMeanDimsOff OutVarOff OutVarNDim OutVarDimsOff OutSavedMeanOff OutSavedMeanNDim
    OutSavedMeanDimsOff OutSavedVarOff OutSavedVarNDim OutSavedVarDimsOff Epsilon Momentum Spatial :
    Z) : MO unit :=
  let* RuntimeContext := getPtr RuntimeContextOff in
  let* InXDims := getPtr InXDimsOff in
  let* InScaleDims := getPtr InScaleDimsOff in
  let* InBDims := getPtr InBDimsOff in
  let* InMeanDims := getPtr InMeanDimsOff in
  let* InVarDims := getPtr InVarDimsOff in
  let* OutYDims := getPtr OutYDimsOff in
  let* OutMeanDims := getPtrOrNull OutMeanDimsOff in
  let* OutVarDims := getPtrOrNull OutVarDimsOff in
  let* OutSavedMeanDims := getPtrOrNull OutSavedMeanDimsOff in
  let* OutSavedVarDims := getPtrOrNull OutSavedVarDimsOff in
  let* InX := getPtr InXOff in
  let* InScale := getPtr InScaleOff in
  let* InB := getPtr InBOff in
  let* InMean := getPtr InMeanOff in
  let* InVar := getPtr InVarOff in
  let* OutY := getPtr OutYOff in
  let* OutMean := getPtrOrNull OutMeanOff in
  let* OutVar := getPtrOrNull OutVarOff in
  let* OutSavedMean := getPtrOrNull OutSavedMeanOff in
  let* OutSavedVar := getPtrOrNull OutSavedVarOff in
  call "ONNC_RUNTIME_batchnormalization_float"
    [Ptr RuntimeContext; Ptr InX; Int32 (sgn 32 InXNDim); Ptr InXDims; Ptr InScale;
     Int32 (sgn 32 InScaleNDim); Ptr InScaleDims; Ptr InB; Int32 (sgn 32 InBNDim); Ptr InBDims;
     Ptr InMean; Int32 (sgn 32 InMeanNDim); Ptr InMeanDims; Ptr InVar; Int32 (sgn 32 InVarNDim);
     Ptr InVarDims; Ptr OutY; Int32 (sgn 32 OutYNDim); Ptr OutYDims; Ptr OutMean;
     Int32 (sgn 32 OutMeanNDim); Ptr OutMeanDims; Ptr OutVar; Int32 (sgn 32 OutVarNDim);
     Ptr OutVarDims; Ptr OutSavedMean; Int32 (sgn 32 OutSavedMeanNDim); Ptr OutSavedMeanDims;
     Ptr OutSavedVar; Int32 (sgn 32 OutSavedVarNDim); Ptr OutSavedVarDims; Float Epsilon;
     Float Momentum; Int32 (sgn 32 Spatial)].

Definition ONNCRuntimeBatchnormalizationInt8_body (RuntimeContextOff InXOff InXNDim InXDimsOff
    InScaleOff InScaleNDim InScaleDimsOff InBOff InBNDim InBDimsOff InMeanOff InMeanNDim
    InMeanDimsOff InVarOff InVarNDim InVarDimsOff OutYOff OutYNDim OutYDimsOff OutMeanOff
    OutMeanNDim OutMeanDimsOff OutVarOff OutVarNDim OutVarDimsOff OutSavedMeanOff OutSavedMeanNDim
    OutSavedMeanDimsOff OutSavedVarOff OutSavedVarNDim OutSavedVarDimsOff Epsilon Momentum Spatial :
    Z) : MO unit :=
  let* RuntimeContext := getPtr RuntimeContextOff in
  let* InXDims := getPtr InXDimsOff in
  let* InScaleDims := getPtr InScaleDimsOff in
  let* InBDims := getPtr InBDimsOff in
  let* InMeanDims := getPtr InMeanDimsOff in
  let* InVarDims := getPtr InVarDimsOff in
  let* OutYDims := getPtr OutYDimsOff in
  let* OutMeanDims := getPtrOrNull OutMeanDimsOff in
  let* OutVarDims := getPtrOrNull OutVarDimsOff in
  let* OutSavedMeanDims := getPtrOrNull OutSavedMeanDimsOff in
  let* OutSavedVarDims := getPtrOrNull OutSavedVarDimsOff in
  let* InX := getPtr InXOff in
  let* InScale := getPtr InScaleOff in
  let* InB := getPtr InBOff in
  let* InMean := getPtr InMeanOff in
  let* InVar := getPtr InVarOff in
  let* OutY := getPtr OutYOff in
  let* OutMean := getPtrOrNull OutMeanOff in
  let* OutVar := getPtrOrNull OutVarOff in
  let* OutSavedMean := getPtrOrNull OutSavedMeanOff in
  let* OutSavedVar := getPtrOrNull OutSavedVarOff in
  call "ONNC_RUNTIME_batchnormalization_int8"
    [Ptr RuntimeContext; Ptr InX; Int32 (sgn 32 InXNDim); Ptr InXDims; Ptr InScale;
     Int32 (sgn 32 InScaleNDim); Ptr InScaleDims; Ptr InB; Int32 (sgn 32 InBNDim); Ptr InBDims;
     Ptr InMean; Int32 (sgn 32 InMeanNDim); Ptr InMeanDims; Ptr InVar; Int32 (sgn 32 InVarNDim);
     Ptr InVarDims; Ptr OutY; Int32 (sgn 32 OutYNDim); Ptr OutYDims; Ptr OutMean;
     Int32 (sgn 32 OutMeanNDim); Ptr OutMeanDims; Ptr OutVar; Int32 (sgn 32 OutVarNDim);
     Ptr OutVarDims; Ptr OutSavedMean; Int32 (sgn 32 OutSavedMeanNDim); Ptr OutSavedMeanDims;
     Ptr OutSavedVar; Int32 (sgn 32 OutSavedVarNDim); Ptr OutSavedVarDims; Int8 (sgn 8 Epsilon);
     Int8 (sgn 8 Momentum); Int32 (sgn 32 Spatial)].

Definition ONNCRuntimeConcatFloat_body (RuntimeContextOff InInputsOffOff InInputsNTensor
    InInputsNDimOff InInputsDimsOffOff OutConcatResultOff OutConcatResultNDim OutConcatResultDimsOff
    Axis : Z) : MO unit :=
  let* RuntimeContext := getPtr RuntimeContextOff in
  let* InInputsOff := getPtr InInputsOffOff in
  let* InInputsDimsOff := getPtr InInputsDimsOffOff in
  let* InInputsNDim := getPtr InInputsNDimOff in
  let* OutConcatResultDims := getPtr OutConcatResultDimsOff in
  let* OutConcatResult := getPtr OutConcatResultOff in
  let* Tensors := getTensors InInputsNTensor InInputsOff InInputsDimsOff in
  call "ONNC_RUNTIME_concat_float"
    [Ptr RuntimeContext; Ptrs Tensors.*1; Int32 (sgn 32 InInputsNTensor); Ptr InInputsNDim;
     Ptrs Tensors.*2; Ptr OutConcatResult; Int32 (sgn 32 OutConcatResultNDim);
     Ptr OutConcatResultDims; Int32 (sgn 32 Axis)].

Definition ONNCRuntimeConvFloat_body (RuntimeContextOff InXOff InXNDim InXDimsOff InWOff InWNDim
    InWDimsOff InBOff InBNDim InBDimsOff OutYOff OutYNDim OutYDimsOff AutoPadOff DelationsOff
    DelationNum Group KernelShapeOff KernelShapeNum PadsOff PadsNum StridesOff StridesNum : Z) : MO
    unit :=
  let* RuntimeContext := getPtr RuntimeContextOff in
  let* InXDims := getPtr InXDimsOff in
  let* InWDims := getPtr InWDimsOff in
  let* InBDims := getPtrOrNull InBDimsOff in
  let* OutYDims := getPtr OutYDimsOff in
  let* InX := getPtr InXOff in
  let* InW := getPtr InWOff in
  let* InB := getPtrOrNull InBOff in
  let* OutY := getPtr OutYOff in
  let* AutoPad := getPtr AutoPadOff in
  let* Delations := getPtr DelationsOff in
  let* KernelShape := getPtr KernelShapeOff in
  let* Pads := getPtr PadsOff in
  let* Strides := getPtr StridesOff in
  call "ONNC_RUNTIME_conv_float"
    [Ptr RuntimeContext; Ptr InX; Int32 (sgn 32 InXNDim); Ptr InXDims; Ptr InW;
     Int32 (sgn 32 InWNDim); Ptr InWDims; Ptr InB; Int32 (sgn 32 InBNDim); Ptr InBDims; Ptr OutY;
     Int32 (sgn 32 OutYNDim); Ptr OutYDims; Ptr AutoPad; Ptr Delations; Int32 (sgn 32 DelationNum);
     Int32 (sgn 32 Group); Ptr KernelShape; Int32 (sgn 32 KernelShapeNum); Ptr Pads;
     Int32 (sgn 32 PadsNum); Ptr Strides; Int32 (sgn 32 StridesNum)].

Definition ONNCRuntimeConvInt8_body (RuntimeContextOff InXOff InXNDim InXDimsOff InWOff InWNDim
    InWDimsOff InBOff InBNDim InBDimsOff OutYOff OutYNDim OutYDimsOff AutoPadOff DelationsOff
    DelationNum Group KernelShapeOff KernelShapeNum PadsOff PadsNum StridesOff StridesNum : Z) : MO
    unit :=
  let* RuntimeContext := getPtr RuntimeContextOff in
  let* InXDims := getPtr InXDimsOff in
  let* InWDims := getPtr InWDimsOff in
  let* InBDims := getPtrOrNull InBDimsOff in
  let* OutYDims := getPtr OutYDimsOff in
  let* InX := getPtr InXOff in
  let* InW := getPtr InWOff in
  let* InB := getPtrOrNull InBOff in
  let* OutY := getPtr OutYOff in
  let* AutoPad := getPtr AutoPadOff in
  let* Delations := getPtr DelationsOff in
  let* KernelShape := getPtr KernelShapeOff in
  let* Pads := getPtr PadsOff in
  let* Strides := getPtr StridesOff in
  call "ONNC_RUNTIME_conv_int8"
    [Ptr RuntimeContext; Ptr InX; Int32 (sgn 32 InXNDim); Ptr InXDims; Ptr InW;
     Int32 (sgn 32 InWNDim); Ptr InWDims; Ptr InB; Int32 (sgn 32 InBNDim); Ptr InBDims; Ptr OutY;
     Int32 (sgn 32 OutYNDim); Ptr OutYDims; Ptr AutoPad; Ptr Delations; Int32 (sgn 32 DelationNum);
     Int32 (sgn 32 Group); Ptr KernelShape; Int32 (sgn 32 KernelShapeNum); Ptr Pads;
     Int32 (sgn 32 PadsNum); Ptr Strides; Int32 (sgn 32 StridesNum)].

Definition ONNCRuntimeGemmFloat_body (RuntimeContextOff InAOff InANDim InADimsOff InBOff InBNDim
    InBDimsOff InCOff InCNDim InCDimsOff OutYOff OutYNDim OutYDimsOff Alpha Beta TransA TransB : Z)
    : MO unit :=
  let* RuntimeContext := getPtr RuntimeContextOff in
  let* InADims := getPtr InADimsOff in
  let* InBDims := getPtr InBDimsOff in
  let* InCDims := getPtrOrNull InCDimsOff in
  let* OutYDims := getPtr OutYDimsOff in
  let* InA := getPtr InAOff in
  let* InB := getPtr InBOff in
  let* InC := getPtrOrNull InCOff in
  let* OutY := getPtr OutYOff in
  call "ONNC_RUNTIME_gemm_float"
    [Ptr RuntimeContext; Ptr InA; Int32 (sgn 32 InANDim); Ptr InADims; Ptr InB;
     Int32 (sgn 32 InBNDim); Ptr InBDims; Ptr InC; Int32 (sgn 32 InCNDim); Ptr InCDims; Ptr OutY;
     Int32 (sgn 32 OutYNDim); Ptr OutYDims; Float Alpha; Float Beta; Int32 (sgn 32 TransA);
     Int32 (sgn 32 TransB)].

Definition ONNCRuntimeGlobalaveragepoolFloat_body (RuntimeContextOff InXOff InXNDim InXDimsOff
    OutYOff OutYNDim OutYDimsOff : Z) : MO unit :=
  let* RuntimeContext := getPtr RuntimeContextOff in
  let* InXDims := getPtr InXDimsOff in
  let* OutYDims := getPtr OutYDimsOff in
  let* InX := getPtr InXOff in
  let* OutY := getPtr OutYOff in
  call "ONNC_RUNTIME_globalaveragepool_float"
    [Ptr RuntimeContext; Ptr InX; Int32 (sgn 32 InXNDim); Ptr InXDims; Ptr OutY;
     Int32 (sgn 32 OutYNDim); Ptr OutYDims].

Definition ONNCRuntimeLrnFloat_body (RuntimeContextOff InXOff InXNDim InXDimsOff OutYOff OutYNDim
    OutYDimsOff Alpha Beta Bias Size : Z) : MO unit :=
  let* RuntimeContext := getPtr RuntimeContextOff in
  let* InXDims := getPtr InXDimsOff in
  let* OutYDims := getPtr OutYDimsOff in
  let* InX := getPtr InXOff in
  let* OutY := getPtr OutYOff in
  call "ONNC_RUNTIME_lrn_float"
    [Ptr RuntimeContext; Ptr InX; Int32 (sgn 32 InXNDim); Ptr InXDims; Ptr OutY;
     Int32 (sgn 32 OutYNDim); Ptr OutYDims; Float Alpha; Float Beta; Float Bias;
     Int32 (sgn 32 Size)].

Definition ONNCRuntimeMaxpoolFloat_body (RuntimeContextOff InXOff InXNDim InXDimsOff OutYOff
    OutYNDim OutYDimsOff OutIndicesOff OutIndicesNDim OutIndicesDimsOff AutoPadOff KernelShapeOff
    KernelShapeNum PadsOff PadsNum StorageOrder StridesOff StridesNum : Z) : MO unit :=
  let* RuntimeContext := getPtr RuntimeContextOff in
  let* InXDims := getPtr InXDimsOff in
  let* OutYDims := getPtr OutYDimsOff in
  let* OutIndicesDims := getPtrOrNull OutIndicesDimsOff in
  let* InX := getPtr InXOff in
  let* OutY := getPtr OutYOff in
  let* OutIndices := getPtrOrNull OutIndicesOff in
  let* AutoPad := getPtr AutoPadOff in
  let* KernelShape := getPtr KernelShapeOff in
  let* Pads := getPtr PadsOff in
  let* Strides := getPtr StridesOff in
  call "ONNC_RUNTIME_maxpool_float"
    [Ptr RuntimeContext; Ptr InX; Int32 (sgn 32 InXNDim); Ptr InXDims; Ptr OutY;
     Int32 (sgn 32 OutYNDim); Ptr OutYDims; Ptr OutIndices; Int32 (sgn 32 OutIndicesNDim);
     Ptr OutIndicesDims; Ptr AutoPad; Ptr KernelShape; Int32 (sgn 32 KernelShapeNum); Ptr Pads;
     Int32 (sgn 32 PadsNum); Int32 (sgn 32 StorageOrder); Ptr Strides; Int32 (sgn 32 StridesNum)].

Definition ONNCRuntimeMaxpoolInt8_body (RuntimeContextOff InXOff InXNDim InXDimsOff OutYOff
    OutYNDim OutYDimsOff OutIndicesOff OutIndicesNDim OutIndicesDimsOff AutoPadOff KernelShapeOff
    KernelShapeNum PadsOff PadsNum StorageOrder StridesOff StridesNum : Z) : MO unit :=
  let* RuntimeContext := getPtr RuntimeContextOff in
  let* InXDims := getPtr InXDimsOff in
  let* OutYDims := getPtr OutYDimsOff in
  let* OutIndicesDims := getPtrOrNull OutIndicesDimsOff in
  let* InX := getPtr InXOff in
  let* OutY := getPtr OutYOff in
  let* OutIndices := getPtrOrNull OutIndicesOff in
  let* AutoPad := getPtr AutoPadOff in
  let* KernelShape := getPtr KernelShapeOff in
  let* Pads := getPtr PadsOff in
  let* Strides := getPtr StridesOff in
  call "ONNC_RUNTIME_maxpool_int8"
    [Ptr RuntimeContext; Ptr InX; Int32 (sgn 32 InXNDim); Ptr InXDims; Ptr OutY;
     Int32 (sgn 32 OutYNDim); Ptr OutYDims; Ptr OutIndices; Int32 (sgn 32 OutIndicesNDim);
     Ptr OutIndicesDims; Ptr AutoPad; Ptr KernelShape; Int32 (sgn 32 KernelShapeNum); Ptr Pads;
     Int32 (sgn 32 PadsNum); Int32 (sgn 32 StorageOrder); Ptr Strides; Int32 (sgn 32 StridesNum)].

Definition ONNCRuntimeMulFloat_body (RuntimeContextOff InAOff InANDim InADimsOff InBOff InBNDim
    InBDimsOff OutCOff OutCNDim OutCDimsOff : Z) : MO unit :=
  let* RuntimeContext := getPtr RuntimeContextOff in
  let* InADims := getPtr InADimsOff in
  let* InBDims := getPtr InBDimsOff in
  let* OutCDims := getPtr OutCDimsOff in
  let* InA := getPtr InAOff in
  let* InB := getPtr InBOff in
  let* OutC := getPtr OutCOff in
  call "ONNC_RUNTIME_mul_float"
    [Ptr RuntimeContext; Ptr InA; Int32 (sgn 32 InANDim); Ptr InADims; Ptr InB;
     Int32 (sgn 32 InBNDim); Ptr InBDims; Ptr OutC; Int32 (sgn 32 OutCNDim); Ptr OutCDims].

Definition ONNCRuntimeMulInt8_body (RuntimeContextOff InAOff InANDim InADimsOff InBOff InBNDim
    InBDimsOff OutCOff OutCNDim OutCDimsOff : Z) : MO unit :=
  let* RuntimeContext := getPtr RuntimeContextOff in
  let* InADims := getPtr InADimsOff in
  let* InBDims := getPtr InBDimsOff in
  let* OutCDims := getPtr OutCDimsOff in
  let* InA := getPtr InAOff in
  let* InB := getPtr InBOff in
  let* OutC := getPtr OutCOff in
  call "ONNC_RUNTIME_mul_int8"
    [Ptr RuntimeContext; Ptr InA; Int32 (sgn 32 InANDim); Ptr InADims; Ptr InB;
     Int32 (sgn 32 InBNDim); Ptr InBDims; Ptr OutC; Int32 (sgn 32 OutCNDim); Ptr OutCDims].

Definition ONNCRuntimeReluFloat_body (RuntimeContextOff InXOff InXNDim InXDimsOff OutYOff OutYNDim
    OutYDimsOff : Z) : MO unit :=
  let* RuntimeContext := getPtr RuntimeContextOff in
  let* InXDims := getPtr InXDimsOff in
  let* OutYDims := getPtr OutYDimsOff in
  let* InX := getPtr InXOff in
  let* OutY := getPtr OutYOff in
  call "ONNC_RUNTIME_relu_float"
    [Ptr RuntimeContext; Ptr InX; Int32 (sgn 32 InXNDim); Ptr InXDims; Ptr OutY;
     Int32 (sgn 32 OutYNDim); Ptr OutYDims].

Definition ONNCRuntimeReluInt8_body (RuntimeContextOff InXOff InXNDim InXDimsOff OutYOff OutYNDim
    OutYDimsOff : Z) : MO unit :=
  let* RuntimeContext := getPtr RuntimeContextOff in
  let* InXDims := getPtr InXDimsOff in
  let* OutYDims := getPtr OutYDimsOff in
  let* InX := getPtr InXOff in
  let* OutY := getPtr OutYOff in
  call "ONNC_RUNTIME_relu_int8"
    [Ptr RuntimeContext; Ptr InX; Int32 (sgn 32 InXNDim); Ptr InXDims; Ptr OutY;
     Int32 (sgn 32 OutYNDim); Ptr OutYDims].

Definition ONNCRuntimeReshapeFloat_body (RuntimeContextOff InDataOff InDataNDim InDataDimsOff
    InShapeOff InShapeNDim InShapeDimsOff OutReshapedOff OutReshapedNDim OutReshapedDimsOff : Z) :
    MO unit :=
  let* RuntimeContext := getPtr RuntimeContextOff in
  let* InDataDims := getPtr InDataDimsOff in
  let* InShapeDims := getPtr InShapeDimsOff in
  let* OutReshapedDims := getPtr OutReshapedDimsOff in
  let* InData := getPtr InDataOff in
  let* InShape := getPtr InShapeOff in
  let* OutReshaped := getPtr OutReshapedOff in
  call "ONNC_RUNTIME_reshape_float"
    [Ptr RuntimeContext; Ptr InData; Int32 (sgn 32 InDataNDim); Ptr InDataDims; Ptr InShape;
     Int32 (sgn 32 InShapeNDim); Ptr InShapeDims; Ptr OutReshaped; Int32 (sgn 32 OutReshapedNDim);
     Ptr OutReshapedDims].

Definition ONNCRuntimeSoftmaxFloat_body (RuntimeContextOff InOff InNDim InDimsOff OutOff OutNDim
    OutDimsOff Axis : Z) : MO unit :=
  let* RuntimeContext := getPtr RuntimeContextOff in
  let* InDims := getPtr InDimsOff in
  let* OutDims := getPtr OutDimsOff in
  let* In := getPtr InOff in
  let* Out := getPtr OutOff in
  call "ONNC_RUNTIME_softmax_float"
    [Ptr RuntimeContext; Ptr In; Int32 (sgn 32 InNDim); Ptr InDims; Ptr Out; Int32 (sgn 32 OutNDim);
     Ptr OutDims; Int32 (sgn 32 Axis)].

Definition ONNCRuntimeSumFloat_body (RuntimeContextOff InDataOffOff InDataNTensor InDataNDimOff
    InDataDimsOffOff OutSumOff OutSumNDim OutSumDimsOff : Z) : MO unit :=
  let* RuntimeContext := getPtr RuntimeContextOff in
  let* InDataOff := getPtr InDataOffOff in
  let* InDataDimsOff := getPtr InDataDimsOffOff in
  let* InDataNDim := getPtr InDataNDimOff in
  let* OutSumDims := getPtr OutSumDimsOff in
  let* OutSum := getPtr OutSumOff in
  let* Tensors := getTensors InDataNTensor InDataOff InDataDimsOff in
  call "ONNC_RUNTIME_sum_float"
    [Ptr RuntimeContext; Ptrs Tensors.*1; Int32 (sgn 32 InDataNTensor); Ptr InDataNDim;
     Ptrs Tensors.*2; Ptr OutSum; Int32 (sgn 32 OutSumNDim); Ptr OutSumDims].

Definition ONNCRuntimeTransposeFloat_body (RuntimeContextOff InDataOff InDataNDim InDataDimsOff
    OutTransposedOff OutTransposedNDim OutTransposedDimsOff PermOff PermNum : Z) : MO unit :=
  let* RuntimeContext := getPtr RuntimeContextOff in
  let* InDataDims := getPtr InDataDimsOff in
  let* OutTransposedDims := getPtr OutTransposedDimsOff in
  let* InData := getPtr InDataOff in
  let* OutTransposed := getPtr OutTransposedOff in
  let* Perm := getPtr PermOff in
  call "ONNC_RUNTIME_transpose_float"
    [Ptr RuntimeContext; Ptr InData; Int32 (sgn 32 InDataNDim); Ptr InDataDims; Ptr OutTransposed;
     Int32 (sgn 32 OutTransposedNDim); Ptr OutTransposedDims; Ptr Perm; Int32 (sgn 32 PermNum)].

Definition ONNCRuntimeUnsqueezeFloat_body (RuntimeContextOff InDataOff InDataNDim InDataDimsOff
    OutExpandedOff OutExpandedNDim OutExpandedDimsOff AxesOff AxesNum : Z) : MO unit :=
  let* RuntimeContext := getPtr RuntimeContextOff in
  let* InDataDims := getPtr InDataDimsOff in
  let* OutExpandedDims := getPtr OutExpandedDimsOff in
  let* InData := getPtr InDataOff in
  let* OutExpanded := getPtr OutExpandedOff in
  let* Axes := getPtr AxesOff in
  call "ONNC_RUNTIME_unsqueeze_float"
    [Ptr RuntimeContext; Ptr InData; Int32 (sgn 32 InDataNDim); Ptr InDataDims; Ptr OutExpanded;
     Int32 (sgn 32 OutExpandedNDim); Ptr OutExpandedDims; Ptr Axes; Int32 (sgn 32 AxesNum)].

(** ** onncfunc.h: the types of the parameters; every function is free. *)

Definition ONNCRuntimeAddFloat : HostFunc C := hostFunction 0 None [U32; U32; U32; U32; U32; U32;
  U32; U32; U32; U32] ONNCRuntimeAddFloat_body.
Definition ONNCRuntimeAddInt8 : HostFunc C := hostFunction 0 None [U32; U32; U32; U32; U32; U32;
  U32; U32; U32; U32] ONNCRuntimeAddInt8_body.
Definition ONNCRuntimeAveragepoolFloat : HostFunc C := hostFunction 0 None [U32; U32; U32; U32; U32;
  U32; U32; U32; U32; U32; U32; U32; U32; U32; U32] ONNCRuntimeAveragepoolFloat_body.
Definition ONNCRuntimeBatchnormalizationFloat : HostFunc C := hostFunction 0 None [U32; U32; U32;
  U32; U32; U32; U32; U32; U32; U32; U32; U32; U32; U32; U32; U32; U32; U32; U32; U32; U32; U32;
  U32; U32; U32; U32; U32; U32; U32; U32; U32; FLT; FLT; U32]
  ONNCRuntimeBatchnormalizationFloat_body.
Definition ONNCRuntimeBatchnormalizationInt8 : HostFunc C := hostFunction 0 None [U32; U32; U32;
  U32; U32; U32; U32; U32; U32; U32; U32; U32; U32; U32; U32; U32; U32; U32; U32; U32; U32; U32;
  U32; U32; U32; U32; U32; U32; U32; U32; U32; S32; S32; U32]
  ONNCRuntimeBatchnormalizationInt8_body.
Definition ONNCRuntimeConcatFloat : HostFunc C := hostFunction 0 None [U32; U32; U32; U32; U32; U32;
  U32; U32; U32] ONNCRuntimeConcatFloat_body.
Definition ONNCRuntimeConvFloat : HostFunc C := hostFunction 0 None [U32; U32; U32; U32; U32; U32;
  U32; U32; U32; U32; U32; U32; U32; U32; U32; U32; U32; U32; U32; U32; U32; U32; U32]
  ONNCRuntimeConvFloat_body.
Definition ONNCRuntimeConvInt8 : HostFunc C := hostFunction 0 None [U32; U32; U32; U32; U32; U32;
  U32; U32; U32; U32; U32; U32; U32; U32; U32; U32; U32; U32; U32; U32; U32; U32; U32]
  ONNCRuntimeConvInt8_body.
Definition ONNCRuntimeGemmFloat : HostFunc C := hostFunction 0 None [U32; U32; U32; U32; U32; U32;
  U32; U32; U32; U32; U32; U32; U32; FLT; FLT; U32; U32] ONNCRuntimeGemmFloat_body.
Definition ONNCRuntimeGlobalaveragepoolFloat : HostFunc C := hostFunction 0 None [U32; U32; U32;
  U32; U32; U32; U32] ONNCRuntimeGlobalaveragepoolFloat_body.
Definition ONNCRuntimeLrnFloat : HostFunc C := hostFunction 0 None [U32; U32; U32; U32; U32; U32;
  U32; FLT; FLT; FLT; U32] ONNCRuntimeLrnFloat_body.
Definition ONNCRuntimeMaxpoolFloat : HostFunc C := hostFunction 0 None [U32; U32; U32; U32; U32;
  U32; U32; U32; U32; U32; U32; U32; U32; U32; U32; U32; U32; U32] ONNCRuntimeMaxpoolFloat_body.
Definition ONNCRuntimeMaxpoolInt8 : HostFunc C := hostFunction 0 None [U32; U32; U32; U32; U32; U32;
  U32; U32; U32; U32; U32; U32; U32; U32; U32; U32; U32; U32] ONNCRuntimeMaxpoolInt8_body.
Definition ONNCRuntimeMulFloat : HostFunc C := hostFunction 0 None [U32; U32; U32; U32; U32; U32;
  U32; U32; U32; U32] ONNCRuntimeMulFloat_body.
Definition ONNCRuntimeMulInt8 : HostFunc C := hostFunction 0 None [U32; U32; U32; U32; U32; U32;
  U32; U32; U32; U32] ONNCRuntimeMulInt8_body.
Definition ONNCRuntimeReluFloat : HostFunc C := hostFunction 0 None [U32; U32; U32; U32; U32; U32;
  U32] ONNCRuntimeReluFloat_body.
Definition ONNCRuntimeReluInt8 : HostFunc C := hostFunction 0 None [U32; U32; U32; U32; U32; U32;
  U32] ONNCRuntimeReluInt8_body.
Definition ONNCRuntimeReshapeFloat : HostFunc C := hostFunction 0 None [U32; U32; U32; U32; U32;
  U32; U32; U32; U32; U32] ONNCRuntimeReshapeFloat_body.
Definition ONNCRuntimeSoftmaxFloat : HostFunc C := hostFunction 0 None [U32; U32; U32; U32; U32;
  U32; U32; U32] ONNCRuntimeSoftmaxFloat_body.
Definition ONNCRuntimeSumFloat : HostFunc C := hostFunction 0 None [U32; U32; U32; U32; U32; U32;
  U32; U32] ONNCRuntimeSumFloat_body.
Definition ONNCRuntimeTransposeFloat : HostFunc C := hostFunction 0 None [U32; U32; U32; U32; U32;
  U32; U32; U32; U32] ONNCRuntimeTransposeFloat_body.
Definition ONNCRuntimeUnsqueezeFloat : HostFunc C := hostFunction 0 None [U32; U32; U32; U32; U32;
  U32; U32; U32; U32] ONNCRuntimeUnsqueezeFloat_body.

(** ** onncmodule.cpp *)

Definition ONNCFuncs : list (string * HostFunc C) :=
  [ ("ONNC_RUNTIME_add_float"%string, ONNCRuntimeAddFloat);
    ("ONNC_RUNTIME_add_int8"%string, ONNCRuntimeAddInt8);
    ("ONNC_RUNTIME_averagepool_float"%string, ONNCRuntimeAveragepoolFloat);
    ("ONNC_RUNTIME_batchnormalization_float"%string, ONNCRuntimeBatchnormalizationFloat);
    ("ONNC_RUNTIME_batchnormalization_int8"%string, ONNCRuntimeBatchnormalizationInt8);
    ("ONNC_RUNTIME_concat_float"%string, ONNCRuntimeConcatFloat);
    ("ONNC_RUNTIME_conv_float"%string, ONNCRuntimeConvFloat);
    ("ONNC_RUNTIME_conv_int8"%string, ONNCRuntimeConvInt8);
    ("ONNC_RUNTIME_gemm_float"%string, ONNCRuntimeGemmFloat);
    ("ONNC_RUNTIME_globalaveragepool_float"%string, ONNCRuntimeGlobalaveragepoolFloat);
    ("ONNC_RUNTIME_lrn_float"%string, ONNCRuntimeLrnFloat);
    ("ONNC_RUNTIME_maxpool_float"%string, ONNCRuntimeMaxpoolFloat);
    ("ONNC_RUNTIME_maxpool_int8"%string, ONNCRuntimeMaxpoolInt8);
    ("ONNC_RUNTIME_mul_float"%string, ONNCRuntimeMulFloat);
    ("ONNC_RUNTIME_mul_int8"%string, ONNCRuntimeMulInt8);
    ("ONNC_RUNTIME_relu_float"%string, ONNCRuntimeReluFloat);
    ("ONNC_RUNTIME_relu_int8"%string, ONNCRuntimeReluInt8);
    ("ONNC_RUNTIME_reshape_float"%string, ONNCRuntimeReshapeFloat);
    ("ONNC_RUNTIME_softmax_float"%string, ONNCRuntimeSoftmaxFloat);
    ("ONNC_RUNTIME_sum_float"%string, ONNCRuntimeSumFloat);
    ("ONNC_RUNTIME_transpose_float"%string, ONNCRuntimeTransposeFloat);
    ("ONNC_RUNTIME_unsqueeze_float"%string, ONNCRuntimeUnsqueezeFloat) ].

Definition ONNCModule {T} (emb : HostFunc C -> HostFunc T) : ImportObject T :=
  hostModule emb "onnc_wasm" ONNCFuncs.

End Onnc.
