(* ===== verification/OnncFacts.v ===== *)
(** * The ONNC functions pass on what the runtime asks for

    A reference for every function, made from the prototype of the runtime function
    (thirdparty/onnc/onnc_runtime.h) and from the arguments the comments call optional; the
    bodies are equal to it, and so keep what engine and VM ask of host functions. *)
From stdpp Require Import base list numbers option strings.
From Stdlib Require Import ZArith Lia.
From S2P Require Import Prelude Types Memory StackMgr Runtime EngineRefine EngineFuel HostFunc HostFuncFacts.
From S2P Require Import WasiFacts Onnc.
#[local] Open Scope Z_scope.

(** ** The reference *)

(** A parameter of a prototype: a pointer, an optional one, an array of pointers as long as
    the argument with a number says, numbers. *)
Inductive CParam : Set := PPtr | POpt | PPtrs (count : nat) | PInt32 | PInt8 | PFloat.

Definition prototypes : list (string * list CParam) :=
  [ ("ONNC_RUNTIME_add_float"%string,
      [PPtr; PPtr; PInt32; PPtr; PPtr; PInt32; PPtr; PPtr; PInt32; PPtr]);
    ("ONNC_RUNTIME_add_int8"%string,
      [PPtr; PPtr; PInt32; PPtr; PPtr; PInt32; PPtr; PPtr; PInt32; PPtr]);
    ("ONNC_RUNTIME_averagepool_float"%string,
      [PPtr; PPtr; PInt32; PPtr; PPtr; PInt32; PPtr; PPtr; PInt32; PPtr; PInt32; PPtr; PInt32; PPtr;
       PInt32]);
    ("ONNC_RUNTIME_batchnormalization_float"%string,
      [PPtr; PPtr; PInt32; PPtr; PPtr; PInt32; PPtr; PPtr; PInt32; PPtr; PPtr; PInt32; PPtr; PPtr;
       PInt32; PPtr; PPtr; PInt32; PPtr; POpt; PInt32; POpt; POpt; PInt32; POpt; POpt; PInt32; POpt;
       POpt; PInt32; POpt; PFloat; PFloat; PInt32]);
    ("ONNC_RUNTIME_batchnormalization_int8"%string,
      [PPtr; PPtr; PInt32; PPtr; PPtr; PInt32; PPtr; PPtr; PInt32; PPtr; PPtr; PInt32; PPtr; PPtr;
       PInt32; PPtr; PPtr; PInt32; PPtr; POpt; PInt32; POpt; POpt; PInt32; POpt; POpt; PInt32; POpt;
       POpt; PInt32; POpt; PInt8; PInt8; PInt32]);
    ("ONNC_RUNTIME_concat_float"%string,
      [PPtr; PPtrs 2; PInt32; PPtr; PPtrs 2; PPtr; PInt32; PPtr; PInt32]);
    ("ONNC_RUNTIME_conv_float"%string,
      [PPtr; PPtr; PInt32; PPtr; PPtr; PInt32; PPtr; POpt; PInt32; POpt; PPtr; PInt32; PPtr; PPtr;
       PPtr; PInt32; PInt32; PPtr; PInt32; PPtr; PInt32; PPtr; PInt32]);
    ("ONNC_RUNTIME_conv_int8"%string,
      [PPtr; PPtr; PInt32; PPtr; PPtr; PInt32; PPtr; POpt; PInt32; POpt; PPtr; PInt32; PPtr; PPtr;
       PPtr; PInt32; PInt32; PPtr; PInt32; PPtr; PInt32; PPtr; PInt32]);
    ("ONNC_RUNTIME_gemm_float"%string,
      [PPtr; PPtr; PInt32; PPtr; PPtr; PInt32; PPtr; POpt; PInt32; POpt; PPtr; PInt32; PPtr; PFloat;
       PFloat; PInt32; PInt32]);
    ("ONNC_RUNTIME_globalaveragepool_float"%string,
      [PPtr; PPtr; PInt32; PPtr; PPtr; PInt32; PPtr]);
    ("ONNC_RUNTIME_lrn_float"%string,
      [PPtr; PPtr; PInt32; PPtr; PPtr; PInt32; PPtr; PFloat; PFloat; PFloat; PInt32]);
    ("ONNC_RUNTIME_maxpool_float"%string,
      [PPtr; PPtr; PInt32; PPtr; PPtr; PInt32; PPtr; POpt; PInt32; POpt; PPtr; PPtr; PInt32; PPtr;
       PInt32; PInt32; PPtr; PInt32]);
    ("ONNC_RUNTIME_maxpool_int8"%string,
      [PPtr; PPtr; PInt32; PPtr; PPtr; PInt32; PPtr; POpt; PInt32; POpt; PPtr; PPtr; PInt32; PPtr;
       PInt32; PInt32; PPtr; PInt32]);
    ("ONNC_RUNTIME_mul_float"%string,
      [PPtr; PPtr; PInt32; PPtr; PPtr; PInt32; PPtr; PPtr; PInt32; PPtr]);
    ("ONNC_RUNTIME_mul_int8"%string,
      [PPtr; PPtr; PInt32; PPtr; PPtr; PInt32; PPtr; PPtr; PInt32; PPtr]);
    ("ONNC_RUNTIME_relu_float"%string,
      [PPtr; PPtr; PInt32; PPtr; PPtr; PInt32; PPtr]);
    ("ONNC_RUNTIME_relu_int8"%string,
      [PPtr; PPtr; PInt32; PPtr; PPtr; PInt32; PPtr]);
    ("ONNC_RUNTIME_reshape_float"%string,
      [PPtr; PPtr; PInt32; PPtr; PPtr; PInt32; PPtr; PPtr; PInt32; PPtr]);
    ("ONNC_RUNTIME_softmax_float"%string,
      [PPtr; PPtr; PInt32; PPtr; PPtr; PInt32; PPtr; PInt32]);
    ("ONNC_RUNTIME_sum_float"%string,
      [PPtr; PPtrs 2; PInt32; PPtr; PPtrs 2; PPtr; PInt32; PPtr]);
    ("ONNC_RUNTIME_transpose_float"%string,
      [PPtr; PPtr; PInt32; PPtr; PPtr; PInt32; PPtr; PPtr; PInt32]);
    ("ONNC_RUNTIME_unsqueeze_float"%string,
      [PPtr; PPtr; PInt32; PPtr; PPtr; PInt32; PPtr; PPtr; PInt32]) ].

(** The type of the argument that a Wasm function passes for it. *)
Definition wasm_type (p : CParam) : CType :=
  match p with PInt8 => S32 | PFloat => FLT | _ => U32 end.

(** The place [x], when it is in the vector that holds the allocated part of the memory (an
    offset inside the pages that nothing touched yet is not), and the [i]-th word from there. *)
Definition pointer (d : list Z) (x : Z) : option Z := if x <? sizeZ d then Some x else None.
Definition word (d : list Z) (x i : Z) : option Z :=
  if x + 4 * i + 4 <=? sizeZ d then Some (le_combine (slice (x + 4 * i) 4 d)) else None.
Definition pointers (d : list Z) (x : Z) (l : list Z) : option (list (option Z)) :=
  mapM (fun i => pointer d <$> word d x i) l.

Definition argument (d : list Z) (args : list Z) (p : CParam) (x : Z) : option CArg :=
  match p with
  | PPtr => Some (Ptr (pointer d x))
  | POpt => Some (Ptr (if x =? 0 then None else pointer d x))
  | PPtrs k => Ptrs <$> pointers d x (seqZ 0 (default 0 (args !! k)))
  | PInt32 => Some (Int32 (sgn 32 x))
  | PInt8 => Some (Int8 (sgn 8 x))
  | PFloat => Some (Float x)
  end.
Definition arguments (d : list Z) (ps : list CParam) (args : list Z) : option (list CArg) :=
  mapM (fun px => argument d args px.1 px.2) (zip ps args).

Fixpoint tuple_list (Ts : list CType) : tuple Ts -> list Z :=
  match Ts with [] => fun _ => [] | _ :: Ts' => fun t => t.1 :: tuple_list Ts' t.2 end.
Fixpoint curry {B} (Ts : list CType) : (tuple Ts -> B) -> fun_of Ts B :=
  match Ts with
  | [] => fun f => f tt
  | _ :: Ts' => fun f x => curry Ts' (fun t => f (x, t))
  end.

(** Unfolds the bodies. *)
Ltac unfold_onnc :=
  unfold ONNCRuntimeAddFloat_body, ONNCRuntimeAddInt8_body, ONNCRuntimeAveragepoolFloat_body,
    ONNCRuntimeBatchnormalizationFloat_body, ONNCRuntimeBatchnormalizationInt8_body,
    ONNCRuntimeConcatFloat_body, ONNCRuntimeConvFloat_body, ONNCRuntimeConvInt8_body,
    ONNCRuntimeGemmFloat_body, ONNCRuntimeGlobalaveragepoolFloat_body, ONNCRuntimeLrnFloat_body,
    ONNCRuntimeMaxpoolFloat_body, ONNCRuntimeMaxpoolInt8_body, ONNCRuntimeMulFloat_body,
    ONNCRuntimeMulInt8_body, ONNCRuntimeReluFloat_body, ONNCRuntimeReluInt8_body,
    ONNCRuntimeReshapeFloat_body, ONNCRuntimeSoftmaxFloat_body, ONNCRuntimeSumFloat_body,
    ONNCRuntimeTransposeFloat_body, ONNCRuntimeUnsqueezeFloat_body.

Section Reference.
Context {C : Type} (runtime : ONNCRuntime C).
#[local] Abbreviation MO := (M (HostCtx C)).

(** One call of the runtime, if every offset that is needed can be read. *)
Definition proto_body (p : string * list CParam) (t : tuple (wasm_type <$> p.2)) : MO unit := fun c =>
  match arguments (Data (hcMem c)) p.2 (tuple_list _ t) with
  | Some l => call runtime p.1 l c
  | None => (Undef UB_deref, c)
  end.
Definition proto_func (p : string * list CParam) : HostFunc C :=
  hostFunction 0 None (wasm_type <$> p.2) (curry _ (proto_body p)).

Lemma apply_curry {B} Ts (f : tuple Ts -> B) t : apply Ts (curry Ts f) t = f t.
Proof using Type.
  induction Ts as [|T Ts IH]; cbn; [by destruct t|]. rewrite IH. by destruct t.
Qed.

Lemma hostInvoke_ext RetT Ts (b1 b2 : fun_of Ts (MO unit)) stk mem mea h :
  (forall args c, apply Ts b1 args c = apply Ts b2 args c) ->
  hostInvoke RetT Ts b1 stk mem mea h = hostInvoke RetT Ts b2 stk mem mea h.
Proof using Type.
  intros Hb. unfold hostInvoke. destruct (_ <? _); [done|].
  destruct (popTuple _ _ _) as [[t|e|u|] s]; [by rewrite Hb|done..].
Qed.

(** ** The steps of the bodies *)

Lemma bind_getPtr {A} Off (k : option Z -> MO A) c :
  (let* p := getPtr Off in k p) c = k (pointer (Data (hcMem c)) Off) c.
Proof using Type.
  unfold getPtr, gets, bind, getPointer, pointer.
  destruct (Z.leb_spec (sizeZ (Data (hcMem c))) Off), (Z.ltb_spec Off (sizeZ (Data (hcMem c)))); done || lia.
Qed.
Lemma bind_getPtrOrNull {A} Off (k : option Z -> MO A) c :
  (let* p := getPtrOrNull Off in k p) c = k (if Off =? 0 then None else pointer (Data (hcMem c)) Off) c.
Proof using Type.
  unfold getPtrOrNull, gets, bind, getPointerOrNull, pointer.
  destruct (Z.leb_spec (sizeZ (Data (hcMem c))) Off), (Z.ltb_spec Off (sizeZ (Data (hcMem c)))), (Off =? 0);
    done || lia.
Qed.

Lemma at32_word x i (c : HostCtx C) : 0 <= i -> at32 (pointer (Data (hcMem c)) x) i c =
  match word (Data (hcMem c)) x i with Some w => (Ok w, c) | None => (Undef UB_deref, c) end.
Proof using Type.
  intros Hi. unfold at32, bind, get, pointer, word. set (n := sizeZ _).
  destruct (Z.ltb_spec x n), (Z.leb_spec (x + 4 * i + 4) n); try done. lia.
Qed.

Lemma tensorsFrom_spec n i x y (c : HostCtx C) : 0 <= i ->
  let d := Data (hcMem c) in
  tensorsFrom n i (pointer d x) (pointer d y) c =
  match pointers d x (seqZ i (Z.of_nat n)), pointers d y (seqZ i (Z.of_nat n)) with
  | Some a, Some b => (Ok (zip a b), c)
  | _, _ => (Undef UB_deref, c)
  end.
Proof using Type.
  intros Hi d. revert i Hi; induction n as [|n IH]; intros i Hi; [done|].
  pose proof (at32_word x i c Hi) as E1. pose proof (at32_word y i c Hi) as E2. fold d in E1, E2.
  rewrite seqZ_cons by lia. replace (Z.pred (Z.of_nat (S n))) with (Z.of_nat n) by lia.
  replace (Z.succ i) with (i + 1) by lia. cbn [tensorsFrom]. unfold bind at 1. rewrite E1.
  unfold pointers in *. cbn [mapM]. destruct (word d x i) as [w|]; [|done].
  rewrite bind_getPtr. unfold bind at 1. rewrite E2.
  destruct (word d y i) as [w'|]; [|cbn; by destruct (mapM _ _)].
  rewrite bind_getPtr. unfold bind. rewrite IH by lia. fold d. cbn.
  by destruct (mapM _ (seqZ (i + 1) _)), (mapM _ (seqZ (i + 1) _)).
Qed.

Lemma bind_getTensors {A} N x y (k : list (option Z * option Z) -> MO A) c :
  let d := Data (hcMem c) in
  (let* l := getTensors N (pointer d x) (pointer d y) in k l) c =
  match pointers d x (seqZ 0 N), pointers d y (seqZ 0 N) with
  | Some a, Some b => k (zip a b) c
  | _, _ => (Undef UB_deref, c)
  end.
Proof using Type.
  intros d. pose proof (tensorsFrom_spec (Z.to_nat N) 0 x y c ltac:(lia)) as E. cbv zeta in E. fold d in E.
  replace (seqZ 0 (Z.of_nat (Z.to_nat N))) with (seqZ 0 N) in E by (unfold seqZ; by rewrite Nat2Z.id).
  unfold getTensors, bind. rewrite E. by destruct (pointers d x (seqZ 0 N)), (pointers d y (seqZ 0 N)).
Qed.

Lemma pointers_pair d x y l a b : pointers d x l = Some a -> pointers d y l = Some b ->
  (zip a b).*1 = a /\ (zip a b).*2 = b.
Proof using Type.
  intros Ha Hb. apply length_mapM in Ha, Hb. split; [apply fst_zip|apply snd_zip]; lia.
Qed.

(** The functions are those of the prototypes. *)
Lemma onnc_reference :
  Forall2 (fun f p => f.1 = p.1 /\ hfType f.2 = hfType (proto_func p) /\ hfCost f.2 = hfCost (proto_func p) /\
    forall stk mem mea s, hfRun f.2 stk mem mea s = hfRun (proto_func p) stk mem mea s)
    (ONNCFuncs runtime) prototypes.
Proof using Type.
  unfold ONNCFuncs, prototypes. repeat (apply Forall2_cons; split); [..|constructor].
  all: split_and!; [reflexivity..|]; intros stk mem mea s; apply hostInvoke_ext; intros args c;
    rewrite apply_curry.
  all: cbn [wasm_type fmap list_fmap snd apply tuple] in args |- *; unfold_onnc;
    repeat (rewrite bind_getPtr || rewrite bind_getPtrOrNull); try reflexivity.
  all: rewrite bind_getTensors; unfold proto_body, arguments; cbn.
  all: destruct (pointers _ args.2.1 _) as [a|] eqn:Ea; [|done]; cbn.
  all: destruct (pointers _ args.2.2.2.2.1 _) as [b|] eqn:Eb; [|done]; cbn.
  all: by destruct (pointers_pair _ _ _ _ _ _ Ea Eb) as [-> ->].
Qed.

(** ** What the module promises *)

(** They neither touch the gas counters nor take fuel. *)
Lemma onnc_untouched : Forall (fun f => host_untouched f.2) (ONNCFuncs runtime).
Proof using Type.
  apply list.Forall_forall. intros f Hf. apply list_elem_of_lookup in Hf as [i Hi].
  destruct (Forall2_lookup_l _ _ _ _ _ onnc_reference Hi) as (p & _ & _ & _ & Hc & Hr).
  split; [by rewrite Hc|]. intros stk mem mea hs. rewrite Hr.
  apply (hostInvoke_meter (fun o => o = mea)); [done|]. intros args k _ <-. rewrite apply_curry.
  unfold proto_body, call. by repeat case_match.
Qed.

(** [C24] The ONNC functions agree with the prototypes.  Function by function, in the order in
    which the module registers them, they have the name of the function of the runtime and
    for its parameters the types; they are free.  Called with values of these types on top
    of the stack, each takes them off and calls that function once, with the arguments in the
    order of the prototype: an offset inside the part of the memory that is allocated so far
    becomes a pointer, another null, be it inside the pages or not, and so does 0 where the
    argument is optional; an array of pointers is made from the offsets in memory, for as
    many tensors as the arguments say; 32-bit integers are read as signed, an 8-bit argument
    is truncated to its low eight bits, and floats are passed as they are.  What that call
    leaves in the memory is all that changes; where an offset of such an array lies outside
    the allocated part, or the runtime goes wrong, the call is undefined. *)
Theorem onnc_calls_match_prototypes (vs rest : list ValVariant) (stk : StackManager)
    (mem : MemoryInstance) (mea : option Measurement) (s : C) :
  Forall2 (fun f p => f.1 = p.1 /\ hfCost f.2 = 0 /\
    hfType f.2 = mkFType (ValTypeFromType ∘ wasm_type <$> p.2) [] /\
    (Forall2 has_type (Params (hfType f.2)) vs -> ValueStack stk = reverse vs ++ rest ->
     exists args, args_of (wasm_type <$> p.2) vs = Some args /\
       hfRun f.2 stk mem mea s =
         match arguments (Data mem) p.2 (tuple_list _ args) ≫= (fun l => runtime p.1 l (Data mem) s) with
         | Some (d, s') => (Ok Success, (set_values rest stk, set_Data d mem, mea, s'))
         | None => (Undef UB_deref, (set_values rest stk, mem, mea, s))
         end))
    (ONNCFuncs runtime) prototypes.
Proof using Type.
  eapply Forall2_impl; [apply onnc_reference|]. intros f p (Hn & Ht & Hc & Hr).
  assert (hfType f.2 = mkFType (ValTypeFromType ∘ wasm_type <$> p.2) []) as Ht'.
  { rewrite Ht. cbn. unfold initializeFuncType. by rewrite <- list_fmap_compose. }
  split_and!; [done|done|done|]. intros Hv Hs. rewrite Ht' in Hv. cbn in Hv. rewrite list_fmap_compose in Hv.
  destruct (args_of_typed _ _ Hv) as (Hl & args & Ha). exists args. split; [done|]. rewrite Hr.
  cbn [proto_func hostFunction hfRun].
  destruct (proto_body p args (mkCtx mem mea s None)) as [r c] eqn:E.
  rewrite (hostInvoke_ok None _ _ vs rest args stk mem mea s r c) by (rewrite ?apply_curry; done).
  unfold proto_body, call in E. cbn [hcMem hcEnv] in E. destruct (arguments _ _ _) as [l|]; cbn; simplify_eq/=; [|done].
  destruct (runtime p.1 l (Data mem) s) as [[d s']|]; by simplify_eq/=.
Qed.

End Reference.

(** A runtime that knows one function: a relu on bytes, of the first [n] of its input. *)
Definition example_relu : ONNCRuntime Z := fun Name Args d calls =>
  match Args with
  | [_; Ptr (Some x); Int32 n; _; Ptr (Some y); _; _] =>
      if (Name =? "ONNC_RUNTIME_relu_int8")%string
      then Some (splice y ((fun b => if b <? 128 then b else 0) <$> slice x n d) d, calls + 1) else None
  | _ => None
  end.

Lemma onnc_calls_match_prototypes_witness :
  let vs := mkVariant U32 <$> [0; 1; 3; 0; 5; 3; 0] in
  hfRun (ONNCRuntimeReluInt8 example_relu) (mkStack (reverse vs ++ [mkVariant U32 9]) [] [])
    (mkMemory false 1 0 0 [0; 7; 200; 3; 0; 0; 0; 0]) None 0 =
  (Ok Success, (mkStack [mkVariant U32 9] [] [],
     mkMemory false 1 0 0 [0; 7; 200; 3; 0; 7; 0; 3], None, 1)).
Proof.
  intros vs. pose proof (onnc_calls_match_prototypes example_relu vs [mkVariant U32 9]
    (mkStack (reverse vs ++ [mkVariant U32 9]) [] []) (mkMemory false 1 0 0 [0; 7; 200; 3; 0; 0; 0; 0]) None 0) as Hf.
  destruct (Forall2_lookup_lr _ _ _ 16%nat _ _ Hf eq_refl eq_refl) as (_ & _ & _ & Hr).
  destruct Hr as (args & Ha & Hrun); [repeat constructor|reflexivity|].
  vm_compute in Ha. injection Ha as <-. etransitivity; [exact Hrun|]. vm_compute. reflexivity.
Defined.

(** The table of offsets is not checked: a guest whose offset for it lies outside the memory
    makes the host dereference a null pointer. *)
Theorem onnc_null_offsets (runtime : ONNCRuntime Z) (s : Z) :
  (hfRun (ONNCRuntimeConcatFloat runtime) (mkStack (reverse (mkVariant U32 <$> [0; 8; 1; 0; 0; 0; 0; 0; 0])) [] [])
     (mkMemory false 1 0 0 [0; 0; 0; 0; 0; 0; 0; 0]) None s).1 = Undef UB_deref.
Proof. reflexivity. Qed.
