(* ===== verification/HostModules.v ===== *)
(** * The VM with its host modules: lib/expvm/vm.cpp with lib/host/{ethereum,wasi}

    The state the host modules keep, the VM the constructor makes with them, and what the
    theorems about host functions, engine, store and VM give together: in every state a
    client can bring about, execution refines the structured semantics, no more gas is used
    than the limit, and metered execution with the WASI module ends. *)
From stdpp Require Import base list numbers option strings.
From Stdlib Require Import ZArith Lia.
From S2P Require Import Prelude Types Instruction AST Memory FileMgr Loader FormChecker.
From S2P Require Import Validator StackMgr Runtime Interpreter EngineSpec EngineRefine EngineFuel.
From S2P Require Import Instantiate StoreFacts VM VMFacts HostFunc HostFuncFacts EEI EEIGas.
From S2P Require Import Wasi WasiFacts.
#[local] Open Scope Z_scope.

(** ** The modules and their state *)

(** The members [Env] of [EEIModule] and of [WasiModule]. *)
Record HostWorld (E X : Type) : Type := mkWorld { hwEVM : EVMEnvironment E; hwWasi : WasiState X }.
Arguments mkWorld {E X} hwEVM hwWasi.
Arguments hwEVM {E X} h.
Arguments hwWasi {E X} h.

Section Modules.
Context {E X : Type} (os : OS X) (host : evmc_host_interface E) (keccak256 : list Z -> list Z).
#[local] Abbreviation HW := (HostWorld E X).

Definition set_hwEVM (e : EVMEnvironment E) (w : HW) : HW := mkWorld e (hwWasi w).
Definition set_hwWasi (x : WasiState X) (w : HW) : HW := mkWorld (hwEVM w) x.

Definition VMWasi : ImportObject HW := WasiModule os (embedHost hwWasi set_hwWasi).
Definition VMEEI : ImportObject HW := EEIModule host keccak256 (embedHost hwEVM set_hwEVM).

(** The WASI environment opens its directory only if the module is made. *)
Definition newWorld (Config : Configure) (o : X) : HW :=
  mkWorld newEVMEnvironment
    (if hasVMType VM_Wasi Config then newWasiEnvironment os o else mkWasi (mkWasiEnv None [] [] 0) o).

Definition makeVM (Config : Configure) (o : X) : res unit * VM HW :=
  newVM VMWasi VMEEI Config newStoreManager (newWorld Config o).

End Modules.

(** ** What a host module promises *)

(** Every function of the module has the property. *)
Definition func_of {H} (P : HostFunc H -> Prop) (f : FunctionInstance H) : Prop :=
  match f with HostFunctionInst h => P h | _ => True end.

Class HostLaws {H} (P : HostFunc H -> Prop) (Obj : ImportObject H) : Prop :=
  host_laws : object_ok (func_of P) Obj.

Lemma emplace_Forall {A} (Q : list Z * A -> Prop) k v (m : smap A) :
  Forall Q m -> Q (k, v) -> Forall Q (map_emplace k v m).
Proof.
  intros Hm Hv. unfold map_emplace. destruct (map_find k m); [done|].
  induction Hm as [|[k' v'] m Hk Hm IH]; cbn; [by repeat constructor|].
  repeat case_match; repeat constructor; try done; subst; try done.
Qed.

Lemma hostModule_laws {S T} (P : HostFunc T -> Prop) (emb : HostFunc S -> HostFunc T) Name fs :
  Forall (fun p => P (emb p.2)) fs -> HostLaws P (hostModule emb Name fs).
Proof.
  unfold HostLaws, object_ok, hostModule. intros Hfs.
  assert (forall o : ImportObject T, Forall (fun kv => func_of P kv.2) (ioFuncs o) ->
    Forall (fun kv => func_of P kv.2)
      (ioFuncs (fold_left (fun o f => addHostFunc (chars f.1) (emb f.2) o) fs o))) as Hgen.
  { induction Hfs as [|f fs Hf Hfs IH]; intros o Ho; [done|]. cbn [fold_left]. apply IH.
    by apply emplace_Forall. }
  apply Hgen. constructor.
Qed.

Lemma hostModule_name {S T} (emb : HostFunc S -> HostFunc T) Name fs :
  ioName (hostModule emb Name fs) = chars Name.
Proof.
  unfold hostModule. assert (forall o : ImportObject T,
    ioName (fold_left (fun o f => addHostFunc (chars f.1) (emb f.2) o) fs o) = ioName o) as Hgen.
  { induction fs as [|f fs IH]; intros o; [done|]. cbn [fold_left]. by rewrite IH. }
  apply Hgen.
Qed.

(** A function that keeps the gas counters in order. *)
Definition host_gas_ok {H} (h : HostFunc H) : Prop := forall stk mem m hs, gas_ok m ->
  exists m', (hfRun h stk mem (Some m) hs).2.1.2 = Some m' /\ gas_ok m' /\ CostLimit m' = CostLimit m.

Lemma embedHost_gas_ok {S T} (getter : T -> S) setter h : host_gas_ok h -> host_gas_ok (embedHost getter setter h).
Proof.
  intros Hg stk mem m t Hm. destruct (Hg stk mem m (getter t) Hm) as (m' & Hr & Hok). cbn.
  destruct (hfRun _ _ _ _ _) as [? [[[??]?]?]]. by exists m'.
Qed.

Section Laws.
Context {E X : Type} (os : OS X) (host : evmc_host_interface E) (keccak256 : list Z -> list Z).

#[export] Instance wasi_values : HostLaws host_values_only (VMWasi (E := E) os).
Proof.
  apply hostModule_laws, (Forall_impl (fun p => host_values_only p.2));
    [|intros p; apply embedHost_values_only].
  unfold WasiFuncs. repeat (apply Forall_cons; split; [apply hostFunction_values_only|]). constructor.
Qed.

#[export] Instance eei_values : HostLaws host_values_only (VMEEI (X := X) host keccak256).
Proof.
  apply hostModule_laws, (Forall_impl (fun p => host_values_only p.2));
    [|intros p; apply embedHost_values_only].
  unfold EEIFuncs. repeat (apply Forall_cons; split; [apply hostFunction_values_only|]). constructor.
Qed.

#[export] Instance wasi_gas : HostLaws host_gas_ok (VMWasi (E := E) os).
Proof.
  apply hostModule_laws. eapply Forall_impl; [apply wasi_untouched|]. intros [n f] [_ Hf].
  apply embedHost_gas_ok. intros stk mem m hs Hm. specialize (Hf stk mem (Some m) hs). cbn in *.
  destruct (hfRun f stk mem (Some m) hs) as [? [[[??]?]?]]. destruct Hf as [_ ->]. by exists m.
Qed.

#[export] Instance eei_gas : HostLaws host_gas_ok (VMEEI (X := X) host keccak256).
Proof.
  apply hostModule_laws. apply list.Forall_forall. intros [n f] Hf.
  apply embedHost_gas_ok. intros stk mem m hs Hm.
  pose proof (eei_host_gas host keccak256 n f Hf stk mem m hs Hm) as Hg. cbn.
  destruct (hfRun f stk mem (Some m) hs) as [? [[[??]?]?]]. destruct Hg as (_ & m' & -> & Hr).
  exists m'. split; [done|]. split; [by apply (gas_rel_ok false m)|by destruct Hr as (_ & ? & _)].
Qed.

Lemma wasi_metered L : L < 2 ^ 64 -> HostLaws (host_metered L) (VMWasi (E := E) os).
Proof.
  intros HL. apply hostModule_laws. eapply Forall_impl; [apply wasi_untouched|]. intros [n f] Hf.
  apply embedHost_metered. by apply untouched_metered.
Qed.

End Laws.

(** ** Every reachable VM *)

(** Nothing is asked of the measurement, or nothing of the names. *)
Abbreviation anything := (fun _ => True).

Lemma plain_laws {H} (P : HostFunc H -> Prop) : vm_laws (func_of P) anything.
Proof. by repeat split. Qed.
Lemma plain_new : new_laws anything.
Proof. done. Qed.

(** The counters are there and in order, within any limit or a given one. *)
Definition meter_within (Lim : Z -> Prop) (o : option Measurement) : Prop :=
  exists m, o = Some m /\ gas_ok m /\ Lim (CostLimit m).
Definition meter_ok : option Measurement -> Prop := meter_within anything.

Lemma addCost_ok c m : gas_ok m -> gas_ok (addCost c m).2 /\ CostLimit (addCost c m).2 = CostLimit m.
Proof.
  intros [[H1 H2] H3]. unfold addCost. destruct (_ >? _) eqn:E; [done|]. split; [|done]. split; [done|]. cbn.
  pose proof (Z.mod_pos_bound (CostSum m + c) (2 ^ 64)). unfold wrap in *. lia.
Qed.

Lemma gas_laws {H} Lim : vm_laws (func_of (host_gas_ok (H := H))) (meter_within Lim).
Proof.
  split; [split|].
  - intros c m (m' & [= <-] & Hm & Hl). destruct (addCost_ok c m Hm) as [H1 H2]. eexists.
    split_and!; [done|done|by rewrite H2].
  - intros m (m' & [= <-] & Hm & Hl). by eexists.
  - intros h stk mem mea hs Hh (m & -> & Hm & Hl). destruct (Hh stk mem m hs Hm) as (m' & -> & H1 & H2).
    exists m'. split_and!; [done|done|by rewrite H2].
  - done.
  - intros m (m' & [= <-] & Hm & Hl). by eexists.
Qed.

Lemma gas_new : new_laws meter_ok.
Proof.
  split; [|intros Tab m (m' & [= <-] & Hm & _); by eexists].
  eexists. split; [done|]. split; [|done]. split; by vm_compute.
Qed.

Section Reachable.
Context {E X : Type} (os : OS X) (host : evmc_host_interface E) (keccak256 : list Z -> list Z).
#[local] Abbreviation HW := (HostWorld E X).

(** What a client may do with a VM: register host modules with the property, and change the
    measurement so that it stays in order. *)
Definition client_reach (P : HostFunc HW -> Prop) (G : option Measurement -> Prop) (Config : Configure)
    (o : X) : VM HW -> Prop :=
  vm_reach_with (op_ok (func_of P) G anything) (VMWasi os) (VMEEI host keccak256) Config
    (newWorld os Config o).

Lemma client_inv P G Config o vm : vm_laws (func_of P) G -> new_laws G ->
  (hasVMType VM_Wasi Config = true -> HostLaws P (VMWasi (E := E) os)) ->
  (hasVMType VM_Ewasm Config = true -> HostLaws P (VMEEI (X := X) host keccak256)) ->
  client_reach P G Config o vm -> vm_inv (func_of P) G anything vm.
Proof.
  intros HL HN HW0 HE0. apply reach_inv; [done|done|intros Hc; by split; [apply HW0|]|intros Hc; by split; [apply HE0|]].
Qed.

(** [C11] Execution in a VM is the structured semantics.  Take any VM made with the WASI and
    EEI modules, and any state to which a client can bring it by loading, validating,
    instantiating, running and registering modules, by changing the environments of the
    host modules and the measurement, whatever these calls returned.  If the reference
    semantics ends a call of an exported function with results or a trap, [execute] ends
    it, from some amount of fuel on, with the same results or trap, with the same store,
    measurement and environments of the host modules, and leaves stage and module alone. *)
Theorem vm_execution_refines (Config : Configure) (o : X) (vm : VM HW) (fuel : nat) (Func : list Z)
    (Params_ : list ValVariant) (r : res (list ValVariant)) (s1 : Interpreter HW) :
  client_reach host_values_only anything Config o vm ->
  sinvoke fuel Func Params_ (InterpreterEngine vm) = (r, s1) -> (forall u, r <> Undef u) -> r <> NoFuel ->
  exists n vm', (forall m, (n <= m)%nat -> executeVM m Func Params_ vm = (r, vm')) /\
    sim s1 (InterpreterEngine vm') /\ Stage vm' = Stage vm /\ Mod vm' = Mod vm.
Proof.
  intros Hr Hs Hu Hf.
  assert (vm_inv (func_of host_values_only) anything anything vm) as Hi.
  { apply (client_inv _ _ Config o);
      [apply plain_laws|apply plain_new|intros _; apply wasi_values|intros _; apply eei_values|exact Hr]. }
  destruct (invoke_refines fuel Func Params_ _ s1 r (so_insts _ _ (si_store _ _ _ (vi_store _ _ _ _ Hi))) Hs Hu Hf)
    as (n & s2 & Hsim & Hn).
  exists n, (set_Interp s2 vm). split; [|done]. intros m Hm. unfold executeVM, onInterp, zoom. by rewrite Hn.
Qed.

(** [C12] No run uses more gas than its limit.  In every state to which a client can bring a
    VM made with the WASI and EEI modules, whatever code was loaded, instantiated and run,
    whatever the EVMC host answered and whatever the calls returned, the gas used is
    between 0 and the limit, provided the client registers only host modules that keep this
    and changes the measurement only so. *)
Theorem vm_gas_bounded (Config : Configure) (o : X) (vm : VM HW) :
  client_reach host_gas_ok meter_ok Config o vm ->
  exists m, Measure (InterpreterEngine vm) = Some m /\ in_u 64 (CostLimit m) /\
    0 <= CostSum m <= CostLimit m.
Proof.
  intros Hr. assert (vm_inv (func_of host_gas_ok) meter_ok anything vm) as Hi.
  { apply (client_inv _ _ Config o);
      [apply gas_laws|apply gas_new|intros _; apply wasi_gas|intros _; apply eei_gas|exact Hr]. }
  destruct (si_meter _ _ _ (vi_store _ _ _ _ Hi)) as (m & Hm & Hok & _). exists m. split; [done|apply Hok].
Qed.

(** [C13] Metered execution with WASI terminates.  In a VM without the EEI module, in any
    state to which a client can bring it with metered host modules, once every opcode costs
    something and no charge can wrap around the limit, every call of an exported function
    ends, after at most three iterations of the run loop for every unit of cost that is
    left, plus two. *)
Theorem wasi_execution_terminates (L : Z) (Config : Configure) (o : X) (vm : VM HW) (m : Measurement)
    (fuel : nat) (Func : list Z) (Params_ : list ValVariant) :
  L < 2 ^ 64 -> hasVMType VM_Ewasm Config = false ->
  client_reach (host_metered L) anything Config o vm ->
  Measure (InterpreterEngine vm) = Some m -> metered L m -> 3 * (L - CostSum m) + 2 <= Z.of_nat fuel ->
  (executeVM fuel Func Params_ vm).1 <> NoFuel.
Proof.
  intros HL Hc Hr Hm Hg Hfuel.
  assert (vm_inv (func_of (host_metered L)) anything anything vm) as Hi.
  { apply (client_inv _ _ Config o); [apply plain_laws|apply plain_new|intros _; by apply wasi_metered|congruence|done]. }
  pose proof (so_insts _ _ (si_store _ _ _ (vi_store _ _ _ _ Hi))) as Hh.
  assert (gas_state L (InterpreterEngine vm)) as Hs by (split; [by exists m|exact Hh]).
  pose proof (invoke_metered L fuel Func Params_ _ Hs ltac:(unfold spent; rewrite Hm; lia)) as Ht.
  unfold executeVM, onInterp, zoom. by destruct (invoke _ _ _ _).
Qed.

End Reachable.

(** ** A contract and an endless loop, from their bytes *)

(** (import "ethereum" "useGas" (func (param i64))) (memory 1)
    (func (export "main") (call 0 (i64.const 100))) *)
Definition use_gas_wasm : list Z :=
  [0; 0x61; 0x73; 0x6D; 1; 0; 0; 0] ++
  [1; 8; 2; 0x60; 1; 0x7E; 0; 0x60; 0; 0] ++
  [2; 19; 1; 8] ++ chars "ethereum" ++ [6] ++ chars "useGas" ++ [0; 0] ++
  [3; 2; 1; 1] ++ [5; 3; 1; 0; 1] ++ [7; 8; 1; 4] ++ chars "main" ++ [0; 1] ++
  [0x0A; 9; 1; 7; 0; 0x42; 0xE4; 0; 0x10; 0; 0x0B].

(** (func (export "m") (result i32) (loop (br 0)) (i32.const 7)) *)
Definition spin_wasm : list Z := i32_module [0x0A; 11; 1; 9; 0; 0x03; 0x40; 0x0C; 0; 0x0B; 0x41; 7; 0x0B].

#[local] Abbreviation Demo := (HostWorld Ledger Tape).

Definition demo_tape : Tape := ([], []).
Definition demo_make (Config : Configure) : VM Demo :=
  (makeVM example_os example_host example_hash Config demo_tape).2.
Definition demo_vm (Config : Configure) (ops : list vm_op) : VM Demo :=
  default (demo_make Config) (run_ops 60 ops (demo_make Config)).

Lemma demo_reach P G Config ops : Forall (op_ok (func_of P) G anything) ops ->
  (makeVM example_os example_host example_hash Config demo_tape).1 = Ok tt ->
  is_Some (run_ops 60 ops (demo_make Config)) ->
  client_reach example_os example_host example_hash P G Config demo_tape (demo_vm Config ops).
Proof.
  intros Ho Hm [vm Hv]. unfold demo_vm. rewrite Hv. apply (run_ops_reach _ _ _ _ _ 60 ops (demo_make Config));
    [|done|done].
  apply reach_new. unfold demo_make. rewrite <- Hm. apply surjective_pairing.
Qed.

Definition ewasm : Configure := [VM_Wasm; VM_Wasi; VM_Ewasm].
Definition contract_vm : VM Demo := demo_vm ewasm [Op_load use_gas_wasm; Op_validate; Op_instantiate].

Lemma is_Some_test {A} (o : option A) : match o with Some _ => true | None => false end = true -> is_Some o.
Proof. destruct o; [by eexists|done]. Qed.

Lemma contract_reach P G : client_reach example_os example_host example_hash P G ewasm demo_tape contract_vm.
Proof.
  apply demo_reach; [by repeat constructor|vm_compute; reflexivity|].
  apply is_Some_test. vm_compute. reflexivity.
Qed.

(** The contract pays the 100 it asks for: opcodes and the call itself cost nothing here. *)
Example contract_runs :
  (executeVM 60 (chars "main") [] contract_vm).1 = Ok [] /\
  (CostSum <$> Measure (InterpreterEngine (executeVM 60 (chars "main") [] contract_vm).2)) = Some 100.
Proof. split; vm_compute; reflexivity. Qed.

Lemma vm_execution_refines_witness : exists n vm',
  (forall m, (n <= m)%nat -> executeVM m (chars "main") [] contract_vm = (Ok [], vm')) /\
  Stage vm' = Stage contract_vm.
Proof.
  destruct (vm_execution_refines example_os example_host example_hash ewasm demo_tape contract_vm 60
    (chars "main") [] (Ok []) (sinvoke 60 (chars "main") [] (InterpreterEngine contract_vm)).2)
    as (n & vm' & H1 & _ & H2 & _).
  - apply contract_reach.
  - rewrite (surjective_pairing (sinvoke _ _ _ _)) at 1.
    apply (f_equal (fun x => (x, (sinvoke 60 (chars "main") [] (InterpreterEngine contract_vm)).2))).
    vm_compute. reflexivity.
  - discriminate.
  - discriminate.
  - exists n, vm'. exact (conj H1 H2).
Defined.

Lemma vm_gas_bounded_witness : exists m, Measure (InterpreterEngine contract_vm) = Some m /\
  in_u 64 (CostLimit m) /\ 0 <= CostSum m <= CostLimit m.
Proof.
  apply (vm_gas_bounded example_os example_host example_hash ewasm demo_tape). apply contract_reach.
Defined.

(** The endless loop in a VM with WASI, under a limit of 50. *)
Definition spin_vm : VM Demo := demo_vm [VM_Wasm; VM_Wasi]
  [Op_measure (set_CostLimit 50); Op_load spin_wasm; Op_validate; Op_instantiate].

Lemma wasi_execution_terminates_witness : (executeVM 152 [109] [] spin_vm).1 <> NoFuel.
Proof.
  apply (wasi_execution_terminates example_os example_host example_hash 50 [VM_Wasm; VM_Wasi] demo_tape spin_vm
    (mkMeasure (replicate 256 1) 0 50 0)).
  - reflexivity.
  - reflexivity.
  - apply demo_reach; [by repeat constructor|vm_compute; reflexivity|].
    apply is_Some_test. vm_compute. reflexivity.
  - vm_compute. reflexivity.
  - split; [discriminate| |reflexivity|by vm_compute]. by apply Forall_replicate.
  - by vm_compute.
Defined.
