(* ===== verification/Qitc.v ===== *)
(** * The other host modules, and ssvm-qitc

    include/host/ssvm_native, the module of tools/ssvm-qitc/helper.h with its timers, the part
    of the VM's constructor for the ONNC module, and tools/ssvm-qitc/main.cpp, which runs
    [_start] of a Wasm file in a VM with the WASI, ONNC and QITC modules. *)
From stdpp Require Import base list numbers option strings.
From Stdlib Require Import ZArith Lia.
From S2P Require Import Prelude Types Memory FileMgr Loader FormChecker Validator StackMgr Runtime Interpreter.
From S2P Require Import EngineRefine EngineFuel Instantiate StoreFacts VM VMFacts HostFunc HostFuncFacts CString.
From S2P Require Import EEI EEIGas Wasi WasiFacts TimeRecord Onnc OnncFacts HostModules.
#[local] Open Scope Z_scope.

(** ** ssvm_native *)

Section Native.
Context {S : Type}.

(** All bodies are to be written: they return success and assign nothing. *)
Definition SSVMNativeStorageCreateUUID_body : M (HostCtx S) unit := ret tt.
Definition SSVMNativeStorageBeginStoreTx_body (NewKey : Z) : M (HostCtx S) unit := ret tt.
Definition SSVMNativeStorageBeginLoadTx_body (NewKey : Z) : M (HostCtx S) unit := ret tt.
Definition SSVMNativeStorageStoreI32_body (Value : Z) : M (HostCtx S) unit := ret tt.
Definition SSVMNativeStorageLoadI32_body : M (HostCtx S) unit := ret tt.
Definition SSVMNativeStorageStoreI64_body (Value : Z) : M (HostCtx S) unit := ret tt.
Definition SSVMNativeStorageLoadI64_body : M (HostCtx S) unit := ret tt.
Definition SSVMNativeStorageEndStoreTx_body : M (HostCtx S) unit := ret tt.
Definition SSVMNativeStorageEndLoadTx_body : M (HostCtx S) unit := ret tt.

Definition SSVMNativeFuncs : list (string * HostFunc S) :=
  [ ("ssvm_storage_createUUID"%string, hostFunction 0 (Some U64) [] SSVMNativeStorageCreateUUID_body);
    ("ssvm_storage_beginStoreTx"%string, hostFunction 0 None [U64] SSVMNativeStorageBeginStoreTx_body);
    ("ssvm_storage_beginLoadTx"%string, hostFunction 0 None [U64] SSVMNativeStorageBeginLoadTx_body);
    ("ssvm_storage_storeI32"%string, hostFunction 0 None [U32] SSVMNativeStorageStoreI32_body);
    ("ssvm_storage_loadI32"%string, hostFunction 0 (Some U32) [] SSVMNativeStorageLoadI32_body);
    ("ssvm_storage_storeI64"%string, hostFunction 0 None [U64] SSVMNativeStorageStoreI64_body);
    ("ssvm_storage_loadI64"%string, hostFunction 0 (Some U64) [] SSVMNativeStorageLoadI64_body);
    ("ssvm_storage_endStoreTx"%string, hostFunction 0 None [] SSVMNativeStorageEndStoreTx_body);
    ("ssvm_storage_endLoadTx"%string, hostFunction 0 None [] SSVMNativeStorageEndLoadTx_body) ].

Definition SSVMNativeModule {T} (emb : HostFunc S -> HostFunc T) : ImportObject T :=
  hostModule emb "ssvm_native" SSVMNativeFuncs.

End Native.

(** ** helper.h *)

Definition TIMER_TAG_QITC_INFER_SSVM : Z := 256.
Definition TIMER_TAG_QITC_INFER_HOST : Z := 257.

(** The world outside the VM: the runtime with its state, the member [Timer] of the module, the
    clock, and the standard output. *)
Record Outside (C X : Type) : Type := mkOutside {
  oRuntime : ONNCRuntime C;
  oLib : X -> C; oSetLib : C -> X -> X;
  oTimer : X -> TimeRecord; oSetTimer : TimeRecord -> X -> X;
  gettimeofday : X -> timeval * X;
  oPrint : list Z -> X -> X }.
Arguments oRuntime {C X} o.
Arguments oLib {C X} o.
Arguments oSetLib {C X} o.
Arguments oTimer {C X} o.
Arguments oSetTimer {C X} o.
Arguments gettimeofday {C X} o.
Arguments oPrint {C X} o.

Section QITC.
Context {C X : Type} (out : Outside C X).
#[local] Abbreviation MQ := (M (HostCtx X)).

Definition onTimer {A} (f : TimeRecord -> A * TimeRecord) : MQ A := fun c =>
  let '(a, r) := f (oTimer out (hcEnv c)) in (Ok a, set_hcEnv (oSetTimer out r (hcEnv c)) c).
Definition clock : MQ timeval := fun c =>
  let '(t, x) := gettimeofday out (hcEnv c) in (Ok t, set_hcEnv x c).
Definition print (s : list Z) : MQ unit := modify (fun c => set_hcEnv (oPrint out s (hcEnv c)) c).

Definition startTimer (ID : Z) : MQ unit :=
  let* t := clock in onTimer (fun r => (tt, startRecord ID t r)).
(** The clock is read if the timer runs. *)
Definition stopTimer (ID : Z) : MQ Z :=
  let* c := get in
  let* t := match StartTime (oTimer out (hcEnv c)) !! ID with
            | Some _ => clock
            | None => ret (mkTimeval 0 0)
            end in
  onTimer (stopRecord ID t).
Definition clearTimer (ID : Z) : MQ unit := onTimer (fun r => (tt, clearRecord ID r)).

Definition QITCTimerStart_body : MQ unit := startTimer TIMER_TAG_QITC_INFER_SSVM.
Definition QITCTimerStop_body : MQ unit :=
  let* SSVMTime := stopTimer TIMER_TAG_QITC_INFER_SSVM in
  let* HostTime := stopTimer TIMER_TAG_QITC_INFER_HOST in
  print (chars " --- Inference: SSVM cost " ++ to_string SSVMTime ++ chars " us, Host functions cost " ++
    to_string HostTime ++ chars " us" ++ [10]).
Definition QITCTimerClear_body : MQ unit :=
  clearTimer TIMER_TAG_QITC_INFER_SSVM ;;; clearTimer TIMER_TAG_QITC_INFER_HOST.

Definition QITCFuncs : list (string * HostFunc X) :=
  [ ("QITC_time_start"%string, hostFunction 0 None [] QITCTimerStart_body);
    ("QITC_time_stop"%string, hostFunction 0 None [] QITCTimerStop_body);
    ("QITC_time_clear"%string, hostFunction 0 None [] QITCTimerClear_body) ].

Definition QITCModule {T} (emb : HostFunc X -> HostFunc T) : ImportObject T :=
  hostModule emb "QITC" QITCFuncs.

End QITC.

(** ** The VM with ONNC, and the tool *)

Section Tool.
Context {C E X : Type} (os : OS X) (host : evmc_host_interface E) (keccak256 : list Z -> list Z).
Context (out : Outside C X).
#[local] Abbreviation HW := (HostWorld E X).

(** What lies outside is in the state of the operating system. *)
Definition outside (w : HW) : X := wsOS (hwWasi w).
Definition set_outside (x : X) (w : HW) : HW := set_hwWasi (mkWasi (wsEnv (hwWasi w)) x) w.

Definition VMOnnc : ImportObject HW :=
  ONNCModule (oRuntime out)
    (embedHost (fun w => oLib out (outside w)) (fun s w => set_outside (oSetLib out s (outside w)) w)).
Definition VMQitc : ImportObject HW := QITCModule out (embedHost outside set_outside).

(** The constructor of a VM that was built with ONNC_WASM. *)
Definition makeVMOnnc (Config : Configure) (o : X) : res unit * VM HW :=
  let '(r, vm) := makeVM os host keccak256 Config o in
  match r with
  | Ok _ => (if hasVMType VM_ONNC Config then useHostModule VM_ONNC VMOnnc else ret tt) vm
  | r => (r, vm)
  end.

Definition onWorld (f : HW -> HW) : M (VM HW) unit := onInterp (modify (fun s =>
  mkInterp (StackMgr s) (Iters s) (Measure s) (StoreMgr s) (f (HostState s)) (InsMode s))).

(** [CmdArgsVec.push_back(std::string(Argv[I]))], and what is printed of them. *)
Definition pushArgs (Args : list (list Z)) : M (VM HW) unit :=
  onWorld (fun w => set_hwWasi
    (mkWasi (set_CmdArgs (CmdArgs (wsEnv (hwWasi w)) ++ Args) (wsEnv (hwWasi w))) (wsOS (hwWasi w))) w).
Definition printArgs : M (VM HW) unit :=
  onWorld (fun w => set_outside
    (fold_left (fun x a => oPrint out (chars " Args : " ++ a ++ [10]) x) (CmdArgs (wsEnv (hwWasi w)))
       (outside w)) w).

Definition qitcConf : Configure := addVMType VM_ONNC (addVMType VM_Wasi newConfigure).

(** The run of the module; the result is dropped. *)
Definition qitcRun (fs : list Z -> option (list Z)) (fuel : nat) (Args : list (list Z)) (InputPath : list Z)
    : M (VM HW) unit :=
  pushArgs Args ;;; printArgs ;;;
  try (registerModuleHost VMQitc) ;;;
  try (runWasmFilePath fs fuel InputPath (chars "_start") []) ;;; ret tt.

(** The exit status, and the VM at the end; without arguments only the usage is printed. *)
Definition qitc_main (fs : list Z -> option (list Z)) (fuel : nat) (o : X) (Argv : list (list Z))
    : res Z * (X + VM HW) :=
  match Argv with
  | _ :: InputPath :: _ =>
      let '(r, vm) := makeVMOnnc qitcConf o in
      match r with
      | Ok _ =>
          let '(r, vm) := qitcRun fs fuel (drop 1 Argv) InputPath vm in
          (let? _ := r in Ok 0, inr vm)
      | Err e => (Err e, inr vm)
      | Undef u => (Undef u, inr vm)
      | NoFuel => (NoFuel, inr vm)
      end
  | _ => (Ok 0, inl (oPrint out (chars "Usage: ./ssvm-qitc model_wasm [args...]" ++ [10]) o))
  end.

End Tool.

(** ** What the modules promise *)

Lemma untouched_gas_ok {H} (f : HostFunc H) : host_untouched f -> host_gas_ok f.
Proof.
  intros [_ Hf] stk mem m hs Hm. specialize (Hf stk mem (Some m) hs).
  destruct (hfRun f stk mem (Some m) hs) as [? [[[??]?]?]]. destruct Hf as [_ ->]. by exists m.
Qed.

(** A body that leaves the gas counters alone and returns. *)
Lemma plain_untouched {S} RetT Ts (body : fun_of Ts (M (HostCtx S) unit)) :
  (forall args c, (apply Ts body args c).1 <> NoFuel /\ hcMea (apply Ts body args c).2 = hcMea c) ->
  host_untouched (hostFunction 0 RetT Ts body).
Proof.
  intros Hb. split; [done|]. intros stk mem mea hs. apply (hostInvoke_meter (fun o => o = mea)); [done|].
  intros args c _ <-. apply Hb.
Qed.

Lemma native_untouched {S} : Forall (fun f => host_untouched f.2) (SSVMNativeFuncs (S := S)).
Proof. unfold SSVMNativeFuncs. repeat (apply Forall_cons; split); [..|constructor]; by apply plain_untouched. Qed.

Lemma qitc_untouched {C X} (out : Outside C X) : Forall (fun f => host_untouched f.2) (QITCFuncs out).
Proof.
  unfold QITCFuncs. repeat (apply Forall_cons; split); [..|constructor]; apply plain_untouched; intros args c; cbn;
    unfold QITCTimerStart_body, QITCTimerStop_body, QITCTimerClear_body, startTimer, stopTimer, clearTimer, onTimer,
      print, clock, bind, get, ret, modify; repeat (case_match; simplify_eq/=); done.
Qed.

(** A module whose functions leave the gas counters alone, wherever its state is kept. *)
Lemma untouched_laws {S T} (fs : list (string * HostFunc S)) Name (getter : T -> S) setter :
  Forall (fun f => host_untouched f.2) fs ->
  HostLaws host_gas_ok (hostModule (embedHost getter setter) Name fs) /\
  forall L, L < 2 ^ 64 -> HostLaws (host_metered L) (hostModule (embedHost getter setter) Name fs).
Proof.
  intros Hf. split; [|intros L HL]; apply hostModule_laws; (eapply Forall_impl; [exact Hf|]); intros f Hu.
  - by apply embedHost_gas_ok, untouched_gas_ok.
  - by apply embedHost_metered, untouched_metered.
Qed.

Section Laws.
Context {C E X : Type} (os : OS X) (host : evmc_host_interface E) (keccak256 : list Z -> list Z).
Context (out : Outside C X).
#[local] Abbreviation HW := (HostWorld E X).

#[export] Instance onnc_values : HostLaws host_values_only (VMOnnc (E := E) out).
Proof.
  apply hostModule_laws, (Forall_impl (fun p => host_values_only p.2)); [|intros p; apply embedHost_values_only].
  unfold ONNCFuncs. repeat (apply Forall_cons; split; [apply hostFunction_values_only|]). constructor.
Qed.
#[export] Instance qitc_values : HostLaws host_values_only (VMQitc (E := E) out).
Proof.
  apply hostModule_laws, (Forall_impl (fun p => host_values_only p.2)); [|intros p; apply embedHost_values_only].
  unfold QITCFuncs. repeat (apply Forall_cons; split; [apply hostFunction_values_only|]). constructor.
Qed.
#[export] Instance onnc_gas : HostLaws host_gas_ok (VMOnnc (E := E) out).
Proof. apply untouched_laws, onnc_untouched. Qed.
#[export] Instance qitc_gas : HostLaws host_gas_ok (VMQitc (E := E) out).
Proof. apply untouched_laws, qitc_untouched. Qed.

(** ** The tool *)

Section Invariant.
Context (P : HostFunc HW -> Prop) (G : option Measurement -> Prop).
Context (HL : vm_laws (func_of P) G) (HN : new_laws G).
Context (Hw : HostLaws P (VMWasi (E := E) os)) (Ho : HostLaws P (VMOnnc (E := E) out)).
Context (Hq : HostLaws P (VMQitc (E := E) out)).
#[local] Abbreviation inv := (vm_inv (func_of P) G anything).

Lemma makeVMOnnc_inv o : inv (makeVMOnnc os host keccak256 out qitcConf o).2.
Proof using HN Hw Ho.
  pose proof (newVM_fresh (func_of P) G anything HN (VMWasi os) (VMEEI host keccak256) qitcConf
    (newWorld os qitcConf o) (fun _ => conj Hw I) ltac:(done)) as Hf.
  unfold makeVMOnnc, makeVM. destruct (newVM _ _ _ _ _) as [[] vm]; try apply Hf.
  cbn. by apply fresh_useHostModule.
Qed.

Lemma try_inv {A} (m : M (VM HW) A) vm : inv (m vm).2 -> inv (try m vm).2.
Proof using Type. unfold try. by destruct (m vm) as [[] ?]. Qed.

Lemma qitcRun_inv fs fuel Args Path vm : inv vm -> inv (qitcRun out fs fuel Args Path vm).2.
Proof using HL Hq.
  intros Hi. pose proof (fun op => run_op_inv (func_of P) G anything HL fuel op) as Hop.
  unfold qitcRun. apply bind_inv; [by apply (Hop (Op_host _))|intros _ vm1 _ H1].
  apply bind_inv; [by apply (Hop (Op_host _))|intros _ vm2 _ H2].
  apply bind_inv; [apply try_inv; by apply (Hop (Op_registerHost (VMQitc out)))|intros _ vm3 _ H3].
  apply bind_inv; [|done]. apply try_inv. pose proof (Hop (Op_runPath fs Path (chars "_start") []) vm3 I H3) as H4.
  cbn in H4. unfold bind in H4. by destruct (runWasmFilePath _ _ _ _ _ _) as [[] ?].
Qed.

End Invariant.

(** Errors are dropped on the way. *)
Definition no_error {S A} (m : M S A) : Prop := forall s e, (m s).1 <> Err e.

Lemma ne_bind {S A B} (m : M S A) (k : A -> M S B) : no_error m -> (forall a, no_error (k a)) -> no_error (bind m k).
Proof using Type.
  intros Hm Hk s e. unfold bind. pose proof (Hm s) as H. destruct (m s) as [[a|e'|u|] s']; cbn in *; try done.
  - apply Hk.
  - by destruct (H e').
Qed.
Lemma ne_try {S A} (m : M S A) : no_error (try m).
Proof using Type. intros s e. unfold try. by destruct (m s) as [[] ?]. Qed.
Lemma ne_onWorld (f : HW -> HW) : no_error (onWorld f).
Proof using Type. done. Qed.

Lemma qitcRun_no_error fs fuel Args Path : no_error (qitcRun (E := E) out fs fuel Args Path).
Proof using Type.
  unfold qitcRun, pushArgs, printArgs.
  do 4 (apply ne_bind; [apply ne_onWorld || apply ne_try|intros _]). done.
Qed.
Lemma ne_useHostModule t (Obj : ImportObject HW) : no_error (useHostModule t Obj).
Proof using Type. apply ne_bind; [apply ne_try|done]. Qed.
Lemma makeVMOnnc_no_error o e : (makeVMOnnc os host keccak256 out qitcConf o).1 <> Err e.
Proof using Type.
  assert (forall e, (makeVM os host keccak256 qitcConf o).1 <> Err e) as Hm.
  { unfold makeVM, newVM. generalize (rawVM newStoreManager (newWorld os qitcConf o) : VM HW). fold (no_error
      (initVM (VMWasi (E := E) os) (VMEEI host keccak256) qitcConf)).
    unfold initVM. change (hasVMType VM_Wasi qitcConf) with true. change (hasVMType VM_Ewasm qitcConf) with false.
    cbv iota. apply ne_bind; [done|intros _]. apply ne_bind; [|done]. by apply ne_bind; [apply ne_useHostModule|]. }
  unfold makeVMOnnc. destruct (makeVM _ _ _ _ _) as [[[]|e'|u|] vm]; [|by destruct (Hm e')|done..].
  change (hasVMType VM_ONNC qitcConf) with true. apply ne_useHostModule.
Qed.

(** ssvm-qitc.  Whatever file it is given and whatever the operating system and the ONNC
    runtime do, the tool exits with status 0 unless it does something undefined or does not
    end, also when the module cannot be loaded or traps; and the gas the module has used is
    never more than the limit. *)
Theorem qitc_exits_within_gas (fs : list Z -> option (list Z)) (fuel : nat) (o : X) (Argv : list (list Z)) :
  (forall e, (qitc_main os host keccak256 out fs fuel o Argv).1 <> Err e) /\
  (forall x, (qitc_main os host keccak256 out fs fuel o Argv).1 = Ok x -> x = 0) /\
  forall vm, (qitc_main os host keccak256 out fs fuel o Argv).2 = inr vm ->
    exists m, Measure (InterpreterEngine vm) = Some m /\ in_u 64 (CostLimit m) /\ 0 <= CostSum m <= CostLimit m.
Proof using Type.
  assert (forall vm : VM HW, vm_inv (func_of host_gas_ok) meter_ok anything vm ->
    exists m, Measure (InterpreterEngine vm) = Some m /\ in_u 64 (CostLimit m) /\ 0 <= CostSum m <= CostLimit m) as Hm.
  { intros vm Hi. destruct (si_meter _ _ _ (vi_store _ _ _ _ Hi)) as (m & Hm & Hok & _). by exists m. }
  unfold qitc_main. destruct Argv as [|a [|Path Args]]; [by split_and!; repeat intro; simplify_eq/=..|].
  pose proof (makeVMOnnc_inv host_gas_ok meter_ok (gas_new) (wasi_gas os) onnc_gas o) as Hi.
  pose proof (makeVMOnnc_no_error o) as Hne.
  destruct (makeVMOnnc _ _ _ _ _ _) as [[[]|e|u|] vm]; cbn in Hi, Hne;
    [|by destruct (Hne e)|split_and!; repeat intro; simplify_eq/=; auto..].
  pose proof (qitcRun_inv host_gas_ok meter_ok (gas_laws _) qitc_gas fs fuel (drop 1 (a :: Path :: Args)) Path vm Hi) as Hr.
  pose proof (qitcRun_no_error fs fuel (drop 1 (a :: Path :: Args)) Path vm) as Hnr.
  destruct (qitcRun _ _ _ _ _ vm) as [[[]|e|u|] vm']; cbn in *;
    [..|by destruct (Hnr e)| |]; split_and!; repeat intro; simplify_eq/=; auto.
Qed.

End Laws.

(** ** A run *)

(** (import "QITC" "QITC_time_stop" (func)) (memory 1) (func (export "_start") (call 0)) *)
Definition stop_wasm : list Z :=
  [0; 0x61; 0x73; 0x6D; 1; 0; 0; 0] ++ [1; 4; 1; 0x60; 0; 0] ++
  [2; 23; 1; 4] ++ chars "QITC" ++ [14] ++ chars "QITC_time_stop" ++ [0; 0] ++
  [3; 2; 1; 0] ++ [5; 3; 1; 0; 1] ++ [7; 10; 1; 6] ++ chars "_start" ++ [0; 1] ++
  [0x0A; 6; 1; 4; 0; 0x10; 0; 0x0B].

(** Prints to the tape; the clock stands still. *)
Definition tape_outside : Outside Z Tape :=
  mkOutside Z Tape example_relu (fun _ => 0) (fun _ x => x) (fun _ => newTimeRecord) (fun _ x => x)
    (fun x => (mkTimeval 1 0, x)) (fun s x => (x.1, x.2 ++ s)).

Definition demo_files (p : list Z) : option (list Z) :=
  if bool_decide (p = chars "m.wasm") then Some stop_wasm else None.
Definition demo_argv : list (list Z) := [chars "ssvm-qitc"; chars "m.wasm"].
#[local] Abbreviation demo_qitc :=
  (qitc_main example_os example_host example_hash tape_outside demo_files 60 demo_tape demo_argv).

Example qitc_prints : demo_qitc.1 = Ok 0 /\
  match demo_qitc.2 with
  | inr vm => (wsOS (hwWasi (HostState (InterpreterEngine vm)))).2 =
      chars " Args : m.wasm" ++ [10] ++
      chars " --- Inference: SSVM cost 0 us, Host functions cost 0 us" ++ [10]
  | inl _ => False
  end.
Proof. vm_compute. by split. Qed.

Lemma inr_case {A B} (s : A + B) (Q : B -> Prop) :
  match s with inl _ => false | inr _ => true end = true -> (forall b, s = inr b -> Q b) -> exists b, s = inr b /\ Q b.
Proof. destruct s as [|b]; [done|]. intros _ Hq. exists b. auto. Qed.

Lemma qitc_exits_within_gas_witness : exists vm, demo_qitc.2 = inr vm /\
  exists m, Measure (InterpreterEngine vm) = Some m /\ in_u 64 (CostLimit m) /\ 0 <= CostSum m <= CostLimit m.
Proof.
  apply inr_case; [vm_compute; reflexivity|].
  exact (proj2 (proj2 (qitc_exits_within_gas example_os example_host example_hash tape_outside demo_files 60 demo_tape
    demo_argv))).
Defined.

(** ** The native module returns what was never written *)

(** Three functions of the module have a result and no body: calling one reads a variable
    that was never initialised. *)
Theorem native_results_unset {S} (stk : StackManager) (mem : MemoryInstance) (mea : option Measurement) (s : S) :
  Forall (fun f => Returns (hfType f.2) <> [] -> hfRun f.2 stk mem mea s = (Undef UB_indet, (stk, mem, mea, s)))
    SSVMNativeFuncs.
Proof.
  unfold SSVMNativeFuncs. repeat (apply Forall_cons; split); [..|constructor]; intros Hr; try done.
  all: cbn [snd hostFunction hfRun]; unfold hostInvoke; by rewrite (proj2 (Z.ltb_ge _ _)) by (unfold sizeZ; cbn; lia).
Qed.
