(* ===== verification/Evmc.v ===== *)
(** * The EVMC entry point: tools/ssvm-evmc/evmccreate.cpp

    [execute] runs one message in a new VM with the EEI module and turns what happened into
    an [evmc_result].  The pointer [context] is the state [E] of the EVMC host. *)
From stdpp Require Import base list numbers option strings.
From Stdlib Require Import ZArith Lia.
From S2P Require Import Prelude Types Instruction AST Memory FileMgr Loader FormChecker.
From S2P Require Import Validator StackMgr Runtime Interpreter Instantiate StoreFacts VM VMFacts.
From S2P Require Import HostFunc HostFuncFacts EEI EEIGas Wasi WasiFacts HostModules.
#[local] Open Scope Z_scope.

Definition EVMC_FAILURE : Z := 1.

Definition isWasmBinary (Code : list Z) : bool :=
  (8 <=? sizeZ Code) && bool_decide (take 4 Code = [0; 0x61; 0x73; 0x6D]).

Definition ewasmConf : Configure := addVMType VM_Ewasm newConfigure.

Section Evmc.
Context {E X : Type} (os : OS X) (host : evmc_host_interface E) (keccak256 : list Z -> list Z).
#[local] Abbreviation HW := (HostWorld E X).
#[local] Abbreviation MV := (M (VM HW)).

Definition set_CallData (d : list Z) (e : EVMEnvironment E) : EVMEnvironment E :=
  mkEVMEnv (Caller e) (CallValue e) d (Address e) (ReturnData e) (EEI.Code e) (Depth e) (Flag e)
    (CallKind e) (EVMCContext e).

(** Through the references to the environment and to the measurement it shares. *)
Definition onEVM (f : Measurement -> EVMEnvironment E -> res (Measurement * EVMEnvironment E)) : MV unit :=
  fun vm =>
  let i := InterpreterEngine vm in
  match Measure i with
  | None => (Undef UB_deref, vm)
  | Some m =>
      match f m (hwEVM (HostState i)) with
      | Ok (m', e) =>
          (Ok tt, set_Interp (mkInterp (StackMgr i) (Iters i) (Some m') (StoreMgr i)
                    (set_hwEVM e (HostState i)) (InsMode i)) vm)
      | Err x => (Err x, vm)
      | Undef u => (Undef u, vm)
      | NoFuel => (NoFuel, vm)
      end
  end.

(** Data from the message; [std::vector(p, p + n)] of a null pointer is undefined. *)
Definition prepare (context : E) (msg : evmc_message) (code : list Z) : MV unit :=
  let* EEIObj := getImportModule VM_Ewasm in
  match EEIObj with
  | None => undef UB_deref
  | Some _ =>
      onEVM (fun m e => setEVMCMessage msg m (setEVMCContext context e)) ;;;
      onEVM (fun m e => Ok (m, setEVMCCode code (sizeZ code) e)) ;;;
      (if 0 <? msg_input_size msg then
         onEVM (fun m e =>
           match msg_input_data msg with
           | None => Undef UB_deref
           | Some d => let? CallData' := read_range 0 (msg_input_size msg) d in Ok (m, set_CallData CallData' e)
           end)
       else ret tt) ;;;
      onEVM (fun m e => Ok (set_CostLimit (wrap 64 (msg_gas msg)) m, e))
  end.

(** [if (result.status_code == EVMC_SUCCESS && !op) result.status_code = EVMC_FAILURE;] *)
Definition attempt (status : Z) (op : MV unit) : MV Z :=
  if status =? EVMC_SUCCESS then
    let* Res := try op in
    ret (match Res with inl _ => status | inr _ => EVMC_FAILURE end)
  else ret status.

Definition check (status : Z) (test : MV bool) : MV Z :=
  if status =? EVMC_SUCCESS then
    let* failed := test in ret (if (failed : bool) then EVMC_FAILURE else status)
  else ret status.

Definition noMemExports : MV bool :=
  let* s := get in
  let* e := lift (getMemExports (store s)) in
  ret (sizeZ e =? 0).

Definition hasStart : MV bool :=
  let* s := get in
  let* m := deref (lift (getActiveModule (store s))) in
  ret (bool_decide (is_Some (StartAddr m))).

Definition runMain (fuel : nat) (status : Z) : MV Z :=
  if status =? EVMC_SUCCESS then
    let* Res := try (executeVM fuel (chars "main") []) in
    ret (match Res with
         | inl _ => status
         | inr e => if bool_decide (e = Revert) then EVMC_REVERT else EVMC_FAILURE
         end)
  else ret status.

(** Verify the deployed code. *)
Definition verifyDeployed (fuel : nat) (msg : evmc_message) (Data : list Z) (status : Z) : res Z :=
  if isWasmBinary Data && bool_decide (msg_kind msg = EVMC_CREATE) && negb (status =? EVMC_REVERT) then
    match (parseModule fuel Data newFileMgrVector).1 with
    | Ok m => Ok (match StartSec m with Some _ => EVMC_FAILURE | None => status end)
    | Err _ => Ok EVMC_FAILURE
    | Undef u => Undef u
    | NoFuel => NoFuel
    end
  else Ok status.

Definition getMeter : MV Measurement :=
  let* s := get in match Measure (InterpreterEngine s) with Some m => ret m | None => undef UB_deref end.

Definition getReturned : MV (list Z) := gets (fun s => ReturnData (hwEVM (HostState (InterpreterEngine s)))).

(** Load, validate and instantiate the code, check the instance and run [main]. *)
Definition runCode (fuel : nat) (code : list Z) : MV Z :=
  let* s1 := attempt EVMC_SUCCESS (loadWasm fuel code) in
  let* s2 := attempt s1 validateVM in
  let* s3 := attempt s2 (instantiateVM fuel) in
  let* s4 := check s3 noMemExports in
  let* s5 := check s4 hasStart in
  runMain fuel s5.

Definition executeOn (fuel : nat) (context : E) (msg : evmc_message) (code : list Z) : MV evmc_result :=
  prepare context msg code ;;;
  let* status := runCode fuel code in
  let* m := getMeter in
  let* Data := getReturned in
  let* status' := lift (verifyDeployed fuel msg Data status) in
  ret (mkResult status'
         (if status' =? EVMC_FAILURE then 0 else sgn 64 (msg_gas msg - CostSum m))
         (if 0 <? sizeZ Data then Some Data else None) (sizeZ Data) (replicate 20 0)).

(** The context after the call is the one the environment holds. *)
Definition execute (fuel : nat) (o : X) (context : E) (msg : evmc_message) (code : list Z)
    : res evmc_result * VM HW :=
  let '(r, vm) := makeVM os host keccak256 ewasmConf o in
  match r with
  | Ok _ => executeOn fuel context msg code vm
  | Err x => (Err x, vm)
  | Undef u => (Undef u, vm)
  | NoFuel => (NoFuel, vm)
  end.

End Evmc.
