(* ===== verification/EvmcFacts.v ===== *)
(** * What the EVMC entry point returns

    The gas law that callers of EVMC hosts rely on, what a result says about the run behind
    it, and a contract that returns data. *)
From stdpp Require Import base list numbers option strings.
From Stdlib Require Import ZArith Lia.
From S2P Require Import Prelude Types Instruction AST Memory MemoryFacts FileMgr Loader FormChecker.
From S2P Require Import Validator StackMgr Runtime Interpreter Instantiate StoreFacts VM VMFacts.
From S2P Require Import HostFunc HostFuncFacts EEI EEIGas EEIFacts Wasi WasiFacts HostModules Evmc.
#[local] Open Scope Z_scope.

Section Facts.
Context {E X : Type} (os : OS X) (host : evmc_host_interface E) (keccak256 : list Z -> list Z).
#[local] Abbreviation HW := (HostWorld E X).
#[local] Abbreviation MV := (M (VM HW)).

(** ** The VM of a message *)

#[local] Abbreviation fresh o := (makeVM os host keccak256 ewasmConf o).2.

Lemma fresh_ok o : (makeVM os host keccak256 ewasmConf o).1 = Ok tt.
Proof. vm_compute. reflexivity. Qed.

Lemma fresh_eei o : exists Obj, imp_find VM_Ewasm (ImpObjs (fresh o)) = Some Obj.
Proof. apply is_Some_test. vm_compute. reflexivity. Qed.

Lemma fresh_meter o : Measure (InterpreterEngine (fresh o)) = Some (mkMeasure (replicate 256 0) 0 (2 ^ 64 - 1) 0).
Proof. vm_compute. reflexivity. Qed.

Lemma fresh_host o : HostState (InterpreterEngine (fresh o)) = newWorld os ewasmConf o.
Proof. vm_compute. reflexivity. Qed.

(** ** The invariant of the VM through a message *)

#[local] Abbreviation inv G := (vm_inv (func_of (host_gas_ok (H := HW))) G anything).

(** Nothing was used yet. *)
Definition unused (o : option Measurement) : Prop := exists m, o = Some m /\ CostSum m = 0.
(** The limit is the gas of the message. *)
Definition limit_is (L : Z) : option Measurement -> Prop := meter_within (fun x => x = L).

Lemma fresh_inv_unused o : inv unused (fresh o).
Proof.
  apply newVM_inv; [|intros _; by split; [apply wasi_gas|]|intros _; by split; [apply eei_gas|]].
  split; [by eexists|]. intros Tab m (m' & [= <-] & Hm). by eexists.
Qed.

Lemma onEVM_inv (G G' : option Measurement -> Prop) f vm vm' : inv G vm ->
  (forall m e m' e', G (Some m) -> f m e = Ok (m', e') -> G' (Some m')) ->
  onEVM f vm = (Ok tt, vm') -> inv G' vm'.
Proof.
  intros [[Hst Hm] HN H2 H3 H4] Hf. unfold onEVM. destruct (Measure _) as [m|]; [|done].
  destruct (f m _) as [[m' e]| | |] eqn:Ef; try done. intros [= <-].
  split; try done. split; [done|]. by apply (Hf _ _ _ _ Hm Ef).
Qed.

Lemma setEVMCMessage_unused msg m e m' e' : unused (Some m) ->
  setEVMCMessage (E := E) msg m e = Ok (m', e') -> unused (Some m').
Proof.
  intros (m0 & [= <-] & H0). unfold setEVMCMessage.
  destruct (match msg_input_data msg with Some _ => _ | None => _ end); cbn; try done.
  intros [= <- _]. by eexists.
Qed.

Lemma prepare_inv context msg code vm vm' : in_u 63 (msg_gas msg) -> inv unused vm ->
  prepare context msg code vm = (Ok tt, vm') -> inv (limit_is (msg_gas msg)) vm'.
Proof.
  intros Hg Hi H. unfold prepare in H. apply bind_Ok_inv in H as (o & v0 & H0 & H). injection H0 as <- <-.
  destruct (imp_find _ _); [|done].
  apply bind_Ok_inv in H as ([] & v1 & H1 & H). apply (onEVM_inv unused unused) in H1; [|done|].
  2: { intros m e m' e' Hm. by apply setEVMCMessage_unused. }
  apply bind_Ok_inv in H as ([] & v2 & H2 & H). apply (onEVM_inv unused unused) in H2; [|done|].
  2: { intros m e m' e' Hm [= <- <-]. done. }
  apply bind_Ok_inv in H as ([] & v3 & H3 & H).
  assert (inv unused v3) as Hi3.
  { destruct (0 <? _); [|by injection H3 as <-]. apply (onEVM_inv unused unused) in H3; [done|done|].
    intros m e m' e' Hm. destruct (msg_input_data msg); [|done]. destruct (read_range _ _ _); try done.
    by intros [= <- <-]. }
  apply (onEVM_inv unused (limit_is (msg_gas msg))) in H; [done|done|].
  intros m e m' e' (m0 & [= <-] & H0) [= <- <-]. unfold in_u in Hg. eexists. split; [done|]. cbn.
  rewrite wrap_small by (unfold in_u; lia). split; [|done]. split; [unfold in_u; cbn; lia|]. cbn. lia.
Qed.

Section Run.
Context (G : option Measurement -> Prop) (HL : vm_laws (func_of (host_gas_ok (H := HW))) G).

Lemma attempt_inv st op vm : (inv G vm -> inv G (op vm).2) -> inv G vm -> inv G (attempt st op vm).2.
Proof.
  intros Ho Hi. unfold attempt. destruct (st =? _); [|done]. rewrite bind_eq. unfold try.
  specialize (Ho Hi). by destruct (op vm) as [[] ?].
Qed.

Lemma check_inv st test vm : (test vm).2 = vm -> inv G vm -> inv G (check st test vm).2.
Proof.
  intros Ht Hi. unfold check. destruct (st =? _); [|done]. rewrite bind_eq.
  destruct (test vm) as [[] ?]; cbn in *; by subst.
Qed.

Lemma noMemExports_pure (vm : VM HW) : (noMemExports vm).2 = vm.
Proof. unfold noMemExports. rewrite bind_get, bind_eq. unfold lift. by destruct (getMemExports _). Qed.
Lemma hasStart_pure (vm : VM HW) : (hasStart vm).2 = vm.
Proof. unfold hasStart. rewrite bind_get, bind_eq. unfold deref, lift. by destruct (getActiveModule _). Qed.

Lemma runMain_inv fuel st vm : inv G vm -> inv G (runMain fuel st vm).2.
Proof.
  intros Hi. unfold runMain. destruct (st =? _); [|done]. rewrite bind_eq. unfold try.
  pose proof (inv_execute _ _ _ HL fuel (chars "main") [] vm Hi) as Hx. by destruct (executeVM _ _ _ vm) as [[] ?].
Qed.

Lemma bind_inv_evm {A B} (m : MV A) (k : A -> MV B) vm : (inv G vm -> inv G (m vm).2) ->
  (forall a v, inv G v -> inv G (k a v).2) -> inv G vm -> inv G (bind m k vm).2.
Proof. intros Hm Hk Hi. apply bind_inv; [by apply Hm|]. intros a v _ Hv. by apply Hk. Qed.

Lemma runCode_inv fuel code vm : inv G vm -> inv G (runCode fuel code vm).2.
Proof.
  unfold runCode.
  apply bind_inv_evm; [apply attempt_inv; intros Hv; by apply load_inv|intros s1 v1].
  apply bind_inv_evm; [apply attempt_inv; intros Hv; by apply validate_inv|intros s2 v2].
  apply bind_inv_evm; [apply attempt_inv; intros Hv; by apply instantiate_inv|intros s3 v3].
  apply bind_inv_evm; [apply check_inv, noMemExports_pure|intros s4 v4].
  apply bind_inv_evm; [apply check_inv, hasStart_pure|intros s5 v5]. apply runMain_inv.
Qed.

End Run.

(** ** Results *)

Lemma execute_eq fuel o context msg code :
  execute os host keccak256 fuel o context msg code = executeOn fuel context msg code (fresh o).
Proof.
  pose proof (fresh_ok o) as Hok. unfold execute. destruct (makeVM os host keccak256 ewasmConf o) as [r vm].
  cbn [fst] in Hok. subst r. reflexivity.
Qed.

(** The parts of a run that returned a result. *)
Lemma executeOn_Ok fuel context msg code (vm vm' : VM HW) r :
  executeOn fuel context msg code vm = (Ok r, vm') ->
  exists vm0 status m, prepare context msg code vm = (Ok tt, vm0) /\
    runCode fuel code vm0 = (Ok status, vm') /\ Measure (InterpreterEngine vm') = Some m /\
    let Data := ReturnData (hwEVM (HostState (InterpreterEngine vm'))) in
    verifyDeployed fuel msg Data status = Ok (status_code r) /\
    gas_left r = (if status_code r =? EVMC_FAILURE then 0 else sgn 64 (msg_gas msg - CostSum m)) /\
    output_data r = (if 0 <? sizeZ Data then Some Data else None) /\ output_size r = sizeZ Data.
Proof.
  intros H. unfold executeOn in H. apply bind_Ok_inv in H as ([] & v0 & Hp & H).
  apply bind_Ok_inv in H as (st & v1 & Hc & H). apply bind_Ok_inv in H as (m & v2 & Hm & H).
  assert (v2 = v1 /\ Measure (InterpreterEngine v1) = Some m) as [-> Hm'].
  { unfold getMeter in Hm. rewrite bind_get in Hm. destruct (Measure _); [|done]. by injection Hm as <- <-. }
  apply bind_Ok_inv in H as (D & v3 & HD & H). injection HD as <- <-.
  apply bind_Ok_inv in H as (st' & v4 & Hv & H). injection Hv as Hv <-. injection H as <- <-.
  by exists v0, st, m.
Qed.

(** [C14] The gas law of EVMC.  Whatever the message, the code, and the host and its answers,
    a result of [execute] for a message with a gas of at most 2^63 - 1 has between 0 and that
    gas left, and none when the run failed: the VM is itself a callee of the kind whose
    callers' gas accounting is proved sound. *)
Theorem evmc_gas_law (fuel : nat) (o : X) (context : E) (msg : evmc_message) (code : list Z)
    (r : evmc_result) (vm : VM HW) :
  in_u 63 (msg_gas msg) -> execute os host keccak256 fuel o context msg code = (Ok r, vm) ->
  0 <= gas_left r <= msg_gas msg /\ (status_code r = EVMC_FAILURE -> gas_left r = 0) /\
  output_size r = sizeZ (default [] (output_data r)).
Proof.
  intros Hg He. rewrite execute_eq in He.
  apply executeOn_Ok in He as (v0 & st & m & Hp & Hc & Hm & _ & Hleft & Ho & Hs).
  pose proof (prepare_inv _ _ _ _ _ Hg (fresh_inv_unused o) Hp) as Hi.
  pose proof (runCode_inv _ (gas_laws _) fuel code v0 Hi) as Hi'. rewrite Hc in Hi'.
  destruct (si_meter _ _ _ (vi_store _ _ _ _ Hi')) as (m' & Hm' & [_ Hsum] & Hlim).
  cbn [snd] in Hm'. rewrite Hm in Hm'. injection Hm' as <-. rewrite Hlim in Hsum. unfold in_u in Hg.
  clear Hp Hc Hi Hi'. rewrite Hleft, Ho, Hs. split; [|split].
  - destruct (_ =? _); [lia|]. rewrite sgn_small by (done || (unfold in_s; lia)). lia.
  - intros ->. reflexivity.
  - destruct (0 <? _) eqn:El; [done|]. unfold sizeZ in *. cbn. lia.
Qed.

(** A step of the status was taken, or the status is a failure already. *)
Lemma attempt_Ok st op (vm vm' : VM HW) st' : st = EVMC_SUCCESS \/ st = EVMC_FAILURE ->
  attempt st op vm = (Ok st', vm') ->
  st' = EVMC_FAILURE \/ st' = EVMC_SUCCESS /\ st = EVMC_SUCCESS /\ op vm = (Ok tt, vm').
Proof.
  intros [-> | ->]; unfold attempt; [|by intros [= <- _]; left].
  change (EVMC_SUCCESS =? EVMC_SUCCESS) with true. cbv iota. rewrite bind_eq. unfold try.
  destruct (op vm) as [[[]|e|u|] v]; try done; intros [= <- <-]; [by right|by left].
Qed.

Lemma check_Ok st test (vm vm' : VM HW) st' : st = EVMC_SUCCESS \/ st = EVMC_FAILURE ->
  check st test vm = (Ok st', vm') ->
  st' = EVMC_FAILURE \/ st' = EVMC_SUCCESS /\ st = EVMC_SUCCESS /\ test vm = (Ok false, vm').
Proof.
  intros [-> | ->]; unfold check; [|by intros [= <- _]; left].
  change (EVMC_SUCCESS =? EVMC_SUCCESS) with true. cbv iota. rewrite bind_eq.
  destruct (test vm) as [[[]|e|u|] v]; try done; intros [= <- <-]; [by left|by right].
Qed.

(** The checks on the instance. *)
Lemma instance_checks (vm v1 v2 : VM HW) : noMemExports vm = (Ok false, v1) -> hasStart v1 = (Ok false, v2) ->
  v2 = vm /\ exists mi, getActiveModule (store vm) = Ok mi /\ ExpMems mi <> [] /\ StartAddr mi = None.
Proof.
  intros H1 H2. pose proof (noMemExports_pure vm) as E1. rewrite H1 in E1. cbn in E1. subst v1.
  pose proof (hasStart_pure vm) as E2. rewrite H2 in E2. cbn in E2. subst v2. split; [done|].
  unfold noMemExports in H1. rewrite bind_get, bind_eq in H1.
  unfold hasStart in H2. rewrite bind_get, bind_eq in H2.
  unfold deref, lift in *. unfold getMemExports in H1. unfold getActiveModule in *.
  destruct (0 <? num (Mods (store vm))); [|done].
  destruct (back (insts (Mods (store vm)))) as [mi|]; [|done]. exists mi.
  injection H1 as H1. injection H2 as H2. split; [done|].
  split; [by intros Hn; rewrite Hn in H1|]. by destruct (StartAddr mi).
Qed.

Lemma runCode_Ok fuel code (vm vm' : VM HW) st : runCode fuel code vm = (Ok st, vm') ->
  st = EVMC_FAILURE \/ exists vm1 mi Res,
    (loadWasm fuel code ;;; validateVM ;;; instantiateVM fuel) vm = (Ok tt, vm1) /\
    getActiveModule (store vm1) = Ok mi /\ ExpMems mi <> [] /\ StartAddr mi = None /\
    executeVM fuel (chars "main") [] vm1 = (Res, vm') /\
    (st = EVMC_SUCCESS /\ (exists vs, Res = Ok vs) \/ st = EVMC_REVERT /\ Res = Err Revert).
Proof.
  intros H. unfold runCode in H.
  apply bind_Ok_inv in H as (s1 & v1 & H1 & H). apply bind_Ok_inv in H as (s2 & v2 & H2 & H).
  apply bind_Ok_inv in H as (s3 & v3 & H3 & H). apply bind_Ok_inv in H as (s4 & v4 & H4 & H).
  apply bind_Ok_inv in H as (s5 & v5 & H5 & H6).
  assert (s5 = EVMC_FAILURE -> st = EVMC_FAILURE) as Hfail by (intros ->; unfold runMain in H6; by injection H6).
  apply attempt_Ok in H1; [|by left]. apply attempt_Ok in H2; [|tauto]. apply attempt_Ok in H3; [|tauto].
  apply check_Ok in H4; [|tauto]. apply check_Ok in H5; [|tauto].
  destruct H5 as [H5|(-> & -> & H5)]; [by left; apply Hfail|]. destruct H4 as [H4|(_ & -> & H4)]; [done|].
  destruct H3 as [H3|(_ & -> & H3)]; [done|]. destruct H2 as [H2|(_ & -> & H2)]; [done|].
  destruct H1 as [H1|(_ & _ & H1)]; [done|].
  destruct (instance_checks v3 v4 v5 H4 H5) as (-> & mi & Hact & Hmem & Hstart).
  unfold runMain in H6. change (EVMC_SUCCESS =? EVMC_SUCCESS) with true in H6. cbv iota in H6.
  rewrite bind_eq in H6. unfold try in H6.
  destruct (executeVM fuel (chars "main") [] v3) as [Res v6] eqn:Ex.
  assert ((loadWasm fuel code ;;; validateVM ;;; instantiateVM fuel) vm = (Ok tt, v3)) as Hrun.
  { by rewrite (bind_Ok _ _ _ _ _ H1), (bind_Ok _ _ _ _ _ H2). }
  destruct Res as [vs|e|u|]; try done; injection H6 as <- <-.
  - right. exists v3, mi, (Ok vs). split_and!; try done. left. split; [done|by exists vs].
  - case_bool_decide as He; [|by left]. right. exists v3, mi, (Err e). split_and!; try done. right. by subst.
Qed.

Lemma verifyDeployed_Ok fuel msg D st st' : verifyDeployed fuel msg D st = Ok st' -> st' <> EVMC_FAILURE -> st' = st.
Proof.
  unfold verifyDeployed. destruct (_ && _); [|by intros [= ->]].
  destruct (parseModule _ _ _).1 as [m|e|u|]; try done; [|by intros [= <-]].
  destruct (StartSec m); by intros [= <-].
Qed.

(** [C15] What a result says.  When [execute] returns a result that is not a failure, the
    code was loaded, validated and instantiated in the VM prepared for the message, the
    instance exports a memory and has no start function, and [main] was called: success
    means that it returned, a revert that it reverted.  The data of the result is the
    return data of the environment, and the gas left what the meter did not use. *)
Theorem evmc_result_sound (fuel : nat) (o : X) (context : E) (msg : evmc_message) (code : list Z)
    (r : evmc_result) (vm : VM HW) :
  execute os host keccak256 fuel o context msg code = (Ok r, vm) -> status_code r <> EVMC_FAILURE ->
  exists vm0 vm1 mi Res mea,
    prepare context msg code (makeVM os host keccak256 ewasmConf o).2 = (Ok tt, vm0) /\
    (loadWasm fuel code ;;; validateVM ;;; instantiateVM fuel) vm0 = (Ok tt, vm1) /\
    getActiveModule (store vm1) = Ok mi /\ ExpMems mi <> [] /\ StartAddr mi = None /\
    executeVM fuel (chars "main") [] vm1 = (Res, vm) /\
    (status_code r = EVMC_SUCCESS /\ (exists vs, Res = Ok vs) \/
     status_code r = EVMC_REVERT /\ Res = Err Revert) /\
    Measure (InterpreterEngine vm) = Some mea /\ gas_left r = sgn 64 (msg_gas msg - CostSum mea) /\
    default [] (output_data r) = ReturnData (hwEVM (HostState (InterpreterEngine vm))).
Proof.
  intros He Hs. rewrite execute_eq in He.
  apply executeOn_Ok in He as (v0 & st & m & Hp & Hc & Hm & Hv & Hleft & Ho & _).
  apply verifyDeployed_Ok in Hv; [|exact Hs]. rewrite <- Hv in Hc.
  apply runCode_Ok in Hc as [Hc|(v1 & mi & Res & Hrun & Hact & Hmem & Hst & Hx & Hres)]; [contradiction|].
  rewrite (proj2 (Z.eqb_neq _ _) Hs) in Hleft.
  assert (default [] (output_data r) = ReturnData (hwEVM (HostState (InterpreterEngine vm)))) as Hd.
  { rewrite Ho. clear. destruct (ReturnData _); [done|]. by destruct (0 <? _) eqn:E0. }
  exists v0, v1, mi, Res, m. exact (conj Hp (conj Hrun (conj Hact (conj Hmem (conj Hst (conj Hx (conj Hres
    (conj Hm (conj Hleft Hd))))))))).
Qed.

End Facts.

(** ** A contract that returns a byte *)

(** (import "ethereum" "finish" (func (param i32 i32))) (memory (export "mem") 1)
    (func (export "main") (i32.store8 (i32.const 0) (i32.const 42))
      (call 0 (i32.const 0) (i32.const 1))) *)
Definition finish_wasm : list Z :=
  [0; 0x61; 0x73; 0x6D; 1; 0; 0; 0] ++
  [1; 9; 2; 0x60; 2; 0x7F; 0x7F; 0; 0x60; 0; 0] ++
  [2; 19; 1; 8] ++ chars "ethereum" ++ [6] ++ chars "finish" ++ [0; 0] ++
  [3; 2; 1; 1] ++ [5; 3; 1; 0; 1] ++
  [7; 14; 2; 4] ++ chars "main" ++ [0; 1; 3] ++ chars "mem" ++ [2; 0] ++
  [0x0A; 17; 1; 15; 0; 0x41; 0; 0x41; 42; 0x3A; 0; 0; 0x41; 0; 0x41; 1; 0x10; 0; 0x0B].

Definition finish_message : evmc_message :=
  mkMsg EVMC_CALL 0 0 1000 (replicate 20 5) (replicate 20 9) None 0 (replicate 32 0).

#[local] Abbreviation finish_run :=
  (execute example_os example_host example_hash 60 demo_tape [] finish_message finish_wasm).
Definition finish_result : evmc_result := mkResult EVMC_SUCCESS 1000 (Some [42]) 1 (replicate 20 0).

Lemma finish_runs : finish_run.1 = Ok finish_result.
Proof. vm_compute. reflexivity. Qed.

(** Code that does not load fails and uses up the gas. *)
Example bad_code_fails :
  (execute example_os example_host example_hash 60 demo_tape [] finish_message [0; 1; 2]).1 =
  Ok (mkResult EVMC_FAILURE 0 None 0 (replicate 20 0)).
Proof. vm_compute. reflexivity. Qed.

Lemma evmc_gas_law_witness : 0 <= gas_left finish_result <= msg_gas finish_message.
Proof.
  apply (evmc_gas_law example_os example_host example_hash 60 demo_tape [] finish_message finish_wasm
    finish_result finish_run.2); [|exact (pair_fst _ _ finish_runs)].
  split; [discriminate|reflexivity].
Defined.

Lemma evmc_result_sound_witness : exists mi,
  ExpMems mi <> [] /\ StartAddr mi = None /\
  ReturnData (hwEVM (HostState (InterpreterEngine finish_run.2))) = [42].
Proof.
  destruct (evmc_result_sound example_os example_host example_hash 60 demo_tape [] finish_message finish_wasm
    finish_result finish_run.2 (pair_fst _ _ finish_runs)) as (vm0 & vm1 & mi & Res & mea & _ & _ & _ & H1 & H2 & _ & _ & _ & _ & H3);
    [discriminate|].
  exists mi. split; [exact H1|]. split; [exact H2|]. symmetry. exact H3.
Defined.
