(* ===== verification/Json.v ===== *)
(** * JSON documents: what the proxy uses of thirdparty/rapidjson/document.h

    A value is null, a boolean, a number, a string, an array or an object.  The flags
    rapidjson keeps with an integer follow from its value.  An accessor of another kind of
    value violates an assertion; the model has it undefined ([UB_downcast]), as it is when
    assertions are compiled out.  Members keep the order they were added in, and names may
    repeat: a name finds its first member. *)
From stdpp Require Import base list numbers option.
From Stdlib Require Import ZArith Lia.
From S2P Require Import Prelude CString.
#[local] Open Scope Z_scope.

Inductive Value : Type :=
| Null
| Bool (b : bool)
| Int (n : Z)
| Double (bits : Z)
| Str (s : list Z)
| Arr (l : list Value)
| Obj (m : list (list Z * Value)).

Module Json.

Definition SetObject : Value := Obj [].

(** [FindMember(name)]: [None] is [MemberEnd()]. *)
Fixpoint find (name : list Z) (m : list (list Z * Value)) : option Value :=
  match m with
  | [] => None
  | (k, v) :: m' => if bool_decide (name = k) then Some v else find name m'
  end.
Definition FindMember (name : list Z) (v : Value) : res (option Value) :=
  match v with Obj m => Ok (find name m) | _ => Undef UB_downcast end.

(** [v[name]] *)
Definition member (name : list Z) (v : Value) : res Value :=
  let? o := FindMember name v in
  match o with Some x => Ok x | None => Undef UB_deref end.

Definition AddMember (name : list Z) (x v : Value) : res Value :=
  match v with Obj m => Ok (Obj (m ++ [(name, x)])) | _ => Undef UB_downcast end.

(** An update of [v[name]] in place. *)
Fixpoint update (name : list Z) (f : Value -> res Value) (m : list (list Z * Value))
    : res (list (list Z * Value)) :=
  match m with
  | [] => Undef UB_deref
  | (k, v) :: m' =>
      if bool_decide (name = k) then let? v' := f v in Ok ((k, v') :: m')
      else let? r := update name f m' in Ok ((k, v) :: r)
  end.
Definition at_member (name : list Z) (f : Value -> res Value) (v : Value) : res Value :=
  match v with Obj m => let? m' := update name f m in Ok (Obj m') | _ => Undef UB_downcast end.

(** [SetString(s)] with a C string, [SetUint64(n)]. *)
Definition SetString (s : list Z) (_ : Value) : res Value := Ok (Str (c_str s)).
Definition SetUint64 (n : Z) (_ : Value) : res Value := Ok (Int (wrap 64 n)).

Definition PushBack (x v : Value) : res Value :=
  match v with Arr l => Ok (Arr (l ++ [x])) | _ => Undef UB_downcast end.

(** [GetArray()], [Begin()] to [End()]. *)
Definition GetArray (v : Value) : res (list Value) :=
  match v with Arr l => Ok l | _ => Undef UB_downcast end.
Definition at_index (i : Z) (l : list Value) : res Value :=
  match atZ l i with Some v => Ok v | None => Undef UB_vector end.

(** The pointer stands for the characters before the first zero. *)
Definition GetString (v : Value) : res (list Z) :=
  match v with Str s => Ok (c_str s) | _ => Undef UB_downcast end.
Definition GetUint (v : Value) : res Z :=
  match v with
  | Int n => if (0 <=? n) && (n <? 2 ^ 32) then Ok n else Undef UB_downcast
  | _ => Undef UB_downcast
  end.
Definition GetInt64 (v : Value) : res Z :=
  match v with
  | Int n => if (- 2 ^ 63 <=? n) && (n <? 2 ^ 63) then Ok n else Undef UB_downcast
  | _ => Undef UB_downcast
  end.
Definition GetUint64 (v : Value) : res Z :=
  match v with
  | Int n => if (0 <=? n) && (n <? 2 ^ 64) then Ok n else Undef UB_downcast
  | _ => Undef UB_downcast
  end.

End Json.
