(* ===== verification/Proxy.v ===== *)
(** * The proxy and the interpreter tool: include/proxy/*.h, lib/proxy/*.cpp,
    tools/ssvm-proxy/main.cpp, tools/ssvm/main.cpp

    The proxy reads a request from a JSON file, runs it in a new VM, and writes a response.
    A request can carry a snapshot of globals and memories to restore before the run, and
    the response of a run that succeeded carries the snapshot after it.  The record [Proxy]
    holds the members of the class and, as [Outputs], what was written and printed.  The
    file system, the parser and the writer of rapidjson and the printing of floats are
    parameters ([Machine]). *)
From stdpp Require Import base list numbers option strings.
From Stdlib Require Import ZArith Lia.
From S2P Require Import Prelude Types Instruction AST Memory FileMgr Loader FormChecker.
From S2P Require Import Validator StackMgr Runtime Interpreter Instantiate VM.
From S2P Require Import HostFunc EEI Wasi HostModules CString Json.
#[local] Open Scope Z_scope.

(** What the proxy asks of its surroundings: reading a file, [boost::filesystem::exists],
    whether a file can be opened for writing, [getenv("HOME")], [weakly_canonical],
    [Document::Parse] (a document, or an error), [Writer], and
    [boost::lexical_cast<std::string>] of a [float] or [double]. *)
Class Machine : Type := mkMachine {
  readFile : list Z -> option (list Z);
  fileExists : list Z -> bool;
  canWrite : list Z -> bool;
  Home : option (list Z);
  weakly_canonical : list Z -> res (list Z);
  Parse : list Z -> option Value;
  Accept : Value -> list Z;
  lexical_cast : CType -> Z -> list Z
}.

(** ** Snapshots *)

Section Snapshot.
Context {H : Type} {lib : HexLib}.
#[local] Abbreviation MS := (M (StoreManager H)).

(** The body of the loop over the globals of the document. *)
Definition restoreGlobal (ModInst : ModuleInstance) (It : Value) : MS unit :=
  let* Pair := lift (Json.GetArray It) in
  let* Idx := lift (let? v := Json.at_index 0 Pair in Json.GetUint v) in
  let* Addr := lift (get_at (GlobalAddrs ModInst) Idx) in
  let* st := get in
  let* GlobInst := deref (lift (getInstance Addr (Globs st))) in
  let* Str_ := lift (let? v := Json.at_index 1 Pair in Json.GetString v) in
  let* x := lift (stoull16 Str_) in
  put (set_Globs (pool_update Addr (set_GValue (mkVariant U64 x) GlobInst) (Globs st)) st).

Definition restoreMemory (ModInst : ModuleInstance) (It : Value) : MS unit :=
  let* Pair := lift (Json.GetArray It) in
  let* Idx := lift (let? v := Json.at_index 0 Pair in Json.GetUint v) in
  let* Hex := lift (let? v := Json.at_index 1 Pair in Json.GetString v) in
  let* Addr := lift (get_at (MemAddrs ModInst) Idx) in
  let* st := get in
  let* MemInst := deref (lift (getInstance Addr (Mems st))) in
  let* MemVec := lift (unhex Hex) in
  let '(r, MemInst') := setBytes MemVec 0 0 (wrap 32 (sizeZ MemVec)) MemInst in
  put (set_Mems (pool_update Addr MemInst' (Mems st)) st) ;;; lift r.

(** The elements of a member, when it is there. *)
Definition elements (name : list Z) (Doc : Value) : MS (list Value) :=
  let* It := lift (Json.FindMember name Doc) in
  match It with Some v => lift (Json.GetArray v) | None => ret [] end.

Definition restore (Doc : Value) : MS unit :=
  let* st := get in
  let* ModInst := lift (getActiveModule st) in
  let* Globals := elements (chars "global") Doc in
  mapM_ (restoreGlobal ModInst) Globals ;;;
  let* Memories := elements (chars "memory") Doc in
  mapM_ (restoreMemory ModInst) Memories.

(** The pairs of index and value of the globals [Is]: each is read as eight bytes. *)
Fixpoint snapshotGlobals (ModInst : ModuleInstance) (Is : list Z) : MS (list Value) :=
  match Is with
  | [] => ret []
  | Ix :: Is' =>
      let* GlobAddr := deref (lift (get_at (GlobalAddrs ModInst) Ix)) in
      let* st := get in
      let* GlobInst := deref (lift (getInstance GlobAddr (Globs st))) in
      let* x := lift (retrieveValue U64 (GValue GlobInst)) in
      let* GlobArr := snapshotGlobals ModInst Is' in
      ret (Arr [Int Ix; Str (c_str (format_0x016llx x))] :: GlobArr)
  end.

(** The memories that hold data. *)
Fixpoint snapshotMemories (ModInst : ModuleInstance) (Is : list Z) : MS (list Value) :=
  match Is with
  | [] => ret []
  | Ix :: Is' =>
      let* MemAddr := deref (lift (get_at (MemAddrs ModInst) Ix)) in
      let* st := get in
      let* MemInst := deref (lift (getInstance MemAddr (Mems st))) in
      let DataHex := hex_lower (Data MemInst) in
      let* MemArr := snapshotMemories ModInst Is' in
      ret (if 0 <? sizeZ DataHex then Arr [Int Ix; Str (c_str DataHex)] :: MemArr else MemArr)
  end.

(** [for (uint32_t I = 0; I < Num; ++I)] *)
Definition indices {A} (l : list A) : list Z := seqZ 0 (wrap 32 (sizeZ l)).

Definition snapshot (Doc : Value) : MS Value :=
  let* st := get in
  let* ModInst := lift (getActiveModule st) in
  let* Doc1 :=
    (if 0 <? wrap 32 (sizeZ (GlobalAddrs ModInst)) then
       let* GlobArr := snapshotGlobals ModInst (indices (GlobalAddrs ModInst)) in
       lift (Json.AddMember (chars "global") (Arr GlobArr) Doc)
     else ret Doc) in
  if 0 <? wrap 32 (sizeZ (MemAddrs ModInst)) then
    let* MemArr := snapshotMemories ModInst (indices (MemAddrs ModInst)) in
    if 0 <? sizeZ MemArr then lift (Json.AddMember (chars "memory") (Arr MemArr) Doc1) else ret Doc1
  else ret Doc1.

End Snapshot.

(** ** Values in text *)

Section Proxy.
Context {E X : Type} (os : OS X) (host : evmc_host_interface E) (keccak256 : list Z -> list Z).
Context {lib : HexLib} {mach : Machine}.
#[local] Abbreviation HW := (HostWorld E X).

(** Another type leaves the value as it is made: a [uint32_t] of 0. *)
Definition convStrToVal (Str_ Type_ : list Z) : res ValVariant :=
  if bool_decide (Type_ = chars "i32") then let? x := stol Str_ in Ok (mkVariant U32 (wrap 32 x))
  else if bool_decide (Type_ = chars "i64") then let? x := stoll Str_ in Ok (mkVariant U64 (wrap 64 x))
  else if bool_decide (Type_ = chars "f32") then let? x := stofloat FLT Str_ in Ok (mkVariant FLT x)
  else if bool_decide (Type_ = chars "f64") then let? x := stofloat DBL Str_ in Ok (mkVariant DBL x)
  else Ok (mkVariant U32 0).

Definition convValToStr (Val : ValVariant) (Type_ : list Z) : res (list Z) :=
  if bool_decide (Type_ = chars "i32") then let? x := retrieveValue U32 Val in Ok (to_string (sgn 32 x))
  else if bool_decide (Type_ = chars "i64") then let? x := retrieveValue U64 Val in Ok (to_string (sgn 64 x))
  else if bool_decide (Type_ = chars "f32") then let? x := retrieveValue FLT Val in Ok (lexical_cast FLT x)
  else if bool_decide (Type_ = chars "f64") then let? x := retrieveValue DBL Val in Ok (lexical_cast DBL x)
  else Ok [].

(** ** The class *)

Inductive Output : Type := Written (Path Text : list Z) | Printed (Text : list Z).

(** A VM with its identification. *)
Record Unit_ : Type := mkUnit { uVM : VM HW; ServiceName : list Z; UUID : option Z }.

Record Proxy : Type := mkProxy {
  InputJSONPath : list Z;
  OutputJSONPath : list Z;
  WasmPath : list Z;
  InputDoc : Value;
  OutputDoc : Value;
  VMUnit : option Unit_;
  VMConf : Configure;
  Outputs : list Output
}.

#[local] Abbreviation MP := (M Proxy).

Definition newProxy : Proxy := mkProxy [] [] [] Null Null None newConfigure [].

Definition set_Paths (i o w : list Z) (p : Proxy) : Proxy :=
  mkProxy i o w (InputDoc p) (OutputDoc p) (VMUnit p) (VMConf p) (Outputs p).
Definition set_InputDoc (x : Value) (p : Proxy) : Proxy :=
  mkProxy (InputJSONPath p) (OutputJSONPath p) (WasmPath p) x (OutputDoc p) (VMUnit p) (VMConf p) (Outputs p).
Definition set_OutputDoc (x : Value) (p : Proxy) : Proxy :=
  mkProxy (InputJSONPath p) (OutputJSONPath p) (WasmPath p) (InputDoc p) x (VMUnit p) (VMConf p) (Outputs p).
Definition set_VMUnit (x : option Unit_) (p : Proxy) : Proxy :=
  mkProxy (InputJSONPath p) (OutputJSONPath p) (WasmPath p) (InputDoc p) (OutputDoc p) x (VMConf p) (Outputs p).
Definition set_VMConf (x : Configure) (p : Proxy) : Proxy :=
  mkProxy (InputJSONPath p) (OutputJSONPath p) (WasmPath p) (InputDoc p) (OutputDoc p) (VMUnit p) x (Outputs p).
Definition add_Output (x : Output) (p : Proxy) : Proxy :=
  mkProxy (InputJSONPath p) (OutputJSONPath p) (WasmPath p) (InputDoc p) (OutputDoc p) (VMUnit p)
    (VMConf p) (Outputs p ++ [x]).

(** [RelPath.substr(2)] throws when the path is shorter. *)
Definition getAbsPath (RelPath : list Z) : res (list Z) :=
  match RelPath with
  | [] => Ok []
  | c :: _ =>
      if c =? 126 then
        match Home with
        | Some h =>
            if sizeZ RelPath <? 2 then Undef UB_throw
            else weakly_canonical (h ++ [47] ++ drop 2 RelPath)
        | None => weakly_canonical []
        end
      else weakly_canonical RelPath
  end.

Definition setInputJSONPath (S : list Z) : MP unit :=
  let* p := get in let* a := lift (getAbsPath S) in
  put (set_Paths a (OutputJSONPath p) (WasmPath p) p).
Definition setOutputJSONPath (S : list Z) : MP unit :=
  let* p := get in let* a := lift (getAbsPath S) in
  put (set_Paths (InputJSONPath p) a (WasmPath p) p).
Definition setWasmPath (S : list Z) : MP unit :=
  let* p := get in let* a := lift (getAbsPath S) in
  put (set_Paths (InputJSONPath p) (OutputJSONPath p) a p).

(** ** The documents *)

Definition onOut (f : Value -> res Value) : MP unit :=
  let* p := get in let* d := lift (f (OutputDoc p)) in put (set_OutputDoc d p).
(** [OutputDoc["result"][name]...] *)
Definition onResult (name : list Z) (f : Value -> res Value) : MP unit :=
  onOut (Json.at_member (chars "result") (Json.at_member name f)).
Definition setMessage (s : list Z) : MP unit :=
  onResult (chars "error_message") (Json.SetString s).

Definition prepareOutputJSON : MP unit :=
  modify (set_OutputDoc Json.SetObject) ;;;
  onOut (Json.AddMember (chars "service_name") (Str [])) ;;;
  onOut (Json.AddMember (chars "uuid") (Str (chars "0x0"))) ;;;
  let* ResultObj := lift (
    let? r := Json.AddMember (chars "status") (Str (chars "Failed")) Json.SetObject in
    let? r := Json.AddMember (chars "error_message") (Str []) r in
    let? r := Json.AddMember (chars "gas") (Int 0) r in
    let? r := Json.AddMember (chars "gas_used") (Int 0) r in
    let? r := Json.AddMember (chars "vm_snapshot") (Obj []) r in
    Json.AddMember (chars "return_value") (Arr []) r) in
  onOut (Json.AddMember (chars "result") ResultObj).

(** [InputDoc.Parse]: an error leaves the document as it was. *)
Definition parseDocument (Text : list Z) : MP unit :=
  match Parse (c_str Text) with
  | Some d => modify (set_InputDoc d)
  | None => ret tt
  end.

(** [if (It != MemberEnd()) ...] *)
Definition on_member {A} (It : option Value) (d : A) (f : Value -> MP A) : MP A :=
  match It with Some v => f v | None => ret d end.

(** The configuration the modules ask for; [None] when one is not supported. *)
Fixpoint configure (Modules : list Value) (Conf : Configure) : res (Configure * bool) :=
  match Modules with
  | [] => Ok (Conf, true)
  | Val :: Modules' =>
      let? ModuleType := Json.GetString Val in
      if bool_decide (ModuleType = chars "Rust") then configure Modules' (addVMType VM_Wasi Conf)
      else if bool_decide (ModuleType = chars "ethereum") then Ok (Conf, false)
      else configure Modules' Conf
  end.

(** The members of the request that are copied to the response. *)
Definition copyHeader (ItServiceName ItUUID : option Value) : MP unit :=
  on_member ItServiceName tt (fun v =>
    let* s := lift (Json.GetString v) in
    onOut (Json.at_member (chars "service_name") (Json.SetString s))) ;;;
  on_member ItUUID tt (fun v =>
    let* s := lift (Json.GetString v) in
    onOut (Json.at_member (chars "uuid") (Json.SetString s))) ;;;
  let* p := get in
  let* Execution := lift (Json.member (chars "execution") (InputDoc p)) in
  let* ItGas := lift (Json.FindMember (chars "gas") Execution) in
  on_member ItGas tt (fun v =>
    let* g := lift (Json.GetInt64 v) in
    onResult (chars "gas") (Json.SetUint64 g)).

(** Create VM with configure. *)
Definition createVM (o : X) (Modules : Value) : MP unit :=
  modify (set_VMUnit None) ;;;
  modify (set_VMConf newConfigure) ;;;
  let* l := lift (Json.GetArray Modules) in
  let* cb := lift (configure l newConfigure) in
  modify (set_VMConf cb.1) ;;;
  if (cb.2 : bool) then
    let '(r, vm) := makeVM os host keccak256 cb.1 o in
    lift r ;;; modify (set_VMUnit (Some (mkUnit vm [] None)))
  else setMessage (chars "Ethereum mode is not supported in SSVM-RPC.").

Definition parseInputJSON (o : X) : MP unit :=
  let* p := get in
  match readFile (InputJSONPath p) with
  | None => setMessage (chars "Input JSON file not found.")
  | Some Text =>
      parseDocument Text ;;;
      let* p := get in
      let* ItServiceName := lift (Json.FindMember (chars "service_name") (InputDoc p)) in
      let* ItUUID := lift (Json.FindMember (chars "uuid") (InputDoc p)) in
      let* ItModules := lift (Json.FindMember (chars "modules") (InputDoc p)) in
      let* ItExecution := lift (Json.FindMember (chars "execution") (InputDoc p)) in
      match ItModules, ItExecution with
      | Some Modules, Some _ => copyHeader ItServiceName ItUUID ;;; createVM o Modules
      | _, _ => setMessage (chars "Module not determined.")
      end
  end.

(** ** Execution *)

Definition set_uVM (x : VM HW) (u : Unit_) : Unit_ := mkUnit x (ServiceName u) (UUID u).

(** [VMUnit->...]: null is undefined. *)
Definition onVM {A} (m : M (VM HW) A) : MP A := fun p =>
  match VMUnit p with
  | None => (Undef UB_deref, p)
  | Some u => let '(r, vm) := m (uVM u) in (r, set_VMUnit (Some (set_uVM vm u)) p)
  end.
Definition onStoreMgr {A} (m : M (StoreManager HW) A) : M (VM HW) A :=
  onInterp (zoom StoreMgr set_StoreMgr m).
Definition meter : M (VM HW) Measurement :=
  let* s := get in match Measure (InterpreterEngine s) with Some m => ret m | None => undef UB_deref end.
Definition setCostLimit (L : Z) : M (VM HW) unit :=
  modify (fun s => set_Interp (set_Measure (set_CostLimit L <$> Measure (InterpreterEngine s))
                                 (InterpreterEngine s)) s).

Definition identify : MP unit :=
  let* p := get in
  let* Name := lift (let? v := Json.member (chars "service_name") (OutputDoc p) in Json.GetString v) in
  let* Id := lift (let? v := Json.member (chars "uuid") (OutputDoc p) in Json.GetString v) in
  match VMUnit p with
  | None => undef UB_deref
  | Some u => put (set_VMUnit (Some (mkUnit (uVM u) Name (Some (strtoull16 Id)))) p)
  end.

(** The values of the arguments, in pairs of text and type. *)
Fixpoint convArgs (Args Types : list Value) : res (list ValVariant) :=
  match Args, Types with
  | a :: Args', t :: Types' =>
      let? s := Json.GetString a in
      let? ty := Json.GetString t in
      let? v := convStrToVal s ty in
      let? r := convArgs Args' Types' in
      Ok (v :: r)
  | _, _ => Ok []
  end.

(** The parameters; [None] when the arrays do not match. *)
Definition readParams (ItArgs ItArgTypes : option Value) : MP (option (list ValVariant)) :=
  match ItArgs, ItArgTypes with
  | Some Args, Some ArgTypes =>
      let* a := lift (Json.GetArray Args) in
      let* t := lift (Json.GetArray ArgTypes) in
      if negb (sizeZ a =? sizeZ t)
      then setMessage (chars "Arguments and types array length not matched.") ;;; ret None
      else let* l := lift (convArgs a t) in ret (Some l)
  | _, _ => ret (Some [])
  end.

(** [if (Status == ErrCode::Success) if (auto Res = op; !Res) { Status = Res.error(); ... }] *)
Definition attempt (Status : ErrCode) (op : M (VM HW) unit) (Failed : MP unit) : MP ErrCode :=
  if bool_decide (Status = Success) then
    let* Res := try (onVM op) in
    match Res with
    | inl _ => ret Status
    | inr e => Failed ;;; ret e
    end
  else ret Status.

(** Write the return values from [Ix] on. *)
Fixpoint writeReturns (Ix : Z) (Results : list ValVariant) (RetTypes : list Value) : MP unit :=
  match RetTypes with
  | [] => ret tt
  | t :: RetTypes' =>
      let* ty := lift (Json.GetString t) in
      let* v := lift (match atZ Results Ix with Some v => Ok v | None => Undef UB_vector end) in
      let* s := lift (convValToStr v ty) in
      onResult (chars "return_value") (Json.PushBack (Str (c_str s))) ;;;
      writeReturns (Ix + 1) Results RetTypes'
  end.

(** What follows a call that returned; [false] when the handler returns there. *)
Definition reportResults (Results : list ValVariant) (ItRetTypes : option Value) : MP bool :=
  let* m := onVM meter in
  onResult (chars "gas_used") (Json.SetUint64 (CostSum m)) ;;;
  let* RetTypes := on_member ItRetTypes [] (fun v => lift (Json.GetArray v)) in
  if (0 <? sizeZ RetTypes) && negb (sizeZ Results =? sizeZ RetTypes) then
    setMessage (chars "Return value array length and wasm function not matched.") ;;; ret false
  else
    writeReturns 0 Results RetTypes ;;;
    onResult (chars "status") (Json.SetString (chars "Succeeded")) ;;;
    ret true.

(** Execute function and snapshot VM. *)
Definition runFunctionJSON (fuel : nat) (ItFuncName ItRetTypes : option Value) (Params_ : list ValVariant)
    : MP unit :=
  let* FuncName := on_member ItFuncName [] (fun v => lift (Json.GetString v)) in
  let* Res := try (onVM (VM.executeVM fuel FuncName Params_)) in
  match Res with
  | inr e =>
      if bool_decide (e = Revert) then
        onResult (chars "status") (Json.SetString (chars "Reverted")) ;;;
        setMessage (chars "Reverted by Ewasm.")
      else setMessage (chars "Wasm execution failed.")
  | inl Results =>
      let* go := reportResults Results ItRetTypes in
      if (go : bool) then
        let* p := get in
        let* Doc := lift (let? r := Json.member (chars "result") (OutputDoc p) in
                          Json.member (chars "vm_snapshot") r) in
        let* Snap := try (onVM (onStoreMgr (snapshot Doc))) in
        match Snap with
        | inl Doc' => onResult (chars "vm_snapshot") (fun _ => Ok Doc')
        | inr _ => ret tt
        end
      else ret tt
  end.

(** Instantiate wasm module, restore VM state, and go on. *)
Definition runWasm (fuel : nat) (Execution : Value) (ItFuncName ItRetTypes : option Value)
    (Params_ : list ValVariant) : MP unit :=
  let* p := get in
  let* s1 := attempt Success (loadWasmPath readFile fuel (WasmPath p))
               (setMessage (chars "Wasm decoding failed.")) in
  let* s2 := attempt s1 validateVM (setMessage (chars "Wasm validation failed.")) in
  let* s3 := attempt s2 (instantiateVM fuel) (setMessage (chars "Wasm instantiation failed.")) in
  let* ItSnapshot := lift (Json.FindMember (chars "vm_snapshot") Execution) in
  let* s4 := on_member ItSnapshot s3 (fun v => attempt s3 (onStoreMgr (restore v)) (ret tt)) in
  if bool_decide (s4 = Success) then runFunctionJSON fuel ItFuncName ItRetTypes Params_ else ret tt.

Definition executeVM (fuel : nat) : MP unit :=
  let* p := get in
  if bool_decide (WasmPath p = []) || negb (fileExists (WasmPath p))
  then setMessage (chars "Wasm file not found.")
  else
    match VMUnit p with
    | None => ret tt
    | Some _ =>
        identify ;;;
        let* Execution := lift (Json.member (chars "execution") (InputDoc p)) in
        let* ItFuncName := lift (Json.FindMember (chars "function_name") Execution) in
        let* ItGas := lift (Json.FindMember (chars "gas") Execution) in
        let* ItArgs := lift (Json.FindMember (chars "argument") Execution) in
        let* ItArgTypes := lift (Json.FindMember (chars "argument_types") Execution) in
        let* ItRetTypes := lift (Json.FindMember (chars "return_types") Execution) in
        on_member ItGas tt (fun v =>
          let* g := lift (Json.GetUint64 v) in onVM (setCostLimit g)) ;;;
        let* Params_ := readParams ItArgs ItArgTypes in
        match Params_ with
        | None => ret tt
        | Some l => runWasm fuel Execution ItFuncName ItRetTypes l
        end
    end.

Definition exportOutputJSON : MP unit :=
  let* p := get in
  let Text := c_str (Accept (OutputDoc p)) in
  if canWrite (OutputJSONPath p) then modify (add_Output (Written (OutputJSONPath p) Text))
  else
    modify (add_Output (Printed (
      [10] ++ chars " Cannot open output path: " ++ [34] ++ OutputJSONPath p ++ [34; 10] ++
      chars " ===================  Results  ==================" ++ [10; 32] ++ Text ++ [10]))).

Definition runRequest (fuel : nat) (o : X) : MP unit :=
  prepareOutputJSON ;;; parseInputJSON o ;;; executeVM fuel ;;; exportOutputJSON.

End Proxy.

(** ** The command line *)

Section Command.
Context {E X : Type} (os : OS X) (host : evmc_host_interface E) (keccak256 : list Z -> list Z).
Context {lib : HexLib} {mach : Machine}.

Record CmdParser : Type := mkCmd { cmdInput : list Z; cmdOutput : list Z; cmdWasm : list Z }.

Definition starts_with (pre s : list Z) : bool := bool_decide (take (length pre) s = pre).
(** Whether [pre] occurs anywhere. *)
Fixpoint occurs (pre s : list Z) : bool :=
  starts_with pre s || match s with [] => false | _ :: s' => occurs pre s' end.
(** [S.rfind(pre) == 0]: the last occurrence is at the start. *)
Definition rfind_is_0 (pre s : list Z) : bool :=
  starts_with pre s && match s with [] => true | _ :: s' => negb (occurs pre s') end.

Definition parseArgument (S : list Z) (c : CmdParser) : CmdParser :=
  let c := if rfind_is_0 (chars "--input_file=") S then mkCmd (drop 13 S) (cmdOutput c) (cmdWasm c) else c in
  let c := if rfind_is_0 (chars "--output_file=") S then mkCmd (cmdInput c) (drop 14 S) (cmdWasm c) else c in
  if rfind_is_0 (chars "--wasm_file=") S then mkCmd (cmdInput c) (cmdOutput c) (drop 12 S) else c.

Definition parseCommandLine (Argv : list (list Z)) (c : CmdParser) : CmdParser :=
  fold_left (fun c S => parseArgument S c) Argv c.

(** The program: its exit status is 0. *)
Definition proxy_main (fuel : nat) (o : X) (Argv : list (list Z)) : res unit * Proxy :=
  let Cmd := parseCommandLine Argv (mkCmd [] [] []) in
  (setInputJSONPath (cmdInput Cmd) ;;;
   setOutputJSONPath (cmdOutput Cmd) ;;;
   setWasmPath (cmdWasm Cmd) ;;;
   runRequest os host keccak256 fuel o) (newProxy (E := E)).

(** ** The interpreter tool *)

(** The numbers of the error codes. *)
Definition err_codes : list ErrCode :=
  [Success; Terminated; InvalidPath; ReadError; EndOfFile; InvalidGrammar; ValidationFailed; WrongExecutorFlow; WrongWorkerFlow;
   WrongVMWorkflow; InstantiateFailed; WrongInstanceAddress; ImportNotMatch; ExecutionFailed; TypeNotMatch; StackWrongEntry;
   StackEmpty; WrongLocalAddress; InstructionTypeMismatch; DivideByZero; FloatPointException; CastingError; Unimplemented;
   AccessForbidMemory; SliceDataFailed; Unreachable; WrongInstructionCounter; TableSizeExceeded; MemorySizeExceeded;
   FunctionInvalid; CallFunctionError; CostLimitExceeded; Revert; ModuleNameConflict].
Definition err_number (e : ErrCode) : Z :=
  match list_find (eq e) err_codes with Some (i, _) => Z.of_nat i | None => 0 end.

Fixpoint parseParams (Args : list (list Z)) : res (list ValVariant) :=
  match Args with
  | [] => Ok []
  | a :: Args' =>
      let? x := stoul a in
      let? r := parseParams Args' in
      Ok (mkVariant U32 (wrap 32 x) :: r)
  end.

(** What is printed for the results. *)
Fixpoint printResults (Results : list ValVariant) : res (list Z) :=
  match Results with
  | [] => Ok []
  | v :: Results' =>
      let? x := retrieveValue U32 v in
      let? r := printResults Results' in
      Ok (chars " Return value: " ++ to_string x ++ [10] ++ r)
  end.

(** The exit status and the text printed. *)
Definition ssvm_main (fuel : nat) (o : X) (Argv : list (list Z)) : res (Z * list Z) :=
  match Argv with
  | _ :: InputPath :: Func :: Args =>
      let '(made, vm) := makeVM os host keccak256 newConfigure o in
      let? _ := made in
      let? Params_ := parseParams Args in
      match (runWasmFilePath readFile fuel InputPath Func Params_ vm).1 with
      | Ok Results => let? s := printResults Results in Ok (0, s)
      | Err e => Ok (err_number e, chars " Failed. Code : " ++ to_string (err_number e) ++ [10])
      | Undef u => Undef u
      | NoFuel => NoFuel
      end
  | _ => Ok (0, chars "Usage: ./ssvm wasm_file.wasm func_name [args...]" ++ [10])
  end.

End Command.
