(* ===== verification/ProxySnapshot.v ===== *)
(** * Snapshots of the proxy

    What a snapshot keeps of a store, and what restoring it in another store brings back. *)
From stdpp Require Import base list numbers option strings.
From Stdlib Require Import ZArith Lia.
From S2P Require Import Prelude Types Instruction AST Memory MemoryFacts StackMgr Runtime.
From S2P Require Import HostFunc HexStr CString Json Proxy.
#[local] Open Scope Z_scope.

Lemma atZ_setZ {A} (l : list A) a b x : 0 <= a < sizeZ l ->
  atZ (setZ a x l) b = if bool_decide (b = a) then Some x else atZ l b.
Proof.
  unfold atZ, setZ, sizeZ. intros Ha. case_bool_decide as Hb.
  - subst. rewrite (proj2 (Z.leb_le 0 a)) by lia. apply list_lookup_insert_eq. lia.
  - destruct (Z.leb_spec 0 b); [|done]. apply list_lookup_insert_ne. lia.
Qed.

Lemma mapM_fmap {S A B} (f : B -> M S unit) (g : A -> B) l s :
  mapM_ f (g <$> l) s = mapM_ (fun x => f (g x)) l s.
Proof. revert s; induction l as [|x l IH]; intros s; cbn; [done|]. by apply bind_ext. Qed.

Lemma bind_ret {S A B} (a : A) (k : A -> M S B) s : bind (ret a) k s = k a s.
Proof. done. Qed.

(** ** A pass over a pool

    [step] rewrites the instance at an address of a pool from the instance [x] a snapshot
    was taken of.  An entry is an index, its address, and [x]. *)
Section Pass.
Context {T A : Type} (getp : T -> pool A) (setp : pool A -> T -> T) (step : Z * Z * A -> M T unit).
Context (src : list A) (Pre Q : A -> A -> Prop) (ok : Z * Z * A -> Prop).
Context (get_set : forall p t, getp (setp p t) = p) (set_set : forall p q t, setp p (setp q t) = setp p t)
  (set_get : forall t, setp (getp t) t = t).

Definition entry (l : Z * Z * A) : Prop := atZ src l.1.2 = Some l.2.
Definition ready (p : pool A) (l : Z * Z * A) : Prop := exists y, atZ (insts p) l.1.2 = Some y /\ Pre l.2 y.
Definition done_at (p : pool A) (l : Z * Z * A) : Prop := exists y, atZ (insts p) l.1.2 = Some y /\ Q l.2 y.

(** Nothing but the instances at the addresses [As] changed. *)
Record kept (As : list Z) (p p' : pool A) : Prop := mk_kept {
  kept_owned : owned p' = owned p;
  kept_num : num p' = num p;
  kept_size : sizeZ (insts p') = sizeZ (insts p);
  kept_insts a : a ∉ As -> atZ (insts p') a = atZ (insts p) a }.

Context (Hstep : forall t l y, ok l -> atZ (insts (getp t)) l.1.2 = Some y -> Pre l.2 y ->
  exists y', step l t = (Ok tt, setp (pool_update l.1.2 y' (getp t)) t) /\ Pre l.2 y' /\ Q l.2 y').

Lemma pass_run L t : Forall ok L -> Forall entry L -> Forall (ready (getp t)) L ->
  exists p', mapM_ step L t = (Ok tt, setp p' t) /\ kept (L.*1.*2) (getp t) p' /\ Forall (done_at p') L.
Proof using Hstep get_set set_set set_get.
  revert t; induction L as [|l L IH]; intros t Ho He Hr.
  { exists (getp t). split; [|by repeat split]. cbn. unfold ret. by rewrite set_get. }
  apply Forall_cons_1 in Ho as [Ho HoL], He as [He HeL], Hr as [(y & Hy & Hp) HrL].
  destruct (Hstep t l y Ho Hy Hp) as (y' & Hs & Hp' & Hq).
  set (p1 := pool_update l.1.2 y' (getp t)) in *.
  pose proof (atZ_Some _ _ _ Hy) as Hb.
  assert (forall b, atZ (insts p1) b = if bool_decide (b = l.1.2) then Some y' else atZ (insts (getp t)) b) as H1
    by (intros b; by apply atZ_setZ).
  destruct (IH (setp p1 t)) as (p' & Hm & [K1 K2 K3 K4] & Hd); [done|done| |].
  { rewrite get_set. rewrite Forall_forall in HeL, HrL |- *. intros l' Hl'. unfold ready. rewrite H1.
    case_bool_decide as Ea; [|by apply HrL]. exists y'. split; [done|].
    specialize (HeL l' Hl'). unfold entry in *. rewrite Ea, He in HeL. by injection HeL as <-. }
  rewrite get_set in K1, K2, K3, K4. exists p'. split; [|split].
  - cbn [mapM_]. rewrite (bind_Ok _ _ _ _ _ Hs), Hm. by rewrite set_set.
  - split; [done|done| |].
    + rewrite K3. unfold p1, pool_update, setZ, sizeZ. cbn. by rewrite length_insert.
    + intros a Ha. cbn in Ha. apply not_elem_of_cons in Ha as [Hne Ha].
      rewrite K4, H1 by done. by rewrite bool_decide_eq_false_2.
  - constructor; [|done]. destruct (decide (l.1.2 ∈ L.*1.*2)) as [Hin|Hin].
    + apply list_elem_of_fmap in Hin as ([i a] & Ea & Hin). apply list_elem_of_fmap in Hin as ([[i' a'] x'] & [= -> ->] & Hin).
      cbn in Ea. rewrite Forall_forall in Hd, HeL. specialize (Hd _ Hin). specialize (HeL _ Hin).
      unfold entry, done_at in *. cbn in Hd, HeL. rewrite <- Ea, He in HeL. rewrite <- Ea in Hd.
      injection HeL as ->. done.
    + exists y'. split; [|done]. rewrite K4, H1 by done. by rewrite bool_decide_eq_true_2.
Qed.

End Pass.

(** The entries of the indices [Is] of a list of addresses. *)
Definition entries_of {A} (addrs : list Z) (src : list A) (Is : list Z) (L : list (Z * Z * A)) : Prop :=
  L.*1.*1 = Is /\ Forall (fun l => atZ addrs l.1.1 = Some l.1.2) L /\ Forall (entry src) L.

Lemma entries_exist {A} addrs (src : list A) Is :
  Forall (fun i => exists a x, atZ addrs i = Some a /\ atZ src a = Some x) Is ->
  exists L, entries_of addrs src Is L.
Proof.
  induction 1 as [|i Is (a & x & Ha & Hx) _ (L & HL & H1 & H2)]; [by exists []|].
  exists ((i, a, x) :: L). split; [cbn; by rewrite HL|]. split; by constructor.
Qed.

Lemma indices_all {A} (l : list A) : sizeZ l < 2 ^ 32 ->
  indices l = seqZ 0 (sizeZ l) /\ forall i a, atZ l i = Some a -> i ∈ indices l.
Proof.
  intros Hl. unfold indices. rewrite wrap_small by (unfold in_u, sizeZ in *; lia). split; [done|].
  intros i a Hi. apply atZ_Some in Hi. apply elem_of_seqZ. lia.
Qed.

Section Roundtrip.
Context {H : Type} {lib : HexLib} {laws : HexLaws lib}.
#[local] Abbreviation Store := (StoreManager H).

(** ** Globals *)

(** A value whose eight bytes were written. *)
Definition full (v : ValVariant) : Prop := wide v = true /\ val_ok v.

Lemma full_read v : full v -> retrieveValue U64 v = Ok (storage v).
Proof.
  intros [Hw Hv]. unfold retrieveValue. rewrite Hw. cbn [sizeof negb]. rewrite andb_false_r. f_equal.
  unfold of_bits. cbn. by apply wrap_small.
Qed.

Lemma full_write v : full v -> mkVariant U64 (storage v) = v.
Proof.
  intros [Hw Hv]. unfold mkVariant, to_bits. change (bits U64) with 64. rewrite wrap_small by done.
  destruct v; cbn in *. by subst.
Qed.

Definition glob_json (l : Z * Z * GlobalInstance) : Value :=
  Arr [Int l.1.1; Str (48 :: 120 :: hex16 (storage (GValue l.2)))].

Lemma format_c_str x : c_str (48 :: 120 :: hex16 x) = 48 :: 120 :: hex16 x.
Proof.
  change (c_str (48 :: 120 :: hex16 x)) with (48 :: 120 :: c_str (hex16 x)).
  by rewrite hex_c_str by apply hex16_hex.
Qed.

Lemma snapshotGlobals_run m (s : Store) Is L : entries_of (GlobalAddrs m) (insts (Globs s)) Is L ->
  Forall (fun l => full (GValue l.2)) L -> snapshotGlobals m Is s = (Ok (glob_json <$> L), s).
Proof using laws.
  intros (<- & H1 & H2) Hf. induction L as [|[[i a] g] L IH]; [done|].
  apply Forall_cons_1 in H1 as [Ha H1], H2 as [Hg H2], Hf as [Hv Hf]. cbn in Ha, Hg, Hv. unfold entry in Hg. cbn in Hg.
  cbn [fmap list_fmap fst snd snapshotGlobals]. unfold get_at, getInstance, get_at. rewrite Ha. cbn [deref lift].
  unfold deref, lift. rewrite bind_eq, bind_get. rewrite bind_eq, Hg, bind_eq, full_read by done.
  rewrite bind_eq. change (snapshotGlobals m (L.*1.*1) s) with (snapshotGlobals m (fst <$> (fst <$> L)) s).
  rewrite IH by done. rewrite format_law by apply Hv. unfold ret, glob_json at 2. cbn [fst snd].
  by rewrite format_c_str.
Qed.

(** [GetArray()[0].GetUint()] of an entry. *)
Lemma index_read i v : in_u 32 i -> (let? x := Json.at_index 0 [Int i; v] in Json.GetUint x) = Ok i.
Proof.
  intros [H1 H2]. change (Json.at_index 0 [Int i; v]) with (Ok (Int i)). cbn [rbind]. unfold Json.GetUint.
  by rewrite (proj2 (Z.leb_le 0 i)), (proj2 (Z.ltb_lt i (2 ^ 32))) by done.
Qed.

Lemma restoreGlobal_run m (t : Store) l y : in_u 32 l.1.1 -> atZ (GlobalAddrs m) l.1.1 = Some l.1.2 ->
  full (GValue l.2) -> atZ (insts (Globs t)) l.1.2 = Some y ->
  restoreGlobal m (glob_json l) t =
  (Ok tt, set_Globs (pool_update l.1.2 (set_GValue (GValue l.2) y) (Globs t)) t).
Proof using laws.
  intros Hi Ha Hf Hy. unfold restoreGlobal, glob_json. cbn [Json.GetArray]. unfold lift.
  rewrite bind_eq, bind_eq, index_read by done. rewrite bind_eq. unfold get_at. rewrite Ha, bind_get, bind_eq.
  unfold deref, getInstance, get_at. rewrite Hy, bind_eq. cbn [Json.at_index atZ rbind Json.GetString].
  change (Json.at_index 1 _) with (Ok (Str (48 :: 120 :: hex16 (storage (GValue l.2))))).
  cbn [rbind Json.GetString]. rewrite format_c_str, bind_eq, stoull16_format by apply Hf.
  rewrite full_write by done. done.
Qed.

(** ** Memories *)

(** The data of [x] can be brought back in [y]: there are pages for it, and past it [y]
    holds zeros. *)
Record fits (x y : MemoryInstance) : Prop := mk_fits {
  fits_bytes : Forall is_byte (Data x);
  fits_ok : mem_ok y;
  fits_pages : sizeZ (Data x) <= CurrPage y * 65536;
  fits_zero i : sizeZ (Data x) <= i -> mem_byte y i = 0 }.

Definition same_bytes (x y : MemoryInstance) : Prop := forall i, mem_byte y i = mem_byte x i.

Lemma mem_byte_past x i : sizeZ (Data x) <= i -> mem_byte x i = 0.
Proof.
  unfold mem_byte, sizeZ. intros Hi. destruct (0 <=? i); [|done]. by rewrite lookup_ge_None_2 by lia.
Qed.

Lemma fits_size x y : fits x y -> sizeZ (Data x) < 2 ^ 32.
Proof. intros [_ (Hp & _) Hs _]. unfold page_limit in Hp. lia. Qed.

Definition mem_json (l : Z * Z * MemoryInstance) : Value :=
  Arr [Int l.1.1; Str (concat (hex_byte <$> Data l.2))].

Lemma hexes_length (bs : list Z) : (0 <? sizeZ (concat (hex_byte <$> bs))) = negb (bool_decide (bs = [])).
Proof.
  rewrite length_hex. unfold sizeZ. destruct bs as [|b bs]; [done|].
  rewrite bool_decide_eq_false_2 by done. apply Z.ltb_lt. cbn [length]. lia.
Qed.

#[local] Abbreviation with_data := (filter (fun l : Z * Z * MemoryInstance => Data l.2 <> [])).

Lemma snapshotMemories_run m (s : Store) Is L : entries_of (MemAddrs m) (insts (Mems s)) Is L ->
  Forall (fun l => Forall is_byte (Data l.2)) L ->
  snapshotMemories m Is s = (Ok (mem_json <$> with_data L), s).
Proof using laws.
  intros (<- & H1 & H2) Hf. induction L as [|[[i a] g] L IH]; [done|].
  apply Forall_cons_1 in H1 as [Ha H1], H2 as [Hg H2], Hf as [Hv Hf]. cbn in Ha, Hg, Hv. unfold entry in Hg. cbn in Hg.
  cbn [fmap list_fmap fst snd snapshotMemories]. unfold get_at, getInstance, get_at. rewrite Ha.
  unfold deref, lift. rewrite bind_eq, bind_get, bind_eq, Hg, bind_eq.
  change (snapshotMemories m (L.*1.*1) s) with (snapshotMemories m (fst <$> (fst <$> L)) s).
  rewrite IH by done. unfold ret. rewrite hex_lower_law by done. rewrite hexes_length, filter_cons. cbn [snd].
  case_bool_decide as Hd; cbn [negb].
  - by rewrite decide_False by tauto.
  - rewrite decide_True by done. cbn [fmap list_fmap]. unfold mem_json at 2. cbn [fst snd].
    by rewrite hex_c_str by by apply hex_bytes_are_hex.
Qed.

Lemma restoreMemory_run m (t : Store) l y : in_u 32 l.1.1 -> atZ (MemAddrs m) l.1.1 = Some l.1.2 ->
  atZ (insts (Mems t)) l.1.2 = Some y -> fits l.2 y ->
  exists y', restoreMemory m (mem_json l) t = (Ok tt, set_Mems (pool_update l.1.2 y' (Mems t)) t) /\
    fits l.2 y' /\ same_bytes l.2 y'.
Proof using laws.
  intros Hi Ha Hy Hf. pose proof (fits_size _ _ Hf) as Hsz. destruct Hf as [Hb Hok Hp Hz].
  destruct (setBytes_ok y Hok (Data l.2) 0 Hb) as (y' & Hset & Hok' & Hcp & Hw).
  { unfold in_range, sizeZ in *. lia. }
  assert (same_bytes l.2 y') as Hsame.
  { intros i. rewrite Hw. unfold mem_written, mem_byte at 2. rewrite Z.add_0_l, Z.sub_0_r.
    destruct (Z.leb_spec 0 i); cbn [andb]; [|unfold mem_byte; by destruct (Z.leb_spec 0 i); [lia|]].
    destruct (Z.ltb_spec i (sizeZ (Data l.2))) as [|Hge]; [done|]. rewrite Hz by done.
    unfold sizeZ in Hge. by rewrite lookup_ge_None_2 by lia. }
  exists y'. split; [|split; [|done]].
  - unfold restoreMemory, mem_json. cbn [Json.GetArray]. unfold lift.
    rewrite bind_eq, bind_eq, index_read by done. rewrite bind_eq.
    change (Json.at_index 1 _) with (Ok (Str (concat (hex_byte <$> Data l.2)))).
    cbn [rbind Json.GetString]. rewrite hex_c_str by by apply hex_bytes_are_hex.
    rewrite bind_eq. unfold get_at. rewrite Ha, bind_get, bind_eq. unfold deref, getInstance, get_at.
    rewrite Hy, bind_eq, unhex_law.
    + pose proof (hex_pairs_hex (Data l.2) [] Hb) as Hx. rewrite !app_nil_r in Hx. rewrite Hx.
      rewrite wrap_small by (unfold in_u, sizeZ in *; lia). rewrite Hset. done.
    + rewrite length_hex. by rewrite Z.even_mul.
    + by apply hex_bytes_are_hex.
  - split; [done|done|by rewrite Hcp|]. intros i Hi'. rewrite Hsame. by apply mem_byte_past.
Qed.

(** ** The whole snapshot *)

(** The store [s] a snapshot is taken of and the store [t] it is restored in hold instances
    of one module, all bytes of its globals in [s] were written, and its memories in [s]
    fit in those of [t]. *)
Record restorable (m m' : ModuleInstance) (s t : Store) : Prop := mk_restorable {
  rs_active : getActiveModule s = Ok m;
  rs_active' : getActiveModule t = Ok m';
  rs_globals : GlobalAddrs m' = GlobalAddrs m /\ sizeZ (GlobalAddrs m) < 2 ^ 32;
  rs_mems : MemAddrs m' = MemAddrs m /\ sizeZ (MemAddrs m) < 2 ^ 32;
  rs_values a : a ∈ GlobalAddrs m -> exists x y,
    atZ (insts (Globs s)) a = Some x /\ atZ (insts (Globs t)) a = Some y /\ full (GValue x);
  rs_bytes a : a ∈ MemAddrs m -> exists x y,
    atZ (insts (Mems s)) a = Some x /\ atZ (insts (Mems t)) a = Some y /\ fits x y }.

(** The entries of all addresses of a module. *)
Lemma entries_all {A} addrs (src : list A) : sizeZ addrs < 2 ^ 32 ->
  (forall a, a ∈ addrs -> exists x, atZ src a = Some x) ->
  exists L, entries_of addrs src (indices addrs) L /\ Forall (fun l => in_u 32 l.1.1 /\ l.1.2 ∈ addrs) L /\
    forall a, a ∈ addrs -> exists i x, (i, a, x) ∈ L.
Proof.
  intros Hs Hsrc. destruct (indices_all addrs Hs) as [Hi Hall].
  destruct (entries_exist addrs src (indices addrs)) as (L & HL & H1 & H2).
  { apply Forall_forall. rewrite Hi. intros i Hin%elem_of_seqZ.
    destruct (atZ_is_Some addrs i) as [a Ha]; [lia|]. destruct (Hsrc a) as [x Hx]; [|by exists a, x].
    unfold atZ in Ha. destruct (0 <=? i); [|done]. by apply list_elem_of_lookup_2 in Ha. }
  exists L. split; [done|]. split.
  - rewrite Forall_forall in H1 |- *. intros l Hl. specialize (H1 l Hl). split.
    + apply atZ_Some in H1. unfold in_u, sizeZ in *. lia.
    + unfold atZ in H1. destruct (0 <=? l.1.1); [|done]. by apply list_elem_of_lookup_2 in H1.
  - intros a Ha. apply list_elem_of_lookup in Ha as [n Hn].
    assert (atZ addrs (Z.of_nat n) = Some a) as Hz.
    { unfold atZ. rewrite (proj2 (Z.leb_le 0 (Z.of_nat n))) by lia. by rewrite Nat2Z.id. }
    pose proof (Hall _ _ Hz) as Hin. rewrite <- HL in Hin.
    apply list_elem_of_fmap in Hin as ([i a'] & Ei & Hin). cbn in Ei. subst i.
    apply list_elem_of_fmap in Hin as ([[i b] x] & [= <- ->] & Hin).
    rewrite Forall_forall in H1. specialize (H1 _ Hin). cbn in H1. rewrite Hz in H1. injection H1 as ->.
    by exists (Z.of_nat n), x.
Qed.

(** The document of the entries. *)
Definition snap_doc (GL : list (Z * Z * GlobalInstance)) (ML : list (Z * Z * MemoryInstance)) : Value :=
  Obj ((if bool_decide (GL = []) then [] else [(chars "global", Arr (glob_json <$> GL))]) ++
       (if bool_decide (with_data ML = []) then [] else [(chars "memory", Arr (mem_json <$> with_data ML))])).

Lemma size_pos {A} (l : list A) : (0 <? sizeZ l) = negb (bool_decide (l = [])).
Proof. destruct l; [done|]. rewrite bool_decide_eq_false_2 by done. apply Z.ltb_lt. unfold sizeZ. cbn. lia. Qed.

Lemma entries_nil {A} addrs (src : list A) L : sizeZ addrs < 2 ^ 32 ->
  entries_of addrs src (indices addrs) L -> bool_decide (addrs = []) = bool_decide (L = []).
Proof.
  intros Hs (HL & _). destruct (indices_all addrs Hs) as [Hi _]. apply bool_decide_ext.
  apply (f_equal length) in HL. rewrite Hi, length_seqZ, !length_fmap in HL. unfold sizeZ in HL.
  rewrite Nat2Z.id in HL. destruct addrs, L; cbn in HL; naive_solver.
Qed.

Lemma snapshot_run m (s : Store) GL ML : getActiveModule s = Ok m ->
  sizeZ (GlobalAddrs m) < 2 ^ 32 -> sizeZ (MemAddrs m) < 2 ^ 32 ->
  entries_of (GlobalAddrs m) (insts (Globs s)) (indices (GlobalAddrs m)) GL ->
  entries_of (MemAddrs m) (insts (Mems s)) (indices (MemAddrs m)) ML ->
  Forall (fun l => full (GValue l.2)) GL -> Forall (fun l => Forall is_byte (Data l.2)) ML ->
  snapshot (Obj []) s = (Ok (snap_doc GL ML), s).
Proof using laws.
  intros Hm Hg Hme HG HM Hf Hb. unfold snapshot. rewrite bind_get, bind_eq. unfold lift. rewrite Hm.
  rewrite !wrap_small by (unfold in_u, sizeZ in *; lia). rewrite !size_pos.
  rewrite (entries_nil _ _ _ Hg HG), (entries_nil _ _ _ Hme HM).
  pose proof (snapshotGlobals_run m s _ GL HG Hf) as RG.
  pose proof (snapshotMemories_run m s _ ML HM Hb) as RM. unfold snap_doc.
  assert (forall Doc1 : list (list Z * Value),
    (if negb (bool_decide (ML = [])) then
       let* MemArr := snapshotMemories m (indices (MemAddrs m)) in
       if 0 <? sizeZ MemArr then (fun s => (Json.AddMember (chars "memory") (Arr MemArr) (Obj Doc1), s)) else ret (Obj Doc1)
     else ret (Obj Doc1)) s =
    (Ok (Obj (Doc1 ++ (if bool_decide (with_data ML = []) then [] else [(chars "memory", Arr (mem_json <$> with_data ML))]))), s)) as Hmem.
  { intros Doc1. case_bool_decide as E; cbn [negb].
    - subst ML. cbn. by rewrite app_nil_r.
    - rewrite (bind_Ok _ _ _ _ _ RM), size_pos.
      assert (bool_decide (mem_json <$> with_data ML = []) = bool_decide (with_data ML = [])) as ->.
      { apply bool_decide_ext. destruct (with_data ML); naive_solver. }
      case_bool_decide as E'; cbn [negb]; [|done]. by rewrite app_nil_r. }
  destruct (decide (GL = [])) as [E|E];
    [rewrite (bool_decide_eq_true_2 _ E)|rewrite (bool_decide_eq_false_2 _ E)]; cbn [negb].
  - rewrite bind_eq. apply Hmem.
  - rewrite (bind_Ok _ _ s (Obj [(chars "global", Arr (glob_json <$> GL))]) s).
    + apply Hmem.
    + by rewrite (bind_Ok _ _ _ _ _ RG).
Qed.

Lemma snap_elements_global GL ML (t : Store) :
  elements (chars "global") (snap_doc GL ML) t = (Ok (glob_json <$> GL), t).
Proof using Type.
  unfold snap_doc. case_bool_decide; [|done]. subst. by case_bool_decide.
Qed.
Lemma snap_elements_memory GL ML (t : Store) :
  elements (chars "memory") (snap_doc GL ML) t = (Ok (mem_json <$> with_data ML), t).
Proof using Type.
  unfold snap_doc. destruct (decide (with_data ML = [])) as [->|Hd].
  - by case_bool_decide.
  - rewrite (bool_decide_eq_false_2 (with_data ML = [])) by done. by case_bool_decide.
Qed.

Lemma kept_mono {A} As Bs (p p' : pool A) : As ⊆ Bs -> kept As p p' -> kept Bs p p'.
Proof. intros Hs [H1 H2 H3 H4]. split; [done..|]. intros a Ha. apply H4. by intros ?%Hs. Qed.

Lemma addresses_in {A} (L : list (Z * Z * A)) addrs (P : Z * Z * A -> Prop) :
  Forall (fun l => P l /\ l.1.2 ∈ addrs) L -> L.*1.*2 ⊆ addrs.
Proof.
  intros HL a Ha. apply list_elem_of_fmap in Ha as ([i b] & -> & Ha).
  apply list_elem_of_fmap in Ha as (l & -> & Hin). rewrite Forall_forall in HL. by apply HL.
Qed.

Section Passes.
Context (m m' : ModuleInstance) (s t : Store) (R : restorable m m' s t).

Lemma restorable_globals : exists L,
  entries_of (GlobalAddrs m) (insts (Globs s)) (indices (GlobalAddrs m)) L /\
  Forall (fun l => full (GValue l.2)) L /\
  exists p', mapM_ (restoreGlobal m') (glob_json <$> L) t = (Ok tt, set_Globs p' t) /\
    kept (GlobalAddrs m) (Globs t) p' /\
    forall a, a ∈ GlobalAddrs m -> GValue <$> atZ (insts p') a = GValue <$> atZ (insts (Globs s)) a.
Proof using R laws.
  destruct R as [_ _ [Eg Sg] _ Hv _].
  destruct (entries_all (GlobalAddrs m) (insts (Globs s)) Sg) as (L & HL & HI & HA).
  { intros a Hin. destruct (Hv a Hin) as (x & ? & ? & _). by exists x. }
  pose proof HL as (_ & H1 & H2). rewrite Forall_forall in H1.
  assert (forall l, l ∈ L -> exists y, atZ (insts (Globs t)) l.1.2 = Some y /\ full (GValue l.2)) as Hl.
  { intros l Hin. rewrite Forall_forall in HI, H2. destruct (Hv l.1.2) as (x & y & Hx & Hy & Hf); [by apply HI|].
    exists y. specialize (H2 l Hin). unfold entry in H2. rewrite H2 in Hx. by injection Hx as <-. }
  exists L. split; [done|]. split; [apply Forall_forall; intros l Hin; by destruct (Hl l Hin) as (? & _ & ?)|].
  destruct (pass_run (T := Store) Globs set_Globs (fun l => restoreGlobal m' (glob_json l)) (insts (Globs s))
    (fun _ _ => True) (fun x y => GValue y = GValue x)
    (fun l => in_u 32 l.1.1 /\ atZ (GlobalAddrs m') l.1.1 = Some l.1.2 /\ full (GValue l.2))
    ltac:(done) ltac:(done) ltac:(by intros []) ) with (L := L) (t := t) as (p' & Hm & Hk & Hd).
  - intros t0 l y (Hi & Hat & Hf) Hy _. eexists. split; [by apply restoreGlobal_run|done].
  - apply Forall_forall. intros l Hin. rewrite Forall_forall in HI. rewrite Eg.
    destruct (HI l Hin), (Hl l Hin) as (? & _ & ?). auto.
  - done.
  - apply Forall_forall. intros l Hin. destruct (Hl l Hin) as (y & Hy & _). by exists y.
  - exists p'. rewrite mapM_fmap. split; [done|].
    split; [apply (kept_mono (L.*1.*2)); [by apply (addresses_in _ _ (fun l => in_u 32 l.1.1))|done]|].
    intros a Hin. destruct (HA a Hin) as (i & x & HinL). rewrite Forall_forall in Hd, H2.
    destruct (Hd _ HinL) as (y & Hy & Hq). specialize (H2 _ HinL). unfold entry in H2. cbn in *.
    rewrite Hy, H2. cbn. by rewrite Hq.
Qed.

Lemma restorable_mems (t1 : Store) : Mems t1 = Mems t -> exists L,
  entries_of (MemAddrs m) (insts (Mems s)) (indices (MemAddrs m)) L /\
  Forall (fun l => Forall is_byte (Data l.2)) L /\
  exists p', mapM_ (restoreMemory m') (mem_json <$> with_data L) t1 = (Ok tt, set_Mems p' t1) /\
    kept (MemAddrs m) (Mems t) p' /\
    forall a, a ∈ MemAddrs m -> exists x z,
      atZ (insts (Mems s)) a = Some x /\ atZ (insts p') a = Some z /\ same_bytes x z.
Proof using R laws.
  intros Et. destruct R as [_ _ _ [Em Sm] _ Hb].
  destruct (entries_all (MemAddrs m) (insts (Mems s)) Sm) as (L & HL & HI & HA).
  { intros a Hin. destruct (Hb a Hin) as (x & ? & ? & _). by exists x. }
  pose proof HL as (_ & H1 & H2). rewrite Forall_forall in H1, H2, HI.
  assert (forall l, l ∈ L -> exists y, atZ (insts (Mems t)) l.1.2 = Some y /\ fits l.2 y) as Hl.
  { intros l Hin. destruct (Hb l.1.2) as (x & y & Hx & Hy & Hf); [by apply HI|].
    exists y. specialize (H2 l Hin). unfold entry in H2. rewrite H2 in Hx. by injection Hx as <-. }
  exists L. split; [done|].
  split; [apply Forall_forall; intros l Hin; destruct (Hl l Hin) as (? & _ & Hf); by apply Hf|].
  destruct (pass_run (T := Store) Mems set_Mems (fun l => restoreMemory m' (mem_json l)) (insts (Mems s)) fits same_bytes
    (fun l => in_u 32 l.1.1 /\ atZ (MemAddrs m') l.1.1 = Some l.1.2)
    ltac:(done) ltac:(done) ltac:(by intros []) ) with (L := with_data L) (t := t1) as (p' & Hm & Hk & Hd).
  - intros t0 l y (Hi & Hat) Hy Hf. exact (restoreMemory_run m' t0 l y Hi Hat Hy Hf).
  - apply Forall_forall. intros l [_ Hin]%list_elem_of_filter. rewrite Em. destruct (HI l Hin). auto.
  - apply Forall_forall. intros l [_ Hin]%list_elem_of_filter. by apply H2.
  - rewrite Et. apply Forall_forall. intros l [_ Hin]%list_elem_of_filter. by apply Hl.
  - rewrite Et in Hk. exists p'. rewrite mapM_fmap. split; [done|]. split.
    { apply (kept_mono ((with_data L).*1.*2)); [|done]. apply (addresses_in _ _ (fun l => in_u 32 l.1.1)).
      apply Forall_forall. intros l [_ Hin]%list_elem_of_filter. by apply HI. }
    intros a Hin. destruct (HA a Hin) as (i & x & HinL). pose proof (H2 _ HinL) as Hx. unfold entry in Hx. cbn in Hx.
    exists x. rewrite Forall_forall in Hd. destruct (decide (Data x = [])) as [Hx0|Hx0].
    + destruct (Hl _ HinL) as (y & Hy & Hf). cbn in Hy, Hf. exists y. split; [done|]. split.
      * destruct Hk as [_ _ _ Hk]. rewrite Hk; [done|]. intros Hbad.
        apply list_elem_of_fmap in Hbad as ([i' b] & Eb & Hbad). cbn in Eb. subst b.
        apply list_elem_of_fmap in Hbad as ([[i'' b] x'] & [= -> ->] & [Hne Hbad]%list_elem_of_filter).
        specialize (H2 _ Hbad). unfold entry in H2. cbn in H2, Hne. congruence.
      * destruct Hf as [_ _ _ Hz]. intros j. unfold sizeZ in Hz. rewrite Hx0 in Hz. cbn in Hz.
        unfold mem_byte at 2. rewrite Hx0. destruct (Z.leb_spec 0 j); [by apply Hz|].
        unfold mem_byte. by destruct (Z.leb_spec 0 j); [lia|].
    + destruct (Hd (i, a, x)) as (z & Hz & Hq); [by apply list_elem_of_filter|]. by exists z.
Qed.

End Passes.

(** [C17] A snapshot brings the state back.  Take a snapshot of a store and restore it in a
    store with an instance of the same module at the same addresses: both return, every
    global of the module then has the value it had, every memory of the module holds the
    bytes it had, and nothing else of the store changes.  All eight bytes of the globals
    must have been written; the memories of the new instance must have at most 59577 pages
    (above it the 32-bit sizes of checkDataSize overflow and restoring is undefined), pages
    for the data, and zeros past the data, as they have when the snapshot comes from a later
    state of the same instance. *)
Theorem snapshot_restore (m m' : ModuleInstance) (s t : Store) : restorable m m' s t ->
  exists Doc t', snapshot (Obj []) s = (Ok Doc, s) /\ restore Doc t = (Ok tt, t') /\
    (forall a, a ∈ GlobalAddrs m ->
       GValue <$> atZ (insts (Globs t')) a = GValue <$> atZ (insts (Globs s)) a) /\
    (forall a, a ∈ MemAddrs m -> exists x z,
       atZ (insts (Mems s)) a = Some x /\ atZ (insts (Mems t')) a = Some z /\ same_bytes x z) /\
    kept (GlobalAddrs m) (Globs t) (Globs t') /\ kept (MemAddrs m) (Mems t) (Mems t') /\
    Mods t' = Mods t /\ Funcs t' = Funcs t /\ Tabs t' = Tabs t.
Proof using laws.
  intros R. destruct (restorable_globals m m' s t R) as (GL & HG & GF & pg & RG & KG & VG).
  destruct (restorable_mems m m' s t R (set_Globs pg t) eq_refl) as (ML & HM & MF & pm & RM & KM & VM).
  destruct R as [Ha Ha' [_ Sg] [_ Sm] _ _].
  exists (snap_doc GL ML), (set_Mems pm (set_Globs pg t)).
  split; [by apply (snapshot_run m)|]. split.
  - unfold restore. rewrite bind_get, bind_eq. unfold lift. rewrite Ha'.
    rewrite (bind_Ok _ _ _ _ _ (snap_elements_global GL ML t)), (bind_Ok _ _ _ _ _ RG).
    by rewrite (bind_Ok _ _ _ _ _ (snap_elements_memory GL ML _)).
  - exact (conj VG (conj VM (conj KG (conj KM (conj eq_refl (conj eq_refl eq_refl)))))).
Qed.

(** ** What a snapshot does not keep *)

Lemma snapshotGlobals_narrow m (s : Store) L :
  Forall (fun l => atZ (GlobalAddrs m) l.1.1 = Some l.1.2) L -> Forall (entry (insts (Globs s))) L ->
  Exists (fun l => wide (GValue l.2) = false) L -> snapshotGlobals m (L.*1.*1) s = (Undef UB_indet, s).
Proof using Type.
  intros H1 H2. induction L as [|[[j b] y] L IH]; [by intros ?%Exists_nil|].
  apply Forall_cons_1 in H1 as [Hb H1], H2 as [Hy H2]. unfold entry in Hy. cbn in Hb, Hy.
  intros HE. cbn [fmap list_fmap fst snd snapshotGlobals]. unfold get_at, getInstance, get_at. rewrite Hb.
  unfold deref, lift. rewrite bind_eq, bind_get, bind_eq, Hy, bind_eq.
  unfold retrieveValue. destruct (wide (GValue y)) eqn:Ew; [|done].
  cbn [sizeof negb]. rewrite andb_false_r, bind_eq.
  change (snapshotGlobals m (L.*1.*1) s) with (snapshotGlobals m (fst <$> (fst <$> L)) s).
  apply Exists_cons in HE as [HE|HE]; [cbn in HE; congruence|]. by rewrite (IH H1 H2 HE).
Qed.

(** A global of which only four bytes were written, as one of type i32 or f32, cannot be
    printed: the snapshot reads all eight. *)
Theorem snapshot_narrow_global (m : ModuleInstance) (s : Store) (Doc : Value) :
  getActiveModule s = Ok m -> sizeZ (GlobalAddrs m) < 2 ^ 32 ->
  (forall a, a ∈ GlobalAddrs m -> exists g, atZ (insts (Globs s)) a = Some g) ->
  (exists a g, a ∈ GlobalAddrs m /\ atZ (insts (Globs s)) a = Some g /\ wide (GValue g) = false) ->
  snapshot Doc s = (Undef UB_indet, s).
Proof using Type.
  intros Ha Hs Hall (a & g & Hin & Hg & Hw).
  destruct (entries_all (GlobalAddrs m) (insts (Globs s)) Hs Hall) as (L & (HL & H1 & H2) & _ & HA).
  destruct (HA a Hin) as (i & x & HinL). unfold snapshot. rewrite bind_get, bind_eq. unfold lift. rewrite Ha.
  rewrite wrap_small by (unfold in_u, sizeZ in *; lia). rewrite size_pos.
  rewrite bool_decide_eq_false_2 by (intros E; rewrite E in Hin; by apply elem_of_nil in Hin). cbn [negb].
  rewrite bind_eq, bind_eq, <- HL, snapshotGlobals_narrow; [done..|].
  apply Exists_exists. exists (i, a, x). split; [done|]. rewrite Forall_forall in H2. specialize (H2 _ HinL).
  unfold entry in H2. cbn in *. congruence.
Qed.

(** The number of pages is not kept: data past the pages of the new instance is refused. *)
Theorem restore_grown_memory (m : ModuleInstance) (t : Store) (l : Z * Z * MemoryInstance) (y : MemoryInstance) :
  in_u 32 l.1.1 -> atZ (MemAddrs m) l.1.1 = Some l.1.2 -> atZ (insts (Mems t)) l.1.2 = Some y ->
  Forall is_byte (Data l.2) -> CurrPage y * 65536 < sizeZ (Data l.2) < 2 ^ 32 ->
  (restoreMemory m (mem_json l) t).1 = Err MemorySizeExceeded.
Proof using laws.
  intros Hi Ha Hy Hb [Hp Hsz]. unfold restoreMemory, mem_json. cbn [Json.GetArray]. unfold lift.
  rewrite bind_eq, bind_eq, index_read by done. rewrite bind_eq.
  change (Json.at_index 1 _) with (Ok (Str (concat (hex_byte <$> Data l.2)))).
  cbn [rbind Json.GetString]. rewrite hex_c_str by by apply hex_bytes_are_hex.
  rewrite bind_eq. unfold get_at. rewrite Ha, bind_get, bind_eq. unfold deref, getInstance, get_at.
  rewrite Hy, bind_eq, unhex_law;
    [|rewrite length_hex; by rewrite Z.even_mul|by apply hex_bytes_are_hex].
  pose proof (hex_pairs_hex (Data l.2) [] Hb) as Hx. rewrite !app_nil_r in Hx. rewrite Hx.
  rewrite wrap_small by (unfold in_u, sizeZ in *; lia).
  unfold setBytes. rewrite (bind_eq (requireDataSize _ _)), requireDataSize_fail by lia. done.
Qed.

End Roundtrip.

(** ** A module with a global and a memory *)

Definition snap_mod : ModuleInstance := mkModInst 0 [] [] [] [] [0] [0] [] [] [] [] None.
Definition snap_store (v : Z) (data : list Z) : StoreManager unit :=
  mkStore (mkPool [snap_mod] 1 1) empty_pool empty_pool (mkPool [mkMemory false 1 0 1 data] 1 1)
    (mkPool [mkGlobal VT_I64 Mut_Var (mkVariant U64 v)] 1 1).

Lemma snapshot_restore_witness : exists Doc t',
  snapshot (lib := hex_lib) (Obj []) (snap_store 258 [1; 2; 255]) = (Ok Doc, snap_store 258 [1; 2; 255]) /\
  restore (lib := hex_lib) Doc (snap_store 7 []) = (Ok tt, t') /\
  GValue <$> atZ (insts (Globs t')) 0 = Some (mkVariant U64 258).
Proof.
  destruct (snapshot_restore (lib := hex_lib) snap_mod snap_mod (snap_store 258 [1; 2; 255]) (snap_store 7 []))
    as (Doc & t' & H1 & H2 & H3 & _).
  - split; try reflexivity; try (split; reflexivity).
    + intros a Ha. apply list_elem_of_singleton in Ha as ->. do 2 eexists.
      split; [reflexivity|]. split; [reflexivity|]. split; [reflexivity|]. split; [discriminate|reflexivity].
    + intros a Ha. apply list_elem_of_singleton in Ha as ->. do 2 eexists.
      split; [reflexivity|]. split; [reflexivity|]. split.
      * repeat constructor; discriminate.
      * split; [unfold page_limit; cbn; lia|]. split; [constructor|cbn; discriminate].
      * discriminate.
      * intros i _. unfold mem_byte. cbn. by destruct (0 <=? i).
  - exists Doc, t'. split; [exact H1|]. split; [exact H2|]. apply (H3 0). by apply list_elem_of_singleton.
Defined.
