(* ===== verification/ProxyFacts.v ===== *)
(** * What the proxy answers

    Values survive their text; the proxy gives the response the relation [answers] says,
    which is there for every request whose run is defined; and no request reports more gas
    used than it brings. *)
From stdpp Require Import base list numbers option strings.
From Stdlib Require Import ZArith Lia.
From S2P Require Import Prelude Types Instruction AST Memory FileMgr Loader FormChecker.
From S2P Require Import Validator StackMgr Runtime Interpreter Instantiate StoreFacts VM VMFacts.
From S2P Require Import HostFunc HostFuncFacts EEI EEIGas Wasi WasiFacts HostModules.
From S2P Require Import Evmc EvmcFacts CString Json Proxy ProxySnapshot.
#[local] Open Scope Z_scope.

(** ** Values in text *)

Section Text.
Context {mach : Machine}.

Lemma in_s_wider w w' x : 0 < w <= w' -> in_s w x -> in_s w' x.
Proof.
  intros Hw [H1 H2]. pose proof (Z.pow_le_mono_r 2 (w - 1) (w' - 1)). unfold in_s. lia.
Qed.

(** Integers survive their text.  The text the proxy writes for a value of type i32 or
    i64, read back as an argument of that type, gives the value: the same 32 bits, or the
    same 64 bits when all of them were written. *)
Theorem value_text_roundtrip (v : ValVariant) :
  (exists s, convValToStr v (chars "i32") = Ok s /\
     convStrToVal (c_str s) (chars "i32") = Ok (mkVariant U32 (storage v))) /\
  (full v -> exists s, convValToStr v (chars "i64") = Ok s /\ convStrToVal (c_str s) (chars "i64") = Ok v).
Proof.
  split.
  - exists (to_string (sgn 32 (of_bits U32 (storage v)))). split; [done|].
    rewrite to_string_c_str. unfold convStrToVal. rewrite bool_decide_eq_true_2 by done. unfold stol.
    rewrite stoll_to_string by (apply (in_s_wider 32); [lia|by apply sgn_range]). cbn [rbind]. f_equal.
    unfold of_bits. cbn [is_signed]. rewrite wrap_sgn by lia. unfold mkVariant, to_bits.
    change (bits U32) with 32. by rewrite !wrap_wrap by lia.
  - intros Hf. exists (to_string (sgn 64 (storage v))). split.
    + unfold convValToStr. rewrite bool_decide_eq_false_2, bool_decide_eq_true_2 by done.
      by rewrite full_read.
    + rewrite to_string_c_str. unfold convStrToVal.
      rewrite bool_decide_eq_false_2, bool_decide_eq_true_2 by done.
      rewrite stoll_to_string by by apply sgn_range. cbn [rbind]. f_equal.
      rewrite wrap_sgn by lia. rewrite wrap_small by apply Hf. by apply full_write.
Qed.

End Text.

(** ** Requests and responses *)

Record Request : Type := mkRequest {
  rqName : option (list Z);
  rqUUID : option (list Z);
  rqModules : list (list Z);
  rqFunc : option (list Z);
  rqGas : option Z;
  rqArgs : option (list (list Z));
  rqArgTypes : option (list (list Z));
  rqRetTypes : option (list (list Z));
  rqSnapshot : option Value
}.

Definition opt_member {A} (name : string) (f : A -> Value) (o : option A) : list (list Z * Value) :=
  match o with Some x => [(chars name, f x)] | None => [] end.
Definition strings_json (l : list (list Z)) : Value := Arr (Str <$> l).

Definition execution_doc (q : Request) : Value :=
  Obj (opt_member "function_name" Str (rqFunc q) ++ opt_member "gas" Int (rqGas q) ++
       opt_member "argument" strings_json (rqArgs q) ++
       opt_member "argument_types" strings_json (rqArgTypes q) ++
       opt_member "return_types" strings_json (rqRetTypes q) ++
       opt_member "vm_snapshot" (fun v => v) (rqSnapshot q)).
Definition request_doc (q : Request) : Value :=
  Obj (opt_member "service_name" Str (rqName q) ++ opt_member "uuid" Str (rqUUID q) ++
       [(chars "modules", strings_json (rqModules q)); (chars "execution", execution_doc q)]).

(** The gas of a request is printed as a signed and used as an unsigned number. *)
Definition gas_ok_request (q : Request) : Prop :=
  match rqGas q with Some g => in_u 63 g | None => True end.

Record Response : Type := mkResponse {
  rpName : list Z;
  rpUUID : list Z;
  rpStatus : list Z;
  rpMessage : list Z;
  rpGas : Z;
  rpGasUsed : Z;
  rpSnapshot : Value;
  rpReturns : list Value
}.

Definition response_doc (r : Response) : Value :=
  Obj [(chars "service_name", Str (rpName r)); (chars "uuid", Str (rpUUID r));
       (chars "result", Obj [
          (chars "status", Str (rpStatus r)); (chars "error_message", Str (rpMessage r));
          (chars "gas", Int (rpGas r)); (chars "gas_used", Int (rpGasUsed r));
          (chars "vm_snapshot", rpSnapshot r); (chars "return_value", Arr (rpReturns r))])].

Definition Failed : list Z := chars "Failed".

Definition blank : Response := mkResponse [] (chars "0x0") Failed [] 0 0 (Obj []) [].
(** The response with the header of a request. *)
Definition header (q : Request) : Response :=
  mkResponse (default [] (c_str <$> rqName q)) (default (chars "0x0") (c_str <$> rqUUID q)) Failed []
    (default 0 (rqGas q)) 0 (Obj []) [].

Definition set_message (s : list Z) (r : Response) : Response :=
  mkResponse (rpName r) (rpUUID r) (rpStatus r) s (rpGas r) (rpGasUsed r) (rpSnapshot r) (rpReturns r).
Definition set_status (s : list Z) (r : Response) : Response :=
  mkResponse (rpName r) (rpUUID r) s (rpMessage r) (rpGas r) (rpGasUsed r) (rpSnapshot r) (rpReturns r).
Definition set_gas_used (g : Z) (r : Response) : Response :=
  mkResponse (rpName r) (rpUUID r) (rpStatus r) (rpMessage r) (rpGas r) g (rpSnapshot r) (rpReturns r).
Definition set_snapshot (v : Value) (r : Response) : Response :=
  mkResponse (rpName r) (rpUUID r) (rpStatus r) (rpMessage r) (rpGas r) (rpGasUsed r) v (rpReturns r).
Definition set_returns (l : list Value) (r : Response) : Response :=
  mkResponse (rpName r) (rpUUID r) (rpStatus r) (rpMessage r) (rpGas r) (rpGasUsed r) (rpSnapshot r) l.


(** ** The answers *)

Section Answers.
Context {E X : Type} (os : OS X) (host : evmc_host_interface E) (keccak256 : list Z -> list Z).
Context {lib : HexLib} {mach : Machine}.
#[local] Abbreviation HW := (HostWorld E X).
#[local] Abbreviation PX := (Proxy (E := E) (X := X)).


Section Run.
Context (fuel : nat) (Path : list Z) (q : Request) (ps : list ValVariant).



Definition failed (s : string) : Response := set_message (chars s) (header q).







End Run.


Definition wasm_there (p : PX) : Prop := WasmPath p <> [] /\ fileExists (WasmPath p) = true.
Definition reads_request (p : PX) (q : Request) : Prop :=
  (exists Text, readFile (InputJSONPath p) = Some Text /\ Parse (c_str Text) = Some (request_doc q)) /\
  gas_ok_request q.
Definition limited (q : Request) (vm : VM HW) : VM HW :=
  match rqGas q with Some g => (setCostLimit g vm).2 | None => vm end.




Lemma configure_total l Conf : exists c b, configure (Str <$> l) Conf = Ok (c, b).
Proof.
  revert Conf; induction l as [|s l IH]; intros Conf; [by eexists _, _|]. rewrite fmap_cons.
  cbn [configure Json.GetString rbind]. case_bool_decide; [apply IH|]. case_bool_decide; [by eexists _, _|apply IH].
Qed.

Lemma wasm_there_dec p : wasm_there p \/ ~ wasm_there p.
Proof. unfold wasm_there. destruct (decide (WasmPath p = [])), (fileExists (WasmPath p)); tauto || (right; by intros []). Qed.



(** ** The steps on a response document *)

#[local] Abbreviation at_doc r p := (set_OutputDoc (response_doc r) p).

Lemma set_doc_twice d d' (p : PX) : set_OutputDoc d (set_OutputDoc d' p) = set_OutputDoc d p.
Proof. done. Qed.

Lemma prepare_run (p : PX) : prepareOutputJSON p = (Ok tt, at_doc blank p).
Proof. reflexivity. Qed.

Lemma message_run s r (p : PX) : setMessage s (at_doc r p) = (Ok tt, at_doc (set_message (c_str s) r) p).
Proof. reflexivity. Qed.

Lemma status_run s r (p : PX) :
  onResult (chars "status") (Json.SetString s) (at_doc r p) = (Ok tt, at_doc (set_status (c_str s) r) p).
Proof. reflexivity. Qed.

Lemma gas_used_run g r (p : PX) :
  onResult (chars "gas_used") (Json.SetUint64 g) (at_doc r p) = (Ok tt, at_doc (set_gas_used (wrap 64 g) r) p).
Proof. reflexivity. Qed.

Lemma snapshot_set_run v r (p : PX) :
  onResult (chars "vm_snapshot") (fun _ => Ok v) (at_doc r p) = (Ok tt, at_doc (set_snapshot v r) p).
Proof. reflexivity. Qed.

Lemma returns_push_run x r (p : PX) :
  onResult (chars "return_value") (Json.PushBack x) (at_doc r p) =
  (Ok tt, at_doc (set_returns (rpReturns r ++ [x]) r) p).
Proof. reflexivity. Qed.

(** The members of a request. *)
Lemma request_members q :
  Json.FindMember (chars "service_name") (request_doc q) = Ok (Str <$> rqName q) /\
  Json.FindMember (chars "uuid") (request_doc q) = Ok (Str <$> rqUUID q) /\
  Json.FindMember (chars "modules") (request_doc q) = Ok (Some (strings_json (rqModules q))) /\
  Json.FindMember (chars "execution") (request_doc q) = Ok (Some (execution_doc q)).
Proof. destruct q as [[] [] ? ? ? ? ? ? ?]; split_and!; reflexivity. Qed.

Lemma request_execution q : Json.member (chars "execution") (request_doc q) = Ok (execution_doc q).
Proof. unfold Json.member. by rewrite (proj2 (proj2 (proj2 (request_members q)))). Qed.

Lemma execution_members q :
  Json.FindMember (chars "function_name") (execution_doc q) = Ok (Str <$> rqFunc q) /\
  Json.FindMember (chars "gas") (execution_doc q) = Ok (Int <$> rqGas q) /\
  Json.FindMember (chars "argument") (execution_doc q) = Ok (strings_json <$> rqArgs q) /\
  Json.FindMember (chars "argument_types") (execution_doc q) = Ok (strings_json <$> rqArgTypes q) /\
  Json.FindMember (chars "return_types") (execution_doc q) = Ok (strings_json <$> rqRetTypes q) /\
  Json.FindMember (chars "vm_snapshot") (execution_doc q) = Ok (rqSnapshot q).
Proof. destruct q as [? ? ? [] [] [] [] [] []]; split_and!; reflexivity. Qed.

Lemma bind_lift_Ok {S A B} (x : A) (k : A -> M S B) s : bind (lift (Ok x)) k s = k x s.
Proof. done. Qed.

(** ** Reading the request *)

Lemma gas_member g : in_u 63 g -> Json.GetInt64 (Int g) = Ok g /\ Json.GetUint64 (Int g) = Ok g /\ wrap 64 g = g.
Proof.
  intros [H1 H2]. change (2 ^ 63) with 9223372036854775808 in H2. split_and!.
  - unfold Json.GetInt64. rewrite (proj2 (Z.leb_le _ _)), (proj2 (Z.ltb_lt _ _)) by lia. done.
  - unfold Json.GetUint64. rewrite (proj2 (Z.leb_le _ _)), (proj2 (Z.ltb_lt _ _)) by lia. done.
  - apply wrap_small. unfold in_u. lia.
Qed.

Lemma copyHeader_run q (p : PX) : InputDoc p = request_doc q -> gas_ok_request q ->
  copyHeader (Str <$> rqName q) (Str <$> rqUUID q) (at_doc blank p) = (Ok tt, at_doc (header q) p).
Proof.
  intros Hd Hg. unfold copyHeader.
  set (r1 := mkResponse (default [] (c_str <$> rqName q)) (chars "0x0") Failed [] 0 0 (Obj []) []).
  rewrite (bind_Ok _ _ _ tt (at_doc r1 p)).
  2: { unfold r1. destruct (rqName q) as [n|]; [|done]. cbn [fmap option_fmap option_map default].
       by rewrite <- (c_str_idem n). }
  set (r2 := mkResponse (default [] (c_str <$> rqName q)) (default (chars "0x0") (c_str <$> rqUUID q)) Failed [] 0 0 (Obj []) []).
  rewrite (bind_Ok _ _ _ tt (at_doc r2 p)).
  2: { unfold r1, r2. destruct (rqUUID q) as [n|]; [|done]. cbn [fmap option_fmap option_map default].
       by rewrite <- (c_str_idem n). }
  rewrite bind_get. cbn [InputDoc set_OutputDoc]. rewrite Hd, request_execution, bind_lift_Ok.
  rewrite (proj1 (proj2 (execution_members q))), bind_lift_Ok. unfold gas_ok_request in Hg. unfold header.
  destruct (rqGas q) as [g|]; [|done]. destruct (gas_member g Hg) as (H1 & _ & H2).
  cbn [fmap option_fmap option_map on_member]. rewrite H1, bind_lift_Ok.
  transitivity (Ok tt, at_doc (mkResponse (rpName r2) (rpUUID r2) Failed [] (wrap 64 g) 0 (Obj []) []) p); [reflexivity|].
  by rewrite H2.
Qed.

(** The VM is made as asked. *)
Lemma configure_conf l Conf c b : Conf = newConfigure \/ Conf = addVMType VM_Wasi newConfigure ->
  configure l Conf = Ok (c, b) -> c = newConfigure \/ c = addVMType VM_Wasi newConfigure.
Proof.
  revert Conf; induction l as [|v l IH]; intros Conf Hc; cbn [configure]; [by intros [= <- _]|].
  destruct (Json.GetString v) as [s| | |]; cbn [rbind]; try done.
  case_bool_decide; [|case_bool_decide; [by intros [= <- _]|by apply IH]].
  apply IH. right. by destruct Hc as [-> | ->].
Qed.

Lemma made_ok Conf o : Conf = newConfigure \/ Conf = addVMType VM_Wasi newConfigure ->
  (makeVM os host keccak256 Conf o).1 = Ok tt.
Proof. intros [-> | ->]; vm_compute; reflexivity. Qed.

#[local] Abbreviation made Conf o := (mkUnit (makeVM os host keccak256 Conf o).2 [] None).

Lemma createVM_run o q Conf b r (p : PX) :
  configure (Str <$> rqModules q) newConfigure = Ok (Conf, b) ->
  createVM os host keccak256 o (strings_json (rqModules q)) (at_doc r p) =
  (Ok tt, if (b : bool) then at_doc r (set_VMUnit (Some (made Conf o)) (set_VMConf Conf p))
          else at_doc (set_message (chars "Ethereum mode is not supported in SSVM-RPC.") r)
                 (set_VMUnit None (set_VMConf Conf p))).
Proof.
  intros Hc. unfold createVM. rewrite bind_eq. cbn [modify]. rewrite bind_eq. cbn [modify].
  cbn [strings_json Json.GetArray]. rewrite bind_lift_Ok, Hc, bind_lift_Ok, bind_eq. cbn [modify fst snd].
  destruct b; [|reflexivity].
  pose proof (made_ok Conf o (configure_conf _ _ _ _ (or_introl eq_refl) Hc)) as Hm.
  destruct (makeVM os host keccak256 Conf o) as [x vm]. cbn [fst snd] in *. subst x. reflexivity.
Qed.

Lemma parse_run o q Conf b (p : PX) : reads_request p q ->
  configure (Str <$> rqModules q) newConfigure = Ok (Conf, b) ->
  parseInputJSON os host keccak256 o (at_doc blank p) =
  (Ok tt, let p1 := set_VMConf Conf (set_InputDoc (request_doc q) p) in
          if (b : bool) then at_doc (header q) (set_VMUnit (Some (made Conf o)) p1)
          else at_doc (failed q "Ethereum mode is not supported in SSVM-RPC.") (set_VMUnit None p1)).
Proof.
  intros [(Text & Hr & Hp) Hg] Hc. unfold parseInputJSON. rewrite bind_get. cbn [InputJSONPath set_OutputDoc].
  rewrite Hr. unfold parseDocument. rewrite Hp. rewrite bind_eq. cbn [modify]. rewrite bind_get.
  change (InputDoc (set_InputDoc (request_doc q) (at_doc blank p))) with (request_doc q).
  destruct (request_members q) as (-> & -> & -> & ->). rewrite !bind_lift_Ok.
  change (set_InputDoc (request_doc q) (at_doc blank p)) with (at_doc blank (set_InputDoc (request_doc q) p)).
  rewrite (bind_Ok _ _ _ _ _ (copyHeader_run q (set_InputDoc (request_doc q) p) eq_refl Hg)).
  rewrite (createVM_run o q Conf b (header q) _ Hc). by destruct b.
Qed.

(** ** Running it *)

Section Serve.
Context (fuel : nat) (q : Request) (p1 : PX).
Context (Hin : InputDoc p1 = request_doc q).

(** The response [r] so far, and the VM. *)
Definition st (r : Response) (u : Unit_) : PX := at_doc r (set_VMUnit (Some u) p1).

Lemma onVM_run {A} (m : M (VM HW) A) r u :
  onVM m (st r u) = ((m (uVM u)).1, st r (set_uVM (m (uVM u)).2 u)).
Proof. unfold onVM, st. cbn [VMUnit set_OutputDoc set_VMUnit]. by destruct (m (uVM u)). Qed.






Lemma message_st s r u : setMessage s (st r u) = (Ok tt, st (set_message (c_str s) r) u).
Proof. apply message_run. Qed.
Lemma status_st s r u :
  onResult (chars "status") (Json.SetString s) (st r u) = (Ok tt, st (set_status (c_str s) r) u).
Proof. apply status_run. Qed.
Lemma gas_used_st g r u :
  onResult (chars "gas_used") (Json.SetUint64 g) (st r u) = (Ok tt, st (set_gas_used (wrap 64 g) r) u).
Proof. apply gas_used_run. Qed.
Lemma snapshot_st v r u :
  onResult (chars "vm_snapshot") (fun _ => Ok v) (st r u) = (Ok tt, st (set_snapshot v r) u).
Proof. apply snapshot_set_run. Qed.
Lemma returns_st x r u : onResult (chars "return_value") (Json.PushBack x) (st r u) =
  (Ok tt, st (set_returns (rpReturns r ++ [x]) r) u).
Proof. apply returns_push_run. Qed.



Lemma meter_st r u m : Measure (InterpreterEngine (uVM u)) = Some m ->
  onVM meter (st r u) = (Ok m, st r (set_uVM (uVM u) u)).
Proof. intros Hm. rewrite onVM_run. unfold meter. rewrite bind_get, Hm. done. Qed.




#[local] Abbreviation run_wasm ps :=
  (runWasm fuel (execution_doc q) (Str <$> rqFunc q) (strings_json <$> rqRetTypes q) ps).
#[local] Abbreviation Path := (WasmPath p1).












(** Up to the parameters. *)
Lemma execute_params u : wasm_there p1 -> gas_ok_request q -> exists u', uVM u' = limited q (uVM u) /\
  executeVM fuel (st (header q) u) =
  (let* Params_ := readParams (strings_json <$> rqArgs q) (strings_json <$> rqArgTypes q) in
   match Params_ with None => ret tt | Some l => run_wasm l end) (st (header q) u').
Proof using Hin.
  intros [Hw Hx] Hg. unfold executeVM. rewrite bind_get.
  change (WasmPath (st (header q) u)) with (WasmPath p1).
  rewrite bool_decide_eq_false_2, Hx by done. cbn [negb orb].
  change (VMUnit (st (header q) u)) with (Some u). cbn iota.
  set (u1 := mkUnit (uVM u) (c_str (rpName (header q))) (Some (strtoull16 (c_str (rpUUID (header q)))))).
  rewrite (bind_Ok identify _ _ tt (st (header q) u1)) by reflexivity.
  change (InputDoc (st (header q) u)) with (InputDoc p1). rewrite Hin, request_execution, bind_lift_Ok.
  destruct (execution_members q) as (-> & -> & -> & -> & -> & _). rewrite !bind_lift_Ok.
  unfold gas_ok_request in Hg. unfold limited. destruct (rqGas q) as [g|].
  - destruct (gas_member g Hg) as (_ & H2 & _). eexists (set_uVM (setCostLimit g (uVM u1)).2 u1). split; [done|].
    cbn [fmap option_fmap option_map on_member]. rewrite bind_assoc, H2, bind_lift_Ok.
    by rewrite bind_eq, onVM_run.
  - exists u1. split; [done|]. by rewrite bind_eq.
Qed.



End Serve.

Lemma execute_no_wasm fuel r (p : PX) : ~ wasm_there p ->
  executeVM fuel (at_doc r p) = (Ok tt, at_doc (set_message (chars "Wasm file not found.") r) p).
Proof.
  intros Hw. unfold executeVM. rewrite bind_get. change (WasmPath (at_doc r p)) with (WasmPath p).
  assert (bool_decide (WasmPath p = []) || negb (fileExists (WasmPath p)) = true) as ->; [|apply message_run].
  unfold wasm_there in Hw. case_bool_decide; [done|]. by destruct (fileExists (WasmPath p)); [tauto|].
Qed.

Lemma execute_no_unit fuel r (p : PX) : wasm_there p -> VMUnit p = None ->
  executeVM fuel (at_doc r p) = (Ok tt, at_doc r p).
Proof.
  intros [Hw Hx] Hu. unfold executeVM. rewrite bind_get. change (WasmPath (at_doc r p)) with (WasmPath p).
  rewrite bool_decide_eq_false_2, Hx by done. cbn [negb orb]. change (VMUnit (at_doc r p)) with (VMUnit p). by rewrite Hu.
Qed.

(** What the proxy writes for a response. *)
Definition delivered (p : PX) (r : Response) : Output :=
  let Text := c_str (Accept (response_doc r)) in
  if canWrite (OutputJSONPath p) then Written (OutputJSONPath p) Text
  else Printed ([10] ++ chars " Cannot open output path: " ++ [34] ++ OutputJSONPath p ++ [34; 10] ++
                chars " ===================  Results  ==================" ++ [10; 32] ++ Text ++ [10]).

Lemma export_run r (p : PX) :
  exportOutputJSON (at_doc r p) = (Ok tt, add_Output (delivered p r) (at_doc r p)).
Proof. unfold exportOutputJSON, delivered. rewrite bind_get. cbn. by destruct (canWrite _). Qed.





(** ** Gas *)

(** Restoring touches globals and memories only. *)
Record quiet (st0 s : StoreManager HW) : Prop := mk_quiet {
  qt_mods : Mods s = Mods st0;
  qt_funcs : Funcs s = Funcs st0;
  qt_tabs : Tabs s = Tabs st0;
  qt_mems : pool_ok (Mems st0) -> pool_ok (Mems s);
  qt_globs : pool_ok (Globs st0) -> pool_ok (Globs s) }.

Lemma restoreGlobal_quiet st0 m It s : quiet st0 s -> quiet st0 (restoreGlobal m It s).2.
Proof.
  intros Hq. unfold restoreGlobal.
  rewrite bind_eq; unfold lift at 1; destruct (Json.GetArray It) as [Pair| | |]; try done.
  rewrite bind_eq; unfold lift at 1. destruct (let? v := _ in _) as [Idx| | |]; try done.
  rewrite bind_eq; unfold lift at 1; destruct (get_at (GlobalAddrs m) Idx) as [a| | |]; try done.
  rewrite bind_get, bind_eq. unfold deref, lift. destruct (getInstance a (Globs s)) as [g| | |]; try done.
  rewrite bind_eq. destruct (let? v := _ in _) as [Str_| | |]; try done.
  rewrite bind_eq. destruct (stoull16 Str_) as [x| | |]; try done.
  destruct Hq. cbn [put snd]. split; try done. intros ?. apply pool_ok_update. auto.
Qed.

Lemma restoreMemory_quiet st0 m It s : quiet st0 s -> quiet st0 (restoreMemory m It s).2.
Proof.
  intros Hq. unfold restoreMemory.
  rewrite bind_eq; unfold lift at 1; destruct (Json.GetArray It) as [Pair| | |]; try done.
  rewrite bind_eq; unfold lift at 1. destruct (let? v := _ in Json.GetUint _) as [Idx| | |]; try done.
  rewrite bind_eq; unfold lift at 1. destruct (let? v := _ in _) as [Hex| | |]; try done.
  rewrite bind_eq; unfold lift at 1; destruct (get_at (MemAddrs m) Idx) as [a| | |]; try done.
  rewrite bind_get, bind_eq. unfold deref, lift. destruct (getInstance a (Mems s)) as [g| | |]; try done.
  rewrite bind_eq. destruct (unhex Hex) as [bs| | |]; try done.
  destruct (setBytes _ _ _ _ _) as [x y]. rewrite bind_put.
  destruct Hq. cbn [snd]. split; try done. intros ?. apply pool_ok_update. auto.
Qed.

Lemma elements_state name Doc (s : StoreManager HW) : (elements name Doc s).2 = s.
Proof.
  unfold elements. rewrite bind_eq. unfold lift at 1.
  destruct (Json.FindMember name Doc) as [[v|]| | |]; [|done..]. unfold lift. by destruct (Json.GetArray v).
Qed.

Lemma restore_quiet Doc s : quiet s (restore Doc s).2.
Proof.
  assert (quiet s s) as Hq by by split.
  unfold restore. rewrite bind_get, bind_eq. unfold lift. destruct (getActiveModule s) as [m| | |]; try done.
  rewrite bind_eq. pose proof (elements_state (chars "global") Doc s) as He.
  destruct (elements (chars "global") Doc s) as [[l| | |] s1]; cbn in He; subst; try done.
  pose proof (mapM_inv (quiet s) (restoreGlobal m) l s Hq (fun x t _ => restoreGlobal_quiet s m x t)) as H1.
  rewrite bind_eq. destruct (mapM_ (restoreGlobal m) l s) as [[[]| | |] s2]; try done.
  rewrite bind_eq. pose proof (elements_state (chars "memory") Doc s2) as He.
  destruct (elements (chars "memory") Doc s2) as [[l'| | |] s3]; cbn in He; subst; try done.
  exact (mapM_inv (quiet s) (restoreMemory m) l' s2 H1 (fun x t _ => restoreMemory_quiet s m x t)).
Qed.

#[local] Abbreviation inv G := (vm_inv (func_of (host_gas_ok (H := HW))) G anything).

Lemma restore_inv G Doc vm : inv G vm -> inv G (onStoreMgr (restore Doc) vm).2.
Proof.
  intros [[[H1 H2 H3 H4 H5 H6] Hm] HN Hl Hv Hi]. pose proof (restore_quiet Doc (StoreMgr (InterpreterEngine vm))) as Hq.
  unfold onStoreMgr, onInterp, zoom. destruct (restore Doc _) as [x s]. cbn [snd] in *. destruct Hq as [Q1 Q2 Q3 Q4 Q5].
  split; cbn; try done.
  - split; [|done]. split; cbn; rewrite ?Q1, ?Q2, ?Q3; auto.
  - unfold base_names, store in *. cbn. by rewrite Q1.
  - unfold store in *. cbn. by rewrite Q1.
Qed.

Lemma made_inv Conf o : inv unused (makeVM os host keccak256 Conf o).2.
Proof.
  apply newVM_inv; [|intros _; by split; [apply wasi_gas|]|intros _; by split; [apply eei_gas|]].
  split; [by eexists|]. intros Tab m (m' & [= <-] & Hm). by eexists.
Qed.

Lemma limited_inv q g vm : rqGas q = Some g -> in_u 63 g -> inv unused vm -> inv (limit_is g) (limited q vm).
Proof.
  intros Hq [G1 G2] [[Hs (m & Hm & H0)] HN H2 H3 H4]. unfold limited. rewrite Hq. cbn.
  split; try done. split; [done|]. cbn. rewrite Hm. eexists. split; [done|]. split; [|done].
  change (2 ^ 63) with 9223372036854775808 in G2. split; [unfold in_u; cbn; lia|]. cbn. lia.
Qed.

(** A snapshot reads the store. *)
Definition observes {A} (m : M (StoreManager HW) A) : Prop := forall s, (m s).2 = s.

Lemma observes_bind {A B} (m : M (StoreManager HW) A) (k : A -> M (StoreManager HW) B) :
  observes m -> (forall a, observes (k a)) -> observes (bind m k).
Proof.
  intros Hm Hk s. specialize (Hm s). rewrite bind_eq. destruct (m s) as [[a|e|u|] s1]; cbn in Hm; subst; try done.
  apply Hk.
Qed.
Lemma observes_lift {A} (r : res A) : observes (lift r).
Proof. done. Qed.
Lemma observes_deref {A} (r : res A) : observes (deref (lift r)).
Proof. intros s. unfold deref, lift. by destruct r. Qed.
Lemma observes_get : observes get.
Proof. done. Qed.
Lemma observes_ret {A} (a : A) : observes (ret a).
Proof. done. Qed.

Ltac observe := repeat first [apply observes_deref | apply observes_lift | apply observes_get | apply observes_ret
  | apply observes_bind; [|intros ?]].

Lemma snapshotGlobals_observes m Is : observes (snapshotGlobals m Is).
Proof. induction Is as [|Ix Is IH]; cbn [snapshotGlobals]; observe. apply IH. Qed.

Lemma snapshotMemories_observes m Is : observes (snapshotMemories (lib := lib) m Is).
Proof. induction Is as [|Ix Is IH]; cbn [snapshotMemories]; observe. apply IH. Qed.

Lemma snapshot_observes Doc : observes (snapshot Doc).
Proof.
  unfold snapshot. observe.
  - destruct (0 <? _); observe. apply snapshotGlobals_observes.
  - destruct (0 <? _); observe; [apply snapshotMemories_observes|]. destruct (0 <? _); observe.
Qed.

Lemma snapshot_inv G Doc vm : inv G vm -> inv G (onStoreMgr (snapshot Doc) vm).2.
Proof.
  intros [[[H1 H2 H3 H4 H5 H6] Hm] HN Hl Hv Hi]. pose proof (snapshot_observes Doc (StoreMgr (InterpreterEngine vm))) as Hq.
  unfold onStoreMgr, onInterp, zoom. destruct (snapshot Doc _) as [x s]. cbn [snd] in *. subst s. by repeat (split; cbn; try done).
Qed.

(** *** The gas through a request

    The response so far names the gas and no more gas used, and the meter of the VM stays
    within the limit. *)
Section Within.
Context (p1 : PX) (g : Z).

Definition within_gas (s : PX) : Prop := exists r u,
  s = st p1 r u /\ inv (limit_is g) (uVM u) /\ rpGas r = g /\ 0 <= rpGasUsed r <= g.

Lemma within_bind {A B} (m : M PX A) (k : A -> M PX B) s : within_gas (m s).2 ->
  (forall a s', m s = (Ok a, s') -> within_gas s' -> within_gas (k a s').2) -> within_gas (bind m k s).2.
Proof using Type. intros Hm Hk. rewrite bind_eq. destruct (m s) as [[a|e|u|] s'] eqn:Es; try done. by apply Hk. Qed.

Lemma within_try {A} (m : M PX A) s : within_gas (m s).2 -> within_gas (try m s).2.
Proof using Type. unfold try. by destruct (m s) as [[a|e|u|] s']. Qed.

Lemma within_onVM {A} (m : M (VM HW) A) s : (forall vm, inv (limit_is g) vm -> inv (limit_is g) (m vm).2) ->
  within_gas s -> within_gas (onVM m s).2.
Proof using Type.
  intros Hm (r & u & -> & Hi & Hr). rewrite onVM_run. exists r, (set_uVM (m (uVM u)).2 u).
  split_and!; try done; [by apply Hm|apply Hr..].
Qed.

(** The members of the result but the gas. *)
Lemma within_message s x : within_gas s -> within_gas (setMessage x s).2.
Proof using Type. intros (r & u & -> & Hi & Hr). rewrite message_st. by eexists _, u. Qed.
Lemma within_status s x : within_gas s -> within_gas (onResult (chars "status") (Json.SetString x) s).2.
Proof using Type. intros (r & u & -> & Hi & Hr). rewrite status_st. by eexists _, u. Qed.
Lemma within_return s x : within_gas s -> within_gas (onResult (chars "return_value") (Json.PushBack x) s).2.
Proof using Type. intros (r & u & -> & Hi & Hr). rewrite returns_st. by eexists _, u. Qed.
Lemma within_snapshot s x : within_gas s -> within_gas (onResult (chars "vm_snapshot") (fun _ => Ok x) s).2.
Proof using Type. intros (r & u & -> & Hi & Hr). rewrite snapshot_st. by eexists _, u. Qed.

Lemma within_attempt e op F s : (forall vm, inv (limit_is g) vm -> inv (limit_is g) (op vm).2) ->
  (forall s, within_gas s -> within_gas (F s).2) -> within_gas s -> within_gas (attempt e op F s).2.
Proof using Type.
  intros Hop HF Hs. unfold attempt. case_bool_decide; [|done].
  apply within_bind; [by apply within_try, within_onVM|]. intros [|] s' _ Hs'; [done|].
  apply within_bind; [by apply HF|done].
Qed.

Lemma within_writeReturns Ix Results Types s : within_gas s ->
  within_gas (writeReturns (E := E) (X := X) Ix Results Types s).2.
Proof using Type.
  revert Ix s; induction Types as [|t Types IH]; intros Ix s Hs; [done|]. cbn [writeReturns].
  do 3 (apply within_bind; [done|]; intros ? ? [= _ <-] _).
  apply within_bind; [by apply within_return|]. intros _ s' _ Hs'. by apply IH.
Qed.

(** What the meter says is within the gas. *)
Lemma within_report Results It s : 0 <= g < 2 ^ 63 -> within_gas s ->
  within_gas (reportResults Results It s).2.
Proof using Type.
  intros Hg (r & u & -> & Hi & Hr). unfold reportResults.
  destruct (si_meter _ _ _ (vi_store _ _ _ _ Hi)) as (m & Hm & [HL Hsum] & Hlim).
  rewrite (bind_Ok _ _ _ _ _ (meter_st p1 r u m Hm)), (bind_Ok _ _ _ _ _ (gas_used_st p1 _ _ _)).
  assert (within_gas (st p1 (set_gas_used (wrap 64 (CostSum m)) r) (set_uVM (uVM u) u))) as Hs.
  { eexists _, _. split_and!; [done|done|apply Hr|..]; cbn; rewrite wrap_small by (unfold in_u in *; lia); lia. }
  apply within_bind. { destruct It; done. } intros Types s' Et Hs'.
  destruct (_ && _); (apply within_bind; [|intros _ s2 _ Hs2]).
  - by apply within_message.
  - done.
  - by apply within_writeReturns.
  - apply within_bind; [by apply within_status|done].
Qed.

Lemma within_call fuel It It' ps s : 0 <= g < 2 ^ 63 -> within_gas s ->
  within_gas (runFunctionJSON fuel It It' ps s).2.
Proof using Type.
  intros Hg Hs. unfold runFunctionJSON. apply within_bind. { by destruct It. } intros f s1 _ H1.
  apply within_bind. { apply within_try, within_onVM; [|done]. intros vm. apply inv_execute, gas_laws. }
  intros [Results|e] s2 _ H2.
  - apply within_bind; [by apply within_report|]. intros [] s3 _ H3; [|done].
    apply within_bind; [done|]. intros _ s4 [= -> ->] _. apply within_bind; [done|]. intros Doc s5 [= _ <-] _.
    apply within_bind. { apply within_try, within_onVM; [|done]. intros vm. apply snapshot_inv. }
    intros [Doc'|] s6 _ H6; [by apply within_snapshot|done].
  - case_bool_decide; [|by apply within_message].
    apply within_bind; [by apply within_status|]. intros _ s3 _ H3. by apply within_message.
Qed.

Lemma within_run fuel Execution It It' ps s : 0 <= g < 2 ^ 63 -> within_gas s ->
  within_gas (runWasm fuel Execution It It' ps s).2.
Proof using Type.
  intros Hg Hs. pose proof (gas_laws (H := HW) (fun x => x = g)) as HL.
  unfold runWasm. apply within_bind; [done|]. intros p s0 [= -> ->] _.
  apply within_bind; [apply within_attempt; [intros; by apply load_inv|intros; by apply within_message|done]|].
  intros s1 t1 _ H1.
  apply within_bind; [apply within_attempt; [intros; by apply validate_inv|intros; by apply within_message|done]|].
  intros s2 t2 _ H2.
  apply within_bind; [apply within_attempt; [intros; by apply instantiate_inv|intros; by apply within_message|done]|].
  intros s3 t3 _ H3. apply within_bind; [done|]. intros ItSnapshot t4 [= _ <-] _.
  apply within_bind.
  { destruct ItSnapshot as [d|]; [|done]. apply within_attempt; [intros; by apply restore_inv|by intros|done]. }
  intros s4 t5 _ H5. case_bool_decide; [by apply within_call|done].
Qed.

Lemma within_params It It' s : within_gas s -> within_gas (readParams (E := E) (X := X) It It' s).2.
Proof using Type.
  intros Hs. unfold readParams. destruct It as [a|], It' as [t|]; try done.
  do 2 (apply within_bind; [done|]; intros ? ? [= _ <-] _). destruct (negb _).
  - apply within_bind; [by apply within_message|done].
  - apply within_bind; [done|]. by intros ? ? [= _ <-] _.
Qed.

End Within.

Lemma within_header p1 q g Conf o : rqGas q = Some g -> in_u 63 g ->
  forall u, uVM u = limited q (makeVM os host keccak256 Conf o).2 -> within_gas p1 g (st p1 (header q) u).
Proof.
  intros Hq Hg u Hu. exists (header q), u. split_and!; [done| |cbn; by rewrite Hq|cbn; destruct Hg; lia..].
  rewrite Hu. by apply limited_inv, made_inv.
Qed.

Lemma execute_within fuel q g (p : PX) Conf o : wasm_there p -> InputDoc p = request_doc q ->
  rqGas q = Some g -> in_u 63 g -> within_gas p g (executeVM fuel (st p (header q) (made Conf o))).2.
Proof.
  intros Hw Hin Hq Hg. assert (gas_ok_request q) as Hgq by (unfold gas_ok_request; by rewrite Hq).
  destruct (execute_params fuel q p Hin (made Conf o) Hw Hgq) as (u & Hu & ->).
  apply within_bind; [by eapply within_params, within_header|].
  intros [ps|] s _ Hs; [by apply within_run|done].
Qed.

(** [C18] A request pays for its run.  Whatever the module, the snapshot and the host do, when
    [runRequest] returns for an input file that holds the document of a request with a gas
    below 2^63, the response it leaves and writes names this gas and reports no more gas
    used than it. *)
Theorem proxy_gas_bounded (fuel : nat) (o : X) (p p' : PX) (q : Request) (g : Z) :
  reads_request p q -> rqGas q = Some g -> runRequest os host keccak256 fuel o p = (Ok tt, p') ->
  exists r, OutputDoc p' = response_doc r /\ Outputs p' = Outputs p ++ [delivered p r] /\
    rpGas r = g /\ 0 <= rpGasUsed r <= g.
Proof.
  intros Hr Hq. pose proof (proj2 Hr) as Hg. unfold gas_ok_request in Hg. rewrite Hq in Hg. pose proof Hg as [G1 _].
  destruct (configure_total (rqModules q) newConfigure) as (Conf & b & Hc).
  unfold runRequest. rewrite (bind_Ok _ _ _ _ _ (prepare_run p)), (bind_Ok _ _ _ _ _ (parse_run o q Conf b p Hr Hc)).
  destruct (wasm_there_dec p) as [Hw|Hw], b.
  - set (p1 := set_VMConf Conf (set_InputDoc (request_doc q) p)).
    intros ([] & s & Hx & He)%bind_Ok_inv.
    pose proof (execute_within fuel q g p1 Conf o Hw eq_refl Hq Hg) as Hin.
    cbv zeta in Hx. unfold st in Hin. rewrite Hx in Hin. destruct Hin as (r & u & Es & _ & Hgas). cbn [snd] in Es. subst s.
    unfold st in He. rewrite export_run in He. injection He as <-. by exists r.
  - cbv zeta iota. rewrite (bind_Ok _ _ _ _ _ (execute_no_unit fuel _ (set_VMUnit None (set_VMConf Conf (set_InputDoc (request_doc q) p))) Hw eq_refl)).
    rewrite export_run. intros [= <-].
    eexists. split_and!; [done|done|cbn; by rewrite Hq|cbn; lia..].
  - cbv zeta iota. rewrite bind_eq, execute_no_wasm, export_run by done. intros [= <-].
    eexists. split_and!; [done|done|cbn; by rewrite Hq|cbn; lia..].
  - cbv zeta iota. rewrite bind_eq, execute_no_wasm, export_run by done. intros [= <-].
    eexists. split_and!; [done|done|cbn; by rewrite Hq|cbn; lia..].
Qed.

End Answers.

(** ** The calculator

    The request of the tests: the memory holds 9, and 255 is added to it. *)

(** (memory 1) (func (export "mplus") (param i64) (result i64)
      (i64.store (i32.const 16) (i64.add (i64.load (i32.const 16)) (local.get 0)))
      (i64.load (i32.const 16))) *)
Definition calc_wasm : list Z :=
  [0; 0x61; 0x73; 0x6D; 1; 0; 0; 0] ++ [1; 6; 1; 0x60; 1; 0x7E; 1; 0x7E] ++ [3; 2; 1; 0] ++ [5; 3; 1; 0; 1] ++
  [7; 9; 1; 5] ++ chars "mplus" ++ [0; 0] ++
  [0x0A; 22; 1; 20; 0; 0x41; 16; 0x41; 16; 0x29; 3; 0; 0x20; 0; 0x7C; 0x37; 3; 0; 0x41; 16; 0x29; 3; 0; 0x0B].

Definition calc_memory (digits : list Z) : Value :=
  Obj [(chars "memory", Arr [Arr [Int 0; Str (replicate 32 48 ++ digits)]])].
Definition calc_request : Request :=
  mkRequest (Some (chars "ERC20")) (Some (chars "0x0000000012345678")) [chars "Rust"] (Some (chars "mplus"))
    (Some 100) (Some [chars "255"]) (Some [chars "i64"]) (Some [chars "i64"]) (Some (calc_memory (chars "09"))).

#[local] Instance calc_machine : Machine := mkMachine
  (fun f => if bool_decide (f = chars "in") then Some (chars "text")
            else if bool_decide (f = chars "calc.wasm") then Some calc_wasm else None)
  (fun f => bool_decide (f = chars "calc.wasm")) (fun _ => true) None (fun f => Ok f)
  (fun _ => Some (request_doc calc_request)) (fun _ => chars "response") (fun _ _ => []).

Definition calc_proxy : Proxy (E := Ledger) (X := Tape) :=
  set_Paths (chars "in") (chars "out") (chars "calc.wasm") newProxy.

#[local] Abbreviation calc_path := (chars "calc.wasm").
#[local] Abbreviation calc_params := [mkVariant U64 255].


Lemma calc_reads : reads_request calc_proxy calc_request.
Proof. split; [|split; [discriminate|reflexivity]]. exists (chars "text"). by split. Qed.





Lemma proxy_gas_bounded_witness : exists r,
  OutputDoc (runRequest (lib := hex_lib) example_os example_host example_hash 60 demo_tape calc_proxy).2 = response_doc r /\
  rpGas r = 100 /\ 0 <= rpGasUsed r <= 100.
Proof.
  destruct (proxy_gas_bounded (lib := hex_lib) example_os example_host example_hash 60 demo_tape calc_proxy
    (runRequest (lib := hex_lib) example_os example_host example_hash 60 demo_tape calc_proxy).2 calc_request 100)
    as (r & H1 & _ & H2).
  - exact calc_reads.
  - reflexivity.
  - apply pair_fst. vm_compute. reflexivity.
  - exists r. split; [exact H1|exact H2].
Defined.

Lemma value_text_roundtrip_witness :
  exists s, convValToStr (mkVariant U64 (2 ^ 64 - 5)) (chars "i64") = Ok s /\
    convStrToVal (c_str s) (chars "i64") = Ok (mkVariant U64 (2 ^ 64 - 5)).
Proof.
  apply (proj2 (value_text_roundtrip (mkVariant U64 (2 ^ 64 - 5)))).
  split; [reflexivity|]. split; [discriminate|reflexivity].
Defined.

(** ** A proxy that is used again

    The input of the second request is missing: the VM of the first one is still there and
    runs it again, which fails, and the message of that replaces the one about the input. *)
Definition calc_missing : Machine := mkMachine
  (fun f => if bool_decide (f = chars "calc.wasm") then Some calc_wasm else None)
  (fun f => bool_decide (f = chars "calc.wasm")) (fun _ => true) None (fun f => Ok f)
  (fun _ => None) (fun _ => []) (fun _ _ => []).

Theorem stale_request_runs :
  let p1 := (runRequest (lib := hex_lib) example_os example_host example_hash 60 demo_tape calc_proxy).2 in
  let p2 := (runRequest (lib := hex_lib) (mach := calc_missing) example_os example_host example_hash 60 demo_tape p1).2 in
  OutputDoc p2 = response_doc (set_message (chars "Wasm instantiation failed.") blank).
Proof. vm_compute. reflexivity. Qed.

(** ** The tools *)

(** An option whose value contains the option again is not seen. *)
Example repeated_option_ignored :
  parseCommandLine [chars "ssvm-proxy"; chars "--input_file=a--input_file=b"; chars "--wasm_file=w"; chars "--wasm_file=x"]
    (mkCmd [] [] []) = mkCmd [] [] (chars "x").
Proof. vm_compute. reflexivity. Qed.

Lemma err_number_nth e : err_codes !! Z.to_nat (err_number e) = Some e.
Proof. by destruct e. Qed.

Lemma printResults_total Results : exists s, printResults Results = Ok s.
Proof.
  induction Results as [|v Results [s IH]]; [by eexists|]. eexists. cbn [printResults].
  change (retrieveValue U32 v) with (Ok (of_bits U32 (storage v))). cbn [rbind]. by rewrite IH.
Qed.

(** The interpreter tool reports what happened: its exit status is 0 when the function
    returned, and the number of the error code, never 0, when it failed. *)
Theorem ssvm_exit_status {E X} (os : OS X) (host : evmc_host_interface E) (keccak256 : list Z -> list Z)
    {mach : Machine} (fuel : nat) (o : X) (name Path Func : list Z) (Args : list (list Z)) (ps : list ValVariant) :
  parseParams Args = Ok ps ->
  let r := (runWasmFilePath readFile fuel Path Func ps (makeVM os host keccak256 newConfigure o).2).1 in
  let main := ssvm_main os host keccak256 fuel o (name :: Path :: Func :: Args) in
  (forall vs, r = Ok vs -> exists text, main = Ok (0, text)) /\
  (forall e, r = Err e -> e <> Success -> exists text, main = Ok (err_number e, text) /\ err_number e <> 0).
Proof.
  intros Hp r main. pose proof (made_ok os host keccak256 newConfigure o (or_introl eq_refl)) as Hm.
  unfold main, ssvm_main, r. destruct (makeVM os host keccak256 newConfigure o) as [x vm]. cbn [fst snd] in *. subst x.
  cbn [rbind]. rewrite Hp. cbn [rbind]. split.
  - intros vs ->. destruct (printResults_total vs) as [s Hs]. exists s. cbn. by rewrite Hs.
  - intros e -> He. eexists. split; [done|]. intros H0. apply He.
    pose proof (err_number_nth e) as Hn. rewrite H0 in Hn.
    change (Some Success = Some e) in Hn. by injection Hn.
Qed.

(** Its arguments are 32 bits wide: a parameter of type i64 reads bytes nobody wrote. *)
Theorem ssvm_i64_argument :
  ssvm_main (mach := calc_machine) example_os example_host example_hash 60 demo_tape
    [chars "ssvm"; chars "calc.wasm"; chars "mplus"; chars "255"] = Undef UB_indet.
Proof. vm_compute. reflexivity. Qed.
