(* ===== verification/LegacyRuntime.v ===== *)
(** * The first generation runtime: include/executor, lib/executor/instance, include/vm

    The executor and the VM that the interpreter and expvm replaced are still part of the
    build, as libraries.  This file has their data: the configuration, the cost table and the
    environment manager of include/vm, the stack manager, the instances, the store and the
    host functions of include/executor.  Each class is a module of its own, since most
    names are those of the second generation.

    Functions return an [ErrCode] and their results through references; a function that
    returns [Success] is [Ok] here.  Release builds, the ones the build files ask for,
    compile the assertions of the stack manager away; what they would have caught is an
    access outside a vector in the model.  The data members of [Label], [MemoryInstance],
    [TableInstance] and [GlobalInstance] are those of the second generation, and their
    records are shared. *)
From stdpp Require Import base list numbers option.
From Stdlib Require Import ZArith Lia.
From S2P Require Import Prelude Types Instruction AST Memory StackMgr Runtime HostFunc.
#[local] Open Scope Z_scope.

(** ** include/vm/configure.h *)
Module Cfg.

Inductive VMType : Set := Wasm | Ewasm | Wasi | ONNC.

#[global] Instance VMType_eq_dec : EqDecision VMType.
Proof. solve_decision. Defined.

Record Configure : Type := mkConfigure { Types : list VMType; StartFuncName : list Z }.

Definition newConfigure : Configure := mkConfigure [Wasm] [].

Definition hasVMType (Type_ : VMType) (c : Configure) : bool := bool_decide (Type_ ∈ Types c).

(** Inserting into an [unordered_set]. *)
Definition addVMType (Type_ : VMType) (c : Configure) : Configure :=
  if hasVMType Type_ c then c else mkConfigure (Types c ++ [Type_]) (StartFuncName c).

Definition setStartFuncName (Name : list Z) (c : Configure) : Configure :=
  mkConfigure (Types c) Name.

End Cfg.

(** ** include/vm/costtable.h *)
Module Cost.

(** [std::unordered_map<VMType, std::vector<uint64_t>>]. *)
Definition Costs : Type := list (Cfg.VMType * list Z).

Fixpoint find (Type_ : Cfg.VMType) (c : Costs) : option (list Z) :=
  match c with
  | [] => None
  | (t, v) :: c' => if bool_decide (t = Type_) then Some v else find Type_ c'
  end.
Definition assign (Type_ : Cfg.VMType) (v : list Z) (c : Costs) : Costs := (Type_, v) :: c.

Definition setCostTable (Type_ : Cfg.VMType) (c : Costs) : bool * Costs :=
  match Type_ with
  | Cfg.Wasm => (true, assign Type_ (replicate 256 1) c)
  | Cfg.Ewasm => (true, assign Type_ (replicate 256 0) c)
  | Cfg.Wasi => (true, assign Type_ (replicate 256 1) c)
  | Cfg.ONNC => (false, c)
  end.

(** The overload for a custom table. *)
Definition setCustomTable (Type_ : Cfg.VMType) (Table : list Z) (c : Costs) : bool * Costs :=
  if sizeZ Table <? 0xFF then (false, c) else (true, assign Type_ Table c).

(** [at] throws when the table of plain Wasm is missing, which no constructor leaves out. *)
Definition getCostTable (Type_ : Cfg.VMType) (c : Costs) : res (list Z) :=
  match find Type_ c with
  | Some v => Ok v
  | None => match find Cfg.Wasm c with Some v => Ok v | None => Undef UB_vector end
  end.

End Cost.

(** ** include/vm/envmgr.h

    [H] is what the environments of the configured types hold. *)
Module Env.
Section Env.
Context {H : Type}.

Record EnvironmentManager : Type := mkEnv
  { Config : Cfg.Configure; CostTab : Cost.Costs; CostLimit : Z; CostSum : Z; EnvTable : H }.

(** [envs] makes the environments [EVMEnvironment] and [WasiEnvironment]. *)
Definition newEnvironmentManager (InputConfig : Cfg.Configure) (envs : H) : EnvironmentManager :=
  let c := (Cost.setCostTable Cfg.Wasm []).2 in
  let c := if Cfg.hasVMType Cfg.Wasi InputConfig then (Cost.setCostTable Cfg.Wasi c).2 else c in
  let c := if Cfg.hasVMType Cfg.Ewasm InputConfig then (Cost.setCostTable Cfg.Ewasm c).2 else c in
  mkEnv InputConfig c (2 ^ 64 - 1) 0 envs.

Definition getCostTable (e : EnvironmentManager) : res (list Z) :=
  if Cfg.hasVMType Cfg.Ewasm (Config e) then Cost.getCostTable Cfg.Ewasm (CostTab e)
  else if Cfg.hasVMType Cfg.Wasi (Config e) then Cost.getCostTable Cfg.Wasi (CostTab e)
  else Cost.getCostTable Cfg.Wasm (CostTab e).

Definition setCostLimit (Limit : Z) (e : EnvironmentManager) : EnvironmentManager :=
  mkEnv (Config e) (CostTab e) Limit (CostSum e) (EnvTable e).
Definition set_CostSum (s : Z) (e : EnvironmentManager) : EnvironmentManager :=
  mkEnv (Config e) (CostTab e) (CostLimit e) s (EnvTable e).
Definition set_EnvTable (h : H) (e : EnvironmentManager) : EnvironmentManager :=
  mkEnv (Config e) (CostTab e) (CostLimit e) (CostSum e) h.

Definition addCost (Cost : Z) (e : EnvironmentManager) : bool * EnvironmentManager :=
  let e1 := set_CostSum (wrap 64 (CostSum e + Cost)) e in
  if CostSum e1 >? CostLimit e1 then (false, set_CostSum (CostLimit e1) e1) else (true, e1).

Definition subCost (Cost : Z) (e : EnvironmentManager) : bool * EnvironmentManager :=
  if CostSum e >? Cost then (true, set_CostSum (CostSum e - Cost) e)
  else (false, set_CostSum 0 e).

End Env.
Arguments EnvironmentManager : clear implicits.
End Env.

(** ** include/executor/stackmgr.h

    [FrameAndStackSize] pairs a frame with the number of labels under it: the record
    [Frame] has both. *)
Module LStack.

#[local] Abbreviation MS := (M StackManager).

Definition size : MS Z := gets (fun s => sizeZ (ValueStack s)).

Definition getTop : MS ValVariant := fun s =>
  match ValueStack s with v :: _ => (Ok v, s) | [] => (Undef UB_vector, s) end.

(** Assignment through the reference [getTop] returns. *)
Definition setTop (v : ValVariant) : MS unit := fun s =>
  match ValueStack s with _ :: vs => (Ok tt, set_values (v :: vs) s) | [] => (Undef UB_vector, s) end.

(** [&Stack[N]], counted from the bottom: the test lets [N == Stack.size()] through, and
    what the pointer refers to then is not an element. *)
Definition getBottomN (N : Z) : MS ValVariant := fun s =>
  if sizeZ (ValueStack s) <? N then (Err StackEmpty, s)
  else match atZ (ValueStack s) (sizeZ (ValueStack s) - 1 - N) with
  | Some v => (Ok v, s) | None => (Undef UB_vector, s) end.

(** [*Var = Val] through the pointer. *)
Definition setBottomN (N : Z) (v : ValVariant) : MS unit := fun s =>
  if sizeZ (ValueStack s) <? N then (Err StackEmpty, s)
  else if sizeZ (ValueStack s) =? N then (Undef UB_vector, s)
  else (Ok tt, set_values (setZ (sizeZ (ValueStack s) - 1 - N) v (ValueStack s)) s).

Definition push (v : ValVariant) : MS unit := modify (fun s => set_values (v :: ValueStack s) s).

Definition pop : MS ValVariant := fun s =>
  match ValueStack s with v :: vs => (Ok v, set_values vs s) | [] => (Err StackEmpty, s) end.

(** A call whose status is ignored: the variable popped into stays uninitialised when the
    stack is empty, and its callers read it. *)
Definition pop_unchecked : MS ValVariant := fun s =>
  match pop s with
  | (Err _, s') => (Undef UB_indet, s')
  | r => r
  end.

Definition pushFrame (ModuleAddr Arity Coarity : Z) : MS unit := modify (fun s =>
  mkStack (ValueStack s) (LabelStack s)
    (mkFrame ModuleAddr (wrap 32 (sizeZ (ValueStack s) - Arity)) (sizeZ (LabelStack s)) Coarity
       :: FrameStack s)).

(** The number of labels popped. *)
Definition popFrame : MS Z := fun s =>
  match FrameStack s with
  | [] => (Err StackEmpty, s)
  | F :: fs =>
      let LabelPoped := wrap 32 (sizeZ (LabelStack s) - LStackSize F) in
      match erase_mid (LStackSize F) 0 (LabelStack s),
            erase_mid (VStackSize F) (FCoarity F) (ValueStack s) with
      | Ok ls, Ok vs => (Ok LabelPoped, mkStack vs ls fs)
      | _, _ => (Undef UB_vector, s)
      end
  end.

Definition pushLabel (Coarity : Z) (Instr : option Instr) : MS unit := modify (fun s =>
  mkStack (ValueStack s) (mkLabel (wrap 32 (sizeZ (ValueStack s))) Coarity Instr :: LabelStack s)
    (FrameStack s)).

Definition popLabel : MS unit := fun s =>
  match LabelStack s with
  | [] => (Err StackEmpty, s)
  | L :: ls =>
      match erase_mid (LStackSz L) (LCoarity L) (ValueStack s) with
      | Ok vs => (Ok tt, mkStack vs ls (FrameStack s))
      | _ => (Undef UB_vector, s)
      end
  end.

(** [FrameStack.back()]. *)
Definition getModuleAddr : MS Z := fun s =>
  match FrameStack s with f :: _ => (Ok (ModAddr f), s) | [] => (Undef UB_vector, s) end.
Definition getOffset (Idx : Z) : MS Z := fun s =>
  match FrameStack s with
  | f :: _ => (Ok (wrap 32 (VStackSize f + Idx)), s) | [] => (Undef UB_vector, s) end.

(** [Count + 1] is a 32-bit sum, and the index is truncated to 32 bits. *)
Definition getLabelWithCount (Count : Z) : MS Label := fun s =>
  let n := sizeZ (LabelStack s) in
  if n <? wrap 32 (Count + 1) then (Err WrongInstanceAddress, s)
  else match atZ (LabelStack s) (n - 1 - wrap 32 (n - Count - 1)) with
  | Some l => (Ok l, s) | None => (Undef UB_vector, s) end.

Definition reset : MS unit := put newStackManager.

End LStack.

(** ** include/executor/instance, lib/executor/instance *)

Record Entity : Type := mkEntity { Addr : Z; EModName : list Z; EntityName : list Z }.
Definition newEntity : Entity := mkEntity 0 [] [].

Definition setNames (Mod Entity_ : list Z) (e : Entity) : Entity := mkEntity (Addr e) Mod Entity_.
Definition isName (Mod Entity_ : list Z) (e : Entity) : bool :=
  bool_decide (Mod = EModName e) && bool_decide (Entity_ = EntityName e).

(** An instance that derives from [Entity]. *)
Record Named (A : Type) : Type := mkNamed { ent : Entity; obj : A }.
Arguments mkNamed {A} ent obj.
Arguments ent {A} n.
Arguments obj {A} n.

Definition set_ent {A} (e : Entity) (n : Named A) : Named A := mkNamed e (obj n).
Definition set_obj {A} (x : A) (n : Named A) : Named A := mkNamed (ent n) x.
Definition set_Addr {A} (a : Z) (n : Named A) : Named A :=
  mkNamed (mkEntity a (EModName (ent n)) (EntityName (ent n))) (obj n).

(** ** function.{h,cpp}.  [FuncType] is a pointer. *)
Module LFunc.

Record FunctionInstance : Type := mkFunc {
  IsHostFunction : bool;
  FuncType : option FType;
  ModuleAddr : Z;
  Locals : list (Z * option ValType);
  Instrs : list Instr;
  HostFuncAddr : Z
}.

Definition newFunctionInstance (IsHost : bool) : FunctionInstance :=
  mkFunc IsHost None 0 [] [] 0.

Definition setModuleAddr (a : Z) : M FunctionInstance unit := fun f =>
  if IsHostFunction f then (Err FunctionInvalid, f)
  else (Ok tt, mkFunc (IsHostFunction f) (FuncType f) a (Locals f) (Instrs f) (HostFuncAddr f)).
Definition setFuncType (t : FType) : M FunctionInstance unit := fun f =>
  (Ok tt, mkFunc (IsHostFunction f) (Some t) (ModuleAddr f) (Locals f) (Instrs f) (HostFuncAddr f)).
Definition setHostFuncAddr (a : Z) : M FunctionInstance unit := fun f =>
  if negb (IsHostFunction f) then (Err FunctionInvalid, f)
  else (Ok tt, mkFunc (IsHostFunction f) (FuncType f) (ModuleAddr f) (Locals f) (Instrs f) a).
Definition setLocals (Loc : list (Z * option ValType)) : M FunctionInstance unit := fun f =>
  if IsHostFunction f then (Err FunctionInvalid, f)
  else (Ok tt, mkFunc (IsHostFunction f) (FuncType f) (ModuleAddr f) Loc (Instrs f) (HostFuncAddr f)).
(** The body is moved out of the code segment. *)
Definition setInstrs (Expr : list Instr) : M FunctionInstance unit := fun f =>
  if IsHostFunction f then (Err FunctionInvalid, f)
  else (Ok tt, mkFunc (IsHostFunction f) (FuncType f) (ModuleAddr f) (Locals f) Expr (HostFuncAddr f)).

End LFunc.

(** ** module.{h,cpp} *)
Module LMod.

Record ModuleInstance : Type := mkMod {
  MAddr : Z;
  FuncTypes : list FType;
  FuncAddrs : list Z; TableAddrs : list Z; MemAddrs : list Z; GlobalAddrs : list Z;
  HasStartFunc : bool; StartAddr : Z
}.

Definition newModuleInstance : ModuleInstance := mkMod 0 [] [] [] [] [] false 0.

Definition set_MAddr (a : Z) (m : ModuleInstance) : ModuleInstance :=
  mkMod a (FuncTypes m) (FuncAddrs m) (TableAddrs m) (MemAddrs m) (GlobalAddrs m)
    (HasStartFunc m) (StartAddr m).
Definition addFuncType (Params_ Returns_ : list ValType) (m : ModuleInstance) : ModuleInstance :=
  mkMod (MAddr m) (FuncTypes m ++ [mkFType Params_ Returns_]) (FuncAddrs m) (TableAddrs m)
    (MemAddrs m) (GlobalAddrs m) (HasStartFunc m) (StartAddr m).
Definition addFuncAddr (a : Z) (m : ModuleInstance) : ModuleInstance :=
  mkMod (MAddr m) (FuncTypes m) (FuncAddrs m ++ [a]) (TableAddrs m) (MemAddrs m) (GlobalAddrs m)
    (HasStartFunc m) (StartAddr m).
Definition addTableAddr (a : Z) (m : ModuleInstance) : ModuleInstance :=
  mkMod (MAddr m) (FuncTypes m) (FuncAddrs m) (TableAddrs m ++ [a]) (MemAddrs m) (GlobalAddrs m)
    (HasStartFunc m) (StartAddr m).
Definition addMemAddr (a : Z) (m : ModuleInstance) : ModuleInstance :=
  mkMod (MAddr m) (FuncTypes m) (FuncAddrs m) (TableAddrs m) (MemAddrs m ++ [a]) (GlobalAddrs m)
    (HasStartFunc m) (StartAddr m).
Definition addGlobalAddr (a : Z) (m : ModuleInstance) : ModuleInstance :=
  mkMod (MAddr m) (FuncTypes m) (FuncAddrs m) (TableAddrs m) (MemAddrs m) (GlobalAddrs m ++ [a])
    (HasStartFunc m) (StartAddr m).

Definition getFuncAddr (Idx : Z) (m : ModuleInstance) : res Z := get_at (FuncAddrs m) Idx.
Definition getTableAddr (Idx : Z) (m : ModuleInstance) : res Z := get_at (TableAddrs m) Idx.
Definition getMemAddr (Idx : Z) (m : ModuleInstance) : res Z := get_at (MemAddrs m) Idx.
Definition getGlobalAddr (Idx : Z) (m : ModuleInstance) : res Z := get_at (GlobalAddrs m) Idx.

Definition setStartIdx (Idx : Z) : M ModuleInstance unit := fun m =>
  match atZ (FuncAddrs m) Idx with
  | Some a => (Ok tt, mkMod (MAddr m) (FuncTypes m) (FuncAddrs m) (TableAddrs m) (MemAddrs m)
                        (GlobalAddrs m) true a)
  | None => (Err WrongInstanceAddress, m)
  end.
Definition getStartAddr (m : ModuleInstance) : option Z :=
  if HasStartFunc m then Some (StartAddr m) else None.

Definition getFuncType (Idx : Z) (m : ModuleInstance) : res FType := get_at (FuncTypes m) Idx.

End LMod.

(** ** table.{h,cpp} *)
Module LTab.

Definition newTableInstance : TableInstance := mkTable ET_FuncRef false 0 0 [].

Definition setElemType (Elem : ElemType) (t : TableInstance) : TableInstance :=
  mkTable Elem (HasMaxSize t) (MinSize t) (MaxSize t) (FuncElem t).
Definition setLimit (Min_ : Z) (HasMax : bool) (Max_ : Z) (t : TableInstance) : TableInstance :=
  mkTable (TabType t) HasMax Min_ Max_
    (if sizeZ (FuncElem t) <? Min_ then resizeZ 0 Min_ (FuncElem t) else FuncElem t).

(** The new elements are written once more after [resize]. *)
Definition setInitList (Offset : Z) (Addrs : list Z) : M TableInstance unit := fun t =>
  let fin := Offset + sizeZ Addrs in
  if HasMaxSize t && (fin >? MaxSize t) then (Err TableSizeExceeded, t)
  else
    let OriginSize := length (FuncElem t) in
    let elem :=
      if sizeZ (FuncElem t) <? fin then
        let e := resizeZ 0 fin (FuncElem t) in
        fold_left (fun e I => <[I := 0]> e) (seq OriginSize (length e - OriginSize)) e
      else FuncElem t in
    (Ok tt, mkTable (TabType t) (HasMaxSize t) (MinSize t) (MaxSize t)
      (fold_left (fun e p => <[(p.1 + Z.to_nat Offset)%nat := p.2]> e)
         (imap pair Addrs) elem)).

Definition getElemAddr (Idx : Z) (t : TableInstance) : res Z :=
  match atZ (FuncElem t) Idx with Some a => Ok a | None => Err AccessForbidMemory end.

End LTab.

(** ** global.{h,cpp}: the overloads on variants *)
Module LGlob.

(** No case for a value type without an enumerator leaves the value uninitialised. *)
Definition newGlobalInstance (ValueType : ValType) (Mutibility : ValMut) : GlobalInstance :=
  mkGlobal ValueType Mutibility
    (match ValueType with
     | VT_I32 => mkVariant U32 0
     | VT_I64 => mkVariant U64 0
     | VT_F32 => mkVariant FLT 0
     | VT_F64 => mkVariant DBL 0
     | VT_None => mkVal 0 false
     end).

Definition getValue (g : GlobalInstance) : ValVariant := GValue g.
Definition setValue (Val : ValVariant) (g : GlobalInstance) : GlobalInstance :=
  mkGlobal (GType g) (GMut g) Val.

End LGlob.

(** ** memory.{h,cpp,ipp} *)
Module LMem.

#[local] Abbreviation MM := (M MemoryInstance).

Definition newMemoryInstance : MemoryInstance := mkMemory false 0 0 0 [].

Definition setLimit (Min_ : Z) (HasMax : bool) (Max_ : Z) (m : MemoryInstance) : MemoryInstance :=
  mkMemory HasMax Min_ Max_ Min_ (Data m).

Definition getDataPageSize (m : MemoryInstance) : Z := CurrPage m.
Definition getDataVector (m : MemoryInstance) : list Z := Data m.

Definition growPage (Count : Z) : MM unit := fun m =>
  let sum := wrap 32 (Count + CurrPage m) in
  if (HasMaxPage m && (sum >? MaxPage m)) || (sum >? 65536)
  then (Err MemorySizeExceeded, m)
  else (Ok tt, set_CurrPage (wrap 32 (CurrPage m + Count)) m).

Definition checkDataSize (Offset Length : Z) : MM unit := fun m =>
  let AccessLen := Offset + Length in
  if AccessLen >? CurrPage m * 65536 then (Err MemorySizeExceeded, m)
  else
    let need := wrap 32 (Offset + Length) in
    if sizeZ (Data m) <? need then
      let TargetSize := need / 8 + 1 in
      let TargetSize := if TargetSize <? 32 * 65536 then wrap 32 (TargetSize * 2)
                        else scale_1_1 TargetSize in
      let d :=
        if wrap 32 (TargetSize * 8) >? wrap 32 (CurrPage m * 65536)
        then resizeZ 0 (wrap 32 (CurrPage m * 65536)) (Data m)
        else resizeZ 0 (wrap 32 (TargetSize * 8)) (Data m) in
      (Ok tt, set_Data d m)
    else (Ok tt, m).

(** The bytes are appended to the vector of the caller. *)
Definition getBytes (Slice : list Z) (Offset Length : Z) : MM (list Z) :=
  checkDataSize Offset Length ;;;
  if Length =? 0 then ret Slice
  else
    let* m := get in
    let* bs := lift (read_range Offset Length (Data m)) in
    ret (Slice ++ bs).

(** [Start + Length] is a 32-bit sum. *)
Definition setBytes (Slice : list Z) (Offset Start Length : Z) : MM unit :=
  checkDataSize Offset Length ;;;
  if (sizeZ Slice <? Start) || (sizeZ Slice <? wrap 32 (Start + Length))
  then throw AccessForbidMemory
  else if Length =? 0 then ret tt
  else
    let* m := get in
    let* bs := lift (read_range Start Length Slice) in
    let* d := lift (write_range Offset bs (Data m)) in
    put (set_Data d m).

(** The first [Length] bytes [Arr] points to are assigned, unless [Length] is 0. *)
Definition getArray (Offset Length : Z) (IsReverse : bool) : MM (list Z) :=
  checkDataSize Offset Length ;;;
  if Length =? 0 then ret []
  else
    let* m := get in
    let* bs := lift (read_range Offset Length (Data m)) in
    ret (if IsReverse then reverse bs else bs).

Definition setArray (Arr : list Z) (Offset Length : Z) (IsReverse : bool) : MM unit :=
  checkDataSize Offset Length ;;;
  if Length =? 0 then ret tt
  else
    let* m := get in
    let* bs := lift (read_range 0 Length Arr) in
    let* d := lift (write_range Offset (if IsReverse then reverse bs else bs) (Data m)) in
    put (set_Data d m).

Definition getPointerOrNull (Offset : Z) (m : MemoryInstance) : option Z :=
  if (sizeZ (Data m) <=? Offset) || (Offset =? 0) then None else Some Offset.
Definition getPointer (Offset : Z) (m : MemoryInstance) : option Z :=
  if sizeZ (Data m) <=? Offset then None else Some Offset.

(** [LoadVal >> (Length * 8 - 1)]: the amount is a 32-bit number. *)
Definition loadValue (T : CType) (Offset Length : Z) : MM Z :=
  if sizeof T <? Length then throw AccessForbidMemory
  else
    checkDataSize Offset Length ;;;
    let* m := get in
    if is_floating T then
      let* bs := lift (read_range Offset (sizeof T) (Data m)) in ret (le_combine bs)
    else
      let* bs := lift (read_range Offset Length (Data m)) in
      let LoadVal := le_combine bs in
      if is_signed T then
        if Length =? 0 then undef UB_shift
        else ret (of_bits T (if negb (Z.shiftr LoadVal (Length * 8 - 1) =? 0)
                             then sign_fill Length LoadVal else LoadVal))
      else ret (of_bits T LoadVal).

Definition storeValue (T : CType) (Value Offset Length : Z) : MM unit :=
  if sizeof T <? Length then throw AccessForbidMemory
  else
    checkDataSize Offset Length ;;;
    let* m := get in
    let* d := lift (write_range Offset (le_split (Z.to_nat Length) (to_bits T Value)) (Data m)) in
    put (set_Data d m).

End LMem.

(** ** include/executor/storemgr.{h,ipp} *)
Module LStore.

Record StoreManager : Type := mkStoreMgr {
  ModInsts : list LMod.ModuleInstance;
  FuncInsts : list (Named LFunc.FunctionInstance);
  TabInsts : list (Named TableInstance);
  MemInsts : list (Named MemoryInstance);
  GlobInsts : list (Named GlobalInstance)
}.

Definition newStoreManager : StoreManager := mkStoreMgr [] [] [] [] [].

(** [insertInstance]: the instance is given its address. *)
Definition insertNamed {A} (Inst : Named A) (InstsVec : list (Named A)) : Z * list (Named A) :=
  let NewId := wrap 32 (sizeZ InstsVec) in (NewId, InstsVec ++ [set_Addr NewId Inst]).

Definition insertModuleInst (Mod : LMod.ModuleInstance) (s : StoreManager) : Z * StoreManager :=
  let NewId := wrap 32 (sizeZ (ModInsts s)) in
  (NewId, mkStoreMgr (ModInsts s ++ [LMod.set_MAddr NewId Mod]) (FuncInsts s) (TabInsts s)
            (MemInsts s) (GlobInsts s)).
Definition popModuleInst (s : StoreManager) : res StoreManager :=
  match ModInsts s with
  | [] => Undef UB_vector
  | l => Ok (mkStoreMgr (removelast l) (FuncInsts s) (TabInsts s) (MemInsts s) (GlobInsts s))
  end.
Definition insertFunctionInst (Func : Named LFunc.FunctionInstance) (s : StoreManager)
    : Z * StoreManager :=
  let '(a, l) := insertNamed Func (FuncInsts s) in
  (a, mkStoreMgr (ModInsts s) l (TabInsts s) (MemInsts s) (GlobInsts s)).
Definition insertTableInst (Tab : Named TableInstance) (s : StoreManager) : Z * StoreManager :=
  let '(a, l) := insertNamed Tab (TabInsts s) in
  (a, mkStoreMgr (ModInsts s) (FuncInsts s) l (MemInsts s) (GlobInsts s)).
Definition insertMemoryInst (Mem : Named MemoryInstance) (s : StoreManager) : Z * StoreManager :=
  let '(a, l) := insertNamed Mem (MemInsts s) in
  (a, mkStoreMgr (ModInsts s) (FuncInsts s) (TabInsts s) l (GlobInsts s)).
Definition insertGlobalInst (Glob : Named GlobalInstance) (s : StoreManager) : Z * StoreManager :=
  let '(a, l) := insertNamed Glob (GlobInsts s) in
  (a, mkStoreMgr (ModInsts s) (FuncInsts s) (TabInsts s) (MemInsts s) l).

Definition getMemoryInstsCnt (s : StoreManager) : Z := wrap 32 (sizeZ (MemInsts s)).
Definition getGlobalInstsCnt (s : StoreManager) : Z := wrap 32 (sizeZ (GlobInsts s)).

(** [getInstance]. *)
Definition getInstance {A} (Addr_ : Z) (InstsVec : list A) : res A := get_at InstsVec Addr_.
Definition getModule (Addr_ : Z) (s : StoreManager) := getInstance Addr_ (ModInsts s).
Definition getFunction (Addr_ : Z) (s : StoreManager) := getInstance Addr_ (FuncInsts s).
Definition getTable (Addr_ : Z) (s : StoreManager) := getInstance Addr_ (TabInsts s).
Definition getMemory (Addr_ : Z) (s : StoreManager) := getInstance Addr_ (MemInsts s).
Definition getGlobal (Addr_ : Z) (s : StoreManager) := getInstance Addr_ (GlobInsts s).

(** [findEntity]: the first instance with both names. *)
Fixpoint findEntity {A} (ModName_ EntityName_ : list Z) (InstsVec : list (Named A))
    : res (Named A) :=
  match InstsVec with
  | [] => Err WrongInstanceAddress
  | It :: l => if isName ModName_ EntityName_ (ent It) then Ok It else findEntity ModName_ EntityName_ l
  end.
Definition findFunction (ModName_ FuncName : list Z) (s : StoreManager) :=
  findEntity ModName_ FuncName (FuncInsts s).
Definition findTable (ModName_ TabName : list Z) (s : StoreManager) :=
  findEntity ModName_ TabName (TabInsts s).
Definition findMemory (ModName_ MemName : list Z) (s : StoreManager) :=
  findEntity ModName_ MemName (MemInsts s).
Definition findGlobal (ModName_ GlobName : list Z) (s : StoreManager) :=
  findEntity ModName_ GlobName (GlobInsts s).

(** Assignments through the pointers [getModule] and the like return. *)
Definition putModule (a : Z) (m : LMod.ModuleInstance) (s : StoreManager) : StoreManager :=
  mkStoreMgr (setZ a m (ModInsts s)) (FuncInsts s) (TabInsts s) (MemInsts s) (GlobInsts s).
Definition putFunction (a : Z) (f : Named LFunc.FunctionInstance) (s : StoreManager) : StoreManager :=
  mkStoreMgr (ModInsts s) (setZ a f (FuncInsts s)) (TabInsts s) (MemInsts s) (GlobInsts s).
Definition putTable (a : Z) (t : Named TableInstance) (s : StoreManager) : StoreManager :=
  mkStoreMgr (ModInsts s) (FuncInsts s) (setZ a t (TabInsts s)) (MemInsts s) (GlobInsts s).
Definition putMemory (a : Z) (m : Named MemoryInstance) (s : StoreManager) : StoreManager :=
  mkStoreMgr (ModInsts s) (FuncInsts s) (TabInsts s) (setZ a m (MemInsts s)) (GlobInsts s).
Definition putGlobal (a : Z) (g : Named GlobalInstance) (s : StoreManager) : StoreManager :=
  mkStoreMgr (ModInsts s) (FuncInsts s) (TabInsts s) (MemInsts s) (setZ a g (GlobInsts s)).

Definition reset : StoreManager := newStoreManager.

End LStore.

(** ** include/executor/hostfunc.h, include/executor/hostfuncmgr.h *)
Module LHost.
Section Host.
Context {H : Type}.

Record HostFunctionBase : Type := mkHost {
  lhType : FType;
  lhCost : Z;
  lhModName : list Z;
  lhFuncName : list Z;
  lhRun : Env.EnvironmentManager H -> StackManager -> MemoryInstance ->
    res ErrCode * (Env.EnvironmentManager H * StackManager * MemoryInstance)
}.

(** What [body] works on: the environment manager, the memory and the result variable. *)
Record HostCtx : Type := mkHostCtx
  { lcEnv : Env.EnvironmentManager H; lcMem : MemoryInstance; lcRet : option Z }.

Definition set_lcEnv (e : Env.EnvironmentManager H) (c : HostCtx) : HostCtx :=
  mkHostCtx e (lcMem c) (lcRet c).
Definition set_lcMem (m : MemoryInstance) (c : HostCtx) : HostCtx :=
  mkHostCtx (lcEnv c) m (lcRet c).
Definition set_lcRet (r : option Z) (c : HostCtx) : HostCtx :=
  mkHostCtx (lcEnv c) (lcMem c) r.

Definition onMem {A} (m : M MemoryInstance A) : M HostCtx A := zoom lcMem set_lcMem m.
Definition setRet (x : Z) : M HostCtx unit := modify (set_lcRet (Some x)).

(** [getBottomN<U>]: a value of the type when the stack is too short. *)
Definition getBottomN (T : CType) (N : Z) : M StackManager Z :=
  let* r := try (LStack.getBottomN N) in
  match r with
  | inr _ => ret 0
  | inl v => lift (retrieveValue T v)
  end.

Fixpoint readTuple (Ts : list CType) (N : Z) : M StackManager (tuple Ts) :=
  match Ts with
  | [] => ret tt
  | T :: Ts' =>
      let* x := getBottomN T N in
      let* xs := readTuple Ts' (N + 1) in
      ret (x, xs)
  end.

(** [((StackMgr.pop(), (void)Indices), ...)] *)
Fixpoint popValues (n : nat) : M StackManager unit :=
  match n with O => ret tt | Datatypes.S n' => try LStack.pop ;;; popValues n' end.

Definition popTuple (Ts : list CType) (N : Z) : M StackManager (tuple Ts) :=
  let* Result := readTuple Ts N in
  popValues (length Ts) ;;; ret Result.

(** [StackMgr.push(Ret)], also after an error: reading [Ret] is undefined while nothing was
    assigned to it. *)
Definition pushRet (RetT : option CType) (Ret : option Z) : M StackManager unit :=
  match RetT, Ret with
  | None, _ => ret tt
  | Some T, Some x => LStack.push (mkVariant T x)
  | Some _, None => undef UB_indet
  end.

Definition invoke (RetT : option CType) (Ts : list CType) (body : fun_of Ts (M HostCtx unit))
    (EnvMgr : Env.EnvironmentManager H) (stk : StackManager) (MemInst : MemoryInstance)
    : res ErrCode * (Env.EnvironmentManager H * StackManager * MemoryInstance) :=
  let kSize := sizeZ Ts in
  if sizeZ (ValueStack stk) <? kSize then (Ok CallFunctionError, (EnvMgr, stk, MemInst))
  else
    match popTuple Ts (sizeZ (ValueStack stk) - kSize) stk with
    | (Ok Tuple, stk1) =>
        let '(r, c) := apply Ts body Tuple (mkHostCtx EnvMgr MemInst None) in
        match status r with
        | Ok Status =>
            let '(p, stk2) := pushRet RetT (lcRet c) stk1 in
            (let? _ := p in Ok Status, (lcEnv c, stk2, lcMem c))
        | q => (q, (lcEnv c, stk1, lcMem c))
        end
    | (Err e, stk1) => (Err e, (EnvMgr, stk1, MemInst))
    | (Undef u, stk1) => (Undef u, (EnvMgr, stk1, MemInst))
    | (NoFuel, stk1) => (NoFuel, (EnvMgr, stk1, MemInst))
    end.

Definition initializeFuncType (RetT : option CType) (Ts : list CType) : FType :=
  mkFType (ValTypeFromType <$> Ts)
    (match RetT with Some T => [ValTypeFromType T] | None => [] end).

Definition hostFunction (Mod Func : list Z) (FuncCost : Z) (RetT : option CType) (Ts : list CType)
    (body : fun_of Ts (M HostCtx unit)) : HostFunctionBase :=
  mkHost (initializeFuncType RetT Ts) FuncCost Mod Func (invoke RetT Ts body).

(** The host function manager. *)
Definition insertHostFunction (Func : HostFunctionBase) (HostFuncs : list HostFunctionBase)
    : Z * list HostFunctionBase := (wrap 32 (sizeZ HostFuncs), HostFuncs ++ [Func]).
Definition getHostFunction (Addr_ : Z) (HostFuncs : list HostFunctionBase) : res HostFunctionBase :=
  match atZ HostFuncs Addr_ with Some f => Ok f | None => Err WrongInstanceAddress end.

End Host.
Arguments HostFunctionBase : clear implicits.
Arguments HostCtx : clear implicits.
End LHost.
