(* ===== verification/LegacyWorker.v ===== *)
(** * The first generation engine: include/executor/worker.h, lib/executor/worker.cpp,
    lib/executor/worker/*.cpp, include/executor/worker/*.ipp

    The numeric operations are, up to the way they return, the templates of the
    interpreter, and the definitions of Numeric.v are used for both.  Opcodes without a
    case end in [__builtin_unreachable()], which is undefined.  The time recorder and the
    log are left out. *)
From stdpp Require Import base list numbers option.
From Stdlib Require Import ZArith Lia.
From S2P Require Import Prelude Types Instruction AST Numeric Memory StackMgr Runtime.
From S2P Require Import LegacyRuntime.
#[local] Open Scope Z_scope.

(** ** worker/provider.{h,cpp} *)
Module LProv.

Inductive SeqType : Set := Expression | Block | FunctionCall.
Record InstrScope : Type := mkInstrScope { IType : SeqType; IRest : list Instr }.

(** [Iters], with its back at the head; an iterator pair is what is left between them. *)
#[local] Abbreviation MP := (M (list InstrScope)).

(** Null when there is no sequence or the top one is at its end. *)
Definition getNextInstr : MP (option Instr) := fun Iters =>
  match Iters with
  | mkInstrScope t (i :: l) :: r => (Ok (Some i), mkInstrScope t l :: r)
  | _ => (Ok None, Iters)
  end.
Definition getTopScopeType : MP SeqType := gets (fun Iters =>
  match Iters with sc :: _ => IType sc | [] => Expression end).
Definition getScopeSize : MP Z := gets (fun Iters => wrap 32 (sizeZ Iters)).
Definition pushInstrs (Type_ : SeqType) (Instrs : list Instr) : MP unit :=
  modify (cons (mkInstrScope Type_ Instrs)).
Definition popInstrs : MP unit := fun Iters =>
  match Iters with
  | [] => (Err WrongInstructionCounter, Iters)
  | _ :: r => (Ok tt, r)
  end.
Definition reset : MP unit := put [].

End LProv.

Module Worker.

Inductive State : Set := Inited | CodeSet | Active | StUnreachable.

#[global] Instance State_eq_dec : EqDecision State.
Proof. solve_decision. Defined.

Section Worker.
Context {H : Type}.

(** The members of [Worker] and what its references refer to. *)
Record Worker : Type := mkWorker {
  StoreMgr : LStore.StoreManager;
  StackMgr : StackManager;
  HostFuncMgr : list (LHost.HostFunctionBase H);
  EnvMgr : Env.EnvironmentManager H;
  TheState : State;
  InstrPdr : list LProv.InstrScope;
  ExecInstrCnt : Z;
  CostTable : list Z
}.

#[local] Abbreviation MW := (M Worker).

Definition set_StoreMgr (x : LStore.StoreManager) (w : Worker) : Worker :=
  mkWorker x (StackMgr w) (HostFuncMgr w) (EnvMgr w) (TheState w) (InstrPdr w) (ExecInstrCnt w) (CostTable w).
Definition set_StackMgr (x : StackManager) (w : Worker) : Worker :=
  mkWorker (StoreMgr w) x (HostFuncMgr w) (EnvMgr w) (TheState w) (InstrPdr w) (ExecInstrCnt w) (CostTable w).
Definition set_HostFuncMgr (x : list (LHost.HostFunctionBase H)) (w : Worker) : Worker :=
  mkWorker (StoreMgr w) (StackMgr w) x (EnvMgr w) (TheState w) (InstrPdr w) (ExecInstrCnt w) (CostTable w).
Definition set_EnvMgr (x : Env.EnvironmentManager H) (w : Worker) : Worker :=
  mkWorker (StoreMgr w) (StackMgr w) (HostFuncMgr w) x (TheState w) (InstrPdr w) (ExecInstrCnt w) (CostTable w).
Definition set_State (x : State) (w : Worker) : Worker :=
  mkWorker (StoreMgr w) (StackMgr w) (HostFuncMgr w) (EnvMgr w) x (InstrPdr w) (ExecInstrCnt w) (CostTable w).
Definition set_InstrPdr (x : list LProv.InstrScope) (w : Worker) : Worker :=
  mkWorker (StoreMgr w) (StackMgr w) (HostFuncMgr w) (EnvMgr w) (TheState w) x (ExecInstrCnt w) (CostTable w).
Definition set_Cnt (x : Z) (w : Worker) : Worker :=
  mkWorker (StoreMgr w) (StackMgr w) (HostFuncMgr w) (EnvMgr w) (TheState w) (InstrPdr w) x (CostTable w).

Definition onStack {A} (m : M StackManager A) : MW A := zoom StackMgr set_StackMgr m.
Definition onPdr {A} (m : M (list LProv.InstrScope) A) : MW A := zoom InstrPdr set_InstrPdr m.
Definition onStore {A} (f : LStore.StoreManager -> A * LStore.StoreManager) : MW A := fun w =>
  let '(a, st) := f (StoreMgr w) in (Ok a, set_StoreMgr st w).

(** [if (!EnvMgr.addCost(Cost)) return e;] *)
Definition charge (Cost : Z) (e : ErrCode) : MW unit := fun w =>
  let '(b, env) := Env.addCost Cost (EnvMgr w) in
  (if b : bool then Ok tt else Err e, set_EnvMgr env w).

(** [CostTable[i]] *)
Definition costOf (i : Z) : MW Z := fun w =>
  match atZ (CostTable w) i with Some c => (Ok c, w) | None => (Undef UB_vector, w) end.

(** A call whose status is dropped. *)
Definition ignore {A} (m : MW A) : MW unit := try m ;;; ret tt.

(** ** Instances of the current module *)

Definition getModInst : MW LMod.ModuleInstance :=
  let* ModuleAddr := onStack LStack.getModuleAddr in
  let* w := get in lift (LStore.getModule ModuleAddr (StoreMgr w)).

Definition getTabInstByIdx (Idx : Z) : MW TableInstance :=
  let* ModInst := getModInst in
  let* TableAddr := lift (LMod.getTableAddr Idx ModInst) in
  let* w := get in
  let* t := lift (LStore.getTable TableAddr (StoreMgr w)) in
  ret (obj t).

(** The address and the instance: writes go back to the address. *)
Definition getMemInstByIdx (Idx : Z) : MW (Z * Named MemoryInstance) :=
  let* ModInst := getModInst in
  let* MemoryAddr := lift (LMod.getMemAddr Idx ModInst) in
  let* w := get in
  let* m := lift (LStore.getMemory MemoryAddr (StoreMgr w)) in
  ret (MemoryAddr, m).
Definition getGlobInstByIdx (Idx : Z) : MW (Z * Named GlobalInstance) :=
  let* ModInst := getModInst in
  let* GlobalAddr := lift (LMod.getGlobalAddr Idx ModInst) in
  let* w := get in
  let* g := lift (LStore.getGlobal GlobalAddr (StoreMgr w)) in
  ret (GlobalAddr, g).

Definition putMem (a : Z) (m : Named MemoryInstance) : MW unit :=
  modify (fun w => set_StoreMgr (LStore.putMemory a m (StoreMgr w)) w).
Definition putGlob (a : Z) (g : Named GlobalInstance) : MW unit :=
  modify (fun w => set_StoreMgr (LStore.putGlobal a g (StoreMgr w)) w).

(** An operation of the memory at [a]; what it changed before an error stays. *)
Definition onMem {A} (a : Z) (mem : Named MemoryInstance) (op : M MemoryInstance A) : MW A :=
  let '(r, mem') := op (obj mem) in putMem a (set_obj mem' mem) ;;; lift r.

(** ** Blocks, functions and branches: worker.cpp *)

Definition enterBlock (Arity : Z) (Instr : option Instr) (Seq : list Instruction.Instr) : MW unit :=
  onStack (LStack.pushLabel Arity Instr) ;;; onPdr (LProv.pushInstrs LProv.Block Seq).

Definition leaveBlock : MW unit :=
  ignore (onStack LStack.popLabel) ;;; ignore (onPdr LProv.popInstrs).

Definition push_locals (Locals : list (Z * option ValType)) : MW unit :=
  mapM_ (fun Def => onStack (modify (fun st =>
    set_values (replicate (Z.to_nat Def.1) (ValueFromType (default VT_None Def.2)) ++ ValueStack st)
      st))) Locals.

Definition callHost (f : LFunc.FunctionInstance) : MW unit :=
  let* w := get in
  let* HostFunc := lift (LHost.getHostFunction (LFunc.HostFuncAddr f) (HostFuncMgr w)) in
  charge (LHost.lhCost HostFunc) CostLimitExceeded ;;;
  let* am := getMemInstByIdx 0 in
  let* w := get in
  match LHost.lhRun HostFunc (EnvMgr w) (StackMgr w) (obj am.2) with
  | (r, (env, stk, mem)) =>
      put (set_EnvMgr env (set_StackMgr stk w)) ;;;
      putMem am.1 (set_obj mem am.2) ;;;
      let* Status := lift r in
      if bool_decide (Status <> Success) then throw Status else ret tt
  end.

Definition invokeFunction (FuncAddr : Z) : MW unit :=
  let* w := get in
  let* FuncInst := lift (LStore.getFunction FuncAddr (StoreMgr w)) in
  let f := obj FuncInst in
  if LFunc.IsHostFunction f then callHost f
  else
    match LFunc.FuncType f with
    | None => undef UB_deref
    | Some FuncType =>
        onStack (LStack.pushFrame (LFunc.ModuleAddr f) (sizeZ (Params FuncType)) (sizeZ (Returns FuncType))) ;;;
        push_locals (LFunc.Locals f) ;;;
        onPdr (LProv.pushInstrs LProv.FunctionCall []) ;;;
        enterBlock (sizeZ (Returns FuncType)) None (LFunc.Instrs f)
    end.

(** [for (I = 0; I < n; ++I) InstrPdr.popInstrs();] *)
Fixpoint popInstrs_n (n : nat) : MW unit :=
  match n with O => ret tt | S n' => ignore (onPdr LProv.popInstrs) ;;; popInstrs_n n' end.

Definition returnFunction : MW unit :=
  let* LabelPoped := onStack LStack.popFrame in
  popInstrs_n (Z.to_nat LabelPoped) ;;;
  ignore (onPdr LProv.popInstrs).

(** Each label on the way is popped, with the values it erases, before the next one. *)
Fixpoint popLabels (n : nat) : MW unit :=
  match n with
  | O => ret tt
  | S n' =>
      ignore (onStack LStack.popLabel) ;;; ignore (onPdr LProv.popInstrs) ;;; popLabels n'
  end.

Definition runBlockOp (ResultType : ValType) (Body : list Instr) : MW unit :=
  enterBlock (if bool_decide (ResultType = VT_None) then 0 else 1) None Body.

Definition runLoopOp (Instr : Instr) : MW unit :=
  match Instr with
  | BlockControlInstruction _ _ Body => enterBlock 0 (Some Instr) Body
  | _ => undef UB_downcast
  end.

Definition branchToLabel (LabelId : Z) : MW unit :=
  let* L := onStack (LStack.getLabelWithCount LabelId) in
  popLabels (Z.to_nat (wrap 32 (LabelId + 1))) ;;;
  match Target L with
  | Some ContInstr => runLoopOp ContInstr
  | None => ret tt
  end.

(** ** worker/control.cpp *)

Definition pop_u32 : MW Z :=
  let* v := onStack LStack.pop_unchecked in lift (retrieveValue U32 v).

Definition runIfElseOp (ResultType : ValType) (IfStatement ElseStatement : list Instr) : MW unit :=
  let* Cond := pop_u32 in
  let Arity := if bool_decide (ResultType = VT_None) then 0 else 1 in
  if negb (Cond =? 0) then
    if sizeZ IfStatement =? 0 then ret tt
    else let* c := costOf 5 in charge c Revert ;;; enterBlock Arity None IfStatement
  else
    if sizeZ ElseStatement =? 0 then ret tt
    else let* c := costOf 5 in charge c Revert ;;; enterBlock Arity None ElseStatement.

Definition runBrOp (LabelIndex : Z) : MW unit := branchToLabel LabelIndex.

Definition runBrIfOp (LabelIndex : Z) : MW unit :=
  let* c := pop_u32 in if negb (c =? 0) then runBrOp LabelIndex else ret tt.

(** The index is an [int32_t], compared as a [size_t]. *)
Definition runBrTableOp (LabelTable : list Z) (LabelIndex : Z) : MW unit :=
  let* v := pop_u32 in
  let Value := sgn 32 v in
  if wrap 64 Value <? sizeZ LabelTable then
    match atZ LabelTable (wrap 64 Value) with
    | Some l => branchToLabel l
    | None => undef UB_vector
    end
  else branchToLabel LabelIndex.

Definition runReturnOp : MW unit := returnFunction.

(** The statuses of [getModule] and [getFuncAddr] are dropped: a null module pointer or an
    uninitialised address follow. *)
Definition runCallOp (FuncIdx : Z) : MW unit :=
  let* ModuleInst := deref getModInst in
  match LMod.getFuncAddr FuncIdx ModuleInst with
  | Ok FuncAddr => invokeFunction FuncAddr
  | _ => undef UB_indet
  end.

Definition ftype_match (a b : FType) : bool :=
  if negb (sizeZ (Params a) =? sizeZ (Params b)) || negb (sizeZ (Returns a) =? sizeZ (Returns b))
  then false
  else
    forallb (fun p => bool_decide (p.1 = p.2)) (zip (Params a) (Params b)) &&
    forallb (fun p => bool_decide (p.1 = p.2)) (zip (Returns a) (Returns b)).

Definition runCallIndirectOp (FuncIdx : Z) : MW unit :=
  let* TableInst := getTabInstByIdx 0 in
  let* ModuleInst := deref getModInst in
  let* FuncType := lift (LMod.getFuncType FuncIdx ModuleInst) in
  let* Idx := pop_u32 in
  let* FuncAddr := lift (LTab.getElemAddr Idx TableInst) in
  let* w := get in
  let* FuncInst := lift (LStore.getFunction FuncAddr (StoreMgr w)) in
  match LFunc.FuncType (obj FuncInst) with
  | None => undef UB_deref
  | Some DstFuncType =>
      if ftype_match FuncType DstFuncType then invokeFunction FuncAddr else throw TypeNotMatch
  end.

(** ** worker/variable.cpp *)

Definition runLocalGetOp (Idx : Z) : MW unit := onStack (
  let* Offset := LStack.getOffset Idx in
  let* Var := LStack.getBottomN Offset in
  LStack.push Var).

Definition runLocalSetOp (Idx : Z) : MW unit := onStack (
  let* Val := LStack.pop in
  let* Offset := LStack.getOffset Idx in
  LStack.setBottomN Offset Val).

Definition runLocalTeeOp (Idx : Z) : MW unit := onStack (
  let* Val := LStack.getTop in
  let* Offset := LStack.getOffset Idx in
  LStack.setBottomN Offset Val).

Definition runGlobalGetOp (Idx : Z) : MW unit :=
  let* ag := getGlobInstByIdx Idx in onStack (LStack.push (LGlob.getValue (obj ag.2))).

Definition runGlobalSetOp (Idx : Z) : MW unit :=
  let* ag := getGlobInstByIdx Idx in
  let* Val := onStack LStack.pop in
  putGlob ag.1 (set_obj (LGlob.setValue Val (obj ag.2)) ag.2).

(** ** worker/memory.{cpp,ipp} *)

Definition runMemorySizeOp : MW unit :=
  let* am := getMemInstByIdx 0 in
  onStack (LStack.push (mkVariant U32 (LMem.getDataPageSize (obj am.2)))).

Definition runMemoryGrowOp : MW unit :=
  let* am := getMemInstByIdx 0 in
  let* v := onStack LStack.getTop in
  let* N := lift (retrieveValue U32 v) in
  let CurrPageSize := LMem.getDataPageSize (obj am.2) in
  let* r := try (onMem am.1 am.2 (LMem.growPage N)) in
  onStack (LStack.setTop (assignValue U32 (match r with inl _ => CurrPageSize | inr _ => -1 end) v)).

Definition runLoadOp (T : CType) (BitWidth : Z) (MemoryOffset : Z) : MW unit :=
  let* am := getMemInstByIdx 0 in
  let* Val := onStack LStack.getTop in
  let* base := lift (retrieveValue U32 Val) in
  let EA := wrap 32 (base + MemoryOffset) in
  let* x := onMem am.1 am.2 (LMem.loadValue T EA (BitWidth / 8)) in
  onStack (LStack.setTop (assignValue T x Val)).

Definition runStoreOp (T : CType) (BitWidth : Z) (MemoryOffset : Z) : MW unit :=
  let* am := getMemInstByIdx 0 in
  let* C := onStack LStack.pop_unchecked in
  let* Iv := onStack LStack.pop_unchecked in
  let* base := lift (retrieveValue U32 Iv) in
  let EA := wrap 32 (base + MemoryOffset) in
  let* c := lift (retrieveValue T C) in
  onMem am.1 am.2 (LMem.storeValue T c EA (BitWidth / 8)).

(** ** The execute overloads: worker.cpp *)

Definition executeControl (Code : OpCode) : MW unit :=
  match Code with
  | Op_Unreachable => modify (set_State StUnreachable) ;;; throw Unreachable
  | Op_Nop => ret tt
  | Op_Return => runReturnOp
  | _ => undef UB_downcast
  end.

Definition executeBlock (Code : OpCode) (bt : ValType) (body : list Instr) (i : Instr) : MW unit :=
  match Code with
  | Op_Block => runBlockOp bt body
  | Op_Loop => runLoopOp i
  | _ => undef UB_downcast
  end.

Definition executeIfElse (Code : OpCode) (bt : ValType) (ifs els : list Instr) : MW unit :=
  match Code with Op_If => runIfElseOp bt ifs els | _ => undef UB_downcast end.

Definition executeBr (Code : OpCode) (n : Z) : MW unit :=
  match Code with Op_Br => runBrOp n | Op_Br_if => runBrIfOp n | _ => undef UB_downcast end.

Definition executeBrTable (Code : OpCode) (t : list Z) (n : Z) : MW unit :=
  match Code with Op_Br_table => runBrTableOp t n | _ => undef UB_downcast end.

Definition executeCall (Code : OpCode) (n : Z) : MW unit :=
  match Code with
  | Op_Call => runCallOp n | Op_Call_indirect => runCallIndirectOp n | _ => undef UB_downcast end.

(** [drop] ignores an empty stack. *)
Definition executeParametric (Code : OpCode) : MW unit :=
  match Code with
  | Op_Drop => ignore (onStack LStack.pop)
  | Op_Select => onStack (
      let* CondVal := LStack.pop_unchecked in
      let* Val2 := LStack.pop_unchecked in
      let* Val1 := LStack.pop_unchecked in
      let* c := lift (retrieveValue U32 CondVal) in
      if c =? 0 then LStack.push Val2 else LStack.push Val1)
  | _ => undef UB_downcast
  end.

Definition executeVariable (Code : OpCode) (Index : Z) : MW unit :=
  match Code with
  | Local__get => runLocalGetOp Index
  | Local__set => runLocalSetOp Index
  | Local__tee => runLocalTeeOp Index
  | Global__get => runGlobalGetOp Index
  | Global__set => runGlobalSetOp Index
  | _ => undef UB_downcast
  end.

Definition executeMemory (Code : OpCode) (Offset : Z) : MW unit :=
  match Code with
  | I32__load => runLoadOp U32 32 Offset | I64__load => runLoadOp U64 64 Offset
  | F32__load => runLoadOp FLT 32 Offset | F64__load => runLoadOp DBL 64 Offset
  | I32__load8_s => runLoadOp S32 8 Offset | I32__load8_u => runLoadOp U32 8 Offset
  | I32__load16_s => runLoadOp S32 16 Offset | I32__load16_u => runLoadOp U32 16 Offset
  | I64__load8_s => runLoadOp S64 8 Offset | I64__load8_u => runLoadOp U64 8 Offset
  | I64__load16_s => runLoadOp S64 16 Offset | I64__load16_u => runLoadOp U64 16 Offset
  | I64__load32_s => runLoadOp S64 32 Offset | I64__load32_u => runLoadOp U64 32 Offset
  | I32__store => runStoreOp U32 32 Offset | I64__store => runStoreOp U64 64 Offset
  | F32__store => runStoreOp FLT 32 Offset | F64__store => runStoreOp DBL 64 Offset
  | I32__store8 => runStoreOp U32 8 Offset | I32__store16 => runStoreOp U32 16 Offset
  | I64__store8 => runStoreOp U64 8 Offset | I64__store16 => runStoreOp U64 16 Offset
  | I64__store32 => runStoreOp U64 32 Offset
  | Memory__grow => runMemoryGrowOp
  | Memory__size => runMemorySizeOp
  | _ => undef UB_downcast
  end.

Definition executeConst (ConstValue : ValVariant) : MW unit := onStack (LStack.push ConstValue).

(** There is no case for [f32.trunc] and [f64.trunc]. *)
Definition unary_op (Code : OpCode) : option (ValVariant -> res ValVariant) :=
  match Code with
  | I32__eqz => Some (runEqzOp U32) | I64__eqz => Some (runEqzOp U64)
  | I32__clz => Some (runClzOp U32) | I32__ctz => Some (runCtzOp U32)
  | I32__popcnt => Some (runPopcntOp U32)
  | I64__clz => Some (runClzOp U64) | I64__ctz => Some (runCtzOp U64)
  | I64__popcnt => Some (runPopcntOp U64)
  | F32__abs => Some (runAbsOp FLT) | F32__neg => Some (runNegOp FLT)
  | F32__ceil => Some (runCeilOp FLT) | F32__floor => Some (runFloorOp FLT)
  | F32__nearest => Some (runNearestOp FLT) | F32__sqrt => Some (runSqrtOp FLT)
  | F64__abs => Some (runAbsOp DBL) | F64__neg => Some (runNegOp DBL)
  | F64__ceil => Some (runCeilOp DBL) | F64__floor => Some (runFloorOp DBL)
  | F64__nearest => Some (runNearestOp DBL) | F64__sqrt => Some (runSqrtOp DBL)
  | I32__wrap_i64 => Some (runWrapOp U64 U32)
  | I32__trunc_f32_s => Some (runTruncateOp FLT S32) | I32__trunc_f32_u => Some (runTruncateOp FLT U32)
  | I32__trunc_f64_s => Some (runTruncateOp DBL S32) | I32__trunc_f64_u => Some (runTruncateOp DBL U32)
  | I64__extend_i32_s => Some (runExtendOp S32 U64) | I64__extend_i32_u => Some (runExtendOp U32 U64)
  | I64__trunc_f32_s => Some (runTruncateOp FLT S64) | I64__trunc_f32_u => Some (runTruncateOp FLT U64)
  | I64__trunc_f64_s => Some (runTruncateOp DBL S64) | I64__trunc_f64_u => Some (runTruncateOp DBL U64)
  | F32__convert_i32_s => Some (runConvertOp S32 FLT) | F32__convert_i32_u => Some (runConvertOp U32 FLT)
  | F32__convert_i64_s => Some (runConvertOp S64 FLT) | F32__convert_i64_u => Some (runConvertOp U64 FLT)
  | F32__demote_f64 => Some (runDemoteOp DBL FLT)
  | F64__convert_i32_s => Some (runConvertOp S32 DBL) | F64__convert_i32_u => Some (runConvertOp U32 DBL)
  | F64__convert_i64_s => Some (runConvertOp S64 DBL) | F64__convert_i64_u => Some (runConvertOp U64 DBL)
  | F64__promote_f32 => Some (runPromoteOp FLT DBL)
  | I32__reinterpret_f32 => Some (runReinterpretOp FLT U32)
  | I64__reinterpret_f64 => Some (runReinterpretOp DBL U64)
  | F32__reinterpret_i32 => Some (runReinterpretOp U32 FLT)
  | F64__reinterpret_i64 => Some (runReinterpretOp U64 DBL)
  | _ => None
  end.

Definition executeUnary (Code : OpCode) : MW unit := onStack (
  let* Val := LStack.getTop in
  match unary_op Code with
  | Some f => let* v := lift (f Val) in LStack.setTop v
  | None => undef UB_downcast
  end).

Definition binary_op (Code : OpCode) : option (ValVariant -> ValVariant -> res ValVariant) :=
  match Code with
  | I32__eq => Some (runEqOp U32) | I32__ne => Some (runNeOp U32)
  | I32__lt_s => Some (runLtOp S32) | I32__lt_u => Some (runLtOp U32)
  | I32__gt_s => Some (runGtOp S32) | I32__gt_u => Some (runGtOp U32)
  | I32__le_s => Some (runLeOp S32) | I32__le_u => Some (runLeOp U32)
  | I32__ge_s => Some (runGeOp S32) | I32__ge_u => Some (runGeOp U32)
  | I64__eq => Some (runEqOp U64) | I64__ne => Some (runNeOp U64)
  | I64__lt_s => Some (runLtOp S64) | I64__lt_u => Some (runLtOp U64)
  | I64__gt_s => Some (runGtOp S64) | I64__gt_u => Some (runGtOp U64)
  | I64__le_s => Some (runLeOp S64) | I64__le_u => Some (runLeOp U64)
  | I64__ge_s => Some (runGeOp S64) | I64__ge_u => Some (runGeOp U64)
  | F32__eq => Some (runEqOp FLT) | F32__ne => Some (runNeOp FLT) | F32__lt => Some (runLtOp FLT)
  | F32__gt => Some (runGtOp FLT) | F32__le => Some (runLeOp FLT) | F32__ge => Some (runGeOp FLT)
  | F64__eq => Some (runEqOp DBL) | F64__ne => Some (runNeOp DBL) | F64__lt => Some (runLtOp DBL)
  | F64__gt => Some (runGtOp DBL) | F64__le => Some (runLeOp DBL) | F64__ge => Some (runGeOp DBL)
  | I32__add => Some (runAddOp U32) | I32__sub => Some (runSubOp U32) | I32__mul => Some (runMulOp U32)
  | I32__div_s => Some (runDivOp S32) | I32__div_u => Some (runDivOp U32)
  | I32__rem_s => Some (runRemOp S32) | I32__rem_u => Some (runRemOp U32)
  | I32__and => Some (runAndOp U32) | I32__or => Some (runOrOp U32) | I32__xor => Some (runXorOp U32)
  | I32__shl => Some (runShlOp U32) | I32__shr_s => Some (runShrOp S32) | I32__shr_u => Some (runShrOp U32)
  | I32__rotl => Some (runRotlOp U32) | I32__rotr => Some (runRotrOp U32)
  | I64__add => Some (runAddOp U64) | I64__sub => Some (runSubOp U64) | I64__mul => Some (runMulOp U64)
  | I64__div_s => Some (runDivOp S64) | I64__div_u => Some (runDivOp U64)
  | I64__rem_s => Some (runRemOp S64) | I64__rem_u => Some (runRemOp U64)
  | I64__and => Some (runAndOp U64) | I64__or => Some (runOrOp U64) | I64__xor => Some (runXorOp U64)
  | I64__shl => Some (runShlOp U64) | I64__shr_s => Some (runShrOp S64) | I64__shr_u => Some (runShrOp U64)
  | I64__rotl => Some (runRotlOp U64) | I64__rotr => Some (runRotrOp U64)
  | F32__add => Some (runAddOp FLT) | F32__sub => Some (runSubOp FLT) | F32__mul => Some (runMulOp FLT)
  | F32__div => Some (runDivOp FLT) | F32__min => Some (runMinOp FLT) | F32__max => Some (runMaxOp FLT)
  | F32__copysign => Some (runCopysignOp FLT)
  | F64__add => Some (runAddOp DBL) | F64__sub => Some (runSubOp DBL) | F64__mul => Some (runMulOp DBL)
  | F64__div => Some (runDivOp DBL) | F64__min => Some (runMinOp DBL) | F64__max => Some (runMaxOp DBL)
  | F64__copysign => Some (runCopysignOp DBL)
  | _ => None
  end.

(** The operand popped is read by every operation. *)
Definition executeBinary (Code : OpCode) : MW unit := onStack (
  let* Val2 := LStack.pop_unchecked in
  let* Val1 := LStack.getTop in
  match binary_op Code with
  | Some f => let* v := lift (f Val1 Val2) in LStack.setTop v
  | None => undef UB_downcast
  end).

(** The dispatch of the run loop. *)
Definition dispatch (i : Instr) : MW unit :=
  match dispatchInstruction (getOpCode i) with
  | None => throw Unimplemented
  | Some cl =>
      if bool_decide (cl <> node_class i) then undef UB_downcast
      else match i with
      | ControlInstruction Code => executeControl Code
      | BlockControlInstruction Code bt body => executeBlock Code bt body i
      | IfElseControlInstruction Code bt ifs els => executeIfElse Code bt ifs els
      | BrControlInstruction Code n => executeBr Code n
      | BrTableControlInstruction Code t n => executeBrTable Code t n
      | CallControlInstruction Code n => executeCall Code n
      | ParametricInstruction Code => executeParametric Code
      | VariableInstruction Code n => executeVariable Code n
      | MemoryInstruction Code _ o => executeMemory Code o
      | ConstInstruction _ v => executeConst v
      | UnaryNumericInstruction Code => executeUnary Code
      | BinaryNumericInstruction Code => executeBinary Code
      end
  end.

(** [execute()].  An iteration either sets [Status], or leaves the function from inside the
    loop when the cost of an instruction is not covered: [inr tt]. *)
Definition step : MW (unit + unit) :=
  let* next := onPdr LProv.getNextInstr in
  match next with
  | None =>
      let* t := onPdr LProv.getTopScopeType in
      match t with
      | LProv.FunctionCall => returnFunction
      | LProv.Block => leaveBlock
      | LProv.Expression => onPdr LProv.popInstrs
      end ;;; ret (inl tt)
  | Some Instr =>
      modify (fun w => set_Cnt (wrap 64 (ExecInstrCnt w + 1)) w) ;;;
      let* c := costOf (byte_of_OpCode (getOpCode Instr)) in
      let* r := try (charge c Revert) in
      match r with
      | inr _ => ret (inr tt)
      | inl _ => dispatch Instr ;;; ret (inl tt)
      end
  end.

(** The loop returns the status it ends with and whether it left [execute] from inside. *)
Fixpoint loop (fuel : nat) : MW (bool * (unit + ErrCode)) :=
  let* n := onPdr LProv.getScopeSize in
  if n =? 0 then ret (false, inl tt)
  else match fuel with
  | O => nofuel
  | S fuel' =>
      let* r := try step in
      match r with
      | inr Status => ret (false, inr Status)
      | inl (inr _) => ret (true, inr Revert)
      | inl (inl _) => loop fuel'
      end
  end.

(** [return Status]. *)
Definition done (Status : unit + ErrCode) : MW unit :=
  match Status with inl _ => ret tt | inr e => throw e end.

Definition execute (fuel : nat) : MW unit :=
  let* st := gets TheState in
  if bool_decide (st = StUnreachable) then throw Unreachable
  else if bool_decide (st <> CodeSet) then throw WrongWorkerFlow
  else
    modify (set_State Active) ;;;
    let* r := loop fuel in
    if r.1 : bool then done r.2
    else
      let* st := gets TheState in
      if bool_decide (st = StUnreachable) then throw Unreachable
      else modify (set_State Inited) ;;; done r.2.

Definition runExpression (fuel : nat) (Instrs : list Instr) : MW unit :=
  let* st := gets TheState in
  if bool_decide (st <> Inited) then throw WrongWorkerFlow
  else
    onPdr (LProv.pushInstrs LProv.Expression Instrs) ;;;
    modify (set_State CodeSet) ;;;
    execute fuel.

Definition runStartFunction (fuel : nat) (FuncAddr : Z) : MW unit :=
  let* st := gets TheState in
  if bool_decide (st <> Inited) then throw WrongWorkerFlow
  else
    invokeFunction FuncAddr ;;;
    modify (set_State CodeSet) ;;;
    let* r := try (execute fuel) in
    match r with
    | inl _ => ret tt
    | inr Status => if bool_decide (Status = Terminated) then ret tt else throw Status
    end.

Definition reset : MW unit :=
  modify (set_State Inited) ;;;
  onPdr LProv.reset ;;;
  onStack LStack.reset ;;;
  modify (set_Cnt 0).

End Worker.
Arguments Worker : clear implicits.
End Worker.
