(* ===== verification/LegacyExecutor.v ===== *)
(** * The first generation executor: include/executor/executor.h, lib/executor/executor.cpp,
    lib/executor/instantiate/*.cpp

    The executor owns the engine, the stack, the store and the host functions; the record
    [Worker] holds them all, since the engine refers to each of them.  [ModInst] is a
    pointer into the store: the model keeps the address.

    A snapshot is a JSON document.  The libraries that print and read it are not part of
    the sources: rapidjson documents are modelled by the members the code reads, each an
    array of pairs of an index and a string, and the printing functions of boost are
    parameters. *)
From stdpp Require Import base list numbers option strings.
From Stdlib Require Import ZArith Lia.
From S2P Require Import Prelude Types Instruction AST Numeric Memory StackMgr Runtime.
From S2P Require Import HostFunc CString LegacyRuntime LegacyWorker.
#[local] Open Scope Z_scope.

(** ** Snapshots *)

(** The members of a document, in the order they were added. *)
Definition JDoc : Type := list (list Z * list (Z * list Z)).
Definition FindMember (Name : list Z) (Doc : JDoc) : option (list (Z * list Z)) :=
  snd <$> (snd <$> list_find (fun m => m.1 = Name) Doc).
Definition AddMember (Name : list Z) (v : list (Z * list Z)) (Doc : JDoc) : JDoc :=
  Doc ++ [(Name, v)].

Module Exec.

Inductive State : Set := Inited | ModuleSet | Instantiated | ArgsSet | Executed | Finished.

#[global] Instance State_eq_dec : EqDecision State.
Proof. solve_decision. Defined.

Section Exec.
Context {H : Type}.

Record Executor : Type := mkExecutor {
  Stat : State;
  StartFunc : list Z;
  Mod : option AModule;
  ModInst : option Z;
  Engine : Worker.Worker H
}.

#[local] Abbreviation ME := (M Executor).

Definition set_Stat (x : State) (e : Executor) : Executor :=
  mkExecutor x (StartFunc e) (Mod e) (ModInst e) (Engine e).
Definition set_StartFunc (x : list Z) (e : Executor) : Executor :=
  mkExecutor (Stat e) x (Mod e) (ModInst e) (Engine e).
Definition set_Mod (x : option AModule) (e : Executor) : Executor :=
  mkExecutor (Stat e) (StartFunc e) x (ModInst e) (Engine e).
Definition set_ModInst (x : option Z) (e : Executor) : Executor :=
  mkExecutor (Stat e) (StartFunc e) (Mod e) x (Engine e).
Definition set_Engine (x : Worker.Worker H) (e : Executor) : Executor :=
  mkExecutor (Stat e) (StartFunc e) (Mod e) (ModInst e) x.

(** The constructors of the executor and of its engine: the cost table is the one the
    environment manager has then. *)
Definition newExecutor (Env_ : Env.EnvironmentManager H) : res Executor :=
  let? t := Env.getCostTable Env_ in
  Ok (mkExecutor Inited [] None None
        (Worker.mkWorker LStore.newStoreManager newStackManager [] Env_ Worker.Inited [] 0 t)).

Definition onEngine {A} (m : M (Worker.Worker H) A) : ME A := zoom Engine set_Engine m.
Definition onStack {A} (m : M StackManager A) : ME A := onEngine (Worker.onStack m).
Definition onStore {A} (f : LStore.StoreManager -> A * LStore.StoreManager) : ME A :=
  onEngine (Worker.onStore f).
Definition store : ME LStore.StoreManager := gets (fun e => Worker.StoreMgr (Engine e)).
Definition modStore (f : LStore.StoreManager -> LStore.StoreManager) : ME unit :=
  onStore (fun s => (tt, f s)).

(** [ModInst->...] *)
Definition modInst : ME (Z * LMod.ModuleInstance) := fun e =>
  match ModInst e with
  | None => (Undef UB_deref, e)
  | Some a =>
      match LStore.getModule a (Worker.StoreMgr (Engine e)) with
      | Ok m => (Ok (a, m), e)
      | _ => (Undef UB_deref, e)
      end
  end.
Definition updMod (f : LMod.ModuleInstance -> LMod.ModuleInstance) : ME unit :=
  let* am := modInst in modStore (LStore.putModule am.1 (f am.2)).
Definition updModM {A} (f : M LMod.ModuleInstance A) : ME A :=
  let* am := modInst in
  let '(r, m) := f am.2 in
  modStore (LStore.putModule am.1 m) ;;; lift r.

Definition on_section {A} (Sec : option A) (f : A -> ME unit) : ME unit :=
  match Sec with Some c => f c | None => ret tt end.

(** ** instantiate/type.cpp *)

Definition instantiateTypes (TypeSec : list FunctionType) : ME unit :=
  mapM_ (fun FuncType => updMod (LMod.addFuncType (ParamTypes FuncType) (ReturnTypes FuncType))) TypeSec.

(** ** instantiate/import.cpp *)

Definition instantiateImport (ImpDesc : ImportDesc) : ME unit :=
  let ModName_ := ModName ImpDesc in
  let ExtName := ImpExtName ImpDesc in
  let* st := store in
  match ImpExtType ImpDesc with
  | Ext_Function =>
      let* FuncInst := lift (LStore.findFunction ModName_ ExtName st) in
      let* TypeIdx := lift (getContentFunction ImpDesc) in
      let* am := modInst in
      let* TargetType := lift (LMod.getFuncType TypeIdx am.2) in
      match LFunc.FuncType (obj FuncInst) with
      | None => undef UB_deref
      | Some FuncType =>
          if bool_decide (Params FuncType <> Params TargetType) ||
             bool_decide (Returns FuncType <> Returns TargetType)
          then throw TypeNotMatch
          else updMod (LMod.addFuncAddr (Addr (ent FuncInst)))
      end
  | Ext_Table =>
      let* TabInst := lift (LStore.findTable ModName_ ExtName st) in
      updMod (LMod.addTableAddr (Addr (ent TabInst)))
  | Ext_Memory =>
      let* MemInst := lift (LStore.findMemory ModName_ ExtName st) in
      updMod (LMod.addMemAddr (Addr (ent MemInst)))
  | Ext_Global =>
      let* GlobInst := lift (LStore.findGlobal ModName_ ExtName st) in
      updMod (LMod.addGlobalAddr (Addr (ent GlobInst)))
  end.

(** ** instantiate/function.cpp *)

(** [setInstrs] moves the body out of the [I]-th code segment. *)
Definition moved (c : CodeSegment) : CodeSegment := mkCodeSegment (SegSize c) (CodeLocals c) [].
Definition moveCode (I : nat) : ME unit := modify (fun e =>
  match Mod e with
  | None => e
  | Some m =>
      match CodeSec m with
      | None => e
      | Some segs => set_Mod (Some (set_CodeSec (alter moved I segs) m)) e
      end
  end).

Definition newFunction (ModAddr_ : Z) (FuncType : FType) (Seg : CodeSegment)
    : res LFunc.FunctionInstance :=
  ((LFunc.setModuleAddr ModAddr_ ;;;
    LFunc.setFuncType FuncType ;;;
    LFunc.setLocals (CodeLocals Seg) ;;;
    LFunc.setInstrs (CodeExpr Seg) ;;; get) (LFunc.newFunctionInstance false)).1.

(** The loop stops at the end of either list. *)
Fixpoint instantiateFunctions (I : nat) (TypeIdxs : list Z) (CodeSegs : list CodeSegment) : ME unit :=
  match CodeSegs, TypeIdxs with
  | Seg :: CodeSegs', TypeIdx :: TypeIdxs' =>
      let* am := modInst in
      let* FuncType := lift (LMod.getFuncType TypeIdx am.2) in
      let* NewFuncInst := lift (newFunction (LMod.MAddr am.2) FuncType Seg) in
      moveCode I ;;;
      let* NewFuncInstId := onStore (LStore.insertFunctionInst (mkNamed newEntity NewFuncInst)) in
      updMod (LMod.addFuncAddr NewFuncInstId) ;;;
      instantiateFunctions (S I) TypeIdxs' CodeSegs'
  | _, _ => ret tt
  end.

(** ** instantiate/global.cpp *)

Definition popModule : ME unit :=
  let* st := store in
  let* st' := lift (LStore.popModuleInst st) in modStore (fun _ => st').

(** The addresses of the new globals, which are all the temporary module has. *)
Fixpoint addGlobals (TmpMod : LMod.ModuleInstance) (GlobSegs : list GlobalSegment)
    : ME LMod.ModuleInstance :=
  match GlobSegs with
  | [] => ret TmpMod
  | Seg :: GlobSegs' =>
      let NewGlobInst := LGlob.newGlobalInstance (GlobValType (Global Seg)) (GlobMut (Global Seg)) in
      let* NewGlobInstId := onStore (LStore.insertGlobalInst (mkNamed newEntity NewGlobInst)) in
      updMod (LMod.addGlobalAddr NewGlobInstId) ;;;
      addGlobals (LMod.addGlobalAddr NewGlobInstId TmpMod) GlobSegs'
  end.

Definition popValue : ME ValVariant := onStack LStack.pop_unchecked.

Definition initGlobal (fuel : nat) (GlobalAddr : Z) (GlobSeg : GlobalSegment) : ME unit :=
  onEngine (Worker.runExpression fuel (GlobExpr GlobSeg)) ;;;
  let* PopVal := popValue in
  let* st := store in
  let* GlobInst := deref (lift (LStore.getGlobal GlobalAddr st)) in
  modStore (LStore.putGlobal GlobalAddr (set_obj (LGlob.setValue PopVal (obj GlobInst)) GlobInst)).

Definition instantiateGlobals (fuel : nat) (GlobSec : list GlobalSegment) : ME unit :=
  let* TmpMod := addGlobals LMod.newModuleInstance GlobSec in
  let* TmpModInstId := onStore (LStore.insertModuleInst TmpMod) in
  onStack (LStack.pushFrame TmpModInstId 0 0) ;;;
  mapM_ (fun p => initGlobal fuel p.1 p.2) (zip (LMod.GlobalAddrs TmpMod) GlobSec) ;;;
  onStack LStack.popFrame ;;;
  popModule.

(** ** instantiate/table.cpp *)

Definition addTable (TabType_ : TableType) : ME unit :=
  let Lim := Table TabType_ in
  let NewTabInst := LTab.setLimit (Min Lim) (hasMax Lim) (Max Lim)
                      (LTab.setElemType (TabElemType TabType_) LTab.newTableInstance) in
  let* NewTabInstId := onStore (LStore.insertTableInst (mkNamed newEntity NewTabInst)) in
  updMod (LMod.addTableAddr NewTabInstId).

Fixpoint func_addrs (m : LMod.ModuleInstance) (FuncIdxList : list Z) : ME (list Z) :=
  match FuncIdxList with
  | [] => ret []
  | Idx :: l =>
      let* FuncAddr := lift (LMod.getFuncAddr Idx m) in
      let* r := func_addrs m l in ret (FuncAddr :: r)
  end.

(** The status of [setInitList] is dropped. *)
Definition initTable (fuel : nat) (ElemSeg : ElementSegment) : ME unit :=
  onEngine (Worker.runExpression fuel (ElemExpr ElemSeg)) ;;;
  let* PopVal := popValue in
  let* Offset := lift (retrieveValue U32 PopVal) in
  let* am := modInst in
  let* TabAddr := lift (LMod.getTableAddr (TableIdx ElemSeg) am.2) in
  let* st := store in
  let* TabInst := lift (LStore.getTable TabAddr st) in
  let* FuncIdxList := func_addrs am.2 (FuncIdxes ElemSeg) in
  let '(_, t) := LTab.setInitList Offset FuncIdxList (obj TabInst) in
  modStore (LStore.putTable TabAddr (set_obj t TabInst)).

(** Without a table section the element section is skipped. *)
Definition instantiateTables (fuel : nat) (TabSec : list TableType) (ElemSec : option (list ElementSegment))
    : ME unit :=
  mapM_ addTable TabSec ;;; on_section ElemSec (mapM_ (initTable fuel)).

(** ** instantiate/memory.cpp *)

Definition addMemory (MemType : MemoryType) : ME unit :=
  let Lim := Memory MemType in
  let NewMemInst := LMem.setLimit (Min Lim) (hasMax Lim) (Max Lim) LMem.newMemoryInstance in
  let* NewMemInstId := onStore (LStore.insertMemoryInst (mkNamed newEntity NewMemInst)) in
  updMod (LMod.addMemAddr NewMemInstId).

Definition onMemory {A} (a : Z) (mem : Named MemoryInstance) (op : M MemoryInstance A) : ME A :=
  onEngine (Worker.onMem a mem op).

Definition initMemory (fuel : nat) (DataSeg : DataSegment) : ME unit :=
  onEngine (Worker.runExpression fuel (DataExpr DataSeg)) ;;;
  let* PopVal := popValue in
  let* Offset := lift (retrieveValue U32 PopVal) in
  let* am := modInst in
  let* MemAddr := lift (LMod.getMemAddr (MemoryIdx DataSeg) am.2) in
  let* st := store in
  let* MemInst := lift (LStore.getMemory MemAddr st) in
  onMemory MemAddr MemInst
    (LMem.setBytes (DataBytes DataSeg) Offset 0 (wrap 32 (sizeZ (DataBytes DataSeg)))).

Definition instantiateMemories (fuel : nat) (MemSec : list MemoryType) (DataSec : option (list DataSegment))
    : ME unit :=
  mapM_ addMemory MemSec ;;; on_section DataSec (mapM_ (initMemory fuel)).

(** ** instantiate/export.cpp *)

(** Every exported entity is renamed to an empty module name and the external name. *)
Definition rename {A} (Name : list Z) (n : Named A) : Named A := set_ent (setNames [] Name (ent n)) n.

Definition instantiateExport (ExpDesc : ExportDesc) : ME unit :=
  let ExtName := ExpExtName ExpDesc in
  let Idx := ExtIdx ExpDesc in
  let* am := modInst in
  let* st := store in
  match ExpExtType ExpDesc with
  | Ext_Function =>
      let* EntityAddr := lift (LMod.getFuncAddr Idx am.2) in
      let* FuncInst := lift (LStore.getFunction EntityAddr st) in
      modStore (LStore.putFunction EntityAddr (rename ExtName FuncInst)) ;;;
      let* Start := gets StartFunc in
      if bool_decide (Start <> []) && bool_decide (ExtName = Start)
      then updModM (LMod.setStartIdx Idx) else ret tt
  | Ext_Global =>
      let* EntityAddr := lift (LMod.getGlobalAddr Idx am.2) in
      let* GlobInst := lift (LStore.getGlobal EntityAddr st) in
      modStore (LStore.putGlobal EntityAddr (rename ExtName GlobInst))
  | Ext_Memory =>
      let* EntityAddr := lift (LMod.getMemAddr Idx am.2) in
      let* MemInst := lift (LStore.getMemory EntityAddr st) in
      modStore (LStore.putMemory EntityAddr (rename ExtName MemInst))
  | Ext_Table =>
      let* EntityAddr := lift (LMod.getTableAddr Idx am.2) in
      let* TabInst := lift (LStore.getTable EntityAddr st) in
      modStore (LStore.putTable EntityAddr (rename ExtName TabInst))
  end.

(** ** instantiate/module.cpp *)

Definition instantiateModule (fuel : nat) (Mod_ : option AModule) : ME unit :=
  match Mod_ with
  | None => ret tt
  | Some Mod =>
      let* ModInstAddr := onStore (LStore.insertModuleInst LMod.newModuleInstance) in
      let* st := store in
      lift (LStore.getModule ModInstAddr st) ;;;
      modify (set_ModInst (Some ModInstAddr)) ;;;
      on_section (TypeSec Mod) instantiateTypes ;;;
      on_section (ImportSec Mod) (mapM_ instantiateImport) ;;;
      match FunctionSec Mod, CodeSec Mod with
      | Some FuncSec, Some CodeSec => instantiateFunctions 0 FuncSec CodeSec
      | _, _ => ret tt
      end ;;;
      on_section (GlobalSec Mod) (instantiateGlobals fuel) ;;;
      let* am := modInst in
      onStack (LStack.pushFrame (LMod.MAddr am.2) 0 0) ;;;
      on_section (TableSec Mod) (fun TabSec => instantiateTables fuel TabSec (ElementSec Mod)) ;;;
      on_section (MemorySec Mod) (fun MemSec => instantiateMemories fuel MemSec (DataSec Mod)) ;;;
      try (onStack LStack.popFrame) ;;;
      on_section (ExportSec Mod) (mapM_ instantiateExport) ;;;
      on_section (StartSec Mod) (fun Idx => try (updModM (LMod.setStartIdx Idx)) ;;; ret tt)
  end.

(** ** executor.cpp *)

Definition setHostFunction (Func : LHost.HostFunctionBase H) : ME unit :=
  let NewFuncInst := LFunc.newFunctionInstance true in
  let names := setNames (LHost.lhModName Func) (LHost.lhFuncName Func) newEntity in
  let* NewHostFuncId := onEngine (fun w =>
    let '(a, l) := LHost.insertHostFunction Func (Worker.HostFuncMgr w) in
    (Ok a, Worker.set_HostFuncMgr l w)) in
  let* f := lift ((LFunc.setFuncType (LHost.lhType Func) ;;;
                   LFunc.setHostFuncAddr NewHostFuncId ;;; get) NewFuncInst).1 in
  onStore (LStore.insertFunctionInst (mkNamed names f)) ;;; ret tt.

Definition setStartFuncName (Name : list Z) : ME unit := modify (set_StartFunc Name).

(** [if (Stat != s) return WrongExecutorFlow;] *)
Definition require (s : State) : ME unit := fun e =>
  if bool_decide (Stat e = s) then (Ok tt, e) else (Err WrongExecutorFlow, e).

Definition setModule (Module_ : option AModule) : ME unit :=
  require Inited ;;; modify (set_Mod Module_) ;;; modify (set_Stat ModuleSet).

Definition instantiate (fuel : nat) : ME unit :=
  require ModuleSet ;;;
  let* m := gets Mod in
  instantiateModule fuel m ;;;
  modify (set_Stat Instantiated).

Definition setArgs (Args : list ValVariant) : ME unit :=
  require Instantiated ;;;
  mapM_ (fun v => onStack (LStack.push v)) Args ;;;
  modify (set_Stat ArgsSet).

Definition getMemoryAt (Idx : Z) : ME (Named MemoryInstance) :=
  let* st := store in lift (LStore.getMemory Idx st).

(** [Size] is truncated to 32 bits by the call. *)
Definition setMemoryWithBytes (Src : list Z) (DistMemIdx MemOffset Size : Z) : ME unit :=
  let* MemInst := getMemoryAt DistMemIdx in
  onMemory DistMemIdx MemInst (LMem.setBytes Src MemOffset 0 (wrap 32 Size)).

Definition getMemoryToBytes (SrcMemIdx MemOffset : Z) (Dist : list Z) (Size : Z) : ME (list Z) :=
  let* MemInst := getMemoryAt SrcMemIdx in
  onMemory SrcMemIdx MemInst (LMem.getBytes Dist MemOffset (wrap 32 Size)).

Definition getMemoryToBytesAll (SrcMemIdx : Z) (Dist : list Z) : ME (list Z * Z) :=
  let* MemInst := getMemoryAt SrcMemIdx in
  let DataPageSize := LMem.getDataPageSize (obj MemInst) in
  let* d := onMemory SrcMemIdx MemInst
              (LMem.getBytes Dist 0 (wrap 32 (sizeZ (LMem.getDataVector (obj MemInst))))) in
  ret (d, DataPageSize).

Definition setMemoryDataPageSize (SrcMemIdx DataPageSize : Z) : ME unit :=
  let* MemInst := getMemoryAt SrcMemIdx in
  modStore (LStore.putMemory SrcMemIdx
    (set_obj (LMem.setLimit DataPageSize false 0 (obj MemInst)) MemInst)).

Section Snapshot.
Context `{HexLib}.

Definition restoreGlobal (kv : Z * list Z) : ME unit :=
  let* st := store in
  let* GlobInst := lift (LStore.getGlobal kv.1 st) in
  let* x := lift (stoull16 kv.2) in
  modStore (LStore.putGlobal kv.1 (set_obj (LGlob.setValue (mkVariant U64 x) (obj GlobInst)) GlobInst)).

Definition restoreMemory (kv : Z * list Z) : ME unit :=
  let* MemInst := getMemoryAt kv.1 in
  let* MemVec := lift (unhex kv.2) in
  onMemory kv.1 MemInst (LMem.setBytes MemVec 0 0 (wrap 32 (sizeZ MemVec))).

Definition restore (Doc : JDoc) : ME unit :=
  match FindMember (chars "global") Doc with
  | Some arr => mapM_ restoreGlobal arr
  | None => ret tt
  end ;;;
  match FindMember (chars "memory") Doc with
  | Some arr => mapM_ restoreMemory arr
  | None => ret tt
  end.

(** The globals from [I] on: each is read as eight bytes. *)
Fixpoint snapshotGlobals (I : Z) (gs : list (Named GlobalInstance)) : res (list (Z * list Z)) :=
  match gs with
  | [] => Ok []
  | g :: gs' =>
      let? x := retrieveValue U64 (LGlob.getValue (obj g)) in
      let? r := snapshotGlobals (I + 1) gs' in
      Ok ((I, format_0x016llx x) :: r)
  end.

(** The memories from [I] on, without the empty ones. *)
Fixpoint snapshotMemories (I : Z) (ms : list (Named MemoryInstance)) : list (Z * list Z) :=
  match ms with
  | [] => []
  | m :: ms' =>
      let DataHex := hex_lower (LMem.getDataVector (obj m)) in
      if 0 <? sizeZ DataHex then (I, DataHex) :: snapshotMemories (I + 1) ms'
      else snapshotMemories (I + 1) ms'
  end.

Definition snapshot (Doc : JDoc) : ME JDoc :=
  let* st := store in
  let GlobCnt := LStore.getGlobalInstsCnt st in
  let* Doc1 := if 0 <? GlobCnt then
                 let* GlobArr := lift (snapshotGlobals 0 (take (Z.to_nat GlobCnt) (LStore.GlobInsts st))) in
                 ret (AddMember (chars "global") GlobArr Doc)
               else ret Doc in
  let MemCnt := LStore.getMemoryInstsCnt st in
  let MemArr := snapshotMemories 0 (take (Z.to_nat MemCnt) (LStore.MemInsts st)) in
  ret (if (0 <? MemCnt) && (0 <? sizeZ MemArr) then AddMember (chars "memory") MemArr Doc1 else Doc1).

End Snapshot.

(** [Stat] is [Executed] whatever the start function returned; without one it stays. *)
Definition run (fuel : nat) : ME unit :=
  require ArgsSet ;;;
  let* am := modInst in
  match LMod.getStartAddr am.2 with
  | Some StartAddr =>
      let* r := try (onEngine (Worker.runStartFunction fuel StartAddr)) in
      modify (set_Stat Executed) ;;;
      match r with inl _ => ret tt | inr e => throw e end
  | None => onStack LStack.reset ;;; throw CallFunctionError
  end.

(** Every value left on the stack, from the bottom. *)
Fixpoint popAll (n : nat) : M StackManager (list ValVariant) :=
  match n with
  | O => ret []
  | S n' => let* V := LStack.pop in let* vs := popAll n' in ret (vs ++ [V])
  end.
Definition getRets : ME (list ValVariant) :=
  require Executed ;;;
  let* Rets := onStack (fun s => popAll (length (ValueStack s)) s) in
  modify (set_Stat Finished) ;;; ret Rets.

Definition reset (Force : bool) : ME unit :=
  let* st := gets Stat in
  if negb Force && (bool_decide (st <> Finished) && bool_decide (st <> Executed))
  then throw WrongExecutorFlow
  else
    modify (set_Mod None) ;;;
    modify (set_ModInst None) ;;;
    onEngine Worker.reset ;;;
    onStack LStack.reset ;;;
    modStore (fun _ => LStore.reset) ;;;
    onEngine (modify (Worker.set_HostFuncMgr [])) ;;;
    modify (set_Stat Inited).

End Exec.
Arguments Executor : clear implicits.
End Exec.
