(* ===== verification/LegacyVM.v ===== *)
(** * The first generation VM: include/vm/{vm,result,common}.h, lib/vm/vm.cpp

    One call of [execute] loads, validates, instantiates and runs a module, and cleans up.
    The environment manager is the one the engine refers to.  The host functions
    [prepareVMHost] makes are the parameters [EEIFuncs] and [WasiFuncs], which LegacyWorld.v
    fills in; [fs] is the file system. *)
From stdpp Require Import base list numbers option strings.
From Stdlib Require Import ZArith Lia.
From S2P Require Import Prelude Types Instruction AST Memory FileMgr Loader FormChecker.
From S2P Require Import Validator StackMgr Runtime HostFunc.
From S2P Require Import CString LegacyRuntime LegacyWorker LegacyExecutor.
#[local] Open Scope Z_scope.

Module LVM.

(** ** common.h, result.h *)

Inductive VMErrCode : Set := VMSuccess | Failed | Invalid.

Inductive Stage : Set := StInit | StLoader | StValidator | StExecutor | StInvalid.
Inductive StorageMutability : Set := Pure | View | Modified.
Inductive RState : Set := Commit | RRevert | Fail.

#[global] Instance Stage_eq_dec : EqDecision Stage.
Proof. solve_decision. Defined.
#[global] Instance RState_eq_dec : EqDecision RState.
Proof. solve_decision. Defined.

(** [Status] is the number of an enumerator, of the enum of the stage; the model keeps the
    enumerator. *)
Record Result : Type := mkResult
  { LastStage : Stage; Status : ErrCode; StorageMut : StorageMutability; ExecutionState : RState }.

Definition newResult : Result := mkResult StInvalid Success Pure Fail.

Definition setStage (x : Stage) (r : Result) : Result :=
  mkResult x (Status r) (StorageMut r) (ExecutionState r).
Definition setStorageMut (x : StorageMutability) (r : Result) : Result :=
  mkResult (LastStage r) (Status r) x (ExecutionState r).
Definition setState (x : RState) (r : Result) : Result :=
  mkResult (LastStage r) (Status r) (StorageMut r) x.
Definition setErrCode (x : ErrCode) (r : Result) : Result :=
  mkResult (LastStage r) x (StorageMut r) (ExecutionState r).
Definition clear : Result := mkResult StInvalid Success Pure Fail.
Definition hasError (r : Result) : bool := bool_decide (Status r <> Success).

Section VM.
Context {H : Type}.

Record VM : Type := mkVM {
  WasmPath : list Z;
  WasmCode : list Z;
  InVMStore : option JDoc;       (* null or the document to restore *)
  OutVMStore : bool;             (* whether the pointer to [OutDoc] is set *)
  OutDoc : JDoc;                 (* the document of the caller *)
  LoaderEngine : Loader;
  ExecutorEngine : Exec.Executor H;
  ValidatorEngine : FormChecker;
  Mod : option AModule;
  Args : list ValVariant;
  Rets : list ValVariant;
  VMResult : Result;
  ServiceName : list Z;
  UUID : Z
}.

#[local] Abbreviation MV := (M VM).

Definition set_Wasm (p c : list Z) (v : VM) : VM :=
  mkVM p c (InVMStore v) (OutVMStore v) (OutDoc v) (LoaderEngine v) (ExecutorEngine v)
    (ValidatorEngine v) (Mod v) (Args v) (Rets v) (VMResult v) (ServiceName v) (UUID v).
Definition set_Stores (i : option JDoc) (o : bool) (d : JDoc) (v : VM) : VM :=
  mkVM (WasmPath v) (WasmCode v) i o d (LoaderEngine v) (ExecutorEngine v)
    (ValidatorEngine v) (Mod v) (Args v) (Rets v) (VMResult v) (ServiceName v) (UUID v).
Definition set_Loader (x : Loader) (v : VM) : VM :=
  mkVM (WasmPath v) (WasmCode v) (InVMStore v) (OutVMStore v) (OutDoc v) x (ExecutorEngine v)
    (ValidatorEngine v) (Mod v) (Args v) (Rets v) (VMResult v) (ServiceName v) (UUID v).
Definition set_Executor (x : Exec.Executor H) (v : VM) : VM :=
  mkVM (WasmPath v) (WasmCode v) (InVMStore v) (OutVMStore v) (OutDoc v) (LoaderEngine v) x
    (ValidatorEngine v) (Mod v) (Args v) (Rets v) (VMResult v) (ServiceName v) (UUID v).
Definition set_Validator (x : FormChecker) (v : VM) : VM :=
  mkVM (WasmPath v) (WasmCode v) (InVMStore v) (OutVMStore v) (OutDoc v) (LoaderEngine v)
    (ExecutorEngine v) x (Mod v) (Args v) (Rets v) (VMResult v) (ServiceName v) (UUID v).
Definition set_Mod (x : option AModule) (v : VM) : VM :=
  mkVM (WasmPath v) (WasmCode v) (InVMStore v) (OutVMStore v) (OutDoc v) (LoaderEngine v)
    (ExecutorEngine v) (ValidatorEngine v) x (Args v) (Rets v) (VMResult v) (ServiceName v) (UUID v).
Definition set_Args (x : list ValVariant) (v : VM) : VM :=
  mkVM (WasmPath v) (WasmCode v) (InVMStore v) (OutVMStore v) (OutDoc v) (LoaderEngine v)
    (ExecutorEngine v) (ValidatorEngine v) (Mod v) x (Rets v) (VMResult v) (ServiceName v) (UUID v).
Definition set_Rets (x : list ValVariant) (v : VM) : VM :=
  mkVM (WasmPath v) (WasmCode v) (InVMStore v) (OutVMStore v) (OutDoc v) (LoaderEngine v)
    (ExecutorEngine v) (ValidatorEngine v) (Mod v) (Args v) x (VMResult v) (ServiceName v) (UUID v).
Definition set_Result (x : Result) (v : VM) : VM :=
  mkVM (WasmPath v) (WasmCode v) (InVMStore v) (OutVMStore v) (OutDoc v) (LoaderEngine v)
    (ExecutorEngine v) (ValidatorEngine v) (Mod v) (Args v) (Rets v) x (ServiceName v) (UUID v).

(** The constructor; [UUID] has no initialiser. *)
Definition newVM (InputConfig : Cfg.Configure) (envs : H) : res VM :=
  let? e := Exec.newExecutor (Env.newEnvironmentManager InputConfig envs) in
  Ok (mkVM [] [] None false [] newLoader e newFormChecker None [] [] newResult [] 0).

Definition onExec {A} (m : M (Exec.Executor H) A) : MV A := zoom ExecutorEngine set_Executor m.
Definition onResult (f : Result -> Result) : MV unit := modify (fun v => set_Result (f (VMResult v)) v).
Definition envMgr (v : VM) : Env.EnvironmentManager H := Worker.EnvMgr (Exec.Engine (ExecutorEngine v)).
Definition onEnv (f : Env.EnvironmentManager H -> Env.EnvironmentManager H) : MV unit :=
  onExec (Exec.onEngine (modify (fun w => Worker.set_EnvMgr (f (Worker.EnvMgr w)) w))).

(** ** vm.h *)

Definition setHostFunction (Func : LHost.HostFunctionBase H) : MV VMErrCode :=
  let* r := try (onExec (Exec.setHostFunction Func)) in
  ret (match r with inl _ => VMSuccess | inr _ => Failed end).

Definition appendArgument (Val : ValVariant) : MV VMErrCode :=
  modify (fun v => set_Args (Args v ++ [Val]) v) ;;; ret VMSuccess.
Definition getReturnValue : MV (list ValVariant) := gets Rets.
Definition setCostLimit (Limit : Z) : MV unit := onEnv (Env.setCostLimit Limit).
Definition getCostLimit : MV Z := gets (fun v => Env.CostLimit (envMgr v)).
Definition getUsedCost : MV Z := gets (fun v => Env.CostSum (envMgr v)).
Definition setVMStore (InStore OutStore : JDoc) : MV unit :=
  modify (set_Stores (Some InStore) true OutStore).

(** The statuses of the memory helpers are dropped. *)
Definition setMemoryWithBytes (Src : list Z) (DistMemIdx MemOffset Size : Z) : MV unit :=
  try (onExec (Exec.setMemoryWithBytes Src DistMemIdx MemOffset Size)) ;;; ret tt.
Definition getMemoryToBytes (SrcMemIdx MemOffset : Z) (Dist : list Z) (Size : Z) : MV (list Z) :=
  let* r := try (onExec (Exec.getMemoryToBytes SrcMemIdx MemOffset Dist Size)) in
  ret (match r with inl d => d | inr _ => Dist end).
Definition setMemoryDataPageSize (SrcMemIdx DataPageSize : Z) : MV unit :=
  try (onExec (Exec.setMemoryDataPageSize SrcMemIdx DataPageSize)) ;;; ret tt.

(** ** vm.cpp *)

(** [detail::testAndSetError(Status, VMResult)] on the status of a call. *)
Definition testAndSetError {A} (m : M (Exec.Executor H) A) : MV (option A) :=
  let* r := try (onExec m) in
  match r with
  | inl a => ret (Some a)
  | inr e => onResult (setErrCode e) ;;; ret None
  end.

Definition setPath (FilePath : list Z) : MV VMErrCode := modify (set_Wasm FilePath []) ;;; ret VMSuccess.
Definition setCode (Code : list Z) : MV VMErrCode := modify (set_Wasm [] Code) ;;; ret VMSuccess.

Section Run.
Context (EEIFuncs WasiFuncs : list (LHost.HostFunctionBase H)) (fs : list Z -> option (list Z)).
Context `{HexLib}.

(** [if (Status == ErrCode::Success) Status = setHostFunction(...)] for each of them. *)
Fixpoint setHostFunctions (st : VMErrCode) (l : list (LHost.HostFunctionBase H)) : MV VMErrCode :=
  match l with
  | [] => ret st
  | f :: l' =>
      match st with
      | VMSuccess => let* st' := setHostFunction f in setHostFunctions st' l'
      | _ => ret st
      end
  end.

Definition prepareVMHost : MV VMErrCode :=
  let* c := gets (fun v => Env.Config (envMgr v)) in
  let* st := if Cfg.hasVMType Cfg.Ewasm c then setHostFunctions VMSuccess EEIFuncs else ret VMSuccess in
  if Cfg.hasVMType Cfg.Wasi c then setHostFunctions st WasiFuncs else ret st.

Definition initVMEnv : MV unit :=
  modify (set_Rets []) ;;; onResult (fun _ => clear) ;;; prepareVMHost ;;; ret tt.

(** [ExecutorEngine.reset()] is not forced, and its status is dropped. *)
Definition cleanup : MV unit :=
  try (onExec (Exec.reset false)) ;;;
  modify (set_Mod None) ;;;
  modify (set_Args []) ;;;
  modify (fun v => set_Stores None false (OutDoc v) v).

Definition parse (fuel : nat) : MV AModule :=
  let* v := get in
  if bool_decide (WasmPath v = [])
  then zoom LoaderEngine set_Loader (onFVMgr (parseModule fuel (WasmCode v)))
  else zoom LoaderEngine set_Loader (onFSMgr (parseModulePath fs fuel (WasmPath v))).

Definition loadWasm (fuel : nat) : MV VMErrCode :=
  onResult (setStage StLoader) ;;;
  let* Res := try (parse fuel) in
  match Res with
  | inr e => onResult (setErrCode e) ;;; ret Failed
  | inl m => modify (set_Mod (Some m)) ;;; ret VMSuccess
  end.

Definition validate : MV VMErrCode :=
  onResult (setStage StValidator) ;;;
  let* v := get in
  match Mod v with
  | None => undef UB_deref
  | Some m =>
      let* Res := try (zoom ValidatorEngine set_Validator (Validator.validate m)) in
      match Res with
      | inr e => onResult (setErrCode e) ;;; ret Failed
      | inl _ => ret VMSuccess
      end
  end.

(** [ExecutorEngine.setModule(Mod)] moves the module out when it is accepted. *)
Definition instantiate (fuel : nat) : MV VMErrCode :=
  onResult (setStage StExecutor) ;;;
  let* m := gets Mod in
  let* r := testAndSetError (Exec.setModule m) in
  match r with Some _ => modify (set_Mod None) | None => ret tt end ;;;
  let* v := get in
  (if hasError (VMResult v) then ret tt
   else testAndSetError (Exec.instantiate fuel) ;;; ret tt) ;;;
  let* v := get in
  ret (if hasError (VMResult v) then Failed else VMSuccess).

Definition unless_error (k : MV unit) : MV unit :=
  let* v := get in if hasError (VMResult v) then ret tt else k.

(** [setArgs] clears the arguments when it is accepted. *)
Definition runWasm (fuel : nat) : MV VMErrCode :=
  let* a := gets Args in
  let* r := testAndSetError (Exec.setArgs a) in
  match r with Some _ => modify (set_Args []) | None => ret tt end ;;;
  unless_error (
    let* v := get in
    match InVMStore v with
    | Some Doc => testAndSetError (Exec.restore Doc) ;;; ret tt
    | None => ret tt
    end) ;;;
  unless_error (
    testAndSetError (Exec.run fuel) ;;;
    let* v := get in
    if bool_decide (Status (VMResult v) = Revert) then onResult (setState RRevert) else ret tt) ;;;
  unless_error (
    let* v := get in
    if OutVMStore v then
      let* r := testAndSetError (Exec.snapshot (OutDoc v)) in
      match r with
      | Some d => modify (fun v => set_Stores (InVMStore v) (OutVMStore v) d v)
      | None => ret tt
      end
    else ret tt) ;;;
  unless_error (
    let* r := testAndSetError Exec.getRets in
    match r with Some rs => modify (set_Rets rs) | None => ret tt end) ;;;
  let* v := get in
  if hasError (VMResult v) then ret Failed
  else onResult (setState Commit) ;;; ret VMSuccess.

Definition setEntryFuncName (FuncName : list Z) : MV unit :=
  let* v := get in
  onExec (Exec.setStartFuncName
    (if bool_decide (FuncName = []) then Cfg.StartFuncName (Env.Config (envMgr v)) else FuncName)).

Definition execute (fuel : nat) (FuncName : list Z) : MV VMErrCode :=
  initVMEnv ;;;
  loadWasm fuel ;;;
  unless_error (validate ;;; ret tt) ;;;
  setEntryFuncName FuncName ;;;
  unless_error (instantiate fuel ;;; ret tt) ;;;
  unless_error (runWasm fuel ;;; ret tt) ;;;
  cleanup ;;;
  let* v := get in
  ret (if hasError (VMResult v) then Failed else VMSuccess).

End Run.

End VM.
Arguments VM : clear implicits.
End LVM.
