(* ===== verification/LegacyFacts.v ===== *)
(** * Facts about the first generation executor and VM

    The executor is a state machine whose calls are accepted in one state each; the VM on
    top of it runs the whole machine in one call of [execute], and resets it only when it
    reached its end. *)
From stdpp Require Import base list numbers option strings.
From Stdlib Require Import ZArith Lia.
From S2P Require Import Prelude Types Instruction AST Memory FileMgr Loader FormChecker.
From S2P Require Import Validator StackMgr Runtime HostFunc HexStr CString.
From S2P Require Import LegacyRuntime LegacyWorker LegacyExecutor LegacyVM.
#[local] Open Scope Z_scope.

(** ** Invariants of computations *)

(** After [m] it is still [P], whatever its outcome. *)
Definition stays {S A} (P : S -> Prop) (m : M S A) : Prop := forall s, P s -> P (m s).2.

Section Keeps.
Context {S : Type} (P : S -> Prop).

Lemma stays_ret {A} (a : A) : stays P (ret a). Proof. by intros s. Qed.
Lemma stays_throw {A} e : stays P (throw (A := A) e). Proof. by intros s. Qed.
Lemma stays_undef {A} u : stays P (undef (A := A) u). Proof. by intros s. Qed.
Lemma stays_lift {A} (r : res A) : stays P (lift r). Proof. by intros s. Qed.
Lemma stays_get : stays P get. Proof. by intros s. Qed.
Lemma stays_gets {A} (f : S -> A) : stays P (gets f). Proof. by intros s. Qed.
Lemma stays_bind {A B} (m : M S A) (k : A -> M S B) :
  stays P m -> (forall a, stays P (k a)) -> stays P (bind m k).
Proof.
  intros Hm Hk s Hs. unfold bind. specialize (Hm s Hs).
  destruct (m s) as [[a|e|u|] t]; cbn in *; [by apply Hk|done..].
Qed.
Lemma stays_try {A} (m : M S A) : stays P m -> stays P (try m).
Proof. intros Hm s Hs. unfold try. specialize (Hm s Hs). by destruct (m s) as [[a|e|u|] t]. Qed.
Lemma stays_deref {A} (m : M S A) : stays P m -> stays P (deref m).
Proof. intros Hm s Hs. unfold deref. specialize (Hm s Hs). by destruct (m s) as [[] ?]. Qed.
Lemma stays_modify (f : S -> S) : (forall s, P s -> P (f s)) -> stays P (modify f).
Proof. intros Hf s. apply Hf. Qed.
Lemma stays_zoom {T A} (g : S -> T) (p : T -> S -> S) (m : M T A) :
  (forall t s, P s -> P (p t s)) -> stays P (zoom g p m).
Proof. intros Hp s Hs. unfold zoom. destruct (m (g s)). by apply Hp. Qed.
Lemma stays_mapM {A} (f : A -> M S unit) l : (forall x, stays P (f x)) -> stays P (mapM_ f l).
Proof. intros Hf. induction l; [apply stays_ret|]. apply stays_bind; [apply Hf|done]. Qed.

End Keeps.

#[export] Hint Resolve stays_ret stays_throw stays_undef stays_lift stays_get stays_gets : ssvm.

(** One step of a proof of [stays]. *)
Ltac keep_step :=
  match goal with
  | |- stays _ (bind _ _) => apply stays_bind; [|intros ?]
  | |- stays _ (try _) => apply stays_try
  | |- stays _ (modify _) => apply stays_modify
  | |- stays _ (mapM_ _ _) => apply stays_mapM; intros ?
  | |- stays _ (match ?x with _ => _ end) => destruct x
  | |- stays _ (let '(_, _) := ?x in _) => destruct x
  end.
Ltac keep := repeat keep_step; try (by auto with ssvm).

(** A part of the state that no step of a run changes. *)
Definition fixes {S A T} (f : S -> T) (m : M S A) : Prop := forall s, f (m s).2 = f s.

Lemma stays_fixes {S A T} (f : S -> T) (m : M S A) : (forall x, stays (fun s => f s = x) m) -> fixes f m.
Proof. intros Hm s. by apply Hm. Qed.
Lemma fixes_stays {S A T} (f : S -> T) (m : M S A) x : fixes f m -> stays (fun s => f s = x) m.
Proof. intros Hm s Hs. by rewrite Hm. Qed.

(** ** The executor *)

Section Exec.
Context {H : Type}.

(** [Stat] is written by the calls of the state machine only. *)
Lemma onEngine_stat {A} (m : M (Worker.Worker H) A) : fixes Exec.Stat (Exec.onEngine m).
Proof. intros e. unfold Exec.onEngine, zoom. by destruct (m (Exec.Engine e)). Qed.
Lemma modInst_stat : fixes (A := Z * LMod.ModuleInstance) (Exec.Stat (H := H)) Exec.modInst.
Proof.
  intros e. unfold Exec.modInst. destruct (Exec.ModInst e) as [a|]; [|done].
  by destruct (LStore.getModule a _).
Qed.

Definition at_stat (x : Exec.State) (e : Exec.Executor H) : Prop := Exec.Stat e = x.

Lemma stays_onEngine {A} x (m : M (Worker.Worker H) A) : stays (at_stat x) (Exec.onEngine m).
Proof. apply fixes_stays, onEngine_stat. Qed.
Lemma stays_modInst x : stays (at_stat x) (Exec.modInst (H := H)).
Proof. apply fixes_stays, modInst_stat. Qed.
End Exec.

(** The calls on the engine, the stack and the store are all [onEngine]. *)
Ltac keep_exec :=
  repeat first
    [ keep_step
    | apply stays_deref
    | apply stays_onEngine | apply stays_modInst
    | apply stays_ret | apply stays_throw | apply stays_undef | apply stays_lift
    | apply stays_get | apply stays_gets ].

Section Lifecycle.
Context {H : Type}.
Implicit Types e : Exec.Executor H.

Lemma stays_updMod x f : stays (at_stat x) (Exec.updMod (H := H) f).
Proof. unfold Exec.updMod. keep_exec. Qed.
Lemma stays_updModM {A} x (f : M LMod.ModuleInstance A) : stays (at_stat x) (Exec.updModM (H := H) f).
Proof. unfold Exec.updModM. keep_exec. Qed.
Hint Resolve stays_updMod stays_updModM : ssvm.

Lemma stays_import x d : stays (at_stat x) (Exec.instantiateImport (H := H) d).
Proof. unfold Exec.instantiateImport, Exec.store. keep_exec; auto with ssvm. Qed.
Lemma stays_functions x I ts cs : stays (at_stat x) (Exec.instantiateFunctions (H := H) I ts cs).
Proof.
  revert I ts. induction cs as [|c cs IH]; intros I [|t ts]; cbn; try apply stays_ret.
  keep_exec; auto with ssvm.
  apply stays_modify. intros e He. unfold at_stat in *.
  destruct (Exec.Mod e) as [m|]; [|done]. by destruct (CodeSec m).
Qed.
Lemma stays_globals x fuel gs : stays (at_stat x) (Exec.instantiateGlobals (H := H) fuel gs).
Proof.
  unfold Exec.instantiateGlobals. apply stays_bind.
  { generalize LMod.newModuleInstance. induction gs as [|g gs IH]; intros t; cbn; [apply stays_ret|].
    keep_exec; auto with ssvm. }
  intros t. unfold Exec.initGlobal, Exec.store, Exec.popModule, Exec.popValue. keep_exec.
Qed.
Lemma stays_func_addrs x m l : stays (at_stat x) (Exec.func_addrs (H := H) m l).
Proof. induction l; cbn; keep_exec; auto with ssvm. Qed.
Lemma stays_tables x fuel ts es : stays (at_stat x) (Exec.instantiateTables (H := H) fuel ts es).
Proof.
  unfold Exec.instantiateTables, Exec.addTable, Exec.on_section, Exec.initTable, Exec.store, Exec.popValue.
  keep_exec; auto using stays_func_addrs with ssvm.
Qed.
Lemma stays_memories x fuel ms ds : stays (at_stat x) (Exec.instantiateMemories (H := H) fuel ms ds).
Proof.
  unfold Exec.instantiateMemories, Exec.addMemory, Exec.on_section, Exec.initMemory, Exec.store, Exec.popValue.
  keep_exec; auto with ssvm.
Qed.
Lemma stays_export x d : stays (at_stat x) (Exec.instantiateExport (H := H) d).
Proof. unfold Exec.instantiateExport, Exec.store. keep_exec; auto with ssvm. Qed.

Lemma stays_instantiateModule x fuel m : stays (at_stat x) (Exec.instantiateModule (H := H) fuel m).
Proof.
  unfold Exec.instantiateModule, Exec.on_section, Exec.instantiateTypes, Exec.store.
  keep_exec; auto using stays_import, stays_functions, stays_globals, stays_tables, stays_memories,
    stays_export with ssvm.
Qed.


(** ** The state machine of the executor *)

Inductive call : Type :=
| C_setModule (m : option AModule) | C_instantiate | C_setArgs (args : list ValVariant)
| C_run | C_getRets | C_reset (Force : bool).

Definition runCall (fuel : nat) (c : call) : M (Exec.Executor H) unit :=
  match c with
  | C_setModule m => Exec.setModule m
  | C_instantiate => Exec.instantiate fuel
  | C_setArgs args => Exec.setArgs args
  | C_run => Exec.run fuel
  | C_getRets => Exec.getRets ;;; ret tt
  | C_reset Force => Exec.reset Force
  end.

(** The states a call is accepted in, and the state it leads to. *)
Definition accepts (c : call) (x : Exec.State) : bool :=
  match c with
  | C_setModule _ => bool_decide (x = Exec.Inited)
  | C_instantiate => bool_decide (x = Exec.ModuleSet)
  | C_setArgs _ => bool_decide (x = Exec.Instantiated)
  | C_run => bool_decide (x = Exec.ArgsSet)
  | C_getRets => bool_decide (x = Exec.Executed)
  | C_reset Force => Force || bool_decide (x = Exec.Finished) || bool_decide (x = Exec.Executed)
  end.
Definition target (c : call) : Exec.State :=
  match c with
  | C_setModule _ => Exec.ModuleSet | C_instantiate => Exec.Instantiated
  | C_setArgs _ => Exec.ArgsSet | C_run => Exec.Executed | C_getRets => Exec.Finished
  | C_reset _ => Exec.Inited
  end.

Lemma require_refused {A} x (k : unit -> M (Exec.Executor H) A) e :
  Exec.Stat e <> x -> bind (Exec.require x) k e = (Err WrongExecutorFlow, e).
Proof. intros Hx. unfold bind, Exec.require. by rewrite bool_decide_eq_false_2. Qed.
Lemma require_accepted {A} x (k : unit -> M (Exec.Executor H) A) e :
  Exec.Stat e = x -> bind (Exec.require x) k e = k tt e.
Proof. intros Hx. unfold bind, Exec.require. by rewrite bool_decide_eq_true_2. Qed.

Lemma refused_call fuel c e :
  accepts c (Exec.Stat e) = false -> runCall fuel c e = (Err WrongExecutorFlow, e).
Proof.
  destruct c as [m| |a| | |[]]; cbn [accepts runCall orb]; intros Hx; try discriminate Hx;
    try (apply bool_decide_eq_false in Hx).
  1-4: by apply require_refused.
  - unfold bind at 1. by unfold Exec.getRets; rewrite require_refused.
  - apply orb_false_iff in Hx as [H1 H2]. apply bool_decide_eq_false in H1, H2.
    unfold Exec.reset, bind, gets. by rewrite !bool_decide_eq_true_2.
Qed.

(** A computation that keeps the state until its last assignment to [Stat]. *)
Lemma stat_last {A} (m : M (Exec.Executor H) A) x k (f : A -> M (Exec.Executor H) unit) e t r :
  stays (at_stat x) m -> Exec.Stat e = x ->
  (forall a u, (f a u).1 = Ok tt /\ Exec.Stat (f a u).2 = k) ->
  bind m f e = (r, t) ->
  (r = Ok tt /\ Exec.Stat t = k) \/ (r <> Ok tt /\ Exec.Stat t = x).
Proof.
  intros Hm Hx Hf. unfold bind. specialize (Hm e Hx).
  destruct (m e) as [[a|err|u|] e'] eqn:E; cbn in Hm; intros Hr; simplify_eq; auto.
  left. destruct (Hf a e'). by rewrite Hr in *.
Qed.

Lemma set_Stat_last k (e : Exec.Executor H) :
  (modify (Exec.set_Stat k) e).1 = Ok tt /\ Exec.Stat (modify (Exec.set_Stat k) e).2 = k.
Proof. done. Qed.

Lemma run_stat fuel e r t :
  Exec.Stat e = Exec.ArgsSet -> Exec.run fuel e = (r, t) ->
  (r = Ok tt /\ Exec.Stat t = Exec.Executed) \/
  (r <> Ok tt /\ (Exec.Stat t = Exec.ArgsSet \/ Exec.Stat t = Exec.Executed)).
Proof.
  intros Hx. unfold Exec.run. rewrite require_accepted by done. unfold bind at 1.
  pose proof (stays_modInst Exec.ArgsSet e Hx) as Hm.
  destruct (Exec.modInst e) as [[am|err|u|] e1]; cbn in Hm; try (intros; simplify_eq; by auto).
  destruct (LMod.getStartAddr am.2) as [a|]; cbn.
  - unfold bind, try, ret, throw.
    pose proof (stays_onEngine Exec.ArgsSet (Worker.runStartFunction fuel a) e1 Hm) as Hr.
    destruct (Exec.onEngine _ e1) as [[[]|err|u|] e2]; cbn in *; intros; simplify_eq;
      first [by left | right; split; [done|unfold at_stat in *; cbn; auto]].
  - unfold throw. intros; simplify_eq. right. by auto.
Qed.

Lemma popAll_spec s : Exec.popAll (length (ValueStack s)) s = (Ok (reverse (ValueStack s)), set_values [] s).
Proof.
  destruct s as [vs ls fs]. cbn [ValueStack]. induction vs as [|v vs IH]; [done|].
  cbn [length Exec.popAll].
  change (bind LStack.pop ?k (mkStack (v :: vs) ls fs)) with (k v (mkStack vs ls fs)).
  cbv beta. rewrite (bind_Ok _ _ _ _ _ IH). 
  unfold ret, set_values. cbn [ValueStack LabelStack FrameStack]. by rewrite reverse_cons.
Qed.

(** [getRets] takes every value, the bottom of the stack first. *)
Lemma getRets_spec e :
  Exec.Stat e = Exec.Executed ->
  Exec.getRets e =
    (Ok (reverse (ValueStack (Worker.StackMgr (Exec.Engine e)))),
     Exec.set_Stat Exec.Finished (Exec.set_Engine
       (Worker.set_StackMgr (set_values [] (Worker.StackMgr (Exec.Engine e))) (Exec.Engine e)) e)).
Proof.
  intros Hx. unfold Exec.getRets. rewrite require_accepted by done.
  unfold bind at 1, Exec.onStack, Exec.onEngine, Worker.onStack, zoom. rewrite popAll_spec. done.
Qed.

Definition reset_executor (e : Exec.Executor H) : Exec.Executor H :=
  let w := Exec.Engine e in
  Exec.mkExecutor Exec.Inited (Exec.StartFunc e) None None
    (Worker.mkWorker LStore.newStoreManager newStackManager [] (Worker.EnvMgr w) Worker.Inited [] 0
       (Worker.CostTable w)).

Lemma reset_spec Force e :
  accepts (C_reset Force) (Exec.Stat e) = true -> Exec.reset Force e = (Ok tt, reset_executor e).
Proof.
  cbn. intros Hx. unfold Exec.reset, bind at 1, gets.
  replace (negb Force && _) with false; [done|].
  destruct Force; [done|]. cbn in *. by destruct (Exec.Stat e).
Qed.

Lemma accepted_call fuel c e r t :
  accepts c (Exec.Stat e) = true -> runCall fuel c e = (r, t) ->
  (r = Ok tt /\ Exec.Stat t = target c) \/
  (r <> Ok tt /\ (Exec.Stat t = Exec.Stat e \/ (c = C_run /\ Exec.Stat t = Exec.Executed))).
Proof.
  destruct c as [m| |a| | |Force]; cbn [accepts runCall target]; intros Hx Hr;
    try (apply bool_decide_eq_true in Hx).
  - unfold Exec.setModule in Hr. rewrite require_accepted in Hr by done.
    unfold bind, modify in Hr. simplify_eq. by left.
  - unfold Exec.instantiate in Hr. rewrite require_accepted in Hr by done.
    change (bind (gets Exec.Mod) ?k e) with (k (Exec.Mod e) e) in Hr.
    eapply (stat_last _ _ Exec.Instantiated) in Hr;
      [|apply stays_instantiateModule|done|intros; apply set_Stat_last].
    destruct Hr as [?|[? ->]]; [by left|right; auto].
  - unfold Exec.setArgs in Hr. rewrite require_accepted in Hr by done.
    eapply (stat_last _ _ Exec.ArgsSet) in Hr; [|keep_exec|done|intros; apply set_Stat_last].
    destruct Hr as [?|[? ->]]; [by left|right; auto].
  - apply run_stat in Hr; [|done].
    destruct Hr as [?|[? [Hs|Hs]]]; [by left|right..]; rewrite ?Hs, ?Hx; by auto.
  - unfold bind in Hr. rewrite getRets_spec in Hr by done. unfold ret in Hr. simplify_eq. by left.
  - rewrite reset_spec in Hr by done. simplify_eq. by left.
Qed.

(** ** Traces of calls *)

(** The states after each call of a trace; the outcome of a call is dropped. *)
Fixpoint runCalls (fuel : nat) (cs : list call) (e : Exec.Executor H) : Exec.Executor H :=
  match cs with [] => e | c :: cs' => runCalls fuel cs' (runCall fuel c e).2 end.

(** The call does not throw the executor back. *)
Definition no_reset (c : call) : bool := match c with C_reset _ => false | _ => true end.

(** The order of the life cycle. *)
Definition rank (x : Exec.State) : Z :=
  match x with
  | Exec.Inited => 0 | Exec.ModuleSet => 1 | Exec.Instantiated => 2 | Exec.ArgsSet => 3
  | Exec.Executed => 4 | Exec.Finished => 5
  end.

Lemma call_rank fuel c e :
  no_reset c = true ->
  rank (Exec.Stat e) <= rank (Exec.Stat (runCall fuel c e).2) <= rank (Exec.Stat e) + 1.
Proof.
  intros Hn. destruct (accepts c (Exec.Stat e)) eqn:Ha.
  - destruct (runCall fuel c e) as [r t] eqn:Hr.
    apply accepted_call in Hr; [|done].
    destruct c; try discriminate Hn; cbn in Ha; apply bool_decide_eq_true in Ha; rewrite Ha in *;
      cbn in *; destruct Hr as [[_ ->]|[_ [->|[Hc ->]]]]; try discriminate Hc; cbn; lia.
  - rewrite refused_call by done. cbn. lia.
Qed.

Lemma calls_rank fuel cs e :
  forallb no_reset cs = true ->
  rank (Exec.Stat e) <= rank (Exec.Stat (runCalls fuel cs e)) <= rank (Exec.Stat e) + sizeZ cs.
Proof.
  revert e. induction cs as [|c cs IH]; intros e Hn; cbn [runCalls]; [unfold sizeZ; cbn; lia|].
  cbn in Hn. apply andb_true_iff in Hn as [Hc Hn]. specialize (IH (runCall fuel c e).2 Hn).
  pose proof (call_rank fuel c e Hc). unfold sizeZ in *. cbn [length]. lia.
Qed.

End Lifecycle.

(** ** The VM *)

Section VM.
Context {H : Type}.
Context (EEIFuncs WasiFuncs : list (LHost.HostFunctionBase H)) (fs : list Z -> option (list Z)).
Context `{HexLib}.
Implicit Types v : LVM.VM H.

Definition estat (v : LVM.VM H) : Exec.State := Exec.Stat (LVM.ExecutorEngine v).
Definition at_estat (x : Exec.State) (v : LVM.VM H) : Prop := estat v = x.

Lemma stays_onExec {A} x (m : M (Exec.Executor H) A) :
  stays (at_stat x) m -> stays (at_estat x) (LVM.onExec m).
Proof.
  intros Hm v Hv. unfold LVM.onExec, zoom. specialize (Hm (LVM.ExecutorEngine v) Hv).
  by destruct (m (LVM.ExecutorEngine v)).
Qed.
Lemma stays_onResult x f : stays (at_estat x) (LVM.onResult (H := H) f).
Proof. by intros v. Qed.

Lemma stays_hostFunctions x st l : stays (at_estat x) (LVM.setHostFunctions (H := H) st l).
Proof.
  revert st. induction l as [|f l IH]; intros st; cbn; [apply stays_ret|].
  destruct st; keep_exec; auto.
Qed.
Lemma stays_initVMEnv x : stays (at_estat x) (LVM.initVMEnv EEIFuncs WasiFuncs).
Proof. unfold LVM.initVMEnv, LVM.prepareVMHost. keep_exec; auto using stays_hostFunctions. Qed.
Lemma stays_loadWasm x fuel : stays (at_estat x) (LVM.loadWasm (H := H) fs fuel).
Proof.
  unfold LVM.loadWasm, LVM.parse. keep_exec; auto using stays_onResult;
    apply stays_zoom; by intros.
Qed.
Lemma stays_validate x : stays (at_estat x) (LVM.validate (H := H)).
Proof.
  unfold LVM.validate. keep_exec; auto using stays_onResult. apply stays_zoom; by intros.
Qed.
Lemma stays_setEntry x n : stays (at_estat x) (LVM.setEntryFuncName (H := H) n).
Proof. unfold LVM.setEntryFuncName. keep_exec. Qed.
Lemma stays_unless x m : stays (at_estat x) m -> stays (at_estat x) (LVM.unless_error (H := H) m).
Proof. intros. unfold LVM.unless_error. keep_exec; auto. Qed.

(** The executor stopped before the end of its life cycle. *)
Definition wedged (v : LVM.VM H) : Prop :=
  estat v = Exec.ModuleSet \/ estat v = Exec.Instantiated \/ estat v = Exec.ArgsSet.

(** [setModule] is refused, and nothing else of the executor runs. *)
Lemma instantiate_wedged fuel v :
  wedged v -> LVM.hasError (LVM.VMResult v) = false ->
  LVM.instantiate fuel v =
    (Ok LVM.Failed,
     LVM.set_Result (LVM.setErrCode WrongExecutorFlow
       (LVM.setStage LVM.StExecutor (LVM.VMResult v))) v).
Proof.
  intros Hw He.
  set (v1 := LVM.set_Result (LVM.setStage LVM.StExecutor (LVM.VMResult v)) v).
  assert (Exec.setModule (LVM.Mod v1) (LVM.ExecutorEngine v1) =
    (Err WrongExecutorFlow, LVM.ExecutorEngine v)) as Hs.
  { apply require_refused. destruct Hw as [Hw|[Hw|Hw]]; unfold estat in Hw; cbn; by rewrite Hw. }
  unfold LVM.instantiate. change (bind (LVM.onResult ?f) ?k v) with (k tt v1). cbv beta.
  change (bind (gets LVM.Mod) ?k v1) with (k (LVM.Mod v1) v1). cbv beta.
  unfold bind at 1, LVM.testAndSetError at 1, bind at 1, try at 1, LVM.onExec, zoom.
  rewrite Hs. destruct v as [p c i o d l x va m a rs [st stt sm es] sn u]. reflexivity.
Qed.

(** [cleanup] of an executor that is not at its end. *)
Lemma cleanup_refused v r v' :
  accepts (C_reset false) (estat v) = false -> LVM.cleanup v = (r, v') ->
  r = Ok tt /\ estat v' = estat v /\ LVM.VMResult v' = LVM.VMResult v.
Proof.
  intros Hw. unfold LVM.cleanup, bind, try, modify, LVM.onExec, zoom.
  assert (Exec.reset false (LVM.ExecutorEngine v) = (Err WrongExecutorFlow, LVM.ExecutorEngine v)) as ->
    by (by apply (refused_call 0 (C_reset false))).
  intros; simplify_eq. done.
Qed.

Lemma wedged_refused v : wedged v -> accepts (C_reset false) (estat v) = false.
Proof. by intros [->|[->| ->]]. Qed.

Lemma cleanup_wedged v r v' :
  wedged v -> LVM.cleanup v = (r, v') ->
  r = Ok tt /\ estat v' = estat v /\ LVM.VMResult v' = LVM.VMResult v.
Proof. intros Hw. apply cleanup_refused. by apply wedged_refused. Qed.

Lemma unless_inv m v a v' :
  LVM.unless_error (H := H) m v = (Ok a, v') ->
  (LVM.hasError (LVM.VMResult v) = true /\ v' = v) \/
  (LVM.hasError (LVM.VMResult v) = false /\ m v = (Ok a, v')).
Proof.
  unfold LVM.unless_error. rewrite bind_get. unfold ret.
  destruct (LVM.hasError _); intros; simplify_eq; auto.
Qed.

(** The two halves of a kept state. *)
Lemma stays_Ok {A} x (m : M (LVM.VM H) A) v a v' :
  stays (at_estat x) m -> m v = (Ok a, v') -> estat v = x -> estat v' = x.
Proof. intros Hm E Hv. specialize (Hm v Hv). by rewrite E in Hm. Qed.

Lemma wedged_estat v v' : estat v' = estat v -> wedged v -> wedged v'.
Proof. unfold wedged. by intros ->. Qed.

Lemma unless_instantiate_wedged fuel v a v' :
  wedged v -> LVM.unless_error (LVM.instantiate fuel ;;; ret tt) v = (Ok a, v') ->
  LVM.hasError (LVM.VMResult v') = true /\ estat v' = estat v.
Proof.
  intros Hw Hr. apply unless_inv in Hr as [[He ->]|[He Hr]]; [done|].
  unfold bind in Hr. rewrite instantiate_wedged in Hr by done. unfold ret in Hr. by simplify_eq.
Qed.

(** Whatever the source and the entry function, a run of a wedged VM fails and leaves the
    executor where it was. *)
Lemma execute_wedged fuel Name v c v' :
  wedged v -> LVM.execute EEIFuncs WasiFuncs fs fuel Name v = (Ok c, v') ->
  c = LVM.Failed /\ estat v' = estat v.
Proof.
  intros Hw Hr. unfold LVM.execute in Hr. inv_binds.
  match goal with H : get _ = _ |- _ => unfold get in H; simplify_eq end.
  eapply stays_Ok in H1; [|apply stays_initVMEnv|done].
  eapply stays_Ok in H2; [|apply stays_loadWasm|exact H1].
  eapply stays_Ok in H3; [|apply stays_unless, stays_bind; [apply stays_validate|intros; apply stays_ret]|exact H2].
  eapply stays_Ok in H4; [|apply stays_setEntry|exact H3].
  apply unless_instantiate_wedged in H5 as [He H5]; [|by eapply wedged_estat].
  apply unless_inv in H6 as [[_ ->]|[He' _]]; [|congruence].
  apply cleanup_wedged in H7 as (_ & H7 & H8); [|by eapply wedged_estat; [|exact Hw]; congruence].
  rewrite H8, He. split; congruence.
Qed.

(** *** Runs that stop early *)

(** The run up to the instantiation. *)
Definition prepare (fuel : nat) (Name : list Z) : M (LVM.VM H) unit :=
  LVM.initVMEnv EEIFuncs WasiFuncs ;;; LVM.loadWasm fs fuel ;;;
  LVM.unless_error (LVM.validate ;;; ret tt) ;;; LVM.setEntryFuncName Name.

Lemma execute_prepared fuel Name v v1 : prepare fuel Name v = (Ok tt, v1) ->
  LVM.execute EEIFuncs WasiFuncs fs fuel Name v =
  (LVM.unless_error (LVM.instantiate fuel ;;; ret tt) ;;;
   LVM.unless_error (LVM.runWasm fuel ;;; ret tt) ;;;
   LVM.cleanup ;;;
   let* v := get in
   ret (if LVM.hasError (LVM.VMResult v) then LVM.Failed else LVM.VMSuccess)) v1.
Proof.
  intros Hp. unfold prepare in Hp. unfold LVM.execute. inv_binds.
  by rewrite (bind_Ok _ _ _ _ _ H1), (bind_Ok _ _ _ _ _ H2), (bind_Ok _ _ _ _ _ H3), (bind_Ok _ _ _ _ _ Hp).
Qed.

Lemma prepare_stat fuel Name v v1 : prepare fuel Name v = (Ok tt, v1) -> estat v1 = estat v.
Proof.
  intros Hp. assert (stays (at_estat (estat v)) (prepare fuel Name)) as Hs.
  { unfold prepare. apply stays_bind; [apply stays_initVMEnv|intros _].
    apply stays_bind; [apply stays_loadWasm|intros _]. apply stays_bind; [|intros _; apply stays_setEntry].
    apply stays_unless, stays_bind; [apply stays_validate|intros; apply stays_ret]. }
  specialize (Hs v eq_refl). by rewrite Hp in Hs.
Qed.

(** With an error, what is left of the run is [cleanup]. *)
Lemma after_error fuel v : LVM.hasError (LVM.VMResult v) = true ->
  accepts (C_reset false) (estat v) = false ->
  exists v', (LVM.unless_error (LVM.runWasm fuel ;;; ret tt) ;;;
     LVM.cleanup ;;;
     let* v := get in
     ret (if LVM.hasError (LVM.VMResult v) then LVM.Failed else LVM.VMSuccess)) v = (Ok LVM.Failed, v') /\
    estat v' = estat v.
Proof.
  intros He Ha. destruct (LVM.cleanup v) as [r v'] eqn:Ec.
  pose proof (cleanup_refused v r v' Ha Ec) as (-> & Hs & Hv).
  exists v'. split; [|done]. rewrite bind_eq. unfold LVM.unless_error. rewrite bind_get, He. cbn [ret].
  rewrite (bind_Ok _ _ _ _ _ Ec), bind_get, Hv, He. done.
Qed.

(** A module that cannot be loaded or is not valid leaves the executor at its start. *)
Lemma execute_rejected fuel Name v v1 :
  estat v = Exec.Inited -> prepare fuel Name v = (Ok tt, v1) -> LVM.hasError (LVM.VMResult v1) = true ->
  exists v', LVM.execute EEIFuncs WasiFuncs fs fuel Name v = (Ok LVM.Failed, v') /\ estat v' = Exec.Inited.
Proof.
  intros Hi Hp He. pose proof (prepare_stat fuel Name v v1 Hp) as Hs.
  rewrite (execute_prepared fuel Name v v1 Hp), bind_eq. unfold LVM.unless_error at 1. rewrite bind_get, He. cbn [ret].
  destruct (after_error fuel v1 He) as (v' & Hr & Hv); [by rewrite Hs, Hi|].
  exists v'. split; [exact Hr|congruence].
Qed.

(** The instantiation of the executor fails: it stays where it is. *)
Lemma instantiate_failed fuel v e x :
  estat v = Exec.Inited -> LVM.hasError (LVM.VMResult v) = false ->
  (Exec.setModule (LVM.Mod v) ;;; Exec.instantiate fuel) (LVM.ExecutorEngine v) = (Err e, x) -> e <> Success ->
  exists v', LVM.instantiate fuel v = (Ok LVM.Failed, v') /\ estat v' = Exec.ModuleSet /\
    LVM.hasError (LVM.VMResult v') = true.
Proof.
  intros Hi He Hx Hne. unfold LVM.instantiate.
  set (v1 := LVM.set_Result (LVM.setStage LVM.StExecutor (LVM.VMResult v)) v).
  change (bind (LVM.onResult ?f) ?k v) with (k tt v1). cbv beta.
  change (bind (gets LVM.Mod) ?k v1) with (k (LVM.Mod v) v1). cbv beta.
  set (e1 := Exec.set_Stat Exec.ModuleSet (Exec.set_Mod (LVM.Mod v) (LVM.ExecutorEngine v))).
  assert (Exec.setModule (LVM.Mod v) (LVM.ExecutorEngine v) = (Ok tt, e1)) as Hset.
  { unfold Exec.setModule. by rewrite require_accepted. }
  rewrite (bind_Ok _ _ _ _ _ Hset) in Hx.
  assert (Exec.Stat x = Exec.ModuleSet) as Hst.
  { destruct (accepted_call fuel C_instantiate e1 (Err e) x eq_refl Hx) as [[? _]|[_ [?|[? _]]]]; done. }
  assert (LVM.testAndSetError (Exec.setModule (LVM.Mod v)) v1 = (Ok (Some tt), LVM.set_Executor e1 v1)) as Ht.
  { unfold LVM.testAndSetError, bind, try, LVM.onExec, zoom. change (LVM.ExecutorEngine v1) with (LVM.ExecutorEngine v).
    by rewrite Hset. }
  rewrite (bind_Ok _ _ _ _ _ Ht). set (v2 := LVM.set_Mod None (LVM.set_Executor e1 v1)).
  change (bind (modify (LVM.set_Mod None)) ?k (LVM.set_Executor e1 v1)) with (k tt v2). cbv beta.
  rewrite bind_get. change (LVM.hasError (LVM.VMResult v2)) with (LVM.hasError (LVM.VMResult v)). rewrite He.
  set (v3 := LVM.set_Result (LVM.setErrCode e (LVM.VMResult v2)) (LVM.set_Executor x v2)).
  assert ((LVM.testAndSetError (Exec.instantiate fuel) ;;; ret tt) v2 = (Ok tt, v3)) as Hti.
  { unfold LVM.testAndSetError, bind, try, LVM.onExec, zoom. change (LVM.ExecutorEngine v2) with e1. by rewrite Hx. }
  rewrite (bind_Ok _ _ _ _ _ Hti), bind_get.
  assert (LVM.hasError (LVM.VMResult v3) = true) as H3 by (unfold LVM.hasError; by apply bool_decide_eq_true_2).
  rewrite H3. by exists v3.
Qed.

(** The run wedges the VM. *)
Lemma execute_wedges fuel Name v v1 e x :
  estat v = Exec.Inited -> prepare fuel Name v = (Ok tt, v1) -> LVM.hasError (LVM.VMResult v1) = false ->
  (Exec.setModule (LVM.Mod v1) ;;; Exec.instantiate fuel) (LVM.ExecutorEngine v1) = (Err e, x) -> e <> Success ->
  exists v', LVM.execute EEIFuncs WasiFuncs fs fuel Name v = (Ok LVM.Failed, v') /\ wedged v'.
Proof.
  intros Hi Hp He Hx Hne. pose proof (prepare_stat fuel Name v v1 Hp) as Hs.
  destruct (instantiate_failed fuel v1 e x) as (v2 & H2 & S2 & E2); [congruence|done..|].
  rewrite (execute_prepared fuel Name v v1 Hp).
  assert (LVM.unless_error (LVM.instantiate fuel ;;; ret tt) v1 = (Ok tt, v2)) as Hu.
  { unfold LVM.unless_error. by rewrite bind_get, He, (bind_Ok _ _ _ _ _ H2). }
  rewrite (bind_Ok _ _ _ _ _ Hu).
  destruct (after_error fuel v2 E2) as (v' & Hr & Hv); [by rewrite S2|].
  exists v'. split; [exact Hr|]. left. congruence.
Qed.

(** A VM that is used again and again, with a code and an entry function each time. *)
Fixpoint executions (fuel : nat) (runs : list (list Z * list Z)) : M (LVM.VM H) (list LVM.VMErrCode) :=
  match runs with
  | [] => ret []
  | (Code, Name) :: runs' =>
      LVM.setCode Code ;;;
      let* c := LVM.execute EEIFuncs WasiFuncs fs fuel Name in
      let* cs := executions fuel runs' in ret (c :: cs)
  end.

Lemma executions_wedged fuel runs v cs v' :
  wedged v -> executions fuel runs v = (Ok cs, v') ->
  cs = replicate (length runs) LVM.Failed /\ wedged v'.
Proof.
  revert v cs. induction runs as [|[Code Name] runs IH]; intros v cs Hw Hr; cbn [executions] in Hr;
    inv_binds; [done|].
  assert (wedged s) as Hs by (unfold LVM.setCode, bind, modify, ret in H1; by simplify_eq).
  apply execute_wedged in H2 as [-> H2]; [|done].
  apply IH in H3 as [-> ?]; [done|by eapply wedged_estat].
Qed.

(** ** A run that succeeds resets the executor *)

Lemma test_getRets v r v' :
  LVM.testAndSetError (Exec.getRets (H := H)) v = (Ok r, v') ->
  LVM.hasError (LVM.VMResult v') = false -> r <> None /\ estat v' = Exec.Finished.
Proof.
  unfold LVM.testAndSetError, bind, try, LVM.onExec, zoom.
  destruct (decide (Exec.Stat (LVM.ExecutorEngine v) = Exec.Executed)) as [Hx|Hx].
  - rewrite getRets_spec by done. unfold ret. intros; by simplify_eq.
  - unfold Exec.getRets. rewrite require_refused by done.
    intros [= <- <-] He. discriminate He.
Qed.

Lemma runWasm_finished fuel v c v' :
  LVM.runWasm fuel v = (Ok c, v') -> LVM.hasError (LVM.VMResult v') = false ->
  estat v' = Exec.Finished.
Proof.
  unfold LVM.runWasm. intros Hr He. inv_binds.
  unfold get in H8. injection H8 as <- <-.
  assert (LVM.hasError (LVM.VMResult s5) = false /\ estat v' = estat s5) as [He5 ->].
  { destruct (LVM.hasError (LVM.VMResult s5)) eqn:E; [|by injection Hr as <- <-].
    injection Hr as <- <-. congruence. }
  apply unless_inv in H7 as [[E ->]|[_ H7]]; [congruence|].
  inv_binds. destruct a6 as [rs|].
  - unfold modify in H7. simplify_eq. by apply test_getRets in H8 as [_ ?].
  - unfold ret in H7. simplify_eq. by apply test_getRets in H8 as [[] _].
Qed.

Lemma cleanup_finished v r v' :
  estat v = Exec.Finished -> LVM.cleanup v = (r, v') ->
  LVM.VMResult v' = LVM.VMResult v /\ LVM.Rets v' = LVM.Rets v /\
  LVM.ExecutorEngine v' = reset_executor (LVM.ExecutorEngine v).
Proof.
  intros Hx. unfold LVM.cleanup, bind, try, modify, LVM.onExec, zoom.
  rewrite reset_spec by (unfold estat in Hx; by rewrite Hx). intros [= <- <-]. done.
Qed.

(** The state the constructor leaves, apart from the start name, the environments and the
    costs they have counted. *)
Definition fresh_executor (e : Exec.Executor H) : Prop := e = reset_executor e.

Lemma execute_success fuel Name v v' :
  LVM.execute EEIFuncs WasiFuncs fs fuel Name v = (Ok LVM.VMSuccess, v') ->
  fresh_executor (LVM.ExecutorEngine v') /\ LVM.hasError (LVM.VMResult v') = false.
Proof.
  intros Hr. unfold LVM.execute in Hr. inv_binds.
  match goal with Hg : get _ = _ |- _ => injection Hg as <- <- end.
  assert (LVM.hasError (LVM.VMResult s5) = false) as He by (by destruct (LVM.hasError _)).
  match goal with Hc : LVM.cleanup s4 = _ |- _ => rename Hc into Hclean end.
  assert (LVM.VMResult s5 = LVM.VMResult s4) as Hv.
  { revert Hclean. unfold LVM.cleanup, bind, try, modify, LVM.onExec, zoom.
    destruct (Exec.reset false _) as [[| | |] ?]; by intros [= <- <-]. }
  match goal with Hu : LVM.unless_error (LVM.runWasm _ ;;; _) _ = _ |- _ =>
    apply unless_inv in Hu as [[E ->]|[_ Hu]]; [congruence|rename Hu into Hrun] end.
  inv_binds. apply runWasm_finished in H6; [|congruence].
  apply cleanup_finished in Hclean as (_ & _ & ->); [|done]. split; [done|exact He].
Qed.

End VM.

(** ** Theorems *)

(** [C39] The executor is a state machine.  Each call is accepted in one state only
    ([reset] in two, or in all when it is forced).  A call that is not accepted returns
    WrongExecutorFlow and changes nothing at all; an accepted call that succeeds leads to the
    next state, and one that fails leaves the state as it was, except that a failed [run]
    also counts as executed.  So between resets a trace of calls only moves forward, and at
    most one state per call. *)
Theorem legacy_executor_lifecycle {H} (fuel : nat) (c : call) (e : Exec.Executor H) :
  (accepts c (Exec.Stat e) = false -> runCall fuel c e = (Err WrongExecutorFlow, e)) /\
  (accepts c (Exec.Stat e) = true ->
   let '(r, t) := runCall fuel c e in
   (r = Ok tt /\ Exec.Stat t = target c) \/
   (r <> Ok tt /\ (Exec.Stat t = Exec.Stat e \/ (c = C_run /\ Exec.Stat t = Exec.Executed)))) /\
  (forall cs, forallb no_reset cs = true ->
   rank (Exec.Stat e) <= rank (Exec.Stat (runCalls fuel cs e)) <= rank (Exec.Stat e) + sizeZ cs).
Proof.
  split; [apply refused_call|]. split; [|intros cs; apply calls_rank].
  intros Ha. destruct (runCall fuel c e) as [r t] eqn:E. by eapply accepted_call.
Qed.

(** [C40] A run of the VM that succeeds leaves its executor as the constructor made it, apart
    from the start function name, the environments and the cost counted so far: the VM can
    be used again.  With the executor at its start and the steps up to the instantiation
    defined, a run whose module cannot be loaded or is not valid fails and leaves the
    executor at its start; a run whose module is loaded and valid but whose instantiation
    returns an error, for instance because an import is not found, fails and leaves the
    executor in the middle of its life cycle, since [cleanup] does not force the reset.
    From there on every run of the VM that ends fails, whatever the code and the entry
    function are, and stays there. *)
Theorem legacy_vm_reuse {H} (EEIFuncs WasiFuncs : list (LHost.HostFunctionBase H))
    (fs : list Z -> option (list Z)) (hex : HexLib) (fuel : nat) (v : LVM.VM H) :
  (forall Name v', LVM.execute EEIFuncs WasiFuncs fs fuel Name v = (Ok LVM.VMSuccess, v') ->
   fresh_executor (LVM.ExecutorEngine v')) /\
  (forall Name v1, estat v = Exec.Inited -> prepare EEIFuncs WasiFuncs fs fuel Name v = (Ok tt, v1) ->
   (LVM.hasError (LVM.VMResult v1) = true ->
    exists v', LVM.execute EEIFuncs WasiFuncs fs fuel Name v = (Ok LVM.Failed, v') /\ estat v' = Exec.Inited) /\
   (forall e x, LVM.hasError (LVM.VMResult v1) = false ->
    (Exec.setModule (LVM.Mod v1) ;;; Exec.instantiate fuel) (LVM.ExecutorEngine v1) = (Err e, x) -> e <> Success ->
    exists v', LVM.execute EEIFuncs WasiFuncs fs fuel Name v = (Ok LVM.Failed, v') /\ wedged v')) /\
  (forall runs cs v', wedged v -> executions EEIFuncs WasiFuncs fs fuel runs v = (Ok cs, v') ->
   cs = replicate (length runs) LVM.Failed /\ wedged v').
Proof.
  split; [intros Name v' Hr; by eapply execute_success|].
  split; [|intros runs cs v'; apply executions_wedged].
  intros Name v1 Hi Hp. split; [by apply execute_rejected|]. intros e x He Hx Hne. by eapply execute_wedges.
Qed.

(** A module that imports a function, and one that exports a function that returns 7. *)
Definition import_module : list Z :=
  [0;97;115;109;1;0;0;0; 1;4;1;96;0;0; 2;7;1;1;101;1;102;0;0].
Definition seven_module : list Z :=
  [0;97;115;109;1;0;0;0; 1;5;1;96;0;1;127; 3;2;1;0; 7;5;1;1;102;0;0; 10;6;1;4;0;65;7;11].

Definition test_vm : LVM.VM unit :=
  match LVM.newVM Cfg.newConfigure tt with
  | Ok v => v
  | _ => LVM.mkVM [] [] None false [] newLoader
           (Exec.mkExecutor Exec.Inited [] None None (Worker.mkWorker LStore.newStoreManager
              newStackManager [] (Env.newEnvironmentManager Cfg.newConfigure tt) Worker.Inited [] 0 []))
           newFormChecker None [] [] LVM.newResult [] 0
  end.

Lemma legacy_executor_lifecycle_witness :
  runCall 10 C_getRets (LVM.ExecutorEngine test_vm) = (Err WrongExecutorFlow, LVM.ExecutorEngine test_vm) /\
  rank (Exec.Stat (runCalls 10 [C_setModule None; C_setModule None] (LVM.ExecutorEngine test_vm))) <= 0 + 2.
Proof.
  split.
  - apply (legacy_executor_lifecycle 10 C_getRets). reflexivity.
  - apply (legacy_executor_lifecycle 10 C_getRets (LVM.ExecutorEngine test_vm)). reflexivity.
Defined.

Lemma legacy_vm_reuse_witness :
  exists v, @LVM.execute unit [] [] (fun _ => None) hex_lib 100 [102] (LVM.setCode import_module test_vm).2 =
      (Ok LVM.Failed, v) /\ wedged v /\
    exists v', @executions unit [] [] (fun _ => None) hex_lib 100 [(seven_module, [102])] v =
      (Ok [LVM.Failed], v') /\ wedged v'.
Proof.
  set (v0 := (LVM.setCode import_module test_vm).2).
  set (v1 := (@prepare unit [] [] (fun _ => None) 100 [102] v0).2).
  set (x := (Exec.setModule (LVM.Mod v1) ;;; Exec.instantiate 100) (LVM.ExecutorEngine v1)).
  destruct (legacy_vm_reuse [] [] (fun _ => None) hex_lib 100 v0) as (_ & Hrun & _).
  destruct (proj2 (Hrun [102] v1 ltac:(vm_compute; reflexivity) ltac:(apply pair_fst; vm_compute; reflexivity))
    WrongInstanceAddress x.2) as (v & Ev & Hw);
    [vm_compute; reflexivity|apply pair_fst; vm_compute; reflexivity|discriminate|].
  exists v. split; [exact Ev|]. split; [exact Hw|].
  assert (v = (@LVM.execute unit [] [] (fun _ => None) hex_lib 100 [102] v0).2) as Hv by (by rewrite Ev).
  assert ((@executions unit [] [] (fun _ => None) hex_lib 100 [(seven_module, [102])] v).1 = Ok [LVM.Failed])
    as E by (rewrite Hv; vm_compute; reflexivity).
  exists (@executions unit [] [] (fun _ => None) hex_lib 100 [(seven_module, [102])] v).2.
  rewrite (surjective_pairing (executions _ _ _ _ _ _)) in |- * at 1. rewrite E. split; [reflexivity|].
  refine (proj2 (proj2 (proj2 (legacy_vm_reuse [] [] (fun _ => None) hex_lib 100 v)) _ _ _ Hw _)).
  rewrite (surjective_pairing (executions _ _ _ _ _ _)) at 1. rewrite E. reflexivity.
Defined.
