(* ===== verification/LegacySim.v ===== *)
(** * The two engines, instruction by instruction

    Each state of the first generation engine stands for a state of the interpreter, and
    the operations of the two that do not transfer control agree on such states, as far as
    both are defined.  Control is in LegacyControl.v. *)
From stdpp Require Import base list numbers option.
From Stdlib Require Import ZArith Lia.
From S2P Require Import Prelude Types Instruction AST Numeric Memory StackMgr Runtime.
From S2P Require Import Interpreter LegacyRuntime LegacyWorker LegacyFacts.
#[local] Open Scope Z_scope.

(** ** The abstraction

    An interpreter state for each state of the old engine.  The costs the environment
    manager counts are the measurement. *)
Section Abs.
Context {H : Type}.
#[local] Abbreviation EM := (Env.EnvironmentManager H).

Definition with_costs (limit sum : Z) (e : EM) : EM :=
  Env.mkEnv (Env.Config e) (Env.CostTab e) limit sum (Env.EnvTable e).
Definition no_costs (e : EM) : EM := with_costs 0 0 e.

Definition abs_scope (sc : LProv.InstrScope) : InstrScope :=
  mkScope (match LProv.IType sc with
           | LProv.Expression => Seq_Expression | LProv.Block => Seq_Block
           | LProv.FunctionCall => Seq_FunctionCall end) (LProv.IRest sc).

Definition abs_host (t : FType) (h : LHost.HostFunctionBase H) : HostFunc EM :=
  mkHostFunc t (LHost.lhCost h) (fun stk mem mea env =>
    match mea with
    | None => (Undef UB_deref, (stk, mem, mea, env))
    | Some m =>
        let '(r, (env', stk', mem')) := LHost.lhRun h (with_costs (CostLimit m) (CostSum m) env) stk mem in
        (r, (stk', mem', Some (mkMeasure (CostTab m) (InstrCnt m) (Env.CostLimit env') (Env.CostSum env')),
             no_costs env'))
    end).

(** What an address without a host function stands for. *)
Definition no_host (t : FType) : HostFunc EM :=
  mkHostFunc t 0 (fun stk mem mea env => (Undef UB_deref, (stk, mem, mea, env))).

Definition abs_func (hs : list (LHost.HostFunctionBase H)) (n : Named LFunc.FunctionInstance)
    : FunctionInstance EM :=
  let f := obj n in
  let t := default (mkFType [] []) (LFunc.FuncType f) in
  if LFunc.IsHostFunction f then
    HostFunctionInst (match atZ hs (LFunc.HostFuncAddr f) with
                      | Some h => abs_host t h | None => no_host t end)
  else NativeFunction (LFunc.ModuleAddr f) t (LFunc.Locals f) (LFunc.Instrs f).

Definition abs_mod (m : LMod.ModuleInstance) : ModuleInstance :=
  mkModInst (LMod.MAddr m) [] (LMod.FuncTypes m) (LMod.FuncAddrs m) (LMod.TableAddrs m)
    (LMod.MemAddrs m) (LMod.GlobalAddrs m) [] [] [] [] (LMod.getStartAddr m).

Definition abs_pool {A B} (f : A -> B) (l : list A) : pool B := mkPool (f <$> l) (sizeZ l) (sizeZ l).

Definition abs_store (hs : list (LHost.HostFunctionBase H)) (s : LStore.StoreManager) : StoreManager EM :=
  mkStore (abs_pool abs_mod (LStore.ModInsts s)) (abs_pool (abs_func hs) (LStore.FuncInsts s))
    (abs_pool obj (LStore.TabInsts s)) (abs_pool obj (LStore.MemInsts s))
    (abs_pool obj (LStore.GlobInsts s)).

Definition abs_measure (w : Worker.Worker H) : Measurement :=
  mkMeasure (Worker.CostTable w) (Worker.ExecInstrCnt w) (Env.CostLimit (Worker.EnvMgr w))
    (Env.CostSum (Worker.EnvMgr w)).

Definition abs (w : Worker.Worker H) : Interpreter EM :=
  mkInterp (Worker.StackMgr w) (abs_scope <$> Worker.InstrPdr w) (Some (abs_measure w))
    (abs_store (Worker.HostFuncMgr w) (Worker.StoreMgr w)) (no_costs (Worker.EnvMgr w)) Mode_Instantiate.

End Abs.

(** ** Agreement *)

(** The errors differ only in how the end of the gas is reported. *)
Definition same_err (e e' : ErrCode) : Prop := e = e' \/ (e = Revert /\ e' = CostLimitExceeded).

Lemma same_err_refl e : same_err e e.
Proof. by left. Qed.
#[export] Hint Resolve same_err_refl : ssvm.

(** Two outcomes, when both are defined. *)
Definition outcomes {S T A B} (R : A -> B -> Prop) (Q : S -> T -> Prop) (x : res A * S) (y : res B * T) : Prop :=
  match x, y with
  | (Undef _, _), _ | _, (Undef _, _) => True
  | (Ok a, s), (Ok b, t) => R a b /\ Q s t
  | (Err e, s), (Err e', t) => same_err e e' /\ Q s t
  | (NoFuel, _), (NoFuel, _) => True
  | _, _ => False
  end.

Section Agree.
Context {S T : Type} (Q : S -> T -> Prop).

Lemma outcomes_bind {A B A' B'} (R : A -> B -> Prop) (R' : A' -> B' -> Prop)
    (m : M S A) (n : M T B) (k : A -> M S A') (l : B -> M T B') s t :
  outcomes R Q (m s) (n t) ->
  (forall a b s' t', m s = (Ok a, s') -> n t = (Ok b, t') -> R a b -> Q s' t' ->
     outcomes R' Q (k a s') (l b t')) ->
  outcomes R' Q (bind m k s) (bind n l t).
Proof.
  unfold bind. destruct (m s) as [[a|e|u|] s'] eqn:E1, (n t) as [[b|e'|u'|] t'] eqn:E2; cbn; try done.
  - intros [? ?] Hk. by eapply Hk.
  - by destruct (k a s') as [[] ?].
Qed.

(** The left may be undefined before the right has run, and the other way round. *)
Lemma outcomes_undef_l {A B} (R : A -> B -> Prop) u s y : outcomes R Q (Undef u, s) y.
Proof. done. Qed.
Lemma outcomes_undef_r {A B} (R : A -> B -> Prop) x u t : outcomes R Q x (Undef u, t).
Proof. by destruct x as [[] ?]. Qed.

End Agree.

#[export] Hint Resolve outcomes_undef_l outcomes_undef_r : ssvm.

(** ** The memory *)

Section Mem.
Implicit Types m : MemoryInstance.

Lemma checkDataSize_agree Offset Length m :
  LMem.checkDataSize Offset Length m = requireDataSize Offset Length m.
Proof.
  unfold LMem.checkDataSize, requireDataSize, checkDataSize, target_size, bind, throw, ret.
  destruct (_ >? _); [done|]. destruct (_ <? _); [|done]. by destruct (_ >? _).
Qed.

Lemma outcomes_same {S A} (x : res A * S) : outcomes eq eq x x.
Proof. destruct x as [[] ?]; cbn; auto with ssvm. Qed.

Lemma loadValue_agree T Offset Length m :
  0 < Length ->
  outcomes (fun x y => y = Some x) eq (LMem.loadValue T Offset Length m) (loadValue T Offset Length m).
Proof.
  intros HL. unfold LMem.loadValue, loadValue.
  destruct (sizeof T <? Length); [by split; [left|]|].
  eapply (outcomes_bind _ eq). { rewrite checkDataSize_agree. apply outcomes_same. }
  intros [] ? m1 ? _ _ <- <-. replace (0 <? Length) with true by (symmetry; by apply Z.ltb_lt).
  rewrite !bind_get. destruct (is_floating T).
  - unfold bind, lift. destruct (read_range _ _ _); [done|by split; [left|]|done..].
  - unfold bind, lift. destruct (read_range _ _ _) as [bs| | |]; [|by split; [left|]|done..].
    replace (Length =? 0) with false by (symmetry; apply Z.eqb_neq; lia).
    by destruct (is_signed T).
Qed.

Lemma storeValue_agree T x Offset Length m :
  0 < Length -> outcomes eq eq (LMem.storeValue T x Offset Length m) (storeValue T x Offset Length m).
Proof.
  intros HL. unfold LMem.storeValue, storeValue.
  destruct (sizeof T <? Length); [by split; [left|]|].
  eapply (outcomes_bind _ eq). { rewrite checkDataSize_agree. apply outcomes_same. }
  intros [] ? m1 ? _ _ <- <-. replace (0 <? Length) with true by (symmetry; by apply Z.ltb_lt).
  apply outcomes_same.
Qed.

End Mem.

(** ** The stack *)

Section Stack.
Implicit Types k : StackManager.

Lemma outcomes_refl {A} (x : res A * StackManager) : outcomes eq eq x x.
Proof. destruct x as [[] ?]; cbn; auto with ssvm. Qed.

Lemma stack_pop k : outcomes eq eq (LStack.pop k) (Stack.pop k).
Proof. unfold LStack.pop, Stack.pop. destruct (ValueStack k); cbn; auto. Qed.
Lemma stack_pop_unchecked k : outcomes eq eq (LStack.pop_unchecked k) (Stack.pop k).
Proof. unfold LStack.pop_unchecked, LStack.pop, Stack.pop. destruct (ValueStack k); cbn; auto. Qed.

Lemma stack_getBottomN N k : 0 <= N -> outcomes eq eq (LStack.getBottomN N k) (Stack.getBottomN N k).
Proof.
  intros HN. unfold LStack.getBottomN, Stack.getBottomN, Stack.bottom_index.
  set (n := sizeZ (ValueStack k)).
  destruct (Z.ltb_spec N n) as [Hn|Hn].
  - replace (n <? N) with false by (symmetry; apply Z.ltb_ge; lia).
    replace ((0 <=? N) && true) with true by (symmetry; apply andb_true_iff; split; [by apply Z.leb_le|done]).
    cbn. unfold atZ. replace (0 <=? n - 1 - N) with true by (symmetry; apply Z.leb_le; lia).
    destruct (ValueStack k !! _); cbn; auto.
  - rewrite andb_false_r. cbn. auto with ssvm.
Qed.
Lemma stack_setBottomN N v k : 0 <= N -> outcomes eq eq (LStack.setBottomN N v k) (Stack.setBottomN N v k).
Proof.
  intros HN. unfold LStack.setBottomN, Stack.setBottomN, Stack.bottom_index.
  set (n := sizeZ (ValueStack k)).
  destruct (Z.ltb_spec N n) as [Hn|Hn].
  - replace (n <? N) with false by (symmetry; apply Z.ltb_ge; lia).
    replace (n =? N) with false by (symmetry; apply Z.eqb_neq; lia).
    replace ((0 <=? N) && true) with true by (symmetry; apply andb_true_iff; split; [by apply Z.leb_le|done]).
    cbn. done.
  - rewrite andb_false_r. auto with ssvm.
Qed.

Lemma getOffset_nonneg Idx k o k' : LStack.getOffset Idx k = (Ok o, k') -> 0 <= o.
Proof.
  unfold LStack.getOffset. destruct (FrameStack k); [done|]. intros [= <- _].
  pose proof (wrap_range 32 (VStackSize f + Idx) ltac:(lia)) as []. lia.
Qed.

(** The labels a frame records fit in 32 bits. *)
Lemma stack_pushFrame a b c k :
  sizeZ (LabelStack k) < 2 ^ 32 -> LStack.pushFrame a b c k = Stack.pushFrame a b c k.
Proof.
  intros Hl. unfold LStack.pushFrame, Stack.pushFrame, modify.
  rewrite (wrap_small 32 (sizeZ (LabelStack k))); [done|]. unfold in_u, sizeZ in *. lia.
Qed.
Lemma stack_popFrame k : outcomes eq eq (LStack.popFrame k) (Stack.popFrame k).
Proof.
  unfold LStack.popFrame, Stack.popFrame. destruct (FrameStack k) as [|f fs]; [auto with ssvm|].
  apply outcomes_refl.
Qed.
Lemma stack_popLabel k : outcomes eq eq (LStack.popLabel k) (Stack.popLabel 1 k).
Proof.
  destruct k as [vs [|l ls] fs]; [done|].
  unfold LStack.popLabel, Stack.popLabel, Stack.getLabelWithCount, bind, get, LabelStack.
  change (atZ (l :: ls) (1 - 1)) with (Some l). change (Z.to_nat 1) with 1%nat.
  cbn [ValueStack]. by destruct (erase_mid _ _ vs).
Qed.

Lemma sim_local_get Idx k : outcomes eq eq
  ((let* Offset := LStack.getOffset Idx in
    let* Var := LStack.getBottomN Offset in LStack.push Var) k)
  ((let* Offset := Stack.getOffset Idx in
    let* v := Stack.getBottomN Offset in Stack.push v) k).
Proof.
  eapply outcomes_bind; [apply (outcomes_refl (LStack.getOffset Idx k))|].
  intros o ? k1 ? E _ <- <-. eapply outcomes_bind; [apply stack_getBottomN; by eapply getOffset_nonneg|].
  intros v ? k2 ? _ _ <- <-. apply outcomes_refl.
Qed.
Lemma sim_local_set Idx k : outcomes eq eq
  ((let* Val := LStack.pop in
    let* Offset := LStack.getOffset Idx in LStack.setBottomN Offset Val) k)
  ((let* Offset := Stack.getOffset Idx in
    let* v := Stack.pop in Stack.setBottomN Offset v) k).
Proof.
  destruct k as [[|v vs] ls [|f fs]]; cbn; try done.
  apply (stack_setBottomN _ _ (mkStack vs ls (f :: fs))).
  pose proof (wrap_range 32 (VStackSize f + Idx) ltac:(lia)) as []. lia.
Qed.
Lemma sim_local_tee Idx k : outcomes eq eq
  ((let* Val := LStack.getTop in
    let* Offset := LStack.getOffset Idx in LStack.setBottomN Offset Val) k)
  ((let* Val := Stack.getTop in
    let* Offset := Stack.getOffset Idx in Stack.setBottomN Offset Val) k).
Proof.
  eapply outcomes_bind; [apply (outcomes_refl (LStack.getTop k))|]. intros v ? k1 ? _ _ <- <-.
  eapply outcomes_bind; [apply (outcomes_refl (LStack.getOffset Idx k1))|]. intros o ? k2 ? E _ <- <-.
  apply stack_setBottomN. by eapply getOffset_nonneg.
Qed.
Lemma sim_select k : outcomes eq eq
  ((let* CondVal := LStack.pop_unchecked in
    let* Val2 := LStack.pop_unchecked in
    let* Val1 := LStack.pop_unchecked in
    let* c := lift (retrieveValue U32 CondVal) in
    if c =? 0 then LStack.push Val2 else LStack.push Val1) k)
  ((let* CondVal := Stack.pop in
    let* Val2 := Stack.pop in
    let* Val1 := Stack.pop in
    let* c := lift (retrieveValue U32 CondVal) in
    if c =? 0 then Stack.push Val2 else Stack.push Val1) k).
Proof.
  do 3 (eapply outcomes_bind; [apply stack_pop_unchecked|]; intros ? ? ? ? _ _ <- <-).
  apply outcomes_refl.
Qed.

End Stack.

Section Sim.
Context {H : Type}.
#[local] Abbreviation EM := (Env.EnvironmentManager H).
#[local] Abbreviation MW := (M (Worker.Worker H)).
#[local] Abbreviation MI := (M (Interpreter EM)).

Definition agree {A B} (R : A -> B -> Prop) (m : MW A) (n : MI B) (w : Worker.Worker H) : Prop :=
  outcomes R (fun w' t => t = abs w') (m w) (n (abs w)).

Lemma agree_bind {A B A' B'} (R : A -> B -> Prop) (R' : A' -> B' -> Prop) (m : MW A) (n : MI B)
    (k : A -> MW A') (l : B -> MI B') w :
  agree R m n w ->
  (forall a b w', m w = (Ok a, w') -> R a b -> agree R' (k a) (l b) w') ->
  agree R' (bind m k) (bind n l) w.
Proof.
  intros Hm Hk. eapply outcomes_bind; [exact Hm|]. intros a b s' t' E _ Hr ->. by apply Hk.
Qed.

Lemma agree_ret {A B} (R : A -> B -> Prop) a b w : R a b -> agree R (ret a) (ret b) w.
Proof. by intros. Qed.
Lemma agree_throw {A B} (R : A -> B -> Prop) e e' w : same_err e e' -> agree R (throw e) (throw e') w.
Proof. by split. Qed.
Lemma agree_undef_l {A B} (R : A -> B -> Prop) u (n : MI B) w : agree (A := A) R (undef u) n w.
Proof. done. Qed.
Lemma agree_undef_r {A B} (R : A -> B -> Prop) (m : MW A) u w : agree (B := B) R m (undef u) w.
Proof. unfold agree, undef. auto with ssvm. Qed.
Lemma agree_lift {A B} (R : A -> B -> Prop) (r : res A) (q : res B) w :
  outcomes R (fun _ _ => True) (r, tt) (q, tt) -> agree R (lift r) (lift q) w.
Proof. unfold agree, lift. destruct r, q; cbn; try done; by intros [? _]. Qed.
(** An error the old engine returns where the new one dereferences. *)
Lemma agree_lift_deref {A B} (R : A -> B -> Prop) (r : res A) (q : res B) w :
  match r, q with Ok a, Ok b => R a b | Err _, Err _ => True | _, _ => False end ->
  agree R (lift r) (deref (lift q)) w.
Proof. unfold agree, lift, deref. by destruct r, q. Qed.
Lemma agree_deref {A B} (R : A -> B -> Prop) (m : MW A) (n : MI B) w :
  agree R m n w -> agree R (deref m) n w.
Proof. unfold agree, deref. destruct (m w) as [[] ?], (n (abs w)) as [[] ?]; done. Qed.

(** Operations on the stack alone. *)
Lemma agree_onStack {A B} (R : A -> B -> Prop) (m : M StackManager A) (n : M StackManager B) w :
  outcomes R eq (m (Worker.StackMgr w)) (n (Worker.StackMgr w)) ->
  agree R (Worker.onStack m) (onStack n) w.
Proof.
  unfold agree, Worker.onStack, onStack, zoom. cbn.
  destruct (m (Worker.StackMgr w)) as [[] k], (n (Worker.StackMgr w)) as [[] k']; cbn; try done;
    by intros [? ->].
Qed.

(** ** Instances *)

Lemma atZ_fmap {A B} (f : A -> B) l i : atZ (f <$> l) i = f <$> atZ l i.
Proof. unfold atZ. destruct (0 <=? i); [|done]. apply list_lookup_fmap. Qed.

Lemma agree_instance {A B} (f : A -> B) l i w :
  agree (fun a b => b = f a) (lift (LStore.getInstance i l))
    (deref (lift (getInstance i (abs_pool f l)))) w.
Proof.
  apply agree_lift_deref. unfold LStore.getInstance, getInstance, get_at. cbn. rewrite atZ_fmap.
  by destruct (atZ l i); cbn.
Qed.
Lemma agree_addr (l : list Z) i w : agree eq (lift (get_at l i)) (deref (lift (get_at l i))) w.
Proof. apply agree_lift_deref. unfold get_at. by destruct (atZ l i). Qed.

(** A read of the state on both sides. *)
Lemma agree_get {A B} (R : A -> B -> Prop) (k : Worker.Worker H -> MW A) (l : Interpreter EM -> MI B) w :
  agree R (k w) (l (abs w)) w -> agree R (bind get k) (bind get l) w.
Proof. done. Qed.

Lemma agree_getModInst w : agree (fun m m' => m' = abs_mod m) Worker.getModInst currentModule w.
Proof.
  eapply (agree_bind eq). { apply agree_onStack, outcomes_refl. }
  intros a ? w' _ <-. apply agree_get. apply agree_instance.
Qed.

Lemma agree_getTab Idx w : agree eq (Worker.getTabInstByIdx Idx) (getTabInstByIdx Idx) w.
Proof.
  unfold getTabInstByIdx, getTabAddrByIdx. unfold agree. rewrite bind_assoc.
  eapply agree_bind; [apply agree_getModInst|]. intros m ? w1 _ ->.
  eapply (agree_bind eq); [apply agree_addr|]. intros a ? w2 _ <-. apply agree_get.
  unfold agree. rewrite <- (bind_ret_r (deref _)).
  eapply agree_bind; [apply agree_instance|]. intros t ? w3 _ ->. by apply agree_ret.
Qed.

(** An instance of the store and its address. *)
Definition inst_rel {A} (x : Z * Named A) (y : Z * A) : Prop := x.1 = y.1 /\ obj x.2 = y.2.

Lemma agree_getMem Idx w : agree inst_rel (Worker.getMemInstByIdx Idx) (getMemInstByIdx Idx) w.
Proof.
  eapply agree_bind; [apply agree_getModInst|]. intros m ? w1 _ ->.
  eapply (agree_bind eq); [apply agree_addr|]. intros a ? w2 _ <-. apply agree_get.
  eapply agree_bind; [apply agree_instance|]. intros t ? w3 _ ->. by apply agree_ret.
Qed.
Lemma agree_getGlob Idx w : agree inst_rel (Worker.getGlobInstByIdx Idx) (getGlobInstByIdx Idx) w.
Proof.
  eapply agree_bind; [apply agree_getModInst|]. intros m ? w1 _ ->.
  eapply (agree_bind eq); [apply agree_addr|]. intros a ? w2 _ <-. apply agree_get.
  eapply agree_bind; [apply agree_instance|]. intros t ? w3 _ ->. by apply agree_ret.
Qed.

Lemma abs_pool_update {A B} (f : A -> B) a x l :
  abs_pool f (setZ a x l) = pool_update a (f x) (abs_pool f l).
Proof.
  unfold abs_pool, pool_update, setZ. cbn. rewrite list_fmap_insert. unfold sizeZ.
  by rewrite length_insert.
Qed.

Lemma agree_putMem a m w : agree eq (Worker.putMem a m) (putMem a (obj m)) w.
Proof.
  unfold agree, Worker.putMem, putMem, modify. cbn. split; [done|].
  unfold abs, abs_store, set_StoreMgr, set_Mems. cbn. by rewrite abs_pool_update.
Qed.
Lemma agree_putGlob a g w : agree eq (Worker.putGlob a g) (putGlob a (obj g)) w.
Proof.
  unfold agree, Worker.putGlob, putGlob, modify. cbn. split; [done|].
  unfold abs, abs_store, set_StoreMgr, set_Globs. cbn. by rewrite abs_pool_update.
Qed.

(** An operation of a memory; its two versions agree on the data. *)
Lemma agree_onMem {A B} (R : A -> B -> Prop) a mem (op : M MemoryInstance A) (op' : M MemoryInstance B) w :
  outcomes R eq (op (obj mem)) (op' (obj mem)) ->
  agree R (Worker.onMem a mem op) (onMem a (obj mem) op') w.
Proof.
  unfold Worker.onMem, onMem. destruct (op (obj mem)) as [r m1], (op' (obj mem)) as [r' m2].
  intros Ho. pose proof (agree_putMem a (set_obj m1 mem) w) as Hp. cbn in Hp.
  unfold agree in *. unfold bind, lift. cbn in *. destruct r, r'; cbn in *; try done.
  all: destruct Ho as [? ->]; split; [done|apply Hp].
Qed.

(** ** Instructions without control *)

Lemma agree_pop_u32 w : agree eq Worker.pop_u32
  (let* v := onStack Stack.pop in lift (retrieveValue U32 v)) w.
Proof.
  eapply (agree_bind eq); [apply agree_onStack, stack_pop_unchecked|]. intros v ? w1 _ <-.
  apply agree_lift. destruct (retrieveValue U32 v); cbn; auto with ssvm.
Qed.
Lemma agree_read T v w : agree eq (lift (retrieveValue T v)) (lift (retrieveValue T v)) w.
Proof. apply agree_lift. destruct (retrieveValue T v); cbn; auto with ssvm. Qed.

Lemma agree_variable Code Idx w : agree eq (Worker.executeVariable Code Idx) (executeVariable Code Idx) w.
Proof.
  destruct Code; try apply agree_undef_l; cbn.
  - apply agree_onStack, sim_local_get.
  - apply agree_onStack, sim_local_set.
  - apply agree_onStack, sim_local_tee.
  - eapply agree_bind; [apply agree_getGlob|]. intros [a g] [a' g'] w1 _ [E1 E2]; cbn [fst snd] in *; subst.
    apply agree_onStack, outcomes_refl.
  - eapply agree_bind; [apply agree_getGlob|]. intros [a g] [a' g'] w1 _ [E1 E2]; cbn [fst snd] in *; subst.
    eapply (agree_bind eq); [apply agree_onStack, stack_pop|]. intros v ? w2 _ <-.
    apply (agree_putGlob a' (set_obj (LGlob.setValue v (obj g)) g)).
Qed.

Lemma agree_parametric Code w : agree eq (Worker.executeParametric Code) (executeParametric Code) w.
Proof.
  destruct Code; try apply agree_undef_l; cbn.
  - unfold Worker.ignore, agree, bind, try, Worker.onStack, onStack, zoom, LStack.pop, Stack.pop. cbn.
    by destruct (ValueStack (Worker.StackMgr w)).
  - apply agree_onStack, sim_select.
Qed.

Lemma unary_op_agree Code : Worker.unary_op Code = unary_op Code.
Proof. by destruct Code. Qed.
Lemma binary_op_agree Code : Worker.binary_op Code = binary_op Code.
Proof. by destruct Code. Qed.

Lemma agree_unary Code w : agree eq (Worker.executeUnary Code) (executeUnary Code) w.
Proof.
  apply agree_onStack. rewrite unary_op_agree.
  eapply outcomes_bind; [apply (outcomes_refl (Stack.getTop _))|]. intros v ? k ? _ _ <- <-.
  destruct (unary_op Code) as [f|]; [apply outcomes_refl|done].
Qed.
Lemma agree_binary Code w : agree eq (Worker.executeBinary Code) (executeBinary Code) w.
Proof.
  apply agree_onStack. rewrite binary_op_agree.
  eapply outcomes_bind; [apply stack_pop_unchecked|]. intros v2 ? k ? _ _ <- <-.
  eapply outcomes_bind; [apply (outcomes_refl (Stack.getTop k))|]. intros v1 ? k1 ? _ _ <- <-.
  destruct (binary_op Code) as [f|]; [apply outcomes_refl|done].
Qed.

Lemma agree_load T n Offset w :
  0 < n / 8 ->
  agree eq (Worker.runLoadOp T n Offset) (let* am := getMemInstByIdx 0 in runLoadOp T n am.1 am.2 Offset) w.
Proof.
  intros Hn. eapply agree_bind; [apply agree_getMem|].
  intros [a m] [a' m'] w1 _ [E1 E2]; cbn [fst snd] in *; subst.
  eapply (agree_bind eq); [apply agree_onStack, outcomes_refl|]. intros v ? w2 _ <-.
  eapply (agree_bind eq); [apply agree_read|]. intros b ? w3 _ <-.
  eapply agree_bind; [apply agree_onMem, loadValue_agree, Hn|]. intros x ? w4 _ ->.
  apply agree_onStack, outcomes_refl.
Qed.
Lemma agree_store T n Offset w :
  0 < n / 8 ->
  agree eq (Worker.runStoreOp T n Offset) (let* am := getMemInstByIdx 0 in runStoreOp T n am.1 am.2 Offset) w.
Proof.
  intros Hn. eapply agree_bind; [apply agree_getMem|].
  intros [a m] [a' m'] w1 _ [E1 E2]; cbn [fst snd] in *; subst.
  eapply (agree_bind eq); [apply agree_onStack, stack_pop_unchecked|]. intros c ? w2 _ <-.
  eapply (agree_bind eq); [apply agree_onStack, stack_pop_unchecked|]. intros i ? w3 _ <-.
  eapply (agree_bind eq); [apply agree_read|]. intros b ? w4 _ <-.
  eapply (agree_bind eq); [apply agree_read|]. intros x ? w5 _ <-.
  apply agree_onMem, storeValue_agree, Hn.
Qed.

Lemma agree_memory_size w :
  agree eq Worker.runMemorySizeOp (let* am := getMemInstByIdx 0 in runMemorySizeOp am.2) w.
Proof.
  eapply agree_bind; [apply agree_getMem|]. intros [a m] [a' m'] w1 _ [E1 E2]; cbn [fst snd] in *; subst.
  apply agree_onStack, outcomes_refl.
Qed.

(** The status of [growPage] is a value on both sides. *)
Lemma agree_try_grow N a mem w :
  agree eq (try (Worker.onMem a mem (LMem.growPage N))) (try (onMem a (obj mem) (growPage N))) w.
Proof.
  unfold Worker.onMem, onMem, LMem.growPage, growPage.
  pose proof (fun m => agree_putMem a (set_obj m mem) w) as Hp. unfold agree in *.
  destruct (_ || _); unfold try, bind, lift; cbn; (split; [done|]).
  - apply (Hp (obj mem)).
  - apply (Hp (set_CurrPage (wrap 32 (CurrPage (obj mem) + N)) (obj mem))).
Qed.

Lemma agree_memory_grow w :
  agree eq Worker.runMemoryGrowOp (let* am := getMemInstByIdx 0 in runMemoryGrowOp am.1 am.2) w.
Proof.
  eapply agree_bind; [apply agree_getMem|]. intros [a m] [a' m'] w1 _ [E1 E2]; cbn [fst snd] in *; subst.
  eapply (agree_bind eq); [apply agree_onStack, outcomes_refl|]. intros v ? w2 _ <-.
  eapply (agree_bind eq); [apply agree_read|]. intros N ? w3 _ <-.
  eapply (agree_bind eq); [apply agree_try_grow|]. intros r ? w4 _ <-.
  apply agree_onStack, outcomes_refl.
Qed.

Lemma agree_memory Code Offset w : agree eq (Worker.executeMemory Code Offset) (executeMemory Code Offset) w.
Proof.
  unfold Worker.executeMemory, executeMemory.
  destruct Code; try apply agree_undef_l; cbn [load_shape store_shape];
    try (by apply agree_load); try (by apply agree_store);
    [apply agree_memory_grow || apply agree_memory_size..].
Qed.

(** ** Calls *)

Lemma agree_enterBlock Arity Instr Seq w :
  agree eq (Worker.enterBlock Arity Instr Seq) (enterBlock Arity Instr Seq) w.
Proof. by split. Qed.

Lemma agree_push_locals Locals w : agree eq (Worker.push_locals Locals) (push_locals Locals) w.
Proof.
  revert w. induction Locals as [|d Locals IH]; intros w; [by apply agree_ret|].
  eapply (agree_bind eq); [apply agree_onStack, outcomes_refl|]. intros [] ? w1 _ _. apply IH.
Qed.

(** Reading a memory instance changes nothing, does not look at the measurement and has no
    error to return. *)
Lemma getMem_pure Idx (s : Interpreter EM) x :
  getMemInstByIdx Idx (set_Measure x s) = ((getMemInstByIdx Idx s).1, set_Measure x s) /\
  ((exists am, getMemInstByIdx Idx s = (Ok am, s)) \/ (exists u, getMemInstByIdx Idx s = (Undef u, s))).
Proof.
  unfold getMemInstByIdx, currentModule, onStack, zoom, Stack.getModuleAddr, bind, lift, deref, get, ret.
  destruct s as [k its me st h md]. cbn. destruct (FrameStack k) as [|f fs]; cbn; [eauto|].
  unfold getInstance, get_at. destruct (atZ _ (ModAddr f)) as [m|]; cbn; [|eauto].
  destruct (atZ (MemAddrs m) Idx) as [a|]; cbn; [|eauto].
  destruct (atZ _ a); cbn; eauto.
Qed.

Lemma addCost_agree c (w : Worker.Worker H) :
  let '(b, env) := Env.addCost c (Worker.EnvMgr w) in
  addCost c (abs_measure w) = (b, abs_measure (Worker.set_EnvMgr env w)) /\
  no_costs env = no_costs (Worker.EnvMgr w).
Proof.
  unfold Env.addCost, addCost. cbn. by destruct (_ >? _).
Qed.

Lemma with_no_costs (e : EM) : with_costs (Env.CostLimit e) (Env.CostSum e) (no_costs e) = e.
Proof. by destruct e. Qed.

(** The tail of a host call, once the cost is paid and the memory is found. *)
Lemma agree_hostRun t (h : LHost.HostFunctionBase H) a mem w :
  agree eq
    (let* w := get in
     match LHost.lhRun h (Worker.EnvMgr w) (Worker.StackMgr w) (obj mem) with
     | (r, (env, stk, mem')) =>
         put (Worker.set_EnvMgr env (Worker.set_StackMgr stk w)) ;;;
         Worker.putMem a (set_obj mem' mem) ;;;
         let* Status := lift r in
         if bool_decide (Status <> Success) then throw Status else ret tt
     end)
    (let* s := get in
     match hfRun (abs_host t h) (StackMgr s) (obj mem) (Measure s) (HostState s) with
     | (r, (stk, mem', mea, hs)) =>
         put (mkInterp stk (Iters s) mea (StoreMgr s) hs (InsMode s)) ;;;
         putMem a mem' ;;;
         let* Status := lift r in
         if bool_decide (Status <> Success) then throw Status else ret tt
     end) w.
Proof.
  apply agree_get. cbn [hfRun abs_host abs Measure HostState StackMgr].
  change (with_costs (CostLimit (abs_measure w)) (CostSum (abs_measure w)) (no_costs (Worker.EnvMgr w)))
    with (with_costs (Env.CostLimit (Worker.EnvMgr w)) (Env.CostSum (Worker.EnvMgr w))
            (no_costs (Worker.EnvMgr w))).
  rewrite with_no_costs.
  destruct (LHost.lhRun h (Worker.EnvMgr w) (Worker.StackMgr w) (obj mem)) as [r [[env stk] mem']].
  eapply (agree_bind eq); [by split|]. intros [] ? w1 _ _.
  eapply (agree_bind eq); [apply (agree_putMem a (set_obj mem' mem))|]. intros [] ? w2 _ _.
  eapply (agree_bind eq). { apply agree_lift. destruct r; cbn; auto with ssvm. }
  intros st ? w3 _ <-. destruct (bool_decide _); [apply agree_throw; by auto with ssvm|by apply agree_ret].
Qed.

Lemma agree_callHost n w :
  LFunc.IsHostFunction (obj n) = true ->
  is_Some (atZ (Worker.HostFuncMgr w) (LFunc.HostFuncAddr (obj n))) ->
  agree eq (Worker.callHost (obj n)) (enterFunction (abs_func (Worker.HostFuncMgr w) n)) w.
Proof.
  intros Hh [h Ea]. unfold abs_func. rewrite Hh, Ea. cbn [enterFunction].
  set (t := default _ _). unfold Worker.callHost, callHost. unfold agree. rewrite bind_get.
  unfold LHost.getHostFunction. rewrite Ea. unfold bind at 1, lift at 1.
  pose proof (addCost_agree (LHost.lhCost h) w) as Hc.
  unfold bind at 1, Worker.charge. destruct (Env.addCost (LHost.lhCost h) (Worker.EnvMgr w)) as [b env].
  destruct Hc as [Hc He]. set (w1 := Worker.set_EnvMgr env w) in *.
  assert (abs w1 = set_Measure (Some (abs_measure w1)) (abs w)) as Ew.
  { unfold abs, set_Measure. cbn. by rewrite He. }
  destruct (getMem_pure 0 (abs w) (Some (abs_measure w1))) as [Hm1 [[[a' m'] Em]|[u Em]]];
    rewrite (bind_eq (getMemInstByIdx 0) _ (abs w)), Em; [|auto with ssvm].
  rewrite Em, <- Ew in Hm1. cbn in Hm1.
  pose proof (agree_getMem 0 w1) as Hg. unfold agree in Hg. rewrite Hm1 in Hg.
  rewrite bind_get. change (Measure (abs w)) with (Some (abs_measure w)).
  change (hfCost (abs_host t h)) with (LHost.lhCost h). cbv beta iota. rewrite Hc.
  rewrite bind_assoc. change (bind (modify ?f) ?k (abs w)) with (k tt (f (abs w))). cbv beta.
  rewrite <- Ew. destruct b; [|by split; [left|]]. rewrite bind_eq.
  change (bind (ret tt) ?k (abs w1)) with (k tt (abs w1)). cbv beta.
  destruct (Worker.getMemInstByIdx 0 w1) as [[[a m]|e|u|] w2] eqn:E1; cbn in Hg; try done.
  destruct Hg as [[E2 E3] E4]; cbn in E2, E3; subst a' m'. rewrite E4.
  apply (agree_hostRun t h a m w2).
Qed.

(** The label count a frame keeps is exact as long as it fits in 32 bits. *)
Lemma agree_invoke a w :
  sizeZ (LabelStack (Worker.StackMgr w)) < 2 ^ 32 ->
  (forall n, LStore.getFunction a (Worker.StoreMgr w) = Ok n -> LFunc.IsHostFunction (obj n) = true ->
     is_Some (atZ (Worker.HostFuncMgr w) (LFunc.HostFuncAddr (obj n)))) ->
  agree eq (Worker.invokeFunction a)
    (let* s := get in
     let* FuncInst := deref (lift (getInstance a (Funcs (StoreMgr s)))) in enterFunction FuncInst) w.
Proof.
  intros Hl Hh. apply agree_get.
  eapply agree_bind; [apply (agree_instance (abs_func (Worker.HostFuncMgr w)))|].
  intros n ? w' E ->. unfold lift in E. injection E as En <-.
  cbv zeta. destruct (LFunc.IsHostFunction (obj n)) eqn:Ehost.
  { apply agree_callHost; [done|]. apply Hh; [exact En|done]. }
  unfold abs_func. rewrite Ehost. cbv zeta beta iota. cbn [enterFunction].
  destruct (LFunc.FuncType (obj n)) as [ft|]; [|apply agree_undef_l]. cbn [default].
  eapply (agree_bind eq).
  { apply agree_onStack. rewrite stack_pushFrame by done. apply outcomes_refl. }
  intros [] ? w1 _ _. eapply (agree_bind eq); [apply agree_push_locals|]. intros [] ? w2 _ _.
  eapply (agree_bind eq); [by split|]. intros [] ? w3 _ _. apply agree_enterBlock.
Qed.

End Sim.
