(* ===== verification/LegacyControl.v ===== *)
(** * Control in the two engines

    The first generation engine differs from the interpreter in how it branches: it pops
    the labels on the way one by one, and each of them erases values.  On code whose
    branches only cross labels with the arity of their target the two engines agree, as
    far as both are defined; [uniform] is the check.  On other code they can differ: the
    file ends with a function of which the first generation returns another result. *)
From stdpp Require Import base list numbers option.
From Stdlib Require Import ZArith Lia.
From S2P Require Import Prelude Types Instruction AST Numeric Memory StackMgr Runtime.
From S2P Require Import FormChecker Validator Interpreter.
From S2P Require Import LegacyRuntime LegacyWorker LegacyFacts LegacySim.
#[local] Open Scope Z_scope.

(** ** The check *)

(** [ctx] has the arities of the labels of the function, the innermost first. *)
Definition crosses (ctx : list Z) (n : Z) : bool :=
  match atZ ctx n with
  | Some k => forallb (Z.eqb k) (take (Z.to_nat n) ctx)
  | None => false
  end.

Definition label_arity (Code : OpCode) (bt : ValType) : Z :=
  match Code with Op_Loop => 0 | _ => block_arity bt end.

(** The old engine reads the index of a [br_table] as a signed number. *)
Fixpoint uniform (ctx : list Z) (i : Instr) : bool :=
  match i with
  | BlockControlInstruction Code bt body => forallb (uniform (label_arity Code bt :: ctx)) body
  | IfElseControlInstruction _ bt ifs els =>
      forallb (uniform (block_arity bt :: ctx)) ifs && forallb (uniform (block_arity bt :: ctx)) els
  | BrControlInstruction _ n => crosses ctx n
  | BrTableControlInstruction _ t n => forallb (crosses ctx) t && crosses ctx n && (sizeZ t <? 2 ^ 31)
  | _ => true
  end.

Definition uniform_code (ctx : list Z) (l : list Instr) : bool := forallb (uniform ctx) l.

(** ** Chains of scopes *)

(** The label of a loop refers to code that is uniform under it. *)
Definition target_ok (ctx : list Z) (L : Label) : Prop :=
  match Target L with
  | Some (BlockControlInstruction _ _ body) => uniform_code (0 :: ctx) body = true
  | _ => True
  end.

(** Each sequence of the provider is a function, with its frame, or a block, with its
    label; [Some ctx] are the arities of the labels of the current function. *)
Inductive chain : list LProv.InstrScope -> list Label -> list Frame -> option (list Z) -> Prop :=
| chain_nil ls fs : chain [] ls fs None
| chain_func its ls fs o f :
    chain its ls fs o -> LStackSize f = sizeZ ls ->
    chain (LProv.mkInstrScope LProv.FunctionCall [] :: its) ls (f :: fs) (Some [])
| chain_block its ls fs ctx l L :
    chain its ls fs (Some ctx) -> uniform_code (LCoarity L :: ctx) l = true -> target_ok ctx L ->
    chain (LProv.mkInstrScope LProv.Block l :: its) (L :: ls) fs (Some (LCoarity L :: ctx)).

Lemma chain_block_inv l its ls fs o :
  chain (LProv.mkInstrScope LProv.Block l :: its) ls fs o -> exists L ls' ctx,
    ls = L :: ls' /\ o = Some (LCoarity L :: ctx) /\ chain its ls' fs (Some ctx) /\
    uniform_code (LCoarity L :: ctx) l = true /\ target_ok ctx L.
Proof. intros Hc. inversion Hc; subst. eauto 10. Qed.

Lemma chain_head sc its ls fs o :
  chain (sc :: its) ls fs o ->
  (sc = LProv.mkInstrScope LProv.FunctionCall [] /\ o = Some []) \/
  exists l, sc = LProv.mkInstrScope LProv.Block l.
Proof. intros Hc. inversion Hc; subst; eauto. Qed.

Lemma chain_drop n its ls fs ctx :
  chain its ls fs (Some ctx) -> (n <= length ctx)%nat ->
  chain (drop n its) (drop n ls) fs (Some (drop n ctx)).
Proof.
  revert its ls ctx. induction n as [|n IH]; intros its ls ctx Hc Hn; [done|].
  inversion Hc; subst; cbn in Hn; [lia|]. apply IH; [done|lia].
Qed.

(** Labels and sequences of the current function. *)
Lemma chain_labels its ls fs o ctx :
  chain its ls fs o -> o = Some ctx ->
  LCoarity <$> take (length ctx) ls = ctx /\ (length ctx < length its)%nat.
Proof.
  intros Hc. revert ctx. induction Hc as [|its ls fs o f Hc IH Hf|its ls fs ctx l L Hc IH Hl Ht];
    intros c Ho; simplify_eq; cbn; [split; [done|lia]|].
  destruct (IH ctx eq_refl) as [E Hlen]. split; [by rewrite E|lia].
Qed.

Lemma chain_label its ls fs ctx n k :
  chain its ls fs (Some ctx) -> ctx !! n = Some k -> exists L, ls !! n = Some L /\ LCoarity L = k.
Proof.
  intros Hc Hn. destruct (chain_labels _ _ _ _ _ Hc eq_refl) as [E _].
  rewrite <- E, list_lookup_fmap in Hn. apply fmap_Some in Hn as (L & HL & ->).
  exists L. split; [|done]. rewrite lookup_take in HL. by case_decide.
Qed.

(** What the end of the function leaves. *)
Lemma chain_return its ls fs ctx :
  chain its ls fs (Some ctx) ->
  exists f fs' o, fs = f :: fs' /\ (length ctx <= length ls)%nat /\
    LStackSize f = sizeZ (drop (length ctx) ls) /\
    chain (drop (S (length ctx)) its) (drop (length ctx) ls) fs' o.
Proof.
  remember (Some ctx) as o eqn:Ho. intros Hc. revert ctx Ho.
  induction Hc as [|its ls fs o f Hc IH Hf|its ls fs ctx l L Hc IH Hl Ht]; intros c Ho; simplify_eq.
  - exists f, fs, o. split_and!; try done. cbn. lia.
  - destruct (IH ctx eq_refl) as (f & fs' & o & -> & Hlen & Hf & Hr). exists f, fs', o.
    cbn. split_and!; try done. lia.
Qed.

Lemma chain_target its ls fs ctx n L :
  chain its ls fs (Some ctx) -> (n < length ctx)%nat -> ls !! n = Some L ->
  target_ok (drop (S n) ctx) L.
Proof.
  revert its ls ctx. induction n as [|n IH]; intros its ls ctx Hc Hn HL; inversion Hc; subst;
    cbn in Hn; try lia; cbn in HL; simplify_eq; [done|].
  eapply IH; [done|lia|done].
Qed.

(** ** Branches *)

Lemma erase_mid_twice {A} i j k (l l1 l2 : list A) :
  erase_mid i k l = Ok l1 -> erase_mid j k l1 = Ok l2 -> erase_mid j k l = Ok l2.
Proof.
  unfold erase_mid. destruct (_ && _) eqn:E1; [|done]. intros [= <-].
  apply andb_true_iff in E1 as [E1 Hi2]. apply andb_true_iff in E1 as [Hi Hk].
  apply Z.leb_le in Hi, Hk, Hi2.
  assert (sizeZ (take (Z.to_nat k) l ++ drop (Z.to_nat (sizeZ l - i)) l) = k + i) as Hs.
  { unfold sizeZ in *. rewrite length_app, length_take, length_drop. lia. }
  rewrite Hs. destruct (_ && _) eqn:E2; [|done]. intros [= <-].
  apply andb_true_iff in E2 as [E2 Hj2]. apply andb_true_iff in E2 as [Hj _].
  apply Z.leb_le in Hj, Hj2.
  replace ((0 <=? j) && (0 <=? k) && (j <=? sizeZ l - k)) with true
    by (symmetry; rewrite !andb_true_iff, !Z.leb_le; lia).
  f_equal. unfold sizeZ in *. rewrite take_app_le by (rewrite length_take; lia).
  rewrite take_take, Nat.min_id. f_equal.
  rewrite drop_app_ge by (rewrite length_take; lia). rewrite drop_drop, length_take. f_equal. lia.
Qed.

Section Control.
Context {H : Type}.
#[local] Abbreviation EM := (Env.EnvironmentManager H).
#[local] Abbreviation W := (Worker.Worker H).
#[local] Abbreviation MW := (M W).
#[local] Abbreviation MI := (M (Interpreter EM)).
Implicit Types w : W.

Definition values w : list ValVariant := ValueStack (Worker.StackMgr w).
Definition labels w : list Label := LabelStack (Worker.StackMgr w).
Definition frames w : list Frame := FrameStack (Worker.StackMgr w).

Definition with_control (its : list LProv.InstrScope) (k : StackManager) w : W :=
  Worker.set_InstrPdr its (Worker.set_StackMgr k w).

Lemma popLabels_S n w L ls i its :
  labels w = L :: ls -> Worker.InstrPdr w = i :: its ->
  Worker.popLabels (S n) w =
    match erase_mid (LStackSz L) (LCoarity L) (values w) with
    | Ok vs => Worker.popLabels n (with_control its (mkStack vs ls (frames w)) w)
    | _ => (Undef UB_vector, w)
    end.
Proof.
  destruct w as [st [vs ls' fs] hf env ts pdr cnt ct]. unfold labels, values, frames. cbn. intros -> ->.
  unfold Worker.ignore, Worker.onStack, zoom, bind, try, LStack.popLabel. cbn.
  by destruct (erase_mid _ _ vs).
Qed.

(** As many labels as the branch counts, all with the arity of the last one. *)
Lemma popLabels_run n w L :
  (n < length (Worker.InstrPdr w))%nat -> labels w !! n = Some L ->
  Forall (fun L' => LCoarity L' = LCoarity L) (take n (labels w)) ->
  (exists u w', Worker.popLabels (S n) w = (Undef u, w')) \/
  (exists vs, erase_mid (LStackSz L) (LCoarity L) (values w) = Ok vs /\
     Worker.popLabels (S n) w = (Ok tt,
       with_control (drop (S n) (Worker.InstrPdr w)) (mkStack vs (drop (S n) (labels w)) (frames w)) w)).
Proof.
  revert w. induction n as [|n IH]; intros w Hn HL Hall;
    destruct (labels w) as [|L0 ls] eqn:El; try done; destruct (Worker.InstrPdr w) as [|i its] eqn:Ei;
    try (cbn in Hn; lia); rewrite (popLabels_S _ _ _ _ _ _ El Ei); cbn in HL.
  - simplify_eq. destruct (erase_mid _ _ _) as [vs|e|u|] eqn:Ee; try by (left; eauto).
    right. by exists vs.
  - cbn in Hall. apply Forall_cons_1 in Hall as [H0 Hall].
    destruct (erase_mid (LStackSz L0) _ _) as [vs0|e|u|] eqn:Ee; try by (left; eauto).
    set (w1 := with_control its (mkStack vs0 ls (frames w)) w).
    destruct (IH w1) as [(u & w' & E)|(vs & Ev & E)]; [cbn in *; lia|done|done| |].
    + left. eauto.
    + right. exists vs. split; [|exact E]. rewrite H0 in Ee.
      by eapply erase_mid_twice.
Qed.

Lemma popInstrs_n_abs n (s : Interpreter EM) :
  popInstrs_n n s = (Ok tt, set_Iters (drop n (Iters s)) s).
Proof.
  revert s. induction n as [|n IH]; intros [k its me st h md]; [done|].
  unfold popInstrs_n; fold (popInstrs_n (H := EM)). unfold bind, try, popInstrs. cbn [Iters].
  destruct its as [|i its]; rewrite IH; cbn; [by rewrite drop_nil|done].
Qed.

(** ** Leaving blocks and functions *)

Lemma agree_popInstrs w : agree eq (Worker.ignore (Worker.onPdr LProv.popInstrs)) (try popInstrs ;;; ret tt) w.
Proof.
  unfold agree, Worker.ignore, bind, try, Worker.onPdr, zoom, popInstrs, LProv.popInstrs. cbn.
  by destruct w as [? ? ? ? ? [|i its] ? ?].
Qed.

Lemma agree_popInstrs_n n w : agree eq (Worker.popInstrs_n n) (popInstrs_n n) w.
Proof.
  revert w. induction n as [|n IH]; intros w; [by apply agree_ret|]. cbn.
  change (agree eq (Worker.ignore (Worker.onPdr LProv.popInstrs) ;;; Worker.popInstrs_n n)
    (bind (try popInstrs) (fun _ => bind (ret tt) (fun _ => popInstrs_n n))) w).
  unfold agree. rewrite <- bind_assoc.
  eapply (agree_bind eq); [apply agree_popInstrs|]. intros [] ? w' _ _. apply IH.
Qed.

Lemma agree_return w : agree eq Worker.returnFunction leaveFunction w.
Proof.
  eapply (agree_bind eq); [apply agree_onStack, stack_popFrame|]. intros n ? w1 _ <-.
  eapply (agree_bind eq); [apply agree_popInstrs_n|]. intros [] ? w2 _ _. apply agree_popInstrs.
Qed.

Lemma agree_leaveBlock w : Worker.InstrPdr w <> [] -> agree eq Worker.leaveBlock leaveBlock w.
Proof.
  destruct w as [st k hf env ts [|i its] cnt ct]; [done|intros _].
  destruct k as [vs [|L ls] fs]; [apply outcomes_undef_r|].
  pose proof (stack_popLabel (mkStack vs (L :: ls) fs)) as Hp.
  unfold agree, Worker.leaveBlock, leaveBlock, Worker.ignore, bind, try, Worker.onStack, onStack, zoom.
  cbn [Worker.StackMgr abs StackMgr].
  assert (forall e, (Stack.popLabel 1 (mkStack vs (L :: ls) fs)).1 <> Err e) as He.
  { intros e. unfold Stack.popLabel, Stack.getLabelWithCount, bind, get, LabelStack.
    change (atZ (L :: ls) (1 - 1)) with (Some L). cbn [ValueStack]. by destruct (erase_mid _ _ vs). }
  destruct (LStack.popLabel _) as [[] k1], (Stack.popLabel 1 _) as [[] k2]; cbn in *; try done;
    try (by destruct (He _ eq_refl)). by destruct Hp as [_ ->].
Qed.

(** ** Branches in the two engines *)

Definition size w : Z := sizeZ (Worker.InstrPdr w) + sizeZ (labels w).

Lemma crosses_spec ctx n : crosses ctx n = true -> exists i k,
  n = Z.of_nat i /\ ctx !! i = Some k /\ Forall (eq k) (take i ctx).
Proof.
  unfold crosses, atZ. destruct (Z.leb_spec 0 n) as [Hn|]; [|done].
  destruct (ctx !! Z.to_nat n) as [k|] eqn:Ek; [|done]. intros Hall.
  exists (Z.to_nat n), k. split_and!; [lia|done|]. apply Is_true_true, forallb_True in Hall.
  eapply Forall_impl; [|exact Hall]. intros x Hx. by apply Z.eqb_eq, Is_true_true.
Qed.

(** The label a branch goes to. *)
Lemma branch_label n w ctx :
  chain (Worker.InstrPdr w) (labels w) (frames w) (Some ctx) -> crosses ctx n = true ->
  size w < 2 ^ 32 ->
  exists i L, n = Z.of_nat i /\ labels w !! i = Some L /\ (i < length ctx)%nat /\
    (i < length (Worker.InstrPdr w))%nat /\
    Forall (fun L' => LCoarity L' = LCoarity L) (take i (labels w)) /\
    wrap 32 (n + 1) = Z.of_nat (S i) /\
    LStack.getLabelWithCount n (Worker.StackMgr w) = (Ok L, Worker.StackMgr w) /\
    Stack.getLabelWithCount n (Worker.StackMgr w) = (Ok L, Worker.StackMgr w).
Proof.
  intros Hc Hn Hs. apply crosses_spec in Hn as (i & k & -> & Hk & Hall).
  destruct (chain_label _ _ _ _ _ _ Hc Hk) as (L & HL & HLk).
  destruct (chain_labels _ _ _ _ _ Hc eq_refl) as [Hctx Hlen].
  pose proof (lookup_lt_Some _ _ _ Hk) as Hi. pose proof (lookup_lt_Some _ _ _ HL) as Hi'.
  exists i, L. unfold size, sizeZ in Hs.
  assert (wrap 32 (Z.of_nat i + 1) = Z.of_nat (S i)) as Hw.
  { rewrite wrap_small; [lia|]. unfold in_u. lia. }
  split_and!; try done; [lia| | |].
  - rewrite <- Hctx in Hall. rewrite <- fmap_take, take_take in Hall.
    replace (i `min` length ctx)%nat with i in Hall by lia.
    rewrite Forall_fmap in Hall. eapply Forall_impl; [|exact Hall]. cbn. by intros L' <-.
  - unfold LStack.getLabelWithCount. rewrite Hw. fold (labels w). unfold sizeZ.
    replace (Z.of_nat (length (labels w)) <? Z.of_nat (S i)) with false
      by (symmetry; apply Z.ltb_ge; lia).
    rewrite (wrap_small 32 (Z.of_nat (length (labels w)) - Z.of_nat i - 1)) by (unfold in_u; lia).
    replace (Z.of_nat (length (labels w)) - 1 - (Z.of_nat (length (labels w)) - Z.of_nat i - 1))
      with (Z.of_nat i) by lia.
    unfold atZ. replace (0 <=? Z.of_nat i) with true by (symmetry; apply Z.leb_le; lia).
    by rewrite Nat2Z.id, HL.
  - unfold Stack.getLabelWithCount, atZ. replace (0 <=? Z.of_nat i) with true by (symmetry; apply Z.leb_le; lia).
    fold (labels w). by rewrite Nat2Z.id, HL.
Qed.

Definition branched (i : nat) (vs : list ValVariant) w : W :=
  with_control (drop (S i) (Worker.InstrPdr w)) (mkStack vs (drop (S i) (labels w)) (frames w)) w.

Definition continue (run : Instr -> MW unit) (L : Label) : MW unit :=
  match Target L with Some ContInstr => run ContInstr | None => ret tt end.

(** The old engine's branch is undefined, or one erasure. *)
Lemma legacy_branch_run n w ctx :
  chain (Worker.InstrPdr w) (labels w) (frames w) (Some ctx) -> crosses ctx n = true ->
  size w < 2 ^ 32 ->
  (exists u w', Worker.branchToLabel n w = (Undef u, w')) \/
  (exists i L vs, n = Z.of_nat i /\ labels w !! i = Some L /\ (i < length ctx)%nat /\
     erase_mid (LStackSz L) (LCoarity L) (values w) = Ok vs /\
     Worker.branchToLabel n w = continue Worker.runLoopOp L (branched i vs w) /\
     (onStack (Stack.popLabel (wrap 32 (n + 1))) ;;; popInstrs_n (Z.to_nat (wrap 32 (n + 1)))) (abs w)
       = (Ok tt, abs (branched i vs w)) /\
     onStack (Stack.getLabelWithCount n) (abs w) = (Ok L, abs w)).
Proof.
  intros Hc Hn Hs. destruct (branch_label n w ctx Hc Hn Hs)
    as (i & L & -> & HL & Hi & Hi' & Hall & Hw & Hg & Hg').
  assert (Worker.branchToLabel (Z.of_nat i) w =
    (Worker.popLabels (S i) ;;; continue Worker.runLoopOp L) w) as E1.
  { unfold Worker.branchToLabel. rewrite (bind_Ok _ _ w L w).
    - rewrite Hw, Nat2Z.id. reflexivity.
    - unfold Worker.onStack, zoom. rewrite Hg. by destruct w. }
  destruct (popLabels_run i w L Hi' HL Hall) as [(u & w' & E)|(vs & Ev & E)].
  { left. exists u, w'. by rewrite E1, bind_eq, E. }
  right. exists i, L, vs. split_and!; try done.
  - by rewrite E1, (bind_Ok _ _ _ _ _ E).
  - rewrite Hw. rewrite (bind_Ok _ _ _ tt
      (set_StackMgr (mkStack vs (drop (S i) (labels w)) (frames w)) (abs w))).
    + rewrite Nat2Z.id, popInstrs_n_abs. unfold branched, abs, with_control. cbn [Iters set_Iters set_StackMgr
        Worker.InstrPdr Worker.StackMgr Worker.set_InstrPdr Worker.set_StackMgr]. by rewrite fmap_drop.
    + unfold onStack, zoom, Stack.popLabel. cbn [abs StackMgr].
      replace (Z.of_nat (S i) - 1) with (Z.of_nat i) by lia.
      rewrite (bind_Ok _ _ _ _ _ Hg'), bind_get. fold (values w). rewrite Ev.
      cbn. by rewrite Nat2Z.id.
  - unfold onStack, zoom. cbn [abs StackMgr]. by rewrite Hg'.
Qed.

Lemma agree_branch n w ctx :
  chain (Worker.InstrPdr w) (labels w) (frames w) (Some ctx) -> crosses ctx n = true ->
  size w < 2 ^ 32 -> agree eq (Worker.branchToLabel n) (branchToLabel runLoopOp n) w.
Proof.
  intros Hc Hn Hs.
  destruct (legacy_branch_run n w ctx Hc Hn Hs) as [(u & w' & E)|(i & L & vs & -> & HL & Hi & Ev & E1 & E2 & E3)].
  { unfold agree. rewrite E. auto with ssvm. }
  unfold agree. rewrite E1. unfold branchToLabel. rewrite (bind_Ok _ _ _ _ _ E3).
  rewrite <- bind_assoc, (bind_Ok _ _ _ _ _ E2). unfold continue.
  destruct (Target L) as [[]|]; try apply agree_undef_l; [|by apply agree_ret].
  apply agree_enterBlock.
Qed.

(** ** Costs *)

Lemma agree_charge Code w :
  agree eq (let* c := Worker.costOf (byte_of_OpCode Code) in Worker.charge c Revert) (chargeInstr Code) w.
Proof.
  unfold agree, bind, Worker.costOf, chargeInstr. cbn [abs Measure]. unfold addInstrCost.
  change (CostTab (abs_measure w)) with (Worker.CostTable w).
  destruct (atZ (Worker.CostTable w) _) as [c|]; [|done].
  pose proof (addCost_agree c w) as Hc. unfold Worker.charge.
  destruct (Env.addCost c (Worker.EnvMgr w)) as [b env]. destruct Hc as [-> He].
  destruct b; cbn; (split; [first [done|by right]|unfold abs, set_Measure; cbn; by rewrite He]).
Qed.

Lemma agree_enter_if A w l :
  agree eq (if sizeZ l =? 0 then ret tt
            else let* c := Worker.costOf 5 in Worker.charge c Revert ;;; Worker.enterBlock A None l)
    (if sizeZ l =? 0 then ret tt else chargeInstr Op_Else ;;; enterBlock A None l) w.
Proof.
  destruct (sizeZ l =? 0); [by apply agree_ret|].
  unfold agree. rewrite <- bind_assoc.
  eapply (agree_bind eq); [apply (agree_charge Op_Else)|]. intros [] ? w1 _ _. apply agree_enterBlock.
Qed.

(** ** Control instructions *)

Lemma agree_if bt ifs els w : agree eq (Worker.runIfElseOp bt ifs els) (runIfElseOp bt ifs els) w.
Proof.
  unfold runIfElseOp, Worker.runIfElseOp. unfold agree.
  rewrite <- (bind_assoc (onStack Stack.pop) (fun Cond => lift (retrieveValue U32 Cond))).
  eapply (agree_bind eq); [apply agree_pop_u32|]. intros c ? w1 _ <-.
  destruct (negb (c =? 0)); apply agree_enter_if.
Qed.

Lemma pop_u32_control w c w' :
  Worker.pop_u32 w = (Ok c, w') ->
  0 <= c < 2 ^ 32 /\ exists vs, w' = Worker.set_StackMgr (set_values vs (Worker.StackMgr w)) w.
Proof.
  unfold Worker.pop_u32, bind, Worker.onStack, zoom, LStack.pop_unchecked, LStack.pop, lift.
  destruct w as [st [[|v vs] ls fs] hf env ts pdr cnt ct]; cbn; [done|].
  intros E. injection E as Er <-. split; [|by exists vs].
  unfold retrieveValue in Er. cbn in Er. simplify_eq. apply wrap_range. lia.
Qed.

Lemma agree_br_if n w ctx :
  chain (Worker.InstrPdr w) (labels w) (frames w) (Some ctx) -> crosses ctx n = true ->
  size w < 2 ^ 32 -> agree eq (Worker.runBrIfOp n) (runBrIfOp n) w.
Proof.
  intros Hc Hn Hs. unfold runBrIfOp, agree.
  rewrite <- (bind_assoc (onStack Stack.pop) (fun Cond => lift (retrieveValue U32 Cond))).
  eapply (agree_bind eq); [apply agree_pop_u32|]. intros c ? w1 Hp <-.
  apply pop_u32_control in Hp as (_ & vs & ->).
  destruct (negb (c =? 0)); [|by apply agree_ret]. by apply (agree_branch n _ ctx).
Qed.

Lemma agree_br_table t n w ctx :
  chain (Worker.InstrPdr w) (labels w) (frames w) (Some ctx) ->
  forallb (crosses ctx) t = true -> crosses ctx n = true -> sizeZ t < 2 ^ 31 ->
  size w < 2 ^ 32 -> agree eq (Worker.runBrTableOp t n) (runBrTableOp t n) w.
Proof.
  intros Hc Ht Hn Hsz Hs. unfold runBrTableOp, agree.
  rewrite <- (bind_assoc (onStack Stack.pop) (fun v => lift (retrieveValue U32 v))).
  eapply (agree_bind eq); [apply agree_pop_u32|]. intros c ? w1 Hp <-.
  apply pop_u32_control in Hp as (Hr & vs & ->).
  assert ((wrap 64 (sgn 32 c) <? sizeZ t) = (c <? sizeZ t)) as Hidx.
  { unfold sgn, wrap. rewrite (Z.mod_small c) by lia.
    destruct (Z.ltb_spec c (2 ^ (32 - 1))).
    - by rewrite Z.mod_small by lia.
    - rewrite <- (Z.mod_add _ 1) by lia. rewrite Z.mod_small by lia.
      transitivity false; [|symmetry]; apply Z.ltb_ge; lia. }
  cbv zeta. rewrite Hidx. destruct (Z.ltb_spec c (sizeZ t)) as [Hlt|Hge].
  - assert (wrap 64 (sgn 32 c) = c) as ->.
    { unfold sgn, wrap. rewrite (Z.mod_small c) by lia.
      replace (c <? 2 ^ (32 - 1)) with true by (symmetry; apply Z.ltb_lt; lia). by rewrite Z.mod_small by lia. }
    destruct (atZ t c) as [l|] eqn:El; [|apply agree_undef_l].
    apply (agree_branch l _ ctx); [done| |done].
    apply Is_true_true, forallb_True in Ht. unfold atZ in El. destruct (0 <=? c); [|done].
    apply Is_true_true. by eapply (Forall_lookup_1 _ _ _ _ Ht).
  - assert (atZ t c = None) as ->.
    { unfold atZ. destruct (0 <=? c); [|done]. apply lookup_ge_None. unfold sizeZ in *. lia. }
    by apply (agree_branch n _ ctx).
Qed.

(** ** Calls *)

Definition func_ok (hs : list (LHost.HostFunctionBase H)) (f : LFunc.FunctionInstance) : Prop :=
  if LFunc.IsHostFunction f then is_Some (atZ hs (LFunc.HostFuncAddr f))
  else forall t, LFunc.FuncType f = Some t -> uniform_code [sizeZ (Returns t)] (LFunc.Instrs f) = true.

(** A host function works on the values of the stack. *)
Definition host_ok (h : LHost.HostFunctionBase H) : Prop := forall env k mem,
  let '(_, (_, k', _)) := LHost.lhRun h env k mem in
  LabelStack k' = LabelStack k /\ FrameStack k' = FrameStack k.

(** What a run reads and never changes. *)
Definition code w : list (Named LFunc.FunctionInstance) * list (LHost.HostFunctionBase H) :=
  (LStore.FuncInsts (Worker.StoreMgr w), Worker.HostFuncMgr w).
Definition code_ok w : Prop :=
  Forall (fun n => func_ok (Worker.HostFuncMgr w) (obj n)) (LStore.FuncInsts (Worker.StoreMgr w)) /\
  Forall host_ok (Worker.HostFuncMgr w).

Lemma getFunction_ok a n w :
  code_ok w -> LStore.getFunction a (Worker.StoreMgr w) = Ok n -> func_ok (Worker.HostFuncMgr w) (obj n).
Proof.
  intros [Hf _]. unfold LStore.getFunction, LStore.getInstance, get_at, atZ.
  destruct (0 <=? a); [|done]. destruct (_ !! _) as [n'|] eqn:E; [|done]. intros [= ->].
  exact (Forall_lookup_1 _ _ _ _ Hf E).
Qed.

Lemma agree_invoke_ok a w :
  code_ok w -> size w < 2 ^ 32 ->
  agree eq (Worker.invokeFunction a)
    (let* s := get in
     let* FuncInst := deref (lift (getInstance a (Funcs (StoreMgr s)))) in enterFunction FuncInst) w.
Proof.
  intros Hc Hs. apply agree_invoke.
  - unfold size, sizeZ in *. fold (labels w). lia.
  - intros n Hn Hh. apply getFunction_ok in Hn; [|done]. unfold func_ok in Hn. by rewrite Hh in Hn.
Qed.

Lemma getModInst_pure w m w' : Worker.getModInst w = (Ok m, w') -> w' = w.
Proof.
  unfold Worker.getModInst, bind, Worker.onStack, zoom, LStack.getModuleAddr, lift, get.
  destruct w as [st [vs ls [|f fs]] hf env ts pdr cnt ct]; cbn; [done|].
  intros E. by repeat case_match; simplify_eq.
Qed.

Lemma deref_Ok {S A} (m : M S A) s a s' : deref m s = (Ok a, s') -> m s = (Ok a, s').
Proof. unfold deref. by destruct (m s) as [[] ?]. Qed.

Lemma agree_call n w : code_ok w -> size w < 2 ^ 32 -> agree eq (Worker.runCallOp n) (runCallOp n) w.
Proof.
  intros Hc Hs. eapply agree_bind; [apply agree_deref, agree_getModInst|]. intros m ? w' E ->.
  apply deref_Ok, getModInst_pure in E as ->.
  unfold LMod.getFuncAddr. cbn [abs_mod FuncAddrs].
  destruct (get_at (LMod.FuncAddrs m) n) as [a|e|u|] eqn:Ea; try apply agree_undef_l.
  by apply agree_invoke_ok.
Qed.

Lemma zip_match {A} `{EqDecision A} (l k : list A) :
  sizeZ l = sizeZ k -> forallb (fun p => bool_decide (p.1 = p.2)) (zip l k) = bool_decide (l = k).
Proof.
  unfold sizeZ. revert k. induction l as [|x l IH]; intros [|y k] Hl; cbn in Hl; try lia; [done|].
  cbn. rewrite (IH k) by lia. destruct (decide (x = y)) as [->|Hn].
  - rewrite (bool_decide_eq_true_2 (y = y)) by done. cbn. apply bool_decide_ext. split; congruence.
  - rewrite bool_decide_eq_false_2 by done. symmetry. apply bool_decide_eq_false_2. congruence.
Qed.

Lemma ftype_match_spec a b : Worker.ftype_match a b =
  negb (bool_decide (Params a <> Params b) || bool_decide (Returns a <> Returns b)).
Proof.
  unfold Worker.ftype_match. rewrite negb_orb, <- !bool_decide_not.
  destruct (Z.eqb_spec (sizeZ (Params a)) (sizeZ (Params b))) as [E1|N1]; cbn.
  2: { rewrite bool_decide_eq_false_2; [done|]. intros H0. apply dec_stable in H0. by rewrite H0 in N1. }
  destruct (Z.eqb_spec (sizeZ (Returns a)) (sizeZ (Returns b))) as [E2|N2]; cbn.
  2: { rewrite andb_comm, bool_decide_eq_false_2; [done|]. intros H0. apply dec_stable in H0.
       by rewrite H0 in N2. }
  rewrite !zip_match by done. f_equal; apply bool_decide_ext; (split; [by intros -> []|apply dec_stable]).
Qed.

(** The tail of an indirect call, from the type on. *)
Lemma agree_indirect_tail ft a w :
  code_ok w -> size w < 2 ^ 32 ->
  agree eq
    (let* w := get in
     let* FuncInst := lift (LStore.getFunction a (Worker.StoreMgr w)) in
     match LFunc.FuncType (obj FuncInst) with
     | None => undef UB_deref
     | Some DstFuncType =>
         if Worker.ftype_match ft DstFuncType then Worker.invokeFunction a else throw TypeNotMatch
     end)
    (let* s := get in
     let* FuncInst := deref (lift (getInstance a (Funcs (StoreMgr s)))) in
     let FuncType := getFuncTypeOf FuncInst in
     if bool_decide (Params ft <> Params FuncType) || bool_decide (Returns ft <> Returns FuncType)
     then throw TypeNotMatch
     else enterFunction FuncInst) w.
Proof.
  intros Hc Hs. pose proof (agree_invoke_ok a w Hc Hs) as Hi. unfold agree in *. rewrite !bind_get in *.
  pose proof (agree_instance (abs_func (Worker.HostFuncMgr w)) (LStore.FuncInsts (Worker.StoreMgr w)) a w) as Ha.
  unfold agree in Ha. change (abs_pool _ _) with (Funcs (StoreMgr (abs w))) in Ha.
  unfold LStore.getFunction. unfold bind at 1.
  destruct (lift (LStore.getInstance _ _) w) as [[n|e|u|] w1] eqn:E1; try done;
    (rewrite (bind_eq (deref _)); rewrite (bind_eq (deref _)) in Hi;
     destruct (deref (lift (getInstance a (Funcs (StoreMgr (abs w))))) (abs w)) as [[f|e'|u'|] s1] eqn:E2;
     cbn in Ha; try done; try exact Ha; auto with ssvm).
  destruct Ha as [-> ->]. destruct (LFunc.FuncType (obj n)) as [t|] eqn:Et; [|done].
  assert (getFuncTypeOf (abs_func (Worker.HostFuncMgr w) n) = t) as ->.
  { unfold abs_func. rewrite Et. cbn. destruct (LFunc.IsHostFunction _); [|done]. by destruct (atZ _ _). }
  rewrite ftype_match_spec. assert (w1 = w) as -> by (unfold lift in E1; congruence).
  destruct (_ || _); cbn [negb]; [by split; [left|]|exact Hi].
Qed.

Lemma getTab_pure Idx w t w' : Worker.getTabInstByIdx Idx w = (Ok t, w') -> w' = w.
Proof.
  unfold Worker.getTabInstByIdx. intros E.
  apply bind_Ok_inv in E as (m & w1 & E1 & E). apply getModInst_pure in E1 as ->.
  unfold bind, lift, get, ret in E. by repeat case_match; simplify_eq.
Qed.

Lemma agree_call_indirect n w :
  code_ok w -> size w < 2 ^ 32 -> agree eq (Worker.runCallIndirectOp n) (runCallIndirectOp n) w.
Proof.
  intros Hc Hs. eapply (agree_bind eq); [apply agree_getTab|]. intros t ? w1 E <-.
  apply getTab_pure in E as ->.
  eapply agree_bind; [apply agree_deref, agree_getModInst|]. intros m ? w1 E ->.
  apply deref_Ok, getModInst_pure in E as ->.
  eapply (agree_bind eq).
  { apply agree_lift_deref. unfold LMod.getFuncType, get_at. cbn [abs_mod FuncTypes].
    by destruct (atZ (LMod.FuncTypes m) n). }
  intros ft ? w1 E <-. assert (w1 = w) as -> by (unfold lift in E; congruence).
  unfold agree. rewrite <- (bind_assoc (onStack Stack.pop) (fun Idx => lift (retrieveValue U32 Idx))).
  eapply (agree_bind eq); [apply agree_pop_u32|]. intros i ? w1 Hp <-.
  apply pop_u32_control in Hp as (_ & vs & ->).
  eapply (agree_bind eq). { apply agree_lift. unfold LTab.getElemAddr, getElemAddr. destruct (atZ _ i); [done|by split; [left|]]. }
  intros a ? w1 E2 <-.
  assert (w1 = Worker.set_StackMgr (set_values vs (Worker.StackMgr w)) w) as ->
    by (unfold lift in E2; congruence).
  by apply agree_indirect_tail.
Qed.

(** ** The dispatch *)

(** The state an instruction starts in. *)
Record ready (ctx : list Z) w (i : Instr) : Prop := mk_ready {
  rd_chain : chain (Worker.InstrPdr w) (labels w) (frames w) (Some ctx);
  rd_uniform : uniform ctx i = true;
  rd_code : code_ok w;
  rd_size : size w < 2 ^ 32 }.

Lemma agree_dispatch ctx i w : ready ctx w i -> agree eq (Worker.dispatch i) (executeInstr i) w.
Proof.
  intros [Hc Hu Hk Hs]. unfold Worker.dispatch, executeInstr.
  destruct (dispatchInstruction _) as [cl|]; [|apply agree_throw; by left].
  destruct (bool_decide _); [apply agree_undef_l|].
  destruct i as [Code|Code bt body|Code bt ifs els|Code n|Code t n|Code n|Code|Code n|Code al o|Code v|Code|Code].
  - destruct Code; try apply agree_undef_l; cbn.
    + unfold agree, bind, modify, throw. by split; [left|].
    + by apply agree_ret.
    + apply agree_return.
  - destruct Code; try apply agree_undef_l; apply agree_enterBlock.
  - destruct Code; try apply agree_undef_l. apply agree_if.
  - destruct Code; try apply agree_undef_l; cbn in Hu.
    + by apply (agree_branch n w ctx).
    + by apply (agree_br_if n w ctx).
  - destruct Code; try apply agree_undef_l. cbn in Hu.
    apply andb_true_iff in Hu as [Hu Hz]. apply andb_true_iff in Hu as [Ht Hn].
    apply Z.ltb_lt in Hz. by apply (agree_br_table t n w ctx).
  - destruct Code; try apply agree_undef_l; [by apply agree_call|by apply agree_call_indirect].
  - apply agree_parametric.
  - apply agree_variable.
  - apply agree_memory.
  - apply agree_onStack, outcomes_refl.
  - apply agree_unary.
  - apply agree_binary.
Qed.

(** ** What an instruction leaves alone *)

Definition ctl w := (Worker.InstrPdr w, labels w, frames w, code w, Worker.TheState w).

Definition ckeep {A} (m : MW A) : Prop := forall x, stays (fun w => ctl w = x) m.
Definition vkeep {A} (m : M StackManager A) : Prop :=
  forall x, stays (fun k => (LabelStack k, FrameStack k) = x) m.

Lemma ckeep_onStack {A} (m : M StackManager A) : vkeep m -> ckeep (Worker.onStack m).
Proof.
  intros Hm x w <-. unfold Worker.onStack, zoom.
  specialize (Hm _ (Worker.StackMgr w) eq_refl).
  destruct (m (Worker.StackMgr w)) as [r k]. cbn in Hm. injection Hm as H1 H2.
  unfold ctl, labels, frames. cbn. by rewrite H1, H2.
Qed.
Lemma ckeep_bind {A B} (m : MW A) (k : A -> MW B) :
  ckeep m -> (forall a, ckeep (k a)) -> ckeep (bind m k).
Proof. intros Hm Hk x. apply stays_bind; [apply Hm|]. intros a. apply Hk. Qed.
Lemma vkeep_bind {A B} (m : M StackManager A) (k : A -> M StackManager B) :
  vkeep m -> (forall a, vkeep (k a)) -> vkeep (bind m k).
Proof. intros Hm Hk x. apply stays_bind; [apply Hm|]. intros a. apply Hk. Qed.
Lemma ckeep_same {A} (m : MW A) : (forall w, (m w).2 = w) -> ckeep m.
Proof. intros Hm x w <-. by rewrite Hm. Qed.
Lemma ckeep_try {A} (m : MW A) : ckeep m -> ckeep (try m).
Proof. intros Hm x. apply stays_try, Hm. Qed.
Lemma ckeep_deref {A} (m : MW A) : ckeep m -> ckeep (deref m).
Proof. intros Hm x. apply stays_deref, Hm. Qed.
Lemma ckeep_store (f : LStore.StoreManager -> LStore.StoreManager) :
  (forall s, LStore.FuncInsts (f s) = LStore.FuncInsts s) ->
  ckeep (modify (fun w => Worker.set_StoreMgr (f (Worker.StoreMgr w)) w)).
Proof. intros Hf x w <-. unfold ctl, code, labels, frames. cbn. by rewrite Hf. Qed.

Ltac vkeep_solve := intros x k <-; destruct k as [[|] ? ?]; cbn; repeat case_match; simplify_eq; done.

Lemma vkeep_lift {A} (r : res A) : vkeep (lift r). Proof. by intros x k. Qed.
Lemma vkeep_undef {A} u : vkeep (undef (A := A) u). Proof. by intros x k. Qed.
Lemma vkeep_pop : vkeep LStack.pop. Proof. unfold LStack.pop. vkeep_solve. Qed.
Lemma vkeep_pop_unchecked : vkeep LStack.pop_unchecked.
Proof. unfold LStack.pop_unchecked, LStack.pop. vkeep_solve. Qed.
Lemma vkeep_push v : vkeep (LStack.push v). Proof. by intros x k. Qed.
Lemma vkeep_getTop : vkeep LStack.getTop. Proof. unfold LStack.getTop. vkeep_solve. Qed.
Lemma vkeep_setTop v : vkeep (LStack.setTop v). Proof. unfold LStack.setTop. vkeep_solve. Qed.
Lemma vkeep_getBottomN n : vkeep (LStack.getBottomN n).
Proof. intros x k <-. unfold LStack.getBottomN. by repeat case_match. Qed.
Lemma vkeep_setBottomN n v : vkeep (LStack.setBottomN n v).
Proof. intros x k <-. unfold LStack.setBottomN. by repeat case_match. Qed.
Lemma vkeep_getOffset n : vkeep (LStack.getOffset n).
Proof. intros x [? ? [|]] <-; done. Qed.
Lemma vkeep_getModuleAddr : vkeep LStack.getModuleAddr.
Proof. intros x [? ? [|]] <-; done. Qed.
Lemma vkeep_modify f : (forall k, exists vs, f k = set_values vs k) -> vkeep (modify f).
Proof. intros Hf x k <-. destruct (Hf k) as [vs E]. cbn. by rewrite E. Qed.

Lemma ckeep_lift {A} (r : res A) : ckeep (lift r). Proof. apply ckeep_same. done. Qed.
Lemma ckeep_ret {A} (a : A) : ckeep (ret a). Proof. apply ckeep_same. done. Qed.
Lemma ckeep_undef {A} u : ckeep (undef (A := A) u). Proof. apply ckeep_same. done. Qed.
Lemma ckeep_throw {A} e : ckeep (throw (A := A) e). Proof. apply ckeep_same. done. Qed.
Lemma ckeep_get : ckeep get. Proof. apply ckeep_same. done. Qed.
Lemma ckeep_costOf i : ckeep (Worker.costOf i).
Proof. apply ckeep_same. intros w. unfold Worker.costOf. by destruct (atZ _ _). Qed.
Lemma ckeep_charge c e : ckeep (Worker.charge c e).
Proof. intros x w <-. unfold Worker.charge. by destruct (Env.addCost _ _). Qed.
Lemma ckeep_putMem a m : ckeep (Worker.putMem a m). Proof. by apply ckeep_store. Qed.
Lemma ckeep_putGlob a g : ckeep (Worker.putGlob a g). Proof. by apply ckeep_store. Qed.
Lemma ckeep_onMem {A} a mem (op : M MemoryInstance A) : ckeep (Worker.onMem a mem op).
Proof. unfold Worker.onMem. destruct (op _). apply ckeep_bind; [apply ckeep_putMem|]. intros _. apply ckeep_lift. Qed.

End Control.

#[export] Hint Resolve vkeep_lift vkeep_undef vkeep_pop vkeep_pop_unchecked vkeep_push vkeep_getTop
  vkeep_setTop vkeep_getBottomN vkeep_setBottomN vkeep_getOffset vkeep_getModuleAddr
  ckeep_lift ckeep_ret ckeep_undef ckeep_throw ckeep_get ckeep_costOf ckeep_charge ckeep_putMem
  ckeep_putGlob ckeep_onMem : ssvm.

(** One step of a proof that control is left alone. *)
Ltac ckeep_auto :=
  repeat first
    [ by auto with ssvm
    | apply ckeep_onStack | apply ckeep_bind; [|intros ?] | apply vkeep_bind; [|intros ?]
    | apply ckeep_try | apply ckeep_deref
    | match goal with |- ckeep (match ?x with _ => _ end) => destruct x
                    | |- vkeep (match ?x with _ => _ end) => destruct x end ].

Section Steps.
Context {H : Type}.
#[local] Abbreviation EM := (Env.EnvironmentManager H).
#[local] Abbreviation W := (Worker.Worker H).
#[local] Abbreviation MW := (M W).
Implicit Types w : W.

Lemma ckeep_getModInst : ckeep (Worker.getModInst (H := H)).
Proof. unfold Worker.getModInst. ckeep_auto. Qed.
Hint Resolve ckeep_getModInst : ssvm.
Lemma ckeep_getTab n : ckeep (Worker.getTabInstByIdx (H := H) n).
Proof. unfold Worker.getTabInstByIdx. ckeep_auto. Qed.
Lemma ckeep_getMem n : ckeep (Worker.getMemInstByIdx (H := H) n).
Proof. unfold Worker.getMemInstByIdx. ckeep_auto. Qed.
Lemma ckeep_getGlob n : ckeep (Worker.getGlobInstByIdx (H := H) n).
Proof. unfold Worker.getGlobInstByIdx. ckeep_auto. Qed.
Hint Resolve ckeep_getTab ckeep_getMem ckeep_getGlob : ssvm.
Lemma ckeep_pop_u32 : ckeep (Worker.pop_u32 (H := H)).
Proof. unfold Worker.pop_u32. ckeep_auto. Qed.
Hint Resolve ckeep_pop_u32 : ssvm.

Lemma ckeep_parametric c : ckeep (Worker.executeParametric (H := H) c).
Proof. unfold Worker.executeParametric, Worker.ignore. ckeep_auto. Qed.
Lemma ckeep_variable c n : ckeep (Worker.executeVariable (H := H) c n).
Proof.
  unfold Worker.executeVariable, Worker.runLocalGetOp, Worker.runLocalSetOp, Worker.runLocalTeeOp,
    Worker.runGlobalGetOp, Worker.runGlobalSetOp. ckeep_auto.
Qed.
Lemma ckeep_memory c n : ckeep (Worker.executeMemory (H := H) c n).
Proof.
  unfold Worker.executeMemory, Worker.runLoadOp, Worker.runStoreOp, Worker.runMemoryGrowOp,
    Worker.runMemorySizeOp. destruct c; ckeep_auto.
Qed.
Lemma ckeep_unary c : ckeep (Worker.executeUnary (H := H) c).
Proof. unfold Worker.executeUnary. destruct (Worker.unary_op c); ckeep_auto. Qed.
Lemma ckeep_binary c : ckeep (Worker.executeBinary (H := H) c).
Proof. unfold Worker.executeBinary. destruct (Worker.binary_op c); ckeep_auto. Qed.

Lemma ckeep_push_locals l : ckeep (Worker.push_locals (H := H) l).
Proof.
  intros x. apply stays_mapM. intros d. apply ckeep_onStack, vkeep_modify. intros k. eauto.
Qed.

(** A host call, with the functions of the manager as they should be. *)
Lemma callHost_ctl f w : code_ok w -> ctl (Worker.callHost (H := H) f w).2 = ctl w.
Proof.
  intros [_ Hh]. unfold Worker.callHost. rewrite bind_get.
  unfold LHost.getHostFunction, atZ. destruct (0 <=? _); [|done].
  destruct (_ !! _) as [h|] eqn:Eh; [|done].
  assert (host_ok h) as Hok by exact (Forall_lookup_1 _ _ _ _ Hh Eh).
  change (bind (lift (Ok h)) ?k w) with (k h w). cbv beta.
  refine ((_ : ckeep _) (ctl w) w eq_refl).
  apply ckeep_bind; [apply ckeep_charge|intros _]. apply ckeep_bind; [apply ckeep_getMem|intros am].
  intros x w1 <-. rewrite bind_get. specialize (Hok (Worker.EnvMgr w1) (Worker.StackMgr w1) (obj am.2)).
  destruct (LHost.lhRun _ _ _ _) as [r [[env k] mem]]. destruct Hok as [H1 H2]. rewrite bind_put.
  replace (ctl w1) with (ctl (Worker.set_EnvMgr env (Worker.set_StackMgr k w1)))
    by (unfold ctl, labels, frames; cbn; by rewrite H1, H2).
  refine ((_ : ckeep _) _ _ eq_refl). ckeep_auto.
Qed.

(** ** The invariant *)

(** The sequences, labels and frames fit together, and there are at most [N] of them. *)
Record good (F : list (Named LFunc.FunctionInstance) * list (LHost.HostFunctionBase H) * Worker.State)
    (N : Z) w : Prop := mk_good {
  gd_chain : exists o, chain (Worker.InstrPdr w) (labels w) (frames w) o;
  gd_fixed : (code w, Worker.TheState w) = F;
  gd_size : size w <= N }.

Definition fixed w := (code w, Worker.TheState w).

Lemma good_ctl F N w w' : good F N w -> ctl w' = ctl w -> good F N w'.
Proof.
  intros [Hc Hf Hs]. unfold ctl. intros E. injection E as E1 E2 E3 E4 E5 E6. split.
  - by rewrite E1, E2, E3.
  - unfold code in *. by rewrite E4, E5, E6.
  - unfold size in *. by rewrite E1, E2.
Qed.
Lemma good_weaken F N N' w : good F N w -> N <= N' -> good F N' w.
Proof. intros [? ? ?] ?. split; try done. lia. Qed.

Lemma ckeep_Ok {A} (m : MW A) w a w' : ckeep m -> m w = (Ok a, w') -> ctl w' = ctl w.
Proof. intros Hm E. specialize (Hm (ctl w) w eq_refl). by rewrite E in Hm. Qed.

(** ** Control instructions keep the invariant *)

Lemma good_enter ctx A I l w w' a :
  chain (Worker.InstrPdr w) (labels w) (frames w) (Some ctx) ->
  uniform_code (A :: ctx) l = true -> target_ok ctx (mkLabel 0 A I) ->
  Worker.enterBlock A I l w = (Ok a, w') -> good (fixed w) (size w + 2) w'.
Proof.
  intros Hc Hl Ht E. unfold Worker.enterBlock, bind, Worker.onStack, Worker.onPdr, zoom in E.
  cbn in E. injection E as _ <-. split.
  - eexists. cbn. apply (chain_block _ _ _ ctx l (mkLabel _ A I)); [exact Hc|exact Hl|exact Ht].
  - done.
  - unfold size, labels, sizeZ. cbn. unfold labels. lia.
Qed.

Lemma good_invoke a b w w' :
  (exists o, chain (Worker.InstrPdr w) (labels w) (frames w) o) -> code_ok w ->
  Worker.invokeFunction a w = (Ok b, w') -> good (fixed w) (size w + 3) w'.
Proof.
  intros [o Hc] Hk E. unfold Worker.invokeFunction in E. rewrite bind_get in E.
  destruct (LStore.getFunction a (Worker.StoreMgr w)) as [n| | |] eqn:En; try done.
  change (bind (lift (Ok n)) ?k w) with (k n w) in E. cbv beta zeta in E.
  pose proof (getFunction_ok _ _ _ Hk En) as Hf. unfold func_ok in Hf.
  destruct (LFunc.IsHostFunction (obj n)).
  { pose proof (callHost_ctl (obj n) w Hk) as Hct. rewrite E in Hct.
    eapply good_ctl; [|exact Hct]. split; [by exists o|done|unfold size; lia]. }
  destruct (LFunc.FuncType (obj n)) as [t|]; [|done]. specialize (Hf t eq_refl).
  apply bind_Ok_inv in E as ([] & w1 & E1 & E). unfold Worker.onStack, zoom, LStack.pushFrame, modify in E1.
  injection E1 as <-. apply bind_Ok_inv in E as ([] & w2 & E2 & E).
  apply (ckeep_Ok _ _ _ _ (ckeep_push_locals _)) in E2.
  apply bind_Ok_inv in E as ([] & w3 & E3 & E). unfold Worker.onPdr, zoom, LProv.pushInstrs, modify in E3.
  injection E3 as <-. unfold ctl, code in E2. cbn in E2. injection E2 as P1 P2 P3 P4 P5 P6.
  eapply (good_enter []) in E; [|cbn; unfold labels, frames in *; cbn; rewrite P1, P2, P3|exact Hf|done].
  - destruct E as [Hch Hfx Hsz]. split; [done| |].
    + rewrite Hfx. unfold fixed, code. cbn. by rewrite P4, P5, P6.
    + revert Hsz. unfold size, labels, sizeZ in *. cbn. rewrite P1, P2. cbn. lia.
  - eapply chain_func; [exact Hc|done].
Qed.

Lemma good_branch n ctx a w w' :
  chain (Worker.InstrPdr w) (labels w) (frames w) (Some ctx) -> crosses ctx n = true ->
  size w < 2 ^ 32 -> Worker.branchToLabel n w = (Ok a, w') -> good (fixed w) (size w + 2) w'.
Proof.
  intros Hc Hn Hs E.
  destruct (legacy_branch_run n w ctx Hc Hn Hs) as [(u & t & E')|(i & L & vs & -> & HL & Hi & Ev & E1 & _ & _)].
  { by rewrite E' in E. }
  rewrite E1 in E. clear E1.
  assert (chain (Worker.InstrPdr (branched i vs w)) (labels (branched i vs w)) (frames (branched i vs w))
    (Some (drop (S i) ctx))) as Hb by (apply (chain_drop (S i)); [exact Hc|lia]).
  assert (size (branched i vs w) <= size w) as Hsz.
  { unfold size, branched, with_control, labels, sizeZ. cbn -[drop]. rewrite !length_drop. lia. }
  unfold continue in E. pose proof (chain_target _ _ _ _ _ _ Hc Hi HL) as Ht. unfold target_ok in Ht.
  destruct (Target L) as [[]|]; try done.
  - eapply (good_enter (drop (S i) ctx)) in E; [|exact Hb|exact Ht|exact Ht].
    eapply good_weaken; [exact E|lia].
  - injection E as _ <-. split; [eauto|done|lia].
Qed.

Lemma legacy_popInstrs_n_run n w : Worker.popInstrs_n (H := H) n w =
  (Ok tt, Worker.set_InstrPdr (drop n (Worker.InstrPdr w)) w).
Proof.
  revert w. induction n as [|n IH]; intros [st k hf env ts pdr cnt ct]; [done|].
  cbn [Worker.popInstrs_n]. unfold Worker.ignore, bind, try, Worker.onPdr, zoom, LProv.popInstrs.
  destruct pdr as [|i its]; cbn; rewrite IH; cbn; [by rewrite drop_nil|done].
Qed.

Lemma popInstrs_run w : Worker.ignore (Worker.onPdr LProv.popInstrs) w =
  (Ok tt, Worker.set_InstrPdr (drop 1 (Worker.InstrPdr w)) w).
Proof. by destruct w as [? ? ? ? ? [|i its] ? ?]. Qed.

Lemma good_return ctx a w w' :
  chain (Worker.InstrPdr w) (labels w) (frames w) (Some ctx) -> size w < 2 ^ 32 ->
  Worker.returnFunction w = (Ok a, w') -> good (fixed w) (size w) w'.
Proof.
  intros Hc Hs E. destruct (chain_return _ _ _ _ Hc) as (f & fs & o & Hfs & Hlen & Hf & Hr).
  unfold Worker.returnFunction in E. apply bind_Ok_inv in E as (n & w1 & E1 & E).
  unfold Worker.onStack, zoom, LStack.popFrame in E1. unfold frames in Hfs. rewrite Hfs in E1.
  fold (labels w) in E1. rewrite Hf in E1.
  assert (erase_mid (sizeZ (drop (length ctx) (labels w))) 0 (labels w) = Ok (drop (length ctx) (labels w))) as El.
  { unfold erase_mid, sizeZ. rewrite length_drop.
    replace (_ && _) with true by (symmetry; rewrite !andb_true_iff, !Z.leb_le; lia).
    change (Z.to_nat 0) with 0%nat. rewrite take_0. change ([] ++ ?l) with l. f_equal. f_equal. lia. }
  rewrite El in E1. destruct (erase_mid (VStackSize f) _ _) as [vs|e|u|]; try done.
  injection E1 as <- <-. rewrite (bind_Ok _ _ _ _ _ (legacy_popInstrs_n_run _ _)) in E.
  assert (Z.to_nat (wrap 32 (sizeZ (labels w) - sizeZ (drop (length ctx) (labels w)))) = length ctx) as Hn.
  { unfold size, sizeZ in *. rewrite length_drop, wrap_small; [lia|]. unfold in_u. lia. }
  rewrite Hn, popInstrs_run in E. injection E as _ <-. split.
  - exists o. cbn. by rewrite drop_drop, Nat.add_1_r.
  - done.
  - unfold size, labels, sizeZ. cbn. rewrite !length_drop. unfold labels. lia.
Qed.

Lemma good_leave a w w' l its :
  (exists o, chain (Worker.InstrPdr w) (labels w) (frames w) o) ->
  Worker.InstrPdr w = LProv.mkInstrScope LProv.Block l :: its ->
  Worker.leaveBlock w = (Ok a, w') -> good (fixed w) (size w) w'.
Proof.
  intros [o Hc] Hi E. rewrite Hi in Hc. 
  apply chain_block_inv in Hc as (L & ls & ctx & E2 & _ & Hc' & _ & _).
  assert (Worker.popLabels 1 w = (Ok tt, w')) as E'.
  { unfold Worker.leaveBlock in E. apply bind_Ok_inv in E as ([] & w1 & E3 & E4).
    destruct a. cbn [Worker.popLabels]. rewrite (bind_Ok _ _ _ _ _ E3). rewrite popInstrs_run in E4.
    rewrite (bind_Ok _ _ _ _ _ (popInstrs_run w1)). by simplify_eq. }
  rewrite (popLabels_S 0 w L ls _ _ E2 Hi) in E'.
  destruct (erase_mid _ _ _); try done. cbn in E'. unfold ret in E'. injection E' as <-. split.
  - eexists. exact Hc'.
  - done.
  - unfold size, labels, sizeZ in *. cbn. rewrite Hi, E2. cbn. lia.
Qed.

(** ** Every instruction keeps the invariant *)

Lemma good_same (m : MW unit) a w w' ctx :
  chain (Worker.InstrPdr w) (labels w) (frames w) (Some ctx) -> ckeep m -> m w = (Ok a, w') ->
  good (fixed w) (size w) w'.
Proof.
  intros Hc Hm E. eapply good_ctl; [|exact (ckeep_Ok _ _ _ _ Hm E)]. split; [eauto|done|lia].
Qed.

Lemma good_enter_if ctx A l a w w' :
  chain (Worker.InstrPdr w) (labels w) (frames w) (Some ctx) -> uniform_code (A :: ctx) l = true ->
  (if sizeZ l =? 0 then ret tt
   else let* c := Worker.costOf 5 in Worker.charge c Revert ;;; Worker.enterBlock A None l) w = (Ok a, w') ->
  good (fixed w) (size w + 2) w'.
Proof.
  intros Hc Hl E. destruct (sizeZ l =? 0).
  { unfold ret in E. injection E as _ <-. split; [eauto|done|lia]. }
  rewrite <- bind_assoc in E. apply bind_Ok_inv in E as ([] & w1 & E1 & E).
  assert (ctl w1 = ctl w) as Ec.
  { refine (ckeep_Ok _ _ _ _ _ E1). apply ckeep_bind; [apply ckeep_costOf|intros c; apply ckeep_charge]. }
  unfold ctl, code in Ec. injection Ec as P1 P2 P3 P4 P5 P6.
  eapply (good_enter ctx) in E; [|by rewrite P1, P2, P3|exact Hl|done].
  destruct E as [? Hf Hs]. split; [done| |].
  - rewrite Hf. unfold fixed, code. by rewrite P4, P5, P6.
  - unfold size in *. by rewrite P1, P2 in Hs.
Qed.

Lemma good_branch_popped n ctx a c w w1 w' :
  chain (Worker.InstrPdr w) (labels w) (frames w) (Some ctx) -> crosses ctx n = true -> size w < 2 ^ 32 ->
  Worker.pop_u32 w = (Ok c, w1) -> Worker.branchToLabel n w1 = (Ok a, w') ->
  good (fixed w) (size w + 2) w'.
Proof.
  intros Hc Hn Hs Hp E. apply pop_u32_control in Hp as (_ & vs & ->).
  by eapply (good_branch n ctx) in E.
Qed.

Lemma good_br_table t n ctx a w w' :
  chain (Worker.InstrPdr w) (labels w) (frames w) (Some ctx) -> forallb (crosses ctx) t = true ->
  crosses ctx n = true -> size w < 2 ^ 32 ->
  Worker.runBrTableOp t n w = (Ok a, w') -> good (fixed w) (size w + 2) w'.
Proof.
  intros Hc Ht Hn Hs E. apply bind_Ok_inv in E as (c & w1 & E1 & E). cbv zeta in E.
  destruct (_ <? _); [|by eapply good_branch_popped].
  destruct (atZ t _) as [l|] eqn:El; [|done]. eapply good_branch_popped; [done| |done..].
  apply Is_true_true, forallb_True in Ht. unfold atZ in El. destruct (0 <=? _); [|done].
  apply Is_true_true. by eapply (Forall_lookup_1 _ _ _ _ Ht).
Qed.

Lemma good_invoke_popped b a c w w1 w' ctx :
  chain (Worker.InstrPdr w) (labels w) (frames w) (Some ctx) -> code_ok w ->
  Worker.pop_u32 w = (Ok c, w1) -> Worker.invokeFunction a w1 = (Ok b, w') ->
  good (fixed w) (size w + 3) w'.
Proof.
  intros Hc Hk Hp E. apply pop_u32_control in Hp as (_ & vs & ->).
  eapply good_invoke in E; [exact E|eauto|done].
Qed.

Lemma good_call_indirect n a w w' ctx :
  chain (Worker.InstrPdr w) (labels w) (frames w) (Some ctx) -> code_ok w ->
  Worker.runCallIndirectOp n w = (Ok a, w') -> good (fixed w) (size w + 3) w'.
Proof.
  intros Hc Hk E. apply bind_Ok_inv in E as (t & w1 & E1 & E). apply getTab_pure in E1 as ->.
  apply bind_Ok_inv in E as (m & w1 & E1 & E). apply deref_Ok, getModInst_pure in E1 as ->.
  apply bind_Ok_inv in E as (ft & w1 & E1 & E). unfold lift in E1. injection E1 as _ <-.
  apply bind_Ok_inv in E as (i & w1 & Ep & E).
  apply bind_Ok_inv in E as (fa & w2 & E1 & E). unfold lift in E1. injection E1 as _ <-.
  rewrite bind_get in E. apply bind_Ok_inv in E as (n' & w2 & E1 & E). unfold lift in E1.
  injection E1 as _ <-. destruct (LFunc.FuncType _); [|done]. destruct (Worker.ftype_match _ _); [|done].
  by eapply good_invoke_popped.
Qed.

Lemma good_dispatch ctx i a w w' :
  ready ctx w i -> Worker.dispatch i w = (Ok a, w') -> good (fixed w) (size w + 3) w'.
Proof.
  intros [Hc Hu Hk Hs]. unfold Worker.dispatch. destruct (dispatchInstruction _); [|done].
  destruct (bool_decide _); [done|].
  assert (forall N, N <= size w + 3 -> good (fixed w) N w' -> good (fixed w) (size w + 3) w') as Hw
    by (intros N HN HG; by eapply good_weaken).
  assert (forall m : MW unit, ckeep m -> m w = (Ok a, w') -> good (fixed w) (size w + 3) w') as Hsame
    by (intros m Hm E; apply (Hw (size w)); [lia|by eapply good_same]).
  destruct i as [Code|Code bt body|Code bt ifs els|Code n|Code t n|Code n|Code|Code n|Code al o|Code v|Code|Code].
  - destruct Code; try done; cbn.
    + apply Hsame, ckeep_ret.
    + intros E. apply (Hw (size w)); [lia|]. by eapply good_return.
  - destruct Code; try done; cbn in Hu |- *; intros E; apply (Hw (size w + 2)); try lia.
    + exact (good_enter ctx _ None _ _ _ _ Hc Hu I E).
    + exact (good_enter ctx _ (Some (BlockControlInstruction Op_Loop bt body)) _ _ _ _ Hc Hu Hu E).
  - destruct Code; try done. cbn in Hu. apply andb_true_iff in Hu as [Hu1 Hu2]. intros E.
    apply (Hw (size w + 2)); [lia|]. cbn in E. apply bind_Ok_inv in E as (c & w1 & E1 & E).
    apply pop_u32_control in E1 as (_ & vs & ->). cbv zeta in E.
    destruct (negb _); (eapply (good_enter_if ctx) in E; [exact E|exact Hc|assumption]).
  - destruct Code; try done; cbn in Hu |- *; intros E; apply (Hw (size w + 2)); try lia.
    + by eapply good_branch.
    + apply bind_Ok_inv in E as (c & w1 & E1 & E). destruct (negb _); [by eapply good_branch_popped|].
      unfold ret in E. injection E as _ <-. apply pop_u32_control in E1 as (_ & vs & ->).
      split; [by exists (Some ctx)|done|]. unfold size, labels. cbn. lia.
  - destruct Code; try done. cbn in Hu. apply andb_true_iff in Hu as [Hu _].
    apply andb_true_iff in Hu as [Hu1 Hu2]. intros E. apply (Hw (size w + 2)); [lia|].
    by eapply good_br_table.
  - destruct Code; try done; cbn; intros E.
    + apply bind_Ok_inv in E as (m & w1 & E1 & E). apply deref_Ok, getModInst_pure in E1 as ->.
      destruct (LMod.getFuncAddr n m); try done. eapply good_invoke; eauto.
    + by eapply good_call_indirect.
  - apply Hsame, ckeep_parametric.
  - apply Hsame, ckeep_variable.
  - apply Hsame, ckeep_memory.
  - apply Hsame, ckeep_onStack, vkeep_push.
  - apply Hsame, ckeep_unary.
  - apply Hsame, ckeep_binary.
Qed.

(** ** The state of the worker *)

Definition skeep {A} (m : MW A) : Prop := forall x, stays (fun w => Worker.TheState w = x) m.

Lemma ckeep_skeep {A} (m : MW A) : ckeep m -> skeep m.
Proof.
  intros Hm x w <-. specialize (Hm (ctl w) w eq_refl). unfold ctl in Hm. by injection Hm.
Qed.
Lemma skeep_bind {A B} (m : MW A) (k : A -> MW B) :
  skeep m -> (forall a, skeep (k a)) -> skeep (bind m k).
Proof. intros Hm Hk x. apply stays_bind; [apply Hm|]. intros a. apply Hk. Qed.
Lemma skeep_onStack {A} (m : M StackManager A) : skeep (Worker.onStack m).
Proof. intros x. by apply stays_zoom. Qed.
Lemma skeep_onPdr {A} (m : M (list LProv.InstrScope) A) : skeep (Worker.onPdr m).
Proof. intros x. by apply stays_zoom. Qed.
Lemma skeep_ignore {A} (m : MW A) : skeep m -> skeep (Worker.ignore m).
Proof. intros Hm x. apply stays_bind; [apply stays_try, Hm|]. intros ?. apply stays_ret. Qed.
Lemma skeep_callHost f : skeep (Worker.callHost f).
Proof.
  unfold Worker.callHost. apply skeep_bind; [apply ckeep_skeep, ckeep_get|intros w0].
  apply skeep_bind; [apply ckeep_skeep, ckeep_lift|intros h].
  apply skeep_bind; [apply ckeep_skeep, ckeep_charge|intros _].
  apply skeep_bind; [apply ckeep_skeep, ckeep_getMem|intros am].
  intros x w <-. rewrite bind_get. destruct (LHost.lhRun _ _ _ _) as [r [[env k] mem]].
  rewrite bind_put. refine ((_ : skeep _) _ _ eq_refl). apply ckeep_skeep. ckeep_auto.
Qed.

End Steps.

#[export] Hint Resolve skeep_onStack skeep_onPdr skeep_callHost skeep_ignore : ssvm.

Ltac skeep_auto :=
  repeat first
    [ by auto with ssvm
    | apply skeep_bind; [|intros ?] | apply skeep_ignore
    | match goal with |- skeep (match ?x with _ => _ end) => destruct x end
    | apply ckeep_skeep; by ckeep_auto ].

Section Runs.
Context {H : Type}.
#[local] Abbreviation EM := (Env.EnvironmentManager H).
#[local] Abbreviation W := (Worker.Worker H).
#[local] Abbreviation MW := (M W).
Implicit Types w : W.

Lemma skeep_enterBlock A I l : skeep (Worker.enterBlock (H := H) A I l).
Proof. unfold Worker.enterBlock. skeep_auto. Qed.
Hint Resolve skeep_enterBlock : ssvm.
Lemma skeep_invoke a : skeep (Worker.invokeFunction (H := H) a).
Proof.
  unfold Worker.invokeFunction. skeep_auto. apply ckeep_skeep, ckeep_push_locals.
Qed.
Lemma skeep_popInstrs_n n : skeep (Worker.popInstrs_n (H := H) n).
Proof. induction n; cbn; skeep_auto. Qed.
Lemma skeep_popLabels n : skeep (Worker.popLabels (H := H) n).
Proof. induction n; cbn; skeep_auto. Qed.
Hint Resolve skeep_invoke skeep_popInstrs_n skeep_popLabels : ssvm.
Lemma skeep_return : skeep (Worker.returnFunction (H := H)).
Proof. unfold Worker.returnFunction. skeep_auto. Qed.
Lemma skeep_leave : skeep (Worker.leaveBlock (H := H)).
Proof. unfold Worker.leaveBlock. skeep_auto. Qed.
Lemma skeep_runLoop i : skeep (Worker.runLoopOp (H := H) i).
Proof. unfold Worker.runLoopOp. skeep_auto. Qed.
Hint Resolve skeep_runLoop : ssvm.
Lemma skeep_branch n : skeep (Worker.branchToLabel (H := H) n).
Proof. unfold Worker.branchToLabel. skeep_auto. Qed.
Hint Resolve skeep_branch : ssvm.

(** Only [unreachable] changes the state of the worker, and it is an error. *)
Lemma dispatch_state i w :
  Worker.TheState (Worker.dispatch (H := H) i w).2 = Worker.TheState w \/
  (Worker.dispatch i w).1 = Err Unreachable.
Proof.
  unfold Worker.dispatch. destruct (dispatchInstruction _); [|by left]. destruct (bool_decide _); [by left|].
  assert (forall m : MW unit, skeep m -> Worker.TheState (m w).2 = Worker.TheState w \/ (m w).1 = Err Unreachable)
    as Hs by (intros m Hm; left; by apply Hm).
  destruct i as [Code|Code bt body|Code bt ifs els|Code n|Code t n|Code n|Code|Code n|Code al o|Code v|Code|Code].
  - destruct Code; try (by left); [by right|]. apply Hs, skeep_return.
  - apply Hs. destruct Code; cbn; unfold Worker.runBlockOp; skeep_auto.
  - apply Hs. destruct Code; cbn; unfold Worker.runIfElseOp; skeep_auto.
  - apply Hs. destruct Code; cbn; unfold Worker.runBrOp, Worker.runBrIfOp; skeep_auto;
      apply ckeep_skeep, ckeep_pop_u32.
  - apply Hs. destruct Code; cbn; unfold Worker.runBrTableOp; skeep_auto;
      apply ckeep_skeep, ckeep_pop_u32.
  - apply Hs. destruct Code; cbn; unfold Worker.runCallOp, Worker.runCallIndirectOp; skeep_auto;
      apply ckeep_skeep; auto using ckeep_pop_u32, ckeep_getTab, ckeep_deref, ckeep_getModInst.
  - apply Hs, ckeep_skeep, ckeep_parametric.
  - apply Hs, ckeep_skeep, ckeep_variable.
  - apply Hs, ckeep_skeep, ckeep_memory.
  - apply Hs, skeep_onStack.
  - apply Hs, ckeep_skeep, ckeep_unary.
  - apply Hs, ckeep_skeep, ckeep_binary.
Qed.

(** ** The run loop *)

(** A step of both engines; the old one leaves the loop when an instruction is not paid. *)
Definition step_agrees (x : res (unit + unit) * W) (y : res unit * Interpreter EM) : Prop :=
  match x, y with
  | (Undef _, _), _ | _, (Undef _, _) => True
  | (Ok (inl _), w'), (Ok _, t) => t = abs w'
  | (Ok (inr _), w'), (Err e, t) => e = CostLimitExceeded /\ t = abs w'
  | (Err e, w'), (Err e', t) => same_err e e' /\ t = abs w'
  | (NoFuel, _), (NoFuel, _) => True
  | _, _ => False
  end.

Lemma step_agrees_of (m : MW unit) (n : M (Interpreter EM) unit) w :
  agree eq m n w -> step_agrees ((m ;;; ret (inl tt)) w) (n (abs w)).
Proof.
  unfold agree, bind. destruct (m w) as [[]  w'], (n (abs w)) as [[] t]; cbn; try done;
    by intros [? ?].
Qed.

(** The instruction that is fetched, counted and paid. *)
Definition counted (its : list LProv.InstrScope) w : W :=
  Worker.set_Cnt (wrap 64 (Worker.ExecInstrCnt w + 1)) (Worker.set_InstrPdr its w).

Lemma fetch_run t i l its w :
  Worker.InstrPdr w = LProv.mkInstrScope t (i :: l) :: its ->
  Worker.step w =
    (let* c := Worker.costOf (byte_of_OpCode (getOpCode i)) in
     let* r := try (Worker.charge c Revert) in
     match r with
     | inr _ => ret (inr tt)
     | inl _ => Worker.dispatch i ;;; ret (inl tt)
     end) (counted (LProv.mkInstrScope t l :: its) w) /\
  step (abs w) = (chargeInstr (getOpCode i) ;;; executeInstr i) (abs (counted (LProv.mkInstrScope t l :: its) w)).
Proof.
  intros Hi. split.
  - unfold Worker.step. unfold bind at 1, Worker.onPdr, zoom, LProv.getNextInstr. by rewrite Hi.
  - unfold step. unfold bind at 1, getNextInstr. cbn [abs Iters]. by rewrite Hi.
Qed.

Lemma chargeInstr_Err Code (s t : Interpreter EM) e :
  chargeInstr Code s = (Err e, t) -> e = CostLimitExceeded.
Proof.
  unfold chargeInstr, addInstrCost. intros E. repeat case_match; by simplify_eq.
Qed.

Lemma step_instr ctx t i l its w :
  Worker.InstrPdr w = LProv.mkInstrScope t (i :: l) :: its ->
  ready ctx (counted (LProv.mkInstrScope t l :: its) w) i ->
  step_agrees (Worker.step w) (step (abs w)) /\
  (forall w', Worker.step w = (Ok (inl tt), w') -> good (fixed w) (size w + 3) w') /\
  (forall e w', Worker.step w = (Err e, w') ->
     Worker.TheState w' = Worker.TheState w \/ e = Unreachable).
Proof.
  intros Hi Hr. destruct (fetch_run t i l its w Hi) as [-> ->].
  set (w1 := counted _ w) in *.
  assert (fixed w1 = fixed w) as Hf by done.
  assert (size w1 = size w) as Hsz by (unfold size, labels, sizeZ; cbn; by rewrite Hi).
  assert (Worker.TheState w1 = Worker.TheState w) as Ht by done.
  pose proof (agree_charge (getOpCode i) w1) as Hc.
  unfold agree in Hc. rewrite (bind_eq (chargeInstr _)). unfold bind in Hc |- *.
  destruct (Worker.costOf _ w1) as [[c|e|u|] w1'] eqn:Ec; try (by destruct (chargeInstr _ _) as [[] ?]);
    try (unfold Worker.costOf in Ec; by destruct (atZ _ _)).
  assert (w1' = w1) as -> by (unfold Worker.costOf in Ec; destruct (atZ _ _); congruence).
  unfold try. destruct (Worker.charge c Revert w1) as [[[]|e|u|] w2] eqn:E2;
    try (unfold Worker.charge in E2; by destruct (Env.addCost _ _) as [[] ?]).
  - assert (ctl w2 = ctl w1) as Ect by exact (ckeep_Ok _ _ _ _ (ckeep_charge _ _) E2).
    assert (ready ctx w2 i) as Hr2.
    { destruct Hr as [R1 R2 R3 R4]. unfold ctl, code in Ect. injection Ect as P1 P2 P3 P4 P5 P6.
      split; [by rewrite P1, P2, P3|done| |unfold size in *; by rewrite P1, P2].
      unfold code_ok in *. by rewrite P4, P5. }
    assert (fixed w2 = fixed w) as Hf2.
    { rewrite <- Hf. unfold ctl, code in Ect. injection Ect as P1 P2 P3 P4 P5 P6.
      unfold fixed, code. by rewrite P4, P5, P6. }
    assert (size w2 = size w) as Hsz2.
    { rewrite <- Hsz. unfold ctl, code in Ect. injection Ect as P1 P2 P3 P4 P5 P6. unfold size. by rewrite P1, P2. }
    split_and!.
    + destruct (chargeInstr _ _) as [[[]|e'|u'|] t2]; cbn in Hc; try done.
      * destruct Hc as [_ ->]. apply (step_agrees_of _ _ w2), (agree_dispatch ctx). done.
      * unfold ret. by destruct (Worker.dispatch i w2) as [[] ?].
    + intros w' E. apply bind_Ok_inv in E as ([] & w3 & E3 & E). unfold ret in E. injection E as <-.
      apply (good_dispatch ctx) in E3; [|done]. by rewrite Hf2, Hsz2 in E3.
    + intros e w' E. pose proof (dispatch_state i w2) as Hd.
      destruct (Worker.dispatch i w2) as [[]  w3]; cbn in Hd, E; try done. injection E as -> ->.
      destruct Hd as [Hd|Hd]; [left|right; congruence]. rewrite Hd. by injection Hf2.
  - split_and!; try done. destruct (chargeInstr _ _) as [[[]|e'|u'|] t2] eqn:Ech; cbn in Hc; try done.
    apply chargeInstr_Err in Ech. by destruct Hc as [_ ->].
Qed.

(** A sequence at its end. *)
Lemma step_end t its w (m : MW unit) (n : M (Interpreter EM) unit) :
  Worker.InstrPdr w = LProv.mkInstrScope t [] :: its ->
  match t with
  | LProv.FunctionCall => m = Worker.returnFunction /\ n = leaveFunction
  | LProv.Block => m = Worker.leaveBlock /\ n = leaveBlock
  | LProv.Expression => False
  end ->
  agree eq m n w -> skeep m -> (forall w', m w = (Ok tt, w') -> good (fixed w) (size w) w') ->
  step_agrees (Worker.step w) (step (abs w)) /\
  (forall w', Worker.step w = (Ok (inl tt), w') -> good (fixed w) (size w + 3) w') /\
  (forall e w', Worker.step w = (Err e, w') ->
     Worker.TheState w' = Worker.TheState w \/ e = Unreachable).
Proof.
  intros Hi Ht Ha Hk Hg.
  assert (Worker.step w = (m ;;; ret (inl tt)) w /\ step (abs w) = n (abs w)) as [-> ->].
  { unfold Worker.step, step. unfold bind at 1, Worker.onPdr at 1, zoom, LProv.getNextInstr.
    unfold bind at 3, getNextInstr. cbn [abs Iters]. rewrite Hi. cbn [fmap list_fmap abs_scope LProv.IType LProv.IRest].
    destruct w as [st k hf env ts pdr cnt ct]. cbn in Hi. subst pdr.
    destruct t; try done; destruct Ht as [-> ->]; done. }
  split_and!.
  - by apply step_agrees_of.
  - intros w' E. apply bind_Ok_inv in E as ([] & w1 & E1 & E). unfold ret in E. injection E as <-.
    eapply good_weaken; [by apply Hg|lia].
  - intros e w' E. left. specialize (Hk _ w eq_refl). unfold bind in E.
    destruct (m w) as [[] w1]; cbn in Hk, E; try done. by injection E as _ <-.
Qed.

Lemma step_good w :
  (exists o, chain (Worker.InstrPdr w) (labels w) (frames w) o) -> code_ok w -> size w < 2 ^ 32 ->
  Worker.InstrPdr w <> [] ->
  step_agrees (Worker.step w) (step (abs w)) /\
  (forall w', Worker.step w = (Ok (inl tt), w') -> good (fixed w) (size w + 3) w') /\
  (forall e w', Worker.step w = (Err e, w') ->
     Worker.TheState w' = Worker.TheState w \/ e = Unreachable).
Proof.
  intros [o Hc] Hk Hs Hne. destruct (Worker.InstrPdr w) as [|sc its] eqn:Hi; [done|].
  destruct (chain_head _ _ _ _ _ Hc) as [[-> ->]|[l ->]].
  - rewrite <- Hi in Hc. eapply step_end; [exact Hi|by split|apply agree_return|apply skeep_return|].
    intros w' E. by eapply good_return.
  - pose proof Hc as Hc0. apply chain_block_inv in Hc0 as (L & ls & ctx & E2 & -> & Hc' & Hl & Ht).
    destruct l as [|i l].
    + eapply step_end; [exact Hi|by split| |apply skeep_leave|].
      * apply agree_leaveBlock. by rewrite Hi.
      * intros w' E. eapply good_leave; [|exact Hi|exact E]. eexists. by rewrite Hi.
    + eapply step_instr; [exact Hi|]. cbn in Hl. apply andb_true_iff in Hl as [Hl1 Hl2].
      split; [|exact Hl1|exact Hk|].
      * unfold counted, labels, frames. cbn. fold (labels w) (frames w). rewrite E2.
        by apply chain_block.
      * unfold size, counted, labels, sizeZ in *. cbn. by rewrite Hi in Hs.
Qed.

Definition loop_agrees (x : res (bool * (unit + ErrCode)) * W) (y : res unit * Interpreter EM) : Prop :=
  match x, y with
  | (Undef _, _), _ | _, (Undef _, _) => True
  | (Ok (false, inl _), w'), (Ok _, t) => t = abs w' /\ Worker.TheState w' = Worker.Active
  | (Ok (b, inr e), w'), (Err e', t) =>
      same_err e e' /\ t = abs w' /\
      (b = false -> Worker.TheState w' = Worker.StUnreachable -> e = Unreachable)
  | (NoFuel, _), (NoFuel, _) => True
  | _, _ => False
  end.

Lemma code_ok_fixed w w' : fixed w' = fixed w -> code_ok w -> code_ok w'.
Proof. unfold fixed, code, code_ok. intros E. injection E as -> -> _. done. Qed.

Lemma loop_agree fuel w :
  (exists o, chain (Worker.InstrPdr w) (labels w) (frames w) o) -> code_ok w ->
  size w + 3 * Z.of_nat fuel < 2 ^ 32 -> Worker.TheState w = Worker.Active ->
  loop_agrees (Worker.loop fuel w) (execute fuel (abs w)).
Proof.
  revert w. induction fuel as [|fuel IH]; intros w Hc Hk Hs Hst.
  all: assert (wrap 32 (sizeZ (Worker.InstrPdr w)) = sizeZ (Iters (abs w))) as Hz
    by (unfold size, sizeZ, abs in *; cbn [Iters]; rewrite length_fmap, wrap_small; [done|unfold in_u; lia]).
  all: cbn [Worker.loop execute]; unfold bind at 1, Worker.onPdr, zoom, LProv.getScopeSize, gets;
    cbn [fst snd]; rewrite bind_get; rewrite Hz;
    replace (Worker.set_InstrPdr (Worker.InstrPdr w) w) with w by (by destruct w);
    destruct (Z.eqb_spec (sizeZ (Iters (abs w))) 0) as [Hnil|Hnil]; try done.
  assert (Worker.InstrPdr w <> []) as Hne by (intros E; apply Hnil; cbn; by rewrite E).
  destruct (step_good w Hc Hk ltac:(lia) Hne) as (Ha & Hg & He).
  unfold bind, try. destruct (Worker.step w) as [[[[]|[]]|e|u|] w1], (step (abs w)) as [[[]|e'|u'|] t1];
    cbn in Ha; try done.
  - subst t1. destruct (Hg w1 eq_refl) as [Hc1 Hf1 Hs1]. apply IH; [done| |lia|].
    + by eapply code_ok_fixed.
    + injection Hf1 as _ _ ->. exact Hst.
  - by destruct (Worker.loop fuel w1) as [[[[] []]|e2|u2|] w2].
  - destruct Ha as [-> ->]. split_and!; try done. by right.
  - destruct Ha as [Hs1 ->]. split_and!; try done. intros _ Hu.
    destruct (He _ _ eq_refl) as [E|E]; [|done]. rewrite E, Hst in Hu. done.
Qed.

(** ** Calls from outside *)

Lemma execute_agree fuel w :
  (exists o, chain (Worker.InstrPdr w) (labels w) (frames w) o) -> code_ok w ->
  size w + 3 * Z.of_nat fuel < 2 ^ 32 -> Worker.TheState w = Worker.CodeSet ->
  agree (fun _ _ => True) (Worker.execute fuel) (execute fuel) w.
Proof.
  intros Hc Hk Hs Hst. unfold agree.
  pose proof (loop_agree fuel (Worker.set_State Worker.Active w) Hc Hk Hs eq_refl) as Hl.
  change (abs (Worker.set_State Worker.Active w)) with (abs w) in Hl.
  unfold Worker.execute. change (bind (gets Worker.TheState) ?k w) with (k (Worker.TheState w) w).
  rewrite Hst. cbv beta. rewrite !bool_decide_eq_false_2 by (by auto).
  change (bind (modify ?f) ?k w) with (k tt (f w)). cbv beta.
  unfold bind, Worker.done, gets, modify, ret, throw.
  destruct (Worker.loop fuel _) as [[[[] [[]|e]]|e|u|] w'], (execute fuel (abs w)) as [[[]|e'|u'|] t];
    cbn in Hl |- *; try done.
  - by destruct Hl as (? & -> & _).
  - destruct Hl as [-> Ha]. rewrite Ha. by cbn.
  - by destruct (bool_decide _).
  - destruct Hl as (He & -> & Hu). destruct (bool_decide_reflect (Worker.TheState w' = Worker.StUnreachable)) as [Hx|Hx];
      cbn; [|done]. by rewrite <- (Hu eq_refl Hx).
  - by destruct (bool_decide _).
Qed.

(** The call of a function of the store in the interpreter. *)
Definition startFunction (fuel : nat) (a : Z) : M (Interpreter EM) unit :=
  let* s := get in
  let* FuncInst := deref (lift (getInstance a (Funcs (StoreMgr s)))) in
  runFunction fuel FuncInst.

Lemma startFunction_split fuel a s : startFunction fuel a s =
  ((let* s := get in
    let* FuncInst := deref (lift (getInstance a (Funcs (StoreMgr s)))) in enterFunction FuncInst) ;;;
   let* Res := try (execute fuel) in
   match Res with
   | inl _ => ret tt
   | inr e => if bool_decide (e = Terminated) then ret tt else throw e
   end) s.
Proof.
  unfold startFunction. rewrite bind_assoc, !bind_get, bind_assoc. reflexivity.
Qed.

(** [C19] Two engines, one behaviour.  Called with the same function of the same store, the
    first generation engine and the interpreter end the same way: with success, with the
    same trap (out of gas is Revert in one and CostLimitExceeded in the other) or out of
    fuel, and with the same values, labels, frames, instances, costs and counters.  The
    branches of the code cross labels of the arity of their target only, host functions
    work on the values of the stack, and the run is short enough for the 32-bit counters
    of sequences and labels; one of the engines may be undefined. *)
Theorem legacy_engine_agrees (fuel : nat) (a : Z) w :
  Worker.TheState w = Worker.Inited -> Worker.InstrPdr w = [] -> code_ok w ->
  size w + 3 * Z.of_nat (S fuel) < 2 ^ 32 ->
  outcomes (fun _ _ => True) (fun w' t => t = abs w')
    (Worker.runStartFunction fuel a w) (startFunction fuel a (abs w)).
Proof.
  intros Hst Hi Hk Hs. rewrite startFunction_split. unfold Worker.runStartFunction.
  change (bind (gets Worker.TheState) ?k w) with (k (Worker.TheState w) w). rewrite Hst. cbv beta.
  rewrite bool_decide_eq_false_2 by (by auto).
  eapply (agree_bind eq); [by apply agree_invoke_ok; [|lia]|]. intros [] ? w1 E _.
  apply good_invoke in E as [Hc1 Hf1 Hs1]; [|exists None; rewrite Hi; constructor|done].
  unfold agree. change (bind (modify ?f) ?k w1) with (k tt (f w1)). cbv beta.
  change (abs w1) with (abs (Worker.set_State Worker.CodeSet w1)).
  pose proof (execute_agree fuel (Worker.set_State Worker.CodeSet w1)) as Hx.
  unfold agree in Hx. unfold bind, try.
  assert (code_ok w1) as Hk1 by by eapply code_ok_fixed.
  specialize (Hx Hc1 Hk1 ltac:(change (size (Worker.set_State Worker.CodeSet w1)) with (size w1); lia) eq_refl).
  destruct (Worker.execute fuel _) as [[[]|e|u|] w2], (execute fuel (abs _)) as [[[]|e'|u'|] t];
    cbn in Hx |- *; try done; try (by destruct (bool_decide _)).
  destruct Hx as [[->|[-> ->]] ->]; [|by split; [right|]].
  destruct (bool_decide _); by repeat split; try left.
Qed.

End Runs.

(** ** A program with a loop, branches and a call *)

(** [count(n)] counts its parameter down in a loop; [main(n)] calls it. *)
Definition countdown : list Instr :=
  [ BlockControlInstruction Op_Block VT_None
      [ BlockControlInstruction Op_Loop VT_None
          [ VariableInstruction Local__get 0; UnaryNumericInstruction I32__eqz;
            BrControlInstruction Op_Br_if 1;
            VariableInstruction Local__get 0; ConstInstruction I32__const (mkVariant U32 1);
            BinaryNumericInstruction I32__sub; VariableInstruction Local__set 0;
            BrControlInstruction Op_Br 0 ] ];
    VariableInstruction Local__get 0 ].
Definition call_count : list Instr :=
  [ VariableInstruction Local__get 0; CallControlInstruction Op_Call 0 ].

(** A worker whose store has one module with the functions [fs] of type [t]. *)
Definition worker_of (t : FType) (fs : list (list Instr)) (args : list ValVariant) : Worker.Worker unit :=
  Worker.mkWorker
    (LStore.mkStoreMgr
       [LMod.mkMod 0 [t] (imap (fun i _ => Z.of_nat i) fs) [] [] [] false 0]
       ((fun body => mkNamed newEntity (LFunc.mkFunc false (Some t) 0 [] body 0)) <$> fs) [] [] [])
    (mkStack (reverse args) [] []) []
    (Env.newEnvironmentManager Cfg.newConfigure tt) Worker.Inited [] 0 (replicate 256 1).

Definition count_worker : Worker.Worker unit :=
  worker_of (mkFType [VT_I32] [VT_I32]) [countdown; call_count] [mkVariant U32 3].

Lemma legacy_engine_agrees_witness :
  (Worker.runStartFunction 100 1 count_worker).1 = Ok tt /\
  values (Worker.runStartFunction 100 1 count_worker).2 = [mkVariant U32 0] /\
  startFunction 100 1 (abs count_worker) = (Ok tt, abs (Worker.runStartFunction 100 1 count_worker).2).
Proof.
  assert (outcomes (fun _ _ => True) (fun w' t => t = abs w')
    (Worker.runStartFunction 100 1 count_worker) (startFunction 100 1 (abs count_worker))) as Ha.
  { apply legacy_engine_agrees.
    - reflexivity.
    - reflexivity.
    - split; [|constructor]. repeat (constructor; [intros t [= <-]; reflexivity|]). constructor.
    - vm_compute. reflexivity. }
  assert ((Worker.runStartFunction 100 1 count_worker).1 = Ok tt) as E1 by (vm_compute; reflexivity).
  assert ((startFunction 100 1 (abs count_worker)).1 = Ok tt) as E2 by (vm_compute; reflexivity).
  split; [exact E1|]. split; [vm_compute; reflexivity|].
  revert Ha E1 E2. destruct (Worker.runStartFunction 100 1 count_worker) as [r w'].
  destruct (startFunction 100 1 (abs count_worker)) as [r' t]. cbn [fst snd]. intros Ha -> ->.
  destruct Ha as [_ ->]. reflexivity.
Defined.

(** ** A branch that loses its value *)

(** [block (result i32) x (block y (br 1))]: the branch carries [y] out of both blocks. *)
Definition nested (x y : ValVariant) : list Instr :=
  [ BlockControlInstruction Op_Block VT_I32
      [ ConstInstruction I32__const x;
        BlockControlInstruction Op_Block VT_None
          [ ConstInstruction I32__const y; BrControlInstruction Op_Br 1 ] ] ].

Definition nested_module (x y : ValVariant) : AModule :=
  mkModule [0; 97; 115; 109] [1; 0; 0; 0] None (Some [mkFunctionType [] [VT_I32]]) None (Some [0])
    None None None (Some [mkExportDesc [102] Ext_Function 0]) None None
    (Some [mkCodeSegment 0 [] (nested x y)]) None.

(** The first generation engine loses the value of a branch out of a block without
    results: [popLabel] of the inner block erases it before the label the branch goes to
    is reached.  The module is valid, its function returns the value [y] the branch
    carries in the interpreter, and the value [x] under it in the first generation. *)
Theorem legacy_branch_loses_value (x y : ValVariant) :
  let w := worker_of (mkFType [] [VT_I32]) [nested x y] [] in
  (Validator.validate (nested_module x y) newFormChecker).1 = Ok tt /\
  uniform_code [1] (nested x y) = false /\
  (exists w', Worker.runStartFunction 20 0 w = (Ok tt, w') /\ values w' = [x]) /\
  (exists t, startFunction 20 0 (abs w) = (Ok tt, t) /\ ValueStack (StackMgr t) = [y]).
Proof.
  cbv zeta. split_and!.
  - vm_compute. reflexivity.
  - reflexivity.
  - eexists. split; vm_compute; reflexivity.
  - eexists. split; vm_compute; reflexivity.
Qed.
