(* ===== verification/LegacyEEI.v ===== *)
(** * The Ethereum interface of the first generation VM: include/vm/environment.h,
    include/vm/hostfunc/ethereum/*.h, lib/vm/hostfunc/ethereum/*.cpp

    [EVMEnvironment] has the members of the class of the same name of the new VM, whose
    record serves; its gas counters are the cost limit and the cost sum of the environment
    manager, which keeps the environment in its table.  The data of evmc.h, the host it
    calls and the Keccak hash are those of EEI.v. *)
From stdpp Require Import base list numbers option strings.
From Stdlib Require Import ZArith Lia.
From S2P Require Import Prelude Types Memory Runtime HostFunc HexStr EEI.
From S2P Require Import LegacyRuntime.
#[local] Open Scope Z_scope.

(** ** environment.h *)
Module LEnv.
Section Env.
Context {E H : Type}.
#[local] Abbreviation EM := (Env.EnvironmentManager H).

(** [clear] leaves the address, the code, the depth, the flag and the kind. *)
Definition clear (e : EVMEnvironment E) : EVMEnvironment E :=
  mkEVMEnv [] [] [] (Address e) [] (Code e) (Depth e) (Flag e) (CallKind e) None.

(** The counters are references into the environment manager. *)
Definition getGasLeft (m : EM) : Z := wrap 64 (Env.CostLimit m - Env.CostSum m).

Definition getCallerStr (e : EVMEnvironment E) : list Z := convertBytesToHexStr (Caller e) 40 false.
Definition setCaller (Str : list Z) : EVMEnvironment E -> EVMEnvironment E :=
  set_Caller (convertHexStrToBytes Str 40 false).
Definition getCallValueStr (e : EVMEnvironment E) : list Z := convertValVecToHexStr (CallValue e) 64.
Definition setCallValue (Str : list Z) : EVMEnvironment E -> EVMEnvironment E :=
  set_CallValue (convertHexStrToValVec Str 64).
Definition getAddressStr (e : EVMEnvironment E) : list Z := convertBytesToHexStr (Address e) 40 false.
Definition setAddress (Str : list Z) : EVMEnvironment E -> EVMEnvironment E :=
  set_Address (convertHexStrToBytes Str 40 false).

Definition getCallerEVMC (e : EVMEnvironment E) : res (list Z) := read_range 0 20 (Caller e).
Definition getCallValueEVMC (e : EVMEnvironment E) : res (list Z) := read_range 0 32 (CallValue e).
Definition getAddressEVMC (e : EVMEnvironment E) : res (list Z) := read_range 0 20 (Address e).

Definition setEVMCMessage (Msg : evmc_message) (m : EM) (e : EVMEnvironment E)
    : res (EM * EVMEnvironment E) :=
  let? CallData' :=
    match msg_input_data Msg with
    | Some d => if 0 <? msg_input_size Msg then read_range 0 (msg_input_size Msg) d else Ok []
    | None => Ok []
    end in
  Ok (Env.setCostLimit (wrap 64 (msg_gas Msg)) m,
      mkEVMEnv (msg_sender Msg) (reverse (msg_value Msg)) CallData' (msg_destination Msg) []
        (Code e) (wrap 32 (msg_depth Msg)) (msg_flags Msg) (msg_kind Msg) (EVMCContext e)).

(** [Bytes(Buf, Buf + Size)]; the size is a 32-bit number. *)
Definition setEVMCCode (Buf : list Z) (Size : Z) (e : EVMEnvironment E) : EVMEnvironment E :=
  mkEVMEnv (Caller e) (CallValue e) (CallData e) (Address e) (ReturnData e)
    (take (Z.to_nat (wrap 32 Size)) Buf) (Depth e)
    (Flag e) (CallKind e) (EVMCContext e).

End Env.
End LEnv.

Module LEEI.
Section EEI.
(** [evm] and [set_evm] find the environment in the table of the manager. *)
Context {E H : Type} (evm : H -> EVMEnvironment E) (set_evm : EVMEnvironment E -> H -> H).
Context (host : evmc_host_interface E) (keccak256 : list Z -> list Z).

#[local] Abbreviation EM := (Env.EnvironmentManager H).
#[local] Abbreviation ML := (M (LHost.HostCtx H)).

(** ** Access to the state *)

Definition env_of (m : EM) : EVMEnvironment E := evm (Env.EnvTable m).
Definition with_env (e : EVMEnvironment E) (m : EM) : EM :=
  Env.set_EnvTable (set_evm e (Env.EnvTable m)) m.

Definition getEnv : ML (EVMEnvironment E) := gets (fun c => env_of (LHost.lcEnv c)).
Definition setReturnData (d : list Z) : ML unit :=
  modify (fun c => LHost.set_lcEnv
    (with_env (set_ReturnData d (env_of (LHost.lcEnv c))) (LHost.lcEnv c)) c).
Definition onEnvMgr {A} (f : EM -> A * EM) : ML A := fun c =>
  let '(a, m) := f (LHost.lcEnv c) in (Ok a, LHost.set_lcEnv m c).

(** [Env.getEVMCContext()] reads the pointer; [Cxt->host->f(Cxt, ...)] calls through it. *)
Definition getEVMCContext : ML unit :=
  let* Env := getEnv in
  match EVMCContext Env with Some _ => ret tt | None => undef UB_indet end.
Definition onCxt {A} (f : E -> A * E) : ML A := fun c =>
  let Env := env_of (LHost.lcEnv c) in
  match EVMCContext Env with
  | Some w =>
      let '(a, w') := f w in
      (Ok a, LHost.set_lcEnv (with_env (setEVMCContext w' Env) (LHost.lcEnv c)) c)
  | None => (Undef UB_indet, c)
  end.

(** [if (!EnvMgr.addCost(Gas)) return ErrCode::CostLimitExceeded;] *)
Definition takeCost (Gas : Z) : ML unit :=
  let* b := onEnvMgr (Env.addCost Gas) in
  if (b : bool) then ret tt else throw CostLimitExceeded.

(** ** eei.h *)

(** The helper returns [Revert] when the limit is exceeded. *)
Definition addCopyCost (Length : Z) : ML unit :=
  let TakeGas := 3 * ((Length + 31) / 32) in
  let* b := onEnvMgr (Env.addCost TakeGas) in
  if (b : bool) then ret tt else throw Revert.

(** [if (addCopyCost(EnvMgr, Length) != ErrCode::Success) return ErrCode::CostLimitExceeded;] *)
Definition takeCopyCost (Length : Z) : ML unit :=
  let* r := try (addCopyCost Length) in
  match r with inl _ => ret tt | inr _ => throw CostLimitExceeded end.

Definition getMaxCallGas : ML Z :=
  gets (fun c => LEnv.getGasLeft (LHost.lcEnv c) - LEnv.getGasLeft (LHost.lcEnv c) / 64).

Definition loadUInt (Off Bytes0 : Z) : ML (list Z) :=
  let Bytes := if Bytes0 >? 32 then 32 else Bytes0 in
  let* bs := LHost.onMem (LMem.getArray Off Bytes true) in
  ret (replicate (Z.to_nat (32 - Bytes)) 0 ++ bs).
Definition loadAddress (Off : Z) : ML (list Z) := LHost.onMem (LMem.getArray Off 20 false).
Definition loadBytes32 (Off : Z) : ML (list Z) := LHost.onMem (LMem.getArray Off 32 false).

Definition storeUInt (Src : list Z) (Off Bytes0 : Z) : ML unit :=
  let Bytes := if Bytes0 >? 32 then 32 else Bytes0 in
  if is_zero (take (Z.to_nat (32 - Bytes)) Src)
  then LHost.onMem (LMem.setArray (drop (Z.to_nat (32 - Bytes)) Src) Off Bytes true)
  else throw ExecutionFailed.
Definition storeAddress (Addr : list Z) (Off : Z) : ML unit :=
  LHost.onMem (LMem.setArray Addr Off 20 false).
Definition storeBytes32 (Bytes : list Z) (Off : Z) : ML unit :=
  LHost.onMem (LMem.setArray Bytes Off 32 false).

Definition convToUInt128 (Src : list Z) : res Z :=
  if is_zero (take 16 Src) then Ok (be_combine (drop 16 Src)) else Err ExecutionFailed.

(** The parts of [callContract]: the input data, *)
Definition setInput (Msg : evmc_message) (DataOffset DataLength : Z) : ML evmc_message :=
  if 0 <? DataLength then
    let* Code := LHost.onMem (LMem.getBytes [] DataOffset DataLength) in
    ret (mkMsg (msg_kind Msg) (msg_flags Msg) (msg_depth Msg) (msg_gas Msg) (msg_destination Msg)
           (msg_sender Msg) (Some Code) (sizeZ Code) (msg_value Msg))
  else ret Msg.

(** the additional gas, *)
Definition takeTransferGas (Msg : evmc_message) : ML unit :=
  if is_call_or_callcode (msg_kind Msg) && negb (is_zero (msg_value Msg)) then
    takeCost 9000 ;;;
    let* exists_ := onCxt (account_exists host (msg_destination Msg)) in
    if (exists_ : bool) then ret tt else takeCost 25000
  else ret tt.

(** the balance of the sender, *)
Definition enoughBalance (Msg : evmc_message) : ML bool :=
  if (is_call_or_callcode (msg_kind Msg) && negb (is_zero (msg_value Msg))) ||
     bool_decide (msg_kind Msg = EVMC_CREATE)
  then
    let* Balance := onCxt (get_balance host (msg_sender Msg)) in
    let* DstBalance := lift (convToUInt128 Balance) in
    let* ValBalance := lift (convToUInt128 (msg_value Msg)) in
    ret (negb (DstBalance <? ValBalance))
  else ret true.

(** the data the call returns, *)
Definition takeReturnData (Kind : evmc_call_kind) (CallRes : evmc_result) (CreateResOffset : Z)
    : ML unit :=
  if bool_decide (Kind = EVMC_CREATE) && (status_code CallRes =? EVMC_SUCCESS) then
    storeAddress (create_address CallRes) CreateResOffset ;;; setReturnData []
  else
    let* d := lift (from_pointer (output_data CallRes) (output_size CallRes)) in
    setReturnData d.

(** and the call: the results of [addCost] and [subCost] are not looked at. *)
Definition performCall (Msg : evmc_message) (CreateResOffset : Z) : ML unit :=
  onEnvMgr (Env.addCost (wrap 64 (msg_gas Msg))) ;;;
  let Msg' :=
    if negb (is_zero (msg_value Msg)) && negb (bool_decide (msg_kind Msg = EVMC_CREATE))
    then set_msg_gas (sgn 64 (msg_gas Msg + 2300)) Msg else Msg in
  let* CallRes := onCxt (host_call host Msg') in
  if gas_left CallRes <? 0 then throw ExecutionFailed
  else
    onEnvMgr (Env.subCost (gas_left CallRes)) ;;;
    takeReturnData (msg_kind Msg) CallRes CreateResOffset ;;;
    LHost.setRet (if status_code CallRes =? EVMC_SUCCESS then 0
                  else if status_code CallRes =? EVMC_REVERT then 2 else 1).

Definition callContract (Msg0 : evmc_message) (DataOffset DataLength CreateResOffset : Z) : ML unit :=
  getEVMCContext ;;;
  let* Env := getEnv in
  if 1024 <=? Depth Env then LHost.setRet 1
  else
    let* Msg := setInput Msg0 DataOffset DataLength in
    if (bool_decide (msg_kind Msg = EVMC_CREATE) ||
        (bool_decide (msg_kind Msg = EVMC_CALL) && negb (is_zero (msg_value Msg)))) &&
       negb (Z.land (Flag Env) EVMC_STATIC =? 0)
    then throw ExecutionFailed
    else
      takeTransferGas Msg ;;;
      let* ok := enoughBalance Msg in
      if negb ok then LHost.setRet 1 else performCall Msg CreateResOffset.

(** ** The functions: lib/vm/hostfunc/ethereum/*.cpp *)

(** [static_cast<int32_t>(Env.getDepth() + 1)] *)
Definition nextDepth (Env : EVMEnvironment E) : Z := sgn 32 (wrap 32 (Depth Env + 1)).

(** The message of a call; its members are evaluated in the order they are declared. *)
Definition callMessage (Kind : evmc_call_kind) (Flags Gas : Z) (Addr : list Z)
    (Val : EVMEnvironment E -> res (list Z)) : ML evmc_message :=
  let* Env := getEnv in
  let* MaxGas := getMaxCallGas in
  let* Sender := lift (LEnv.getAddressEVMC Env) in
  let* Value := lift (Val Env) in
  ret (mkMsg Kind Flags (nextDepth Env) (sgn 64 (Z.min Gas MaxGas)) Addr Sender None 0 Value).

Definition staticFlag : ML Z := gets (fun c => Z.land (Flag (env_of (LHost.lcEnv c))) EVMC_STATIC).

Definition EEICall_body (Gas AddressOffset ValueOffset DataOffset DataLength : Z) : ML unit :=
  let* Addr := loadAddress AddressOffset in
  let* Val := loadUInt ValueOffset 16 in
  let* Flags := staticFlag in
  let* CallMsg := callMessage EVMC_CALL Flags Gas Addr (fun _ => Ok Val) in
  callContract CallMsg DataOffset DataLength 0.

Definition EEICallCode_body (Gas AddressOffset ValueOffset DataOffset DataLength : Z) : ML unit :=
  let* Addr := loadAddress AddressOffset in
  let* Val := loadUInt ValueOffset 16 in
  let* Flags := staticFlag in
  let* CallMsg := callMessage EVMC_CALLCODE Flags Gas Addr (fun _ => Ok Val) in
  callContract CallMsg DataOffset DataLength 0.

Definition EEICallDataCopy_body (ResultOffset DataOffset Length : Z) : ML unit :=
  takeCopyCost Length ;;;
  let* Env := getEnv in
  LHost.onMem (LMem.setBytes (CallData Env) ResultOffset DataOffset Length).

Definition EEICallDelegate_body (Gas AddressOffset DataOffset DataLength : Z) : ML unit :=
  let* Addr := loadAddress AddressOffset in
  let* Flags := staticFlag in
  let* CallMsg := callMessage EVMC_DELEGATECALL Flags Gas Addr LEnv.getCallValueEVMC in
  callContract CallMsg DataOffset DataLength 0.

Definition EEICallStatic_body (Gas AddressOffset DataOffset DataLength : Z) : ML unit :=
  let* Addr := loadAddress AddressOffset in
  if be_combine Addr =? 9 then
    takeCopyCost DataLength ;;;
    let* Data := LHost.onMem (LMem.getBytes [] DataOffset DataLength) in
    setReturnData (keccak256 Data) ;;;
    LHost.setRet 0
  else
    let* CallMsg := callMessage EVMC_CALL EVMC_STATIC Gas Addr (fun _ => Ok zero_bytes32) in
    callContract CallMsg DataOffset DataLength 0.

Definition EEICodeCopy_body (ResultOffset CodeOffset Length : Z) : ML unit :=
  takeCopyCost Length ;;;
  let* Env := getEnv in
  LHost.onMem (LMem.setBytes (Code Env) ResultOffset CodeOffset Length).

Definition EEICreate_body (ValueOffset DataOffset DataLength ResultOffset : Z) : ML unit :=
  let* Val := loadUInt ValueOffset 16 in
  let* Env := getEnv in
  let* MaxGas := getMaxCallGas in
  let* Sender := lift (LEnv.getAddressEVMC Env) in
  let CreateMsg := mkMsg EVMC_CREATE 0 (nextDepth Env) (sgn 64 MaxGas) (replicate 20 0) Sender
                     None 0 Val in
  callContract CreateMsg DataOffset DataLength ResultOffset.

(** [&Buffer[0]] of a vector without elements is undefined. *)
Definition front_of (Buffer : list Z) : ML unit :=
  if sizeZ Buffer =? 0 then undef UB_vector else ret tt.

Definition EEIExternalCodeCopy_body (AddressOffset ResultOffset CodeOffset Length : Z) : ML unit :=
  takeCopyCost Length ;;;
  getEVMCContext ;;;
  let* Addr := loadAddress AddressOffset in
  let Buffer := replicate (Z.to_nat Length) 0 in
  front_of Buffer ;;;
  let* r := onCxt (copy_code host Addr CodeOffset Length) in
  let* Buffer' := lift (write_range 0 r.2 Buffer) in
  if negb (Length =? r.1) then throw AccessForbidMemory
  else LHost.onMem (LMem.setBytes Buffer' ResultOffset 0 Length).

Definition EEIFinish_body (DataOffset DataLength : Z) : ML unit :=
  setReturnData [] ;;;
  let* Env := getEnv in
  let* d := LHost.onMem (LMem.getBytes (ReturnData Env) DataOffset DataLength) in
  setReturnData d ;;;
  throw Terminated.

Definition EEIGetAddress_body (ResultOffset : Z) : ML unit :=
  let* Env := getEnv in LHost.onMem (LMem.setBytes (Address Env) ResultOffset 0 20).

Definition EEIGetBlockCoinbase_body (ResultOffset : Z) : ML unit :=
  getEVMCContext ;;;
  let* Tx := onCxt (get_tx_context host) in
  storeAddress (block_coinbase Tx) ResultOffset.

Definition EEIGetBlockDifficulty_body (ResultOffset : Z) : ML unit :=
  getEVMCContext ;;;
  let* Tx := onCxt (get_tx_context host) in
  storeUInt (block_difficulty Tx) ResultOffset 32.

Definition EEIGetBlockGasLimit_body : ML unit :=
  getEVMCContext ;;;
  let* Tx := onCxt (get_tx_context host) in
  LHost.setRet (wrap 64 (block_gas_limit Tx)).

Definition EEIGetBlockHash_body (Number ResultOffset : Z) : ML unit :=
  getEVMCContext ;;;
  LHost.setRet 0 ;;;
  let* Hash := onCxt (get_block_hash host (sgn 64 Number)) in
  if is_zero Hash then LHost.setRet 1
  else
    let* r := try (storeBytes32 Hash ResultOffset) in
    match r with inl _ => ret tt | inr Status => LHost.setRet 1 ;;; throw Status end.

Definition EEIGetBlockNumber_body : ML unit :=
  getEVMCContext ;;;
  let* Tx := onCxt (get_tx_context host) in
  LHost.setRet (wrap 64 (block_number Tx)).

Definition EEIGetBlockTimestamp_body : ML unit :=
  getEVMCContext ;;;
  let* Tx := onCxt (get_tx_context host) in
  LHost.setRet (wrap 64 (block_timestamp Tx)).

Definition EEIGetCallDataSize_body : ML unit :=
  let* Env := getEnv in LHost.setRet (wrap 32 (sizeZ (CallData Env))).

Definition EEIGetCaller_body (ResultOffset : Z) : ML unit :=
  let* Env := getEnv in LHost.onMem (LMem.setBytes (Caller Env) ResultOffset 0 20).

Definition EEIGetCallValue_body (ResultOffset : Z) : ML unit :=
  let* Env := getEnv in LHost.onMem (LMem.setBytes (CallValue Env) ResultOffset 0 16).

Definition EEIGetCodeSize_body : ML unit :=
  let* Env := getEnv in LHost.setRet (wrap 32 (sizeZ (Code Env))).

Definition EEIGetExternalBalance_body (AddressOffset ResultOffset : Z) : ML unit :=
  getEVMCContext ;;;
  let* Addr := loadAddress AddressOffset in
  let* Balance := onCxt (get_balance host Addr) in
  storeUInt Balance ResultOffset 16.

Definition EEIGetExternalCodeSize_body (AddressOffset : Z) : ML unit :=
  getEVMCContext ;;;
  let* Addr := loadAddress AddressOffset in
  let* Size := onCxt (get_code_size host Addr) in
  LHost.setRet (wrap 32 Size).

Definition EEIGetGasLeft_body : ML unit :=
  let* g := gets (fun c => LEnv.getGasLeft (LHost.lcEnv c)) in LHost.setRet g.

Definition EEIGetReturnDataSize_body : ML unit :=
  let* Env := getEnv in LHost.setRet (wrap 32 (sizeZ (ReturnData Env))).

Definition EEIGetTxGasPrice_body (ResultOffset : Z) : ML unit :=
  getEVMCContext ;;;
  let* Tx := onCxt (get_tx_context host) in
  storeUInt (tx_gas_price Tx) ResultOffset 16.

Definition EEIGetTxOrigin_body (ResultOffset : Z) : ML unit :=
  getEVMCContext ;;;
  let* Tx := onCxt (get_tx_context host) in
  storeAddress (tx_origin Tx) ResultOffset.

(** [if (NumberOfTopics >= k) Topics[k - 1] = loadBytes32(TopicK)] *)
Definition loadTopic (b : bool) (Topic : Z) : ML (list Z) :=
  if b then loadBytes32 Topic else ret zero_bytes32.

Definition EEILog_body (DataOffset DataLength NumberOfTopics Topic1 Topic2 Topic3 Topic4 : Z)
    : ML unit :=
  if NumberOfTopics >? 4 then throw ExecutionFailed
  else
    takeCost (375 * NumberOfTopics + 8 * DataLength) ;;;
    getEVMCContext ;;;
    let* t1 := loadTopic (1 <=? NumberOfTopics) Topic1 in
    let* t2 := loadTopic (2 <=? NumberOfTopics) Topic2 in
    let* t3 := loadTopic (3 <=? NumberOfTopics) Topic3 in
    let* t4 := loadTopic (NumberOfTopics =? 4) Topic4 in
    let* Data := LHost.onMem (LMem.getBytes [] DataOffset DataLength) in
    let* Env := getEnv in
    let* Addr := lift (LEnv.getAddressEVMC Env) in
    front_of Data ;;;
    onCxt (fun w => (tt, emit_log host Addr Data (take (Z.to_nat NumberOfTopics) [t1; t2; t3; t4]) w)).

Definition EEIReturnDataCopy_body (ResultOffset DataOffset Length : Z) : ML unit :=
  takeCopyCost Length ;;;
  let* Env := getEnv in
  LHost.onMem (LMem.setBytes (ReturnData Env) ResultOffset DataOffset Length).

Definition EEIRevert_body (DataOffset DataLength : Z) : ML unit :=
  setReturnData [] ;;;
  let* Env := getEnv in
  let* d := LHost.onMem (LMem.getBytes (ReturnData Env) DataOffset DataLength) in
  setReturnData d ;;;
  throw Revert.

Definition EEISelfDestruct_body (AddressOffset : Z) : ML unit :=
  getEVMCContext ;;;
  let* Addr := loadAddress AddressOffset in
  let* Env := getEnv in
  let* Self := lift (LEnv.getAddressEVMC Env) in
  let* exists_ := onCxt (account_exists host Addr) in
  (if (exists_ : bool) then ret tt else takeCost 25000) ;;;
  onCxt (fun w => (tt, selfdestruct host Self Addr w)) ;;;
  throw Terminated.

Definition EEIStorageLoad_body (PathOffset ValueOffset : Z) : ML unit :=
  getEVMCContext ;;;
  let* Env := getEnv in
  let* Addr := lift (LEnv.getAddressEVMC Env) in
  let* Path := loadBytes32 PathOffset in
  let* Value := onCxt (get_storage host Addr Path) in
  storeBytes32 Value ValueOffset.

Definition EEIStorageStore_body (PathOffset ValueOffset : Z) : ML unit :=
  getEVMCContext ;;;
  let* Env := getEnv in
  if negb (Z.land (Flag Env) EVMC_STATIC =? 0) then throw ExecutionFailed
  else
    let* Addr := lift (LEnv.getAddressEVMC Env) in
    let* Path := loadBytes32 PathOffset in
    let* Value := loadBytes32 ValueOffset in
    let* CurrValue := onCxt (get_storage host Addr Path) in
    (if is_zero CurrValue && negb (is_zero Value) then takeCost 15000 else ret tt) ;;;
    onCxt (fun w => (tt, set_storage host Addr Path Value w)).

Definition EEIUseGas_body (Amount : Z) : ML unit := takeCost Amount.

(** ** The classes of the functions: vm/hostfunc/ethereum/*.h *)

(** The constructor of the template [EEI]. *)
Definition eei (FuncName : string) (Cost : Z) (RetT : option CType) (Ts : list CType)
    (body : fun_of Ts (ML unit)) : LHost.HostFunctionBase H :=
  LHost.hostFunction (chars "ethereum") (chars FuncName) Cost RetT Ts body.

Definition EEICall := eei "call" 700 (Some U32) [U64; U32; U32; U32; U32] EEICall_body.
Definition EEICallCode := eei "callCode" 700 (Some U32) [U64; U32; U32; U32; U32] EEICallCode_body.
Definition EEICallDataCopy := eei "callDataCopy" 3 None [U32; U32; U32] EEICallDataCopy_body.
Definition EEICallDelegate := eei "callDelegate" 700 (Some U32) [U64; U32; U32; U32] EEICallDelegate_body.
Definition EEICallStatic := eei "callStatic" 700 (Some U32) [U64; U32; U32; U32] EEICallStatic_body.
Definition EEICodeCopy := eei "codeCopy" 3 None [U32; U32; U32] EEICodeCopy_body.
Definition EEICreate := eei "create" 32000 (Some U32) [U32; U32; U32; U32] EEICreate_body.
Definition EEIExternalCodeCopy := eei "externalCodeCopy" 700 None [U32; U32; U32; U32] EEIExternalCodeCopy_body.
Definition EEIFinish := eei "finish" 0 None [U32; U32] EEIFinish_body.
Definition EEIGetAddress := eei "getAddress" 2 None [U32] EEIGetAddress_body.
Definition EEIGetBlockCoinbase := eei "getBlockCoinbase" 2 None [U32] EEIGetBlockCoinbase_body.
Definition EEIGetBlockDifficulty := eei "getBlockDifficulty" 2 None [U32] EEIGetBlockDifficulty_body.
Definition EEIGetBlockGasLimit := eei "getBlockGasLimit" 2 (Some U64) [] EEIGetBlockGasLimit_body.
Definition EEIGetBlockHash := eei "getBlockHash" 800 (Some U32) [U64; U32] EEIGetBlockHash_body.
Definition EEIGetBlockNumber := eei "getBlockNumber" 2 (Some U64) [] EEIGetBlockNumber_body.
Definition EEIGetBlockTimestamp := eei "getBlockTimestamp" 2 (Some U64) [] EEIGetBlockTimestamp_body.
Definition EEIGetCallDataSize := eei "getCallDataSize" 2 (Some U32) [] EEIGetCallDataSize_body.
Definition EEIGetCaller := eei "getCaller" 2 None [U32] EEIGetCaller_body.
Definition EEIGetCallValue := eei "getCallValue" 2 None [U32] EEIGetCallValue_body.
Definition EEIGetCodeSize := eei "getCodeSize" 2 (Some U32) [] EEIGetCodeSize_body.
Definition EEIGetExternalBalance := eei "getExternalBalance" 400 None [U32; U32] EEIGetExternalBalance_body.
Definition EEIGetExternalCodeSize := eei "getExternalCodeSize" 700 (Some U32) [U32] EEIGetExternalCodeSize_body.
Definition EEIGetGasLeft := eei "getGasLeft" 2 (Some U64) [] EEIGetGasLeft_body.
Definition EEIGetReturnDataSize := eei "getReturnDataSize" 2 (Some U32) [] EEIGetReturnDataSize_body.
Definition EEIGetTxGasPrice := eei "getTxGasPrice" 2 None [U32] EEIGetTxGasPrice_body.
Definition EEIGetTxOrigin := eei "getTxOrigin" 2 None [U32] EEIGetTxOrigin_body.
Definition EEILog := eei "log" 375 None [U32; U32; U32; U32; U32; U32; U32] EEILog_body.
Definition EEIReturnDataCopy := eei "returnDataCopy" 3 None [U32; U32; U32] EEIReturnDataCopy_body.
Definition EEIRevert := eei "revert" 0 None [U32; U32] EEIRevert_body.
Definition EEISelfDestruct := eei "selfDestruct" 5000 None [U32] EEISelfDestruct_body.
Definition EEIStorageLoad := eei "storageLoad" 200 None [U32; U32] EEIStorageLoad_body.
Definition EEIStorageStore := eei "storageStore" 5000 None [U32; U32] EEIStorageStore_body.
Definition EEIUseGas := eei "useGas" 0 None [U64] EEIUseGas_body.

(** The functions [prepareVMHost] makes, in order. *)
Definition EEIFuncs : list (LHost.HostFunctionBase H) :=
  [EEICall; EEICallCode; EEICallDataCopy; EEICallDelegate; EEICallStatic; EEICodeCopy;
    EEICreate; EEIExternalCodeCopy; EEIFinish; EEIGetAddress; EEIGetBlockCoinbase;
    EEIGetBlockDifficulty; EEIGetBlockGasLimit; EEIGetBlockHash; EEIGetBlockNumber;
    EEIGetBlockTimestamp; EEIGetCallDataSize; EEIGetCallValue; EEIGetCaller; EEIGetCodeSize;
    EEIGetExternalBalance; EEIGetExternalCodeSize; EEIGetGasLeft; EEIGetReturnDataSize;
    EEIGetTxGasPrice; EEIGetTxOrigin; EEILog; EEIReturnDataCopy; EEIRevert; EEISelfDestruct;
    EEIStorageLoad; EEIStorageStore; EEIUseGas ].

End EEI.
End LEEI.
