(* ===== verification/LegacyWasi.v ===== *)
(** * The WASI functions of the first generation VM: include/vm/environment.h,
    include/vm/hostfunc/wasi/*.h, lib/vm/environment.cpp, lib/vm/hostfunc/wasi/*.cpp

    [WasiEnvironment] has the members of the class of the new VM, whose record serves.  The
    system calls, the constants, and the expressions over them that the two generations
    share (file types, flags, paths) are those of Wasi.v. *)
From stdpp Require Import base list numbers option strings.
From Stdlib Require Import ZArith Lia.
From S2P Require Import Prelude Types Memory Runtime HostFunc Wasi.
From S2P Require Import LegacyRuntime.
#[local] Open Scope Z_scope.

Module LWasi.
Section Wasi.
(** [wasi] and [set_wasi] find the environment, and the system, in the table of the manager. *)
Context {X H : Type} (os : OS X) (wasi : H -> WasiState X) (set_wasi : WasiState X -> H -> H).

#[local] Abbreviation EM := (Env.EnvironmentManager H).
#[local] Abbreviation ML := (M (LHost.HostCtx H)).

(** ** WasiEnvironment *)

(** The constructor opens the working directory, the destructor closes what is open;
    [Status] has no initialiser. *)
Definition newWasiEnvironment (o : X) : WasiState X :=
  let '(Fd, o') := sys_open os [46] (Z.lor O_RDONLY O_DIRECTORY) 0 o in
  mkWasi (mkWasiEnv None [] [mkPreStat (sgn 32 Fd) 0 [46]] 0) o'.
Definition deleteWasiEnvironment (s : WasiState X) : X :=
  fold_left (fun o Entry => (sys_close os (psFd Entry) o).2) (PreStats (wsEnv s)) (wsOS s).
Definition clear (e : WasiEnvironment) : WasiEnvironment := set_CmdArgs [] e.

Definition wasi_of (m : EM) : WasiState X := wasi (Env.EnvTable m).
Definition with_wasi (s : WasiState X) (m : EM) : EM :=
  Env.set_EnvTable (set_wasi s (Env.EnvTable m)) m.

Definition getEnv : ML WasiEnvironment := gets (fun c => wsEnv (wasi_of (LHost.lcEnv c))).
Definition sys {A} (f : X -> A * X) : ML A := fun c =>
  let s := wasi_of (LHost.lcEnv c) in
  let '(a, o) := f (wsOS s) in
  (Ok a, LHost.set_lcEnv (with_wasi (mkWasi (wsEnv s) o) (LHost.lcEnv c)) c).

(** ** The functions: lib/vm/hostfunc/wasi/*.cpp *)

(** The loop over the strings: each pointer is stored, the strings are collected. *)
Fixpoint storePointers (Strs : list (list Z)) (Ptr BufOffset : Z) (Buf : list Z)
    : ML (Z * list Z) :=
  match Strs with
  | [] => ret (Ptr, Buf)
  | Arg :: Strs' =>
      LHost.onMem (LMem.storeValue U32 BufOffset Ptr 4) ;;;
      storePointers Strs' (wrap 32 (Ptr + 4)) (wrap 32 (BufOffset + (sizeZ Arg + 1)))
        (Buf ++ Arg ++ [0])
  end.

(** The pointers, a null pointer, and the buffer. *)
Definition storeStrings (Strs : list (list Z)) (Ptr BufPtr : Z) : ML unit :=
  let* r := storePointers Strs Ptr BufPtr [] in
  LHost.onMem (LMem.storeValue U32 0 r.1 4) ;;;
  LHost.onMem (LMem.setBytes r.2 BufPtr 0 (wrap 32 (sizeZ r.2))) ;;;
  LHost.setRet 0.

Definition WasiArgsGet_body (ArgvPtr ArgvBufPtr : Z) : ML unit :=
  let* Env := getEnv in storeStrings (CmdArgs Env) ArgvPtr ArgvBufPtr.

Definition WasiArgsSizesGet_body (ArgcPtr ArgvBufSizePtr : Z) : ML unit :=
  let* Env := getEnv in
  LHost.onMem (LMem.storeValue U32 (wrap 32 (sizeZ (CmdArgs Env))) ArgcPtr 4) ;;;
  LHost.onMem (LMem.storeValue U32 (stringsSize (CmdArgs Env)) ArgvBufSizePtr 4) ;;;
  LHost.setRet 0.

Definition getEnviron : ML (list (list Z)) := gets (fun c => sys_environ os (wsOS (wasi_of (LHost.lcEnv c)))).

Definition WasiEnvironGet_body (EnvPtr EnvBufPtr : Z) : ML unit :=
  let* Strs := getEnviron in storeStrings Strs EnvPtr EnvBufPtr.

Definition WasiEnvironSizesGet_body (EnvCntPtr EnvBufSizePtr : Z) : ML unit :=
  let* Strs := getEnviron in
  LHost.onMem (LMem.storeValue U32 (wrap 32 (sizeZ Strs)) EnvCntPtr 4) ;;;
  LHost.onMem (LMem.storeValue U32 (stringsSize Strs) EnvBufSizePtr 4) ;;;
  LHost.setRet 0.

Definition WasiFdClose_body (Fd : Z) : ML unit :=
  let* r := sys (sys_close os Fd) in
  if negb (r =? 0) then LHost.setRet 1 else LHost.setRet 0.

Definition WasiFdFdstatGet_body (Fd FdStatPtr : Z) : ML unit :=
  let* st := sys (sys_fstat os Fd) in
  match st with
  | None => LHost.setRet 1
  | Some st_mode =>
      let* FdFlags := sys (sys_getfl os Fd) in
      if FdFlags <? 0 then LHost.setRet 1
      else
        LHost.onMem (LMem.storeValue U32 (filetype st_mode) FdStatPtr 1) ;;;
        LHost.onMem (LMem.storeValue U32 0 (wrap 32 (FdStatPtr + 1)) 1) ;;;
        LHost.onMem (LMem.storeValue U32 (fdflags FdFlags) (wrap 32 (FdStatPtr + 2)) 2) ;;;
        LHost.onMem (LMem.storeValue U32 0 (wrap 32 (FdStatPtr + 4)) 4) ;;;
        LHost.onMem (LMem.storeValue U64 RIGHTS_ALL (wrap 32 (FdStatPtr + 8)) 8) ;;;
        LHost.onMem (LMem.storeValue U64 RIGHTS_ALL (wrap 32 (FdStatPtr + 16)) 8) ;;;
        LHost.setRet 0
  end.

Definition WasiFdFdstatSetFlags_body (Fd FsFlags : Z) : ML unit := LHost.setRet 0.

Definition WasiFdPrestatDirName_body (Fd PathBufPtr PathLen : Z) : ML unit :=
  let* Env := getEnv in
  match findPreStat Fd (PreStats Env) with
  | Some Entry =>
      if sizeZ (psPath Entry) >? PathLen then LHost.setRet WASI_EINVAL
      else
        LHost.onMem (LMem.setBytes (psPath Entry) PathBufPtr 0 (wrap 32 (sizeZ (psPath Entry)))) ;;;
        LHost.setRet 0
  | None => LHost.setRet WASI_EBADF
  end.

Definition WasiFdPrestatGet_body (Fd PreStatPtr : Z) : ML unit :=
  let* Env := getEnv in
  match findPreStat Fd (PreStats Env) with
  | Some Entry =>
      LHost.onMem (LMem.storeValue U32 (psType Entry) PreStatPtr 1) ;;;
      LHost.onMem (LMem.storeValue U32 (wrap 32 (sizeZ (psPath Entry))) (wrap 32 (PreStatPtr + 4)) 4) ;;;
      LHost.setRet 0
  | None => LHost.setRet WASI_EBADF
  end.

(** [IOVec[I]]: the offset and the length. *)
Definition loadIOVec (IOVSPtr : Z) : ML (Z * Z) :=
  let* BufPtr := LHost.onMem (LMem.loadValue U32 IOVSPtr 4) in
  let* BufLen := LHost.onMem (LMem.loadValue U32 (wrap 32 (IOVSPtr + 4)) 4) in
  ret (BufPtr, BufLen).

(** [read(Fd, MemInst.getPointer(BufPtr), BufLen)]: the system stores through the pointer
    whatever the size of the vector is. *)
Definition readTo (Fd BufPtr BufLen : Z) : ML Z :=
  let* c := get in
  match LMem.getPointer BufPtr (LHost.lcMem c) with
  | None => let* r := sys (sys_read os Fd true BufLen) in ret r.1
  | Some off =>
      let* r := sys (sys_read os Fd false BufLen) in
      let* d := lift (write_range off r.2 (Data (LHost.lcMem c))) in
      modify (fun c => LHost.set_lcMem (set_Data d (LHost.lcMem c)) c) ;;;
      ret r.1
  end.

(** [write(Fd, MemInst.getPointer(BufPtr), BufLen)]. *)
Definition writeFrom (Fd BufPtr BufLen : Z) : ML Z :=
  let* c := get in
  match LMem.getPointer BufPtr (LHost.lcMem c) with
  | None => sys (sys_write os Fd None BufLen)
  | Some off =>
      let* bs := lift (read_range off BufLen (Data (LHost.lcMem c))) in
      sys (sys_write os Fd (Some bs) BufLen)
  end.

(** The loop [for (I = 0; I < IOVSCnt; I++)], for both directions.  [true] when it ends. *)
Fixpoint transfer (op : Z -> Z -> ML Z) (Cnt : nat) (IOVSPtr N : Z) : ML (bool * Z) :=
  match Cnt with
  | O => ret (true, N)
  | S Cnt' =>
      let* v := loadIOVec IOVSPtr in
      let* n := op v.1 v.2 in
      let Size := sgn 32 n in
      if Size =? -1 then ret (false, N)
      else transfer op Cnt' (wrap 32 (IOVSPtr + 8)) (wrap 32 (N + Size))
  end.

Definition transferAll (op : Z -> Z -> ML Z) (IOVSPtr IOVSCnt NPtr : Z) : ML unit :=
  let* r := transfer op (Z.to_nat IOVSCnt) IOVSPtr 0 in
  LHost.onMem (LMem.storeValue U32 r.2 NPtr 4) ;;;
  LHost.setRet (if r.1 : bool then 0 else 1).

Definition WasiFdRead_body (Fd IOVSPtr IOVSCnt NReadPtr : Z) : ML unit :=
  transferAll (readTo Fd) IOVSPtr IOVSCnt NReadPtr.
Definition WasiFdWrite_body (Fd IOVSPtr IOVSCnt NWrittenPtr : Z) : ML unit :=
  transferAll (writeFrom Fd) IOVSPtr IOVSCnt NWrittenPtr.

Definition WasiFdSeek_body (Fd Offset Whence NewOffsetPtr : Z) : ML unit :=
  match whence Whence with
  | None => LHost.setRet WASI_EINVAL
  | Some Wh =>
      let* NewOffset := sys (sys_lseek os Fd Offset Wh) in
      if NewOffset =? -1 then LHost.setRet 1
      else LHost.onMem (LMem.storeValue U64 (wrap 64 NewOffset) NewOffsetPtr 8) ;;; LHost.setRet 0
  end.

(** [DirFd] is not used. *)
Definition WasiPathOpen_body (DirFd DirFlags PathPtr PathLen OFlags FsRightsBase
    FsRightsInheriting FsFlags FdPtr : Z) : ML unit :=
  let* Path := LHost.onMem (LMem.getBytes [] PathPtr PathLen) in
  let Flags := open_flags DirFlags OFlags FsRightsBase FsFlags in
  let* r := sys (sys_open os (c_str Path) Flags 420) in
  let Fd := sgn 32 r in
  if Fd =? -1 then LHost.setRet 1
  else LHost.onMem (LMem.storeValue U32 (wrap 32 Fd) FdPtr 4) ;;; LHost.setRet 0.

Definition WasiProcExit_body (St : Z) : ML unit :=
  modify (fun c => LHost.set_lcEnv
    (with_wasi (mkWasi (setStatus St (wsEnv (wasi_of (LHost.lcEnv c)))) (wsOS (wasi_of (LHost.lcEnv c))))
       (LHost.lcEnv c)) c) ;;;
  throw Terminated.

(** ** The classes of the functions: vm/hostfunc/wasi/*.h *)

(** The constructor of the template [Wasi]; no function has a cost. *)
Definition wasiFunction (FuncName : string) (RetT : option CType) (Ts : list CType)
    (body : fun_of Ts (ML unit)) : LHost.HostFunctionBase H :=
  LHost.hostFunction (chars "wasi_unstable") (chars FuncName) 0 RetT Ts body.

Definition WasiArgsGet :=
  wasiFunction "args_get" (Some U32) [U32; U32] WasiArgsGet_body.
Definition WasiArgsSizesGet :=
  wasiFunction "args_sizes_get" (Some U32) [U32; U32] WasiArgsSizesGet_body.
Definition WasiEnvironGet :=
  wasiFunction "environ_get" (Some U32) [U32; U32] WasiEnvironGet_body.
Definition WasiEnvironSizesGet :=
  wasiFunction "environ_sizes_get" (Some U32) [U32; U32] WasiEnvironSizesGet_body.
Definition WasiFdClose :=
  wasiFunction "fd_close" (Some U32) [S32] WasiFdClose_body.
Definition WasiFdFdstatGet :=
  wasiFunction "fd_fdstat_get" (Some U32) [S32; U32] WasiFdFdstatGet_body.
Definition WasiFdFdstatSetFlags :=
  wasiFunction "fd_fdstat_set_flags" (Some U32) [S32; U32] WasiFdFdstatSetFlags_body.
Definition WasiFdPrestatDirName :=
  wasiFunction "fd_prestat_dir_name" (Some U32) [S32; U32; U32] WasiFdPrestatDirName_body.
Definition WasiFdPrestatGet :=
  wasiFunction "fd_prestat_get" (Some U32) [S32; U32] WasiFdPrestatGet_body.
Definition WasiFdRead :=
  wasiFunction "fd_read" (Some U32) [S32; U32; U32; U32] WasiFdRead_body.
Definition WasiFdSeek :=
  wasiFunction "fd_seek" (Some U32) [S32; S32; U32; U32] WasiFdSeek_body.
Definition WasiFdWrite :=
  wasiFunction "fd_write" (Some U32) [S32; U32; U32; U32] WasiFdWrite_body.
Definition WasiPathOpen :=
  wasiFunction "path_open" (Some U32) [S32; U32; U32; U32; U32; U64; U64; U32; U32] WasiPathOpen_body.
Definition WasiProcExit :=
  wasiFunction "proc_exit" None [S32] WasiProcExit_body.

(** The functions [prepareVMHost] makes, in order. *)
Definition WasiFuncs : list (LHost.HostFunctionBase H) :=
  [ WasiArgsGet; WasiArgsSizesGet; WasiEnvironGet; WasiEnvironSizesGet; WasiFdClose;
    WasiFdFdstatGet; WasiFdFdstatSetFlags; WasiFdPrestatDirName; WasiFdPrestatGet; WasiFdRead;
    WasiFdSeek; WasiFdWrite; WasiPathOpen; WasiProcExit ].

End Wasi.
End LWasi.
