(* ===== verification/LegacyHostFacts.v ===== *)
(** * Host functions of the two generations

    What it means that a host function of the first generation and one of the new VM do the
    same, and the rules by which two bodies are compared step by step. *)
From stdpp Require Import base list numbers option strings.
From Stdlib Require Import ZArith Lia.
From S2P Require Import Prelude Types Memory MemoryFacts StackMgr Runtime EngineFuel HostFunc HostFuncFacts.
From S2P Require Import LegacyRuntime LegacySim.
#[local] Open Scope Z_scope.

(** ** Outcomes

    [covers x y]: where both are defined, they are the same. *)
Definition covers {A S} (x y : res A * S) : Prop :=
  match x.1, y.1 with Undef _, _ | _, Undef _ => True | _, _ => x = y end.

Lemma covers_refl {A S} (x : res A * S) : covers x x.
Proof. unfold covers. by destruct (x.1). Qed.
Lemma covers_eq {A S} (x y : res A * S) : x = y -> covers x y.
Proof. intros ->. apply covers_refl. Qed.

Section Memory.
Implicit Types m : MemoryInstance.

Lemma length_test n : 0 <= n -> (n =? 0) = negb (0 <? n).
Proof. intros. destruct (Z.eqb_spec n 0), (Z.ltb_spec 0 n); try done; lia. Qed.

(** The tail of an operation, once the size is checked. *)
Lemma checked_agree {A} (k k' : M MemoryInstance A) Offset Length m :
  (forall m', covers (k m') (k' m')) ->
  covers ((LMem.checkDataSize Offset Length ;;; k) m) ((requireDataSize Offset Length ;;; k') m).
Proof.
  intros Hk. unfold bind. rewrite checkDataSize_agree.
  destruct (requireDataSize Offset Length m) as [[] m']; [apply Hk|by apply covers_refl..].
Qed.

Lemma getBytes_agree Offset Length m : 0 <= Length ->
  covers (LMem.getBytes [] Offset Length m) (getBytes Offset Length m).
Proof.
  intros HL. apply checked_agree. intros m'. rewrite length_test by done.
  destruct (0 <? Length); cbn [negb]; [|apply covers_refl]. unfold covers. rewrite !bind_get. unfold bind, lift.
  by destruct (read_range _ _ _).
Qed.
Lemma getArray_agree Offset Length rev m : 0 <= Length ->
  covers (LMem.getArray Offset Length rev m) (getArray Offset Length rev m).
Proof.
  intros HL. apply checked_agree. intros m'. rewrite length_test by done.
  destruct (0 <? Length); apply covers_refl.
Qed.
Lemma setArray_agree Arr Offset Length rev m : 0 <= Length ->
  covers (LMem.setArray Arr Offset Length rev m) (setArray Arr Offset Length rev m).
Proof.
  intros HL. apply checked_agree. intros m'. rewrite length_test by done.
  destruct (0 <? Length); apply covers_refl.
Qed.

(** A copy of no bytes from the end of the vector is the one case that differs. *)
Lemma setBytes_agree Slice Offset Start Length m :
  0 < Length ->
  covers (LMem.setBytes Slice Offset Start Length m) (setBytes Slice Offset Start Length m).
Proof.
  intros H0. apply checked_agree. intros m'.
  rewrite (proj2 (Z.ltb_lt 0 Length)), (proj2 (Z.eqb_neq Length 0)) by lia.
  set (n := sizeZ Slice). assert (0 <= n) by (unfold n, sizeZ; lia).
  destruct (Z.lt_ge_cases n (Start + Length)) as [Hn|Hn].
  - assert (read_range Start Length Slice = Undef UB_vector) as Hr.
    { unfold read_range. fold n. by rewrite (proj2 (Z.leb_gt (Start + Length) n)). }
    destruct (_ || _), (_ || _); unfold covers; rewrite ?bind_get; unfold bind, lift; by rewrite ?Hr.
  - rewrite (proj2 (Z.ltb_ge n Start)), (proj2 (Z.leb_gt n Start)), andb_false_r by lia.
    apply covers_refl.
Qed.

(** From the start of the vector, any number of bytes. *)
Lemma setBytes_agree_all Slice Offset Length m : 0 <= Length ->
  covers (LMem.setBytes Slice Offset 0 Length m) (setBytes Slice Offset 0 Length m).
Proof.
  intros HL. destruct (decide (Length = 0)) as [->|]; [|apply setBytes_agree; lia].
  apply checked_agree. intros m'. assert (0 <= sizeZ Slice) by (unfold sizeZ; lia).
  rewrite (proj2 (Z.ltb_ge (sizeZ Slice) 0)) by done.
  replace ((0 <? sizeZ Slice) && (sizeZ Slice <=? 0)) with false; [apply covers_refl|].
  destruct (Z.ltb_spec 0 (sizeZ Slice)), (Z.leb_spec (sizeZ Slice) 0); done || lia.
Qed.
Lemma storeValue_covers T x Offset Length m : 0 < Length ->
  covers (LMem.storeValue T x Offset Length m) (storeValue T x Offset Length m).
Proof.
  intros HL. unfold LMem.storeValue, storeValue. destruct (_ <? _); [apply covers_refl|].
  apply checked_agree. intros m'. rewrite (proj2 (Z.ltb_lt 0 Length)) by done. apply covers_refl.
Qed.
Lemma loadValue_covers Offset m :
  covers (LMem.loadValue U32 Offset 4 m)
    ((let* x := loadValue U32 Offset 4 in ret (default 0 x)) m).
Proof.
  change (LMem.loadValue U32 Offset 4) with (LMem.checkDataSize Offset 4 ;;;
    (let* m := get in let* bs := lift (read_range Offset 4 (Data m)) in ret (of_bits U32 (le_combine bs)))).
  change (loadValue U32 Offset 4) with (requireDataSize Offset 4 ;;;
    (let* m := get in let* bs := lift (read_range Offset 4 (Data m)) in ret (Some (of_bits U32 (le_combine bs))))).
  rewrite bind_assoc. apply checked_agree. intros m'. unfold bind, get, lift.
  destruct (read_range _ _ _); apply covers_refl.
Qed.

End Memory.

(** ** The contexts of a body *)

Section Agree.
(** [part] is the environment of the module in the table of the manager, [inv] what the
    bodies keep. *)
Context {S H : Type} (part : H -> S) (tab : list Z) (cnt : Z) (inv : Env.EnvironmentManager H -> Prop).

#[local] Abbreviation EM := (Env.EnvironmentManager H).
#[local] Abbreviation ML := (M (LHost.HostCtx H)).
#[local] Abbreviation ME := (M (HostCtx S)).

(** The context of the new VM: the measurement counts what the manager counts. *)
Definition meter (m : EM) : Measurement := mkMeasure tab cnt (Env.CostLimit m) (Env.CostSum m).
Definition view (c : LHost.HostCtx H) : HostCtx S :=
  mkCtx (LHost.lcMem c) (Some (meter (LHost.lcEnv c))) (part (Env.EnvTable (LHost.lcEnv c))) (LHost.lcRet c).

(** The same result, and the same state; the value of a result variable counts only
    without an error. *)
Definition meets {A} (x : res A * LHost.HostCtx H) (y : res A * HostCtx S) : Prop :=
  match x, y with
  | (Undef _, _), _ | _, (Undef _, _) => True
  | (Ok a, c), (Ok b, t) => a = b /\ t = view c /\ inv (LHost.lcEnv c)
  | (Err e, c), (Err e', t) => e = e' /\ inv (LHost.lcEnv c) /\
      (t = view c \/ e <> Success /\ exists x y, LHost.lcRet c = Some x /\ t = set_hcRet (Some y) (view c))
  | _, _ => False
  end.

Definition agrees {A} (m : ML A) (n : ME A) : Prop :=
  forall c, inv (LHost.lcEnv c) -> meets (m c) (n (view c)).

Lemma agrees_step {A B} (m : ML A) (n : ME A) (k : A -> ML B) (l : A -> ME B) :
  agrees m n -> (forall a, agrees (k a) (l a)) -> agrees (bind m k) (bind n l).
Proof using Type.
  intros Hm Hk c Hc. specialize (Hm c Hc). unfold bind.
  destruct (m c) as [[a|e|u|] c1], (n (view c)) as [[b|e'|u'|] t]; cbn in Hm; try done.
  - destruct Hm as (-> & -> & Hc1). by apply Hk.
  - by destruct (k a c1) as [[] ?].
Qed.

(** A step that reads the state. *)
Lemma agrees_gets {A B} (f : LHost.HostCtx H -> A) (g : HostCtx S -> A) (k : A -> ML B) l :
  (forall c, g (view c) = f c) -> (forall a, agrees (k a) (l a)) -> agrees (bind (gets f) k) (bind (gets g) l).
Proof using Type.
  intros Hf Hk c Hc. unfold bind, gets. rewrite Hf. by apply Hk.
Qed.

Lemma agrees_assoc {A B C} (m : ML C) (n : ME A) (k : A -> ME B) (l : B -> ME C) :
  agrees m (bind n (fun a => bind (k a) l)) -> agrees m (bind (bind n k) l).
Proof using Type. intros Ha c Hc. rewrite bind_assoc. by apply Ha. Qed.
Lemma agrees_ret_bind {A B} (m : ML B) (a : A) (l : A -> ME B) : agrees m (l a) -> agrees m (bind (ret a) l).
Proof using Type. done. Qed.
Lemma agrees_throw_bind {A B} (m : ML B) e (l : A -> ME B) : agrees m (throw e) -> agrees m (bind (throw e) l).
Proof using Type. done. Qed.

Lemma agrees_ret {A} (a : A) : agrees (ret a) (ret a).
Proof using Type. by intros c Hc. Qed.
Lemma agrees_throw {A} e : agrees (A := A) (throw e) (throw e).
Proof using Type. intros c Hc. cbn. auto. Qed.
Lemma agrees_undef {A} u (n : ME A) : agrees (undef u) n.
Proof using Type. by intros c Hc. Qed.
Lemma agrees_lift {A} (r : res A) : r <> NoFuel -> agrees (lift r) (lift r).
Proof using Type. intros Hr c Hc. destruct r; cbn; auto. Qed.
Lemma agrees_setRet x : agrees (LHost.setRet x) (setRet x).
Proof using Type. by intros c Hc. Qed.
Lemma agrees_onMem {A} (op op' : M MemoryInstance A) : (forall m, (op' m).1 <> NoFuel) ->
  (forall m, covers (op m) (op' m)) -> agrees (LHost.onMem op) (onMem op').
Proof using Type.
  intros Hf Hm c Hc. specialize (Hm (LHost.lcMem c)). specialize (Hf (LHost.lcMem c)).
  unfold LHost.onMem, onMem, zoom, covers in *. cbn.
  destruct (op (LHost.lcMem c)) as [[] ?], (op' (LHost.lcMem c)) as [[] ?]; cbn in *; simplify_eq; auto.
Qed.

Lemma agrees_getBytes o n : 0 <= n ->
  agrees (LHost.onMem (LMem.getBytes [] o n)) (onMem (getBytes o n)).
Proof using Type.
  intros. apply agrees_onMem; [apply free_getBytes|]. intros m. by apply getBytes_agree.
Qed.
Lemma agrees_setBytes d o s n : 0 < n ->
  agrees (LHost.onMem (LMem.setBytes d o s n)) (onMem (setBytes d o s n)).
Proof using Type.
  intros. apply agrees_onMem; [apply free_setBytes|]. intros m. by apply setBytes_agree.
Qed.
Lemma agrees_getArray o n rev : 0 <= n ->
  agrees (LHost.onMem (LMem.getArray o n rev)) (onMem (getArray o n rev)).
Proof using Type.
  intros. apply agrees_onMem; [apply free_getArray|]. intros m. by apply getArray_agree.
Qed.
Lemma agrees_setArray d o n rev : 0 <= n ->
  agrees (LHost.onMem (LMem.setArray d o n rev)) (onMem (setArray d o n rev)).
Proof using Type.
  intros. apply agrees_onMem; [apply free_setArray|]. intros m. by apply setArray_agree.
Qed.

(** A first step whose result is known to satisfy [P]. *)
Lemma agrees_bind_post {A B} (P : A -> Prop) (m : ML A) (n : ME A) (k : A -> ML B) (l : A -> ME B) :
  agrees m n -> (forall c a c', inv (LHost.lcEnv c) -> m c = (Ok a, c') -> P a) ->
  (forall a, P a -> agrees (k a) (l a)) -> agrees (bind m k) (bind n l).
Proof using Type.
  intros Hm HP Hk c Hc. specialize (Hm c Hc). specialize (HP c). unfold bind.
  destruct (m c) as [[a|e|u|] c1], (n (view c)) as [[b|e'|u'|] t]; cbn in Hm; try done.
  - destruct Hm as (-> & -> & Hc1). apply Hk; [by eapply HP|done].
  - by destruct (k a c1) as [[] ?].
Qed.

(** ** Runs *)

(** The same status and the same state; after an error the stack is not looked at. *)
Definition run_meets (x : res ErrCode * (EM * StackManager * MemoryInstance))
    (y : res ErrCode * (StackManager * MemoryInstance * option Measurement * S)) : Prop :=
  match x, y with
  | (Undef _, _), _ | _, (Undef _, _) => True
  | (Ok st, (env, stk, mem)), (Ok st', (stk', mem', mea, e)) =>
      st = st' /\ mem' = mem /\ mea = Some (meter env) /\ e = part (Env.EnvTable env) /\ inv env /\
      (st = Success -> stk' = stk)
  | _, _ => False
  end.

Lemma bottom_agree N stk : 0 <= N < sizeZ (ValueStack stk) -> exists v,
  LStack.getBottomN N stk = (Ok v, stk) /\ Stack.getBottomN N stk = (Ok v, stk) /\
  ValueStack stk !! Z.to_nat (sizeZ (ValueStack stk) - 1 - N) = Some v.
Proof using Type.
  intros HN. destruct (lookup_lt_is_Some_2 (ValueStack stk)
    (Z.to_nat (sizeZ (ValueStack stk) - 1 - N))) as [v Hv]; [unfold sizeZ in *; lia|].
  exists v. unfold LStack.getBottomN, Stack.getBottomN, Stack.bottom_index, atZ.
  rewrite (proj2 (Z.ltb_ge _ N)), (proj2 (Z.leb_le 0 N)), (proj2 (Z.ltb_lt N _)),
    (proj2 (Z.leb_le 0 (_ - _))) by lia. cbn. by rewrite Hv.
Qed.

Lemma readTuple_agree Ts N stk : 0 <= N -> N + sizeZ Ts <= sizeZ (ValueStack stk) ->
  LHost.readTuple Ts N stk = readTuple Ts N stk.
Proof using Type.
  revert N. induction Ts as [|T Ts IH]; intros N HN HT; [done|]. cbn.
  unfold sizeZ in HT at 1. cbn [length] in HT.
  destruct (bottom_agree N stk) as (v & H1 & H2 & _); [lia|]. unfold LHost.getBottomN, try, bind. rewrite H1, H2.
  unfold lift. destruct (retrieveValue T v); [|done..]. rewrite IH; [done|lia|unfold sizeZ in *; lia].
Qed.
Lemma popValues_agree n stk : (n <= length (ValueStack stk))%nat -> LHost.popValues n stk = popValues n stk.
Proof using Type.
  revert stk. induction n as [|n IH]; intros stk Hn; [done|]. cbn. unfold bind, try, LStack.pop, Stack.pop.
  destruct (ValueStack stk) as [|v vs]; cbn in Hn; [lia|]. apply IH. cbn. lia.
Qed.
Lemma popTuple_agree Ts stk : sizeZ Ts <= sizeZ (ValueStack stk) ->
  LHost.popTuple Ts (sizeZ (ValueStack stk) - sizeZ Ts) stk = popTuple Ts (sizeZ (ValueStack stk) - sizeZ Ts) stk.
Proof using Type.
  intros Hl. unfold LHost.popTuple, popTuple, bind. rewrite readTuple_agree by lia.
  destruct (readTuple_outcome Ts (sizeZ (ValueStack stk) - sizeZ Ts) stk) as ([] & -> & _); try done.
  rewrite popValues_agree; [done|]. unfold sizeZ in Hl. lia.
Qed.

(** What is left once the body has returned. *)
Definition finish_old (RetT : option CType) (stk : StackManager) (p : res unit * LHost.HostCtx H)
    : res ErrCode * (EM * StackManager * MemoryInstance) :=
  let '(r, c) := p in
  match status r with
  | Ok Status =>
      let '(q, stk2) := LHost.pushRet RetT (LHost.lcRet c) stk in
      (let? _ := q in Ok Status, (LHost.lcEnv c, stk2, LHost.lcMem c))
  | q => (q, (LHost.lcEnv c, stk, LHost.lcMem c))
  end.
Definition finish_new (RetT : option CType) (stk : StackManager) (p : res unit * HostCtx S)
    : res ErrCode * (StackManager * MemoryInstance * option Measurement * S) :=
  let '(r, c) := p in
  match status r with
  | Ok Status =>
      let '(q, stk2) := pushRet RetT (hcRet c) stk in
      (let? _ := q in Ok Status, (stk2, hcMem c, hcMea c, hcEnv c))
  | q => (q, (stk, hcMem c, hcMea c, hcEnv c))
  end.

Lemma finish_agrees RetT stk x y : meets x y -> run_meets (finish_old RetT stk x) (finish_new RetT stk y).
Proof using Type.
  destruct x as [[[]|e|u|] c], y as [[[]|e'|u'|] t]; cbn; try done.
  - intros (_ & -> & Hc). destruct RetT; cbn; [|done]. by destruct (LHost.lcRet c).
  - by destruct (LHost.pushRet _ _ _) as [[] ?].
  - intros (-> & Hc & [->|(He & x & y & Hx & ->)]); cbn; [|rewrite Hx]; destruct RetT; cbn; try done.
    by destruct (LHost.lcRet c).
  - by destruct (LHost.pushRet _ _ _) as [[] ?].
Qed.

(** A call of a function of each kind: too few arguments, arguments that cannot be read, or
    the bodies with the arguments. *)
Lemma invoke_cases RetT Ts (body : fun_of Ts (ML unit)) (body' : fun_of Ts (ME unit)) env stk mem : inv env ->
  run_meets (LHost.invoke RetT Ts body env stk mem)
    (hostInvoke RetT Ts body' stk mem (Some (meter env)) (part (Env.EnvTable env))) \/
  exists args stk1, tuple_ok Ts args /\ sizeZ Ts <= sizeZ (ValueStack stk) /\
    readTuple Ts (sizeZ (ValueStack stk) - sizeZ Ts) stk = (Ok args, stk) /\
    LHost.invoke RetT Ts body env stk mem =
      finish_old RetT stk1 (apply Ts body args (LHost.mkHostCtx env mem None)) /\
    hostInvoke RetT Ts body' stk mem (Some (meter env)) (part (Env.EnvTable env)) =
      finish_new RetT stk1 (apply Ts body' args (view (LHost.mkHostCtx env mem None))).
Proof using Type.
  intros Henv. unfold LHost.invoke, hostInvoke.
  destruct (Z.ltb_spec (sizeZ (ValueStack stk)) (sizeZ Ts)) as [|Hl]; [by left|].
  rewrite popTuple_agree by done. unfold popTuple, bind.
  destruct (readTuple_outcome Ts (sizeZ (ValueStack stk) - sizeZ Ts) stk) as ([args|e|u|] & Er & Ha); try done;
    rewrite Er; [|by left].
  rewrite (popValues_ok (length Ts) (take (length Ts) (ValueStack stk)) (drop (length Ts) (ValueStack stk)) stk);
    [|by rewrite take_drop|rewrite length_take; unfold sizeZ in Hl; lia].
  right. by eexists args, (set_values _ stk).
Qed.

Lemma run_agrees RetT Ts (body : fun_of Ts (ML unit)) (body' : fun_of Ts (ME unit)) env stk mem : inv env ->
  (forall args stk', tuple_ok Ts args -> sizeZ Ts <= sizeZ (ValueStack stk) ->
     readTuple Ts (sizeZ (ValueStack stk) - sizeZ Ts) stk = (Ok args, stk') ->
     agrees (apply Ts body args) (apply Ts body' args)) ->
  run_meets (LHost.invoke RetT Ts body env stk mem)
    (hostInvoke RetT Ts body' stk mem (Some (meter env)) (part (Env.EnvTable env))).
Proof using Type.
  intros Henv Hb. destruct (invoke_cases RetT Ts body body' env stk mem Henv)
    as [?|(args & stk1 & Ha & Hl & Er & -> & ->)]; [done|]. apply finish_agrees. by apply (Hb args stk).
Qed.

(** The same for a body that agrees only where it reports no error. *)
Lemma run_agrees_success RetT Ts (body : fun_of Ts (ML unit)) (body' : fun_of Ts (ME unit)) env stk mem : inv env ->
  (forall args c c', inv (LHost.lcEnv c) -> apply Ts body args c = (Ok tt, c') ->
     meets (Ok tt, c') (apply Ts body' args (view c))) ->
  (forall args c e c', apply Ts body args c = (Err e, c') -> e <> Success) ->
  (LHost.invoke RetT Ts body env stk mem).1 = Ok Success ->
  run_meets (LHost.invoke RetT Ts body env stk mem)
    (hostInvoke RetT Ts body' stk mem (Some (meter env)) (part (Env.EnvTable env))).
Proof using Type.
  intros Henv Hb He Hs. destruct (invoke_cases RetT Ts body body' env stk mem Henv)
    as [?|(args & stk1 & Ha & Hl & Er & Ei & ->)]; [done|]. rewrite Ei in *.
  set (c0 := LHost.mkHostCtx env mem None) in *. pose proof (Hb args c0) as Hb'. pose proof (He args c0) as He'.
  destruct (apply Ts body args c0) as [[[]|e|u|] c'] eqn:Eb; [|exfalso|done..].
  - apply finish_agrees. by apply Hb'.
  - cbn in Hs. specialize (He' e c' eq_refl). destruct (LHost.pushRet _ _ _) as [[] ?]; by simplify_eq/=.
Qed.

(** A call whose arguments are on the stack. *)
Lemma legacy_invoke_ok RetT Ts (body : fun_of Ts (ML unit)) vs rest args env stk mem :
  args_of Ts vs = Some args -> length vs = length Ts -> ValueStack stk = reverse vs ++ rest ->
  LHost.invoke RetT Ts body env stk mem =
  let '(r, c) := apply Ts body args (LHost.mkHostCtx env mem None) in
  match status r with
  | Ok Status =>
      let '(p, stk2) := LHost.pushRet RetT (LHost.lcRet c) (set_values rest stk) in
      (let? _ := p in Ok Status, (LHost.lcEnv c, stk2, LHost.lcMem c))
  | q => (q, (LHost.lcEnv c, set_values rest stk, LHost.lcMem c))
  end.
Proof using Type.
  intros Ha Hl Hs. assert (sizeZ Ts <= sizeZ (ValueStack stk)) as Hz.
  { unfold sizeZ. rewrite Hs, length_app, length_reverse. lia. }
  unfold LHost.invoke. rewrite (proj2 (Z.ltb_ge _ _)) by done.
  by rewrite popTuple_agree, (popTuple_ok Ts vs args rest) by done.
Qed.


End Agree.
