(* ===== verification/LegacyEEIFacts.v ===== *)
(** * The two Ethereum interfaces agree

    Every function of the first generation does what the function of the same name of the
    EEI module does, as far as both are defined, as long as no sum of costs wraps around.  Where
    one does, [useGas] gives gas back. *)
From stdpp Require Import base list numbers option strings.
From Stdlib Require Import ZArith Lia.
From S2P Require Import Prelude Types Memory MemoryFacts StackMgr Runtime EngineFuel HostFunc HostFuncFacts EEI EEIGas.
From S2P Require Import LegacyRuntime LegacySim LegacyHostFacts LegacyEEI.
#[local] Open Scope Z_scope.

(** The counters stay where a cost below 2^63 does not make their sum wrap around. *)
Definition gas_in_order {H} (m : Env.EnvironmentManager H) : Prop :=
  Env.CostLimit m < 2 ^ 63 /\ 0 <= Env.CostSum m <= Env.CostLimit m.

Section Agree.
Context {E H : Type} (evm : H -> EVMEnvironment E) (set_evm : EVMEnvironment E -> H -> H).
Context (host : evmc_host_interface E) (keccak256 : list Z -> list Z).
Hypothesis evm_set : forall e h, evm (set_evm e h) = e.
Context (tab : list Z) (cnt : Z).

#[local] Abbreviation EM := (Env.EnvironmentManager H).
#[local] Abbreviation ML := (M (LHost.HostCtx H)).
#[local] Abbreviation ME := (M (HostCtx (EVMEnvironment E))).
#[local] Abbreviation agrees := (agrees evm tab cnt gas_in_order).
#[local] Abbreviation view := (view evm tab cnt).
#[local] Abbreviation meter := (meter tab cnt).
#[local] Abbreviation run_meets := (run_meets evm tab cnt gas_in_order).

(** ** Access to the state *)

Lemma agrees_getEnv : agrees (LEEI.getEnv evm) getEnv.
Proof using Type. by intros c Hc. Qed.
Lemma agrees_setReturnData d : agrees (LEEI.setReturnData evm set_evm d) (setReturnData d).
Proof using evm_set.
  intros c Hc. split_and!; [done| |done]. unfold LegacyHostFacts.view, LegacyHostFacts.meter, LEEI.env_of. cbn. by rewrite evm_set.
Qed.
Lemma agrees_getEVMCContext : agrees (LEEI.getEVMCContext evm) getEVMCContext.
Proof using Type. intros c Hc. unfold LEEI.getEVMCContext, getEVMCContext, bind. cbn. unfold LEEI.env_of. by case_match. Qed.
Lemma agrees_onCxt {A} (f : E -> A * E) : agrees (LEEI.onCxt evm set_evm f) (onCxt f).
Proof using evm_set.
  intros c Hc. unfold LEEI.onCxt, onCxt, LEEI.env_of. cbn. case_match; [|done]. destruct (f _) as [a w].
  split_and!; [done| |done]. unfold LegacyHostFacts.view, LegacyHostFacts.meter, LEEI.env_of. cbn. by rewrite evm_set.
Qed.

(** ** Gas *)

Lemma agrees_cost {A} (f : EM -> A * EM) (g : Measurement -> A * Measurement) :
  (forall m, gas_in_order m -> Env.EnvTable (f m).2 = Env.EnvTable m /\ gas_in_order (f m).2 /\
     g (meter m) = ((f m).1, meter (f m).2)) ->
  agrees (LEEI.onEnvMgr f) (onGas g).
Proof using Type.
  intros Hf c Hc. destruct (Hf _ Hc) as (Ht & Hg & He). unfold LEEI.onEnvMgr, onGas. cbn. rewrite He.
  destruct (f (LHost.lcEnv c)) as [a m]. cbn in *. split_and!; [done| |done].
  unfold LegacyHostFacts.view, LEEI.env_of. cbn. by rewrite Ht.
Qed.

Lemma agrees_addCost g : 0 <= g < 2 ^ 63 -> agrees (LEEI.onEnvMgr (Env.addCost g)) (onGas (consumeGas g)).
Proof using Type.
  intros Hg. apply agrees_cost. intros m (HL & Hs). unfold Env.addCost, consumeGas. cbn [Env.CostSum Env.set_CostSum].
  rewrite !wrap_small by (unfold in_u; cbn; lia). cbn. rewrite Z.gtb_ltb.
  destruct (Z.ltb_spec (Env.CostLimit m) (Env.CostSum m + g)),
    (Z.ltb_spec (Env.CostLimit m - Env.CostSum m) g); try lia; cbn; unfold gas_in_order; cbn;
    split_and!; done || lia.
Qed.
Lemma agrees_takeCost g : 0 <= g < 2 ^ 63 -> agrees (LEEI.takeCost g) (takeGas g).
Proof using Type.
  intros Hg. apply agrees_step; [by apply agrees_addCost|]. intros []; [apply agrees_ret|apply agrees_throw].
Qed.
Lemma copy_cost_range n : in_u 32 n -> 0 <= 3 * ((n + 31) / 32) < 2 ^ 63.
Proof using Type.
  intros [? ?]. assert (0 <= (n + 31) / 32) by (apply Z.div_pos; lia).
  pose proof (Z.div_le_upper_bound (n + 31) 32 (2 ^ 32) ltac:(lia) ltac:(lia)). lia.
Qed.
Lemma agrees_takeCopyCost n : in_u 32 n -> agrees (LEEI.takeCopyCost n) (addCopyCost n).
Proof using Type.
  intros Hn c Hc. pose proof (agrees_takeCost _ (copy_cost_range n Hn) c Hc) as Ha. revert Ha.
  unfold LEEI.takeCopyCost, LEEI.addCopyCost, LEEI.takeCost, addCopyCost, try, bind, LEEI.onEnvMgr. cbv zeta.
  by destruct (Env.addCost _ _) as [[] ?].
Qed.
(** [subCost] and [returnGas] report differently, which no caller looks at. *)
Lemma subCost_returns g (m : EM) : gas_in_order m -> 0 <= g -> exists b b' m',
  Env.subCost g m = (b, m') /\ returnGas g (meter m) = (b', meter m') /\ gas_in_order m' /\
  Env.EnvTable m' = Env.EnvTable m.
Proof using Type.
  intros [HL Hs] Hg. unfold Env.subCost, returnGas. cbn. rewrite Z.gtb_ltb.
  destruct (Z.ltb_spec g (Env.CostSum m)), (Z.ltb_spec (Env.CostSum m) g); try lia;
    eexists _, _, _; (split; [done|]); (split; [try done|split; [unfold gas_in_order; cbn; lia|done]]).
  unfold LegacyHostFacts.meter, set_CostSum. cbn. repeat f_equal. lia.
Qed.
Lemma agrees_subCost {B} g (k : ML B) (l : ME B) : 0 <= g -> agrees k l ->
  agrees (LEEI.onEnvMgr (Env.subCost g) ;;; k) (onGas (returnGas g) ;;; l).
Proof using Type.
  intros Hg Hk c [HL Hs]. unfold bind, LEEI.onEnvMgr, onGas. cbn [hcMea LegacyHostFacts.view].
  destruct (subCost_returns g (LHost.lcEnv c) (conj HL Hs) Hg) as (b & b' & m & -> & -> & Hm & Ht).
  replace (set_hcMea _ (view c)) with (view (LHost.set_lcEnv m c)); [by apply Hk|].
  unfold LegacyHostFacts.view, LEEI.env_of. cbn. by rewrite Ht.
Qed.

(** ** Steps of the bodies *)

Lemma agrees_front d : agrees (LEEI.front_of d) (front_of d).
Proof using Type. unfold LEEI.front_of, front_of. case_match; [apply agrees_undef|apply agrees_ret]. Qed.

Create HintDb eei.
#[local] Hint Resolve agrees_ret agrees_throw agrees_setRet agrees_getEnv agrees_setReturnData
  agrees_getEVMCContext agrees_onCxt agrees_front : eei.
#[local] Hint Resolve convToUInt128_fuel from_pointer_fuel : free.

Lemma getAddressEVMC_fuel (e : EVMEnvironment E) : getAddressEVMC e <> NoFuel.
Proof using Type. apply read_range_fuel. Qed.
#[local] Hint Resolve getAddressEVMC_fuel getCallValueEVMC_fuel : free.

(** Follows two bodies down to their steps. *)
Ltac agree_auto := repeat lazymatch goal with
  | |- agrees _ (bind (bind _ _) _) => apply agrees_assoc
  | |- agrees (bind (gets _) _) (bind (gets _) _) => apply agrees_gets; [done|intros ?]
  | |- agrees (bind _ _) (bind _ _) => apply agrees_step; [|intros ?]
  | |- agrees (LHost.onMem _) _ =>
      first [apply agrees_getBytes|apply agrees_setBytes|apply agrees_getArray|apply agrees_setArray]; try lia
  | |- agrees (LEEI.takeCost _) _ => apply agrees_takeCost; try lia
  | |- agrees (LEEI.takeCopyCost _) _ => apply agrees_takeCopyCost; try done
  | |- agrees (lift _) _ => apply agrees_lift; by eauto with free
  | |- agrees (match ?x with _ => _ end) (match ?x with _ => _ end) => destruct x eqn:?
  | |- agrees _ _ => by eauto with eei
  end.

Lemma clamp_nonneg n : 0 <= n -> 0 <= (if n >? 32 then 32 else n).
Proof using Type. destruct (n >? 32); lia. Qed.

Lemma agrees_load :
  (forall o n, 0 <= n -> agrees (LEEI.loadUInt o n) (loadUInt o n)) /\
  (forall o, agrees (LEEI.loadAddress o) (loadAddress o)) /\
  (forall o, agrees (LEEI.loadBytes32 o) (loadBytes32 o)) /\
  (forall b o, agrees (LEEI.loadTopic b o) (loadTopic b o)).
Proof using Type.
  unfold LEEI.loadTopic, loadTopic, LEEI.loadUInt, LEEI.loadAddress, LEEI.loadBytes32, loadUInt,
    loadAddress, loadBytes32. cbv zeta.
  split_and!; intros; agree_auto; by apply clamp_nonneg.
Qed.
Lemma agrees_store :
  (forall d o n, 0 <= n -> agrees (LEEI.storeUInt d o n) (storeUInt d o n)) /\
  (forall d o, agrees (LEEI.storeAddress d o) (storeAddress d o)) /\
  (forall d o, agrees (LEEI.storeBytes32 d o) (storeBytes32 d o)).
Proof using Type.
  unfold LEEI.storeUInt, LEEI.storeAddress, LEEI.storeBytes32, storeUInt, storeAddress, storeBytes32. cbv zeta.
  split_and!; intros; agree_auto; by apply clamp_nonneg.
Qed.

#[local] Hint Extern 1 (agrees (LEEI.loadUInt _ _) _) => apply agrees_load; lia : eei.
#[local] Hint Extern 1 (agrees (LEEI.loadAddress _) _) => apply agrees_load : eei.
#[local] Hint Extern 1 (agrees (LEEI.loadBytes32 _) _) => apply agrees_load : eei.
#[local] Hint Extern 1 (agrees (LEEI.loadTopic _ _) _) => apply agrees_load : eei.
#[local] Hint Extern 1 (agrees (LEEI.storeUInt _ _ _) _) => apply agrees_store; lia : eei.
#[local] Hint Extern 1 (agrees (LEEI.storeAddress _ _) _) => apply agrees_store : eei.
#[local] Hint Extern 1 (agrees (LEEI.storeBytes32 _ _) _) => apply agrees_store : eei.

(** ** Calls *)

Lemma agrees_takeTransferGas Msg :
  agrees (LEEI.takeTransferGas evm set_evm host Msg) (takeTransferGas host Msg).
Proof using evm_set. unfold LEEI.takeTransferGas, takeTransferGas. agree_auto. Qed.
Lemma agrees_enoughBalance Msg :
  agrees (LEEI.enoughBalance evm set_evm host Msg) (enoughBalance host Msg).
Proof using evm_set.
  unfold LEEI.enoughBalance, enoughBalance, LEEI.convToUInt128. fold convToUInt128. agree_auto.
Qed.
Lemma agrees_takeReturnData k r o :
  agrees (LEEI.takeReturnData evm set_evm k r o) (takeReturnData k r o).
Proof using evm_set. unfold LEEI.takeReturnData, takeReturnData. agree_auto. Qed.
#[local] Hint Resolve agrees_takeTransferGas agrees_enoughBalance agrees_takeReturnData : eei.

Lemma agrees_performCall Msg o : in_u 63 (msg_gas Msg) ->
  agrees (LEEI.performCall evm set_evm host Msg o) (let* Res := performCall host Msg o in setRet Res).
Proof using evm_set.
  intros [Hg Hg']. unfold LEEI.performCall, performCall. cbv zeta. apply agrees_assoc.
  apply agrees_step.
  { apply agrees_addCost. rewrite wrap_small; [lia|]. unfold in_u. lia. }
  intros _. apply agrees_assoc. apply agrees_step; [auto with eei|]. intros CallRes.
  destruct (Z.ltb_spec (gas_left CallRes) 0); [apply agrees_throw_bind, agrees_throw|].
  apply agrees_assoc, agrees_subCost; [done|]. apply agrees_assoc, agrees_step; [auto with eei|].
  intros _. apply agrees_ret_bind, agrees_setRet.
Qed.

Lemma agrees_setInput Msg o n : 0 <= n -> agrees (LEEI.setInput Msg o n) (setInput Msg o n).
Proof using Type. intros. unfold LEEI.setInput, setInput. agree_auto. Qed.

Lemma agrees_callContract Msg o n r : in_u 63 (msg_gas Msg) -> 0 <= n ->
  agrees (LEEI.callContract evm set_evm host Msg o n r) (let* Res := callContract host Msg o n r in setRet Res).
Proof using evm_set.
  intros Hg Hn. unfold LEEI.callContract, callContract. apply agrees_assoc, agrees_step; [auto with eei|].
  intros _. apply agrees_assoc, agrees_step; [auto with eei|]. intros Env.
  destruct (1024 <=? Depth Env); [apply agrees_ret_bind, agrees_setRet|].
  apply agrees_assoc, (agrees_bind_post _ _ _ _ (fun Msg1 => msg_gas Msg1 = msg_gas Msg)); [by apply agrees_setInput| |].
  { intros c a c' _. unfold LEEI.setInput. case_match; [|by intros [= <- _]]. intros Hr. by inv_binds. }
  intros Msg1 Hm1. destruct (_ && _); [apply agrees_throw_bind, agrees_throw|].
  apply agrees_assoc, agrees_step; [auto with eei|]. intros _.
  apply agrees_assoc, agrees_step; [auto with eei|]. intros [].
  - apply agrees_performCall. by rewrite Hm1.
  - apply agrees_ret_bind, agrees_setRet.
Qed.

Lemma gas_left_range (m : EM) : gas_in_order m -> in_u 63 (LEnv.getGasLeft m).
Proof using Type.
  intros [HL Hs]. unfold LEnv.getGasLeft, in_u in *. rewrite wrap_small by (unfold in_u; lia). lia.
Qed.
Lemma max_gas_range (m : EM) : gas_in_order m ->
  in_u 63 (LEnv.getGasLeft m - LEnv.getGasLeft m / 64).
Proof using Type.
  intros Hm. destruct (gas_left_range m Hm). set (g := LEnv.getGasLeft m) in *. unfold in_u.
  pose proof (Z.div_pos g 64 ltac:(lia) ltac:(lia)).
  pose proof (Z.div_le_upper_bound g 64 g ltac:(lia) ltac:(lia)). lia.
Qed.
Lemma sgn_call_gas (m : EM) g : gas_in_order m -> 0 <= g ->
  in_u 63 (sgn 64 (Z.min g (LEnv.getGasLeft m - LEnv.getGasLeft m / 64))).
Proof using Type.
  intros Hm Hg. destruct (max_gas_range m Hm) as [? ?].
  rewrite sgn_small by (unfold in_s; cbn in *; lia). unfold in_u. lia.
Qed.

Lemma agrees_getMaxCallGas : agrees LEEI.getMaxCallGas maxCallGas.
Proof using Type. by intros c Hc. Qed.
#[local] Hint Resolve agrees_getMaxCallGas : eei.

Lemma agrees_callMessage k f g a v : (forall e, v e <> NoFuel) ->
  agrees (LEEI.callMessage evm k f g a v) (callMessage k f g a v).
Proof using Type. intros Hv. unfold LEEI.callMessage, callMessage, LEnv.getAddressEVMC. agree_auto. Qed.

(** A message made, and the call with it. *)
Lemma agrees_makeCall k f g a v o n : (forall e, v e <> NoFuel) -> 0 <= g -> 0 <= n ->
  agrees (let* Msg := LEEI.callMessage evm k f g a v in LEEI.callContract evm set_evm host Msg o n 0)
    (let* Msg := callMessage k f g a v in let* Res := callContract host Msg o n 0 in setRet Res).
Proof using evm_set.
  intros Hv Hg Hn. apply (agrees_bind_post _ _ _ _ (fun Msg => in_u 63 (msg_gas Msg))).
  - by apply agrees_callMessage.
  - intros c Msg c' Hc Hr. unfold LEEI.callMessage, LEEI.getEnv, LEEI.getMaxCallGas, gets, lift in Hr.
    inv_binds. simplify_eq/=. by apply sgn_call_gas.
  - intros Msg Hm. by apply agrees_callContract.
Qed.

Lemma agrees_call k g a v o n : 0 <= g -> 0 <= n ->
  agrees (let* Addr := LEEI.loadAddress a in
          let* Val := LEEI.loadUInt v 16 in
          let* Flags := LEEI.staticFlag evm in
          let* Msg := LEEI.callMessage evm k Flags g Addr (fun _ => Ok Val) in
          LEEI.callContract evm set_evm host Msg o n 0)
    (let* Addr := loadAddress a in
     let* Val := loadUInt v 16 in
     let* Flags := staticFlag in
     let* Msg := callMessage k Flags g Addr (fun _ => Ok Val) in
     let* Res := callContract host Msg o n 0 in setRet Res).
Proof using evm_set.
  intros Hg Hn. unfold LEEI.staticFlag, staticFlag.
  apply agrees_step; [auto with eei|]. intros Addr. apply agrees_step; [auto with eei|]. intros Val.
  apply agrees_gets; [done|]. intros Flags. by apply agrees_makeCall.
Qed.

Lemma agrees_callDelegate g a o n : 0 <= g -> 0 <= n ->
  agrees (LEEI.EEICallDelegate_body evm set_evm host g a o n) (EEICallDelegate_body host g a o n).
Proof using evm_set.
  intros Hg Hn. unfold LEEI.EEICallDelegate_body, EEICallDelegate_body, LEEI.staticFlag, staticFlag.
  apply agrees_step; [auto with eei|]. intros Addr. apply agrees_gets; [done|]. intros Flags.
  apply agrees_makeCall; [apply getCallValueEVMC_fuel|done..].
Qed.

Lemma agrees_callStatic g a o n : 0 <= g -> in_u 32 n ->
  agrees (LEEI.EEICallStatic_body evm set_evm host keccak256 g a o n)
    (EEICallStatic_body host keccak256 g a o n).
Proof using evm_set.
  intros Hg [Hn Hn']. unfold LEEI.EEICallStatic_body, EEICallStatic_body.
  apply agrees_step; [auto with eei|]. intros Addr. case_match.
  - agree_auto.
  - by apply agrees_makeCall.
Qed.

Lemma agrees_create v o n r : 0 <= n ->
  agrees (LEEI.EEICreate_body evm set_evm host v o n r) (EEICreate_body host v o n r).
Proof using evm_set.
  intros Hn. unfold LEEI.EEICreate_body, EEICreate_body. cbv zeta.
  apply agrees_step; [auto with eei|]. intros Val. apply agrees_step; [auto with eei|]. intros Env.
  apply (agrees_bind_post _ _ _ _ (in_u 63)); [auto with eei| |].
  { intros c g c' Hc [= <- _]. by apply max_gas_range. }
  intros g [Hg Hg']. apply agrees_step; [apply agrees_lift, getAddressEVMC_fuel|]. intros Sender.
  apply agrees_callContract; [|done]. cbn [msg_gas]. rewrite sgn_small; [done|lia|unfold in_s; cbn in *; lia].
Qed.

Lemma setArray_err d o n rev m e m' : LMem.setArray d o n rev m = (Err e, m') -> e <> Success.
Proof using Type.
  unfold LMem.setArray, bind. rewrite checkDataSize_agree. unfold requireDataSize, checkDataSize, bind, throw.
  unfold read_range, write_range, lift, get, put. repeat case_match; intros; by simplify_eq.
Qed.

(** The hash that cannot be stored: the result variable differs. *)
Lemma agrees_getBlockHash n r :
  agrees (LEEI.EEIGetBlockHash_body evm set_evm host n r) (EEIGetBlockHash_body host n r).
Proof using evm_set.
  unfold LEEI.EEIGetBlockHash_body, EEIGetBlockHash_body.
  apply agrees_step; [auto with eei|]. intros _. intros c Hc.
  rewrite (bind_Ok (LHost.setRet 0) _ c _ _ eq_refl), (bind_Ok (setRet 0) _ (view c) _ _ eq_refl).
  set (c0 := LHost.set_lcRet (Some 0) c). change (set_hcRet (Some 0) (view c)) with (view c0).
  assert (LHost.lcRet c0 = Some 0) as Hr0 by done. assert (gas_in_order (LHost.lcEnv c0)) as Hc0 by done.
  clearbody c0. clear c Hc. unfold bind.
  pose proof (agrees_onCxt (get_block_hash host (sgn 64 n)) c0 Hc0) as Ha.
  destruct (LEEI.onCxt _ _ _ c0) as [[h|e|u|] c1] eqn:E1, (onCxt _ (view c0)) as [[h'|e'|u'|] t];
    cbn in Ha; try done.
  2: { destruct (is_zero h); [done|]. unfold try. by destruct (LEEI.storeBytes32 h r c1) as [[] ?]. }
  destruct Ha as (-> & -> & Hc1). assert (LHost.lcRet c1 = Some 0) as Hr1.
  { unfold LEEI.onCxt in E1. case_match; [|done]. destruct (get_block_hash _ _ _). by simplify_eq/=. }
  destruct (is_zero h'); [by apply agrees_setRet|].
  pose proof (proj2 (proj2 agrees_store) h' r c1 Hc1) as Hs. unfold try.
  destruct (LEEI.storeBytes32 h' r c1) as [[[]|e|u|] c2] eqn:E2, (storeBytes32 h' r (view c1)) as [[[]|e'|u'|] t];
    cbn in Hs |- *; try done.
  destruct Hs as (-> & Hc2 & Hs). split_and!; [done|done|]. right.
  unfold LEEI.storeBytes32, LHost.onMem, zoom in E2. cbn in E2.
  destruct (LMem.setArray h' r 32 false (LHost.lcMem c1)) as [q m2] eqn:E3. simplify_eq/=.
  split; [by eapply setArray_err|]. rewrite Hr1 in Hs. exists 1.
  destruct Hs as [-> |(_ & x & y & _ & ->)]; [exists 0|exists y]; unfold LegacyHostFacts.view; cbn; by rewrite ?Hr1.
Qed.

(** The bytes are appended to the return data, which was cleared. *)
Lemma agrees_returns e o n : 0 <= n ->
  agrees (LEEI.setReturnData evm set_evm [] ;;;
          let* Env := LEEI.getEnv evm in
          let* d := LHost.onMem (LMem.getBytes (ReturnData Env) o n) in
          LEEI.setReturnData evm set_evm d ;;; throw (A := unit) e)
    (setReturnData [] ;;; let* d := onMem (getBytes o n) in setReturnData d ;;; throw e).
Proof using evm_set.
  intros Hn c Hc. pose proof (agrees_setReturnData [] c Hc) as Ha. unfold bind at 1 5.
  destruct (setReturnData [] (view c)) as [[[]|?|?|] t] eqn:Et; cbn in Ha; try done.
  destruct Ha as (_ & -> & Hc1). cbn [LEEI.setReturnData modify].
  set (c1 := LHost.set_lcEnv _ c) in *.
  assert (ReturnData (LEEI.env_of evm (LHost.lcEnv c1)) = []) as Hd.
  { subst c1. unfold LEEI.env_of. cbn. by rewrite evm_set. }
  unfold bind at 1, LEEI.getEnv, gets. rewrite Hd.
  assert (agrees (let* d := LHost.onMem (LMem.getBytes [] o n) in
      LEEI.setReturnData evm set_evm d ;;; throw (A := unit) e)
    (let* d := onMem (getBytes o n) in setReturnData d ;;; throw e)) as Hk by agree_auto.
  by apply Hk.
Qed.

(** ** The functions *)

(** The arguments as a list. *)
Fixpoint values (Ts : list CType) : tuple Ts -> list Z :=
  match Ts with [] => fun _ => [] | _ :: Ts' => fun a => a.1 :: values Ts' a.2 end.

(** The last argument of a call. *)
Definition last_value (stk : StackManager) : Z :=
  match ValueStack stk with v :: _ => storage v | [] => 0 end.

(** What the agreement leaves out: [useGas] with an amount of 2^63 or more, and the copy of
    no bytes. *)
Definition ordinary (n : string) (stk : StackManager) : Prop :=
  (n = "useGas"%string -> wrap 64 (last_value stk) < 2 ^ 63) /\
  (n ∈ ["callDataCopy"; "codeCopy"; "returnDataCopy"]%string -> 0 < wrap 32 (last_value stk)).

Lemma read_last Ts T N stk args stk' : 0 <= N -> N + sizeZ Ts = sizeZ (ValueStack stk) -> last Ts = Some T ->
  readTuple Ts N stk = (Ok args, stk') -> last (values Ts args) = Some (of_bits T (last_value stk)).
Proof using Type.
  revert N args stk'. induction Ts as [|T' Ts IH]; intros N args stk' HN Hl HT Hr; [done|].
  replace (sizeZ (T' :: Ts)) with (1 + sizeZ Ts) in Hl by (unfold sizeZ; cbn [length]; lia).
  assert (0 <= sizeZ Ts) by (unfold sizeZ; lia). cbn [readTuple] in Hr.
  destruct (bottom_agree N stk) as (v & _ & Hv & Hlk); [lia|]. unfold bind, lift in Hr. rewrite Hv in Hr.
  destruct (retrieveValue T' v) as [x|?|?|] eqn:Hx; try done.
  destruct (readTuple Ts (N + 1) stk) as [[xs|?|?|] s1] eqn:Hxs; try done. injection Hr as <- <-.
  destruct Ts as [|T2 Ts].
  - cbn in HT |- *. simplify_eq. f_equal. unfold last_value. cbn in Hl.
    replace (Z.to_nat _) with 0%nat in Hlk by (unfold sizeZ in *; cbn in *; lia). destruct (ValueStack stk); simplify_eq/=.
    unfold retrieveValue in Hx. case_match; by simplify_eq.
  - change (last (x :: values (T2 :: Ts) xs) = Some (of_bits T (last_value stk))).
    pose proof (IH (N + 1) xs s1 ltac:(lia) ltac:(lia) HT Hxs) as Hi.
    by rewrite last_cons, Hi.
Qed.

(** The three copies into the memory. *)
Lemma agrees_copy (source : EVMEnvironment E -> list Z) ro d n : in_u 32 n -> 0 < n ->
  agrees (LEEI.takeCopyCost n ;;; let* Env := LEEI.getEnv evm in LHost.onMem (LMem.setBytes (source Env) ro d n))
    (addCopyCost n ;;; let* Env := getEnv in onMem (setBytes (source Env) ro d n)).
Proof using Type. intros Hu Hn. agree_auto. Qed.

(** Without a byte to copy, the pointer to the buffer is undefined. *)
Lemma agrees_externalCodeCopy a ro o n : in_u 32 n ->
  agrees (LEEI.EEIExternalCodeCopy_body evm set_evm host a ro o n) (EEIExternalCodeCopy_body host a ro o n).
Proof using evm_set.
  intros Hu. unfold LEEI.EEIExternalCodeCopy_body, EEIExternalCodeCopy_body. cbv zeta.
  apply agrees_step; [by apply agrees_takeCopyCost|]. intros _. apply agrees_step; [auto with eei|]. intros _.
  apply agrees_step; [auto with eei|]. intros Addr.
  destruct (decide (n = 0)) as [->|Hn]; [by intros c Hc|]. destruct Hu.
  agree_auto.
Qed.

Lemma agrees_log o n k t1 t2 t3 t4 : in_u 32 n -> in_u 32 k ->
  agrees (LEEI.EEILog_body evm set_evm host o n k t1 t2 t3 t4) (EEILog_body host o n k t1 t2 t3 t4).
Proof using evm_set.
  intros [? ?] [? ?]. unfold LEEI.EEILog_body, EEILog_body, LEnv.getAddressEVMC. case_match; [apply agrees_throw|].
  bool_to_prop. agree_auto.
Qed.

#[local] Ltac by_last T :=
  match goal with Hr : readTuple _ _ ?stk = (Ok ?args, _) |- _ =>
    eapply (read_last _ T) in Hr; [injection Hr as Hr; exact Hr|lia|lia|reflexivity] end.

(** [C37] The two Ethereum interfaces agree.  Function by function, in the order they are
    registered, the interface of the first generation has the module, the name, the type and
    the cost of the EEI module of the new VM; and from counters in order with a limit below
    2^63, on any stack and memory and against any EVMC host, its function reports the same
    status and leaves the same memory, environment and gas counters, the latter in order, and
    after success the same stack, as far as both are defined.  Left out are [useGas] with an
    amount of 2^63 or more and a copy of no bytes. *)
Theorem legacy_eei_agrees env stk mem : gas_in_order env ->
  Forall2 (fun f g => LHost.lhModName f = chars "ethereum" /\ LHost.lhFuncName f = chars g.1 /\
     LHost.lhType f = hfType g.2 /\ LHost.lhCost f = hfCost g.2 /\
     (ordinary g.1 stk -> run_meets (LHost.lhRun f env stk mem)
        (hfRun g.2 stk mem (Some (meter env)) (LEEI.env_of evm env))))
    (LEEI.EEIFuncs evm set_evm host keccak256) (EEIFuncs host keccak256).
Proof using evm_set.
  intros Henv. unfold LEEI.EEIFuncs, EEIFuncs.
  repeat (apply Forall2_cons; split); [..|constructor].
  all: split_and!; [reflexivity..|]; intros [Hg Hc]; apply run_agrees; [done|].
  all: intros args stk' Ha Hl Hr; cbn [tuple_ok apply] in Ha |- *; destruct_and? Ha.
  all: repeat match goal with H : in_type _ _ |- _ => cbn -[Z.pow] in H; unfold in_u in H end.
  all: change (bits U32) with 32 in *; change (bits U64) with 64 in *.
  all: try (apply agrees_call; lia).
  all: try (apply agrees_callDelegate; lia).
  all: try (apply agrees_callStatic; unfold in_u; lia).
  all: try (apply agrees_create; lia).
  all: try apply agrees_getBlockHash.
  all: try (apply agrees_externalCodeCopy; unfold in_u; lia).
  all: try (apply agrees_log; unfold in_u; lia).
  all: try (apply agrees_returns; lia).
  all: try (assert (args.2.2.1 = wrap 32 (last_value stk)) as El by by_last U32;
    (apply (agrees_copy CallData) || apply (agrees_copy Code) || apply (agrees_copy ReturnData));
    [unfold in_u; lia|]; rewrite El; apply Hc; by apply (bool_decide_unpack _)).
  all: try (assert (args.1 = wrap 64 (last_value stk)) as El by by_last U64;
    apply agrees_takeCost; rewrite El in *; split; [lia|by apply Hg]).
  all: unfold LEEI.EEIGetAddress_body, LEEI.EEIGetBlockCoinbase_body,
    LEEI.EEIGetBlockDifficulty_body, LEEI.EEIGetBlockGasLimit_body, LEEI.EEIGetBlockNumber_body,
    LEEI.EEIGetBlockTimestamp_body, LEEI.EEIGetCallDataSize_body, LEEI.EEIGetCallValue_body,
    LEEI.EEIGetCaller_body, LEEI.EEIGetCodeSize_body, LEEI.EEIGetExternalBalance_body,
    LEEI.EEIGetExternalCodeSize_body, LEEI.EEIGetGasLeft_body, LEEI.EEIGetReturnDataSize_body,
    LEEI.EEIGetTxGasPrice_body, LEEI.EEIGetTxOrigin_body, LEEI.EEISelfDestruct_body,
    LEEI.EEIStorageLoad_body, LEEI.EEIStorageStore_body.
  all: unfold LEnv.getAddressEVMC, EEIGetAddress_body, EEIGetBlockCoinbase_body,
    EEIGetBlockDifficulty_body, EEIGetBlockGasLimit_body, EEIGetBlockNumber_body,
    EEIGetBlockTimestamp_body, EEIGetCallDataSize_body, EEIGetCallValue_body,
    EEIGetCaller_body, EEIGetCodeSize_body, EEIGetExternalBalance_body,
    EEIGetExternalCodeSize_body, EEIGetGasLeft_body, EEIGetReturnDataSize_body,
    EEIGetTxGasPrice_body, EEIGetTxOrigin_body, EEISelfDestruct_body,
    EEIStorageLoad_body, EEIStorageStore_body.
  all: cbv zeta.
  all: agree_auto.
Qed.

(** ** A cost that wraps around *)

(** An amount of gas that wraps around is given back.  [useGas] of the first generation
    adds the amount to the gas used as a 64-bit number before it compares it with the limit,
    so that the amount 2^64 - k reports success and leaves k less gas used; the function of
    the new VM refuses the same call and takes all that is left. *)
Theorem legacy_use_gas_mints (env : EM) (stk : StackManager) (rest : list ValVariant) (mem : MemoryInstance) (k : Z) :
  0 <= Env.CostSum env <= Env.CostLimit env -> Env.CostLimit env < 2 ^ 64 -> 0 < k <= Env.CostSum env ->
  ValueStack stk = mkVariant U64 (2 ^ 64 - k) :: rest ->
  LHost.lhRun LEEI.EEIUseGas env stk mem =
    (Ok Success, (Env.set_CostSum (Env.CostSum env - k) env, set_values rest stk, mem)) /\
  hfRun EEIUseGas stk mem (Some (meter env)) (LEEI.env_of evm env) =
    (Ok CostLimitExceeded, (set_values rest stk, mem, Some (set_CostSum (Env.CostLimit env) (meter env)),
       LEEI.env_of evm env)).
Proof using Type.
  intros Hs HL Hk Hv.
  assert (retrieveValue U64 (mkVariant U64 (2 ^ 64 - k)) = Ok (2 ^ 64 - k)) as Hx.
  { rewrite retrieve_mkVariant. unfold of_bits, to_bits. change (bits U64) with 64.
    by rewrite !(wrap_small 64 (2 ^ 64 - k)) by (unfold in_u; lia). }
  assert (args_of [U64] [mkVariant U64 (2 ^ 64 - k)] = Some (2 ^ 64 - k, tt)) as Ha
    by (unfold args_of; by rewrite Hx).
  split.
  - cbn [LEEI.EEIUseGas LEEI.eei LHost.hostFunction LHost.lhRun].
    rewrite (legacy_invoke_ok None [U64] LEEI.EEIUseGas_body [mkVariant U64 (2 ^ 64 - k)] rest (2 ^ 64 - k, tt))
      by done.
    cbn [apply fst]. unfold LEEI.EEIUseGas_body, LEEI.takeCost, bind, LEEI.onEnvMgr, Env.addCost.
    cbn [LHost.lcEnv Env.CostSum Env.CostLimit Env.set_CostSum].
    replace (Env.CostSum env + (2 ^ 64 - k)) with (Env.CostSum env - k + 1 * 2 ^ 64) by lia.
    unfold wrap. rewrite Z_mod_plus_full, Z.mod_small by lia. rewrite Z.gtb_ltb, (proj2 (Z.ltb_ge _ _)) by lia. done.
  - cbn [EEIUseGas hostFunction hfRun].
    rewrite (hostInvoke_ok None [U64] EEIUseGas_body [mkVariant U64 (2 ^ 64 - k)] rest (2 ^ 64 - k, tt) _ _ _ _
      (Err CostLimitExceeded)
      (mkCtx mem (Some (set_CostSum (Env.CostLimit env) (meter env))) (LEEI.env_of evm env) None)); [reflexivity|exact Ha|reflexivity|exact Hv|].
    cbn [apply fst]. unfold EEIUseGas_body, takeGas, bind, onGas, consumeGas. cbn [hcMea CostLimit CostSum LegacyHostFacts.meter].
    rewrite (wrap_small 64 (_ - _)) by (unfold in_u; lia). by rewrite (proj2 (Z.ltb_lt _ _)) by lia.
Qed.

End Agree.

(** ** Witnesses *)

(** The table of the manager is the environment itself. *)
Definition example_manager (env : EVMEnvironment Ledger) (used : Z) : Env.EnvironmentManager (EVMEnvironment Ledger) :=
  Env.mkEnv Cfg.newConfigure [] 100000 used env.
Definition same_table (e _ : EVMEnvironment Ledger) : EVMEnvironment Ledger := e.

Lemma legacy_eei_agrees_witness :
  run_meets id (replicate 256 1) 0 gas_in_order
    (LHost.lhRun (LEEI.EEICallDataCopy id) (example_manager example_env 5000)
       (mkStack [mkVariant U32 3; mkVariant U32 1; mkVariant U32 8] [] []) example_memory)
    (hfRun EEICallDataCopy (mkStack [mkVariant U32 3; mkVariant U32 1; mkVariant U32 8] [] []) example_memory
       (Some (example_meter 5000)) example_env).
Proof.
  pose proof (legacy_eei_agrees id same_table example_host example_hash (fun e h => eq_refl) (replicate 256 1) 0
    (example_manager example_env 5000) (mkStack [mkVariant U32 3; mkVariant U32 1; mkVariant U32 8] [] [])
    example_memory) as Hf.
  destruct (Forall2_lookup_lr _ _ _ 2%nat _ _ (Hf ltac:(by vm_compute)) eq_refl eq_refl) as (_ & _ & _ & _ & Hr).
  apply Hr. split; [discriminate|by vm_compute].
Defined.

Lemma legacy_use_gas_mints_witness :
  LHost.lhRun LEEI.EEIUseGas (example_manager example_env 5000)
    (mkStack [mkVariant U64 (2 ^ 64 - 4000)] [] []) example_memory =
  (Ok Success, (example_manager example_env 1000, mkStack [] [] [], example_memory)).
Proof.
  destruct (legacy_use_gas_mints id [] 0 (example_manager example_env 5000)
    (mkStack [mkVariant U64 (2 ^ 64 - 4000)] [] []) [] example_memory 4000) as [Hr _]; [cbn; lia..|reflexivity|].
  exact Hr.
Defined.
