(* ===== verification/LegacyWasiFacts.v ===== *)
(** * The two WASI interfaces agree

    The functions of the first generation do what those of the WASI module of the new VM
    do, as far as both are defined.  One differs: [environ_sizes_get] of the first
    generation stops at a store that fails, the other goes on. *)
From stdpp Require Import base list numbers option strings.
From Stdlib Require Import ZArith Lia.
From S2P Require Import Prelude Types Memory MemoryFacts StackMgr Runtime EngineFuel HostFunc HostFuncFacts.
From S2P Require Import Wasi WasiFacts LegacyRuntime LegacySim LegacyHostFacts LegacyWasi.
#[local] Open Scope Z_scope.

Section Agree.
Context {X H : Type} (os : OS X) (wasi : H -> WasiState X) (set_wasi : WasiState X -> H -> H).
Hypothesis wasi_set : forall s h, wasi (set_wasi s h) = s.
Context (tab : list Z) (cnt : Z).

(** The functions do not touch the counters, which may be anything. *)
Definition any_gas (m : Env.EnvironmentManager H) : Prop := True.

#[local] Abbreviation ML := (M (LHost.HostCtx H)).
#[local] Abbreviation MW := (M (HostCtx (WasiState X))).
#[local] Abbreviation agrees := (agrees wasi tab cnt any_gas).
#[local] Abbreviation view := (view wasi tab cnt).
#[local] Abbreviation run_meets := (run_meets wasi tab cnt any_gas).

(** ** Steps of the bodies *)

Lemma agrees_wasi_getEnv : agrees (LWasi.getEnv wasi) getEnv.
Proof using Type. by intros c Hc. Qed.
Lemma agrees_getEnviron : agrees (LWasi.getEnviron os wasi) (getEnviron os).
Proof using Type. by intros c Hc. Qed.
Lemma agrees_sys {A} (f : X -> A * X) : agrees (LWasi.sys wasi set_wasi f) (sys f).
Proof using wasi_set.
  intros c Hc. unfold LWasi.sys, sys, LWasi.wasi_of. cbn. destruct (f _) as [a o]. split_and!; [done| |done].
  unfold LegacyHostFacts.view, LegacyHostFacts.meter. cbn. by rewrite wasi_set.
Qed.
Lemma agrees_storeValue T x o n : 0 < n ->
  agrees (LHost.onMem (LMem.storeValue T x o n)) (onMem (storeValue T x o n)).
Proof using Type.
  intros. apply agrees_onMem; [apply free_storeValue|]. intros m. by apply storeValue_covers.
Qed.
Lemma agrees_setAll d o n : 0 <= n ->
  agrees (LHost.onMem (LMem.setBytes d o 0 n)) (onMem (setBytes d o 0 n)).
Proof using Type.
  intros. apply agrees_onMem; [apply free_setBytes|]. intros m. by apply setBytes_agree_all.
Qed.
Lemma agrees_loadU32 o :
  agrees (LHost.onMem (LMem.loadValue U32 o 4)) (onMem (let* x := loadValue U32 o 4 in ret (default 0 x))).
Proof using Type.
  apply agrees_onMem; [|apply loadValue_covers]. intros m. unfold bind.
  pose proof (free_loadValue U32 o 4 m). by destruct (loadValue U32 o 4 m) as [[] ?].
Qed.
Lemma onMem_result {A B C} (m : M MemoryInstance A) (f : A -> B) (k : B -> MW C) c :
  (let* x := onMem m in k (f x)) c = (let* y := onMem (let* x := m in ret (f x)) in k y) c.
Proof using Type. unfold bind, onMem, zoom. by destruct (m (hcMem c)) as [[] ?]. Qed.

Lemma agrees_loadIOVec p : agrees (LWasi.loadIOVec p) (loadIOVec p).
Proof using Type.
  intros c Hc. unfold LWasi.loadIOVec, loadIOVec.
  rewrite (onMem_result (loadValue U32 p 4) (default 0) (fun a =>
    let* b := onMem (loadValue U32 (wrap 32 (p + 4)) 4) in ret (a, default 0 b))).
  revert c Hc. apply agrees_step; [apply agrees_loadU32|]. intros a c Hc.
  rewrite (onMem_result _ (default 0) (fun b => ret (a, b))).
  revert c Hc. apply agrees_step; [apply agrees_loadU32|]. intros b. apply agrees_ret.
Qed.

Create HintDb wasi.
#[local] Hint Resolve agrees_ret agrees_throw agrees_setRet agrees_wasi_getEnv agrees_getEnviron agrees_sys
  agrees_loadIOVec : wasi.

(** Follows two bodies down to their steps. *)
Ltac agree_auto := repeat lazymatch goal with
  | |- agrees (bind _ _) (bind _ _) => apply agrees_step; [|intros ?]
  | |- agrees (LHost.onMem (LMem.setBytes _ _ 0 _)) _ => apply agrees_setAll; apply wrap_range; lia
  | |- agrees (LHost.onMem (LMem.getBytes _ _ _)) _ => apply agrees_getBytes; try lia
  | |- agrees (LHost.onMem (LMem.storeValue _ _ _ _)) _ => apply agrees_storeValue; lia
  | |- agrees (lift _) _ => apply agrees_lift; by eauto with free
  | |- agrees (match ?x with _ => _ end) (match ?x with _ => _ end) => destruct x eqn:?
  | |- agrees _ _ => by eauto with wasi
  end.

Lemma agrees_storePointers Strs p o b : agrees (LWasi.storePointers Strs p o b) (storePointers Strs p o b).
Proof using Type.
  revert p o b. induction Strs as [|Arg Strs IH]; intros; cbn [LWasi.storePointers storePointers]; agree_auto.
Qed.
#[local] Hint Resolve agrees_storePointers : wasi.
Lemma agrees_storeStrings Strs p b : agrees (LWasi.storeStrings Strs p b) (storeStrings Strs p b).
Proof using Type. unfold LWasi.storeStrings, storeStrings. agree_auto. Qed.

(** The two directions; the memory is looked at before the system is called. *)
Lemma agrees_mem {A} (k : MemoryInstance -> ML A) (l : MemoryInstance -> MW A) : (forall m, agrees (k m) (l m)) ->
  agrees (let* c := get in k (LHost.lcMem c)) (let* c := get in l (hcMem c)).
Proof using Type. intros Hk c Hc. by apply Hk. Qed.
Lemma agrees_setMem d : agrees (modify (fun c => LHost.set_lcMem (set_Data d (LHost.lcMem c)) c))
  (modify (fun c => set_hcMem (set_Data d (hcMem c)) c)).
Proof using Type. by intros c Hc. Qed.
#[local] Hint Resolve agrees_setMem : wasi.

Lemma agrees_writeFrom f p n : agrees (LWasi.writeFrom os wasi set_wasi f p n) (writeFrom os f p n).
Proof using wasi_set.
  apply (agrees_mem
    (fun m => match LMem.getPointer p m with
      | None => LWasi.sys wasi set_wasi (sys_write os f None n)
      | Some off => let* bs := lift (read_range off n (Data m)) in
          LWasi.sys wasi set_wasi (sys_write os f (Some bs) n) end)
    (fun m => match getPointer p m with
      | None => sys (sys_write os f None n)
      | Some off => let* bs := lift (read_range off n (Data m)) in sys (sys_write os f (Some bs) n) end)).
  intros m. unfold LMem.getPointer, getPointer. destruct (_ <=? _); agree_auto.
Qed.
Lemma agrees_readTo f p n : agrees (LWasi.readTo os wasi set_wasi f p n) (readTo os f p n).
Proof using wasi_set.
  apply (agrees_mem
    (fun m => match LMem.getPointer p m with
      | None => let* r := LWasi.sys wasi set_wasi (sys_read os f true n) in ret r.1
      | Some off => let* r := LWasi.sys wasi set_wasi (sys_read os f false n) in
          let* d := lift (write_range off r.2 (Data m)) in
          modify (fun c => LHost.set_lcMem (set_Data d (LHost.lcMem c)) c) ;;; ret r.1 end)
    (fun m => match getPointer p m with
      | None => let* r := sys (sys_read os f true n) in ret r.1
      | Some off => let* r := sys (sys_read os f false n) in
          let* d := lift (write_range off r.2 (Data m)) in
          modify (fun c => set_hcMem (set_Data d (hcMem c)) c) ;;; ret r.1 end)).
  intros m. unfold LMem.getPointer, getPointer. destruct (_ <=? _); agree_auto.
Qed.

Lemma agrees_transfer op op' k p n : (forall a b, agrees (op a b) (op' a b)) ->
  agrees (LWasi.transfer op k p n) (transfer op' k p n).
Proof using Type.
  intros Hop. revert p n. induction k as [|k IH]; intros p n; cbn [LWasi.transfer transfer]; cbv zeta; agree_auto.
Qed.
Lemma agrees_transferAll op op' p n q : (forall a b, agrees (op a b) (op' a b)) ->
  agrees (LWasi.transferAll op p n q) (transferAll op' p n q).
Proof using Type.
  intros Hop. unfold LWasi.transferAll, transferAll. apply agrees_step; [by apply agrees_transfer|]. intros r. agree_auto.
Qed.
#[local] Hint Resolve agrees_storeStrings agrees_transferAll agrees_writeFrom agrees_readTo : wasi.

Lemma agrees_procExit st : agrees (LWasi.WasiProcExit_body wasi set_wasi st) (WasiProcExit_body st).
Proof using wasi_set.
  intros c Hc. cbn. split; [done|]. split; [done|]. left.
  unfold LegacyHostFacts.view, LegacyHostFacts.meter, LWasi.wasi_of. cbn. by rewrite wasi_set.
Qed.

(** *** [environ_sizes_get] *)

Definition sizes_tail_old (Strs : list (list Z)) (q : Z) : ML unit :=
  LHost.onMem (LMem.storeValue U32 (stringsSize Strs) q 4) ;;; LHost.setRet 0.
Definition sizes_tail_new (Strs : list (list Z)) (q : Z) : MW unit :=
  onMem (storeValue U32 (stringsSize Strs) q 4) ;;; setRet 0.

(** Where the body of the first generation succeeds, so does the other. *)
Lemma environ_sizes_meets p q c c' : LWasi.WasiEnvironSizesGet_body os wasi p q c = (Ok tt, c') ->
  meets wasi tab cnt any_gas (Ok tt, c') (WasiEnvironSizesGet_body os p q (view c)).
Proof using Type.
  intros Hr. unfold LWasi.WasiEnvironSizesGet_body, LWasi.getEnviron in Hr. unfold WasiEnvironSizesGet_body, getEnviron.
  rewrite (bind_Ok (gets _) _ c _ _ eq_refl) in Hr. rewrite (bind_Ok (gets _) _ (view c) _ _ eq_refl).
  cbn [hcEnv LegacyHostFacts.view]. change (LWasi.wasi_of wasi (LHost.lcEnv c)) with (wasi (Env.EnvTable (LHost.lcEnv c))) in Hr.
  set (Strs := sys_environ os (wsOS (wasi (Env.EnvTable (LHost.lcEnv c))))) in *.
  apply bind_Ok_inv in Hr as ([] & c1 & H1 & H2).
  pose proof (agrees_storeValue U32 (wrap 32 (sizeZ Strs)) p 4 ltac:(lia) c I) as Ha. rewrite H1 in Ha.
  assert (agrees (sizes_tail_old Strs q) (sizes_tail_new Strs q)) as Ht
    by (unfold sizes_tail_old, sizes_tail_new; agree_auto).
  specialize (Ht c1 I). unfold sizes_tail_old in Ht. rewrite H2 in Ht. unfold bind at 1, try.
  destruct (onMem _ (view c)) as [[[]|e|u|] t]; cbn in Ha; try done. destruct Ha as (_ & -> & _). done.
Qed.

Lemma storeValue_err T x o n m e m' : LMem.storeValue T x o n m = (Err e, m') -> e <> Success.
Proof using Type.
  unfold LMem.storeValue. destruct (_ <? _); [by intros [= <- _]|]. unfold bind. rewrite checkDataSize_agree. unfold requireDataSize, checkDataSize, bind, throw.
  unfold write_range, lift, get, put. repeat case_match; intros; by simplify_eq.
Qed.
Lemma environ_sizes_err p q c e c' : LWasi.WasiEnvironSizesGet_body os wasi p q c = (Err e, c') -> e <> Success.
Proof using Type.
  unfold LWasi.WasiEnvironSizesGet_body, LWasi.getEnviron, bind, gets, LHost.onMem, zoom.
  destruct (LMem.storeValue _ _ p 4 _) as [[]] eqn:E1; intros; simplify_eq; [|by eapply storeValue_err].
  destruct (LMem.storeValue _ _ q 4 _) as [[]] eqn:E2; intros; simplify_eq. by eapply storeValue_err.
Qed.

(** ** The functions *)

(** [C38] The two WASI interfaces agree.  Function by function, in the order they are
    registered, the WASI functions of the first generation have the module, the name, the
    type and the cost of those of the new VM; and on any stack, memory, environment and gas
    counters, and whatever the operating system answers, they report the same status and
    leave the same memory, environment, system and counters, and after success the same
    stack, as far as both are defined.  For [environ_sizes_get] this holds where the function
    of the first generation succeeds. *)
Theorem legacy_wasi_agrees (env : Env.EnvironmentManager H) (stk : StackManager) (mem : MemoryInstance) :
  Forall2 (fun f g => LHost.lhModName f = chars "wasi_unstable" /\ LHost.lhFuncName f = chars g.1 /\
     LHost.lhType f = hfType g.2 /\ LHost.lhCost f = hfCost g.2 /\
     ((g.1 = "environ_sizes_get"%string -> (LHost.lhRun f env stk mem).1 = Ok Success) ->
      run_meets (LHost.lhRun f env stk mem)
        (hfRun g.2 stk mem (Some (meter tab cnt env)) (wasi (Env.EnvTable env)))))
    (LWasi.WasiFuncs os wasi set_wasi) (WasiFuncs os).
Proof using wasi_set.
  unfold LWasi.WasiFuncs, WasiFuncs. repeat (apply Forall2_cons; split); [..|constructor].
  all: split_and!; [reflexivity..|]; intros Hs.
  4: { apply run_agrees_success; [done| | |by apply Hs]; cbn [apply].
       - intros args c c' _ Hr. by apply environ_sizes_meets.
       - intros args c e c'. apply environ_sizes_err. }
  all: clear Hs; apply run_agrees; [done|]; intros args stk' Ha _ _; cbn [tuple_ok apply] in Ha |- *.
  all: destruct_and? Ha; repeat match goal with H : in_type U32 _ |- _ => destruct H end.
  all: try apply agrees_procExit.
  all: unfold LWasi.WasiArgsGet_body, LWasi.WasiArgsSizesGet_body, LWasi.WasiEnvironGet_body,
    LWasi.WasiFdClose_body, LWasi.WasiFdFdstatGet_body, LWasi.WasiFdFdstatSetFlags_body,
    LWasi.WasiFdPrestatDirName_body, LWasi.WasiFdPrestatGet_body, LWasi.WasiFdRead_body,
    LWasi.WasiFdSeek_body, LWasi.WasiFdWrite_body, LWasi.WasiPathOpen_body.
  all: unfold WasiArgsGet_body, WasiArgsSizesGet_body, WasiEnvironGet_body, WasiFdClose_body,
    WasiFdFdstatGet_body, WasiFdFdstatSetFlags_body, WasiFdPrestatDirName_body, WasiFdPrestatGet_body,
    WasiFdRead_body, WasiFdSeek_body, WasiFdWrite_body, WasiPathOpen_body.
  all: cbv zeta; agree_auto.
Qed.

End Agree.

(** The table of the manager is the environment and the system. *)
Definition example_table : Env.EnvironmentManager (WasiState Tape) :=
  Env.mkEnv Cfg.newConfigure [] 100000 0 (hcEnv (example_wasi ([], []))).

Lemma legacy_wasi_agrees_witness :
  run_meets id [] 0 any_gas
    (LHost.lhRun (LWasi.WasiArgsSizesGet id) example_table (mkStack [mkVariant U32 4; mkVariant U32 0] [] [])
       example_memory)
    (hfRun WasiArgsSizesGet (mkStack [mkVariant U32 4; mkVariant U32 0] [] []) example_memory
       (Some (mkMeasure [] 0 100000 0)) (hcEnv (example_wasi ([], [])))).
Proof.
  pose proof (legacy_wasi_agrees example_os id (fun s _ => s) (fun s h => eq_refl) [] 0 example_table
    (mkStack [mkVariant U32 4; mkVariant U32 0] [] []) example_memory) as Hf.
  destruct (Forall2_lookup_lr _ _ _ 1%nat _ _ Hf eq_refl eq_refl) as (_ & _ & _ & _ & Hr).
  apply Hr. discriminate.
Defined.
