(* ===== verification/LegacyOnnc.v ===== *)
(** * The ONNC functions of the first generation VM: include/vm/hostfunc/onnc/*.h,
    lib/vm/hostfunc/onnc/*.cpp

    [onnc] and [set_onnc] find the state of the ONNC runtime in the table of the manager; the
    runtime is the parameter of Onnc.v.  At the end the agreement of the two generations. *)
From stdpp Require Import base list numbers option strings.
From Stdlib Require Import ZArith Lia.
From S2P Require Import Prelude Types Memory StackMgr Runtime HostFunc HostFuncFacts Onnc OnncFacts.
From S2P Require Import LegacyRuntime LegacyExecutor LegacyVM LegacyHostFacts LegacyWasiFacts.
#[local] Open Scope Z_scope.

Module LOnnc.
Section Onnc.
Context {C H : Type} (runtime : ONNCRuntime C) (onnc : H -> C) (set_onnc : C -> H -> H).
#[local] Abbreviation ML := (M (LHost.HostCtx H)).

Definition getPtr (Off : Z) : ML (option Z) := gets (fun c => LMem.getPointer Off (LHost.lcMem c)).
Definition getPtrOrNull (Off : Z) : ML (option Z) :=
  gets (fun c => LMem.getPointerOrNull Off (LHost.lcMem c)).

Definition call (Name : string) (Args : list CArg) : ML unit := fun c =>
  let e := LHost.lcEnv c in
  match runtime Name Args (Data (LHost.lcMem c)) (onnc (Env.EnvTable e)) with
  | Some (d, s) =>
      (Ok tt, LHost.set_lcEnv (Env.set_EnvTable (set_onnc s (Env.EnvTable e)) e)
                (LHost.set_lcMem (set_Data d (LHost.lcMem c)) c))
  | None => (Undef UB_deref, c)
  end.

(** [p[i]] for a [uint32_t *p]: undefined for null and past the memory. *)
Definition at32 (p : option Z) (i : Z) : ML Z :=
  let* c := get in
  match p with
  | Some o =>
      if o + 4 * i + 4 <=? sizeZ (Data (LHost.lcMem c))
      then ret (le_combine (slice (o + 4 * i) 4 (Data (LHost.lcMem c)))) else undef UB_deref
  | None => undef UB_deref
  end.

Fixpoint tensorsFrom (n : nat) (i : Z) (Offs DimsOffs : option Z) : ML (list (option Z * option Z)) :=
  match n with
  | O => ret []
  | S n =>
      let* Off := at32 Offs i in
      let* Tensor := getPtr Off in
      let* DimsOff := at32 DimsOffs i in
      let* Dims := getPtr DimsOff in
      let* l := tensorsFrom n (i + 1) Offs DimsOffs in
      ret ((Tensor, Dims) :: l)
  end.
Definition getTensors (N : Z) : option Z -> option Z -> ML (list (option Z * option Z)) :=
  tensorsFrom (Z.to_nat N) 0.

(** ** lib/vm/hostfunc/onnc *)

Definition ONNCRuntimeAddFloat_body (RuntimeContextOff InAOff InANDim InADimsOff InBOff InBNDim
    InBDimsOff OutCOff OutCNDim OutCDimsOff : Z) : ML unit :=
  let* RuntimeContext := getPtr RuntimeContextOff in
  let* InADims := getPtr InADimsOff in
  let* InBDims := getPtr InBDimsOff in
  let* OutCDims := getPtr OutCDimsOff in
  let* InA := getPtr InAOff in
  let* InB := getPtr InBOff in
  let* OutC := getPtr OutCOff in
  call "ONNC_RUNTIME_add_float"
    [Ptr RuntimeContext; Ptr InA; Int32 (sgn 32 InANDim); Ptr InADims; Ptr InB;
     Int32 (sgn 32 InBNDim); Ptr InBDims; Ptr OutC; Int32 (sgn 32 OutCNDim); Ptr OutCDims].

Definition ONNCRuntimeAddInt8_body (RuntimeContextOff InAOff InANDim InADimsOff InBOff InBNDim
    InBDimsOff OutCOff OutCNDim OutCDimsOff : Z) : ML unit :=
  let* RuntimeContext := getPtr RuntimeContextOff in
  let* InADims := getPtr InADimsOff in
  let* InBDims := getPtr InBDimsOff in
  let* OutCDims := getPtr OutCDimsOff in
  let* InA := getPtr InAOff in
  let* InB := getPtr InBOff in
  let* OutC := getPtr OutCOff in
  call "ONNC_RUNTIME_add_int8"
    [Ptr RuntimeContext; Ptr InA; Int32 (sgn 32 InANDim); Ptr InADims; Ptr InB;
     Int32 (sgn 32 InBNDim); Ptr InBDims; Ptr OutC; Int32 (sgn 32 OutCNDim); Ptr OutCDims].

Definition ONNCRuntimeAveragepoolFloat_body (RuntimeContextOff InXOff InXNDim InXDimsOff OutYOff
    OutYNDim OutYDimsOff AutoPadOff IncludePadCnt KernelShapeOff KernelShapeNum PadsOff PadsNum
    StridesOff StridesNum : Z) : ML unit :=
  let* RuntimeContext := getPtr RuntimeContextOff in
  let* InXDims := getPtr InXDimsOff in
  let* OutYDims := getPtr OutYDimsOff in
  let* InX := getPtr InXOff in
  let* OutY := getPtr OutYOff in
  let* AutoPad := getPtr AutoPadOff in
  let* KernelShape := getPtr KernelShapeOff in
  let* Pads := getPtr PadsOff in
  let* Strides := getPtr StridesOff in
  call "ONNC_RUNTIME_averagepool_float"
    [Ptr RuntimeContext; Ptr InX; Int32 (sgn 32 InXNDim); Ptr InXDims; Ptr OutY;
     Int32 (sgn 32 OutYNDim); Ptr OutYDims; Ptr AutoPad; Int32 (sgn 32 IncludePadCnt);
     Ptr KernelShape; Int32 (sgn 32 KernelShapeNum); Ptr Pads; Int32 (sgn 32 PadsNum); Ptr Strides;
     Int32 (sgn 32 StridesNum)].

Definition ONNCRuntimeBatchnormalizationFloat_body (RuntimeContextOff InXOff InXNDim InXDimsOff
    InScaleOff InScaleNDim InScaleDimsOff InBOff InBNDim InBDimsOff InMeanOff InMeanNDim
    InMeanDimsOff InVarOff InVarNDim InVarDimsOff OutYOff OutYNDim OutYDimsOff OutMeanOff
    OutMeanNDim OutMeanDimsOff OutVarOff OutVarNDim OutVarDimsOff OutSavedMeanOff OutSavedMeanNDim
    OutSavedMeanDimsOff OutSavedVarOff OutSavedVarNDim OutSavedVarDimsOff Epsilon Momentum Spatial :
    Z) : ML unit :=
  let* RuntimeContext := getPtr RuntimeContextOff in
  let* InXDims := getPtr InXDimsOff in
  let* InScaleDims := getPtr InScaleDimsOff in
  let* InBDims := getPtr InBDimsOff in
  let* InMeanDims := getPtr InMeanDimsOff in
  let* InVarDims := getPtr InVarDimsOff in
  let* OutYDims := getPtr OutYDimsOff in
  let* OutMeanDims := getPtrOrNull OutMeanDimsOff in
  let* OutVarDims := getPtrOrNull OutVarDimsOff in
  let* OutSavedMeanDims := getPtrOrNull OutSavedMeanDimsOff in
  let* OutSavedVarDims := getPtrOrNull OutSavedVarDimsOff in
  let* InX := getPtr InXOff in
  let* InScale := getPtr InScaleOff in
  let* InB := getPtr InBOff in
  let* InMean := getPtr InMeanOff in
  let* InVar := getPtr InVarOff in
  let* OutY := getPtr OutYOff in
  let* OutMean := getPtrOrNull OutMeanOff in
  let* OutVar := getPtrOrNull OutVarOff in
  let* OutSavedMean := getPtrOrNull OutSavedMeanOff in
  let* OutSavedVar := getPtrOrNull OutSavedVarOff in
  call "ONNC_RUNTIME_batchnormalization_float"
    [Ptr RuntimeContext; Ptr InX; Int32 (sgn 32 InXNDim); Ptr InXDims; Ptr InScale;
     Int32 (sgn 32 InScaleNDim); Ptr InScaleDims; Ptr InB; Int32 (sgn 32 InBNDim); Ptr InBDims;
     Ptr InMean; Int32 (sgn 32 InMeanNDim); Ptr InMeanDims; Ptr InVar; Int32 (sgn 32 InVarNDim);
     Ptr InVarDims; Ptr OutY; Int32 (sgn 32 OutYNDim); Ptr OutYDims; Ptr OutMean;
     Int32 (sgn 32 OutMeanNDim); Ptr OutMeanDims; Ptr OutVar; Int32 (sgn 32 OutVarNDim);
     Ptr OutVarDims; Ptr OutSavedMean; Int32 (sgn 32 OutSavedMeanNDim); Ptr OutSavedMeanDims;
     Ptr OutSavedVar; Int32 (sgn 32 OutSavedVarNDim); Ptr OutSavedVarDims; Float Epsilon;
     Float Momentum; Int32 (sgn 32 Spatial)].

Definition ONNCRuntimeBatchnormalizationInt8_body (RuntimeContextOff InXOff InXNDim InXDimsOff
    InScaleOff InScaleNDim InScaleDimsOff InBOff InBNDim InBDimsOff InMeanOff InMeanNDim
    InMeanDimsOff InVarOff InVarNDim InVarDimsOff OutYOff OutYNDim OutYDimsOff OutMeanOff
    OutMeanNDim OutMeanDimsOff OutVarOff OutVarNDim OutVarDimsOff OutSavedMeanOff OutSavedMeanNDim
    OutSavedMeanDimsOff OutSavedVarOff OutSavedVarNDim OutSavedVarDimsOff Epsilon Momentum Spatial :
    Z) : ML unit :=
  let* RuntimeContext := getPtr RuntimeContextOff in
  let* InXDims := getPtr InXDimsOff in
  let* InScaleDims := getPtr InScaleDimsOff in
  let* InBDims := getPtr InBDimsOff in
  let* InMeanDims := getPtr InMeanDimsOff in
  let* InVarDims := getPtr InVarDimsOff in
  let* OutYDims := getPtr OutYDimsOff in
  let* OutMeanDims := getPtrOrNull OutMeanDimsOff in
  let* OutVarDims := getPtrOrNull OutVarDimsOff in
  let* OutSavedMeanDims := getPtrOrNull OutSavedMeanDimsOff in
  let* OutSavedVarDims := getPtrOrNull OutSavedVarDimsOff in
  let* InX := getPtr InXOff in
  let* InScale := getPtr InScaleOff in
  let* InB := getPtr InBOff in
  let* InMean := getPtr InMeanOff in
  let* InVar := getPtr InVarOff in
  let* OutY := getPtr OutYOff in
  let* OutMean := getPtrOrNull OutMeanOff in
  let* OutVar := getPtrOrNull OutVarOff in
  let* OutSavedMean := getPtrOrNull OutSavedMeanOff in
  let* OutSavedVar := getPtrOrNull OutSavedVarOff in
  call "ONNC_RUNTIME_batchnormalization_int8"
    [Ptr RuntimeContext; Ptr InX; Int32 (sgn 32 InXNDim); Ptr InXDims; Ptr InScale;
     Int32 (sgn 32 InScaleNDim); Ptr InScaleDims; Ptr InB; Int32 (sgn 32 InBNDim); Ptr InBDims;
     Ptr InMean; Int32 (sgn 32 InMeanNDim); Ptr InMeanDims; Ptr InVar; Int32 (sgn 32 InVarNDim);
     Ptr InVarDims; Ptr OutY; Int32 (sgn 32 OutYNDim); Ptr OutYDims; Ptr OutMean;
     Int32 (sgn 32 OutMeanNDim); Ptr OutMeanDims; Ptr OutVar; Int32 (sgn 32 OutVarNDim);
     Ptr OutVarDims; Ptr OutSavedMean; Int32 (sgn 32 OutSavedMeanNDim); Ptr OutSavedMeanDims;
     Ptr OutSavedVar; Int32 (sgn 32 OutSavedVarNDim); Ptr OutSavedVarDims; Int8 (sgn 8 Epsilon);
     Int8 (sgn 8 Momentum); Int32 (sgn 32 Spatial)].

Definition ONNCRuntimeConcatFloat_body (RuntimeContextOff InInputsOffOff InInputsNTensor
    InInputsNDimOff InInputsDimsOffOff OutConcatResultOff OutConcatResultNDim OutConcatResultDimsOff
    Axis : Z) : ML unit :=
  let* RuntimeContext := getPtr RuntimeContextOff in
  let* InInputsOff := getPtr InInputsOffOff in
  let* InInputsDimsOff := getPtr InInputsDimsOffOff in
  let* InInputsNDim := getPtr InInputsNDimOff in
  let* OutConcatResultDims := getPtr OutConcatResultDimsOff in
  let* OutConcatResult := getPtr OutConcatResultOff in
  let* Tensors := getTensors InInputsNTensor InInputsOff InInputsDimsOff in
  call "ONNC_RUNTIME_concat_float"
    [Ptr RuntimeContext; Ptrs Tensors.*1; Int32 (sgn 32 InInputsNTensor); Ptr InInputsNDim;
     Ptrs Tensors.*2; Ptr OutConcatResult; Int32 (sgn 32 OutConcatResultNDim);
     Ptr OutConcatResultDims; Int32 (sgn 32 Axis)].

Definition ONNCRuntimeConvFloat_body (RuntimeContextOff InXOff InXNDim InXDimsOff InWOff InWNDim
    InWDimsOff InBOff InBNDim InBDimsOff OutYOff OutYNDim OutYDimsOff AutoPadOff DelationsOff
    DelationNum Group KernelShapeOff KernelShapeNum PadsOff PadsNum StridesOff StridesNum : Z) : ML
    unit :=
  let* RuntimeContext := getPtr RuntimeContextOff in
  let* InXDims := getPtr InXDimsOff in
  let* InWDims := getPtr InWDimsOff in
  let* InBDims := getPtrOrNull InBDimsOff in
  let* OutYDims := getPtr OutYDimsOff in
  let* InX := getPtr InXOff in
  let* InW := getPtr InWOff in
  let* InB := getPtrOrNull InBOff in
  let* OutY := getPtr OutYOff in
  let* AutoPad := getPtr AutoPadOff in
  let* Delations := getPtr DelationsOff in
  let* KernelShape := getPtr KernelShapeOff in
  let* Pads := getPtr PadsOff in
  let* Strides := getPtr StridesOff in
  call "ONNC_RUNTIME_conv_float"
    [Ptr RuntimeContext; Ptr InX; Int32 (sgn 32 InXNDim); Ptr InXDims; Ptr InW;
     Int32 (sgn 32 InWNDim); Ptr InWDims; Ptr InB; Int32 (sgn 32 InBNDim); Ptr InBDims; Ptr OutY;
     Int32 (sgn 32 OutYNDim); Ptr OutYDims; Ptr AutoPad; Ptr Delations; Int32 (sgn 32 DelationNum);
     Int32 (sgn 32 Group); Ptr KernelShape; Int32 (sgn 32 KernelShapeNum); Ptr Pads;
     Int32 (sgn 32 PadsNum); Ptr Strides; Int32 (sgn 32 StridesNum)].

Definition ONNCRuntimeConvInt8_body (RuntimeContextOff InXOff InXNDim InXDimsOff InWOff InWNDim
    InWDimsOff InBOff InBNDim InBDimsOff OutYOff OutYNDim OutYDimsOff AutoPadOff DelationsOff
    DelationNum Group KernelShapeOff KernelShapeNum PadsOff PadsNum StridesOff StridesNum : Z) : ML
    unit :=
  let* RuntimeContext := getPtr RuntimeContextOff in
  let* InXDims := getPtr InXDimsOff in
  let* InWDims := getPtr InWDimsOff in
  let* InBDims := getPtrOrNull InBDimsOff in
  let* OutYDims := getPtr OutYDimsOff in
  let* InX := getPtr InXOff in
  let* InW := getPtr InWOff in
  let* InB := getPtrOrNull InBOff in
  let* OutY := getPtr OutYOff in
  let* AutoPad := getPtr AutoPadOff in
  let* Delations := getPtr DelationsOff in
  let* KernelShape := getPtr KernelShapeOff in
  let* Pads := getPtr PadsOff in
  let* Strides := getPtr StridesOff in
  call "ONNC_RUNTIME_conv_int8"
    [Ptr RuntimeContext; Ptr InX; Int32 (sgn 32 InXNDim); Ptr InXDims; Ptr InW;
     Int32 (sgn 32 InWNDim); Ptr InWDims; Ptr InB; Int32 (sgn 32 InBNDim); Ptr InBDims; Ptr OutY;
     Int32 (sgn 32 OutYNDim); Ptr OutYDims; Ptr AutoPad; Ptr Delations; Int32 (sgn 32 DelationNum);
     Int32 (sgn 32 Group); Ptr KernelShape; Int32 (sgn 32 KernelShapeNum); Ptr Pads;
     Int32 (sgn 32 PadsNum); Ptr Strides; Int32 (sgn 32 StridesNum)].

Definition ONNCRuntimeGemmFloat_body (RuntimeContextOff InAOff InANDim InADimsOff InBOff InBNDim
    InBDimsOff InCOff InCNDim InCDimsOff OutYOff OutYNDim OutYDimsOff Alpha Beta TransA TransB : Z)
    : ML unit :=
  let* RuntimeContext := getPtr RuntimeContextOff in
  let* InADims := getPtr InADimsOff in
  let* InBDims := getPtr InBDimsOff in
  let* InCDims := getPtrOrNull InCDimsOff in
  let* OutYDims := getPtr OutYDimsOff in
  let* InA := getPtr InAOff in
  let* InB := getPtr InBOff in
  let* InC := getPtrOrNull InCOff in
  let* OutY := getPtr OutYOff in
  call "ONNC_RUNTIME_gemm_float"
    [Ptr RuntimeContext; Ptr InA; Int32 (sgn 32 InANDim); Ptr InADims; Ptr InB;
     Int32 (sgn 32 InBNDim); Ptr InBDims; Ptr InC; Int32 (sgn 32 InCNDim); Ptr InCDims; Ptr OutY;
     Int32 (sgn 32 OutYNDim); Ptr OutYDims; Float Alpha; Float Beta; Int32 (sgn 32 TransA);
     Int32 (sgn 32 TransB)].

Definition ONNCRuntimeGlobalaveragepoolFloat_body (RuntimeContextOff InXOff InXNDim InXDimsOff
    OutYOff OutYNDim OutYDimsOff : Z) : ML unit :=
  let* RuntimeContext := getPtr RuntimeContextOff in
  let* InXDims := getPtr InXDimsOff in
  let* OutYDims := getPtr OutYDimsOff in
  let* InX := getPtr InXOff in
  let* OutY := getPtr OutYOff in
  call "ONNC_RUNTIME_globalaveragepool_float"
    [Ptr RuntimeContext; Ptr InX; Int32 (sgn 32 InXNDim); Ptr InXDims; Ptr OutY;
     Int32 (sgn 32 OutYNDim); Ptr OutYDims].

Definition ONNCRuntimeLrnFloat_body (RuntimeContextOff InXOff InXNDim InXDimsOff OutYOff OutYNDim
    OutYDimsOff Alpha Beta Bias Size : Z) : ML unit :=
  let* RuntimeContext := getPtr RuntimeContextOff in
  let* InXDims := getPtr InXDimsOff in
  let* OutYDims := getPtr OutYDimsOff in
  let* InX := getPtr InXOff in
  let* OutY := getPtr OutYOff in
  call "ONNC_RUNTIME_lrn_float"
    [Ptr RuntimeContext; Ptr InX; Int32 (sgn 32 InXNDim); Ptr InXDims; Ptr OutY;
     Int32 (sgn 32 OutYNDim); Ptr OutYDims; Float Alpha; Float Beta; Float Bias;
     Int32 (sgn 32 Size)].

Definition ONNCRuntimeMaxpoolFloat_body (RuntimeContextOff InXOff InXNDim InXDimsOff OutYOff
    OutYNDim OutYDimsOff OutIndicesOff OutIndicesNDim OutIndicesDimsOff AutoPadOff KernelShapeOff
    KernelShapeNum PadsOff PadsNum StorageOrder StridesOff StridesNum : Z) : ML unit :=
  let* RuntimeContext := getPtr RuntimeContextOff in
  let* InXDims := getPtr InXDimsOff in
  let* OutYDims := getPtr OutYDimsOff in
  let* OutIndicesDims := getPtrOrNull OutIndicesDimsOff in
  let* InX := getPtr InXOff in
  let* OutY := getPtr OutYOff in
  let* OutIndices := getPtrOrNull OutIndicesOff in
  let* AutoPad := getPtr AutoPadOff in
  let* KernelShape := getPtr KernelShapeOff in
  let* Pads := getPtr PadsOff in
  let* Strides := getPtr StridesOff in
  call "ONNC_RUNTIME_maxpool_float"
    [Ptr RuntimeContext; Ptr InX; Int32 (sgn 32 InXNDim); Ptr InXDims; Ptr OutY;
     Int32 (sgn 32 OutYNDim); Ptr OutYDims; Ptr OutIndices; Int32 (sgn 32 OutIndicesNDim);
     Ptr OutIndicesDims; Ptr AutoPad; Ptr KernelShape; Int32 (sgn 32 KernelShapeNum); Ptr Pads;
     Int32 (sgn 32 PadsNum); Int32 (sgn 32 StorageOrder); Ptr Strides; Int32 (sgn 32 StridesNum)].

Definition ONNCRuntimeMaxpoolInt8_body (RuntimeContextOff InXOff InXNDim InXDimsOff OutYOff
    OutYNDim OutYDimsOff OutIndicesOff OutIndicesNDim OutIndicesDimsOff AutoPadOff KernelShapeOff
    KernelShapeNum PadsOff PadsNum StorageOrder StridesOff StridesNum : Z) : ML unit :=
  let* RuntimeContext := getPtr RuntimeContextOff in
  let* InXDims := getPtr InXDimsOff in
  let* OutYDims := getPtr OutYDimsOff in
  let* OutIndicesDims := getPtrOrNull OutIndicesDimsOff in
  let* InX := getPtr InXOff in
  let* OutY := getPtr OutYOff in
  let* OutIndices := getPtrOrNull OutIndicesOff in
  let* AutoPad := getPtr AutoPadOff in
  let* KernelShape := getPtr KernelShapeOff in
  let* Pads := getPtr PadsOff in
  let* Strides := getPtr StridesOff in
  call "ONNC_RUNTIME_maxpool_int8"
    [Ptr RuntimeContext; Ptr InX; Int32 (sgn 32 InXNDim); Ptr InXDims; Ptr OutY;
     Int32 (sgn 32 OutYNDim); Ptr OutYDims; Ptr OutIndices; Int32 (sgn 32 OutIndicesNDim);
     Ptr OutIndicesDims; Ptr AutoPad; Ptr KernelShape; Int32 (sgn 32 KernelShapeNum); Ptr Pads;
     Int32 (sgn 32 PadsNum); Int32 (sgn 32 StorageOrder); Ptr Strides; Int32 (sgn 32 StridesNum)].

Definition ONNCRuntimeMulFloat_body (RuntimeContextOff InAOff InANDim InADimsOff InBOff InBNDim
    InBDimsOff OutCOff OutCNDim OutCDimsOff : Z) : ML unit :=
  let* RuntimeContext := getPtr RuntimeContextOff in
  let* InADims := getPtr InADimsOff in
  let* InBDims := getPtr InBDimsOff in
  let* OutCDims := getPtr OutCDimsOff in
  let* InA := getPtr InAOff in
  let* InB := getPtr InBOff in
  let* OutC := getPtr OutCOff in
  call "ONNC_RUNTIME_mul_float"
    [Ptr RuntimeContext; Ptr InA; Int32 (sgn 32 InANDim); Ptr InADims; Ptr InB;
     Int32 (sgn 32 InBNDim); Ptr InBDims; Ptr OutC; Int32 (sgn 32 OutCNDim); Ptr OutCDims].

Definition ONNCRuntimeMulInt8_body (RuntimeContextOff InAOff InANDim InADimsOff InBOff InBNDim
    InBDimsOff OutCOff OutCNDim OutCDimsOff : Z) : ML unit :=
  let* RuntimeContext := getPtr RuntimeContextOff in
  let* InADims := getPtr InADimsOff in
  let* InBDims := getPtr InBDimsOff in
  let* OutCDims := getPtr OutCDimsOff in
  let* InA := getPtr InAOff in
  let* InB := getPtr InBOff in
  let* OutC := getPtr OutCOff in
  call "ONNC_RUNTIME_mul_int8"
    [Ptr RuntimeContext; Ptr InA; Int32 (sgn 32 InANDim); Ptr InADims; Ptr InB;
     Int32 (sgn 32 InBNDim); Ptr InBDims; Ptr OutC; Int32 (sgn 32 OutCNDim); Ptr OutCDims].

Definition ONNCRuntimeReluFloat_body (RuntimeContextOff InXOff InXNDim InXDimsOff OutYOff OutYNDim
    OutYDimsOff : Z) : ML unit :=
  let* RuntimeContext := getPtr RuntimeContextOff in
  let* InXDims := getPtr InXDimsOff in
  let* OutYDims := getPtr OutYDimsOff in
  let* InX := getPtr InXOff in
  let* OutY := getPtr OutYOff in
  call "ONNC_RUNTIME_relu_float"
    [Ptr RuntimeContext; Ptr InX; Int32 (sgn 32 InXNDim); Ptr InXDims; Ptr OutY;
     Int32 (sgn 32 OutYNDim); Ptr OutYDims].

Definition ONNCRuntimeReluInt8_body (RuntimeContextOff InXOff InXNDim InXDimsOff OutYOff OutYNDim
    OutYDimsOff : Z) : ML unit :=
  let* RuntimeContext := getPtr RuntimeContextOff in
  let* InXDims := getPtr InXDimsOff in
  let* OutYDims := getPtr OutYDimsOff in
  let* InX := getPtr InXOff in
  let* OutY := getPtr OutYOff in
  call "ONNC_RUNTIME_relu_int8"
    [Ptr RuntimeContext; Ptr InX; Int32 (sgn 32 InXNDim); Ptr InXDims; Ptr OutY;
     Int32 (sgn 32 OutYNDim); Ptr OutYDims].

Definition ONNCRuntimeReshapeFloat_body (RuntimeContextOff InDataOff InDataNDim InDataDimsOff
    InShapeOff InShapeNDim InShapeDimsOff OutReshapedOff OutReshapedNDim OutReshapedDimsOff : Z) :
    ML unit :=
  let* RuntimeContext := getPtr RuntimeContextOff in
  let* InDataDims := getPtr InDataDimsOff in
  let* InShapeDims := getPtr InShapeDimsOff in
  let* OutReshapedDims := getPtr OutReshapedDimsOff in
  let* InData := getPtr InDataOff in
  let* InShape := getPtr InShapeOff in
  let* OutReshaped := getPtr OutReshapedOff in
  call "ONNC_RUNTIME_reshape_float"
    [Ptr RuntimeContext; Ptr InData; Int32 (sgn 32 InDataNDim); Ptr InDataDims; Ptr InShape;
     Int32 (sgn 32 InShapeNDim); Ptr InShapeDims; Ptr OutReshaped; Int32 (sgn 32 OutReshapedNDim);
     Ptr OutReshapedDims].

Definition ONNCRuntimeSoftmaxFloat_body (RuntimeContextOff InOff InNDim InDimsOff OutOff OutNDim
    OutDimsOff Axis : Z) : ML unit :=
  let* RuntimeContext := getPtr RuntimeContextOff in
  let* InDims := getPtr InDimsOff in
  let* OutDims := getPtr OutDimsOff in
  let* In := getPtr InOff in
  let* Out := getPtr OutOff in
  call "ONNC_RUNTIME_softmax_float"
    [Ptr RuntimeContext; Ptr In; Int32 (sgn 32 InNDim); Ptr InDims; Ptr Out; Int32 (sgn 32 OutNDim);
     Ptr OutDims; Int32 (sgn 32 Axis)].

Definition ONNCRuntimeSumFloat_body (RuntimeContextOff InDataOffOff InDataNTensor InDataNDimOff
    InDataDimsOffOff OutSumOff OutSumNDim OutSumDimsOff : Z) : ML unit :=
  let* RuntimeContext := getPtr RuntimeContextOff in
  let* InDataOff := getPtr InDataOffOff in
  let* InDataDimsOff := getPtr InDataDimsOffOff in
  let* InDataNDim := getPtr InDataNDimOff in
  let* OutSumDims := getPtr OutSumDimsOff in
  let* OutSum := getPtr OutSumOff in
  let* Tensors := getTensors InDataNTensor InDataOff InDataDimsOff in
  call "ONNC_RUNTIME_sum_float"
    [Ptr RuntimeContext; Ptrs Tensors.*1; Int32 (sgn 32 InDataNTensor); Ptr InDataNDim;
     Ptrs Tensors.*2; Ptr OutSum; Int32 (sgn 32 OutSumNDim); Ptr OutSumDims].

Definition ONNCRuntimeTransposeFloat_body (RuntimeContextOff InDataOff InDataNDim InDataDimsOff
    OutTransposedOff OutTransposedNDim OutTransposedDimsOff PermOff PermNum : Z) : ML unit :=
  let* RuntimeContext := getPtr RuntimeContextOff in
  let* InDataDims := getPtr InDataDimsOff in
  let* OutTransposedDims := getPtr OutTransposedDimsOff in
  let* InData := getPtr InDataOff in
  let* OutTransposed := getPtr OutTransposedOff in
  let* Perm := getPtr PermOff in
  call "ONNC_RUNTIME_transpose_float"
    [Ptr RuntimeContext; Ptr InData; Int32 (sgn 32 InDataNDim); Ptr InDataDims; Ptr OutTransposed;
     Int32 (sgn 32 OutTransposedNDim); Ptr OutTransposedDims; Ptr Perm; Int32 (sgn 32 PermNum)].

Definition ONNCRuntimeUnsqueezeFloat_body (RuntimeContextOff InDataOff InDataNDim InDataDimsOff
    OutExpandedOff OutExpandedNDim OutExpandedDimsOff AxesOff AxesNum : Z) : ML unit :=
  let* RuntimeContext := getPtr RuntimeContextOff in
  let* InDataDims := getPtr InDataDimsOff in
  let* OutExpandedDims := getPtr OutExpandedDimsOff in
  let* InData := getPtr InDataOff in
  let* OutExpanded := getPtr OutExpandedOff in
  let* Axes := getPtr AxesOff in
  call "ONNC_RUNTIME_unsqueeze_float"
    [Ptr RuntimeContext; Ptr InData; Int32 (sgn 32 InDataNDim); Ptr InDataDims; Ptr OutExpanded;
     Int32 (sgn 32 OutExpandedNDim); Ptr OutExpandedDims; Ptr Axes; Int32 (sgn 32 AxesNum)].

(** ** include/vm/hostfunc/onnc: names and types of the parameters *)

Definition onncFunction (Name : string) (Ts : list CType) (body : fun_of Ts (ML unit))
    : LHost.HostFunctionBase H :=
  LHost.hostFunction (chars "onnc_wasm") (chars Name) 0 None Ts body.

Definition ONNCRuntimeAddFloat : LHost.HostFunctionBase H := onncFunction "ONNC_RUNTIME_add_float"
  [U32; U32; U32; U32; U32; U32; U32; U32; U32; U32] ONNCRuntimeAddFloat_body.
Definition ONNCRuntimeAddInt8 : LHost.HostFunctionBase H := onncFunction "ONNC_RUNTIME_add_int8"
  [U32; U32; U32; U32; U32; U32; U32; U32; U32; U32] ONNCRuntimeAddInt8_body.
Definition ONNCRuntimeAveragepoolFloat : LHost.HostFunctionBase H := onncFunction
  "ONNC_RUNTIME_averagepool_float" [U32; U32; U32; U32; U32; U32; U32; U32; U32; U32; U32; U32; U32;
  U32; U32] ONNCRuntimeAveragepoolFloat_body.
Definition ONNCRuntimeBatchnormalizationFloat : LHost.HostFunctionBase H := onncFunction
  "ONNC_RUNTIME_batchnormalization_float" [U32; U32; U32; U32; U32; U32; U32; U32; U32; U32; U32;
  U32; U32; U32; U32; U32; U32; U32; U32; U32; U32; U32; U32; U32; U32; U32; U32; U32; U32; U32;
  U32; FLT; FLT; U32] ONNCRuntimeBatchnormalizationFloat_body.
Definition ONNCRuntimeBatchnormalizationInt8 : LHost.HostFunctionBase H := onncFunction
  "ONNC_RUNTIME_batchnormalization_int8" [U32; U32; U32; U32; U32; U32; U32; U32; U32; U32; U32;
  U32; U32; U32; U32; U32; U32; U32; U32; U32; U32; U32; U32; U32; U32; U32; U32; U32; U32; U32;
  U32; S32; S32; U32] ONNCRuntimeBatchnormalizationInt8_body.
Definition ONNCRuntimeConcatFloat : LHost.HostFunctionBase H := onncFunction
  "ONNC_RUNTIME_concat_float" [U32; U32; U32; U32; U32; U32; U32; U32; U32]
  ONNCRuntimeConcatFloat_body.
Definition ONNCRuntimeConvFloat : LHost.HostFunctionBase H := onncFunction "ONNC_RUNTIME_conv_float"
  [U32; U32; U32; U32; U32; U32; U32; U32; U32; U32; U32; U32; U32; U32; U32; U32; U32; U32; U32;
  U32; U32; U32; U32] ONNCRuntimeConvFloat_body.
Definition ONNCRuntimeConvInt8 : LHost.HostFunctionBase H := onncFunction "ONNC_RUNTIME_conv_int8"
  [U32; U32; U32; U32; U32; U32; U32; U32; U32; U32; U32; U32; U32; U32; U32; U32; U32; U32; U32;
  U32; U32; U32; U32] ONNCRuntimeConvInt8_body.
Definition ONNCRuntimeGemmFloat : LHost.HostFunctionBase H := onncFunction "ONNC_RUNTIME_gemm_float"
  [U32; U32; U32; U32; U32; U32; U32; U32; U32; U32; U32; U32; U32; FLT; FLT; U32; U32]
  ONNCRuntimeGemmFloat_body.
Definition ONNCRuntimeGlobalaveragepoolFloat : LHost.HostFunctionBase H := onncFunction
  "ONNC_RUNTIME_globalaveragepool_float" [U32; U32; U32; U32; U32; U32; U32]
  ONNCRuntimeGlobalaveragepoolFloat_body.
Definition ONNCRuntimeLrnFloat : LHost.HostFunctionBase H := onncFunction "ONNC_RUNTIME_lrn_float"
  [U32; U32; U32; U32; U32; U32; U32; FLT; FLT; FLT; U32] ONNCRuntimeLrnFloat_body.
Definition ONNCRuntimeMaxpoolFloat : LHost.HostFunctionBase H := onncFunction
  "ONNC_RUNTIME_maxpool_float" [U32; U32; U32; U32; U32; U32; U32; U32; U32; U32; U32; U32; U32;
  U32; U32; U32; U32; U32] ONNCRuntimeMaxpoolFloat_body.
Definition ONNCRuntimeMaxpoolInt8 : LHost.HostFunctionBase H := onncFunction
  "ONNC_RUNTIME_maxpool_int8" [U32; U32; U32; U32; U32; U32; U32; U32; U32; U32; U32; U32; U32; U32;
  U32; U32; U32; U32] ONNCRuntimeMaxpoolInt8_body.
Definition ONNCRuntimeMulFloat : LHost.HostFunctionBase H := onncFunction "ONNC_RUNTIME_mul_float"
  [U32; U32; U32; U32; U32; U32; U32; U32; U32; U32] ONNCRuntimeMulFloat_body.
Definition ONNCRuntimeMulInt8 : LHost.HostFunctionBase H := onncFunction "ONNC_RUNTIME_mul_int8"
  [U32; U32; U32; U32; U32; U32; U32; U32; U32; U32] ONNCRuntimeMulInt8_body.
Definition ONNCRuntimeReluFloat : LHost.HostFunctionBase H := onncFunction "ONNC_RUNTIME_relu_float"
  [U32; U32; U32; U32; U32; U32; U32] ONNCRuntimeReluFloat_body.
Definition ONNCRuntimeReluInt8 : LHost.HostFunctionBase H := onncFunction "ONNC_RUNTIME_relu_int8"
  [U32; U32; U32; U32; U32; U32; U32] ONNCRuntimeReluInt8_body.
Definition ONNCRuntimeReshapeFloat : LHost.HostFunctionBase H := onncFunction
  "ONNC_RUNTIME_reshape_float" [U32; U32; U32; U32; U32; U32; U32; U32; U32; U32]
  ONNCRuntimeReshapeFloat_body.
Definition ONNCRuntimeSoftmaxFloat : LHost.HostFunctionBase H := onncFunction
  "ONNC_RUNTIME_softmax_float" [U32; U32; U32; U32; U32; U32; U32; U32]
  ONNCRuntimeSoftmaxFloat_body.
Definition ONNCRuntimeSumFloat : LHost.HostFunctionBase H := onncFunction "ONNC_RUNTIME_sum_float"
  [U32; U32; U32; U32; U32; U32; U32; U32] ONNCRuntimeSumFloat_body.
Definition ONNCRuntimeTransposeFloat : LHost.HostFunctionBase H := onncFunction
  "ONNC_RUNTIME_transpose_float" [U32; U32; U32; U32; U32; U32; U32; U32; U32]
  ONNCRuntimeTransposeFloat_body.
Definition ONNCRuntimeUnsqueezeFloat : LHost.HostFunctionBase H := onncFunction
  "ONNC_RUNTIME_unsqueeze_float" [U32; U32; U32; U32; U32; U32; U32; U32; U32]
  ONNCRuntimeUnsqueezeFloat_body.

(** ** lib/vm/vm.cpp: the functions [prepareVMHost] makes, in order *)

Definition ONNCFuncs : list (LHost.HostFunctionBase H) := [ONNCRuntimeAddFloat;
  ONNCRuntimeAveragepoolFloat; ONNCRuntimeBatchnormalizationFloat; ONNCRuntimeConcatFloat;
  ONNCRuntimeConvFloat; ONNCRuntimeGemmFloat; ONNCRuntimeGlobalaveragepoolFloat;
  ONNCRuntimeLrnFloat; ONNCRuntimeMaxpoolFloat; ONNCRuntimeMulFloat; ONNCRuntimeReluFloat;
  ONNCRuntimeReshapeFloat; ONNCRuntimeSoftmaxFloat; ONNCRuntimeSumFloat; ONNCRuntimeTransposeFloat;
  ONNCRuntimeUnsqueezeFloat; ONNCRuntimeAddInt8; ONNCRuntimeBatchnormalizationInt8;
  ONNCRuntimeConvInt8; ONNCRuntimeMaxpoolInt8; ONNCRuntimeMulInt8; ONNCRuntimeReluInt8].

(** [prepareVMHost] of a VM that was built with ONNC_WASM. *)
Definition prepareVMHost (EEIFuncs WasiFuncs : list (LHost.HostFunctionBase H)) : M (LVM.VM H) LVM.VMErrCode :=
  let* st := LVM.prepareVMHost EEIFuncs WasiFuncs in
  let* c := gets (fun v => Env.Config (LVM.envMgr v)) in
  if Cfg.hasVMType Cfg.ONNC c then LVM.setHostFunctions st ONNCFuncs else ret st.

End Onnc.
End LOnnc.

(** ** The two generations agree *)

(** The place in the module of the new VM of each function [prepareVMHost] makes: the integer
    functions come last. *)
Definition onnc_order : list nat :=
  [0; 2; 3; 5; 6; 8; 9; 10; 11; 13; 15; 17; 18; 19; 20; 21; 1; 4; 7; 12; 14; 16]%nat.

Section Agree.
Context {C H : Type} (runtime : ONNCRuntime C) (onnc : H -> C) (set_onnc : C -> H -> H).
Hypothesis onnc_set : forall s h, onnc (set_onnc s h) = s.
Context (tab : list Z) (cnt : Z).
#[local] Abbreviation agrees := (agrees onnc tab cnt any_gas).
#[local] Abbreviation run_meets := (run_meets onnc tab cnt any_gas).

Lemma agrees_getPtr Off : agrees (LOnnc.getPtr Off) (getPtr Off).
Proof using Type. by intros c Hc. Qed.
Lemma agrees_getPtrOrNull Off : agrees (LOnnc.getPtrOrNull Off) (getPtrOrNull Off).
Proof using Type. by intros c Hc. Qed.
Lemma agrees_onnc_call Name Args : agrees (LOnnc.call runtime onnc set_onnc Name Args) (call runtime Name Args).
Proof using onnc_set.
  intros c Hc. unfold LOnnc.call, call. cbn. destruct (runtime _ _ _ _) as [[d s]|]; [|done]. split_and!; [done| |done].
  unfold view, meter. cbn. by rewrite onnc_set.
Qed.
Lemma agrees_at32 p i : agrees (LOnnc.at32 p i) (at32 p i).
Proof using Type.
  intros c Hc. unfold LOnnc.at32, at32. rewrite !bind_get. destruct p as [o|]; [|done]. cbn.
  by destruct (_ <=? _).
Qed.
Lemma agrees_getTensors N p q : agrees (LOnnc.getTensors N p q) (getTensors N p q).
Proof using Type.
  unfold LOnnc.getTensors, getTensors. generalize 0. induction (Z.to_nat N) as [|n IH]; intros i; [by apply agrees_ret|].
  cbn [LOnnc.tensorsFrom tensorsFrom].
  apply agrees_step; [apply agrees_at32|intros a]. apply agrees_step; [apply agrees_getPtr|intros t].
  apply agrees_step; [apply agrees_at32|intros b]. apply agrees_step; [apply agrees_getPtr|intros u].
  apply agrees_step; [apply IH|intros l]. apply agrees_ret.
Qed.

Create HintDb onnc.
#[local] Hint Resolve agrees_getPtr agrees_getPtrOrNull agrees_onnc_call agrees_getTensors : onnc.

(** The two ONNC interfaces agree.  Up to the order in which they are registered, the
    ONNC functions of the first generation have the module, the names, the types and the cost
    of those of the new VM, each once; and on any stack, memory, state of the runtime and gas
    counters they report the same status and leave the same memory, state and counters, and
    after success the same stack, as far as both are defined. *)
Theorem legacy_onnc_agrees (env : Env.EnvironmentManager H) (stk : StackManager) (mem : MemoryInstance) :
  onnc_order ≡ₚ seq 0 (length (ONNCFuncs runtime)) /\
  Forall2 (fun f i => exists g, ONNCFuncs runtime !! i = Some g /\
     LHost.lhModName f = chars "onnc_wasm" /\ LHost.lhFuncName f = chars g.1 /\
     LHost.lhType f = hfType g.2 /\ LHost.lhCost f = hfCost g.2 /\
     run_meets (LHost.lhRun f env stk mem)
       (hfRun g.2 stk mem (Some (meter tab cnt env)) (onnc (Env.EnvTable env))))
    (LOnnc.ONNCFuncs runtime onnc set_onnc) onnc_order.
Proof using onnc_set.
  split; [by apply (bool_decide_eq_true_1 _)|].
  unfold LOnnc.ONNCFuncs, onnc_order. repeat (apply Forall2_cons; split); [..|constructor].
  all: eexists; split; [reflexivity|]; split_and!; [reflexivity..|].
  all: apply run_agrees; [done|]; intros args stk' _ _ _; cbn [apply].
  all: unfold LOnnc.ONNCRuntimeAddFloat_body, LOnnc.ONNCRuntimeAddInt8_body,
    LOnnc.ONNCRuntimeAveragepoolFloat_body, LOnnc.ONNCRuntimeBatchnormalizationFloat_body,
    LOnnc.ONNCRuntimeBatchnormalizationInt8_body, LOnnc.ONNCRuntimeConcatFloat_body,
    LOnnc.ONNCRuntimeConvFloat_body, LOnnc.ONNCRuntimeConvInt8_body,
    LOnnc.ONNCRuntimeGemmFloat_body, LOnnc.ONNCRuntimeGlobalaveragepoolFloat_body,
    LOnnc.ONNCRuntimeLrnFloat_body, LOnnc.ONNCRuntimeMaxpoolFloat_body,
    LOnnc.ONNCRuntimeMaxpoolInt8_body, LOnnc.ONNCRuntimeMulFloat_body,
    LOnnc.ONNCRuntimeMulInt8_body, LOnnc.ONNCRuntimeReluFloat_body, LOnnc.ONNCRuntimeReluInt8_body,
    LOnnc.ONNCRuntimeReshapeFloat_body, LOnnc.ONNCRuntimeSoftmaxFloat_body,
    LOnnc.ONNCRuntimeSumFloat_body, LOnnc.ONNCRuntimeTransposeFloat_body,
    LOnnc.ONNCRuntimeUnsqueezeFloat_body.
  all: unfold_onnc; repeat (apply agrees_step; [by auto with onnc|intros ?]); by auto with onnc.
Qed.

End Agree.

Lemma legacy_onnc_agrees_witness :
  let stk := mkStack (reverse (mkVariant U32 <$> [0; 1; 3; 0; 5; 3; 0])) [] [] in
  let mem := mkMemory false 1 0 0 [0; 7; 200; 3; 0; 0; 0; 0] in
  let env := Env.mkEnv Cfg.newConfigure [] 100000 0 4 in
  run_meets id [] 0 any_gas
    (LHost.lhRun (LOnnc.ONNCRuntimeReluInt8 example_relu id (fun s _ => s)) env stk mem)
    (hfRun (ONNCRuntimeReluInt8 example_relu) stk mem (Some (mkMeasure [] 0 100000 0)) 4).
Proof.
  intros stk mem env. destruct (legacy_onnc_agrees example_relu id (fun s _ => s) (fun s h => eq_refl) [] 0 env stk mem)
    as [_ Hf].
  destruct (Forall2_lookup_lr _ _ _ 21%nat _ _ Hf eq_refl eq_refl) as (g & [= <-] & _ & _ & _ & _ & Hr). exact Hr.
Defined.
