(* ===== verification/LegacyWorld.v ===== *)
(** * The first generation VM with its host functions: include/vm/envmgr.h, lib/vm/vm.cpp

    The table of the environment manager holds the two environments; the functions
    [prepareVMHost] registers are those of LegacyEEI.v and LegacyWasi.v. *)
From stdpp Require Import base list numbers option strings.
From Stdlib Require Import ZArith Lia.
From S2P Require Import Prelude Types Memory FileMgr HostFunc EEI EEIGas Wasi WasiFacts.
From S2P Require Import CString LegacyRuntime LegacyWorker LegacyExecutor LegacyVM LegacyFacts LegacyEEI LegacyWasi.
#[local] Open Scope Z_scope.

Module LWorld.
Section World.
Context {E X : Type} (os : OS X) (host : evmc_host_interface E) (keccak256 : list Z -> list Z).

Record World : Type := mkWorld { wEVM : EVMEnvironment E; wWasi : WasiState X }.
Definition set_wEVM (e : EVMEnvironment E) (w : World) : World := mkWorld e (wWasi w).
Definition set_wWasi (s : WasiState X) (w : World) : World := mkWorld (wEVM w) s.

(** The environments the constructor of the manager makes; without WASI no directory is
    opened. *)
Definition newEnvironments (Config : Cfg.Configure) (o : X) : World :=
  mkWorld newEVMEnvironment
    (if Cfg.hasVMType Cfg.Wasi Config then LWasi.newWasiEnvironment os o
     else mkWasi (mkWasiEnv None [] [] 0) o).

Definition makeVM (Config : Cfg.Configure) (o : X) : res (LVM.VM World) :=
  LVM.newVM Config (newEnvironments Config o).

Definition execute `{HexLib} (fs : list Z -> option (list Z)) :=
  LVM.execute (LEEI.EEIFuncs wEVM set_wEVM host keccak256) (LWasi.WasiFuncs os wWasi set_wWasi) fs.

End World.
Arguments World : clear implicits.
End LWorld.

(** ** A contract

    [f] calls [useGas] with the amount 70000, and then with 2^64 - 60000. *)
Definition gas_contract : list Z :=
  [0;97;115;109;1;0;0;0; 1;8;2; 96;1;126;0; 96;0;0;
   2;19;1; 8;101;116;104;101;114;101;117;109; 6;117;115;101;71;97;115; 0;0;
   3;2;1;1; 5;3;1;0;1; 7;5;1;1;102;0;1;
   10;16;1;14;0; 66;240;162;4; 16;0; 66;160;171;124; 16;0; 11].

Definition gas_config : Cfg.Configure := Cfg.addVMType Cfg.Ewasm Cfg.newConfigure.

Definition gas_run : res LVM.VMErrCode * Z :=
  match LWorld.makeVM example_os gas_config ([], []) with
  | Ok v =>
      let v := (LVM.setCode gas_contract v).2 in
      let v := (LVM.setCostLimit 100000 v).2 in
      let '(r, v') := @LWorld.execute Ledger Tape example_os example_host example_hash hex_lib
                        (fun _ => None) 100 [102] v in
      (r, Env.CostSum (LVM.envMgr v'))
  | _ => (NoFuel, 0)
  end.

(** The VM reports success, with 10000 used of the limit of 100000. *)
Example gas_run_mints : gas_run = (Ok LVM.VMSuccess, 10000).
Proof. vm_compute. reflexivity. Qed.
