(* ===== verification/Library.v ===== *)
(** * The library a compiled module runs in: include/compiler/{library,hostfunc}.h,
    lib/compiler/library.cpp, include/compiler/hostfunc/, lib/compiler/hostfunc/, the rest of
    lib/compiler/compiler.cpp and tools/ssvm-aot/main.cpp

    The engine that compiles the module of LLVM and runs its functions is a parameter.  A
    reference or a span of the memory of the library is not checked against its size: what
    leaves the vector is undefined.  The numbers of the host are little endian. *)
From stdpp Require Import base list numbers option strings.
From Stdlib Require Import ZArith Lia.
From S2P Require Import Prelude Types AST FileMgr FileStream Loader Memory HostFunc CString Keccak EEI Wasi.
From S2P Require Import LegacyRuntime Compiler.
#[local] Open Scope Z_scope.

(** ** The memory: [getMemory<T>(Offset)] and [getMemory<T>(Offset, Length)]

    The state of a host function is the memory of the library and its own environment. *)
Section Memory.
Context {S : Type}.
#[local] Abbreviation ML := (M (list Z * S)).

Definition readSpan (Offset Length : Z) : ML (list Z) := fun s => (read_range Offset Length s.1, s).
Definition writeSpan (Offset : Z) (bs : list Z) : ML unit := fun s =>
  match write_range Offset bs s.1 with
  | Ok m => (Ok tt, (m, s.2))
  | Err e => (Err e, s) | Undef u => (Undef u, s) | NoFuel => (NoFuel, s)
  end.
(** An unsigned number of [n] bytes through a reference. *)
Definition readRef (n : nat) (Offset : Z) : ML Z :=
  let* bs := readSpan Offset (Z.of_nat n) in ret (le_combine bs).
Definition writeRef (n : nat) (Offset x : Z) : ML unit := writeSpan Offset (le_split n x).

Definition env : ML S := gets snd.
Definition set_env (e : S) : ML unit := modify (fun s => (s.1, e)).
End Memory.

Definition kPageSize : Z := 65536.
Definition memorySize (Memory : list Z) : Z := wrap 32 (sizeZ Memory / kPageSize).
(** The number of bytes is a product of 32-bit numbers. *)
Definition memoryGrow (NewSize : Z) (Memory : list Z) : Z * list Z :=
  (wrap 32 (sizeZ Memory / kPageSize),
   resizeZ 0 (sizeZ Memory + wrap 32 (NewSize * kPageSize)) Memory).

(** ** hostfunc/ethereum *)
Module AotEEI.
Section EEI.
Context {E : Type} (host : evmc_host_interface E).
#[local] Abbreviation ML := (M (list Z * EVMEnvironment E)).

Definition EEICallDataCopy (ResultOffset DataOffset Length : Z) : ML unit :=
  if 0 <? Length then
    let* Env := env in
    let* bs := lift (read_range DataOffset Length (CallData Env)) in
    writeSpan ResultOffset bs
  else ret tt.

(** The address as a number, its first byte the lowest. *)
Definition EEICallStatic (Gas AddressOffset DataOffset DataLength : Z) : ML Z :=
  let* Addr := readSpan AddressOffset 20 in
  let* Data := readSpan DataOffset DataLength in
  if le_combine Addr =? 9 then
    let* Env := env in
    set_env (set_ReturnData (keccak256 Data) Env) ;;; ret 0
  else ret 1.

Definition EEIFinish (DataOffset DataLength : Z) : ML unit :=
  let* Data := readSpan DataOffset DataLength in
  let* Env := env in
  set_env (set_ReturnData Data Env).

Definition EEIGetCallDataSize : ML Z := let* Env := env in ret (wrap 32 (sizeZ (CallData Env))).

(** The whole caller is copied. *)
Definition EEIGetCaller (ResultOffset : Z) : ML unit :=
  let* Env := env in writeSpan ResultOffset (Caller Env).

(** The span has twenty bytes, the copy [Length]. *)
Definition EEIReturnDataCopy (ResultOffset DataOffset Length : Z) : ML unit :=
  if 0 <? Length then
    let* Env := env in
    let* bs := lift (read_range DataOffset Length (ReturnData Env)) in
    writeSpan ResultOffset bs
  else ret tt.

Definition EEIRevert (DataOffset DataLength : Z) : ML unit :=
  let* Data := readSpan DataOffset DataLength in
  let* Env := env in
  set_env (set_ReturnData Data Env).

(** [Cxt->host->get_storage(Cxt, &Addr, &Path)] *)
Definition callGetStorage (Addr Path : list Z) : ML (list Z) :=
  let* Env := env in
  match EVMCContext Env with
  | None => undef UB_indet
  | Some w =>
      let '(v, w') := get_storage host Addr Path w in
      set_env (setEVMCContext w' Env) ;;; ret v
  end.

(** The bytes of the address are copied into twenty zeroes. *)
Definition addressBytes : ML (list Z) :=
  let* Env := env in lift (write_range 0 (Address Env) (replicate 20 0)).

Definition EEIStorageLoad (PathOffset ValueOffset : Z) : ML unit :=
  let* EPath := readSpan PathOffset 32 in
  let* Addr := addressBytes in
  let* EValue := callGetStorage Addr EPath in
  writeSpan ValueOffset EValue.

(** The value is read, and the current value asked for; nothing is stored. *)
Definition EEIStorageStore (PathOffset ValueOffset : Z) : ML unit :=
  let* EPath := readSpan PathOffset 32 in
  let* EValue := readSpan ValueOffset 32 in
  let* Addr := addressBytes in
  let* CurrValue := callGetStorage Addr EPath in
  ret tt.

End EEI.
End AotEEI.

(** ** hostfunc/wasi *)
Module AotWasi.
Section Wasi.
Context {X : Type} (os : OS X) (sys_setfl : Z -> Z -> X -> Z * X) (sys_errno : X -> Z).
#[local] Abbreviation ML := (M (list Z * WasiState X)).

(** The error numbers of Linux with those of WASI. *)
Definition errnos : list (Z * Z) :=
  [(7, 1); (13, 2); (98, 3); (99, 4); (97, 5); (11, 6); (114, 7); (9, 8); (74, 9); (16, 10);
   (125, 11); (10, 12); (103, 13); (111, 14); (104, 15); (35, 16); (89, 17); (33, 18); (122, 19);
   (17, 20); (14, 21); (27, 22); (113, 23); (43, 24); (84, 25); (115, 26); (4, 27); (22, 28);
   (5, 29); (106, 30); (21, 31); (40, 32); (24, 33); (31, 34); (90, 35); (72, 36); (36, 37);
   (100, 38); (102, 39); (101, 40); (23, 41); (105, 42); (19, 43); (2, 44); (8, 45); (37, 46);
   (67, 47); (12, 48); (42, 49); (92, 50); (28, 51); (38, 52); (107, 53); (20, 54); (39, 55);
   (131, 56); (88, 57); (95, 58); (25, 59); (6, 60); (75, 61); (130, 62); (1, 63); (32, 64);
   (71, 65); (93, 66); (91, 67); (34, 68); (30, 69); (29, 70); (3, 71); (116, 72); (110, 73);
   (26, 74); (18, 75)].
Definition convertErrno (Error : Z) : Z :=
  match List.find (fun p => p.1 =? Error) errnos with
  | Some p => p.2
  | None => 52 (* __WASI_ENOSYS *)
  end.

Definition sys {A} (f : X -> A * X) : ML A := fun s =>
  let '(a, o) := f (wsOS s.2) in (Ok a, (s.1, mkWasi (wsEnv s.2) o)).
Definition wenv : ML WasiEnvironment := gets (fun s => wsEnv s.2).
Definition lastErrno : ML Z := gets (fun s => convertErrno (sys_errno (wsOS s.2))).

(** The loop that collects the strings and where each begins. *)
Fixpoint collect (Ptr : Z) (Strs : list (list Z)) (Ptrs : list Z) (Buf : list Z) : list Z * list Z :=
  match Strs with
  | [] => (Ptrs, Buf)
  | s :: Strs' => collect Ptr Strs' (Ptrs ++ [wrap 32 (Ptr + sizeZ Buf)]) (Buf ++ s ++ [0])
  end.
(** A copy of 32-bit numbers into a span. *)
Definition writeU32s (Ptr : Z) (l : list Z) : ML unit := writeSpan Ptr (concat (le_split 4 <$> l)).

Definition WasiArgsGet (ArgvPtr ArgvBufPtr : Z) : ML Z :=
  let* Env := wenv in
  let '(VArgv, VArgvBuf) := collect ArgvBufPtr (CmdArgs Env) [] [] in
  writeU32s ArgvPtr (VArgv ++ [0]) ;;;
  writeSpan ArgvBufPtr VArgvBuf ;;; ret 0.

Definition WasiArgsSizesGet (ArgcPtr ArgvBufSizePtr : Z) : ML Z :=
  let* Env := wenv in
  writeRef 4 ArgcPtr (sizeZ (CmdArgs Env)) ;;;
  writeRef 4 ArgvBufSizePtr (stringsSize (CmdArgs Env)) ;;; ret 0.

Definition environ : ML (list (list Z)) := gets (fun s => sys_environ os (wsOS s.2)).

Definition WasiEnvironGet (EnvPtr EnvBufPtr : Z) : ML Z :=
  let* Strs := environ in
  let '(VEnv, VEnvBuf) := collect EnvBufPtr Strs [] [] in
  writeU32s EnvPtr VEnv ;;;
  writeSpan EnvBufPtr VEnvBuf ;;; ret 0.

Definition WasiEnvironSizesGet (EnvCntPtr EnvBufSizePtr : Z) : ML Z :=
  let* Strs := environ in
  writeRef 4 EnvCntPtr (wrap 32 (sizeZ Strs)) ;;;
  writeRef 4 EnvBufSizePtr (stringsSize Strs) ;;; ret 0.

Definition WasiFdClose (Fd : Z) : ML Z :=
  let* r := sys (sys_close os (sgn 32 Fd)) in
  if negb (r =? 0) then lastErrno else ret 0.

Definition WasiFdFdstatGet (Fd FdStatPtr : Z) : ML Z :=
  let* st := sys (sys_fstat os (sgn 32 Fd)) in
  match st with
  | None => lastErrno
  | Some st_mode =>
      let* FdFlags := sys (sys_getfl os (sgn 32 Fd)) in
      if FdFlags <? 0 then lastErrno
      else
        writeRef 1 FdStatPtr (filetype st_mode) ;;;
        writeRef 1 (wrap 32 (FdStatPtr + 1)) 0 ;;;
        writeRef 2 (wrap 32 (FdStatPtr + 2)) (fdflags FdFlags) ;;;
        writeRef 4 (wrap 32 (FdStatPtr + 4)) 0 ;;;
        writeRef 8 (wrap 32 (FdStatPtr + 8)) RIGHTS_ALL ;;;
        writeRef 8 (wrap 32 (FdStatPtr + 16)) RIGHTS_ALL ;;; ret 0
  end.

Definition set_flags (FdFlags : Z) : Z :=
  let Flags := or_if (bit_set FdFlags 1) O_APPEND 0 in
  let Flags := or_if (bit_set FdFlags 2) O_DSYNC Flags in
  let Flags := or_if (bit_set FdFlags 4) O_NONBLOCK Flags in
  let Flags := or_if (bit_set FdFlags 8) O_RSYNC Flags in
  or_if (bit_set FdFlags 16) O_SYNC Flags.
Definition WasiFdFdstatSetFlags (Fd FdFlags : Z) : ML Z :=
  let* r := sys (sys_setfl (sgn 32 Fd) (set_flags FdFlags)) in
  if r <? 0 then lastErrno else ret 0.

(** [Entry.Fd != Fd] compares as unsigned numbers. *)
Definition findEntry (Fd : Z) (l : list PreStat) : option PreStat :=
  List.find (fun Entry => wrap 32 (psFd Entry) =? Fd) l.

Definition WasiFdPrestatDirName (Fd PathBufPtr PathLen : Z) : ML Z :=
  let* Env := wenv in
  match findEntry Fd (PreStats Env) with
  | None => ret WASI_EBADF
  | Some Entry =>
      if PathLen <? sizeZ (psPath Entry) then ret WASI_EINVAL
      else writeSpan PathBufPtr (psPath Entry) ;;; ret 0
  end.

Definition WasiFdPrestatGet (Fd PreStatPtr : Z) : ML Z :=
  let* Env := wenv in
  match findEntry Fd (PreStats Env) with
  | None => ret WASI_EBADF
  | Some Entry =>
      let* st := sys (sys_fstat os (sgn 32 Fd)) in
      match st with
      | None => lastErrno
      | Some st_mode =>
          writeRef 1 PreStatPtr (if Z.land st_mode S_IFMT =? S_IFDIR then 0 else 1) ;;;
          writeRef 4 (wrap 32 (PreStatPtr + 4)) (wrap 32 (sizeZ (psPath Entry))) ;;; ret 0
      end
  end.

(** The counter is a reference: it is read and stored on every turn. *)
Definition addToRef (Ptr n : Z) : ML unit :=
  let* x := readRef 4 Ptr in writeRef 4 Ptr (wrap 32 (x + n)).
Definition ioVec (IOVecPtr K : Z) : ML (Z * Z) :=
  let* BufPtr := readRef 4 (wrap 32 (IOVecPtr + 8 * K)) in
  let* BufLen := readRef 4 (wrap 32 (IOVecPtr + 8 * K + 4)) in
  ret (BufPtr, BufLen).

(** [read] stores into the span it is given. *)
Definition readInto (Fd BufPtr BufLen : Z) : ML Z :=
  readSpan BufPtr BufLen ;;;
  let* r := sys (sys_read os (sgn 32 Fd) false BufLen) in
  writeSpan BufPtr r.2 ;;; ret (wrap 32 r.1).
Fixpoint readLoop (n : nat) (K Fd IOVecPtr NReadPtr : Z) : ML Z :=
  match n with
  | O => ret 0
  | S n' =>
      let* v := ioVec IOVecPtr K in
      let* SizeRead := readInto Fd v.1 v.2 in
      if SizeRead =? 2 ^ 32 - 1 then lastErrno
      else addToRef NReadPtr SizeRead ;;; readLoop n' (K + 1) Fd IOVecPtr NReadPtr
  end.
Definition WasiFdRead (Fd IOVecPtr IOVecCnt NReadPtr : Z) : ML Z :=
  writeRef 4 NReadPtr 0 ;;; readLoop (Z.to_nat IOVecCnt) 0 Fd IOVecPtr NReadPtr.

Definition WasiFdSeek (Fd Offset Whence NewOffsetPtr : Z) : ML Z :=
  match whence Whence with
  | None => ret WASI_EINVAL
  | Some NWhence =>
      let* NewOffset := sys (sys_lseek os (sgn 32 Fd) Offset NWhence) in
      if NewOffset =? -1 then lastErrno
      else writeRef 8 NewOffsetPtr (wrap 64 NewOffset) ;;; ret 0
  end.

Fixpoint writeLoop (n : nat) (K Fd IOVecPtr NWrittenPtr : Z) : ML Z :=
  match n with
  | O => ret 0
  | S n' =>
      let* v := ioVec IOVecPtr K in
      let* bs := readSpan v.1 v.2 in
      let* r := sys (sys_write os (sgn 32 Fd) (Some bs) v.2) in
      let SizeWrite := wrap 32 r in
      if negb (SizeWrite =? v.2) then lastErrno
      else addToRef NWrittenPtr SizeWrite ;;; writeLoop n' (K + 1) Fd IOVecPtr NWrittenPtr
  end.
Definition WasiFdWrite (Fd IOVecPtr IOVecCnt NWrittenPtr : Z) : ML Z :=
  writeRef 4 NWrittenPtr 0 ;;; writeLoop (Z.to_nat IOVecCnt) 0 Fd IOVecPtr NWrittenPtr.

Definition path_flags (OFlags FsRightsBase FsFlags : Z) : Z :=
  let Read := bit_set FsRightsBase (0x2 + 0x4000) in
  let Write := bit_set FsRightsBase (0x1 + 0x40 + 0x100 + 0x400000) in
  let Flags := if Write then if Read then O_RDWR else O_WRONLY else O_RDONLY in
  let Flags := or_if (bit_set OFlags 1) O_CREAT Flags in
  let Flags := or_if (bit_set OFlags 2) O_DIRECTORY Flags in
  let Flags := or_if (bit_set OFlags 4) O_EXCL Flags in
  let Flags := or_if (bit_set OFlags 8) O_TRUNC Flags in
  let Flags := or_if (bit_set FsFlags 1) O_APPEND Flags in
  let Flags := or_if (bit_set FsFlags 2) O_DSYNC Flags in
  let Flags := or_if (bit_set FsFlags 4) O_NONBLOCK Flags in
  let Flags := or_if (bit_set FsFlags 8) O_RSYNC Flags in
  or_if (bit_set FsFlags 16) O_SYNC Flags.

(** The directory and the flags of the lookup are not used. *)
Definition WasiPathOpen (DirFd DirFlags PathPtr PathLen OFlags FsRightsBase FsRightsInheriting
    FsFlags FdPtr : Z) : ML Z :=
  let* Path := readSpan PathPtr PathLen in
  let* r := sys (sys_open os (CString.c_str Path) (path_flags OFlags FsRightsBase FsFlags) 420) in
  let Fd := sgn 32 r in
  if Fd =? -1 then lastErrno
  else writeRef 4 FdPtr (wrap 32 Fd) ;;; ret 0.

(** [Lib.terminate()] throws [ErrCode::Terminated]. *)
Definition WasiProcExit (ExitCode : Z) : ML unit :=
  modify (fun s => (s.1, mkWasi (setExitCode (sgn 32 ExitCode) (wsEnv s.2)) (wsOS s.2))) ;;;
  throw Terminated.

End Wasi.
End AotWasi.

(** ** class Library *)

(** What a symbol of the library stands for. *)
Inductive HostFunction : Set :=
| F_CallDataCopy | F_CallStatic | F_Finish | F_GetCallDataSize | F_GetCaller | F_ReturnDataCopy
| F_Revert | F_StorageLoad | F_StorageStore
| F_ArgsGet | F_ArgsSizesGet | F_EnvironGet | F_EnvironSizesGet | F_FdClose | F_FdFdstatGet
| F_FdFdstatSetFlags | F_FdPrestatDirName | F_FdPrestatGet | F_FdRead | F_FdSeek | F_FdWrite
| F_PathOpen | F_ProcExit
| F_QITCTimerStart | F_QITCTimerStop | F_QITCTimerClear.
Inductive Symbol : Set :=
| Sym_memset | Sym_memcpy | Sym_trapProxy | Sym_memorySizeProxy | Sym_memoryGrowProxy
| Sym_Library | Sym_MemoryPtr | Sym_getFunction (f : HostFunction) | Sym_context (f : HostFunction).

#[export] Instance HostFunction_eq_dec : EqDecision HostFunction.
Proof. solve_decision. Defined.
#[export] Instance Symbol_eq_dec : EqDecision Symbol.
Proof. solve_decision. Defined.

Module Lib.
Section Library.
Context {llvm : LLVM}.

Record Library : Type := mkLibrary {
  Module_ : option Build; Symbols : list (list Z * Symbol); HostFuncs : list HostFunction;
  Arguments_ : list ValVariant; Returns_ : list ValVariant; Memory_ : list Z }.
#[local] Abbreviation MLib := (M Library).

Definition newLibrary : Library :=
  mkLibrary None [] [] [] [] (replicate (Z.to_nat (kPageSize * 2)) 0).

(** [cantFail(ExecutionEngine->defineAbsolute(Name, ...))]: a second definition is an error. *)
Definition defineAbsolute (Name : list Z) (x : Symbol) : MLib unit := fun l =>
  if existsb (fun p => bool_decide (p.1 = Name)) (Symbols l) then (Undef UB_throw, l)
  else (Ok tt, mkLibrary (Module_ l) (Symbols l ++ [(Name, x)]) (HostFuncs l) (Arguments_ l)
                 (Returns_ l) (Memory_ l)).

Definition setModule (b : Build) : MLib unit :=
  modify (fun l => mkLibrary (Some b) (Symbols l) (HostFuncs l) (Arguments_ l) (Returns_ l) (Memory_ l)) ;;;
  defineAbsolute (chars "memset") Sym_memset ;;;
  defineAbsolute (chars "memcpy") Sym_memcpy ;;;
  defineAbsolute (chars "$trap") Sym_trapProxy ;;;
  defineAbsolute (chars "$memory.size") Sym_memorySizeProxy ;;;
  defineAbsolute (chars "$memory.grow") Sym_memoryGrowProxy ;;;
  defineAbsolute (chars "$lib.ctx") Sym_Library ;;;
  defineAbsolute (chars "$memory") Sym_MemoryPtr.

Definition setHostFunction (f : HostFunction) (ModName FuncName : list Z) : MLib unit :=
  let FullName := ModName ++ chars "." ++ FuncName in
  defineAbsolute FullName (Sym_getFunction f) ;;;
  defineAbsolute (FullName ++ chars ".ctx") (Sym_context f) ;;;
  modify (fun l => mkLibrary (Module_ l) (Symbols l) (HostFuncs l ++ [f]) (Arguments_ l) (Returns_ l)
                     (Memory_ l)).

Fixpoint setHostFunctions (ModName : string) (fs : list (HostFunction * string)) : MLib unit :=
  match fs with
  | [] => ret tt
  | (f, n) :: fs' => setHostFunction f (chars ModName) (chars n) ;;; setHostFunctions ModName fs'
  end.

(** *** Running it

    [jit l Name] is the function of that name in the engine of [l], if it finds one: it
    runs on the library and the rest of the world, and ends or throws. *)
Section Execute.
Context {W : Type} (jit : Library -> list Z -> option (Library * W -> (unit + CErrCode) * (Library * W))).
#[local] Abbreviation MW := (M (Library * W)).

(** The constructor runs outside the [try]: what it throws ends the program. *)
Definition executeName (FuncName : list Z) : MW CErrCode := fun s =>
  match jit s.1 (chars "$ctor") with
  | Some f =>
      match f s with
      | (inr _, s') => (Undef UB_throw, s')
      | (inl _, s') =>
          match jit s'.1 FuncName with
          | Some f' =>
              let '(r, s'') := f' s' in
              (Ok match r with inl _ => CSuccess | inr st => st end, s'')
          | None => (Ok CFailed, s')
          end
      end
  | None =>
      match jit s.1 FuncName with
      | Some f' =>
          let '(r, s'') := f' s in (Ok match r with inl _ => CSuccess | inr st => st end, s'')
      | None => (Ok CFailed, s)
      end
  end.
Definition execute : MW CErrCode := executeName (chars "_start").
End Execute.

End Library.
End Lib.

(** ** class Compiler *)
Module Aot.
Section Compiler.
Context {llvm : LLVM}.
(** The files, and the fuel of the loader. *)
Context (files : list Z -> option (list Z)) (fuel : nat).

Record Compiler : Type := mkCompiler {
  Config : Cfg.Configure; LoaderEngine : Loader; WasmPath : list Z; WasmCode : list Z;
  Mod : option AModule; Lib_ : option Lib.Library }.
#[local] Abbreviation MA := (M Compiler).

Definition newCompiler (InputConfig : Cfg.Configure) : Compiler :=
  mkCompiler InputConfig newLoader [] [] None None.
Definition setPath (FilePath : list Z) (c : Compiler) : Compiler :=
  mkCompiler (Config c) (LoaderEngine c) FilePath (WasmCode c) (Mod c) (Lib_ c).
Definition setCode (Code : list Z) (c : Compiler) : Compiler :=
  mkCompiler (Config c) (LoaderEngine c) (WasmPath c) Code (Mod c) (Lib_ c).

Definition onLoader {A} (m : M Loader A) : MA A :=
  zoom LoaderEngine (fun l c => mkCompiler (Config c) l (WasmPath c) (WasmCode c) (Mod c) (Lib_ c)) m.

Definition runLoader : MA CErrCode :=
  let* c := get in
  let* Res := try (onLoader (if bool_decide (WasmPath c = []) then onFVMgr (parseModule fuel (WasmCode c))
                             else onFSMgr (parseModulePath files fuel (WasmPath c)))) in
  match Res with
  | inr _ => ret CFailed
  | inl m =>
      modify (fun c => mkCompiler (Config c) (LoaderEngine c) (WasmPath c) (WasmCode c) (Some m) (Lib_ c)) ;;;
      ret CSuccess
  end.

Definition setLib (l : Lib.Library) (c : Compiler) : Compiler :=
  mkCompiler (Config c) (LoaderEngine c) (WasmPath c) (WasmCode c) (Mod c) (Some l).

Definition EEIFunctions : list (HostFunction * string) :=
  [(F_CallDataCopy, "callDataCopy"); (F_CallStatic, "callStatic"); (F_Finish, "finish");
   (F_GetCallDataSize, "getCallDataSize"); (F_GetCaller, "getCaller");
   (F_ReturnDataCopy, "returnDataCopy"); (F_Revert, "revert"); (F_StorageLoad, "storageLoad");
   (F_StorageStore, "storageStore")].
Definition WasiFunctions : list (HostFunction * string) :=
  [(F_ArgsGet, "args_get"); (F_ArgsSizesGet, "args_sizes_get"); (F_EnvironGet, "environ_get");
   (F_EnvironSizesGet, "environ_sizes_get"); (F_FdClose, "fd_close");
   (F_FdFdstatGet, "fd_fdstat_get"); (F_FdFdstatSetFlags, "fd_fdstat_set_flags");
   (F_FdPrestatDirName, "fd_prestat_dir_name"); (F_FdPrestatGet, "fd_prestat_get");
   (F_FdRead, "fd_read"); (F_FdSeek, "fd_seek"); (F_FdWrite, "fd_write");
   (F_PathOpen, "path_open"); (F_ProcExit, "proc_exit")].

Definition onLib (m : M Lib.Library unit) : MA unit :=
  let* c := get in
  match Lib_ c with
  | None => undef UB_deref
  | Some l => let '(r, l') := m l in modify (setLib l') ;;; lift r
  end.

(** The module as LLVM has it: the context, the sections and the constructor. *)
Definition compileAST (Mod : option AModule) : M Build CErrCode := fun b =>
  match newContext b with
  | (Ok c, b1) =>
      let '(r, s) := (andThen (onSection Mod compileModule)
                        (compileCtor ;;; ret CSuccess)) (mkCS c b1) in
      (r, CBld s)
  | (Err e, b1) => (Err e, b1) | (Undef u, b1) => (Undef u, b1) | (NoFuel, b1) => (NoFuel, b1)
  end.

(** What [verifyModule] says is not looked at; the file it is printed to is left out. *)
Definition compile : MA CErrCode :=
  let* st := runLoader in
  match st with
  | CSuccess =>
      modify (setLib Lib.newLibrary) ;;;
      let* c := get in
      let '(r, b) := compileAST (Mod c) (newModule (chars "wasm.ll")) in
      let* st := lift r in
      match st with
      | CSuccess =>
          onLib (Lib.setModule (optimize b)) ;;;
          (if Cfg.hasVMType Cfg.Ewasm (Config c)
           then onLib (Lib.setHostFunctions "ethereum" EEIFunctions) else ret tt) ;;;
          (if Cfg.hasVMType Cfg.Wasi (Config c)
           then onLib (Lib.setHostFunctions "wasi_unstable" WasiFunctions) else ret tt) ;;;
          ret CSuccess
      | _ => ret st
      end
  | _ => ret st
  end.

(** ** tools/ssvm-aot/main.cpp

    [onnc] is whether it is built with [ONNC_WASM]; the command line goes to the environment
    of WASI, [setArgs].  The result is the exit code. *)
Section Main.
Context {W : Type} (jit : Lib.Library -> list Z -> option (Lib.Library * W -> (unit + CErrCode) * (Lib.Library * W))).
Context (setArgs : list (list Z) -> W -> W) (onnc : bool).

Definition QITCFunctions : list (HostFunction * string) :=
  [(F_QITCTimerStart, "QITC_time_start"); (F_QITCTimerStop, "QITC_time_stop");
   (F_QITCTimerClear, "QITC_time_clear")].

Definition aot_main (Argv : list (list Z)) (w : W) : res Z * W :=
  match Argv with
  | _ :: InputPath :: Inputs =>
      let Conf := Cfg.addVMType Cfg.Wasi Cfg.newConfigure in
      let w := setArgs (InputPath :: Inputs) w in
      match compile (setPath InputPath (newCompiler Conf)) with
      | (Ok CSuccess, c) =>
          let '(r, c) := (if onnc then onLib (Lib.setHostFunctions "QITC" QITCFunctions) else ret tt) c in
          match r, Lib_ c with
          | Ok _, Some l =>
              let '(r, (_, w)) := Lib.execute jit (l, w) in
              (let? _ := r in Ok 0, w)
          | Ok _, None => (Undef UB_deref, w)
          | Err e, _ => (Err e, w) | Undef u, _ => (Undef u, w) | NoFuel, _ => (NoFuel, w)
          end
      | (Ok _, _) => (Ok 1, w)
      | (Err e, _) => (Err e, w) | (Undef u, _) => (Undef u, w) | (NoFuel, _) => (NoFuel, w)
      end
  | _ => (Ok 0, w)
  end.
End Main.

End Compiler.
End Aot.
