(* ===== verification/LibraryFacts.v ===== *)
(** * Facts about the library of the compiled code

    The memory and the functions of the host as the compiled code sees them, and what the
    tool does with the outcome. *)
From stdpp Require Import base list numbers option strings.
From Stdlib Require Import ZArith Lia.
From S2P Require Import Prelude Types AST FileMgr FileStream Loader Memory HostFunc CString Keccak EEI Wasi.
From S2P Require Import LegacyRuntime Compiler Library.
#[local] Open Scope Z_scope.

(** ** The memory *)

(** Growing by less than 65536 pages adds them, zeroed, and returns the old number of pages;
    growing by 65536, which WebAssembly refuses with -1, adds nothing and returns the same. *)
Theorem library_memory_grows (Memory : list Z) (n : Z) :
  (0 <= n < 65536 ->
     let '(Old, m) := memoryGrow n Memory in
     Old = memorySize Memory /\ sizeZ m = sizeZ Memory + n * kPageSize /\
     take (length Memory) m = Memory /\
     (forall i, (length Memory <= i)%nat -> Z.of_nat i < sizeZ m -> m !! i = Some 0)) /\
  memoryGrow 65536 Memory = (memorySize Memory, Memory).
Proof.
  assert (0 <= sizeZ Memory) as H0 by (unfold sizeZ; lia). split.
  - intros Hn. unfold memoryGrow. unfold kPageSize in *.
    rewrite (wrap_small 32 (n * 65536)) by (unfold in_u; lia). split_and!.
    + done.
    + apply length_resizeZ. lia.
    + unfold resizeZ. rewrite (take_ge Memory) by (unfold sizeZ in *; lia). by rewrite take_app_length.
    + intros i Hi Hi'. rewrite length_resizeZ in Hi' by lia. rewrite lookup_resizeZ by lia.
      by rewrite lookup_ge_None_2.
  - unfold memoryGrow, memorySize, kPageSize. change (wrap 32 (65536 * 65536)) with 0.
    rewrite Z.add_0_r. unfold resizeZ, sizeZ. rewrite Nat2Z.id, take_ge, Nat.sub_diag by done.
    cbn. by rewrite app_nil_r.
Qed.

(** ** The Ethereum functions *)

(** [finish] and [revert] are the same function: neither ends the program, and nothing tells
    the caller which of them was called. *)
Theorem aot_revert_is_finish {E} (p n : Z) :
  AotEEI.EEIRevert (E := E) p n = AotEEI.EEIFinish p n.
Proof. done. Qed.

(** [storageStore] stores nothing: the memory and all but the state of the host are as before,
    and what it does is the same for every [set_storage] of the host. *)
Theorem aot_storage_store_stores_nothing {E} (host host' : evmc_host_interface E) p v s r s' :
  get_storage host' = get_storage host ->
  AotEEI.EEIStorageStore host p v s = (r, s') ->
  AotEEI.EEIStorageStore host' p v s = (r, s') /\ s'.1 = s.1 /\
  exists w, s'.2 = mkEVMEnv (Caller s.2) (CallValue s.2) (CallData s.2) (Address s.2) (ReturnData s.2)
                    (Code s.2) (Depth s.2) (Flag s.2) (CallKind s.2) w.
Proof.
  intros Hh E1. split.
  - rewrite <- E1. unfold AotEEI.EEIStorageStore, AotEEI.callGetStorage. by rewrite Hh.
  - revert E1. unfold AotEEI.EEIStorageStore, AotEEI.callGetStorage, AotEEI.addressBytes, readSpan, lift,
      env, set_env, gets, modify, undef, ret, bind.
    destruct s as [m []]. cbn.
    repeat case_match; intros; simplify_eq; (split; [done|]); eexists; reflexivity.
Qed.

(** ** The command line *)

Section Args.
Context {X : Type}.

(** The strings with their zeroes, and where each begins. *)
Definition joined (Strs : list (list Z)) : list Z := concat ((fun s => s ++ [0]) <$> Strs).
Fixpoint starts (Ptr : Z) (Strs : list (list Z)) : list Z :=
  match Strs with [] => [] | s :: Strs' => wrap 32 Ptr :: starts (Ptr + (sizeZ s + 1)) Strs' end.

Lemma collect_eq Ptr Strs Ptrs Buf :
  AotWasi.collect Ptr Strs Ptrs Buf = (Ptrs ++ starts (Ptr + sizeZ Buf) Strs, Buf ++ joined Strs).
Proof.
  revert Ptrs Buf. induction Strs as [|s Strs IH]; intros Ptrs Buf; cbn [AotWasi.collect starts joined].
  - by rewrite !app_nil_r.
  - rewrite IH. assert (Ptr + sizeZ (Buf ++ s ++ [0]) = Ptr + sizeZ Buf + (sizeZ s + 1)) as ->.
    { unfold sizeZ. rewrite !length_app. cbn [length]. lia. }
    unfold joined. cbn. by rewrite <- !app_assoc.
Qed.

(** The place of a string in the joined ones. *)
Lemma joined_at Ptr Strs k s :
  Strs !! k = Some s -> 0 <= Ptr -> Ptr + sizeZ (joined Strs) <= 2 ^ 32 ->
  exists off, starts Ptr Strs !! k = Some (Ptr + off) /\ 0 <= off /\
    off + sizeZ s + 1 <= sizeZ (joined Strs) /\ slice off (sizeZ s + 1) (joined Strs) = s ++ [0].
Proof.
  revert Ptr k. induction Strs as [|s0 Strs IH]; intros Ptr k Hk Hp Hsz; [done|].
  assert (sizeZ (joined (s0 :: Strs)) = sizeZ s0 + 1 + sizeZ (joined Strs)) as Hj.
  { unfold joined, sizeZ. cbn. rewrite !length_app. cbn. lia. }
  assert (0 <= sizeZ s0 /\ 0 <= sizeZ (joined Strs)) by (unfold sizeZ; lia).
  destruct k as [|k]; cbn in Hk.
  - simplify_eq. exists 0. cbn [starts]. split_and!; [|lia|lia|].
    + cbn. rewrite wrap_small by (unfold in_u; lia). f_equal. lia.
    + unfold joined, slice, sizeZ. cbn [fmap list_fmap concat]. rewrite drop_0.
      rewrite take_app_le by (rewrite length_app; cbn; lia).
      apply take_ge. rewrite length_app. cbn. lia.
  - destruct (IH (Ptr + (sizeZ s0 + 1)) k Hk) as (off & Hs & Ho & Hle & Hsl); [lia..|].
    exists (sizeZ s0 + 1 + off). cbn [starts]. split_and!; [|lia|lia|].
    + change (starts (Ptr + (sizeZ s0 + 1)) Strs !! k = Some (Ptr + (sizeZ s0 + 1 + off))).
      rewrite Hs. f_equal. lia.
    + rewrite <- Hsl. unfold slice. f_equal. unfold joined at 1. cbn [fmap list_fmap concat].
      rewrite drop_app_ge by (rewrite length_app; unfold sizeZ; cbn; lia).
      f_equal. rewrite length_app. unfold sizeZ. cbn. lia.
Qed.

Lemma length_pointers l : sizeZ (concat (le_split 4 <$> l)) = 4 * sizeZ l.
Proof.
  unfold sizeZ. induction l as [|x l IH]; [done|]. cbn [fmap list_fmap concat].
  rewrite length_app, length_le_split. cbn [length]. lia.
Qed.

Lemma slice_concat_split l k x :
  l !! k = Some x -> slice (4 * Z.of_nat k) 4 (concat (le_split 4 <$> l)) = le_split 4 x.
Proof.
  revert k. induction l as [|y l IH]; intros k Hk; [done|]. cbn [fmap list_fmap concat].
  destruct k as [|k]; cbn in Hk.
  - simplify_eq. unfold slice. by rewrite drop_0, take_app_le, take_ge by (by rewrite length_le_split).
  - rewrite <- (IH k Hk). unfold slice. f_equal.
    rewrite drop_app_ge by (rewrite length_le_split; lia). f_equal. rewrite length_le_split. lia.
Qed.

Lemma slice_splice_in off bs (l : list Z) i len :
  0 <= off -> off + sizeZ bs <= sizeZ l -> 0 <= i -> 0 <= len -> i + len <= sizeZ bs ->
  slice (off + i) len (splice off bs l) = slice i len bs.
Proof.
  intros. apply list_eq. intros j. destruct (Z.lt_ge_cases (Z.of_nat j) len).
  - rewrite !lookup_slice, lookup_splice_in by lia. f_equal. lia.
  - rewrite !lookup_ge_None_2; [done|..]; unfold slice; rewrite length_take; lia.
Qed.
Lemma slice_splice_out off bs (l : list Z) i len :
  0 <= off -> off + sizeZ bs <= sizeZ l -> 0 <= i -> 0 <= len ->
  i + len <= off \/ off + sizeZ bs <= i ->
  slice i len (splice off bs l) = slice i len l.
Proof.
  intros. apply list_eq. intros j. destruct (Z.lt_ge_cases (Z.of_nat j) len).
  - by rewrite !lookup_slice, lookup_splice_out by lia.
  - rewrite !lookup_ge_None_2; [done|..]; unfold slice; rewrite length_take; lia.
Qed.

Lemma length_string_starts Ptr Strs : length (starts Ptr Strs) = length Strs.
Proof. revert Ptr. induction Strs as [|s Strs IH]; intros Ptr; cbn; [done|]. by rewrite IH. Qed.

Lemma writeSpan_ok {S} off bs (m : list Z) (e : S) :
  off + sizeZ bs <= sizeZ m -> writeSpan off bs (m, e) = (Ok tt, (splice off bs m, e)).
Proof.
  intros Hl. unfold writeSpan, write_range. cbn. by rewrite (proj2 (Z.leb_le _ _) Hl).
Qed.

(** [args_get] lays the command line out as WASI asks: where the array of pointers and the
    buffer lie in the memory and do not overlap, it succeeds, the pointer of every argument
    points to the argument and a zero, and a null pointer ends the array. *)
Theorem aot_args_get_lays_out (ArgvPtr ArgvBufPtr : Z) (m : list Z) (ws : WasiState X) :
  let Args := CmdArgs (wsEnv ws) in
  let n := sizeZ Args in
  0 <= ArgvPtr -> 0 <= ArgvBufPtr -> ArgvPtr + 4 * (n + 1) <= sizeZ m ->
  ArgvBufPtr + sizeZ (joined Args) <= sizeZ m -> sizeZ m <= 2 ^ 32 ->
  (ArgvPtr + 4 * (n + 1) <= ArgvBufPtr \/ ArgvBufPtr + sizeZ (joined Args) <= ArgvPtr) ->
  exists m', AotWasi.WasiArgsGet ArgvPtr ArgvBufPtr (m, ws) = (Ok 0, (m', ws)) /\
    sizeZ m' = sizeZ m /\
    (forall k Arg, Args !! k = Some Arg -> exists p,
       le_combine (slice (ArgvPtr + 4 * Z.of_nat k) 4 m') = p /\
       slice p (sizeZ Arg + 1) m' = Arg ++ [0]) /\
    le_combine (slice (ArgvPtr + 4 * n) 4 m') = 0.
Proof.
  intros Args n H1 H2 H3 H4 H5 Hd. unfold AotWasi.WasiArgsGet, AotWasi.wenv, gets, bind at 1. cbn [snd].
  fold Args. rewrite collect_eq. cbn [app]. unfold sizeZ at 1. cbn [length]. rewrite Z.add_0_r.
  set (ptrs := starts ArgvBufPtr Args ++ [0]).
  assert (sizeZ (concat (le_split 4 <$> ptrs)) = 4 * (n + 1)) as Hp.
  { rewrite length_pointers. unfold ptrs, n, sizeZ. rewrite length_app, length_string_starts. cbn. lia. }
  assert (0 <= n /\ 0 <= sizeZ (joined Args)) as [Hn Hj] by (unfold n, sizeZ; lia).
  set (m1 := splice ArgvPtr (concat (le_split 4 <$> ptrs)) m).
  assert (sizeZ m1 = sizeZ m) as Hm1 by (unfold m1, sizeZ at 1 2; rewrite length_splice by lia; done).
  assert (sizeZ (splice ArgvBufPtr (joined Args) m1) = sizeZ m) as Hm2
    by (rewrite <- Hm1; unfold sizeZ at 1 2; rewrite length_splice by lia; done).
  assert (forall k x, ptrs !! k = Some x ->
    le_combine (slice (ArgvPtr + 4 * Z.of_nat k) 4 (splice ArgvBufPtr (joined Args) m1)) = wrap 32 x) as Hat.
  { intros k x Hk. pose proof (lookup_lt_Some _ _ _ Hk) as Hlt.
    assert (4 * Z.of_nat k + 4 <= 4 * (n + 1)) by (rewrite <- Hp, length_pointers; unfold sizeZ; lia).
    rewrite slice_splice_out by lia. unfold m1. rewrite slice_splice_in by lia.
    rewrite (slice_concat_split _ _ _ Hk), le_combine_split. done. }
  exists (splice ArgvBufPtr (joined Args) m1). split_and!; [|done| |].
  - unfold AotWasi.writeU32s, bind. rewrite writeSpan_ok by lia. fold m1. by rewrite writeSpan_ok by lia.
  - intros k Arg Hk. destruct (joined_at ArgvBufPtr _ _ _ Hk) as (off & Hs & Ho & Hle & Hsl); [lia..|].
    exists (ArgvBufPtr + off). assert (0 <= sizeZ Arg) by (unfold sizeZ; lia). split.
    + rewrite (Hat k (ArgvBufPtr + off)).
      * apply wrap_small. unfold in_u. lia.
      * unfold ptrs. by apply lookup_app_l_Some.
    + rewrite slice_splice_in by lia. done.
  - replace n with (Z.of_nat (length Args)) by done. rewrite (Hat (length Args) 0); [done|].
    unfold ptrs. rewrite lookup_app_r, length_string_starts, Nat.sub_diag by (rewrite length_string_starts; lia). done.
Qed.

End Args.

(** ** The symbols and the tool *)

(** The symbols the compiler defines are distinct, so no definition fails: a library with both
    sets of host functions has the seven symbols of the library and two for every function, and
    the import [M.f] of a module finds the function and its context under the names
    [createCtxCall] gives them. *)
Theorem library_symbols_defined {llvm : LLVM} (b : Build) :
  exists l, (Lib.setModule b ;;; Lib.setHostFunctions "ethereum" Aot.EEIFunctions ;;;
             Lib.setHostFunctions "wasi_unstable" Aot.WasiFunctions) Lib.newLibrary = (Ok tt, l) /\
    Lib.Module_ l = Some b /\ length (Lib.Symbols l) = 53%nat /\ NoDup (Lib.Symbols l).*1 /\
    Forall (fun p =>
      (chars "ethereum" ++ chars "." ++ chars p.2, Sym_getFunction p.1) ∈ Lib.Symbols l /\
      ((chars "ethereum" ++ chars "." ++ chars p.2) ++ chars ".ctx", Sym_context p.1) ∈ Lib.Symbols l)
      Aot.EEIFunctions.
Proof.
  unfold Lib.newLibrary. generalize (replicate (Z.to_nat (kPageSize * 2)) 0). intros m.
  eexists. split; [vm_compute; reflexivity|]. split; [reflexivity|]. split; [reflexivity|].
  split; apply (bool_decide_unpack _); vm_compute; exact Logic.I.
Qed.

(** The exit code of the tool says that the module was compiled, and nothing else: whatever
    the program does, whether it traps, is not found or ends itself with an exit code, it is 0. *)
Theorem aot_exit_code_ignores_execution {llvm : LLVM} files fuel {W : Type} jit
    (setArgs : list (list Z) -> W -> W) Name InputPath Inputs w c l st l' w' :
  Aot.compile files fuel (Aot.setPath InputPath (Aot.newCompiler (Cfg.addVMType Cfg.Wasi Cfg.newConfigure))) =
    (Ok CSuccess, c) ->
  Aot.Lib_ c = Some l ->
  Lib.execute jit (l, setArgs (InputPath :: Inputs) w) = (Ok st, (l', w')) ->
  Aot.aot_main files fuel jit setArgs false (Name :: InputPath :: Inputs) w = (Ok 0, w').
Proof.
  intros Hc Hl He. unfold Aot.aot_main. rewrite Hc. unfold ret. rewrite Hl. rewrite He. done.
Qed.
